(* ===== verification/_CoqProject ===== *)
-Q . S2P
Prelude.v
TxScriptErr.v
Params.v
ScriptNum.v
Stack.v
Opcode.v
Sha.v
Wire.v
ParseScript.v
ScriptBuilder.v
MsgTx.v
MsgTxProps.v
ScriptUtil.v
SigHash.v
Field.v
FieldProps.v
Btcec.v
BtcecProps.v
Prime.v
FieldOps.v
PubKey.v
SigCache.v
Engine.v
Handlers.v
Execute.v
EngineSafety.v
CheckSafety.v
SigEncoding.v
EngineInv.v
EngineProps.v
Simulation.v
CacheProps.v
Conditionals.v
MultiSig.v
ChainParams.v
Block.v
BlockProps.v
MoneySupply.v
Compress.v
CompressProps.v
RuleErr.v
TxRules.v
Merkle.v
Difficulty.v
BlockIndex.v
ChainView.v
ThresholdState.v
ThresholdProps.v
Deployments.v
ChainIO.v
ChainIOProps.v
MapSum.v
UtxoView.v
UtxoProps.v
UtxoSet.v
Election.v
ElectionProps.v
Validate.v
Sane.v
ChainState.v
Validator.v
Connect.v
Supply.v
Orphans.v
OrphanProps.v
ChainOps.v
Frame.v
Process.v
NoRule.v
Violations.v
BestChain.v
Attach.v
Marks.v
Reorganize.v
Queries.v
Networks.v
Genesis.v
InitChain.v
Restart.v
