(* ===== verification/Prelude.v ===== *)
(** * A verification of the PKT full node

    The program is the Go repository of the PKT full node (src/).  A node receives
    blocks from its peers, checks them against the consensus rules, keeps the tree of
    known blocks and the chain of its best branch, and maintains in a database the set of
    unspent transaction outputs and a journal to undo blocks.  The rules run the scripts
    that protect the outputs; scripts check signatures over parts of a transaction.  The
    development models this consensus core, from byte strings to the acceptance of a
    block.

    ** Conventions

    Definitions carry the names of the Go functions where Rocq allows it.  A w-bit integer
    is a [Z] with its wrap-around written out ([int32], [uint64], ...), a byte string is a
    list of bytes, a slice expression or index out of range is a panic.  The outcome of a
    call is [Ret], [Throw] (an error returned) or [Panic] (a run-time panic); a method with
    a pointer receiver is a computation in the state monad [St] over the state of its
    receiver, whose changes persist after an error.  A Go map is a [gmap]; where the order
    of its iteration matters the order is a parameter.  Errors are their codes.  Times are
    in seconds, durations in nanoseconds.  What the repository does not contain is a class
    or an argument: [Crypto] (the verification of Go's crypto/ecdsa, the hash ripemd160 of
    golang.org/x/crypto), [MapOrder] (which entry of the signature cache is evicted),
    [GlobalConf] (the configuration the process sets at its start).  SHA-1 and SHA-256 of
    Go's standard library are defined in Sha.v.

    ** Scripts (src/txscript, src/btcec)

    TxScriptErr.v, Params.v, Opcode.v: error codes, limits, opcode tables.  ScriptNum.v and
    Stack.v: numbers and the stack, with the documented transformation of every stack
    method.  ParseScript.v and ScriptBuilder.v: the parser, inverse to the printer, and the
    builder, whose pushes are the shortest.  ScriptUtil.v: recognisers, counts of signature
    operations, votes.  SigHash.v: the two signature digests; each is the double hash of a
    string that determines exactly what its hash type signs.  Field.v, FieldProps.v,
    FieldOps.v: the field arithmetic of btcec/field.go is arithmetic modulo the prime
    without overflow of its words; Prime.v proves the prime prime.  Btcec.v, BtcecProps.v,
    PubKey.v: signatures and public keys with their parsers and round trips.  SigCache.v:
    the signature cache.  Engine.v, Handlers.v, Execute.v: the engine, every opcode handler
    and the execution.  EngineSafety.v, CheckSafety.v, EngineInv.v, EngineProps.v: no panic,
    the limits of the consensus rules in every reachable state, and termination.
    Simulation.v, CacheProps.v, Conditionals.v: executions with and without signature
    cache, and flat against structured conditionals.  MultiSig.v: OP_CHECKMULTISIG assigns
    signatures to keys in order.  SigEncoding.v: the accepted signatures are the strict DER
    ones.

    ** Transactions and blocks on the wire (src/wire)

    Wire.v: integers and byte strings.  MsgTx.v, MsgTxProps.v: transactions in the base,
    witness and EPTF formats.  Block.v, BlockProps.v: headers, PacketCrypt proofs, blocks,
    and the locator of transactions in a serialized block.  The theorems are round trips,
    sizes (with the one kind of proof whose announced size is wrong) and canonicity.

    ** The block chain (src/blockchain, src/chaincfg)

    ChainParams.v, MoneySupply.v: network parameters and the issue of money.  Compress.v,
    CompressProps.v, ChainIO.v, ChainIOProps.v: the records of the database and their round
    trips.  RuleErr.v, TxRules.v, Validate.v, Sane.v: the rules for a transaction and a
    block by themselves and what they guarantee.  Merkle.v: merkle trees, branches and
    witness commitments.  Difficulty.v: compact bits.  BlockIndex.v, ChainView.v: the tree
    of blocks, the view of its best branch, fork points and locators.  ThresholdState.v,
    ThresholdProps.v, Deployments.v: soft-fork deployment; the cached states are those of a
    reference machine for BIP0009, and every deployment is decided.  UtxoView.v,
    UtxoProps.v, UtxoSet.v: the view over the set of unspent outputs; the specification is
    a finite map of coins ([apply_txs]), and connecting, storing, disconnecting refine it.
    MapSum.v, Election.v, ElectionProps.v: the election of the network steward; the
    running tally follows the unspent outputs but for those created and spent in a block.
    ChainState.v, Connect.v: the chain instance, checkpoints, sequence locks, script
    validation, and [checkConnectBlock].  Supply.v composes them: an accepted block spends
    unspent outputs only, each once, and over any accepted history the unspent outputs are
    worth at most the money issued.  The theorems about histories ask for amounts that
    survive the compression of the database ([storable]), because for larger ones the
    code does not keep them, and for new transactions whose hash has no unspent outputs.
    Validator.v: the goroutines that validate scripts, as a step relation; every
    interleaving ends with the verdict of the items.

    Orphans.v, OrphanProps.v: the pool of blocks whose parent is unknown.  ChainOps.v: the
    life of a block, from [ProcessBlock] over [maybeAcceptBlock] and [connectBestChain] to
    [connectBlock], [disconnectBlock] and [reorganizeChain], on the state [BlockChain] and
    its database [ChainDb].  Frame.v and NoRule.v: what each operation leaves alone and
    which operations report violations of rules.  Process.v: the pool stays consistent and
    bounded.  Violations.v: a block that violates a rule does not change the chain.
    BestChain.v, Attach.v, Marks.v, Reorganize.v: the specification of the chain is the
    branch of its tip with the coins after it ([synced]); connecting, disconnecting and
    reorganizing keep it, the checks of a branch show that its blocks apply, and only
    blocks whose branch applies are marked valid ([marks_true]).  Queries.v: the questions
    of the rest of the node and of its peers.

    Networks.v, Genesis.v: the other networks, the registry of address prefixes and the
    genesis blocks, whose hashes are computed.  InitChain.v, Restart.v: the first start sets
    up the chain of the genesis block, and a restart rebuilds from the database the chain
    that was stopped ([at_rest]).

    ** Bounds and fuel

    A loop whose recursion is not structural has fuel, and the theorems show that the fuel
    suffices: an execution takes at most 40000 steps, because every step takes an opcode of
    one of at most four scripts of at most 10000 bytes; a variable-length quantity of 64
    bits takes ten rounds; the entries of a PacketCrypt proof are at most as many as the
    bytes of the stream; the walk to a cached deployment state goes back at most as many
    windows as the block has below it; a locator has at most as many entries as the block
    has ancestors; the processing of orphans takes at most one round for every orphan and
    every hash, because an orphan leaves the pool before it is processed.

    ** Not modelled

    Network and RPC code (src/peer, src/netsync, src/connmgr, src/addrmgr, src/rpcclient,
    src/server.go, src/rpcserver.go and the like) is sockets, goroutines, timers and
    marshalling by reflection; src/cmd, src/limits, src/pktlog, src/pktconfig are process
    and command-line glue; src/goleveldb and src/lightning-onion are vendored libraries;
    src/database stores flat files.  The PacketCrypt proof of work
    (src/blockchain/packetcrypt) rests on its own virtual machine and on hash and signature
    code outside the repository; its verdict on a block is an argument of ChainOps.v.
    Memory pool, mining and indexers are not modelled.  In src/blockchain, notifications,
    the median time of the peers, the migration of old databases and the creation of
    buckets are not modelled; the clock and the order in which the orphan map is visited
    are arguments.  Of src/btcec the arithmetic of points, signing and encryption are not
    modelled.  Printing and logging are dropped.  Locks are not modelled: a method that
    takes a lock is one step, also where the code gives up the lock of the chain for a
    moment to send a notification.  An assertion error of the code that opens the database
    is not told apart from other errors. *)

(** ** This file: shared vocabulary

    Vocabulary of the development: bytes and byte strings, Go's
    fixed-width integers, the outcome of a Go call (a value, a returned error,
    a run-time panic), the state monad in which methods with a pointer receiver
    are written, its Hoare-style proof rules, and the list and integer lemmas
    that the components share. *)

From stdpp Require Export base list option tactics.
From coqutil Require Export Byte Word.LittleEndianList Z.bitblast.
From Stdlib Require Export ZArith Lia.

#[global] Open Scope Z_scope.
#[global] Open Scope list_scope.
Ltac Zify.zify_post_hook ::= Z.div_mod_to_equations.

#[global] Arguments byte.unsigned : simpl never.
#[global] Arguments byte.of_Z : simpl never.
#[global] Arguments Z.of_nat : simpl never.

(** * Bytes *)

Abbreviation byte := Corelib.Init.Byte.byte.

(** A Go [[]byte].  Slices are modelled by their contents. *)
Abbreviation bytes := (list byte).

#[global] Instance byte_eq_dec : EqDecision byte.
Proof. intros x y. destruct (Byte.byte_eq_dec x y); [left|right]; done. Defined.

(** The value of a byte, Go's [int(b)]. *)
Abbreviation u8 := byte.unsigned.
(** Go's conversion [byte(x)], which keeps the low eight bits. *)
Abbreviation to_byte := byte.of_Z.

(** Go's [len]. *)
Definition len {A} (l : list A) : Z := Z.of_nat (length l).
#[global] Arguments len {A} l : simpl never.

(** Go's [bytes.Equal]. *)
Definition bytes_eqb (a b : bytes) : bool := bool_decide (a = b).

Lemma bytes_eqb_eq a b : bytes_eqb a b = true <-> a = b.
Proof. unfold bytes_eqb. by rewrite bool_decide_eq_true. Qed.

Lemma bytes_eqb_refl a : bytes_eqb a a = true.
Proof. by apply bytes_eqb_eq. Qed.

(** Go's [bytes.Contains]: [sub] occurs as a contiguous subslice of [b]. *)
Fixpoint bytes_prefixb (sub b : bytes) : bool :=
  match sub, b with
  | [], _ => true
  | x :: sub', y :: b' => bool_decide (x = y) && bytes_prefixb sub' b'
  | _ :: _, [] => false
  end.

Fixpoint bytes_contains (b sub : bytes) : bool :=
  bytes_prefixb sub b ||
  match b with [] => false | _ :: b' => bytes_contains b' sub end.

Lemma bytes_prefixb_spec sub b : bytes_prefixb sub b = true <-> exists r, b = sub ++ r.
Proof.
  revert b. induction sub as [|x sub IH]; intros b; simpl.
  { split; [by exists b|done]. }
  destruct b as [|y b]; [split; [done|by intros []]|].
  rewrite andb_true_iff, bool_decide_eq_true, IH. split.
  - intros [-> [r ->]]. by exists r.
  - intros [r [= -> ->]]. split; [done|by exists r].
Qed.

(** * Fixed-width integers *)

(** The value Go keeps of an integer expression at a signed or an unsigned
    width. *)
Definition swrap (w : Z) (z : Z) : Z := (z + 2 ^ (w - 1)) mod 2 ^ w - 2 ^ (w - 1).
Definition uwrap (w : Z) (z : Z) : Z := z mod 2 ^ w.

Abbreviation int64 := (swrap 64).
Abbreviation int32 := (swrap 32).
Abbreviation uint64 := (uwrap 64).
Abbreviation uint32 := (uwrap 32).
Abbreviation uint16 := (uwrap 16).

Declare Scope go_scope.
Delimit Scope go_scope with go.
Infix "&&&" := Z.land (at level 40, left associativity) : go_scope.
Infix "|||" := Z.lor (at level 50, left associativity) : go_scope.
Infix "<<<" := Z.shiftl (at level 40, left associativity) : go_scope.
Infix ">>>" := Z.shiftr (at level 40, left associativity) : go_scope.
#[global] Open Scope go_scope.

Lemma swrap_small w z :
  0 < w -> - 2 ^ (w - 1) <= z < 2 ^ (w - 1) -> swrap w z = z.
Proof.
  intros Hw Hz. unfold swrap.
  assert (2 ^ w = 2 * 2 ^ (w - 1)) as Hp.
  { rewrite <- Z.pow_succ_r by lia. f_equal. lia. }
  rewrite Z.mod_small; lia.
Qed.

Lemma swrap_range w z :
  0 < w -> - 2 ^ (w - 1) <= swrap w z < 2 ^ (w - 1).
Proof.
  intros Hw. unfold swrap.
  assert (2 ^ w = 2 * 2 ^ (w - 1)) as Hp.
  { rewrite <- Z.pow_succ_r by lia. f_equal. lia. }
  assert (0 < 2 ^ (w - 1)) by (apply Z.pow_pos_nonneg; lia).
  pose proof (Z.mod_pos_bound (z + 2 ^ (w - 1)) (2 ^ w)). lia.
Qed.

Lemma uwrap_small w z : 0 <= z < 2 ^ w -> uwrap w z = z.
Proof. intros. unfold uwrap. by apply Z.mod_small. Qed.

Lemma uwrap_range w z : 0 <= w -> 0 <= uwrap w z < 2 ^ w.
Proof. intros. apply Z.mod_pos_bound, Z.pow_pos_nonneg; lia. Qed.

Lemma int64_small z : -9223372036854775808 <= z < 9223372036854775808 -> int64 z = z.
Proof. intros. apply swrap_small; lia. Qed.

Lemma int32_small z : -2147483648 <= z < 2147483648 -> int32 z = z.
Proof. intros. apply swrap_small; lia. Qed.

Lemma u8_range b : 0 <= u8 b < 256.
Proof. pose proof (byte.unsigned_range b). lia. Qed.

Lemma u8_to_byte z : 0 <= z < 256 -> u8 (to_byte z) = z.
Proof. intros. rewrite byte.unsigned_of_Z. unfold byte.wrap. by apply Z.mod_small. Qed.

Lemma u8_inj b1 b2 : u8 b1 = u8 b2 -> b1 = b2.
Proof. apply byte.unsigned_inj. Qed.

(** * Little-endian numbers *)

Lemma pow2_bits_above b k i : 0 <= k -> 0 <= b < 2 ^ k -> k <= i -> Z.testbit b i = false.
Proof.
  intros Hk Hb Hi. destruct (Z.eq_dec b 0) as [->|]; [apply Z.bits_0|].
  apply Z.bits_above_log2; [lia|]. apply Z.log2_lt_pow2; [lia|].
  pose proof (Z.pow_le_mono_r 2 k i). lia.
Qed.

(** Or-ing a number below [2^k] with a multiple of [2^k] adds them. *)
Lemma lor_add_pow2 a b k : 0 <= k -> 0 <= a < 2 ^ k -> Z.lor a (b * 2 ^ k) = a + b * 2 ^ k.
Proof.
  intros Hk Ha. apply Z.or_to_plus, Z.bits_inj'. intros i Hi.
  rewrite Z.land_spec, Z.bits_0. destruct (Z.lt_ge_cases i k).
  - rewrite Z.mul_pow2_bits_low by lia. apply andb_false_r.
  - by rewrite (pow2_bits_above a k i).
Qed.

Lemma land_127 x : Z.land x 127 = x mod 128.
Proof. change 127 with (Z.ones 7). by rewrite Z.land_ones. Qed.

(** A decidable fact about the 256 byte values is checked by evaluation. *)
Lemma byte_value_ind (P : Z -> bool) :
  forallb P (map Z.of_nat (seq 0 256)) = true -> forall x, 0 <= x < 256 -> P x = true.
Proof.
  intros H x Hx. rewrite forallb_forall in H. apply H, in_map_iff.
  exists (Z.to_nat x). rewrite in_seq. lia.
Qed.

Lemma land_128_byte x : 0 <= x < 256 -> Z.land x 128 = if x <? 128 then 0 else 128.
Proof.
  intros Hx. apply Z.eqb_eq. revert x Hx.
  by apply (byte_value_ind (fun x => Z.land x 128 =? if x <? 128 then 0 else 128)).
Qed.

Lemma lor_128_byte x : 0 <= x < 128 -> Z.lor x 128 = x + 128.
Proof. intros Hx. apply (lor_add_pow2 x 1 7); lia. Qed.

Lemma le_combine_cons b l : le_combine (b :: l) = u8 b + 256 * le_combine l.
Proof.
  change (le_combine (b :: l)) with (Z.lor (u8 b) (Z.shiftl (le_combine l) 8)).
  pose proof (u8_range b).
  rewrite Z.shiftl_mul_pow2, lor_add_pow2 by lia. lia.
Qed.

Lemma le_combine_snoc l b :
  le_combine (l ++ [b]) = le_combine l + 256 ^ len l * u8 b.
Proof.
  induction l as [|a l IH]; unfold len in *; simpl.
  - rewrite le_combine_cons, !le_combine_nil. change (Z.of_nat 0) with 0. lia.
  - rewrite !le_combine_cons, IH, Nat2Z.inj_succ, Z.pow_succ_r by lia. lia.
Qed.

Lemma le_combine_range l : 0 <= le_combine l < 256 ^ len l.
Proof.
  pose proof (le_combine_bound l) as H. rewrite Z.pow_mul_r in H by lia.
  exact H.
Qed.

(** * Outcomes of a Go call *)

(** A call returns a value, returns an error, or stops the goroutine with a
    run-time panic (an index out of range, say). *)
Inductive outcome (E A : Type) : Type :=
| Ret (a : A)
| Throw (e : E)
| Panic.
Arguments Ret {E A} a.
Arguments Throw {E A} e.
Arguments Panic {E A}.

#[global] Instance outcome_ret {E} : MRet (outcome E) := fun A a => Ret a.
#[global] Instance outcome_bind {E} : MBind (outcome E) := fun A B f m =>
  match m with
  | Ret a => f a
  | Throw e => Throw e
  | Panic => Panic
  end.
#[global] Instance outcome_throw {E} : MThrow E (outcome E) := fun A e => Throw e.

Lemma Ret_inj {E A} (a b : A) : Ret a = Ret b :> outcome E A -> a = b.
Proof. by intros [= ->]. Qed.

#[global] Instance outcome_eq_dec {E A} `{EqDecision E, EqDecision A} :
  EqDecision (outcome E A).
Proof. solve_decision. Defined.

(** A dereference or an index that panics when its target is missing. *)
Definition or_panic {E A} (o : option A) : outcome E A :=
  match o with Some a => Ret a | None => Panic end.

(** A Go function that returns [(value, error)] where only the presence of the
    error matters to the caller. *)
Definition succeeds {E A} (m : outcome E A) : bool :=
  match m with Ret _ => true | _ => false end.

(** ** Indexing and slicing *)

(** [l[i]]; [None] is the out-of-range panic. *)
Definition index {A} (l : list A) (i : Z) : option A :=
  if 0 <=? i then l !! Z.to_nat i else None.

(** [l[lo:hi]]; [None] is the out-of-range panic.  Go checks [hi] against the
    capacity of the slice; every slice expression of the modelled code has a
    [hi] that is meant to be within the length, which is the check made here. *)
Definition slice {A} (l : list A) (lo hi : Z) : option (list A) :=
  if (0 <=? lo) && (lo <=? hi) && (hi <=? len l)
  then Some (take (Z.to_nat (hi - lo)) (drop (Z.to_nat lo) l))
  else None.

Definition slice_from {A} (l : list A) (lo : Z) : option (list A) := slice l lo (len l).
Definition slice_to {A} (l : list A) (hi : Z) : option (list A) := slice l 0 hi.

(** * Methods that update their receiver *)

(** A method of a receiver of type [S]: it may fail, and the receiver keeps
    the updates made before the failure. *)
Definition St (E S A : Type) : Type := S -> outcome E A * S.

Section state_monad.
Context {E S : Type}.

#[global] Instance St_ret : MRet (St E S) := fun A a s => (Ret a, s).
#[global] Instance St_bind : MBind (St E S) := fun A B f m s =>
  match m s with
  | (Ret a, s') => f a s'
  | (Throw e, s') => (Throw e, s')
  | (Panic, s') => (Panic, s')
  end.
#[global] Instance St_throw : MThrow E (St E S) := fun A e s => (Throw e, s).

(** A computation that does not touch the receiver. *)
Definition lift {A} (m : outcome E A) : St E S A := fun s => (m, s).
Definition gets {A} (f : S -> A) : St E S A := fun s => (Ret (f s), s).
Definition modify (f : S -> S) : St E S () := fun s => (Ret (), f s).

(** [_ = m()]: the returned error is dropped. *)
Definition ignore_err (m : St E S ()) : St E S () := fun s =>
  match m s with
  | (Throw _, s') => (Ret (), s')
  | r => r
  end.

(** A call of a method of a field: [s.field.m()]. *)
Definition on_field {T A} (get : S -> T) (set : T -> S -> S) (m : St E T A) : St E S A :=
  fun s => let '(r, t) := m (get s) in (r, set t s).

(** [for i := 0; i < n; i++ { body }]. *)
Fixpoint repeat_st (n : nat) (body : St E S ()) : St E S () :=
  match n with
  | O => mret ()
  | Datatypes.S n' => body ≫= fun _ => repeat_st n' body
  end.
End state_monad.

(** Running a sequence whose first call has a known result. *)
Lemma bind_Ret {E S A B} (m : St E S A) (f : A -> St E S B) s a s' :
  m s = (Ret a, s') -> (m ≫= f) s = f a s'.
Proof. intros H. unfold mbind, St_bind. by rewrite H. Qed.

Lemma bind_Throw {E S A B} (m : St E S A) (f : A -> St E S B) s e s' :
  m s = (Throw e, s') -> (m ≫= f) s = (Throw e, s').
Proof. intros H. unfold mbind, St_bind. by rewrite H. Qed.

Lemma bind_Ret_inv {E S A B} (m : St E S A) (f : A -> St E S B) s b s'' :
  (m ≫= f) s = (Ret b, s'') -> exists a s', m s = (Ret a, s') /\ f a s' = (Ret b, s'').
Proof. unfold mbind, St_bind. destruct (m s) as [[] ?]; intros H; try done. eauto. Qed.

Lemma bind_gets {E S A B} (g : S -> A) (f : A -> St E S B) s : (gets g ≫= f) s = f (g s) s.
Proof. done. Qed.

Lemma bind_lift_Ret {E S A B} (a : A) (f : A -> St E S B) s : (lift (Ret a) ≫= f) s = f a s.
Proof. done. Qed.

(** ** Proof rules *)

(** [wp m Q X s]: from the receiver [s], [m] does not panic; if it returns a
    value then [Q] holds of it and of the updated receiver, if it returns an
    error then [X] does. *)
Definition wp {E S A} (m : St E S A) (Q : A -> S -> Prop) (X : E -> S -> Prop) (s : S) : Prop :=
  match m s with
  | (Ret a, s') => Q a s'
  | (Throw e, s') => X e s'
  | (Panic, _) => False
  end.

Section wp_rules.
Context {E S : Type}.
Implicit Types (X : E -> S -> Prop) (s : S).

Lemma wp_ret {A} (a : A) Q X s : Q a s -> wp (mret a) Q X s.
Proof. done. Qed.

Lemma wp_throw {A} (e : E) (Q : A -> S -> Prop) X s : X e s -> wp (mthrow e) Q X s.
Proof. done. Qed.

Lemma wp_bind {A B} (m : St E S A) (f : A -> St E S B) Q X s :
  wp m (fun a s' => wp (f a) Q X s') X s -> wp (m ≫= f) Q X s.
Proof. unfold wp, mbind, St_bind. by destruct (m s) as [[] ?]. Qed.

Lemma wp_modify f Q X s : Q () (f s) -> wp (modify f) Q X s.
Proof. done. Qed.

Lemma wp_gets {A} (f : S -> A) Q X s : Q (f s) s -> wp (gets f) Q X s.
Proof. done. Qed.

Lemma wp_lift {A} (m : outcome E A) Q X s :
  match m with Ret a => Q a s | Throw e => X e s | Panic => False end ->
  wp (lift m) Q X s.
Proof. done. Qed.

Lemma wp_mono {A} (m : St E S A) (Q Q' : A -> S -> Prop) (X X' : E -> S -> Prop) s :
  wp m Q X s -> (forall a s', Q a s' -> Q' a s') -> (forall e s', X e s' -> X' e s') ->
  wp m Q' X' s.
Proof. unfold wp. destruct (m s) as [[] ?]; eauto. Qed.

Lemma wp_on_field {T A} (get : S -> T) (set : T -> S -> S) (m : St E T A) Q X s :
  wp m (fun a t => Q a (set t s)) (fun e t => X e (set t s)) (get s) ->
  wp (on_field get set m) Q X s.
Proof. unfold wp, on_field. by destruct (m (get s)) as [[] ?]. Qed.

Lemma wp_ignore_err (m : St E S ()) Q X s :
  wp m Q (fun _ s' => Q () s') s -> wp (ignore_err m) Q X s.
Proof. unfold wp, ignore_err. by destruct (m s) as [[[]| |] ?]. Qed.

Lemma wp_repeat (n : nat) (body : St E S ()) (I : nat -> S -> Prop) Q X s :
  I n s ->
  (forall k s', I (Datatypes.S k) s' -> wp body (fun _ s'' => I k s'') X s') ->
  (forall s', I O s' -> Q () s') ->
  wp (repeat_st n body) Q X s.
Proof.
  intros HI Hbody HQ. revert s HI. induction n as [|n IH]; intros s HI; simpl.
  { apply wp_ret; auto. }
  apply wp_bind. eapply wp_mono; [by apply Hbody| |done].
  intros [] s' ?. by apply IH.
Qed.
End wp_rules.

(** [wp_step] applies the rule for the outermost construct of the body. *)
Ltac wp_step :=
  lazymatch goal with
  | |- wp (mret _) _ _ _ => apply wp_ret
  | |- wp (mthrow _) _ _ _ => apply wp_throw
  | |- wp (mbind _ _) _ _ _ => apply wp_bind
  | |- wp (modify _) _ _ _ => apply wp_modify
  | |- wp (gets _) _ _ _ => apply wp_gets
  | |- wp (lift _) _ _ _ => apply wp_lift
  | |- wp (on_field _ _ _) _ _ _ => apply wp_on_field
  | |- wp (ignore_err _) _ _ _ => apply wp_ignore_err
  | |- wp (if ?b then _ else _) _ _ _ => destruct b eqn:?
  | |- wp (match ?x with _ => _ end) _ _ _ => destruct x eqn:?
  end; simpl.
Ltac wp_steps := repeat wp_step.

(** * Lengths, indexing and slicing *)

Create Rewrite HintDb len.

Section len_lemmas.
Context {A : Type}.
Implicit Types (l : list A) (x : A).

Lemma len_nil : len (@nil A) = 0.
Proof. done. Qed.
Lemma len_cons x l : len (x :: l) = 1 + len l.
Proof. unfold len. simpl. lia. Qed.
Lemma len_app l l' : len (l ++ l') = len l + len l'.
Proof. unfold len. rewrite length_app. lia. Qed.
Lemma len_nonneg l : 0 <= len l.
Proof. unfold len. lia. Qed.
Lemma len_0 l : len l = 0 <-> l = [].
Proof. destruct l; [done|]. rewrite len_cons. pose proof (len_nonneg l). split; [lia|done]. Qed.
Lemma len_insert l (i : nat) x : len (<[i:=x]> l) = len l.
Proof. unfold len. by rewrite length_insert. Qed.

Lemma index_nat l i : 0 <= i -> index l i = l !! Z.to_nat i.
Proof. intros Hi. unfold index. by rewrite (proj2 (Z.leb_le 0 i)) by lia. Qed.

Lemma index_snoc l x : index (l ++ [x]) (len l) = Some x.
Proof.
  unfold index, len. destruct (Z.leb_spec 0 (Z.of_nat (length l))); [|lia].
  rewrite Nat2Z.id, lookup_app_r, Nat.sub_diag by lia. done.
Qed.

Lemma index_last l x : index (l ++ [x]) (len (l ++ [x]) - 1) = Some x.
Proof. rewrite len_app, len_cons, len_nil. replace (len l + (1 + 0) - 1) with (len l) by lia. apply index_snoc. Qed.

Lemma index_app_l l l' i : i < len l -> index (l ++ l') i = index l i.
Proof.
  unfold index, len. intros Hi. destruct (Z.leb_spec 0 i); [|done].
  rewrite lookup_app_l by lia. done.
Qed.

Lemma index_app_r l l' i : len l <= i -> index (l ++ l') i = index l' (i - len l).
Proof.
  unfold index, len. intros Hi.
  destruct (Z.leb_spec 0 i), (Z.leb_spec 0 (i - Z.of_nat (length l))); try lia.
  rewrite lookup_app_r by lia. f_equal. lia.
Qed.

Lemma index_cons_0 x l : index (x :: l) 0 = Some x.
Proof. done. Qed.

Lemma index_is_Some l i : 0 <= i < len l -> is_Some (index l i).
Proof.
  unfold index, len. intros Hi. destruct (Z.leb_spec 0 i); [|lia].
  apply lookup_lt_is_Some. lia.
Qed.

Lemma index_Some_lt l i x : index l i = Some x -> 0 <= i < len l.
Proof.
  unfold index, len. destruct (Z.leb_spec 0 i); [|done].
  intros ?%lookup_lt_Some. lia.
Qed.

(** A slice of a concatenation at the seams. *)
Lemma slice_seam l1 l2 l3 lo hi :
  lo = len l1 -> hi = len l1 + len l2 -> slice (l1 ++ l2 ++ l3) lo hi = Some l2.
Proof.
  intros -> ->. unfold slice.
  pose proof (len_nonneg l1). pose proof (len_nonneg l2). pose proof (len_nonneg l3).
  rewrite !len_app.
  destruct (Z.leb_spec 0 (len l1)), (Z.leb_spec (len l1) (len l1 + len l2)),
    (Z.leb_spec (len l1 + len l2) (len l1 + (len l2 + len l3))); try lia. simpl. f_equal.
  unfold len. rewrite Nat2Z.id, drop_app_length.
  replace (Z.to_nat _) with (length l2) by lia. apply take_app_length.
Qed.

Lemma slice_to_app l1 l2 hi : hi = len l1 -> slice_to (l1 ++ l2) hi = Some l1.
Proof. intros ->. apply (slice_seam [] l1 l2); done. Qed.

Lemma slice_from_app l1 l2 lo : lo = len l1 -> slice_from (l1 ++ l2) lo = Some l2.
Proof.
  intros ->. unfold slice_from. rewrite <- (app_nil_r l2) at 1.
  apply slice_seam; [done|]. by rewrite len_app.
Qed.
End len_lemmas.

Lemma len_le_split k x : len (le_split k x) = Z.of_nat k.
Proof. unfold len. by rewrite length_le_split. Qed.

#[export] Hint Rewrite @len_nil @len_cons @len_app @len_insert len_le_split : len.

(** Arithmetic with list lengths. *)
Ltac len_lia :=
  autorewrite with len in *;
  repeat match goal with
  | |- context [len ?l] => lazymatch goal with _ : 0 <= len l |- _ => fail | _ => pose proof (len_nonneg l) end
  | _ : context [len ?l] |- _ => lazymatch goal with _ : 0 <= len l |- _ => fail | _ => pose proof (len_nonneg l) end
  end; lia.

(** Every nonempty list has a last element. *)
Lemma snoc_inv {A} (l : list A) : l <> [] -> exists l' x, l = l' ++ [x].
Proof. intros Hl. destruct (exists_last Hl) as (l' & x & ->). eauto. Qed.

(** Evaluates the comparisons of integer constants in the goal. *)
Ltac is_zconst x := lazymatch x with Z0 => idtac | Zpos _ => idtac | Zneg _ => idtac end.
Ltac eval_ztests :=
  repeat match goal with
  | |- context [?f ?a ?b] =>
    lazymatch f with Z.eqb => idtac | Z.ltb => idtac | Z.leb => idtac end;
    is_zconst a; is_zconst b; let r := eval vm_compute in (f a b) in change (f a b) with r
  end; cbv beta iota.
