(* ===== verification/TxScriptErr.v ===== *)
(** The error codes of the script engine (src/txscript/txscripterr/error.go).
    An error carries a code and a message; callers branch on the code only, so
    the code is what is modelled. *)

From S2P Require Import Prelude.

Inductive scripterr : Type :=
| ErrInternal
| ErrInvalidFlags
| ErrInvalidIndex
| ErrUnsupportedAddress
| ErrNotMultisigScript
| ErrTooManyRequiredSigs
| ErrTooMuchNullData
| ErrEarlyReturn
| ErrEmptyStack
| ErrEvalFalse
| ErrScriptUnfinished
| ErrInvalidProgramCounter
| ErrScriptTooBig
| ErrElementTooBig
| ErrTooManyOperations
| ErrStackOverflow
| ErrInvalidPubKeyCount
| ErrInvalidSignatureCount
| ErrNumberTooBig
| ErrVerify
| ErrEqualVerify
| ErrNumEqualVerify
| ErrCheckSigVerify
| ErrCheckMultiSigVerify
| ErrDisabledOpcode
| ErrReservedOpcode
| ErrMalformedPush
| ErrInvalidStackOperation
| ErrUnbalancedConditional
| ErrMinimalData
| ErrInvalidSigHashType
| ErrSigTooShort
| ErrSigTooLong
| ErrSigInvalidSeqID
| ErrSigInvalidDataLen
| ErrSigMissingSTypeID
| ErrSigMissingSLen
| ErrSigInvalidSLen
| ErrSigInvalidRIntID
| ErrSigZeroRLen
| ErrSigNegativeR
| ErrSigTooMuchRPadding
| ErrSigInvalidSIntID
| ErrSigZeroSLen
| ErrSigNegativeS
| ErrSigTooMuchSPadding
| ErrSigHighS
| ErrNotPushOnly
| ErrSigNullDummy
| ErrPubKeyType
| ErrCleanStack
| ErrNullFail
| ErrWitnessMalleated
| ErrWitnessMalleatedP2SH
| ErrDiscourageUpgradableNOPs
| ErrNegativeLockTime
| ErrUnsatisfiedLockTime
| ErrMinimalIf
| ErrDiscourageUpgradableWitnessProgram
| ErrWitnessProgramEmpty
| ErrWitnessProgramMismatch
| ErrWitnessProgramWrongLength
| ErrWitnessUnexpected
| ErrWitnessPubKeyType
| ErrScriptNotCanonical  (* scriptbuilder.go: a code declared by the script builder *)
| ErrNoCode              (* er.New / er.Errorf: an error without a code *).

#[global] Instance scripterr_eq_dec : EqDecision scripterr.
Proof. solve_decision. Defined.
