(* ===== verification/Params.v ===== *)
(** The consensus parameters of scripts (src/txscript/params/params.go) and of
    transactions (src/wire/constants/constants.go). *)

From S2P Require Import Prelude.

Definition LockTimeThreshold : Z := 500000000.

Definition MaxStackSize : Z := 1000.
Definition MaxScriptSize : Z := 10000.
Definition PayToWitnessPubKeyHashDataSize : Z := 20.
Definition PayToWitnessScriptHashDataSize : Z := 32.

(** [SigHashType] is a [uint32]. *)
Definition SigHashOld : Z := 0x0.
Definition SigHashAll : Z := 0x1.
Definition SigHashNone : Z := 0x2.
Definition SigHashSingle : Z := 0x3.
Definition SigHashAnyOneCanPay : Z := 0x80.
Definition SigHashMask : Z := 0x1f.

Definition MaxOpsPerScript : Z := 201.
Definition MaxPubKeysPerMultiSig : Z := 20.
Definition MaxScriptElementSize : Z := 520.

Definition MaxTxInSequenceNum : Z := 0xffffffff.
Definition MaxPrevOutIndex : Z := 0xffffffff.
Definition SequenceLockTimeDisabled : Z := 1 <<< 31.
Definition SequenceLockTimeIsSeconds : Z := 1 <<< 22.
Definition SequenceLockTimeMask : Z := 0x0000ffff.
Definition SequenceLockTimeGranularity : Z := 9.
Definition MinTxOutPayload : Z := 9.
