(* ===== verification/ScriptNum.v ===== *)
(** Script numbers (src/txscript/scriptnum/scriptnum.go): the variable-length
    little-endian sign-magnitude encoding of integers on the script stack.
    [ScriptNum] is Go's [int64], kept here as a [Z] with the wrap-around of the
    negations and shifts written out. *)

From S2P Require Import Prelude TxScriptErr.

Definition MaxInt32 : Z := 2 ^ 31 - 1.
Definition MinInt32 : Z := - 2 ^ 31.
Definition DefaultScriptNumLen : Z := 4.

Definition CheckMinimalDataEncoding (v : bytes) : outcome scripterr () :=
  if len v =? 0 then mret () else
  msb ← or_panic (index v (len v - 1));
  if u8 msb &&& 0x7f =? 0 then
    if len v =? 1 then mthrow ErrMinimalData else
    nsb ← or_panic (index v (len v - 2));
    if u8 nsb &&& 0x80 =? 0 then mthrow ErrMinimalData else mret ()
  else mret ().

(** [for n > 0 { result = append(result, byte(n&0xff)); n >>= 8 }].  An [int64]
    is exhausted after at most eight rounds ([Bytes_loop_enough]). *)
Fixpoint Bytes_loop (fuel : nat) (n : Z) (result : bytes) : bytes :=
  match fuel with
  | O => result
  | S fuel' =>
      if n >? 0 then Bytes_loop fuel' (n >>> 8) (result ++ [to_byte (n &&& 0xff)])
      else result
  end.

(** The method [Bytes]; it indexes [result[len(result)-1]], which panics when
    the loop appended nothing. *)
Definition Bytes (n : Z) : outcome scripterr bytes :=
  if n =? 0 then mret [] else
  let isNegative := n <? 0 in
  let n := if isNegative then int64 (- n) else n in
  let result := Bytes_loop 8 n [] in
  msb ← or_panic (index result (len result - 1));
  if negb (u8 msb &&& 0x80 =? 0) then
    mret (result ++ [if isNegative then to_byte 0x80 else to_byte 0x00])
  else if isNegative then
    mret (<[Z.to_nat (len result - 1) := to_byte (u8 msb ||| 0x80)]> result)
  else mret result.

Definition Int32 (n : Z) : Z :=
  if n >? MaxInt32 then MaxInt32
  else if n <? MinInt32 then MinInt32
  else int32 n.

(** [for i, val := range v { result |= int64(val) << uint8(8*i) }]. *)
Fixpoint decode_loop (i : Z) (v : bytes) (result : Z) : Z :=
  match v with
  | [] => result
  | val :: v' => decode_loop (i + 1) v' (result ||| int64 (u8 val <<< uwrap 8 (8 * i)))
  end.

Definition MakeScriptNum (v : bytes) (requireMinimal : bool) (scriptNumLen : Z) :
    outcome scripterr Z :=
  if len v >? scriptNumLen then mthrow ErrNumberTooBig else
  _ ← (if requireMinimal then CheckMinimalDataEncoding v else mret ());
  if len v =? 0 then mret 0 else
  let result := decode_loop 0 v 0 in
  msb ← or_panic (index v (len v - 1));
  if negb (u8 msb &&& 0x80 =? 0) then
    let result := result &&& Z.lnot (int64 (0x80 <<< uwrap 8 (8 * (len v - 1)))) in
    mret (int64 (- result))
  else mret result.

Example Bytes_128 : Bytes 128 = Ret [Byte.x80; Byte.x00].
Proof. reflexivity. Qed.
Example Bytes_m32768 : Bytes (-32768) = Ret [Byte.x00; Byte.x80; Byte.x80].
Proof. reflexivity. Qed.
Example Make_m129 : MakeScriptNum [Byte.x81; Byte.x80] true 4 = Ret (-129).
Proof. reflexivity. Qed.
Example Make_neg_zero : MakeScriptNum [Byte.x80] true 4 = Throw ErrMinimalData.
Proof. reflexivity. Qed.

(** * Decoding *)

Lemma pow256 k : 0 <= k -> 256 ^ k = 2 ^ (8 * k).
Proof. intros. by rewrite Z.pow_mul_r by lia. Qed.

Lemma decode_step r b i :
  0 <= i <= 7 -> 0 <= r < 256 ^ i ->
  int64 r ||| int64 (u8 b <<< uwrap 8 (8 * i)) = int64 (r + 256 ^ i * u8 b).
Proof.
  intros Hi Hr. pose proof (u8_range b) as Hb. rewrite pow256 in * by lia.
  rewrite uwrap_small, Z.shiftl_mul_pow2 by lia.
  pose proof (Z.pow_le_mono_r 2 (8 * i) 56) as Hp.
  rewrite (int64_small r) by lia.
  destruct (Z.eq_dec i 7) as [->|Hne].
  - change (8 * 7) with 56 in *.
    assert (int64 (u8 b * 2 ^ 56) = (if u8 b <? 128 then u8 b else u8 b - 256) * 2 ^ 56) as ->.
    { unfold swrap. destruct (Z.ltb_spec (u8 b) 128); lia. }
    rewrite lor_add_pow2 by lia. unfold swrap. destruct (Z.ltb_spec (u8 b) 128); lia.
  - pose proof (Z.pow_le_mono_r 2 (8 * i) 48). rewrite (int64_small (u8 b * _)) by nia.
    rewrite lor_add_pow2, int64_small by nia. lia.
Qed.

Lemma decode_loop_correct v i r :
  0 <= i -> i + len v <= 8 -> 0 <= r < 256 ^ i ->
  decode_loop i v (int64 r) = int64 (r + 256 ^ i * le_combine v).
Proof.
  revert i r. induction v as [|b v IH]; intros i r Hi Hlen Hr; simpl.
  - rewrite le_combine_nil. f_equal. lia.
  - rewrite len_cons in Hlen. pose proof (len_nonneg v). pose proof (u8_range b).
    assert (256 ^ (i + 1) = 256 * 256 ^ i) as Hp by (rewrite Z.pow_add_r; lia).
    rewrite decode_step, IH, le_combine_cons, Hp by nia. f_equal. lia.
Qed.

(** What a nonempty encoding of at most eight bytes denotes, in terms of its
    little-endian value [c]: the top bit is the sign, the rest the magnitude. *)
Definition sn_sign (v : bytes) : Z := 2 ^ (8 * len v - 1).
Definition sn_value (v : bytes) : Z :=
  if le_combine v <? sn_sign v then le_combine v else - (le_combine v - sn_sign v).

Lemma sn_sign_snoc l b : sn_sign (l ++ [b]) = 128 * 256 ^ len l.
Proof.
  unfold sn_sign. autorewrite with len. pose proof (len_nonneg l).
  rewrite pow256 by lia. change 128 with (2 ^ 7). rewrite <- Z.pow_add_r by lia. f_equal. lia.
Qed.

Lemma sn_top_bit l b : (u8 b <? 128) = (le_combine (l ++ [b]) <? sn_sign (l ++ [b])).
Proof.
  rewrite sn_sign_snoc, le_combine_snoc. pose proof (le_combine_range l). pose proof (u8_range b).
  destruct (Z.ltb_spec (u8 b) 128), (Z.ltb_spec (le_combine l + 256 ^ len l * u8 b) (128 * 256 ^ len l));
    first [done | nia].
Qed.

Lemma sn_sign_bound v : v <> [] -> 0 < sn_sign v /\ 0 <= le_combine v < 2 * sn_sign v.
Proof.
  intros Hv. destruct (snoc_inv v Hv) as (l & b & ->).
  rewrite sn_sign_snoc, le_combine_snoc.
  pose proof (le_combine_range l). pose proof (u8_range b). nia.
Qed.

Lemma clear_top_bit c s : 0 <= s -> 2 ^ s <= c < 2 * 2 ^ s -> c &&& Z.lnot (2 ^ s) = c - 2 ^ s.
Proof.
  intros Hs Hc. rewrite <- Z.ldiff_land. symmetry. apply Z.sub_nocarry_ldiff.
  apply Z.bits_inj'. intros i Hi. rewrite Z.ldiff_spec, Z.bits_0, Z.pow2_bits_eqb by lia.
  destruct (Z.eqb_spec s i) as [<-|]; [|done]. simpl.
  apply negb_false_iff. rewrite Z.testbit_true by lia. replace (c / 2 ^ s) with 1; [done|].
  apply Z.div_unique with (r := c - 2 ^ s); lia.
Qed.

Lemma clear_sign_bit c k :
  0 <= k <= 7 -> 128 * 256 ^ k <= c < 256 * 256 ^ k ->
  int64 c &&& Z.lnot (int64 (0x80 <<< uwrap 8 (8 * k))) = c - 128 * 256 ^ k.
Proof.
  intros Hk Hc. rewrite uwrap_small, Z.shiftl_mul_pow2 by lia.
  assert (128 * 256 ^ k = 2 ^ (8 * k + 7)) as Es by (rewrite pow256, Z.pow_add_r; lia).
  assert (0x80 * 2 ^ (8 * k) = 2 ^ (8 * k + 7)) as -> by (rewrite <- pow256; lia).
  rewrite Es. destruct (Z.eq_dec k 7) as [->|].
  - change (2 ^ (8 * 7 + 7)) with (2 ^ 63) in *. change (Z.lnot (int64 (2 ^ 63))) with (Z.ones 63).
    rewrite Z.land_ones by lia. unfold swrap. lia.
  - pose proof (Z.pow_le_mono_r 2 (8 * k + 7) 55). rewrite !int64_small by lia.
    apply clear_top_bit; lia.
Qed.

Lemma MakeScriptNum_value v m L :
  v <> [] -> len v <= 8 -> len v <= L ->
  (m = true -> CheckMinimalDataEncoding v = Ret ()) ->
  MakeScriptNum v m L = Ret (sn_value v).
Proof.
  intros Hv H8 HL Hm. unfold MakeScriptNum.
  destruct (Z.gtb_spec (len v) L); [lia|].
  assert ((if m then CheckMinimalDataEncoding v else mret ()) = Ret ()) as ->.
  { destruct m; [by apply Hm|done]. }
  destruct (snoc_inv v Hv) as (l & b & ->).
  pose proof (decode_loop_correct (l ++ [b]) 0 0) as Hd. change (int64 0) with 0 in Hd.
  rewrite Hd by len_lia. clear Hd. rewrite index_last.
  replace (len (l ++ [b]) - 1) with (len l) by len_lia.
  pose proof (sn_sign_bound (l ++ [b])) as Hb. specialize (Hb Hv).
  pose proof (le_combine_range (l ++ [b])) as Hr. rewrite len_app, len_cons, len_nil in *.
  replace (len l + (1 + 0) =? 0) with false by len_lia.
  simpl. unfold mret, outcome_ret. rewrite Z.mul_1_l, land_128_byte by apply u8_range.
  unfold sn_value. rewrite <- sn_top_bit, sn_sign_snoc in *.
  pose proof (len_nonneg l).
  pose proof (sn_top_bit l b) as Ht. rewrite sn_sign_snoc in Ht.
  destruct (Z.ltb_spec (u8 b) 128) as [Hlt|Hge]; simpl; f_equal.
  - symmetry in Ht. apply Z.ltb_lt in Ht.
    pose proof (Z.pow_le_mono_r 256 (len l) 7). apply int64_small. lia.
  - symmetry in Ht. apply Z.ltb_ge in Ht.
    pose proof (Z.pow_le_mono_r 256 (len l) 7).
    rewrite Z.add_0_l, clear_sign_bit by lia. apply int64_small. lia.
Qed.

(** * Minimality *)

(** A nonempty encoding is minimal when its magnitude would not fit one byte
    less. *)
Lemma CheckMinimalDataEncoding_spec v :
  v <> [] ->
  CheckMinimalDataEncoding v =
    if sn_sign v <=? 256 * Z.abs (sn_value v) then Ret () else Throw ErrMinimalData.
Proof.
  intros Hv. destruct (snoc_inv v Hv) as (l & b & ->).
  unfold CheckMinimalDataEncoding. rewrite index_last.
  replace (len (l ++ [b]) =? 0) with false by len_lia.
  unfold sn_value. rewrite <- sn_top_bit, sn_sign_snoc, le_combine_snoc.
  pose proof (u8_range b). pose proof (le_combine_range l) as Hl.
  change (or_panic (Some b) ≫= ?f) with (f b). cbv beta. rewrite land_127.
  assert (Z.abs (if u8 b <? 128 then le_combine l + 256 ^ len l * u8 b
                 else - (le_combine l + 256 ^ len l * u8 b - 128 * 256 ^ len l))
          = le_combine l + 256 ^ len l * (u8 b mod 128)) as ->.
  { destruct (Z.ltb_spec (u8 b) 128); [rewrite (Z.mod_small (u8 b)) by lia; nia|].
    replace (u8 b mod 128) with (u8 b - 128) by lia. nia. }
  destruct (Z.eqb_spec (u8 b mod 128) 0) as [E|E].
  2: { destruct (Z.leb_spec (128 * 256 ^ len l) (256 * (le_combine l + 256 ^ len l * (u8 b mod 128)))); [done|nia]. }
  rewrite E. destruct (decide (l = [])) as [->|Hne].
  { rewrite le_combine_nil. done. }
  replace (len (l ++ [b]) =? 1) with false
    by (destruct l; [done|]; symmetry; apply Z.eqb_neq; len_lia).
  destruct (snoc_inv l Hne) as (l' & c & ->).
  replace ((l' ++ [c]) ++ [b]) with (l' ++ [c; b]) by (by rewrite <- app_assoc).
  rewrite index_app_r by len_lia.
  replace (len (l' ++ [c; b]) - 2 - len l') with 0 by len_lia.
  change (index [c; b] 0) with (Some c).
  change (or_panic (Some c) ≫= ?f) with (f c). cbv beta.
  pose proof (u8_range c). pose proof (le_combine_range l').
  rewrite land_128_byte, le_combine_snoc by lia.
  pose proof (len_nonneg l'). autorewrite with len. rewrite Z.pow_add_r by lia. change (256 ^ (1 + 0)) with 256.
  destruct (Z.ltb_spec (u8 c) 128); simpl;
    destruct (Z.leb_spec (128 * (256 ^ len l' * 256))
      (256 * (le_combine l' + 256 ^ len l' * u8 c + 256 ^ len l' * 256 * 0))); first [done|nia].
Qed.

Lemma sn_sign_inj v w : v <> [] -> w <> [] -> sn_sign v = sn_sign w -> length v = length w.
Proof.
  intros Hv Hw. unfold sn_sign.
  assert (0 < len v) by (destruct v; [done|len_lia]).
  assert (0 < len w) by (destruct w; [done|len_lia]).
  intros E. apply Z.pow_inj_r in E; [|lia..]. unfold len in *. lia.
Qed.

(** The powers of two at which a sign bit can sit are a factor 256 apart. *)
Lemma sn_sign_le v w : v <> [] -> w <> [] -> (length v < length w)%nat -> 256 * sn_sign v <= sn_sign w.
Proof.
  intros Hv Hw Hlt. unfold sn_sign, len in *. assert (0 < length v)%nat by (destruct v; simpl; [done|lia]).
  change 256 with (2 ^ 8). rewrite <- Z.pow_add_r by lia. apply Z.pow_le_mono_r; lia.
Qed.

Lemma sn_value_abs v : v <> [] -> Z.abs (sn_value v) < sn_sign v.
Proof.
  intros Hv. pose proof (sn_sign_bound v Hv). unfold sn_value.
  destruct (Z.ltb_spec (le_combine v) (sn_sign v)); lia.
Qed.

Definition sn_minimal (v : bytes) : Prop := v <> [] /\ sn_sign v <= 256 * Z.abs (sn_value v).

Lemma sn_minimal_inj v w : sn_minimal v -> sn_minimal w -> sn_value v = sn_value w -> v = w.
Proof.
  intros [Hv Mv] [Hw Mw] E.
  pose proof (sn_value_abs v Hv). pose proof (sn_value_abs w Hw).
  pose proof (sn_sign_bound v Hv). pose proof (sn_sign_bound w Hw).
  assert (length v = length w) as El.
  { destruct (Nat.lt_trichotomy (length v) (length w)) as [Hl|[Hl|Hl]]; [|done|].
    - pose proof (sn_sign_le v w Hv Hw). lia.
    - pose proof (sn_sign_le w v Hw Hv). lia. }
  apply le_combine_inj; [done|].
  assert (sn_sign v = sn_sign w) as Es by (unfold sn_sign, len; congruence).
  unfold sn_value in *. rewrite <- Es in *.
  destruct (Z.ltb_spec (le_combine v) (sn_sign v)), (Z.ltb_spec (le_combine w) (sn_sign v)); lia.
Qed.

(** * Encoding *)

Lemma Bytes_loop_spec fuel n acc :
  0 <= n < 256 ^ Z.of_nat fuel ->
  exists r, Bytes_loop fuel n acc = acc ++ r /\ le_combine r = n /\
    (n = 0 -> r = []) /\ (0 < n -> exists l b, r = l ++ [b] /\ u8 b <> 0).
Proof.
  revert n acc. induction fuel as [|fuel IH]; intros n acc Hn; simpl.
  { exists []. rewrite app_nil_r. change (256 ^ Z.of_nat 0) with 1 in Hn.
    repeat split; [by rewrite le_combine_nil; lia|lia]. }
  destruct (Z.gtb_spec n 0).
  2: { exists []. rewrite app_nil_r. repeat split; [by rewrite le_combine_nil; lia|lia]. }
  rewrite Nat2Z.inj_succ, Z.pow_succ_r in Hn by lia.
  rewrite Z.shiftr_div_pow2 by lia. change (2 ^ 8) with 256.
  change 0xff with (Z.ones 8). rewrite Z.land_ones by lia. change (2 ^ 8) with 256.
  destruct (IH (n / 256) (acc ++ [to_byte (n mod 256)])) as (r & -> & Hr & Hz & Hlast); [lia|].
  exists (to_byte (n mod 256) :: r). rewrite <- app_assoc. split; [done|].
  assert (u8 (to_byte (n mod 256)) = n mod 256) as Hu by (apply u8_to_byte; lia).
  split; [rewrite le_combine_cons, Hu, Hr; lia|]. split; [lia|]. intros _.
  destruct (Z.eq_dec (n / 256) 0) as [E|E].
  - exists [], (to_byte (n mod 256)). rewrite (Hz E), Hu. split; [done|lia].
  - destruct Hlast as (l & b & -> & Hb); [lia|]. by exists (to_byte (n mod 256) :: l), b.
Qed.

(** Eight rounds are enough for every non-negative [int64]: more change
    nothing. *)
Lemma Bytes_loop_enough fuel n acc :
  (8 <= fuel)%nat -> 0 <= n < 2 ^ 63 -> Bytes_loop fuel n acc = Bytes_loop 8 n acc.
Proof.
  intros Hf Hn. assert (forall k f m a, 0 <= m < 256 ^ Z.of_nat k -> Bytes_loop (k + f) m a = Bytes_loop k m a) as H.
  { clear. induction k as [|k IH]; intros f m a Hm.
    - change (256 ^ Z.of_nat 0) with 1 in Hm. replace m with 0 by lia. by destruct f.
    - simpl. destruct (m >? 0); [|done]. apply IH.
      rewrite Nat2Z.inj_succ, Z.pow_succ_r in Hm by lia. rewrite Z.shiftr_div_pow2 by lia. lia. }
  replace fuel with (8 + (fuel - 8))%nat by lia. apply H. lia.
Qed.

Lemma insert_last (l : bytes) b c : <[Z.to_nat (len (l ++ [b]) - 1) := c]> (l ++ [b]) = l ++ [c].
Proof.
  replace (Z.to_nat (len (l ++ [b]) - 1)) with (length l + 0)%nat
    by (unfold len; rewrite length_app; simpl; lia).
  by rewrite insert_app_r.
Qed.

(** The value and the minimality of what [Bytes] produces. *)
Lemma Bytes_spec n :
  n <> 0 -> - 2 ^ 63 < n < 2 ^ 63 ->
  exists v, Bytes n = Ret v /\ sn_minimal v /\ sn_value v = n.
Proof.
  intros Hnz Hn. unfold Bytes. destruct (Z.eqb_spec n 0); [done|].
  assert ((if n <? 0 then int64 (- n) else n) = Z.abs n) as ->.
  { destruct (Z.ltb_spec n 0); [rewrite int64_small|]; lia. }
  destruct (Bytes_loop_spec 8 (Z.abs n) []) as (r & -> & Hr & _ & Hl); [change (Z.of_nat 8) with 8; lia|].
  destruct Hl as (l & b & -> & Hb); [lia|]. simpl app. rewrite index_last.
  change (or_panic (Some b) ≫= ?f) with (f b). cbv beta zeta.
  pose proof (u8_range b). pose proof (le_combine_range l). pose proof (len_nonneg l).
  rewrite land_128_byte by lia. rewrite le_combine_snoc in Hr.
  destruct (Z.ltb_spec (u8 b) 128) as [Hlt|Hge]; simpl.
  - destruct (Z.ltb_spec n 0).
    + rewrite insert_last, lor_128_byte by lia. eexists. split; [done|].
      unfold sn_minimal, sn_value. rewrite sn_sign_snoc, le_combine_snoc, u8_to_byte by lia.
      destruct (Z.ltb_spec (le_combine l + 256 ^ len l * (u8 b + 128)) (128 * 256 ^ len l)); [nia|].
      split_and!; [by destruct l|nia|nia].
    + eexists. split; [done|].
      unfold sn_minimal, sn_value. rewrite sn_sign_snoc, le_combine_snoc by lia.
      destruct (Z.ltb_spec (le_combine l + 256 ^ len l * u8 b) (128 * 256 ^ len l)); [|nia].
      split_and!; [by destruct l|nia|nia].
  - assert (forall z, 0 <= z < 256 -> sn_sign ((l ++ [b]) ++ [to_byte z]) = 128 * 256 * 256 ^ len l /\
      le_combine ((l ++ [b]) ++ [to_byte z]) = Z.abs n + 256 * 256 ^ len l * z) as Hx.
    { intros z Hz. rewrite sn_sign_snoc, le_combine_snoc, le_combine_snoc, u8_to_byte by lia.
      autorewrite with len. rewrite !Z.pow_add_r by lia. change (256 ^ (1 + 0)) with 256. nia. }
    assert (Z.abs n < 256 * 256 ^ len l) by nia.
    eexists. split; [done|]. unfold sn_minimal, sn_value.
    destruct (Z.ltb_spec n 0).
    + destruct (Hx 0x80) as [-> ->]; [lia|].
      destruct (Z.ltb_spec (Z.abs n + 256 * 256 ^ len l * 0x80) (128 * 256 * 256 ^ len l)); [nia|].
      split_and!; [by destruct l|nia|nia].
    + destruct (Hx 0x00) as [-> ->]; [lia|].
      destruct (Z.ltb_spec (Z.abs n + 256 * 256 ^ len l * 0x00) (128 * 256 * 256 ^ len l)); [|nia].
      split_and!; [by destruct l|nia|nia].
Qed.

(** * Correctness *)

Lemma sn_minimal_len v L :
  sn_minimal v -> 1 <= L -> Z.abs (sn_value v) < 2 ^ (8 * L - 1) -> len v <= L.
Proof.
  intros [Hv Hm] HL Hn. assert (sn_sign v < 2 ^ (8 * L + 7)) as Hs.
  { replace (8 * L + 7) with (8 + (8 * L - 1)) by lia. rewrite Z.pow_add_r; lia. }
  unfold sn_sign in Hs. apply Z.pow_lt_mono_r_iff in Hs; lia.
Qed.

Lemma CheckMinimalDataEncoding_minimal v :
  v <> [] -> CheckMinimalDataEncoding v = Ret () <-> sn_minimal v.
Proof.
  intros Hv. rewrite CheckMinimalDataEncoding_spec by done. unfold sn_minimal.
  destruct (Z.leb_spec (sn_sign v) (256 * Z.abs (sn_value v))); split; intros; first [done|lia].
Qed.

Lemma CheckMinimalDataEncoding_cases v :
  CheckMinimalDataEncoding v = Ret () \/ CheckMinimalDataEncoding v = Throw ErrMinimalData.
Proof.
  destruct (decide (v = [])) as [->|Hv]; [by left|].
  rewrite CheckMinimalDataEncoding_spec by done. destruct (_ <=? _); auto.
Qed.

(** Inversion of a successful decoding. *)
Lemma MakeScriptNum_inv v m L n :
  L <= 8 -> MakeScriptNum v m L = Ret n ->
  (v = [] /\ n = 0) \/ (v <> [] /\ len v <= L /\ n = sn_value v /\ (m = true -> sn_minimal v)).
Proof.
  intros HL8 H. destruct (decide (v = [])) as [->|Hv].
  { left. split; [done|]. unfold MakeScriptNum in H. rewrite len_nil in H.
    destruct (0 >? L); [done|]. destruct m; by inversion H. }
  right. split; [done|]. assert (len v <= L) as HL.
  { unfold MakeScriptNum in H. destruct (Z.gtb_spec (len v) L); [done|lia]. }
  assert (m = true -> CheckMinimalDataEncoding v = Ret ()) as Hm.
  { intros ->. unfold MakeScriptNum in H. destruct (len v >? L); [done|].
    by destruct (CheckMinimalDataEncoding_cases v) as [?|E]; [|rewrite E in H]. }
  rewrite MakeScriptNum_value in H by (done || lia). injection H as <-.
  split_and!; try done. intros. by apply CheckMinimalDataEncoding_minimal; auto.
Qed.

(** C35: encoding and decoding a script number is the identity: every number
    that fits a sign-magnitude encoding of [L <= 8] bytes is encoded by [Bytes]
    without a panic, and [MakeScriptNum] with the limit [L] reads it back, also
    when minimal encodings are required. *)
Theorem scriptnum_roundtrip (n : Z) (requireMinimal : bool) (L : Z)
    (HL : 1 <= L <= 8) (Hn : Z.abs n < 2 ^ (8 * L - 1)) :
  exists v, Bytes n = Ret v /\ MakeScriptNum v requireMinimal L = Ret n.
Proof.
  destruct (Z.eq_dec n 0) as [->|Hnz].
  { exists []. split; [done|]. unfold MakeScriptNum. rewrite len_nil.
    destruct (Z.gtb_spec 0 L); [lia|]. by destruct requireMinimal. }
  pose proof (Z.pow_le_mono_r 2 (8 * L - 1) 63).
  destruct (Bytes_spec n) as (v & Hb & Hm & Hval); [done|lia|].
  exists v. split; [done|]. rewrite <- Hval in Hn |- *.
  pose proof (sn_minimal_len v L Hm). apply MakeScriptNum_value; [by destruct Hm|lia|lia|].
  intros _. by apply CheckMinimalDataEncoding_minimal; [destruct Hm|].
Qed.

Lemma scriptnum_roundtrip_witness :
  exists v, Bytes (-2147483647) = Ret v /\ MakeScriptNum v true 4 = Ret (-2147483647).
Proof. apply (scriptnum_roundtrip (-2147483647) true 4); lia. Defined.

(** The minimality check makes the encoding canonical: the only byte
    string that [MakeScriptNum] accepts for a number when minimal encodings are
    required is the one [Bytes] produces. *)
Theorem scriptnum_canonical (v : bytes) (L n : Z) (HL : L <= 8)
    (H : MakeScriptNum v true L = Ret n) : Bytes n = Ret v.
Proof.
  destruct (MakeScriptNum_inv v true L n HL H) as [[-> ->]|(Hv & Hlen & -> & Hm)]; [done|].
  specialize (Hm eq_refl). pose proof (sn_value_abs v Hv) as Hr.
  assert (sn_sign v <= 2 ^ 63) by (apply Z.pow_le_mono_r; lia).
  pose proof (sn_sign_bound v Hv). destruct Hm as [Hv' Hm].
  destruct (Bytes_spec (sn_value v)) as (w & Hb & Hmw & Hw); [lia..|].
  rewrite Hb. f_equal. by apply sn_minimal_inj.
Qed.

Lemma scriptnum_canonical_witness :
  MakeScriptNum [Byte.xff; Byte.x80] true 4 = Ret (-255) /\ Bytes (-255) = Ret [Byte.xff; Byte.x80].
Proof. split; [reflexivity|]. by apply (scriptnum_canonical [Byte.xff; Byte.x80] 4 (-255)). Defined.

(** Decoding never panics, whatever the limit. *)
Lemma MakeScriptNum_no_panic v m L : MakeScriptNum v m L <> Panic.
Proof.
  unfold MakeScriptNum. destruct (len v >? L); [done|].
  assert ((if m then CheckMinimalDataEncoding v else mret ()) = Ret () \/
          (if m then CheckMinimalDataEncoding v else mret ()) = Throw ErrMinimalData) as [-> | ->];
    [|simpl|done].
  { destruct m; [apply CheckMinimalDataEncoding_cases|by left]. }
  destruct (decide (v = [])) as [->|Hv]; [done|].
  destruct (snoc_inv v Hv) as (l & b & ->). rewrite index_last.
  change (or_panic (Some b) ≫= ?f) with (f b). cbv beta zeta.
  destruct (len (l ++ [b]) =? 0); [done|]. by destruct (negb _).
Qed.

Lemma MakeScriptNum_range v m L n :
  1 <= L <= 8 -> MakeScriptNum v m L = Ret n -> Z.abs n < 2 ^ (8 * L - 1).
Proof.
  intros HL H. destruct (MakeScriptNum_inv v m L n) as [[-> ->]|(Hv & Hlen & -> & _)]; [lia|done| |].
  - change (Z.abs 0) with 0. apply Z.pow_pos_nonneg; lia.
  - pose proof (sn_value_abs v Hv). assert (0 < len v) by (destruct v; [done|len_lia]).
    assert (sn_sign v <= 2 ^ (8 * L - 1)) by (apply Z.pow_le_mono_r; lia). lia.
Qed.

Lemma Bytes_min_int64 : Bytes (- 2 ^ 63) = Panic.
Proof. reflexivity. Qed.

(** A limit of [L] bytes bounds the decoded number by [2^(8L-1)]; decoding
    never panics and fails only with [ErrNumberTooBig], exactly for inputs
    longer than the limit, or with [ErrMinimalData], exactly when minimality is
    required and the input is not what [Bytes] produces for any number. *)
Theorem MakeScriptNum_spec (v : bytes) (m : bool) (L : Z) (HL : 1 <= L <= 8) :
  match MakeScriptNum v m L with
  | Ret n => len v <= L /\ Z.abs n < 2 ^ (8 * L - 1)
  | Throw ErrNumberTooBig => L < len v
  | Throw ErrMinimalData =>
      m = true /\ len v <= L /\ forall n, - 2 ^ 63 <= n < 2 ^ 63 -> Bytes n <> Ret v
  | _ => False
  end.
Proof.
  destruct (MakeScriptNum v m L) as [n|e|] eqn:E; [| |by apply MakeScriptNum_no_panic in E].
  { split; [|by eapply MakeScriptNum_range].
    unfold MakeScriptNum in E. destruct (Z.gtb_spec (len v) L); [done|lia]. }
  destruct (Z.gtb_spec (len v) L) as [Hgt|Hle].
  { unfold MakeScriptNum in E. destruct (Z.gtb_spec (len v) L); [by injection E as <-|lia]. }
  destruct (decide (v = [])) as [->|Hv].
  { unfold MakeScriptNum in E. destruct (Z.gtb_spec (len (@nil byte)) L); [lia|by destruct m]. }
  destruct (CheckMinimalDataEncoding_cases v) as [Ec|Ec];
    [by rewrite MakeScriptNum_value in E by (done || lia)|].
  destruct m; [|by rewrite MakeScriptNum_value in E by (done || lia)].
  unfold MakeScriptNum in E. rewrite Ec in E. destruct (Z.gtb_spec (len v) L); [lia|].
  injection E as <-. split_and!; [done|lia|]. intros n Hn Hb.
  destruct (Z.eq_dec n 0) as [->|]; [by injection Hb as <-|].
  destruct (Z.eq_dec n (- 2 ^ 63)) as [->|]; [by rewrite Bytes_min_int64 in Hb|].
  destruct (Bytes_spec n) as (w & Hw & Hmin & _); [done|lia|].
  rewrite Hb in Hw. injection Hw as <-.
  apply CheckMinimalDataEncoding_minimal in Hmin; [congruence|done].
Qed.

Lemma MakeScriptNum_spec_witness :
  match MakeScriptNum [Byte.x7f; Byte.x00] true 4 with
  | Ret n => len [Byte.x7f; Byte.x00] <= 4 /\ Z.abs n < 2 ^ (8 * 4 - 1)
  | Throw ErrNumberTooBig => 4 < len [Byte.x7f; Byte.x00]
  | Throw ErrMinimalData =>
      true = true /\ len [Byte.x7f; Byte.x00] <= 4 /\
      forall n, - 2 ^ 63 <= n < 2 ^ 63 -> Bytes n <> Ret [Byte.x7f; Byte.x00]
  | _ => False
  end.
Proof. apply (MakeScriptNum_spec [Byte.x7f; Byte.x00] true 4); lia. Defined.

(** C36: on [int64] inputs the encoder fails in exactly one case, the smallest
    [int64], whose negation wraps around to itself: the loop appends nothing and
    the index of the last byte panics. *)
Theorem Bytes_panics_iff (n : Z) (Hn : - 2 ^ 63 <= n < 2 ^ 63) :
  (Bytes n = Panic <-> n = - 2 ^ 63) /\ forall e, Bytes n <> Throw e.
Proof.
  destruct (Z.eq_dec n (- 2 ^ 63)) as [->|].
  { rewrite Bytes_min_int64. done. }
  destruct (Z.eq_dec n 0) as [->|]; [done|].
  destruct (Bytes_spec n) as (w & -> & _); [done|lia|]. done.
Qed.

Lemma Bytes_panics_iff_witness :
  (Bytes (- 2 ^ 63) = Panic <-> - 2 ^ 63 = - 2 ^ 63) /\ forall e, Bytes (- 2 ^ 63) <> Throw e.
Proof. apply (Bytes_panics_iff (- 2 ^ 63)); lia. Defined.
