(* ===== verification/Stack.v ===== *)
(** The script stack (src/txscript/stack.go): a stack of immutable byte
    strings, bottom first as in the Go slice, and its operations. *)

From S2P Require Import Prelude TxScriptErr ScriptNum.

Record stack := mkStack {
  stk : list bytes;
  verifyMinimalData : bool;
}.

Definition set_stk (l : list bytes) (s : stack) : stack :=
  mkStack l (verifyMinimalData s).

Abbreviation SM := (St scripterr stack).

(** [for i := range t { if t[i] != 0 { ... } }]. *)
Fixpoint asBool (t : bytes) : bool :=
  match t with
  | [] => false
  | b :: t' =>
      if negb (u8 b =? 0) then
        (* negative 0 is also considered false *)
        if bool_decide (t' = []) && (u8 b =? 0x80) then false else true
      else asBool t'
  end.

Definition fromBool (v : bool) : bytes := if v then [to_byte 1] else [].

Definition Depth (s : stack) : Z := int32 (len (stk s)).

Definition PushByteArray (so : bytes) : SM () :=
  modify (fun s => set_stk (stk s ++ [so]) s).

Definition PushInt (val : Z) : SM () :=
  b ← lift (Bytes val);
  PushByteArray b.

Definition PushBool (val : bool) : SM () := PushByteArray (fromBool val).

Definition nipN (idx : Z) : SM bytes :=
  s ← gets id;
  let sz := int32 (len (stk s)) in
  if (idx <? 0) || (idx >? sz - 1) then mthrow ErrInvalidStackOperation else
  so ← lift (or_panic (index (stk s) (sz - idx - 1)));
  (if idx =? 0 then
     l ← lift (or_panic (slice_to (stk s) (sz - 1)));
     modify (set_stk l)
   else if idx =? sz - 1 then
     s1 ← lift (or_panic (slice_from (stk s) 1));
     modify (set_stk s1)
   else
     s1 ← lift (or_panic (slice (stk s) (sz - idx) sz));
     l ← lift (or_panic (slice_to (stk s) (sz - idx - 1)));
     modify (set_stk (l ++ s1)));;
  mret so.

Definition PopByteArray : SM bytes := nipN 0.

Definition PopInt : SM Z :=
  so ← PopByteArray;
  minimal ← gets verifyMinimalData;
  lift (MakeScriptNum so minimal DefaultScriptNumLen).

Definition PopBool : SM bool :=
  so ← PopByteArray;
  mret (asBool so).

Definition PeekByteArray (idx : Z) : SM bytes :=
  s ← gets id;
  let sz := int32 (len (stk s)) in
  if (idx <? 0) || (idx >=? sz) then mthrow ErrInvalidStackOperation else
  lift (or_panic (index (stk s) (sz - idx - 1))).

Definition PeekInt (idx : Z) : SM Z :=
  so ← PeekByteArray idx;
  minimal ← gets verifyMinimalData;
  lift (MakeScriptNum so minimal DefaultScriptNumLen).

Definition PeekBool (idx : Z) : SM bool :=
  so ← PeekByteArray idx;
  mret (asBool so).

Definition NipN (idx : Z) : SM () := nipN idx;; mret ().

Definition Tuck : SM () :=
  so2 ← PopByteArray;
  so1 ← PopByteArray;
  PushByteArray so2;;
  PushByteArray so1;;
  PushByteArray so2.

Definition DropN (n : Z) : SM () :=
  if n <? 1 then mthrow ErrInvalidStackOperation else
  repeat_st (Z.to_nat n) (PopByteArray;; mret ()).

Definition DupN (n : Z) : SM () :=
  if n <? 1 then mthrow ErrInvalidStackOperation else
  repeat_st (Z.to_nat n) (so ← PeekByteArray (n - 1); PushByteArray so).

Definition RotN (n : Z) : SM () :=
  if n <? 1 then mthrow ErrInvalidStackOperation else
  let entry := int32 (3 * n - 1) in
  repeat_st (Z.to_nat n) (so ← nipN entry; PushByteArray so).

Definition SwapN (n : Z) : SM () :=
  if n <? 1 then mthrow ErrInvalidStackOperation else
  let entry := int32 (2 * n - 1) in
  repeat_st (Z.to_nat n) (so ← nipN entry; PushByteArray so).

Definition OverN (n : Z) : SM () :=
  if n <? 1 then mthrow ErrInvalidStackOperation else
  let entry := int32 (2 * n - 1) in
  repeat_st (Z.to_nat n) (so ← PeekByteArray entry; PushByteArray so).

Definition PickN (n : Z) : SM () :=
  so ← PeekByteArray n;
  PushByteArray so.

Definition RollN (n : Z) : SM () :=
  so ← nipN n;
  PushByteArray so.

(** * The abstract stack *)

(** The stack transformations that the comments of stack.go document, as
    operations on the list of items, bottom first. *)
Inductive stack_op :=
| SNip (n : Z) | STuck | SDrop (n : Z) | SDup (n : Z) | SRot (n : Z)
| SSwap (n : Z) | SOver (n : Z) | SPick (n : Z) | SRoll (n : Z).

Definition run_op (op : stack_op) : SM () :=
  match op with
  | SNip n => NipN n
  | STuck => Tuck
  | SDrop n => DropN n
  | SDup n => DupN n
  | SRot n => RotN n
  | SSwap n => SwapN n
  | SOver n => OverN n
  | SPick n => PickN n
  | SRoll n => RollN n
  end.

(** [split_top n l]: the items below the top [n], and the top [n]. *)
Definition split_top (n : Z) (l : list bytes) : option (list bytes * list bytes) :=
  if (0 <=? n) && (n <=? len l)
  then Some (take (length l - Z.to_nat n) l, drop (length l - Z.to_nat n) l)
  else None.

Definition spec_op (op : stack_op) (l : list bytes) : option (list bytes) :=
  match op with
  | SNip n =>
      if n <? 0 then None else
      '(pre, top) ← split_top (n + 1) l;
      mret (pre ++ drop 1 top)
  | STuck =>
      '(pre, top) ← split_top 2 l;
      mret (pre ++ drop 1 top ++ top)
  | SDrop n =>
      if n <? 1 then None else
      '(pre, _) ← split_top n l;
      mret pre
  | SDup n =>
      if n <? 1 then None else
      '(_, top) ← split_top n l;
      mret (l ++ top)
  | SRot n =>
      if n <? 1 then None else
      '(rest, c) ← split_top n l;
      '(rest, b) ← split_top n rest;
      '(pre, a) ← split_top n rest;
      mret (pre ++ b ++ c ++ a)
  | SSwap n =>
      if n <? 1 then None else
      '(rest, b) ← split_top n l;
      '(pre, a) ← split_top n rest;
      mret (pre ++ b ++ a)
  | SOver n =>
      if n <? 1 then None else
      '(rest, b) ← split_top n l;
      '(_, a) ← split_top n rest;
      mret (l ++ a)
  | SPick n =>
      if n <? 0 then None else
      '(_, top) ← split_top (n + 1) l;
      mret (l ++ take 1 top)
  | SRoll n =>
      if n <? 0 then None else
      '(pre, top) ← split_top (n + 1) l;
      mret (pre ++ drop 1 top ++ take 1 top)
  end.

Example spec_rot2 a b c d e f :
  spec_op (SRot 2) [a; b; c; d; e; f] = Some [c; d; e; f; a; b].
Proof. reflexivity. Qed.
Example spec_tuck a b : spec_op STuck [a; b] = Some [b; a; b].
Proof. reflexivity. Qed.
Example spec_roll2 a b c : spec_op (SRoll 2) [a; b; c] = Some [b; c; a].
Proof. reflexivity. Qed.

(** * The operations on a stack split at the item they act on *)

(** The Go code sizes the stack with an [int32]. *)
Definition stack_small (s : stack) : Prop := len (stk s) < 2 ^ 31.

Lemma depth_small s : stack_small s -> int32 (len (stk s)) = len (stk s).
Proof. intros H. unfold stack_small in H. apply int32_small. len_lia. Qed.

Lemma nipN_split s pre x post :
  stk s = pre ++ x :: post -> stack_small s ->
  nipN (len post) s = (Ret x, set_stk (pre ++ post) s).
Proof.
  intros Hs Hsm. unfold nipN. erewrite bind_Ret by done. cbn [id].
  rewrite depth_small by done. rewrite Hs. cbv zeta.
  destruct (Z.ltb_spec (len post) 0); [len_lia|].
  destruct (Z.gtb_spec (len post) (len (pre ++ x :: post) - 1)); [len_lia|]. simpl.
  replace (len (pre ++ x :: post) - len post - 1) with (len pre) by len_lia.
  rewrite index_app_r, Z.sub_diag, index_cons_0 by lia.
  erewrite bind_Ret by done.
  destruct (Z.eqb_spec (len post) 0) as [E|].
  { apply len_0 in E as ->. rewrite slice_to_app by len_lia.
    rewrite app_nil_r. reflexivity. }
  destruct (Z.eqb_spec (len post) (len (pre ++ x :: post) - 1)) as [E|].
  { assert (pre = []) as -> by (apply len_0; len_lia). simpl.
    rewrite (slice_from_app [x] post) by done. reflexivity. }
  replace (pre ++ x :: post) with ((pre ++ [x]) ++ post) by (by rewrite <- app_assoc).
  replace (slice ((pre ++ [x]) ++ post) _ _) with (Some post)
    by (symmetry; apply slice_from_app; len_lia).
  rewrite <- app_assoc. rewrite slice_to_app by done. reflexivity.
Qed.

Lemma nipN_err s idx :
  stack_small s -> idx < 0 \/ len (stk s) <= idx -> nipN idx s = (Throw ErrInvalidStackOperation, s).
Proof.
  intros Hsm Hi. unfold nipN. erewrite bind_Ret by done. cbn [id]. rewrite depth_small by done.
  cbv zeta. destruct (Z.ltb_spec idx 0), (Z.gtb_spec idx (len (stk s) - 1)); first [lia|done].
Qed.

Lemma PopByteArray_snoc s pre x :
  stk s = pre ++ [x] -> stack_small s -> PopByteArray s = (Ret x, set_stk pre s).
Proof. intros Hs Hsm. pose proof (nipN_split s pre x [] Hs Hsm) as H. by rewrite app_nil_r in H. Qed.

Lemma PopByteArray_empty s : stk s = [] -> PopByteArray s = (Throw ErrInvalidStackOperation, s).
Proof. intros Hs. apply nipN_err; unfold stack_small; rewrite Hs; len_lia. Qed.

Lemma PeekByteArray_split s pre x post :
  stk s = pre ++ x :: post -> stack_small s -> PeekByteArray (len post) s = (Ret x, s).
Proof.
  intros Hs Hsm. unfold PeekByteArray. erewrite bind_Ret by done. cbn [id].
  rewrite depth_small by done. rewrite Hs. cbv zeta.
  destruct (Z.ltb_spec (len post) 0); [len_lia|].
  destruct (Z.geb_spec (len post) (len (pre ++ x :: post))); [len_lia|]. simpl.
  replace (len (pre ++ x :: post) - len post - 1) with (len pre) by len_lia.
  rewrite index_app_r, Z.sub_diag, index_cons_0 by lia. reflexivity.
Qed.

Lemma PeekByteArray_err s idx :
  stack_small s -> idx < 0 \/ len (stk s) <= idx ->
  PeekByteArray idx s = (Throw ErrInvalidStackOperation, s).
Proof.
  intros Hsm Hi. unfold PeekByteArray. erewrite bind_Ret by done. cbn [id].
  rewrite depth_small by done. cbv zeta.
  destruct (Z.ltb_spec idx 0), (Z.geb_spec idx (len (stk s))); first [lia|done].
Qed.

Lemma set_stk_set_stk l l' s : set_stk l (set_stk l' s) = set_stk l s.
Proof. done. Qed.
Lemma set_stk_stk s : set_stk (stk s) s = s.
Proof. by destruct s. Qed.

(** Moving an item from depth [m] to the top, once per element of [a]. *)
Lemma nip_push_loop a s pre rest m :
  stk s = pre ++ a ++ rest -> len a + len rest = m + 1 -> stack_small s ->
  repeat_st (length a) (so ← nipN m; PushByteArray so) s = (Ret (), set_stk (pre ++ rest ++ a) s).
Proof.
  revert s rest. induction a as [|x a IH]; intros s rest Hs Hm Hsm; simpl.
  { rewrite app_nil_r. simpl in Hs. by rewrite <- Hs, set_stk_stk. }
  rewrite len_cons in Hm.
  erewrite bind_Ret.
  2: { erewrite bind_Ret; [|replace m with (len (a ++ rest)) by len_lia; by apply (nipN_split s pre x)].
       reflexivity. }
  rewrite (IH _ (rest ++ [x])); simpl.
  - rewrite !set_stk_set_stk. by rewrite <- app_assoc.
  - by rewrite <- !app_assoc.
  - len_lia.
  - unfold stack_small in *. rewrite Hs in Hsm. simpl. len_lia.
Qed.

(** Copying the item at depth [m] to the top, once per element of [a]. *)
Lemma peek_push_loop a s pre rest m :
  stk s = pre ++ a ++ rest -> len a + len rest = m + 1 -> len (stk s) + len a < 2 ^ 31 ->
  repeat_st (length a) (so ← PeekByteArray m; PushByteArray so) s
  = (Ret (), set_stk (stk s ++ a) s).
Proof.
  revert s pre rest. induction a as [|x a IH]; intros s pre rest Hs Hm Hsm; simpl.
  { by rewrite app_nil_r, set_stk_stk. }
  rewrite len_cons in Hm, Hsm.
  erewrite bind_Ret.
  2: { erewrite bind_Ret; [|replace m with (len (a ++ rest)) by len_lia;
         apply (PeekByteArray_split s pre x); [done|unfold stack_small; len_lia]].
       reflexivity. }
  rewrite (IH _ (pre ++ [x]) (rest ++ [x])); simpl.
  - rewrite set_stk_set_stk. by rewrite <- app_assoc.
  - rewrite Hs. by rewrite <- !app_assoc.
  - len_lia.
  - len_lia.
Qed.

Lemma drop_loop a s pre :
  stk s = pre ++ a -> stack_small s ->
  repeat_st (length a) (PopByteArray;; mret ()) s = (Ret (), set_stk pre s).
Proof.
  revert s. induction a as [|x a IH] using rev_ind; intros s Hs Hsm; simpl.
  { rewrite app_nil_r in Hs. by rewrite <- Hs, set_stk_stk. }
  rewrite length_app, Nat.add_comm. simpl. rewrite app_assoc in Hs.
  erewrite bind_Ret by (erewrite bind_Ret by (by apply PopByteArray_snoc); reflexivity).
  rewrite IH; [done|done|]. unfold stack_small in *. rewrite Hs in Hsm. simpl. len_lia.
Qed.

Lemma drop_loop_err n s :
  stack_small s -> (length (stk s) < n)%nat ->
  repeat_st n (PopByteArray;; mret ()) s = (Throw ErrInvalidStackOperation, set_stk [] s).
Proof.
  revert s. induction n as [|n IH]; intros s Hsm Hn; [lia|]. simpl.
  destruct (decide (stk s = [])) as [E|E].
  { erewrite bind_Throw by (erewrite bind_Throw by (by apply PopByteArray_empty); reflexivity).
    by rewrite <- E, set_stk_stk. }
  destruct (snoc_inv _ E) as (l & x & El).
  erewrite bind_Ret by (erewrite bind_Ret by (by apply PopByteArray_snoc); reflexivity).
  unfold stack_small in *. rewrite El in *. rewrite length_app in Hn. simpl in *.
  rewrite IH; simpl; [done|len_lia|lia].
Qed.

(** * Refinement of the abstract stack *)

Lemma split_top_Some n l a b : split_top n l = Some (a, b) -> l = a ++ b /\ len b = n.
Proof.
  unfold split_top. destruct (Z.leb_spec 0 n), (Z.leb_spec n (len l)); try done. simpl.
  intros [= <- <-]. split; [by rewrite take_drop|]. unfold len in *. rewrite length_drop. lia.
Qed.

Lemma split_top_None n l : split_top n l = None -> n < 0 \/ len l < n.
Proof. unfold split_top. destruct (Z.leb_spec 0 n), (Z.leb_spec n (len l)); try done; lia. Qed.

Definition op_arg (op : stack_op) : Z :=
  match op with
  | STuck => 0
  | SNip n | SDrop n | SDup n | SRot n | SSwap n | SOver n | SPick n | SRoll n => n
  end.

(** A loop whose first call fails. *)
Lemma repeat_first_err (n : nat) (body : SM ()) s e :
  (0 < n)%nat -> body s = (Throw e, s) -> repeat_st n body s = (Throw e, s).
Proof. intros Hn Hb. destruct n; [lia|]. simpl. by erewrite bind_Throw. Qed.

Lemma len_length {A} (l : list A) n : len l = n -> Z.to_nat n = length l.
Proof. unfold len. lia. Qed.

Section refine.
Context (s : stack) (Hsm : len (stk s) < 2 ^ 29).

Let small : stack_small s.
Proof. unfold stack_small. lia. Qed.

Lemma nip_body_err m :
  m < 0 \/ len (stk s) <= m ->
  (so ← nipN m; PushByteArray so) s = (Throw ErrInvalidStackOperation, s).
Proof. intros. by erewrite bind_Throw by (by apply nipN_err). Qed.

Lemma peek_body_err m :
  m < 0 \/ len (stk s) <= m ->
  (so ← PeekByteArray m; PushByteArray so) s = (Throw ErrInvalidStackOperation, s).
Proof. intros. by erewrite bind_Throw by (by apply PeekByteArray_err). Qed.

(** What it means that an operation behaves as its abstract counterpart. *)
Definition op_refines (op : stack_op) : Prop :=
  match spec_op op (stk s) with
  | Some l => run_op op s = (Ret (), set_stk l s)
  | None => fst (run_op op s) = Throw ErrInvalidStackOperation
  end.

Lemma SNip_refines n : op_refines (SNip n).
Proof.
  unfold op_refines. simpl. unfold NipN. destruct (Z.ltb_spec n 0).
  { erewrite bind_Throw by (apply nipN_err; [done|lia]). done. }
  destruct (split_top (n + 1) (stk s)) as [[pre top]|] eqn:E; simpl.
  - apply split_top_Some in E as [Hs Hl]. destruct top as [|x top]; [len_lia|].
    erewrite bind_Ret by (replace n with (len top) by len_lia; by eapply nipN_split). done.
  - apply split_top_None in E. erewrite bind_Throw by (apply nipN_err; [done|lia]). done.
Qed.

Lemma SPick_refines n : op_refines (SPick n).
Proof.
  unfold op_refines. simpl. unfold PickN. destruct (Z.ltb_spec n 0).
  { erewrite bind_Throw by (apply PeekByteArray_err; [done|lia]). done. }
  destruct (split_top (n + 1) (stk s)) as [[pre top]|] eqn:E; simpl.
  - apply split_top_Some in E as [Hs Hl]. destruct top as [|x top]; [len_lia|].
    erewrite bind_Ret by (replace n with (len top) by len_lia; by eapply PeekByteArray_split). done.
  - apply split_top_None in E. erewrite bind_Throw by (apply PeekByteArray_err; [done|lia]). done.
Qed.

Lemma SRoll_refines n : op_refines (SRoll n).
Proof.
  unfold op_refines. simpl. unfold RollN. destruct (Z.ltb_spec n 0).
  { erewrite bind_Throw by (apply nipN_err; [done|lia]). done. }
  destruct (split_top (n + 1) (stk s)) as [[pre top]|] eqn:E; simpl.
  - apply split_top_Some in E as [Hs Hl]. destruct top as [|x top]; [len_lia|].
    erewrite bind_Ret by (replace n with (len top) by len_lia; by eapply nipN_split).
    unfold PushByteArray, modify. simpl. by rewrite <- app_assoc.
  - apply split_top_None in E. erewrite bind_Throw by (apply nipN_err; [done|lia]). done.
Qed.

Lemma STuck_refines : op_refines STuck.
Proof.
  unfold op_refines. simpl. unfold Tuck. destruct (split_top 2 (stk s)) as [[pre top]|] eqn:E; simpl.
  - apply split_top_Some in E as [Hs Hl]. destruct top as [|x [|y [|]]]; try len_lia.
    erewrite bind_Ret by (apply (PopByteArray_snoc s (pre ++ [x]) y); [by rewrite Hs, <- app_assoc|done]).
    erewrite bind_Ret by (apply (PopByteArray_snoc _ pre x);
      [done|unfold stack_small in *; rewrite Hs in small; simpl; len_lia]).
    unfold PushByteArray, modify, mbind, St_bind. simpl. by rewrite <- !app_assoc.
  - apply split_top_None in E. destruct (stk s) as [|x [|]] eqn:Es; [| |len_lia].
    + by erewrite bind_Throw by (by apply PopByteArray_empty).
    + erewrite bind_Ret by (by apply (PopByteArray_snoc s [])).
      by erewrite bind_Throw by (by apply PopByteArray_empty).
Qed.

Lemma SDrop_refines n : op_refines (SDrop n).
Proof.
  unfold op_refines. simpl. unfold DropN. destruct (Z.ltb_spec n 1); [done|].
  destruct (split_top n (stk s)) as [[pre top]|] eqn:E; simpl.
  - apply split_top_Some in E as [Hs Hl]. rewrite (len_length _ _ Hl). by apply drop_loop.
  - apply split_top_None in E. rewrite drop_loop_err; [done|done|unfold len in *; lia].
Qed.

Lemma SDup_refines n : op_refines (SDup n).
Proof.
  unfold op_refines. simpl. unfold DupN. destruct (Z.ltb_spec n 1); [done|].
  destruct (split_top n (stk s)) as [[pre top]|] eqn:E; simpl.
  - apply split_top_Some in E as [Hs Hl]. rewrite (len_length _ _ Hl).
    apply (peek_push_loop top s pre []); [by rewrite app_nil_r|len_lia|]. rewrite Hs in *. len_lia.
  - apply split_top_None in E.
    rewrite (repeat_first_err _ _ s ErrInvalidStackOperation); [done|lia|]. apply peek_body_err. lia.
Qed.

(** The loops of [SwapN] and [RotN], and of [OverN], on a stack that is too
    short fail in their first round. *)
Lemma nip_loop_err n m :
  1 <= n -> len (stk s) <= m ->
  fst (repeat_st (Z.to_nat n) (so ← nipN m; PushByteArray so) s) = Throw ErrInvalidStackOperation.
Proof.
  intros. rewrite (repeat_first_err _ _ s ErrInvalidStackOperation); [done|lia|].
  apply nip_body_err. lia.
Qed.

Lemma peek_loop_err n m :
  1 <= n -> len (stk s) <= m ->
  fst (repeat_st (Z.to_nat n) (so ← PeekByteArray m; PushByteArray so) s) = Throw ErrInvalidStackOperation.
Proof.
  intros. rewrite (repeat_first_err _ _ s ErrInvalidStackOperation); [done|lia|].
  apply peek_body_err. lia.
Qed.

(** Splits the stack at the next [split_top] into [pre] and [top]; the stack
    that is too short is closed by the loop-error lemma [err]. *)
Ltac split_or_fail err pre top H L :=
  match goal with
  | |- context [split_top ?n ?l] =>
      let E := fresh "E" in
      destruct (split_top n l) as [[pre top]|] eqn:E; simpl;
        [apply split_top_Some in E as [H L]
        |apply split_top_None in E; apply err; [done|];
         repeat match goal with Hx : _ = _ ++ _ |- _ => rewrite Hx in *; clear Hx end; len_lia]
  end.

Lemma SSwap_refines n : n < 2 ^ 29 -> op_refines (SSwap n).
Proof.
  intros Hn. unfold op_refines. simpl. unfold SwapN. destruct (Z.ltb_spec n 1); [done|].
  rewrite int32_small by lia.
  split_or_fail nip_loop_err rest b Hs Lb. split_or_fail nip_loop_err pre a Hr La.
  rewrite (len_length a n La). apply nip_push_loop; [by rewrite Hs, Hr, <- app_assoc|lia|done].
Qed.

Lemma SOver_refines n : n < 2 ^ 29 -> op_refines (SOver n).
Proof.
  intros Hn. unfold op_refines. simpl. unfold OverN. destruct (Z.ltb_spec n 1); [done|].
  rewrite int32_small by lia.
  split_or_fail peek_loop_err rest b Hs Lb. split_or_fail peek_loop_err pre a Hr La.
  rewrite (len_length a n La).
  apply (peek_push_loop a s pre b); [by rewrite Hs, Hr, <- app_assoc|lia|lia].
Qed.

Lemma SRot_refines n : n < 2 ^ 29 -> op_refines (SRot n).
Proof.
  intros Hn. unfold op_refines. simpl. unfold RotN. destruct (Z.ltb_spec n 1); [done|].
  rewrite int32_small by lia.
  split_or_fail nip_loop_err rest c Hs Lc. split_or_fail nip_loop_err rest2 b Hr Lb.
  split_or_fail nip_loop_err pre a Hr2 La.
  rewrite (len_length a n La), (nip_push_loop a s pre (b ++ c)); [by rewrite <- app_assoc| |len_lia|done].
  by rewrite Hs, Hr, Hr2, <- !app_assoc.
Qed.

(** The arguments for which the code's [int32] products do not overflow. *)
Definition op_small (op : stack_op) : Prop :=
  match op with SRot n | SSwap n | SOver n => n < 2 ^ 29 | _ => True end.

Lemma op_refines_all op : op_small op -> op_refines op.
Proof.
  destruct op; simpl; intros;
    [by apply SNip_refines|by apply STuck_refines|by apply SDrop_refines|by apply SDup_refines
    |by apply SRot_refines|by apply SSwap_refines|by apply SOver_refines
    |by apply SPick_refines|by apply SRoll_refines].
Qed.
End refine.

(** ** All methods *)

(** How an item is read, and what a method returns. *)
Inductive reading := AsBytes | AsInt | AsBool.
Inductive item := INone | IBytes (b : bytes) | IInt (n : Z) | IBool (b : bool).

(** The exported methods of the stack. *)
Inductive stack_call :=
| CMove (op : stack_op)
| CPushBytes (so : bytes) | CPushInt (val : Z) | CPushBool (val : bool)
| CPop (r : reading) | CPeek (r : reading) (idx : Z).

Definition run_call (c : stack_call) : SM item :=
  match c with
  | CMove op => run_op op;; mret INone
  | CPushBytes so => PushByteArray so;; mret INone
  | CPushInt val => PushInt val;; mret INone
  | CPushBool val => PushBool val;; mret INone
  | CPop AsBytes => b ← PopByteArray; mret (IBytes b)
  | CPop AsInt => n ← PopInt; mret (IInt n)
  | CPop AsBool => b ← PopBool; mret (IBool b)
  | CPeek AsBytes idx => b ← PeekByteArray idx; mret (IBytes b)
  | CPeek AsInt idx => n ← PeekInt idx; mret (IInt n)
  | CPeek AsBool idx => b ← PeekBool idx; mret (IBool b)
  end.

Definition spec_read (minimal : bool) (r : reading) (so : bytes) : outcome scripterr item :=
  match r with
  | AsBytes => Ret (IBytes so)
  | AsInt => n ← MakeScriptNum so minimal DefaultScriptNumLen; Ret (IInt n)
  | AsBool => Ret (IBool (asBool so))
  end.

(** The item at a depth. *)
Definition spec_item (idx : Z) (l : list bytes) : outcome scripterr bytes :=
  if idx <? 0 then Throw ErrInvalidStackOperation else
  match split_top (idx + 1) l with Some (_, so :: _) => Ret so | _ => Throw ErrInvalidStackOperation end.

(** The result and the items afterwards. *)
Definition spec_call (minimal : bool) (c : stack_call) (l : list bytes) : outcome scripterr (item * list bytes) :=
  match c with
  | CMove op => match spec_op op l with Some l' => Ret (INone, l') | None => Throw ErrInvalidStackOperation end
  | CPushBytes so => Ret (INone, l ++ [so])
  | CPushInt val => so ← Bytes val; Ret (INone, l ++ [so])
  | CPushBool val => Ret (INone, l ++ [fromBool val])
  | CPop r => so ← spec_item 0 l; v ← spec_read minimal r so; Ret (v, take (length l - 1) l)
  | CPeek r idx => so ← spec_item idx l; v ← spec_read minimal r so; Ret (v, l)
  end.

Definition call_ok (c : stack_call) : Prop :=
  match c with
  | CMove op => op_arg op < 2 ^ 29
  | CPushInt val => - 2 ^ 63 <= val < 2 ^ 63
  | _ => True
  end.

Definition call_refines (c : stack_call) (s : stack) : Prop :=
  match spec_call (verifyMinimalData s) c (stk s) with
  | Ret (v, l) => run_call c s = (Ret v, set_stk l s)
  | Throw e => fst (run_call c s) = Throw e
  | Panic => fst (run_call c s) = Panic
  end.

Lemma move_refines op s : len (stk s) < 2 ^ 29 -> op_arg op < 2 ^ 29 -> call_refines (CMove op) s.
Proof.
  intros Hs Ha. assert (op_refines s op) as Hr by (apply op_refines_all; [done|by destruct op]).
  unfold call_refines, op_refines in *. cbn [spec_call run_call]. destruct (spec_op op (stk s)).
  - by erewrite bind_Ret by done.
  - destruct (run_op op s) as [r s'] eqn:E. simpl in Hr. subst. by erewrite bind_Throw by done.
Qed.

Lemma spec_item_cases idx l :
  (exists pre so post, l = pre ++ so :: post /\ len post = idx /\ spec_item idx l = Ret so) \/
  ((idx < 0 \/ len l <= idx) /\ spec_item idx l = Throw ErrInvalidStackOperation).
Proof.
  unfold spec_item. destruct (Z.ltb_spec idx 0); [right; split; [lia|done]|].
  destruct (split_top (idx + 1) l) as [[pre top]|] eqn:E.
  - apply split_top_Some in E as [-> Hl]. destruct top as [|so post]; [len_lia|]. left. exists pre, so, post. split; [done|]. split; [len_lia|done].
  - apply split_top_None in E. right. split; [lia|done].
Qed.

Lemma peek_refines r idx s : len (stk s) < 2 ^ 29 -> call_refines (CPeek r idx) s.
Proof.
  intros Hs. assert (stack_small s) as Hsm by (unfold stack_small; lia). unfold call_refines. cbn [spec_call].
  destruct (spec_item_cases idx (stk s)) as [(pre & so & post & El & Hi & ->)|[Hi ->]]; cbn [mbind outcome_bind].
  - assert (PeekByteArray idx s = (Ret so, s)) as Hp by (subst idx; by eapply PeekByteArray_split).
    destruct r; cbn [run_call spec_read]; unfold PeekInt, PeekBool, mbind, St_bind; rewrite Hp; simpl; rewrite ?set_stk_stk; [done| |done].
    by destruct (MakeScriptNum so _ _); simpl; rewrite ?set_stk_stk.
  - assert (PeekByteArray idx s = (Throw ErrInvalidStackOperation, s)) as Hp by (by apply PeekByteArray_err).
    destruct r; cbn [run_call]; unfold PeekInt, PeekBool, mbind, St_bind; by rewrite Hp.
Qed.

Lemma pop_refines r s : len (stk s) < 2 ^ 29 -> call_refines (CPop r) s.
Proof.
  intros Hs. assert (stack_small s) as Hsm by (unfold stack_small; lia). unfold call_refines. cbn [spec_call].
  destruct (spec_item_cases 0 (stk s)) as [(pre & so & post & El & Hi & ->)|[Hi ->]]; cbn [mbind outcome_bind].
  - apply len_0 in Hi as ->. assert (PopByteArray s = (Ret so, set_stk pre s)) as Hp by (by apply PopByteArray_snoc).
    assert (take (length (stk s) - 1) (stk s) = pre) as -> by (rewrite El, length_app, Nat.add_sub; apply take_app_length).
    destruct r; cbn [run_call spec_read]; unfold PopInt, PopBool, mbind, St_bind; rewrite Hp; simpl; [done| |done].
    by destruct (MakeScriptNum so _ _); simpl.
  - assert (PopByteArray s = (Throw ErrInvalidStackOperation, s)) as Hp by (by apply PopByteArray_empty, len_0; pose proof (len_nonneg (stk s)); lia).
    destruct r; cbn [run_call]; unfold PopInt, PopBool, mbind, St_bind; by rewrite Hp.
Qed.

Lemma call_refines_all c s : len (stk s) < 2 ^ 29 -> call_ok c -> call_refines c s.
Proof.
  intros Hs Hc. destruct c as [op|so|val|val|r|r idx]; [by apply move_refines|done| |done|by apply pop_refines|by apply peek_refines].
  unfold call_refines. cbn [spec_call run_call]. unfold PushInt, mbind, St_bind, lift. by destruct (Bytes val).
Qed.

Lemma spec_call_Panic minimal c l : call_ok c -> spec_call minimal c l = Panic <-> c = CPushInt (- 2 ^ 63).
Proof.
  intros Hc. split; [|by intros ->]. destruct c as [op|so|val|val|r|r idx]; cbn [spec_call]; [by case_match|done| |done| |].
  - simpl in Hc. destruct (Z.eq_dec val (- 2 ^ 63)) as [->|]; [done|]. destruct (Z.eq_dec val 0) as [->|]; [done|].
    by destruct (Bytes_spec val) as (w & -> & _); [|lia|].
  - destruct (spec_item_cases 0 l) as [(? & so & ? & _ & _ & ->)|[_ ->]]; [|done]. pose proof (MakeScriptNum_no_panic so minimal DefaultScriptNumLen).
    destruct r; simpl; [done| |done]. by destruct (MakeScriptNum so minimal DefaultScriptNumLen).
  - destruct (spec_item_cases idx l) as [(? & so & ? & _ & _ & ->)|[_ ->]]; [|done]. pose proof (MakeScriptNum_no_panic so minimal DefaultScriptNumLen).
    destruct r; simpl; [done| |done]. by destruct (MakeScriptNum so minimal DefaultScriptNumLen).
Qed.

(** C32: on a stack of fewer than 2^29 items and for counts below 2^29, every method of the
    stack that reads or changes it (pushes, pops and peeks of byte strings, numbers and booleans, and the nine
    rearrangements) returns what it documents and leaves the documented items; with too few
    items, or a negative or zero count, it returns [ErrInvalidStackOperation], and with an
    item that is no number the error of the decoding.  It panics in one case only: pushing
    the least 64-bit number. *)
Theorem run_call_refines (c : stack_call) (s : stack) (Hs : len (stk s) < 2 ^ 29) (Hc : call_ok c) :
  match spec_call (verifyMinimalData s) c (stk s) with
  | Ret (v, l) => run_call c s = (Ret v, set_stk l s)
  | Throw e => fst (run_call c s) = Throw e
  | Panic => fst (run_call c s) = Panic
  end /\
  (fst (run_call c s) = Panic <-> c = CPushInt (- 2 ^ 63)).
Proof.
  pose proof (call_refines_all c s Hs Hc) as Hr. split; [exact Hr|]. rewrite <- (spec_call_Panic (verifyMinimalData s) c (stk s) Hc).
  unfold call_refines in Hr. destruct (spec_call _ c (stk s)) as [[v l]|e|]; [by rewrite Hr|by rewrite Hr|by rewrite Hr].
Qed.

Definition abc : stack := mkStack [[Byte.x61]; [Byte.x62]; [Byte.x63]] true.

Lemma run_call_refines_witness :
  run_call (CMove (SRot 1)) abc = (Ret INone, set_stk [[Byte.x62]; [Byte.x63]; [Byte.x61]] abc) /\
  run_call (CPop AsInt) abc = (Ret (IInt 99), set_stk [[Byte.x61]; [Byte.x62]] abc).
Proof.
  split; [exact (proj1 (run_call_refines (CMove (SRot 1)) abc ltac:(reflexivity) ltac:(reflexivity)))|].
  exact (proj1 (run_call_refines (CPop AsInt) abc ltac:(reflexivity) I)).
Defined.

(** * Booleans and numbers on the stack *)

Lemma asBool_value v : v <> [] -> asBool v = negb (sn_value v =? 0).
Proof.
  intros Hv. assert (asBool v = negb ((le_combine v =? 0) || (le_combine v =? sn_sign v))) as ->.
  { clear Hv. induction v as [|b v IH]; [done|]. simpl.
    pose proof (u8_range b). pose proof (le_combine_range v). rewrite le_combine_cons.
    destruct (decide (v = [])) as [->|Hv].
    { rewrite le_combine_nil. change (sn_sign [b]) with 128.
      destruct (Z.eqb_spec (u8 b) 0) as [E|E]; simpl; [by rewrite E|].
      destruct (Z.eqb_spec (u8 b) 0x80) as [E'|E']; simpl.
      - by rewrite E'.
      - destruct (Z.eqb_spec (u8 b + 256 * 0) 0), (Z.eqb_spec (u8 b + 256 * 0) 128); first [lia|done]. }
    destruct (snoc_inv v Hv) as (l & c & ->).
    assert (sn_sign (b :: l ++ [c]) = 256 * sn_sign (l ++ [c])) as ->.
    { rewrite app_comm_cons, !sn_sign_snoc, len_cons, Z.pow_add_r by len_lia. lia. }
    pose proof (sn_sign_bound (l ++ [c]) Hv). rewrite (bool_decide_false (l ++ [c] = [])) by done.
    destruct (Z.eqb_spec (u8 b) 0) as [E|E]; simpl.
    - rewrite IH, E. f_equal. f_equal; (destruct (Z.eqb_spec (le_combine (l ++ [c])) 0) || idtac);
        repeat match goal with |- context [?x =? ?y] => destruct (Z.eqb_spec x y) end; first [lia|done].
    - destruct (Z.eqb_spec (u8 b + 256 * le_combine (l ++ [c])) 0); [lia|].
      destruct (Z.eqb_spec (u8 b + 256 * le_combine (l ++ [c])) (256 * sn_sign (l ++ [c]))); [lia|done]. }
  pose proof (sn_sign_bound v Hv). unfold sn_value.
  destruct (Z.ltb_spec (le_combine v) (sn_sign v));
    repeat match goal with |- context [?x =? ?y] => destruct (Z.eqb_spec x y) end; first [lia|done].
Qed.

(** The boolean reading of a stack item agrees with its numeric reading:
    the encoding of a number is true exactly when the number is not zero, and
    every encoding of zero, negative zero included, is false. *)
Theorem asBool_scriptnum (v : bytes) (m : bool) (L n : Z) (HL : L <= 8)
    (H : MakeScriptNum v m L = Ret n) : asBool v = negb (n =? 0).
Proof.
  destruct (MakeScriptNum_inv v m L n HL H) as [[-> ->]|(Hv & _ & -> & _)]; [done|].
  by apply asBool_value.
Qed.

Lemma asBool_scriptnum_witness :
  MakeScriptNum [Byte.x00; Byte.x80] false 4 = Ret 0 /\ asBool [Byte.x00; Byte.x80] = negb (0 =? 0).
Proof.
  split; [reflexivity|]. apply (asBool_scriptnum [Byte.x00; Byte.x80] false 4 0); [lia|reflexivity].
Defined.
