(* ===== verification/Opcode.v ===== *)
(** The opcode constants and tables of src/txscript/opcode/opcode.go, and the
    name-to-value map that src/txscript/opcode.go builds from them. *)

From S2P Require Import Prelude.
From stdpp Require Import strings.
#[local] Open Scope Z_scope.
#[local] Open Scope list_scope.

(** * Opcode values *)

Abbreviation OP_0 := Byte.x00.
Abbreviation OP_FALSE := Byte.x00.
Abbreviation OP_DATA_1 := Byte.x01.
Abbreviation OP_DATA_2 := Byte.x02.
Abbreviation OP_DATA_3 := Byte.x03.
Abbreviation OP_DATA_4 := Byte.x04.
Abbreviation OP_DATA_5 := Byte.x05.
Abbreviation OP_DATA_6 := Byte.x06.
Abbreviation OP_DATA_7 := Byte.x07.
Abbreviation OP_DATA_8 := Byte.x08.
Abbreviation OP_DATA_9 := Byte.x09.
Abbreviation OP_DATA_10 := Byte.x0a.
Abbreviation OP_DATA_11 := Byte.x0b.
Abbreviation OP_DATA_12 := Byte.x0c.
Abbreviation OP_DATA_13 := Byte.x0d.
Abbreviation OP_DATA_14 := Byte.x0e.
Abbreviation OP_DATA_15 := Byte.x0f.
Abbreviation OP_DATA_16 := Byte.x10.
Abbreviation OP_DATA_17 := Byte.x11.
Abbreviation OP_DATA_18 := Byte.x12.
Abbreviation OP_DATA_19 := Byte.x13.
Abbreviation OP_DATA_20 := Byte.x14.
Abbreviation OP_DATA_21 := Byte.x15.
Abbreviation OP_DATA_22 := Byte.x16.
Abbreviation OP_DATA_23 := Byte.x17.
Abbreviation OP_DATA_24 := Byte.x18.
Abbreviation OP_DATA_25 := Byte.x19.
Abbreviation OP_DATA_26 := Byte.x1a.
Abbreviation OP_DATA_27 := Byte.x1b.
Abbreviation OP_DATA_28 := Byte.x1c.
Abbreviation OP_DATA_29 := Byte.x1d.
Abbreviation OP_DATA_30 := Byte.x1e.
Abbreviation OP_DATA_31 := Byte.x1f.
Abbreviation OP_DATA_32 := Byte.x20.
Abbreviation OP_DATA_33 := Byte.x21.
Abbreviation OP_DATA_34 := Byte.x22.
Abbreviation OP_DATA_35 := Byte.x23.
Abbreviation OP_DATA_36 := Byte.x24.
Abbreviation OP_DATA_37 := Byte.x25.
Abbreviation OP_DATA_38 := Byte.x26.
Abbreviation OP_DATA_39 := Byte.x27.
Abbreviation OP_DATA_40 := Byte.x28.
Abbreviation OP_DATA_41 := Byte.x29.
Abbreviation OP_DATA_42 := Byte.x2a.
Abbreviation OP_DATA_43 := Byte.x2b.
Abbreviation OP_DATA_44 := Byte.x2c.
Abbreviation OP_DATA_45 := Byte.x2d.
Abbreviation OP_DATA_46 := Byte.x2e.
Abbreviation OP_DATA_47 := Byte.x2f.
Abbreviation OP_DATA_48 := Byte.x30.
Abbreviation OP_DATA_49 := Byte.x31.
Abbreviation OP_DATA_50 := Byte.x32.
Abbreviation OP_DATA_51 := Byte.x33.
Abbreviation OP_DATA_52 := Byte.x34.
Abbreviation OP_DATA_53 := Byte.x35.
Abbreviation OP_DATA_54 := Byte.x36.
Abbreviation OP_DATA_55 := Byte.x37.
Abbreviation OP_DATA_56 := Byte.x38.
Abbreviation OP_DATA_57 := Byte.x39.
Abbreviation OP_DATA_58 := Byte.x3a.
Abbreviation OP_DATA_59 := Byte.x3b.
Abbreviation OP_DATA_60 := Byte.x3c.
Abbreviation OP_DATA_61 := Byte.x3d.
Abbreviation OP_DATA_62 := Byte.x3e.
Abbreviation OP_DATA_63 := Byte.x3f.
Abbreviation OP_DATA_64 := Byte.x40.
Abbreviation OP_DATA_65 := Byte.x41.
Abbreviation OP_DATA_66 := Byte.x42.
Abbreviation OP_DATA_67 := Byte.x43.
Abbreviation OP_DATA_68 := Byte.x44.
Abbreviation OP_DATA_69 := Byte.x45.
Abbreviation OP_DATA_70 := Byte.x46.
Abbreviation OP_DATA_71 := Byte.x47.
Abbreviation OP_DATA_72 := Byte.x48.
Abbreviation OP_DATA_73 := Byte.x49.
Abbreviation OP_DATA_74 := Byte.x4a.
Abbreviation OP_DATA_75 := Byte.x4b.
Abbreviation OP_PUSHDATA1 := Byte.x4c.
Abbreviation OP_PUSHDATA2 := Byte.x4d.
Abbreviation OP_PUSHDATA4 := Byte.x4e.
Abbreviation OP_1NEGATE := Byte.x4f.
Abbreviation OP_RESERVED := Byte.x50.
Abbreviation OP_1 := Byte.x51.
Abbreviation OP_TRUE := Byte.x51.
Abbreviation OP_2 := Byte.x52.
Abbreviation OP_3 := Byte.x53.
Abbreviation OP_4 := Byte.x54.
Abbreviation OP_5 := Byte.x55.
Abbreviation OP_6 := Byte.x56.
Abbreviation OP_7 := Byte.x57.
Abbreviation OP_8 := Byte.x58.
Abbreviation OP_9 := Byte.x59.
Abbreviation OP_10 := Byte.x5a.
Abbreviation OP_11 := Byte.x5b.
Abbreviation OP_12 := Byte.x5c.
Abbreviation OP_13 := Byte.x5d.
Abbreviation OP_14 := Byte.x5e.
Abbreviation OP_15 := Byte.x5f.
Abbreviation OP_16 := Byte.x60.
Abbreviation OP_NOP := Byte.x61.
Abbreviation OP_VER := Byte.x62.
Abbreviation OP_IF := Byte.x63.
Abbreviation OP_NOTIF := Byte.x64.
Abbreviation OP_VERIF := Byte.x65.
Abbreviation OP_VOTE := Byte.x66.
Abbreviation OP_ELSE := Byte.x67.
Abbreviation OP_ENDIF := Byte.x68.
Abbreviation OP_VERIFY := Byte.x69.
Abbreviation OP_RETURN := Byte.x6a.
Abbreviation OP_TOALTSTACK := Byte.x6b.
Abbreviation OP_FROMALTSTACK := Byte.x6c.
Abbreviation OP_2DROP := Byte.x6d.
Abbreviation OP_2DUP := Byte.x6e.
Abbreviation OP_3DUP := Byte.x6f.
Abbreviation OP_2OVER := Byte.x70.
Abbreviation OP_2ROT := Byte.x71.
Abbreviation OP_2SWAP := Byte.x72.
Abbreviation OP_IFDUP := Byte.x73.
Abbreviation OP_DEPTH := Byte.x74.
Abbreviation OP_DROP := Byte.x75.
Abbreviation OP_DUP := Byte.x76.
Abbreviation OP_NIP := Byte.x77.
Abbreviation OP_OVER := Byte.x78.
Abbreviation OP_PICK := Byte.x79.
Abbreviation OP_ROLL := Byte.x7a.
Abbreviation OP_ROT := Byte.x7b.
Abbreviation OP_SWAP := Byte.x7c.
Abbreviation OP_TUCK := Byte.x7d.
Abbreviation OP_CAT := Byte.x7e.
Abbreviation OP_SUBSTR := Byte.x7f.
Abbreviation OP_LEFT := Byte.x80.
Abbreviation OP_RIGHT := Byte.x81.
Abbreviation OP_SIZE := Byte.x82.
Abbreviation OP_INVERT := Byte.x83.
Abbreviation OP_AND := Byte.x84.
Abbreviation OP_OR := Byte.x85.
Abbreviation OP_XOR := Byte.x86.
Abbreviation OP_EQUAL := Byte.x87.
Abbreviation OP_EQUALVERIFY := Byte.x88.
Abbreviation OP_RESERVED1 := Byte.x89.
Abbreviation OP_RESERVED2 := Byte.x8a.
Abbreviation OP_1ADD := Byte.x8b.
Abbreviation OP_1SUB := Byte.x8c.
Abbreviation OP_2MUL := Byte.x8d.
Abbreviation OP_2DIV := Byte.x8e.
Abbreviation OP_NEGATE := Byte.x8f.
Abbreviation OP_ABS := Byte.x90.
Abbreviation OP_NOT := Byte.x91.
Abbreviation OP_0NOTEQUAL := Byte.x92.
Abbreviation OP_ADD := Byte.x93.
Abbreviation OP_SUB := Byte.x94.
Abbreviation OP_MUL := Byte.x95.
Abbreviation OP_DIV := Byte.x96.
Abbreviation OP_MOD := Byte.x97.
Abbreviation OP_LSHIFT := Byte.x98.
Abbreviation OP_RSHIFT := Byte.x99.
Abbreviation OP_BOOLAND := Byte.x9a.
Abbreviation OP_BOOLOR := Byte.x9b.
Abbreviation OP_NUMEQUAL := Byte.x9c.
Abbreviation OP_NUMEQUALVERIFY := Byte.x9d.
Abbreviation OP_NUMNOTEQUAL := Byte.x9e.
Abbreviation OP_LESSTHAN := Byte.x9f.
Abbreviation OP_GREATERTHAN := Byte.xa0.
Abbreviation OP_LESSTHANOREQUAL := Byte.xa1.
Abbreviation OP_GREATERTHANOREQUAL := Byte.xa2.
Abbreviation OP_MIN := Byte.xa3.
Abbreviation OP_MAX := Byte.xa4.
Abbreviation OP_WITHIN := Byte.xa5.
Abbreviation OP_RIPEMD160 := Byte.xa6.
Abbreviation OP_SHA1 := Byte.xa7.
Abbreviation OP_SHA256 := Byte.xa8.
Abbreviation OP_HASH160 := Byte.xa9.
Abbreviation OP_HASH256 := Byte.xaa.
Abbreviation OP_CODESEPARATOR := Byte.xab.
Abbreviation OP_CHECKSIG := Byte.xac.
Abbreviation OP_CHECKSIGVERIFY := Byte.xad.
Abbreviation OP_CHECKMULTISIG := Byte.xae.
Abbreviation OP_CHECKMULTISIGVERIFY := Byte.xaf.
Abbreviation OP_NOP1 := Byte.xb0.
Abbreviation OP_NOP2 := Byte.xb1.
Abbreviation OP_CHECKLOCKTIMEVERIFY := Byte.xb1.
Abbreviation OP_NOP3 := Byte.xb2.
Abbreviation OP_CHECKSEQUENCEVERIFY := Byte.xb2.
Abbreviation OP_NOP4 := Byte.xb3.
Abbreviation OP_NOP5 := Byte.xb4.
Abbreviation OP_NOP6 := Byte.xb5.
Abbreviation OP_NOP7 := Byte.xb6.
Abbreviation OP_NOP8 := Byte.xb7.
Abbreviation OP_NOP9 := Byte.xb8.
Abbreviation OP_NOP10 := Byte.xb9.
Abbreviation OP_UNKNOWN186 := Byte.xba.
Abbreviation OP_UNKNOWN187 := Byte.xbb.
Abbreviation OP_UNKNOWN188 := Byte.xbc.
Abbreviation OP_UNKNOWN189 := Byte.xbd.
Abbreviation OP_UNKNOWN190 := Byte.xbe.
Abbreviation OP_UNKNOWN191 := Byte.xbf.
Abbreviation OP_UNKNOWN192 := Byte.xc0.
Abbreviation OP_UNKNOWN193 := Byte.xc1.
Abbreviation OP_UNKNOWN194 := Byte.xc2.
Abbreviation OP_UNKNOWN195 := Byte.xc3.
Abbreviation OP_UNKNOWN196 := Byte.xc4.
Abbreviation OP_UNKNOWN197 := Byte.xc5.
Abbreviation OP_UNKNOWN198 := Byte.xc6.
Abbreviation OP_UNKNOWN199 := Byte.xc7.
Abbreviation OP_UNKNOWN200 := Byte.xc8.
Abbreviation OP_UNKNOWN201 := Byte.xc9.
Abbreviation OP_UNKNOWN202 := Byte.xca.
Abbreviation OP_UNKNOWN203 := Byte.xcb.
Abbreviation OP_UNKNOWN204 := Byte.xcc.
Abbreviation OP_UNKNOWN205 := Byte.xcd.
Abbreviation OP_UNKNOWN206 := Byte.xce.
Abbreviation OP_UNKNOWN207 := Byte.xcf.
Abbreviation OP_UNKNOWN208 := Byte.xd0.
Abbreviation OP_UNKNOWN209 := Byte.xd1.
Abbreviation OP_UNKNOWN210 := Byte.xd2.
Abbreviation OP_UNKNOWN211 := Byte.xd3.
Abbreviation OP_UNKNOWN212 := Byte.xd4.
Abbreviation OP_UNKNOWN213 := Byte.xd5.
Abbreviation OP_UNKNOWN214 := Byte.xd6.
Abbreviation OP_UNKNOWN215 := Byte.xd7.
Abbreviation OP_UNKNOWN216 := Byte.xd8.
Abbreviation OP_UNKNOWN217 := Byte.xd9.
Abbreviation OP_UNKNOWN218 := Byte.xda.
Abbreviation OP_UNKNOWN219 := Byte.xdb.
Abbreviation OP_UNKNOWN220 := Byte.xdc.
Abbreviation OP_UNKNOWN221 := Byte.xdd.
Abbreviation OP_UNKNOWN222 := Byte.xde.
Abbreviation OP_UNKNOWN223 := Byte.xdf.
Abbreviation OP_UNKNOWN224 := Byte.xe0.
Abbreviation OP_UNKNOWN225 := Byte.xe1.
Abbreviation OP_UNKNOWN226 := Byte.xe2.
Abbreviation OP_UNKNOWN227 := Byte.xe3.
Abbreviation OP_UNKNOWN228 := Byte.xe4.
Abbreviation OP_UNKNOWN229 := Byte.xe5.
Abbreviation OP_UNKNOWN230 := Byte.xe6.
Abbreviation OP_UNKNOWN231 := Byte.xe7.
Abbreviation OP_UNKNOWN232 := Byte.xe8.
Abbreviation OP_UNKNOWN233 := Byte.xe9.
Abbreviation OP_UNKNOWN234 := Byte.xea.
Abbreviation OP_UNKNOWN235 := Byte.xeb.
Abbreviation OP_UNKNOWN236 := Byte.xec.
Abbreviation OP_UNKNOWN237 := Byte.xed.
Abbreviation OP_UNKNOWN238 := Byte.xee.
Abbreviation OP_UNKNOWN239 := Byte.xef.
Abbreviation OP_UNKNOWN240 := Byte.xf0.
Abbreviation OP_UNKNOWN241 := Byte.xf1.
Abbreviation OP_UNKNOWN242 := Byte.xf2.
Abbreviation OP_UNKNOWN243 := Byte.xf3.
Abbreviation OP_UNKNOWN244 := Byte.xf4.
Abbreviation OP_UNKNOWN245 := Byte.xf5.
Abbreviation OP_UNKNOWN246 := Byte.xf6.
Abbreviation OP_UNKNOWN247 := Byte.xf7.
Abbreviation OP_UNKNOWN248 := Byte.xf8.
Abbreviation OP_UNKNOWN249 := Byte.xf9.
Abbreviation OP_SMALLINTEGER := Byte.xfa.
Abbreviation OP_PUBKEYS := Byte.xfb.
Abbreviation OP_UNKNOWN252 := Byte.xfc.
Abbreviation OP_PUBKEYHASH := Byte.xfd.
Abbreviation OP_PUBKEY := Byte.xfe.
Abbreviation OP_INVALIDOPCODE := Byte.xff.

(** * Tables indexed by opcode *)

Definition opcodeNames (code : byte) : string :=
  match code with
  | OP_FALSE => "OP_0" | OP_DATA_1 => "OP_DATA_1" | OP_DATA_2 => "OP_DATA_2" | OP_DATA_3 => "OP_DATA_3"
  | OP_DATA_4 => "OP_DATA_4" | OP_DATA_5 => "OP_DATA_5" | OP_DATA_6 => "OP_DATA_6" | OP_DATA_7 => "OP_DATA_7"
  | OP_DATA_8 => "OP_DATA_8" | OP_DATA_9 => "OP_DATA_9" | OP_DATA_10 => "OP_DATA_10"
  | OP_DATA_11 => "OP_DATA_11" | OP_DATA_12 => "OP_DATA_12" | OP_DATA_13 => "OP_DATA_13"
  | OP_DATA_14 => "OP_DATA_14" | OP_DATA_15 => "OP_DATA_15" | OP_DATA_16 => "OP_DATA_16"
  | OP_DATA_17 => "OP_DATA_17" | OP_DATA_18 => "OP_DATA_18" | OP_DATA_19 => "OP_DATA_19"
  | OP_DATA_20 => "OP_DATA_20" | OP_DATA_21 => "OP_DATA_21" | OP_DATA_22 => "OP_DATA_22"
  | OP_DATA_23 => "OP_DATA_23" | OP_DATA_24 => "OP_DATA_24" | OP_DATA_25 => "OP_DATA_25"
  | OP_DATA_26 => "OP_DATA_26" | OP_DATA_27 => "OP_DATA_27" | OP_DATA_28 => "OP_DATA_28"
  | OP_DATA_29 => "OP_DATA_29" | OP_DATA_30 => "OP_DATA_30" | OP_DATA_31 => "OP_DATA_31"
  | OP_DATA_32 => "OP_DATA_32" | OP_DATA_33 => "OP_DATA_33" | OP_DATA_34 => "OP_DATA_34"
  | OP_DATA_35 => "OP_DATA_35" | OP_DATA_36 => "OP_DATA_36" | OP_DATA_37 => "OP_DATA_37"
  | OP_DATA_38 => "OP_DATA_38" | OP_DATA_39 => "OP_DATA_39" | OP_DATA_40 => "OP_DATA_40"
  | OP_DATA_41 => "OP_DATA_41" | OP_DATA_42 => "OP_DATA_42" | OP_DATA_43 => "OP_DATA_43"
  | OP_DATA_44 => "OP_DATA_44" | OP_DATA_45 => "OP_DATA_45" | OP_DATA_46 => "OP_DATA_46"
  | OP_DATA_47 => "OP_DATA_47" | OP_DATA_48 => "OP_DATA_48" | OP_DATA_49 => "OP_DATA_49"
  | OP_DATA_50 => "OP_DATA_50" | OP_DATA_51 => "OP_DATA_51" | OP_DATA_52 => "OP_DATA_52"
  | OP_DATA_53 => "OP_DATA_53" | OP_DATA_54 => "OP_DATA_54" | OP_DATA_55 => "OP_DATA_55"
  | OP_DATA_56 => "OP_DATA_56" | OP_DATA_57 => "OP_DATA_57" | OP_DATA_58 => "OP_DATA_58"
  | OP_DATA_59 => "OP_DATA_59" | OP_DATA_60 => "OP_DATA_60" | OP_DATA_61 => "OP_DATA_61"
  | OP_DATA_62 => "OP_DATA_62" | OP_DATA_63 => "OP_DATA_63" | OP_DATA_64 => "OP_DATA_64"
  | OP_DATA_65 => "OP_DATA_65" | OP_DATA_66 => "OP_DATA_66" | OP_DATA_67 => "OP_DATA_67"
  | OP_DATA_68 => "OP_DATA_68" | OP_DATA_69 => "OP_DATA_69" | OP_DATA_70 => "OP_DATA_70"
  | OP_DATA_71 => "OP_DATA_71" | OP_DATA_72 => "OP_DATA_72" | OP_DATA_73 => "OP_DATA_73"
  | OP_DATA_74 => "OP_DATA_74" | OP_DATA_75 => "OP_DATA_75" | OP_PUSHDATA1 => "OP_PUSHDATA1"
  | OP_PUSHDATA2 => "OP_PUSHDATA2" | OP_PUSHDATA4 => "OP_PUSHDATA4" | OP_1NEGATE => "OP_1NEGATE"
  | OP_RESERVED => "OP_RESERVED" | OP_TRUE => "OP_1" | OP_2 => "OP_2" | OP_3 => "OP_3" | OP_4 => "OP_4"
  | OP_5 => "OP_5" | OP_6 => "OP_6" | OP_7 => "OP_7" | OP_8 => "OP_8" | OP_9 => "OP_9" | OP_10 => "OP_10"
  | OP_11 => "OP_11" | OP_12 => "OP_12" | OP_13 => "OP_13" | OP_14 => "OP_14" | OP_15 => "OP_15"
  | OP_16 => "OP_16" | OP_NOP => "OP_NOP" | OP_VER => "OP_VER" | OP_IF => "OP_IF" | OP_NOTIF => "OP_NOTIF"
  | OP_VERIF => "OP_VERIF" | OP_VOTE => "OP_VOTE" | OP_ELSE => "OP_ELSE" | OP_ENDIF => "OP_ENDIF"
  | OP_VERIFY => "OP_VERIFY" | OP_RETURN => "OP_RETURN" | OP_CHECKLOCKTIMEVERIFY => "OP_CHECKLOCKTIMEVERIFY"
  | OP_CHECKSEQUENCEVERIFY => "OP_CHECKSEQUENCEVERIFY" | OP_TOALTSTACK => "OP_TOALTSTACK"
  | OP_FROMALTSTACK => "OP_FROMALTSTACK" | OP_2DROP => "OP_2DROP" | OP_2DUP => "OP_2DUP"
  | OP_3DUP => "OP_3DUP" | OP_2OVER => "OP_2OVER" | OP_2ROT => "OP_2ROT" | OP_2SWAP => "OP_2SWAP"
  | OP_IFDUP => "OP_IFDUP" | OP_DEPTH => "OP_DEPTH" | OP_DROP => "OP_DROP" | OP_DUP => "OP_DUP"
  | OP_NIP => "OP_NIP" | OP_OVER => "OP_OVER" | OP_PICK => "OP_PICK" | OP_ROLL => "OP_ROLL"
  | OP_ROT => "OP_ROT" | OP_SWAP => "OP_SWAP" | OP_TUCK => "OP_TUCK" | OP_CAT => "OP_CAT"
  | OP_SUBSTR => "OP_SUBSTR" | OP_LEFT => "OP_LEFT" | OP_RIGHT => "OP_RIGHT" | OP_SIZE => "OP_SIZE"
  | OP_INVERT => "OP_INVERT" | OP_AND => "OP_AND" | OP_OR => "OP_OR" | OP_XOR => "OP_XOR"
  | OP_EQUAL => "OP_EQUAL" | OP_EQUALVERIFY => "OP_EQUALVERIFY" | OP_RESERVED1 => "OP_RESERVED1"
  | OP_RESERVED2 => "OP_RESERVED2" | OP_1ADD => "OP_1ADD" | OP_1SUB => "OP_1SUB" | OP_2MUL => "OP_2MUL"
  | OP_2DIV => "OP_2DIV" | OP_NEGATE => "OP_NEGATE" | OP_ABS => "OP_ABS" | OP_NOT => "OP_NOT"
  | OP_0NOTEQUAL => "OP_0NOTEQUAL" | OP_ADD => "OP_ADD" | OP_SUB => "OP_SUB" | OP_MUL => "OP_MUL"
  | OP_DIV => "OP_DIV" | OP_MOD => "OP_MOD" | OP_LSHIFT => "OP_LSHIFT" | OP_RSHIFT => "OP_RSHIFT"
  | OP_BOOLAND => "OP_BOOLAND" | OP_BOOLOR => "OP_BOOLOR" | OP_NUMEQUAL => "OP_NUMEQUAL"
  | OP_NUMEQUALVERIFY => "OP_NUMEQUALVERIFY" | OP_NUMNOTEQUAL => "OP_NUMNOTEQUAL"
  | OP_LESSTHAN => "OP_LESSTHAN" | OP_GREATERTHAN => "OP_GREATERTHAN"
  | OP_LESSTHANOREQUAL => "OP_LESSTHANOREQUAL" | OP_GREATERTHANOREQUAL => "OP_GREATERTHANOREQUAL"
  | OP_MIN => "OP_MIN" | OP_MAX => "OP_MAX" | OP_WITHIN => "OP_WITHIN" | OP_RIPEMD160 => "OP_RIPEMD160"
  | OP_SHA1 => "OP_SHA1" | OP_SHA256 => "OP_SHA256" | OP_HASH160 => "OP_HASH160" | OP_HASH256 => "OP_HASH256"
  | OP_CODESEPARATOR => "OP_CODESEPARATOR" | OP_CHECKSIG => "OP_CHECKSIG"
  | OP_CHECKSIGVERIFY => "OP_CHECKSIGVERIFY" | OP_CHECKMULTISIG => "OP_CHECKMULTISIG"
  | OP_CHECKMULTISIGVERIFY => "OP_CHECKMULTISIGVERIFY" | OP_NOP1 => "OP_NOP1" | OP_NOP4 => "OP_NOP4"
  | OP_NOP5 => "OP_NOP5" | OP_NOP6 => "OP_NOP6" | OP_NOP7 => "OP_NOP7" | OP_NOP8 => "OP_NOP8"
  | OP_NOP9 => "OP_NOP9" | OP_NOP10 => "OP_NOP10" | OP_UNKNOWN186 => "OP_UNKNOWN186"
  | OP_UNKNOWN187 => "OP_UNKNOWN187" | OP_UNKNOWN188 => "OP_UNKNOWN188" | OP_UNKNOWN189 => "OP_UNKNOWN189"
  | OP_UNKNOWN190 => "OP_UNKNOWN190" | OP_UNKNOWN191 => "OP_UNKNOWN191" | OP_UNKNOWN192 => "OP_UNKNOWN192"
  | OP_UNKNOWN193 => "OP_UNKNOWN193" | OP_UNKNOWN194 => "OP_UNKNOWN194" | OP_UNKNOWN195 => "OP_UNKNOWN195"
  | OP_UNKNOWN196 => "OP_UNKNOWN196" | OP_UNKNOWN197 => "OP_UNKNOWN197" | OP_UNKNOWN198 => "OP_UNKNOWN198"
  | OP_UNKNOWN199 => "OP_UNKNOWN199" | OP_UNKNOWN200 => "OP_UNKNOWN200" | OP_UNKNOWN201 => "OP_UNKNOWN201"
  | OP_UNKNOWN202 => "OP_UNKNOWN202" | OP_UNKNOWN203 => "OP_UNKNOWN203" | OP_UNKNOWN204 => "OP_UNKNOWN204"
  | OP_UNKNOWN205 => "OP_UNKNOWN205" | OP_UNKNOWN206 => "OP_UNKNOWN206" | OP_UNKNOWN207 => "OP_UNKNOWN207"
  | OP_UNKNOWN208 => "OP_UNKNOWN208" | OP_UNKNOWN209 => "OP_UNKNOWN209" | OP_UNKNOWN210 => "OP_UNKNOWN210"
  | OP_UNKNOWN211 => "OP_UNKNOWN211" | OP_UNKNOWN212 => "OP_UNKNOWN212" | OP_UNKNOWN213 => "OP_UNKNOWN213"
  | OP_UNKNOWN214 => "OP_UNKNOWN214" | OP_UNKNOWN215 => "OP_UNKNOWN215" | OP_UNKNOWN216 => "OP_UNKNOWN216"
  | OP_UNKNOWN217 => "OP_UNKNOWN217" | OP_UNKNOWN218 => "OP_UNKNOWN218" | OP_UNKNOWN219 => "OP_UNKNOWN219"
  | OP_UNKNOWN220 => "OP_UNKNOWN220" | OP_UNKNOWN221 => "OP_UNKNOWN221" | OP_UNKNOWN222 => "OP_UNKNOWN222"
  | OP_UNKNOWN223 => "OP_UNKNOWN223" | OP_UNKNOWN224 => "OP_UNKNOWN224" | OP_UNKNOWN225 => "OP_UNKNOWN225"
  | OP_UNKNOWN226 => "OP_UNKNOWN226" | OP_UNKNOWN227 => "OP_UNKNOWN227" | OP_UNKNOWN228 => "OP_UNKNOWN228"
  | OP_UNKNOWN229 => "OP_UNKNOWN229" | OP_UNKNOWN230 => "OP_UNKNOWN230" | OP_UNKNOWN231 => "OP_UNKNOWN231"
  | OP_UNKNOWN232 => "OP_UNKNOWN232" | OP_UNKNOWN233 => "OP_UNKNOWN233" | OP_UNKNOWN234 => "OP_UNKNOWN234"
  | OP_UNKNOWN235 => "OP_UNKNOWN235" | OP_UNKNOWN236 => "OP_UNKNOWN236" | OP_UNKNOWN237 => "OP_UNKNOWN237"
  | OP_UNKNOWN238 => "OP_UNKNOWN238" | OP_UNKNOWN239 => "OP_UNKNOWN239" | OP_UNKNOWN240 => "OP_UNKNOWN240"
  | OP_UNKNOWN241 => "OP_UNKNOWN241" | OP_UNKNOWN242 => "OP_UNKNOWN242" | OP_UNKNOWN243 => "OP_UNKNOWN243"
  | OP_UNKNOWN244 => "OP_UNKNOWN244" | OP_UNKNOWN245 => "OP_UNKNOWN245" | OP_UNKNOWN246 => "OP_UNKNOWN246"
  | OP_UNKNOWN247 => "OP_UNKNOWN247" | OP_UNKNOWN248 => "OP_UNKNOWN248" | OP_UNKNOWN249 => "OP_UNKNOWN249"
  | OP_SMALLINTEGER => "OP_SMALLINTEGER" | OP_PUBKEYS => "OP_PUBKEYS" | OP_UNKNOWN252 => "OP_UNKNOWN252"
  | OP_PUBKEYHASH => "OP_PUBKEYHASH" | OP_PUBKEY => "OP_PUBKEY" | OP_INVALIDOPCODE => "OP_INVALIDOPCODE"
  end.

Definition OpcodeName (code : byte) : string := opcodeNames code.

Definition opcodeLengths (code : byte) : Z :=
  match code with
  | OP_FALSE => 1 | OP_DATA_1 => 2 | OP_DATA_2 => 3 | OP_DATA_3 => 4 | OP_DATA_4 => 5 | OP_DATA_5 => 6
  | OP_DATA_6 => 7 | OP_DATA_7 => 8 | OP_DATA_8 => 9 | OP_DATA_9 => 10 | OP_DATA_10 => 11 | OP_DATA_11 => 12
  | OP_DATA_12 => 13 | OP_DATA_13 => 14 | OP_DATA_14 => 15 | OP_DATA_15 => 16 | OP_DATA_16 => 17
  | OP_DATA_17 => 18 | OP_DATA_18 => 19 | OP_DATA_19 => 20 | OP_DATA_20 => 21 | OP_DATA_21 => 22
  | OP_DATA_22 => 23 | OP_DATA_23 => 24 | OP_DATA_24 => 25 | OP_DATA_25 => 26 | OP_DATA_26 => 27
  | OP_DATA_27 => 28 | OP_DATA_28 => 29 | OP_DATA_29 => 30 | OP_DATA_30 => 31 | OP_DATA_31 => 32
  | OP_DATA_32 => 33 | OP_DATA_33 => 34 | OP_DATA_34 => 35 | OP_DATA_35 => 36 | OP_DATA_36 => 37
  | OP_DATA_37 => 38 | OP_DATA_38 => 39 | OP_DATA_39 => 40 | OP_DATA_40 => 41 | OP_DATA_41 => 42
  | OP_DATA_42 => 43 | OP_DATA_43 => 44 | OP_DATA_44 => 45 | OP_DATA_45 => 46 | OP_DATA_46 => 47
  | OP_DATA_47 => 48 | OP_DATA_48 => 49 | OP_DATA_49 => 50 | OP_DATA_50 => 51 | OP_DATA_51 => 52
  | OP_DATA_52 => 53 | OP_DATA_53 => 54 | OP_DATA_54 => 55 | OP_DATA_55 => 56 | OP_DATA_56 => 57
  | OP_DATA_57 => 58 | OP_DATA_58 => 59 | OP_DATA_59 => 60 | OP_DATA_60 => 61 | OP_DATA_61 => 62
  | OP_DATA_62 => 63 | OP_DATA_63 => 64 | OP_DATA_64 => 65 | OP_DATA_65 => 66 | OP_DATA_66 => 67
  | OP_DATA_67 => 68 | OP_DATA_68 => 69 | OP_DATA_69 => 70 | OP_DATA_70 => 71 | OP_DATA_71 => 72
  | OP_DATA_72 => 73 | OP_DATA_73 => 74 | OP_DATA_74 => 75 | OP_DATA_75 => 76 | OP_PUSHDATA1 => -1
  | OP_PUSHDATA2 => -2 | OP_PUSHDATA4 => -4 | OP_1NEGATE => 1 | OP_RESERVED => 1 | OP_TRUE => 1 | OP_2 => 1
  | OP_3 => 1 | OP_4 => 1 | OP_5 => 1 | OP_6 => 1 | OP_7 => 1 | OP_8 => 1 | OP_9 => 1 | OP_10 => 1
  | OP_11 => 1 | OP_12 => 1 | OP_13 => 1 | OP_14 => 1 | OP_15 => 1 | OP_16 => 1 | OP_NOP => 1 | OP_VER => 1
  | OP_IF => 1 | OP_NOTIF => 1 | OP_VERIF => 1 | OP_VOTE => 1 | OP_ELSE => 1 | OP_ENDIF => 1 | OP_VERIFY => 1
  | OP_RETURN => 1 | OP_CHECKLOCKTIMEVERIFY => 1 | OP_CHECKSEQUENCEVERIFY => 1 | OP_TOALTSTACK => 1
  | OP_FROMALTSTACK => 1 | OP_2DROP => 1 | OP_2DUP => 1 | OP_3DUP => 1 | OP_2OVER => 1 | OP_2ROT => 1
  | OP_2SWAP => 1 | OP_IFDUP => 1 | OP_DEPTH => 1 | OP_DROP => 1 | OP_DUP => 1 | OP_NIP => 1 | OP_OVER => 1
  | OP_PICK => 1 | OP_ROLL => 1 | OP_ROT => 1 | OP_SWAP => 1 | OP_TUCK => 1 | OP_CAT => 1 | OP_SUBSTR => 1
  | OP_LEFT => 1 | OP_RIGHT => 1 | OP_SIZE => 1 | OP_INVERT => 1 | OP_AND => 1 | OP_OR => 1 | OP_XOR => 1
  | OP_EQUAL => 1 | OP_EQUALVERIFY => 1 | OP_RESERVED1 => 1 | OP_RESERVED2 => 1 | OP_1ADD => 1 | OP_1SUB => 1
  | OP_2MUL => 1 | OP_2DIV => 1 | OP_NEGATE => 1 | OP_ABS => 1 | OP_NOT => 1 | OP_0NOTEQUAL => 1
  | OP_ADD => 1 | OP_SUB => 1 | OP_MUL => 1 | OP_DIV => 1 | OP_MOD => 1 | OP_LSHIFT => 1 | OP_RSHIFT => 1
  | OP_BOOLAND => 1 | OP_BOOLOR => 1 | OP_NUMEQUAL => 1 | OP_NUMEQUALVERIFY => 1 | OP_NUMNOTEQUAL => 1
  | OP_LESSTHAN => 1 | OP_GREATERTHAN => 1 | OP_LESSTHANOREQUAL => 1 | OP_GREATERTHANOREQUAL => 1
  | OP_MIN => 1 | OP_MAX => 1 | OP_WITHIN => 1 | OP_RIPEMD160 => 1 | OP_SHA1 => 1 | OP_SHA256 => 1
  | OP_HASH160 => 1 | OP_HASH256 => 1 | OP_CODESEPARATOR => 1 | OP_CHECKSIG => 1 | OP_CHECKSIGVERIFY => 1
  | OP_CHECKMULTISIG => 1 | OP_CHECKMULTISIGVERIFY => 1 | OP_NOP1 => 1 | OP_NOP4 => 1 | OP_NOP5 => 1
  | OP_NOP6 => 1 | OP_NOP7 => 1 | OP_NOP8 => 1 | OP_NOP9 => 1 | OP_NOP10 => 1 | OP_UNKNOWN186 => 1
  | OP_UNKNOWN187 => 1 | OP_UNKNOWN188 => 1 | OP_UNKNOWN189 => 1 | OP_UNKNOWN190 => 1 | OP_UNKNOWN191 => 1
  | OP_UNKNOWN192 => 1 | OP_UNKNOWN193 => 1 | OP_UNKNOWN194 => 1 | OP_UNKNOWN195 => 1 | OP_UNKNOWN196 => 1
  | OP_UNKNOWN197 => 1 | OP_UNKNOWN198 => 1 | OP_UNKNOWN199 => 1 | OP_UNKNOWN200 => 1 | OP_UNKNOWN201 => 1
  | OP_UNKNOWN202 => 1 | OP_UNKNOWN203 => 1 | OP_UNKNOWN204 => 1 | OP_UNKNOWN205 => 1 | OP_UNKNOWN206 => 1
  | OP_UNKNOWN207 => 1 | OP_UNKNOWN208 => 1 | OP_UNKNOWN209 => 1 | OP_UNKNOWN210 => 1 | OP_UNKNOWN211 => 1
  | OP_UNKNOWN212 => 1 | OP_UNKNOWN213 => 1 | OP_UNKNOWN214 => 1 | OP_UNKNOWN215 => 1 | OP_UNKNOWN216 => 1
  | OP_UNKNOWN217 => 1 | OP_UNKNOWN218 => 1 | OP_UNKNOWN219 => 1 | OP_UNKNOWN220 => 1 | OP_UNKNOWN221 => 1
  | OP_UNKNOWN222 => 1 | OP_UNKNOWN223 => 1 | OP_UNKNOWN224 => 1 | OP_UNKNOWN225 => 1 | OP_UNKNOWN226 => 1
  | OP_UNKNOWN227 => 1 | OP_UNKNOWN228 => 1 | OP_UNKNOWN229 => 1 | OP_UNKNOWN230 => 1 | OP_UNKNOWN231 => 1
  | OP_UNKNOWN232 => 1 | OP_UNKNOWN233 => 1 | OP_UNKNOWN234 => 1 | OP_UNKNOWN235 => 1 | OP_UNKNOWN236 => 1
  | OP_UNKNOWN237 => 1 | OP_UNKNOWN238 => 1 | OP_UNKNOWN239 => 1 | OP_UNKNOWN240 => 1 | OP_UNKNOWN241 => 1
  | OP_UNKNOWN242 => 1 | OP_UNKNOWN243 => 1 | OP_UNKNOWN244 => 1 | OP_UNKNOWN245 => 1 | OP_UNKNOWN246 => 1
  | OP_UNKNOWN247 => 1 | OP_UNKNOWN248 => 1 | OP_UNKNOWN249 => 1 | OP_SMALLINTEGER => 1 | OP_PUBKEYS => 1
  | OP_UNKNOWN252 => 1 | OP_PUBKEYHASH => 1 | OP_PUBKEY => 1 | OP_INVALIDOPCODE => 1
  end.

Record Opcode : Type := { Value : byte; Length : Z }.

#[global] Instance Opcode_eq_dec : EqDecision Opcode.
Proof. solve_decision. Defined.

Definition MkOpcode (code : byte) : Opcode :=
  {| Value := code; Length := opcodeLengths code |}.

(** * Lookup by name *)

(** A Go map literal or a map filled by assignments: the last binding of a key
    is the one that counts. *)
Definition map_lookup {A} (m : list (string * A)) (k : string) : option A :=
  foldl (fun found kv => if decide (kv.1 = k) then Some kv.2 else found) None m.

Definition all_bytes : list byte := to_byte <$> (Z.of_nat <$> seq 0 256).

Definition OpcodeByName (name : string) : option byte :=
  map_lookup
    (((fun i => (OpcodeName i, i)) <$> all_bytes) ++
     [("OP_FALSE", OP_FALSE); ("OP_TRUE", OP_TRUE);
      ("OP_NOP2", OP_CHECKLOCKTIMEVERIFY); ("OP_NOP3", OP_CHECKSEQUENCEVERIFY)]) name.

(** * Facts about the tables *)

(** A decidable fact about all bytes is checked by evaluation. *)
Lemma all_bytes_forall (P : byte -> bool) : forallb P all_bytes = true -> forall b, P b = true.
Proof.
  intros H b. rewrite forallb_forall in H. apply H, list_elem_of_In.
  unfold all_bytes. apply list_elem_of_fmap. exists (u8 b). split.
  { by rewrite byte.of_Z_unsigned. }
  apply list_elem_of_fmap. exists (Z.to_nat (u8 b)). pose proof (u8_range b). split; [lia|].
  apply elem_of_seq. lia.
Qed.

(** The length of an opcode in closed form. *)
Definition op_length (v : Z) : Z :=
  if v <=? 75 then v + 1 else if v =? 76 then -1 else if v =? 77 then -2
  else if v =? 78 then -4 else 1.

Lemma opcodeLengths_spec b : opcodeLengths b = op_length (u8 b).
Proof. apply Z.eqb_eq. revert b. by apply all_bytes_forall; vm_compute. Qed.

(** The name table and the name map are inverse: every opcode is found again
    under its own name, so a script printed with full opcode names can be
    assembled back. *)
Theorem OpcodeByName_OpcodeName (b : byte) : OpcodeByName (OpcodeName b) = Some b.
Proof.
  eapply bool_decide_eq_true_1. revert b.
  by apply (all_bytes_forall (fun b => bool_decide (OpcodeByName (OpcodeName b) = Some b))); vm_compute.
Qed.
