(* ===== verification/Sha.v ===== *)
(** The hash functions of Go's standard library that the node calls,
    crypto/sha256 and crypto/sha1, written from FIPS 180-4 over 32-bit words
    kept as [Z], with their known answers; and the double hash of
    src/chaincfg/chainhash/hashfuncs.go. *)

From S2P Require Import Prelude.

(** * Words, blocks and padding *)

Definition add32 (a b : Z) : Z := uint32 (a + b).
Definition rotr32 (n x : Z) : Z := (x >>> n) ||| uint32 (x <<< (32 - n)).
Definition rotl32 (n x : Z) : Z := rotr32 (32 - n) x.
Definition not32 (x : Z) : Z := Z.lxor x 0xffffffff.

(** Big-endian bytes of a number and the number of big-endian bytes. *)
Definition be_split (n : nat) (x : Z) : bytes := rev (le_split n x).
Definition be_combine (b : bytes) : Z := le_combine (rev b).

(** The message, a one bit, zeros, and the length in bits, to a multiple of 64
    bytes. *)
Definition sha_pad (m : bytes) : bytes :=
  m ++ [to_byte 0x80] ++ repeat (to_byte 0) (Z.to_nat ((55 - len m) mod 64)) ++
  be_split 8 (uint64 (8 * len m)).

Fixpoint words (fuel : nat) (b : bytes) : list Z :=
  match fuel with
  | O => []
  | S n => be_combine (take 4 b) :: words n (drop 4 b)
  end.

(** Folds [f] over the 64-byte blocks of the padded message. *)
Fixpoint fold_blocks {A} (f : A -> list Z -> A) (n : nat) (b : bytes) (a : A) : A :=
  match n with
  | O => a
  | S n' => fold_blocks f n' (drop 64 b) (f a (words 16 (take 64 b)))
  end.

Definition nblocks (m : bytes) : nat := Z.to_nat (len (sha_pad m) / 64).

(** * SHA-256 *)

(** The constants are defined as in the standard: the first 32 bits of the
    fractional parts of the cube roots (rounds) and square roots (initial state)
    of the first primes. *)
Definition is_prime (n : Z) : bool :=
  (2 <=? n) && forallb (fun d => negb (n mod Z.of_nat d =? 0)) (seq 2 (Z.to_nat (Z.sqrt n - 1))).
Definition primes_below (n : nat) : list Z := filter (fun p => is_prime p = true) (Z.of_nat <$> seq 0 n).

(** The integer cube root, bit by bit from bit [k]. *)
Fixpoint cbrt_bits (k : nat) (n r : Z) : Z :=
  let r' := r + 2 ^ Z.of_nat k in
  let r := if r' * r' * r' <=? n then r' else r in
  match k with O => r | S k' => cbrt_bits k' n r end.

Definition cbrt_frac32 (p : Z) : Z := uint32 (cbrt_bits 35 (p * 2 ^ 96) 0).
Definition sqrt_frac32 (p : Z) : Z := uint32 (Z.sqrt (p * 2 ^ 64)).

Definition sha256_K : list Z := Eval vm_compute in cbrt_frac32 <$> primes_below 312.

Record sha256_state : Type := mk256
  { s_a : Z; s_b : Z; s_c : Z; s_d : Z; s_e : Z; s_f : Z; s_g : Z; s_h : Z }.

Definition sha256_init : sha256_state := Eval vm_compute in
  match sqrt_frac32 <$> primes_below 20 with
  | [a; b; c; d; e; f; g; h] => mk256 a b c d e f g h
  | _ => mk256 0 0 0 0 0 0 0 0
  end.

(** The message schedule, computed with a sliding window of the last sixteen
    words. *)
Fixpoint sha256_schedule (n : nat) (w : list Z) : list Z :=
  match n with
  | O => []
  | S n' =>
    let g i := nth i w 0 in
    let s0 := Z.lxor (Z.lxor (rotr32 7 (g 1%nat)) (rotr32 18 (g 1%nat))) (g 1%nat >>> 3) in
    let s1 := Z.lxor (Z.lxor (rotr32 17 (g 14%nat)) (rotr32 19 (g 14%nat))) (g 14%nat >>> 10) in
    let next := uint32 (g 0%nat + s0 + g 9%nat + s1) in
    g 0%nat :: sha256_schedule n' (tail w ++ [next])
  end.

Definition sha256_round (s : sha256_state) (k w : Z) : sha256_state :=
  let '(mk256 a b c d e f g h) := s in
  let S1 := Z.lxor (Z.lxor (rotr32 6 e) (rotr32 11 e)) (rotr32 25 e) in
  let ch := Z.lxor (e &&& f) (not32 e &&& g) in
  let t1 := uint32 (h + S1 + ch + k + w) in
  let S0 := Z.lxor (Z.lxor (rotr32 2 a) (rotr32 13 a)) (rotr32 22 a) in
  let maj := Z.lxor (Z.lxor (a &&& b) (a &&& c)) (b &&& c) in
  mk256 (add32 t1 (add32 S0 maj)) a b c (add32 d t1) e f g.

Definition sha256_block (s : sha256_state) (w : list Z) : sha256_state :=
  let r := foldl (fun st kw => sha256_round st kw.1 kw.2) s (zip sha256_K (sha256_schedule 64 w)) in
  mk256 (add32 (s_a s) (s_a r)) (add32 (s_b s) (s_b r)) (add32 (s_c s) (s_c r)) (add32 (s_d s) (s_d r))
        (add32 (s_e s) (s_e r)) (add32 (s_f s) (s_f r)) (add32 (s_g s) (s_g r)) (add32 (s_h s) (s_h r)).

Definition sha256 (m : bytes) : bytes :=
  let s := fold_blocks sha256_block (nblocks m) (sha_pad m) sha256_init in
  be_split 4 (s_a s) ++ be_split 4 (s_b s) ++ be_split 4 (s_c s) ++ be_split 4 (s_d s) ++
  be_split 4 (s_e s) ++ be_split 4 (s_f s) ++ be_split 4 (s_g s) ++ be_split 4 (s_h s).

(** * SHA-1 *)

Record sha1_state : Type := mk1 { t_a : Z; t_b : Z; t_c : Z; t_d : Z; t_e : Z }.

Definition sha1_init : sha1_state :=
  mk1 0x67452301 0xefcdab89 0x98badcfe 0x10325476 0xc3d2e1f0.

Fixpoint sha1_schedule (n : nat) (w : list Z) : list Z :=
  match n with
  | O => []
  | S n' =>
    let g i := nth i w 0 in
    let next := rotl32 1 (Z.lxor (Z.lxor (g 13%nat) (g 8%nat)) (Z.lxor (g 2%nat) (g 0%nat))) in
    g 0%nat :: sha1_schedule n' (tail w ++ [next])
  end.

(** The round function and constant of round [t]. *)
Definition sha1_fk (t b c d : Z) : Z * Z :=
  if t <? 20 then (Z.lxor (b &&& c) (not32 b &&& d), 0x5a827999)
  else if t <? 40 then (Z.lxor (Z.lxor b c) d, 0x6ed9eba1)
  else if t <? 60 then (Z.lxor (Z.lxor (b &&& c) (b &&& d)) (c &&& d), 0x8f1bbcdc)
  else (Z.lxor (Z.lxor b c) d, 0xca62c1d6).

Definition sha1_round (s : sha1_state) (t w : Z) : sha1_state :=
  let '(mk1 a b c d e) := s in
  let '(f, k) := sha1_fk t b c d in
  mk1 (uint32 (rotl32 5 a + f + e + k + w)) a (rotl32 30 b) c d.

Definition sha1_block (s : sha1_state) (w : list Z) : sha1_state :=
  let r := foldl (fun st tw => sha1_round st tw.1 tw.2) s
             (zip (map Z.of_nat (seq 0 80)) (sha1_schedule 80 w)) in
  mk1 (add32 (t_a s) (t_a r)) (add32 (t_b s) (t_b r)) (add32 (t_c s) (t_c r))
      (add32 (t_d s) (t_d r)) (add32 (t_e s) (t_e r)).

Definition sha1 (m : bytes) : bytes :=
  let s := fold_blocks sha1_block (nblocks m) (sha_pad m) sha1_init in
  be_split 4 (t_a s) ++ be_split 4 (t_b s) ++ be_split 4 (t_c s) ++ be_split 4 (t_d s) ++ be_split 4 (t_e s).

(** * Known answers *)

Definition abc_bytes : bytes := [Byte.x61; Byte.x62; Byte.x63].

Example sha256_abc : be_combine (sha256 abc_bytes) =
  0xba7816bf8f01cfea414140de5dae2223b00361a396177a9cb410ff61f20015ad.
Proof. vm_compute. reflexivity. Qed.

Example sha256_empty : be_combine (sha256 []) =
  0xe3b0c44298fc1c149afbf4c8996fb92427ae41e4649b934ca495991b7852b855.
Proof. vm_compute. reflexivity. Qed.

(** Two blocks: 56 bytes leave no room for the length in the first. *)
Example sha256_two_blocks : be_combine (sha256 (repeat Byte.x61 56)) =
  0xb35439a4ac6f0948b6d6f9e3c6af0f5f590ce20f1bde7090ef7970686ec6738a.
Proof. vm_compute. reflexivity. Qed.

Example sha1_abc : be_combine (sha1 abc_bytes) = 0xa9993e364706816aba3e25717850c26c9cd0d89d.
Proof. vm_compute. reflexivity. Qed.

(** * Digest lengths *)

Lemma len_be_split n x : len (be_split n x) = Z.of_nat n.
Proof. unfold be_split, len. by rewrite length_rev, length_le_split. Qed.

#[export] Hint Rewrite len_be_split : len.

Lemma len_sha256 m : len (sha256 m) = 32.
Proof. unfold sha256. len_lia. Qed.

Lemma len_sha1 m : len (sha1 m) = 20.
Proof. unfold sha1. len_lia. Qed.

(** The padded message is a whole number of blocks, so no byte is dropped by
    [fold_blocks]. *)
Lemma sha_pad_blocks m : len (sha_pad m) = 64 * Z.of_nat (nblocks m).
Proof.
  assert (len (sha_pad m) mod 64 = 0) as Hm.
  { unfold sha_pad. autorewrite with len. unfold len at 2. rewrite repeat_length.
    pose proof (len_nonneg m). pose proof (Z.mod_pos_bound (55 - len m) 64). lia. }
  unfold nblocks. pose proof (len_nonneg (sha_pad m)). lia.
Qed.

(** * The double hash of chainhash *)

Definition HashB (b : bytes) : bytes := sha256 b.
Definition DoubleHashB (b : bytes) : bytes := sha256 (sha256 b).

Lemma len_DoubleHashB b : len (DoubleHashB b) = 32.
Proof. apply len_sha256. Qed.

#[export] Hint Rewrite len_DoubleHashB len_sha256 len_sha1 : len.

(** Proofs never look inside the digests; evaluation still does. *)
#[global] Opaque sha256 sha1 HashB DoubleHashB.
