(* ===== verification/Wire.v ===== *)
(** The primitives of the wire encoding (src/wire/common.go): fixed-width
    integers, variable-length integers, byte strings and strings, read from and
    written to a byte stream.  A reader is the bytes that are left; a writer is
    the bytes written so far, a growing buffer that does not fail. *)

From S2P Require Import Prelude TxScriptErr.

(** The errors of the package: a stream that ends early, a [messageError], an
    error passed on from the script packages, any other error text. *)
Inductive wireerr : Type :=
| ErrShortRead
| ErrMessage
| ErrFromScript (e : scripterr)
| ErrText.

#[global] Instance wireerr_eq_dec : EqDecision wireerr.
Proof. solve_decision. Defined.

Abbreviation Rd := (St wireerr bytes).
Abbreviation Wr := (St wireerr bytes ()).

Definition MaxMessagePayload : Z := 1024 * 1024 * 32.

(** * Fixed-width integers *)

(** Go's [io.ReadFull] into a buffer of [n] bytes. *)
Definition ReadFull (n : Z) : Rd bytes := fun r =>
  if len r <? n then (Throw ErrShortRead, [])
  else (Ret (take (Z.to_nat n) r), drop (Z.to_nat n) r).

(** Go's [Writer.Write]. *)
Definition Write (b : bytes) : Wr := modify (fun w => w ++ b).

Definition Uint8 : Rd Z := b ← ReadFull 1; mret (le_combine b).
Definition Uint16 : Rd Z := b ← ReadFull 2; mret (le_combine b).
Definition Uint32 : Rd Z := b ← ReadFull 4; mret (le_combine b).
Definition Uint64 : Rd Z := b ← ReadFull 8; mret (le_combine b).

Definition PutUint8 (val : Z) : Wr := Write (le_split 1 val).
Definition PutUint16 (val : Z) : Wr := Write (le_split 2 val).
Definition PutUint32 (val : Z) : Wr := Write (le_split 4 val).
Definition PutUint64 (val : Z) : Wr := Write (le_split 8 val).

(** * Variable-length integers *)

Definition ReadVarInt : Rd Z :=
  discriminant ← Uint8;
  if discriminant =? 0xff then
    rv ← Uint64;
    if rv <? 0x100000000 then mthrow ErrMessage else mret rv
  else if discriminant =? 0xfe then
    rv ← Uint32;
    if rv <? 0x10000 then mthrow ErrMessage else mret rv
  else if discriminant =? 0xfd then
    rv ← Uint16;
    if rv <? 0xfd then mthrow ErrMessage else mret rv
  else mret discriminant.

Definition WriteVarInt (val : Z) : Wr :=
  if val <? 0xfd then PutUint8 (uwrap 8 val)
  else if val <=? 2 ^ 16 - 1 then PutUint8 0xfd;; PutUint16 (uint16 val)
  else if val <=? 2 ^ 32 - 1 then PutUint8 0xfe;; PutUint32 (uint32 val)
  else PutUint8 0xff;; PutUint64 val.

Definition VarIntSerializeSize (val : Z) : Z :=
  if val <? 0xfd then 1
  else if val <=? 2 ^ 16 - 1 then 3
  else if val <=? 2 ^ 32 - 1 then 5
  else 9.

(** * Byte strings and strings *)

Definition ReadVarBytes (maxAllowed : Z) : Rd bytes :=
  count ← ReadVarInt;
  if maxAllowed <? count then mthrow ErrMessage else ReadFull count.

Definition WriteVarBytes (b : bytes) : Wr :=
  WriteVarInt (uint64 (len b));; Write b.

(** A Go string is its bytes. *)
Definition ReadVarString : Rd bytes :=
  count ← ReadVarInt;
  if MaxMessagePayload <? count then mthrow ErrMessage else ReadFull count.

Definition WriteVarString (str : bytes) : Wr :=
  WriteVarInt (uint64 (len str));; Write str.

(** * Readers and writers as functions of the stream *)

(** [reads m b a]: on a stream that begins with [b], [m] consumes exactly [b]
    and returns [a]. *)
Definition reads {A} (m : Rd A) (b : bytes) (a : A) : Prop :=
  forall rest, m (b ++ rest) = (Ret a, rest).

(** [writes m b]: [m] succeeds and appends [b]. *)
Definition writes (m : Wr) (b : bytes) : Prop :=
  forall w, m w = (Ret (), w ++ b).

(** [inverts m f]: [m] reads only what [f] writes; this makes the encoding
    canonical. *)
Definition inverts {A} (m : Rd A) (P : A -> bytes -> Prop) : Prop :=
  forall r a rest, m r = (Ret a, rest) -> exists b, r = b ++ rest /\ P a b.

Lemma reads_ret {A} (a : A) : reads (mret a) [] a.
Proof. done. Qed.

Lemma reads_bind {A B} (m : Rd A) (f : A -> Rd B) b1 b2 a c :
  reads m b1 a -> reads (f a) b2 c -> reads (m ≫= f) (b1 ++ b2) c.
Proof. intros H1 H2 rest. rewrite <- app_assoc, (bind_Ret _ _ _ a (b2 ++ rest)) by apply H1. apply H2. Qed.

Lemma reads_bind_last {A B} (m : Rd A) (f : A -> Rd B) b a c :
  reads m b a -> reads (f a) [] c -> reads (m ≫= f) b c.
Proof. intros H1 H2. rewrite <- (app_nil_r b). by eapply reads_bind. Qed.

Lemma writes_ret : writes (mret ()) [].
Proof. intros w. by rewrite app_nil_r. Qed.

Lemma writes_Write b : writes (Write b) b.
Proof. done. Qed.

Lemma writes_bind (m1 m2 : Wr) b1 b2 : writes m1 b1 -> writes m2 b2 -> writes (m1;; m2) (b1 ++ b2).
Proof. intros H1 H2 w. rewrite (bind_Ret _ _ _ () (w ++ b1)) by apply H1. by rewrite H2, app_assoc. Qed.

Lemma inverts_bind {A B} (m : Rd A) (f : A -> Rd B) P Q R :
  inverts m P -> (forall a, inverts (f a) (Q a)) ->
  (forall a b1 c b2, P a b1 -> Q a c b2 -> R c (b1 ++ b2)) -> inverts (m ≫= f) R.
Proof.
  intros Hm Hf HR r c rest. unfold mbind, St_bind. destruct (m r) as [[a| |] r'] eqn:E; intros H; try done.
  destruct (Hm _ _ _ E) as (b1 & -> & Ha). destruct (Hf a _ _ _ H) as (b2 & -> & Hc).
  exists (b1 ++ b2). rewrite app_assoc. eauto.
Qed.

Lemma inverts_throw {A} (e : wireerr) (P : A -> bytes -> Prop) : inverts (mthrow e) P.
Proof. done. Qed.

Lemma inverts_ret {A} (a : A) (P : A -> bytes -> Prop) : P a [] -> inverts (mret a) P.
Proof. intros H r a' rest [= <- <-]. by exists []. Qed.

Lemma inverts_mono {A} (m : Rd A) (P Q : A -> bytes -> Prop) :
  inverts m P -> (forall a b, P a b -> Q a b) -> inverts m Q.
Proof. intros Hm H r a rest E. destruct (Hm _ _ _ E) as (b & ? & ?). eauto. Qed.

(** ** The primitives *)

Lemma reads_ReadFull b : reads (ReadFull (len b)) b b.
Proof.
  intros rest. unfold ReadFull. destruct (Z.ltb_spec (len (b ++ rest)) (len b)); [len_lia|].
  unfold len. rewrite Nat2Z.id, take_app_length, drop_app_length. done.
Qed.

Lemma inverts_ReadFull n : 0 <= n -> inverts (ReadFull n) (fun a b => a = b /\ len b = n).
Proof.
  intros Hn r a rest. unfold ReadFull. destruct (Z.ltb_spec (len r) n); intros [= <- <-].
  exists (take (Z.to_nat n) r). rewrite take_drop. repeat split.
  unfold len in *. rewrite length_take. lia.
Qed.

(** The unsigned integer of [k] bytes. *)
Definition UintN (k : nat) : Rd Z := b ← ReadFull (Z.of_nat k); mret (le_combine b).

Lemma le_combine_le_split_small k v : 0 <= v < 256 ^ Z.of_nat k -> le_combine (le_split k v) = v.
Proof.
  intros Hv. rewrite le_combine_split, Z.mod_small; [done|].
  rewrite Z.mul_comm, Z.pow_mul_r by lia. done.
Qed.

Lemma reads_UintN k v : 0 <= v < 256 ^ Z.of_nat k -> reads (UintN k) (le_split k v) v.
Proof.
  intros Hv. unfold UintN. rewrite <- (len_le_split k v).
  eapply reads_bind_last; [apply reads_ReadFull|].
  rewrite le_combine_le_split_small by done. apply reads_ret.
Qed.

Lemma inverts_UintN k :
  inverts (UintN k) (fun v b => b = le_split k v /\ 0 <= v < 256 ^ Z.of_nat k).
Proof.
  unfold UintN. eapply inverts_bind; [by apply inverts_ReadFull; lia| |].
  { intros a. by apply (inverts_ret _ (fun v b => v = le_combine a /\ b = [])). }
  intros a b1 c b2 [-> Hl] [-> ->]. rewrite app_nil_r. pose proof (le_combine_range b1).
  rewrite Hl in *. split; [|lia]. replace k with (length b1) by (unfold len in Hl; lia).
  by rewrite split_le_combine.
Qed.

(** The encoding of a variable-length integer. *)
Definition varint (v : Z) : bytes :=
  if v <? 0xfd then le_split 1 v
  else if v <=? 2 ^ 16 - 1 then le_split 1 0xfd ++ le_split 2 v
  else if v <=? 2 ^ 32 - 1 then le_split 1 0xfe ++ le_split 4 v
  else le_split 1 0xff ++ le_split 8 v.

Lemma writes_VarInt v : 0 <= v < 2 ^ 64 -> writes (WriteVarInt v) (varint v).
Proof.
  intros Hv. unfold WriteVarInt, varint, uwrap.
  destruct (Z.ltb_spec v 0xfd); [rewrite Z.mod_small by lia; apply writes_Write|].
  destruct (Z.leb_spec v (2 ^ 16 - 1));
    [rewrite Z.mod_small by lia; by apply writes_bind|].
  destruct (Z.leb_spec v (2 ^ 32 - 1));
    [rewrite Z.mod_small by lia; by apply writes_bind|].
  by apply writes_bind.
Qed.

Lemma reads_VarInt v : 0 <= v < 2 ^ 64 -> reads ReadVarInt (varint v) v.
Proof.
  intros Hv. unfold ReadVarInt, varint.
  destruct (Z.ltb_spec v 0xfd).
  { eapply reads_bind_last; [apply (reads_UintN 1); lia|]. simpl.
    destruct (Z.eqb_spec v 0xff), (Z.eqb_spec v 0xfe), (Z.eqb_spec v 0xfd); try lia. apply reads_ret. }
  destruct (Z.leb_spec v (2 ^ 16 - 1)); [|destruct (Z.leb_spec v (2 ^ 32 - 1))].
  - eapply reads_bind; [by apply (reads_UintN 1)|]. simpl.
    eapply reads_bind_last; [apply (reads_UintN 2); lia|]. simpl.
    destruct (Z.ltb_spec v 0xfd); [lia|apply reads_ret].
  - eapply reads_bind; [by apply (reads_UintN 1)|]. simpl.
    eapply reads_bind_last; [apply (reads_UintN 4); lia|]. simpl.
    destruct (Z.ltb_spec v 0x10000); [lia|apply reads_ret].
  - eapply reads_bind; [by apply (reads_UintN 1)|]. simpl.
    eapply reads_bind_last; [apply (reads_UintN 8); lia|]. simpl.
    destruct (Z.ltb_spec v 0x100000000); [lia|apply reads_ret].
Qed.

Lemma inverts_guard {A} (c : bool) (e : wireerr) (m : Rd A) P :
  (c = false -> inverts m P) -> inverts (if c then mthrow e else m) P.
Proof. destruct c; intros H; [apply inverts_throw|by apply H]. Qed.

(** A wide discriminant is rejected below the range it is needed for. *)
Lemma inverts_UintN_min k m :
  inverts (rv ← UintN k; if rv <? m then mthrow ErrMessage else mret rv)
    (fun v b => b = le_split k v /\ m <= v < 256 ^ Z.of_nat k).
Proof.
  eapply (inverts_bind _ _ _ (fun a v b => v = a /\ m <= a /\ b = [])); [apply inverts_UintN| |].
  - intros a. apply inverts_guard. intros H%Z.ltb_ge. by apply inverts_ret.
  - simpl. intros a b1 c b2 [-> Ha] (-> & Hm & ->). rewrite app_nil_r. split; [done|lia].
Qed.

Lemma inverts_VarInt : inverts ReadVarInt (fun v b => b = varint v /\ 0 <= v < 2 ^ 64).
Proof.
  unfold ReadVarInt. eapply (inverts_bind _ _ _
    (fun d v b => b = (if d =? 0xff then le_split 8 v else if d =? 0xfe then le_split 4 v
                       else if d =? 0xfd then le_split 2 v else []) /\
                  (if d =? 0xff then 2 ^ 32 <= v < 2 ^ 64 else if d =? 0xfe then 2 ^ 16 <= v < 2 ^ 32
                   else if d =? 0xfd then 0xfd <= v < 2 ^ 16 else v = d))); [apply (inverts_UintN 1)| |].
  - intros d. destruct (d =? 0xff); [|destruct (d =? 0xfe); [|destruct (d =? 0xfd)]].
    + apply (inverts_UintN_min 8 0x100000000).
    + apply (inverts_UintN_min 4 0x10000).
    + apply (inverts_UintN_min 2 0xfd).
    + by apply inverts_ret.
  - simpl. intros d b1 v b2 [-> Hd] [-> Hv]. unfold varint.
    destruct (Z.eqb_spec d 0xff); [|destruct (Z.eqb_spec d 0xfe); [|destruct (Z.eqb_spec d 0xfd)]];
      subst; try rewrite app_nil_r;
      repeat match goal with
      | |- context [?x <? ?y] => destruct (Z.ltb_spec x y); try lia
      | |- context [?x <=? ?y] => destruct (Z.leb_spec x y); try lia
      end; (split; [done|lia]).
Qed.

Lemma len_varint v : len (varint v) = VarIntSerializeSize v.
Proof. unfold varint, VarIntSerializeSize. repeat case_match; len_lia. Qed.

#[export] Hint Rewrite len_varint : len.

(** ** Byte strings *)

Lemma reads_ReadVarBytes b maxAllowed :
  len b <= maxAllowed -> len b < 2 ^ 64 -> reads (ReadVarBytes maxAllowed) (varint (len b) ++ b) b.
Proof.
  intros Hm Hl. unfold ReadVarBytes. pose proof (len_nonneg b).
  eapply reads_bind; [apply reads_VarInt; lia|].
  destruct (Z.ltb_spec maxAllowed (len b)); [lia|]. apply reads_ReadFull.
Qed.

Lemma inverts_ReadVarBytes maxAllowed :
  inverts (ReadVarBytes maxAllowed) (fun a b => b = varint (len a) ++ a /\ len a <= maxAllowed).
Proof.
  unfold ReadVarBytes.
  eapply (inverts_bind _ _ _ (fun n a b => 0 <= n -> a = b /\ len a = n /\ n <= maxAllowed));
    [apply inverts_VarInt| |].
  - intros n. apply inverts_guard. intros Hn%Z.ltb_ge r a rest H.
    destruct (Z.lt_ge_cases n 0) as [|Hn0].
    + exists []. simpl. revert H. unfold ReadFull. destruct (Z.ltb_spec (len r) n); [done|].
      replace (Z.to_nat n) with 0%nat by lia. intros [= <- <-]. split; [done|lia].
    + destruct (inverts_ReadFull n Hn0 r a rest H) as (b & -> & -> & Hl). by exists b.
  - simpl. intros n b1 a b2 [-> Hn] H. destruct H as (-> & <- & ?); [lia|]. done.
Qed.

Lemma writes_WriteVarBytes b : len b < 2 ^ 64 -> writes (WriteVarBytes b) (varint (len b) ++ b).
Proof.
  intros Hl. pose proof (len_nonneg b). unfold WriteVarBytes. rewrite uwrap_small by lia.
  apply writes_bind; [apply writes_VarInt; lia|apply writes_Write].
Qed.

(** * Theorems *)

(** A variable-length integer is read back from its encoding, whatever
    follows it in the stream, and its encoding takes the announced number of
    bytes. *)
Theorem varint_roundtrip (v : Z) (Hv : 0 <= v < 2 ^ 64) :
  exists b, len b = VarIntSerializeSize v /\
    (forall w, WriteVarInt v w = (Ret (), w ++ b)) /\
    (forall rest, ReadVarInt (b ++ rest) = (Ret v, rest)).
Proof.
  exists (varint v). split; [apply len_varint|].
  split; [by apply writes_VarInt|by apply reads_VarInt].
Qed.

Lemma varint_roundtrip_witness :
  exists b, len b = 5 /\ (forall w, WriteVarInt 70000 w = (Ret (), w ++ b)) /\
    (forall rest, ReadVarInt (b ++ rest) = (Ret 70000, rest)).
Proof. apply (varint_roundtrip 70000). lia. Defined.

(** The encoding of variable-length integers is canonical: the reader
    accepts only what the writer writes for the value it returns, and stays in
    the 64-bit range.  Every byte string (signature script, witness item, ...)
    behind such a length has one encoding. *)
Theorem varint_canonical (r : bytes) (v : Z) (rest : bytes) (H : ReadVarInt r = (Ret v, rest)) :
  0 <= v < 2 ^ 64 /\ exists b, r = b ++ rest /\ WriteVarInt v [] = (Ret (), b).
Proof.
  destruct (inverts_VarInt r v rest H) as (b & -> & -> & Hv). split; [done|].
  exists (varint v). split; [done|]. apply (writes_VarInt v Hv []).
Qed.

Lemma varint_canonical_witness :
  exists b, [Byte.xfd; Byte.x00; Byte.x01; Byte.xff] = b ++ [Byte.xff] /\ WriteVarInt 256 [] = (Ret (), b).
Proof. apply (varint_canonical [Byte.xfd; Byte.x00; Byte.x01; Byte.xff] 256 [Byte.xff]). reflexivity. Defined.
