(* ===== verification/ParseScript.v ===== *)
(** Parsing of raw scripts (src/txscript/parsescript/parsescript.go), its
    inverse [popBytes] / [unparseScript], and the predicates on a parsed opcode
    of src/txscript/opcode.go.  The parser is proved total on the real opcode
    table and inverse to the unparser in both directions. *)

From S2P Require Import Prelude TxScriptErr Opcode.

Record ParsedOpcode : Type := { Opc : Opcode; Data : bytes }.

#[global] Instance ParsedOpcode_eq_dec : EqDecision ParsedOpcode.
Proof. solve_decision. Defined.

(** * Parsing *)

(** What the parser returns: the opcodes up to the point of failure, and the
    error if there is one. *)
Definition parse_result : Type := list ParsedOpcode * option scripterr.

(** The template of the test hook: a map from bytes to opcodes. *)
Definition template : Type := byte -> option Opcode.

(** The number pushed length of an OP_PUSHDATA, from the bytes at [off];
    the inner [None] is the switch's default case. *)
Definition push_length (script : bytes) (off Length : Z) : option (option Z) :=
  if Length =? -1 then
    b0 ← index script off; Some (Some (u8 b0))
  else if Length =? -2 then
    b1 ← index script (off + 1); b0 ← index script off;
    Some (Some ((u8 b1 <<< 8) ||| u8 b0))
  else if Length =? -4 then
    b3 ← index script (off + 3); b2 ← index script (off + 2);
    b1 ← index script (off + 1); b0 ← index script off;
    Some (Some ((u8 b3 <<< 24) ||| (u8 b2 <<< 16) ||| (u8 b1 <<< 8) ||| u8 b0))
  else Some None.

(** One round of the loop at offset [i]: the opcode parsed there and the next
    offset, or the error.  [None] is a run-time panic. *)
Definition parse_one (script : bytes) (opcodes : option template) (i : Z) :
    option (ParsedOpcode * Z + scripterr) :=
  instr ← index script i;
  let op := MkOpcode instr in
  let op := match opcodes with None => op | Some m => default op (m instr) end in
  if Length op =? 1 then
    Some (inl ({| Opc := op; Data := [] |}, i + 1))
  else if 1 <? Length op then
    rest ← slice_from script i;
    if len rest <? Length op then Some (inr ErrMalformedPush) else
    data ← slice script (i + 1) (i + Length op);
    Some (inl ({| Opc := op; Data := data |}, i + Length op))
  else if Length op <? 0 then
    let off := i + 1 in
    rest ← slice_from script off;
    if len rest <? - Length op then Some (inr ErrMalformedPush) else
    ol ← push_length script off (Length op);
    match ol with
    | None => Some (inr ErrMalformedPush)
    | Some l =>
      let off := off + - Length op in
      rest ← slice_from script off;
      if (len rest <? int64 l) || (int64 l <? 0) then Some (inr ErrMalformedPush) else
      data ← slice script off (off + int64 l);
      Some (inl ({| Opc := op; Data := data |}, i + (1 - Length op + int64 l)))
    end
  else
    Some (inl ({| Opc := op; Data := [] |}, i)).

(** The loop.  [None] is a panic or a loop that makes no progress, which a
    template with an opcode of length zero would give. *)
Fixpoint parse_loop (fuel : nat) (script : bytes) (opcodes : option template) (i : Z)
    (retScript : list ParsedOpcode) : option parse_result :=
  if i <? len script then
    match fuel with
    | O => None
    | S fuel' =>
      r ← parse_one script opcodes i;
      match r with
      | inl (pop, i') => parse_loop fuel' script opcodes i' (retScript ++ [pop])
      | inr e => Some (retScript, Some e)
      end
    end
  else Some (retScript, None).

Definition ParseScriptTemplate (script : bytes) (opcodes : option template) : option parse_result :=
  parse_loop (length script) script opcodes 0 [].

(** [ParseScript_total] below shows that the default is never used. *)
Definition ParseScript (script : bytes) : parse_result :=
  default ([], None) (ParseScriptTemplate script None).

Definition IsPushOnly (pops : list ParsedOpcode) : bool :=
  forallb (fun pop => negb (u8 OP_16 <? u8 (Value (Opc pop)))) pops.

(** * Unparsing *)

Definition popBytes (pop : ParsedOpcode) : outcome scripterr bytes :=
  let L := Length (Opc pop) in
  let retbytes := [Value (Opc pop)] in
  if L =? 1 then
    if negb (len (Data pop) =? 0) then mthrow ErrInternal else mret retbytes
  else
    let l := len (Data pop) in
    let '(retbytes, nbytes) :=
      if L =? -1 then
        let r := retbytes ++ [to_byte l] in
        (r, u8 (to_byte l) + len r)
      else if L =? -2 then
        let lb := [to_byte (l &&& 0xff); to_byte ((l >>> 8) &&& 0xff)] in
        let r := retbytes ++ lb in
        (r, le_combine lb + len r)
      else if L =? -4 then
        let lb := [to_byte (l &&& 0xff); to_byte ((l >>> 8) &&& 0xff);
                   to_byte ((l >>> 16) &&& 0xff); to_byte ((l >>> 24) &&& 0xff)] in
        let r := retbytes ++ lb in
        (r, le_combine lb + len r)
      else (retbytes, L) in
    let retbytes := retbytes ++ Data pop in
    if negb (len retbytes =? nbytes) then mthrow ErrInternal else mret retbytes.

Fixpoint unparse_loop (pops : list ParsedOpcode) (script : bytes) : outcome scripterr bytes :=
  match pops with
  | [] => mret script
  | pop :: pops' => b ← popBytes pop; unparse_loop pops' (script ++ b)
  end.

Definition unparseScript (pops : list ParsedOpcode) : outcome scripterr bytes :=
  unparse_loop pops [].

(** * Predicates on a parsed opcode *)

Definition popIsDisabled (pop : ParsedOpcode) : bool :=
  match Value (Opc pop) with
  | OP_CAT => true
  | OP_SUBSTR => true
  | OP_LEFT => true
  | OP_RIGHT => true
  | OP_INVERT => true
  | OP_AND => true
  | OP_OR => true
  | OP_XOR => true
  | OP_2MUL => true
  | OP_2DIV => true
  | OP_MUL => true
  | OP_DIV => true
  | OP_MOD => true
  | OP_LSHIFT => true
  | OP_RSHIFT => true
  | _ => false
  end.

Definition popAlwaysIllegal (pop : ParsedOpcode) : bool :=
  match Value (Opc pop) with
  | OP_VERIF => true
  | _ => false
  end.

Definition popIsConditional (pop : ParsedOpcode) : bool :=
  match Value (Opc pop) with
  | OP_IF => true
  | OP_NOTIF => true
  | OP_ELSE => true
  | OP_ENDIF => true
  | _ => false
  end.

(** [data[0]], read only where the length is 1. *)
Definition data0 (data : bytes) : Z := match data with [] => 0 | b :: _ => u8 b end.

Definition popCheckMinimalDataPush (pop : ParsedOpcode) : outcome scripterr () :=
  let data := Data pop in
  let dataLen := len data in
  let op := u8 (Value (Opc pop)) in
  let data0 := data0 data in
  if (dataLen =? 0) && negb (op =? u8 OP_0) then mthrow ErrMinimalData
  else if (dataLen =? 1) && (1 <=? data0) && (data0 <=? 16) then
    if negb (op =? u8 OP_1 + data0 - 1) then mthrow ErrMinimalData else mret ()
  else if (dataLen =? 1) && (data0 =? 0x81) then
    if negb (op =? u8 OP_1NEGATE) then mthrow ErrMinimalData else mret ()
  else if dataLen <=? 75 then
    if negb (op =? dataLen) then mthrow ErrMinimalData else mret ()
  else if dataLen <=? 255 then
    if negb (op =? u8 OP_PUSHDATA1) then mthrow ErrMinimalData else mret ()
  else if dataLen <=? 65535 then
    if negb (op =? u8 OP_PUSHDATA2) then mthrow ErrMinimalData else mret ()
  else mret ().

(** * The encoding of one opcode *)

(** [pop_enc pop bs]: the opcode of the real table with its data is written as
    [bs] in a script. *)
Inductive pop_enc : ParsedOpcode -> bytes -> Prop :=
| enc_plain b :
    opcodeLengths b = 1 -> pop_enc {| Opc := MkOpcode b; Data := [] |} [b]
| enc_data b d :
    opcodeLengths b = 1 + len d -> 1 <= len d ->
    pop_enc {| Opc := MkOpcode b; Data := d |} (b :: d)
| enc_pushdata b lb d :
    opcodeLengths b = - len lb -> 1 <= len lb -> le_combine lb = len d ->
    pop_enc {| Opc := MkOpcode b; Data := d |} (b :: lb ++ d).

(** The opcode is the one of the table. *)
Definition pop_wf (pop : ParsedOpcode) : Prop := Opc pop = MkOpcode (Value (Opc pop)).

Lemma pop_enc_wf pop bs : pop_enc pop bs -> pop_wf pop.
Proof. by destruct 1. Qed.

Lemma pop_enc_len pop bs : pop_enc pop bs -> 1 <= len bs.
Proof. destruct 1; len_lia. Qed.

(** The possible lengths of the table. *)
Lemma opcodeLengths_cases b :
  opcodeLengths b = 1 \/ 1 < opcodeLengths b <= 76 \/
  opcodeLengths b = -1 \/ opcodeLengths b = -2 \/ opcodeLengths b = -4.
Proof.
  rewrite opcodeLengths_spec. unfold op_length. pose proof (u8_range b).
  repeat match goal with |- context [if ?c then _ else _] => destruct c eqn:? end; lia.
Qed.

Lemma le_combine_1 a : le_combine [a] = u8 a.
Proof. rewrite le_combine_cons, le_combine_nil. lia. Qed.

Lemma le_combine_2 a b : le_combine [a; b] = (u8 b <<< 8) ||| u8 a.
Proof.
  rewrite Z.lor_comm, Z.shiftl_mul_pow2 by lia. pose proof (u8_range a).
  rewrite lor_add_pow2, !le_combine_cons, le_combine_nil by lia. lia.
Qed.

Lemma le_combine_4 a b c d :
  le_combine [a; b; c; d] = (u8 d <<< 24) ||| (u8 c <<< 16) ||| (u8 b <<< 8) ||| u8 a.
Proof.
  pose proof (u8_range a). pose proof (u8_range b). pose proof (u8_range c). pose proof (u8_range d).
  rewrite !Z.shiftl_mul_pow2 by lia.
  rewrite (Z.lor_comm (u8 d * _)), (lor_add_pow2 (u8 c * 2 ^ 16)) by lia.
  rewrite (Z.lor_comm _ (u8 b * _)).
  replace (u8 c * 2 ^ 16 + u8 d * 2 ^ 24) with ((u8 c + u8 d * 256) * 2 ^ 16) by lia.
  rewrite (lor_add_pow2 (u8 b * 2 ^ 8)) by lia.
  replace (u8 b * 2 ^ 8 + (u8 c + u8 d * 256) * 2 ^ 16)
    with ((u8 b + (u8 c + u8 d * 256) * 256) * 2 ^ 8) by lia.
  rewrite Z.lor_comm, (lor_add_pow2 (u8 a)), !le_combine_cons, le_combine_nil by lia. lia.
Qed.

(** A list of length 1, 2 or 4 spelled out. *)
Lemma len_1_inv {A} (l : list A) : len l = 1 -> exists a, l = [a].
Proof. destruct l as [|a [|]]; intros; try len_lia. eauto. Qed.
Lemma len_2_inv {A} (l : list A) : len l = 2 -> exists a b, l = [a; b].
Proof. destruct l as [|a [|b [|]]]; intros; try len_lia. eauto. Qed.
Lemma len_4_inv {A} (l : list A) : len l = 4 -> exists a b c d, l = [a; b; c; d].
Proof. destruct l as [|a [|b [|c [|d [|]]]]]; intros; try len_lia. eauto 6. Qed.

Lemma index_app_at {A} (pre l : list A) (k : Z) :
  0 <= k -> index (pre ++ l) (len pre + k) = index l k.
Proof. intros. rewrite index_app_r by lia. f_equal. lia. Qed.

Lemma index_app_here {A} (pre l : list A) : index (pre ++ l) (len pre) = index l 0.
Proof. rewrite <- (index_app_at pre l 0) by lia. f_equal. lia. Qed.

Lemma push_length_spec pre lb rest L :
  L = - len lb -> len lb = 1 \/ len lb = 2 \/ len lb = 4 ->
  push_length (pre ++ lb ++ rest) (len pre) L = Some (Some (le_combine lb)).
Proof.
  intros -> Hl. unfold push_length. rewrite !index_app_here, !index_app_at by lia. destruct Hl as [Hl|[Hl|Hl]].
  - destruct (len_1_inv lb Hl) as (a & ->). by rewrite le_combine_1.
  - destruct (len_2_inv lb Hl) as (a & b & ->). by rewrite le_combine_2.
  - destruct (len_4_inv lb Hl) as (a & b & c & d & ->). by rewrite le_combine_4.
Qed.

(** ** One round of the parser *)

Lemma slice_from_here {A} (pre l : list A) : slice_from (pre ++ l) (len pre) = Some l.
Proof. by apply slice_from_app. Qed.

(** The first [k] elements of a list that has that many. *)
Lemma split_at_len {A} (l : list A) (k : Z) :
  0 <= k <= len l -> exists l1 l2, l = l1 ++ l2 /\ len l1 = k.
Proof.
  intros Hk. exists (take (Z.to_nat k) l), (drop (Z.to_nat k) l). split.
  - by rewrite take_drop.
  - unfold len in *. rewrite length_take. lia.
Qed.

Lemma le_combine_int64 lb : len lb = 1 \/ len lb = 2 \/ len lb = 4 -> int64 (le_combine lb) = le_combine lb.
Proof.
  intros Hl. pose proof (le_combine_range lb). apply int64_small.
  destruct Hl as [E|[E|E]]; rewrite E in *; lia.
Qed.

Section parse_one.
Context (pre : bytes) (b : byte).
Let L := opcodeLengths b.
Let mk (d : bytes) : ParsedOpcode := {| Opc := MkOpcode b; Data := d |}.

Lemma parse_one_plain t :
  L = 1 -> parse_one (pre ++ b :: t) None (len pre) = Some (inl (mk [], len pre + 1)).
Proof. intros H. unfold parse_one. rewrite index_app_here. simpl. fold L. by rewrite H. Qed.

Lemma parse_one_data t :
  1 < L ->
  parse_one (pre ++ b :: t) None (len pre) =
  if len (b :: t) <? L then Some (inr ErrMalformedPush) else
  data ← slice (pre ++ b :: t) (len pre + 1) (len pre + L);
  Some (inl (mk data, len pre + L)).
Proof.
  intros H. unfold parse_one. rewrite index_app_here, slice_from_here. simpl. fold L.
  destruct (Z.eqb_spec L 1), (Z.ltb_spec 1 L); try lia. done.
Qed.

Lemma parse_one_pushdata_short t :
  L < 0 -> len t < - L ->
  parse_one (pre ++ b :: t) None (len pre) = Some (inr ErrMalformedPush).
Proof.
  intros H Ht. unfold parse_one. rewrite index_app_here. simpl. fold L.
  destruct (Z.eqb_spec L 1), (Z.ltb_spec 1 L), (Z.ltb_spec L 0); try lia.
  rewrite (cons_middle b), app_assoc.
  replace (len pre + 1) with (len (pre ++ [b])) by len_lia. rewrite slice_from_here. simpl.
  destruct (Z.ltb_spec (len t) (- L)); [done|lia].
Qed.

Lemma parse_one_pushdata lb u :
  L < 0 -> len lb = - L ->
  parse_one (pre ++ b :: lb ++ u) None (len pre) =
  if len u <? le_combine lb then Some (inr ErrMalformedPush) else
  data ← slice (((pre ++ [b]) ++ lb) ++ u) (len ((pre ++ [b]) ++ lb))
               (len ((pre ++ [b]) ++ lb) + le_combine lb);
  Some (inl (mk data, len pre + (1 - L + le_combine lb))).
Proof.
  intros H Hlb. pose proof (opcodeLengths_cases b). fold L in H0.
  unfold parse_one. rewrite index_app_here. simpl. fold L.
  destruct (Z.eqb_spec L 1), (Z.ltb_spec 1 L), (Z.ltb_spec L 0); try lia.
  rewrite (cons_middle b), app_assoc.
  replace (len pre + 1) with (len (pre ++ [b])) by len_lia. rewrite slice_from_here. simpl.
  destruct (Z.ltb_spec (len (lb ++ u)) (- L)); [len_lia|].
  rewrite push_length_spec by lia. simpl. rewrite le_combine_int64 by lia.
  replace (len (pre ++ [b]) + - L) with (len ((pre ++ [b]) ++ lb)) by len_lia.
  rewrite (app_assoc (pre ++ [b])), slice_from_here. simpl.
  pose proof (le_combine_range lb). destruct (Z.ltb_spec (le_combine lb) 0); [lia|].
  by rewrite orb_false_r.
Qed.
End parse_one.

(** An encoded opcode is parsed back. *)
Lemma parse_one_complete pop bs pre rest :
  pop_enc pop bs ->
  parse_one (pre ++ bs ++ rest) None (len pre) = Some (inl (pop, len pre + len bs)).
Proof.
  intros H. destruct H as [b Hb|b d Hb Hd|b lb d Hb Hl Hd]; simpl.
  - by apply parse_one_plain.
  - rewrite parse_one_data by lia. rewrite Hb.
    destruct (Z.ltb_spec (len (b :: d ++ rest)) (1 + len d)); [len_lia|].
    rewrite (cons_middle b), app_assoc, (slice_seam (pre ++ [b]) d rest) by len_lia.
    simpl. by rewrite len_cons.
  - rewrite <- (app_assoc lb), parse_one_pushdata, Hd by lia.
    destruct (Z.ltb_spec (len (d ++ rest)) (len d)); [len_lia|].
    rewrite slice_seam by done. simpl. do 4 f_equal. len_lia.
Qed.

(** The bytes at the offset begin with an encoded opcode, or the round fails. *)
Lemma parse_one_dichotomy pre b t :
  (exists pop bs rest, pop_enc pop bs /\ b :: t = bs ++ rest) \/
  parse_one (pre ++ b :: t) None (len pre) = Some (inr ErrMalformedPush).
Proof.
  destruct (opcodeLengths_cases b) as [H|[H|H]].
  { left. exists {| Opc := MkOpcode b; Data := [] |}, [b], t. split; [by constructor|done]. }
  { rewrite parse_one_data by lia. destruct (Z.ltb_spec (len (b :: t)) (opcodeLengths b)) as [Hs|Hs]; [by right|].
    left. destruct (split_at_len t (opcodeLengths b - 1)) as (d & rest & -> & Hd); [len_lia|].
    exists {| Opc := MkOpcode b; Data := d |}, (b :: d), rest. split; [constructor; lia|done]. }
  destruct (Z.lt_ge_cases (len t) (- opcodeLengths b)).
  { right. apply parse_one_pushdata_short; lia. }
  destruct (split_at_len t (- opcodeLengths b)) as (lb & u & -> & Hlb); [lia|].
  rewrite parse_one_pushdata by lia. destruct (Z.ltb_spec (len u) (le_combine lb)) as [Hu|Hu]; [by right|].
  left. pose proof (le_combine_range lb).
  destruct (split_at_len u (le_combine lb)) as (d & rest & -> & Hd); [lia|].
  exists {| Opc := MkOpcode b; Data := d |}, (b :: lb ++ d), rest.
  split; [constructor; lia|]. simpl. by rewrite app_assoc.
Qed.

(** Two encodings that begin the same bytes are the same. *)
Lemma pop_enc_inj p1 d1 r1 p2 d2 r2 :
  pop_enc p1 d1 -> pop_enc p2 d2 -> d1 ++ r1 = d2 ++ r2 -> p1 = p2 /\ d1 = d2 /\ r1 = r2.
Proof.
  intros H1 H2 E. pose proof (parse_one_complete p1 d1 [] r1 H1) as P1.
  rewrite E in P1. rewrite (parse_one_complete p2 d2 [] r2 H2) in P1.
  injection P1 as -> El. split; [done|]. apply app_inj_1 in E as []; [done|]. unfold len in El. lia.
Qed.

(** * The encoding computed by [popBytes] *)

Lemma to_byte_land_255 x : to_byte (x &&& 0xff) = to_byte x.
Proof.
  apply u8_inj. rewrite !byte.unsigned_of_Z. unfold byte.wrap.
  change 0xff with (Z.ones 8). by rewrite Z.land_ones, Z.mod_mod by lia.
Qed.

Lemma le_bytes_2 l : [to_byte (l &&& 0xff); to_byte ((l >>> 8) &&& 0xff)] = le_split 2 l.
Proof. rewrite !to_byte_land_255. done. Qed.

Lemma le_bytes_4 l :
  [to_byte (l &&& 0xff); to_byte ((l >>> 8) &&& 0xff);
   to_byte ((l >>> 16) &&& 0xff); to_byte ((l >>> 24) &&& 0xff)] = le_split 4 l.
Proof.
  rewrite !to_byte_land_255.
  change (le_split 4 l) with
    [to_byte l; to_byte (l >>> 8); to_byte ((l >>> 8) >>> 8); to_byte (((l >>> 8) >>> 8) >>> 8)].
  by rewrite !Z.shiftr_shiftr by lia.
Qed.

Lemma le_split_of lb n : le_combine lb = n -> le_split (length lb) n = lb.
Proof. intros <-. apply split_le_combine. Qed.

(** [popBytes] on an opcode with a length prefix of [k] bytes. *)
Lemma popBytes_pushdata b d k :
  opcodeLengths b = - Z.of_nat k -> (1 <= k)%nat ->
  popBytes {| Opc := MkOpcode b; Data := d |} =
  if negb (len d =? le_combine (le_split k (len d))) then Throw ErrInternal
  else Ret (b :: le_split k (len d) ++ d).
Proof.
  intros Hb Hk. pose proof (opcodeLengths_cases b) as Hc.
  assert (k = 1 \/ k = 2 \/ k = 4)%nat as Hk' by lia. unfold popBytes. simpl. rewrite Hb.
  assert (forall a x y, (a =? x) = (a + y =? x + y)) as Heq.
  { intros. destruct (Z.eqb_spec a x), (Z.eqb_spec (a + y) (x + y)); lia. }
  rewrite le_bytes_4, le_bytes_2. destruct Hk' as [->|[->| ->]].
  - change (- Z.of_nat 1) with (-1). change (le_split 1 (len d)) with [to_byte (len d)].
    rewrite le_combine_1, (Heq (len d) (u8 _) 2). eval_ztests. f_equal.
    by replace (len (_ ++ d)) with (len d + 2) by len_lia.
  - change (- Z.of_nat 2) with (-2). rewrite (Heq (len d) (le_combine _) 3). eval_ztests.
    replace (len (_ ++ d)) with (len d + 3) by len_lia.
    by replace (len (b :: _)) with 3 by len_lia.
  - change (- Z.of_nat 4) with (-4). rewrite (Heq (len d) (le_combine _) 5). eval_ztests.
    replace (len (_ ++ d)) with (len d + 5) by len_lia.
    by replace (len (b :: _)) with 5 by len_lia.
Qed.

Lemma popBytes_enc pop bs : pop_wf pop -> popBytes pop = Ret bs <-> pop_enc pop bs.
Proof.
  destruct pop as [op d]. unfold pop_wf. simpl. intros Hop. generalize dependent (Value op). intros b ->.
  destruct (opcodeLengths_cases b) as [H|[H|H]].
  - unfold popBytes. simpl. rewrite H. simpl. destruct (Z.eqb_spec (len d) 0) as [E|E]; simpl.
    + apply len_0 in E as ->. split; [intros [= <-]; by constructor|].
      inversion 1; subst; first [done|len_lia].
    + split; [done|]. inversion 1; subst; len_lia.
  - unfold popBytes. simpl.
    destruct (Z.eqb_spec (opcodeLengths b) 1), (Z.eqb_spec (opcodeLengths b) (-1)),
      (Z.eqb_spec (opcodeLengths b) (-2)), (Z.eqb_spec (opcodeLengths b) (-4)); try lia.
    destruct (Z.eqb_spec (len ([b] ++ d)) (opcodeLengths b)); simpl.
    + split; [intros [= <-]; constructor; len_lia|]. inversion 1; subst; first [done|len_lia].
    + split; [done|]. inversion 1; subst; len_lia.
  - rewrite (popBytes_pushdata b d (Z.to_nat (- opcodeLengths b))) by lia.
    set (k := Z.to_nat (- opcodeLengths b)).
    destruct (Z.eqb_spec (len d) (le_combine (le_split k (len d)))) as [E|E]; simpl.
    + split.
      * intros [= <-]. constructor; unfold len in *; rewrite ?length_le_split; lia.
      * inversion 1 as [| |? lb ? Hb Hl Hd]; subst; [lia|len_lia|].
        replace k with (length lb) by (unfold len in *; lia). by rewrite le_split_of.
    + split; [done|]. inversion 1 as [| |? lb ? Hb Hl Hd]; subst; [lia|len_lia|].
      replace k with (length lb) in E by (unfold len in *; lia). by rewrite le_split_of in E.
Qed.

(** * Whole scripts *)

Inductive script_enc : list ParsedOpcode -> bytes -> Prop :=
| script_enc_nil : script_enc [] []
| script_enc_cons pop pops bs rest :
    pop_enc pop bs -> script_enc pops rest -> script_enc (pop :: pops) (bs ++ rest).

(** No opcode of the table is encoded at the start of [s]. *)
Definition stuck (s : bytes) : Prop :=
  s <> [] /\ forall pop bs rest, pop_enc pop bs -> s <> bs ++ rest.

(** What the parser returns on [s]: the encoded opcodes of the longest
    parsable prefix. *)
Definition parses (s : bytes) (r : parse_result) : Prop :=
  exists bs rest, script_enc r.1 bs /\ s = bs ++ rest /\
  match r.2 with
  | None => rest = []
  | Some e => e = ErrMalformedPush /\ stuck rest
  end.

Lemma parse_loop_parses fuel pre s ret :
  (length s <= fuel)%nat ->
  exists pops e, parse_loop fuel (pre ++ s) None (len pre) ret = Some (ret ++ pops, e) /\
    parses s (pops, e).
Proof.
  revert pre s ret. induction fuel as [|fuel IH]; intros pre s ret Hf.
  { destruct s; [|simpl in Hf; lia]. simpl. rewrite app_nil_r.
    destruct (Z.ltb_spec (len pre) (len pre)); [lia|]. exists [], None. rewrite app_nil_r.
    split; [done|]. exists [], []. by repeat split; try constructor. }
  cbn [parse_loop]. destruct s as [|b t].
  { rewrite app_nil_r. destruct (Z.ltb_spec (len pre) (len pre)); [lia|]. exists [], None. rewrite app_nil_r.
    split; [done|]. exists [], []. by repeat split; try constructor. }
  destruct (Z.ltb_spec (len pre) (len (pre ++ b :: t))); [|len_lia].
  destruct (parse_one_dichotomy pre b t) as [(pop & bs & rest & Henc & E)|Herr].
  - rewrite E, (parse_one_complete pop) by done. simpl.
    pose proof (pop_enc_len pop bs Henc). apply (f_equal length) in E as El.
    rewrite length_app in El. simpl in El, Hf. unfold len in H0.
    destruct (IH (pre ++ bs) rest (ret ++ [pop])) as (pops & e & Hp & Hps); [lia|].
    rewrite <- app_assoc, len_app in Hp. rewrite Hp.
    exists (pop :: pops), e. rewrite <- app_assoc. split; [done|].
    destruct Hps as (bs' & rest' & Hs & -> & He). exists (bs ++ bs'), rest'.
    split; [by constructor|]. split; [by rewrite app_assoc|done].
  - rewrite Herr. simpl. exists [], (Some ErrMalformedPush). rewrite app_nil_r. split; [done|].
    exists [], (b :: t). split; [constructor|]. split; [done|]. split; [done|]. split; [done|].
    intros pop bs rest Henc E. by rewrite E, (parse_one_complete pop) in Herr.
Qed.

(** The parser returns on every input, and what it returns is a parse. *)
Lemma ParseScript_total script :
  ParseScriptTemplate script None = Some (ParseScript script) /\ parses script (ParseScript script).
Proof.
  unfold ParseScript, ParseScriptTemplate.
  destruct (parse_loop_parses (length script) [] script [] (le_n _)) as (pops & e & Hp & Hps).
  change (len []) with 0 in Hp. simpl in Hp. by rewrite Hp.
Qed.

(** A script has one parse. *)
Lemma parses_det s r1 r2 : parses s r1 -> parses s r2 -> r1 = r2.
Proof.
  destruct r1 as [p1 e1], r2 as [p2 e2]. intros (bs1 & rest1 & H1 & -> & E1) (bs2 & rest2 & H2 & E & E2).
  simpl in *. revert p2 bs2 E H2. induction H1 as [|pop pops b bs He H1 IH]; intros p2 bs2 E H2.
  - simpl in E. subst rest1. destruct H2 as [|pop2 pops2 b2 bs2 He2 H2].
    + simpl in *. destruct e1, e2; intuition (subst; try done).
      * by destruct H0.
      * by destruct H0.
    + exfalso. pose proof (pop_enc_len _ _ He2). destruct e1 as [e|].
      * destruct E1 as [_ [_ Hst]]. by apply (Hst pop2 b2 (bs2 ++ rest2) He2); rewrite app_assoc.
      * apply (f_equal len) in E1. len_lia.
  - rewrite <- app_assoc in E. destruct H2 as [|pop2 pops2 b2 bs2' He2 H2].
    + exfalso. simpl in E. pose proof (pop_enc_len _ _ He). destruct e2 as [e|].
      * destruct E2 as [_ [_ Hst]]. by apply (Hst pop b (bs ++ rest1) He).
      * subst rest2. apply (f_equal len) in E. len_lia.
    + rewrite <- app_assoc in E. destruct (pop_enc_inj _ _ _ _ _ _ He He2 E) as (-> & _ & E').
      specialize (IH pops2 bs2' E' H2). by injection IH as -> ->.
Qed.

Lemma ParseScript_eq s r : parses s r -> ParseScript s = r.
Proof. intros H. by apply (parses_det s); [apply ParseScript_total|]. Qed.

Lemma unparse_loop_app pops acc :
  unparse_loop pops acc = (b ← unparseScript pops; mret (acc ++ b)).
Proof.
  unfold unparseScript. revert acc. induction pops as [|pop pops IH]; intros acc; simpl.
  { by rewrite app_nil_r. }
  destruct (popBytes pop) as [b| |]; simpl; [|done..].
  rewrite IH, (IH b). destruct (unparse_loop pops []); simpl; [|done..]. by rewrite app_assoc.
Qed.

Lemma unparseScript_enc pops s :
  Forall pop_wf pops -> unparseScript pops = Ret s <-> script_enc pops s.
Proof.
  intros Hwf. revert s. induction Hwf as [|pop pops Hp Hwf IH]; intros s.
  { split; [intros [= <-]; constructor|by inversion 1]. }
  unfold unparseScript. simpl. split.
  - destruct (popBytes pop) as [b| |] eqn:Eb; simpl; [|done..]. rewrite unparse_loop_app.
    destruct (unparseScript pops) as [r| |] eqn:Er; simpl; [|done..]. intros [= <-].
    constructor; [by apply popBytes_enc|by apply IH].
  - inversion 1 as [|? ? b r Hb Hr]; subst. apply popBytes_enc in Hb; [|done]. rewrite Hb. simpl.
    rewrite unparse_loop_app. apply IH in Hr. by rewrite Hr.
Qed.

Lemma script_enc_wf pops s : script_enc pops s -> Forall pop_wf pops.
Proof. induction 1; constructor; [by eapply pop_enc_wf|done]. Qed.

(** C31: the parser returns on every byte string, without a panic, and loses
    nothing: when it reports no error, unparsing its opcodes gives the script
    back; otherwise the error is [ErrMalformedPush], the opcodes it returns
    unparse to a prefix of the script, and no opcode can be read where it
    stopped. *)
Theorem ParseScript_unparse (script : bytes) :
  ParseScriptTemplate script None = Some (ParseScript script) /\
  let '(pops, err) := ParseScript script in
  Forall pop_wf pops /\
  match err with
  | None => unparseScript pops = Ret script
  | Some e => e = ErrMalformedPush /\
      exists pre rest, unparseScript pops = Ret pre /\ script = pre ++ rest /\ rest <> [] /\
        forall pop bs, pop_wf pop -> popBytes pop = Ret bs -> bytes_prefixb bs rest = false
  end.
Proof.
  destruct (ParseScript_total script) as [Ht (bs & rest & Henc & E & He)]. split; [done|].
  destruct (ParseScript script) as [pops err]. simpl in *. pose proof (script_enc_wf _ _ Henc) as Hwf.
  split; [done|]. apply unparseScript_enc in Henc; [|done]. destruct err as [e|].
  - destruct He as [-> [Hn Hs]]. split; [done|]. exists bs, rest. repeat split; [done..|].
    intros pop b Hp Hb. apply popBytes_enc in Hb; [|done].
    destruct (bytes_prefixb b rest) eqn:Ep; [|done].
    apply bytes_prefixb_spec in Ep as [r Er]. by destruct (Hs pop b r Hb).
  - subst rest. by rewrite E, app_nil_r.
Qed.

(** Parsing inverts unparsing: opcodes of the table that unparse to a
    script are exactly what the parser reads from it.  The
    opcode lists of the table and the well-formed scripts are in bijection. *)
Theorem unparseScript_parse (pops : list ParsedOpcode) (script : bytes)
    (Hwf : Forall pop_wf pops) (H : unparseScript pops = Ret script) :
  ParseScript script = (pops, None).
Proof.
  apply ParseScript_eq. exists script, []. rewrite app_nil_r.
  split; [by apply unparseScript_enc|done].
Qed.

Lemma unparseScript_parse_witness :
  ParseScript [OP_PUSHDATA1; Byte.x02; OP_DUP; OP_DUP; OP_DROP] =
  ([{| Opc := MkOpcode OP_PUSHDATA1; Data := [OP_DUP; OP_DUP] |};
    {| Opc := MkOpcode OP_DROP; Data := [] |}], None).
Proof. apply unparseScript_parse; [repeat constructor|reflexivity]. Defined.
