(* ===== verification/ScriptBuilder.v ===== *)
(** The script builder (src/txscript/scriptbuilder/scriptbuilder.go): its
    operations, and the proof that a data push it writes is one opcode, the
    shortest one that pushes the data. *)

From S2P Require Import Prelude TxScriptErr Params ScriptNum Opcode ParseScript.

Record ScriptBuilder : Type := { ScriptInt : bytes; ErrInt : option scripterr }.

Definition append_script (x : bytes) (b : ScriptBuilder) : ScriptBuilder :=
  {| ScriptInt := ScriptInt b ++ x; ErrInt := ErrInt b |}.
Definition set_err (e : scripterr) (b : ScriptBuilder) : ScriptBuilder :=
  {| ScriptInt := ScriptInt b; ErrInt := Some e |}.

(** * Operations *)

Definition AddOp (opcode : byte) (b : ScriptBuilder) : ScriptBuilder :=
  if ErrInt b is Some _ then b
  else if MaxScriptSize <? len (ScriptInt b) + 1 then set_err ErrScriptNotCanonical b
  else append_script [opcode] b.

Definition AddOps (opcodes : bytes) (b : ScriptBuilder) : ScriptBuilder :=
  if ErrInt b is Some _ then b
  else if MaxScriptSize <? len (ScriptInt b) + len opcodes then set_err ErrScriptNotCanonical b
  else append_script opcodes b.

Definition CanonicalDataSize (data : bytes) : Z :=
  let dataLen := len data in
  if dataLen =? 0 then 1
  else if (dataLen =? 1) && (data0 data <=? 16) then 1
  else if (dataLen =? 1) && (data0 data =? 0x81) then 1
  else if dataLen <? u8 OP_PUSHDATA1 then 1 + dataLen
  else if dataLen <=? 0xff then 2 + dataLen
  else if dataLen <=? 0xffff then 3 + dataLen
  else 5 + dataLen.

Definition addData (data : bytes) (b : ScriptBuilder) : ScriptBuilder :=
  let dataLen := len data in
  if (dataLen =? 0) || (dataLen =? 1) && (data0 data =? 0) then append_script [OP_0] b
  else if (dataLen =? 1) && (data0 data <=? 16) then
    append_script [to_byte (u8 OP_1 - 1 + data0 data)] b
  else if (dataLen =? 1) && (data0 data =? 0x81) then append_script [OP_1NEGATE] b
  else
    let b :=
      if dataLen <? u8 OP_PUSHDATA1 then append_script [to_byte (u8 OP_DATA_1 - 1 + dataLen)] b
      else if dataLen <=? 0xff then append_script [OP_PUSHDATA1; to_byte dataLen] b
      else if dataLen <=? 0xffff then
        append_script (le_split 2 (uint16 dataLen)) (append_script [OP_PUSHDATA2] b)
      else append_script (le_split 4 (uint32 dataLen)) (append_script [OP_PUSHDATA4] b) in
    append_script data b.

Definition AddFullData (data : bytes) (b : ScriptBuilder) : ScriptBuilder :=
  if ErrInt b is Some _ then b else addData data b.

Definition AddData (data : bytes) (b : ScriptBuilder) : ScriptBuilder :=
  if ErrInt b is Some _ then b
  else if MaxScriptSize <? len (ScriptInt b) + CanonicalDataSize data then
    set_err ErrScriptNotCanonical b
  else if MaxScriptElementSize <? len data then set_err ErrScriptNotCanonical b
  else addData data b.

Definition AddInt64 (val : Z) (b : ScriptBuilder) : outcome scripterr ScriptBuilder :=
  if ErrInt b is Some _ then mret b
  else if MaxScriptSize <? len (ScriptInt b) + 1 then mret (set_err ErrScriptNotCanonical b)
  else if val =? 0 then mret (append_script [OP_0] b)
  else if (val =? -1) || ((1 <=? val) && (val <=? 16)) then
    mret (append_script [to_byte (u8 OP_1 - 1 + val)] b)
  else data ← Bytes val; mret (AddData data b).

Definition Reset (b : ScriptBuilder) : ScriptBuilder := {| ScriptInt := []; ErrInt := None |}.

(** The script up to the first error, and the error. *)
Definition Script (b : ScriptBuilder) : bytes * option scripterr := (ScriptInt b, ErrInt b).

Definition NewScriptBuilder : ScriptBuilder := {| ScriptInt := []; ErrInt := None |}.

(** * What a push opcode pushes *)

(** The data an opcode pushes on the stack when it is executed; [None] for an
    opcode that is not a push.  [opcode_push_spec] of EngineProps.v shows that
    the opcode handlers do this. *)
Definition pushed (pop : ParsedOpcode) : option bytes :=
  let v := u8 (Value (Opc pop)) in
  if v <=? u8 OP_PUSHDATA4 then Some (Data pop)
  else if v =? u8 OP_1NEGATE then Some [to_byte 0x81]
  else if (u8 OP_1 <=? v) && (v <=? u8 OP_16) then Some [to_byte (v - (u8 OP_1 - 1))]
  else None.

Lemma append_script_app x y b : append_script y (append_script x b) = append_script (x ++ y) b.
Proof. unfold append_script. simpl. by rewrite app_assoc. Qed.

Lemma data0_single data : len data = 1 -> data = [to_byte (data0 data)].
Proof. intros (d & ->)%len_1_inv. simpl. by rewrite byte.of_Z_unsigned. Qed.

Lemma opcodeLengths_of v : 0 <= v < 256 -> opcodeLengths (to_byte v) = op_length v.
Proof. intros. by rewrite opcodeLengths_spec, u8_to_byte. Qed.

(** The encoding that [addData] chooses. *)
Definition push_enc (data : bytes) : ParsedOpcode * bytes :=
  let dataLen := len data in
  let mk op d e := ({| Opc := MkOpcode op; Data := d |}, e) in
  if (dataLen =? 0) || (dataLen =? 1) && (data0 data =? 0) then mk OP_0 [] [OP_0]
  else if (dataLen =? 1) && (data0 data <=? 16) then
    let op := to_byte (80 + data0 data) in mk op [] [op]
  else if (dataLen =? 1) && (data0 data =? 0x81) then mk OP_1NEGATE [] [OP_1NEGATE]
  else if dataLen <? 76 then let op := to_byte dataLen in mk op data (op :: data)
  else if dataLen <=? 0xff then mk OP_PUSHDATA1 data (OP_PUSHDATA1 :: le_split 1 dataLen ++ data)
  else if dataLen <=? 0xffff then mk OP_PUSHDATA2 data (OP_PUSHDATA2 :: le_split 2 dataLen ++ data)
  else mk OP_PUSHDATA4 data (OP_PUSHDATA4 :: le_split 4 dataLen ++ data).

Lemma addData_push_enc data b :
  len data < 2 ^ 32 -> addData data b = append_script (push_enc data).2 b.
Proof.
  intros Hl. unfold addData, push_enc. pose proof (len_nonneg data).
  destruct ((len data =? 0) || (len data =? 1) && (data0 data =? 0)) eqn:E0; [done|].
  destruct ((len data =? 1) && (data0 data <=? 16)) eqn:E1; [done|].
  destruct ((len data =? 1) && (data0 data =? 0x81)) eqn:E2; [done|].
  change (u8 OP_PUSHDATA1) with 76. change (u8 OP_DATA_1 - 1 + len data) with (len data).
  destruct (Z.ltb_spec (len data) 76); [by rewrite append_script_app|].
  destruct (Z.leb_spec (len data) 0xff); [by rewrite append_script_app|].
  destruct (Z.leb_spec (len data) 0xffff); rewrite !append_script_app, uwrap_small by lia; done.
Qed.

(** Case analysis on the branches of [push_enc], with arithmetic facts. *)
Ltac push_cases data :=
  unfold push_enc; pose proof (len_nonneg data);
  destruct ((len data =? 0) || (len data =? 1) && (data0 data =? 0)) eqn:E0;
  [|destruct ((len data =? 1) && (data0 data <=? 16)) eqn:E1;
  [|destruct ((len data =? 1) && (data0 data =? 0x81)) eqn:E2;
  [|destruct (Z.ltb_spec (len data) 76);
  [|destruct (Z.leb_spec (len data) 0xff);
  [|destruct (Z.leb_spec (len data) 0xffff)]]]]]; cbn [fst snd Opc Data Value MkOpcode].

Lemma data0_range data : 0 <= data0 data < 256.
Proof. destruct data as [|b]; [done|apply u8_range]. Qed.

Lemma push_enc_enc data : len data < 2 ^ 32 -> pop_enc (push_enc data).1 (push_enc data).2.
Proof.
  intros Hl. pose proof (data0_range data) as Hd0. push_cases data.
  - by constructor.
  - constructor. rewrite opcodeLengths_of by lia. unfold op_length.
    repeat case_match; lia.
  - by constructor.
  - constructor; [|lia]. rewrite opcodeLengths_of by lia. unfold op_length.
    destruct (Z.leb_spec (len data) 75); lia.
  - constructor; [done|done|]. rewrite le_combine_split. apply Z.mod_small. lia.
  - constructor; [done|done|]. rewrite le_combine_split. apply Z.mod_small. lia.
  - constructor; [done|done|]. rewrite le_combine_split. apply Z.mod_small. lia.
Qed.

Lemma push_enc_len data : len data < 2 ^ 32 -> len (push_enc data).2 = CanonicalDataSize data.
Proof.
  intros Hl. unfold CanonicalDataSize. pose proof (data0_range data) as Hd0. change (u8 OP_PUSHDATA1) with 76.
  push_cases data;
    destruct (Z.eqb_spec (len data) 0), (Z.eqb_spec (len data) 1); simpl in *;
    repeat case_match; first [lia|len_lia].
Qed.

Lemma push_enc_pushed data :
  len data < 2 ^ 32 ->
  pushed (push_enc data).1 = Some (if bytes_eqb data [Byte.x00] then [] else data).
Proof.
  intros Hl. pose proof (data0_range data) as Hd0.
  destruct (bytes_eqb data [Byte.x00]) eqn:Ez.
  { apply bytes_eqb_eq in Ez as ->. done. }
  assert (len data = 1 -> data0 data <> 0) as Hnz.
  { intros H1 H0. apply data0_single in H1. rewrite H0 in H1. subst data. done. }
  push_cases data.
  - assert (len data = 0) as ->%len_0 by lia. done.
  - assert (len data = 1) as H1 by lia. rewrite (data0_single data H1) at 2.
    unfold pushed. simpl. rewrite u8_to_byte by lia.
    change (u8 OP_PUSHDATA4) with 78. change (u8 OP_1NEGATE) with 79. change (u8 OP_1) with 81.
    change (u8 OP_16) with 96. repeat case_match; try lia. do 3 f_equal. lia.
  - assert (len data = 1) as H1 by lia. assert (data0 data = 0x81) as H2 by lia.
    rewrite (data0_single data H1), H2. done.
  - unfold pushed. simpl. rewrite u8_to_byte by lia. change (u8 OP_PUSHDATA4) with 78.
    destruct (Z.leb_spec (len data) 78); [done|lia].
  - done.
  - done.
  - done.
Qed.

(** The chosen opcode passes the engine's minimality check. *)
Lemma push_enc_minimal data :
  len data < 2 ^ 32 -> u8 (Value (Opc (push_enc data).1)) <= u8 OP_PUSHDATA4 ->
  popCheckMinimalDataPush (push_enc data).1 = Ret ().
Proof.
  intros Hl. pose proof (data0_range data) as Hd0. unfold popCheckMinimalDataPush.
  change (u8 OP_PUSHDATA4) with 78. change (u8 OP_PUSHDATA1) with 76. change (u8 OP_PUSHDATA2) with 77.
  change (u8 OP_0) with 0. change (u8 OP_1) with 81. change (u8 OP_1NEGATE) with 79. push_cases data.
  - done.
  - rewrite u8_to_byte by lia. lia.
  - done.
  - intros _. rewrite u8_to_byte by lia. rewrite Z.eqb_refl. repeat case_match; first [done|lia].
  - intros _. repeat case_match; first [done|lia].
  - intros _. repeat case_match; first [done|lia].
  - intros _. repeat case_match; first [done|lia].
Qed.

(** No opcode that pushes the data is shorter. *)
Lemma push_enc_shortest data pop e :
  pop_enc pop e -> pushed pop = Some data -> CanonicalDataSize data <= len e.
Proof.
  intros He Hp. pose proof (pop_enc_len _ _ He) as He1.
  unfold CanonicalDataSize. change (u8 OP_PUSHDATA1) with 76.
  destruct (Z.eqb_spec (len data) 0); [done|].
  destruct ((len data =? 1) && (data0 data <=? 16)) eqn:E1; [done|].
  destruct ((len data =? 1) && (data0 data =? 0x81)) eqn:E2; [done|].
  assert (u8 (Value (Opc pop)) <= 78 /\ Data pop = data) as [Hv Hd].
  { revert Hp. unfold pushed. change (u8 OP_PUSHDATA4) with 78.
    destruct (Z.leb_spec (u8 (Value (Opc pop))) 78); [intros [= <-]; done|].
    destruct (_ =? u8 OP_1NEGATE); [intros [= <-]; done|].
    destruct ((u8 OP_1 <=? _) && _) eqn:E; [|done]. intros [= <-]. exfalso. revert E E1.
    simpl. change (u8 OP_1) with 81. change (u8 OP_16) with 96. intros E. rewrite u8_to_byte by lia. lia. }
  destruct He as [b Hb|b d Hb Hd1|b lb d Hb Hl Hlb]; simpl in *; subst; [done| |].
  - rewrite opcodeLengths_spec in Hb. unfold op_length in Hb. pose proof (u8_range b).
    repeat case_match; len_lia.
  - pose proof (opcodeLengths_cases b) as Hc. pose proof (le_combine_range lb) as Hr. rewrite Hlb in Hr.
    assert (len lb = 1 \/ len lb = 2 \/ len lb = 4) as Hlb' by lia.
    destruct Hlb' as [E|[E|E]]; rewrite E in *; repeat case_match; len_lia.
Qed.

Lemma parse_single pop e : pop_enc pop e -> ParseScript e = ([pop], None).
Proof.
  intros He. apply ParseScript_eq. exists e, []. rewrite app_nil_r. repeat split.
  rewrite <- (app_nil_r e). by repeat constructor.
Qed.

Lemma parse_single_inv pop e : ParseScript e = ([pop], None) -> pop_enc pop e.
Proof.
  intros He. destruct (ParseScript_total e) as [_ (bs & rest & Henc & E & Hr)]. rewrite He in *. simpl in *.
  subst rest. rewrite app_nil_r in E. subst bs. inversion Henc as [|? ? b r Hb Hr']; subst.
  inversion Hr'; subst. by rewrite app_nil_r.
Qed.

(** A data push written by the builder is one opcode that pushes the data,
    passes the engine's check for minimal pushes, and is no longer than any
    other push of the same data.  The exception is the single byte 0x00, for
    which the builder writes OP_0, which pushes the empty string. *)
Theorem AddData_canonical (data : bytes) (b : ScriptBuilder) (Hb : ErrInt b = None)
    (Hroom : len (ScriptInt b) + CanonicalDataSize data <= MaxScriptSize)
    (Hlen : len data <= MaxScriptElementSize) :
  exists pop e, Script (AddData data b) = (ScriptInt b ++ e, None) /\
    ParseScript e = ([pop], None) /\
    pushed pop = Some (if bytes_eqb data [Byte.x00] then [] else data) /\
    (u8 (Value (Opc pop)) <= u8 OP_PUSHDATA4 -> popCheckMinimalDataPush pop = Ret ()) /\
    (forall pop' e', ParseScript e' = ([pop'], None) -> pushed pop' = Some data -> len e <= len e').
Proof.
  unfold MaxScriptElementSize in Hlen. assert (len data < 2 ^ 32) as Hl by lia.
  exists (push_enc data).1, (push_enc data).2. repeat split.
  - unfold AddData. rewrite Hb. destruct (Z.ltb_spec MaxScriptSize (len (ScriptInt b) + CanonicalDataSize data)); [lia|].
    unfold MaxScriptElementSize. destruct (Z.ltb_spec 520 (len data)); [lia|].
    rewrite addData_push_enc by done. unfold Script, append_script. simpl. by rewrite Hb.
  - by apply parse_single, push_enc_enc.
  - by apply push_enc_pushed.
  - by apply push_enc_minimal.
  - intros pop' e' He' Hp'. rewrite push_enc_len by done.
    eapply push_enc_shortest; [by apply parse_single_inv|done].
Qed.

Lemma AddData_canonical_witness :
  exists pop e, Script (AddData [Byte.x07] NewScriptBuilder) = ([] ++ e, None) /\
    ParseScript e = ([pop], None) /\ pushed pop = Some [Byte.x07].
Proof.
  destruct (AddData_canonical [Byte.x07] NewScriptBuilder eq_refl ltac:(done) ltac:(done))
    as (pop & e & H1 & H2 & H3 & _). by exists pop, e.
Defined.

(** A push of an integer by the builder is one opcode that pushes the
    minimal encoding of the integer, so the engine reads the integer back; the
    least 64-bit integer is the one for which the builder panics. *)
Theorem AddInt64_canonical (val : Z) (b : ScriptBuilder) (Hb : ErrInt b = None)
    (Hroom : len (ScriptInt b) <= MaxScriptSize - 10) (Hval : - 2 ^ 63 <= val < 2 ^ 63) :
  if val =? - 2 ^ 63 then AddInt64 val b = Panic
  else exists pop e v, AddInt64 val b = Ret (append_script e b) /\
    ParseScript e = ([pop], None) /\ pushed pop = Some v /\ Bytes val = Ret v.
Proof.
  unfold AddInt64. rewrite Hb.
  destruct (Z.ltb_spec MaxScriptSize (len (ScriptInt b) + 1)); [lia|].
  destruct (Z.eqb_spec val (- 2 ^ 63)) as [->|Hmin]; [by rewrite Bytes_min_int64|].
  destruct (Z.eqb_spec val 0) as [->|Hz].
  { exists {| Opc := MkOpcode OP_0; Data := [] |}, [OP_0], []. repeat split. }
  destruct ((val =? -1) || _) eqn:Es.
  { assert (val = -1 \/ 1 <= val <= 16) as [->|Hs] by lia.
    { exists {| Opc := MkOpcode OP_1NEGATE; Data := [] |}, [OP_1NEGATE], [to_byte 0x81]. repeat split. }
    exists {| Opc := MkOpcode (to_byte (80 + val)); Data := [] |}, [to_byte (80 + val)], [to_byte val].
    assert (val = 1 \/ val = 2 \/ val = 3 \/ val = 4 \/ val = 5 \/ val = 6 \/ val = 7 \/ val = 8 \/
      val = 9 \/ val = 10 \/ val = 11 \/ val = 12 \/ val = 13 \/ val = 14 \/ val = 15 \/ val = 16) as Hc by lia.
    repeat destruct Hc as [->|Hc]; try subst val; repeat split. }
  destruct (Bytes_spec val Hz ltac:(lia)) as (v & Hv & Hm & Hval').
  assert (len v <= 8) as Hl by (apply (sn_minimal_len v 8); [done|lia|rewrite Hval'; lia]).
  rewrite Hv. exists (push_enc v).1, (push_enc v).2, v. cbn [mbind outcome_bind].
  assert (CanonicalDataSize v <= 9) as Hc by (unfold CanonicalDataSize; change (u8 OP_PUSHDATA1) with 76; repeat case_match; lia).
  unfold AddData. rewrite Hb. unfold MaxScriptElementSize.
  destruct (Z.ltb_spec MaxScriptSize (len (ScriptInt b) + CanonicalDataSize v)), (Z.ltb_spec 520 (len v)); try lia.
  rewrite addData_push_enc by lia. repeat split; [apply parse_single, push_enc_enc; lia|].
  rewrite push_enc_pushed by lia. destruct (bytes_eqb v [Byte.x00]) eqn:E; [|done].
  apply bytes_eqb_eq in E as ->. by destruct Hz.
Qed.

Lemma AddInt64_canonical_witness :
  exists pop e v, AddInt64 500 NewScriptBuilder = Ret (append_script e NewScriptBuilder) /\
    ParseScript e = ([pop], None) /\ pushed pop = Some v /\ Bytes 500 = Ret v.
Proof. exact (AddInt64_canonical 500 NewScriptBuilder eq_refl ltac:(done) ltac:(done)). Defined.
