(* ===== verification/MsgTx.v ===== *)
(** Transactions on the wire (src/wire/msgtx.go): the MsgTx structure, its
    encoding and decoding in the base, the witness (BIP0144) and the EPTF
    (Electrum partial transaction) formats, sizes, hashes and script offsets. *)

From S2P Require Import Prelude TxScriptErr Params Opcode ParseScript ScriptBuilder Sha Wire.

(** * Data *)

Record OutPoint : Type := mkOutPoint { op_Hash : bytes; op_Index : Z }.

(** [ti_Witness] is [None] for a nil slice.  Nil and empty scripts are not told
    apart by the code and are both []. *)
Record TxIn : Type := mkTxIn
  { ti_PreviousOutPoint : OutPoint;
    ti_SignatureScript : bytes;
    ti_Witness : option (list bytes);
    ti_Sequence : Z }.

Record TxOut : Type := mkTxOut { to_Value : Z; to_PkScript : bytes }.

(** [add_Value] is a pointer. *)
Record TxInAdditional : Type := mkAdditional { add_PkScript : bytes; add_Value : option Z }.

Record MsgTx : Type := mkMsgTx
  { tx_Version : Z;
    tx_TxIn : list TxIn;
    tx_TxOut : list TxOut;
    tx_LockTime : Z;
    tx_Additional : list TxInAdditional }.

#[global] Instance OutPoint_eq_dec : EqDecision OutPoint.
Proof. solve_decision. Defined.
#[global] Instance TxIn_eq_dec : EqDecision TxIn.
Proof. solve_decision. Defined.
#[global] Instance TxOut_eq_dec : EqDecision TxOut.
Proof. solve_decision. Defined.
#[global] Instance TxInAdditional_eq_dec : EqDecision TxInAdditional.
Proof. solve_decision. Defined.
#[global] Instance MsgTx_eq_dec : EqDecision MsgTx.
Proof. solve_decision. Defined.

(** The items of the witness, none for a nil one. *)
Definition witness (ti : TxIn) : list bytes := default [] (ti_Witness ti).

(** Message encodings (src/wire/message.go) are bit sets. *)
Definition BaseEncoding : Z := 1.
Definition WitnessEncoding : Z := 2.
Definition EptfEncoding : Z := 16.
Definition ForceEptfEncoding : Z := 16 ||| 32.

Definition HashSize : Z := 32.
Definition minTxInPayload : Z := 9 + HashSize.
Definition maxTxInPerMessage : Z := MaxMessagePayload / minTxInPayload + 1.
Definition maxTxOutPerMessage : Z := MaxMessagePayload / MinTxOutPayload + 1.
Definition maxWitnessItemsPerInput : Z := 500000.
Definition maxWitnessItemSize : Z := 11000.
Definition witessMarkerBytes : bytes := [Byte.x00; Byte.x01].

(** * Constructors *)

Definition NewTxIn (prevOut : OutPoint) (signatureScript : bytes) (witness : option (list bytes)) : TxIn :=
  mkTxIn prevOut signatureScript witness MaxTxInSequenceNum.

Definition NewMsgTx (version : Z) : MsgTx := mkMsgTx version [] [] 0 [].

Definition AddTxIn (ti : TxIn) (msg : MsgTx) : MsgTx :=
  mkMsgTx (tx_Version msg) (tx_TxIn msg ++ [ti]) (tx_TxOut msg) (tx_LockTime msg) (tx_Additional msg).

Definition AddTxOut (to : TxOut) (msg : MsgTx) : MsgTx :=
  mkMsgTx (tx_Version msg) (tx_TxIn msg) (tx_TxOut msg ++ [to]) (tx_LockTime msg) (tx_Additional msg).

Definition HasWitness (msg : MsgTx) : bool :=
  existsb (fun txIn => negb (len (witness txIn) =? 0)) (tx_TxIn msg).

(** * Encoding *)

Fixpoint for_each {A} (l : list A) (body : A -> Wr) : Wr :=
  match l with
  | [] => mret ()
  | a :: l' => body a;; for_each l' body
  end.

Definition write32 (x : Z) : Wr := Write (le_split 4 x).
Definition write64 (x : Z) : Wr := Write (le_split 8 x).

Definition writeOutPoint (op : OutPoint) : Wr :=
  Write (op_Hash op);; PutUint32 (op_Index op).

Definition WriteTxOut (to : TxOut) : Wr :=
  PutUint64 (uint64 (to_Value to));; WriteVarBytes (to_PkScript to).

Definition writeTxWitness (wit : list bytes) (amt : Z) : Wr :=
  (if -1 <? amt then
     WriteVarInt 0xffffffff;;
     write64 (uint64 amt);;
     Write [Byte.x00; Byte.x00]
   else mret ());;
  WriteVarInt (uint64 (len wit));;
  for_each wit WriteVarBytes.

(** The signature script field of an incomplete input in the EPTF format. *)
Definition eptf_script (pkScript : bytes) : bytes * option scripterr :=
  Script (AddData (Byte.xfd :: pkScript) (AddOp OP_0 (AddOp OP_INVALIDOPCODE NewScriptBuilder))).

Definition write_txin (eptf : bool) (ti : TxIn) (add : option TxInAdditional) : Wr :=
  writeOutPoint (ti_PreviousOutPoint ti);;
  (add_i ← lift (if eptf then or_panic add else mret (mkAdditional [] None));
   if eptf && (0 <? len (add_PkScript add_i)) && (len (ti_SignatureScript ti) =? 0) then
     match eptf_script (add_PkScript add_i) with
     | (_, Some e) => mthrow (ErrFromScript e)
     | (scr, None) => WriteVarBytes scr
     end
   else WriteVarBytes (ti_SignatureScript ti));;
  write32 (ti_Sequence ti).

Definition write_witness (eptf : bool) (ti : TxIn) (add : option TxInAdditional) : Wr :=
  add_i ← lift (if eptf then or_panic add else mret (mkAdditional [] None));
  let amt := if eptf then default (-1) (add_Value add_i) else -1 in
  writeTxWitness (witness ti) amt.

(** [range msg.TxIn] with the entry of Additional at the same index. *)
Fixpoint with_additional (ins : list TxIn) (adds : list TxInAdditional) :
    list (TxIn * option TxInAdditional) :=
  match ins with
  | [] => []
  | ti :: ins' => (ti, head adds) :: with_additional ins' (tail adds)
  end.

Definition BtcEncode (msg : MsgTx) (enc : Z) : Wr :=
  eptf ← (if negb (enc &&& EptfEncoding =? 0) && (0 <? len (tx_Additional msg)) then
            if len (tx_Additional msg) <? len (tx_TxIn msg) then mthrow ErrText
            else Write [Byte.x45; Byte.x50; Byte.x54; Byte.x46; Byte.xff; Byte.x00];; mret true
          else if negb (enc &&& ForceEptfEncoding =? 0) then mthrow ErrText
          else mret false);
  write32 (uint32 (tx_Version msg));;
  let doWitness := (enc =? WitnessEncoding) && HasWitness msg || eptf in
  (if doWitness then Write witessMarkerBytes else mret ());;
  WriteVarInt (uint64 (len (tx_TxIn msg)));;
  for_each (with_additional (tx_TxIn msg) (tx_Additional msg)) (fun p => write_txin eptf p.1 p.2);;
  WriteVarInt (uint64 (len (tx_TxOut msg)));;
  for_each (tx_TxOut msg) WriteTxOut;;
  (if doWitness then
     for_each (with_additional (tx_TxIn msg) (tx_Additional msg)) (fun p => write_witness eptf p.1 p.2)
   else mret ());;
  PutUint32 (tx_LockTime msg).

Definition Serialize (msg : MsgTx) : Wr := BtcEncode msg WitnessEncoding.
Definition SerializeNoWitness (msg : MsgTx) : Wr := BtcEncode msg BaseEncoding.

(** * Decoding *)

(** [count] rounds of a read loop. *)
Fixpoint read_n {A} (n : nat) (m : Rd A) : Rd (list A) :=
  match n with
  | O => mret []
  | S n' => a ← m; l ← read_n n' m; mret (a :: l)
  end.

(** [range l] where each round reads from the stream. *)
Fixpoint read_each {A B} (l : list A) (m : A -> Rd B) : Rd (list B) :=
  match l with
  | [] => mret []
  | a :: l' => b ← m a; bs ← read_each l' m; mret (b :: bs)
  end.

(** Scripts are read into buffers borrowed from a pool; the whole buffer is
    overwritten by the read. *)
Definition readScript (maxAllowed : Z) : Rd bytes :=
  count ← ReadVarInt;
  if maxAllowed <? count then mthrow ErrMessage else ReadFull count.

Definition readOutPoint : Rd OutPoint :=
  h ← ReadFull HashSize; i ← Uint32; mret (mkOutPoint h i).

(** The public key script hidden in the signature script of an EPTF input;
    [None] when the script is an ordinary one. *)
Definition eptf_parse (sigScript : bytes) : outcome wireerr (option bytes) :=
  if len sigScript <? 2 then mret None
  else
    s0 ← or_panic (index sigScript 0);
    s1 ← or_panic (index sigScript 1);
    if negb (u8 s0 =? 0xff) || negb (u8 s1 =? 0x00) then mret None
    else
      rest ← or_panic (slice_from sigScript 2);
      match ParseScript rest with
      | (_, Some e) => mthrow (ErrFromScript e)
      | (codes, None) =>
        if negb (IsPushOnly codes) then mthrow ErrText
        else if negb (len codes =? 1) then mthrow ErrText
        else
          code ← or_panic (index codes 0);
          let addr := Data code in
          if len addr <? 1 then mthrow ErrText
          else
            a0 ← or_panic (index addr 0);
            if negb (u8 a0 =? 0xfd) then mthrow ErrText
            else pk ← or_panic (slice_from addr 1); mret (Some pk)
      end.

(** The input and the public key script for its Additional entry. *)
Definition readTxIn (eptf : bool) : Rd (TxIn * bytes) :=
  prev ← readOutPoint;
  sigScript ← readScript MaxMessagePayload;
  pk ← lift (if eptf then eptf_parse sigScript else mret None);
  seqno ← Uint32;
  mret (match pk with
        | None => (mkTxIn prev sigScript None seqno, [])
        | Some pkScript => (mkTxIn prev [] None seqno, pkScript)
        end).

Definition readTxOut : Rd TxOut :=
  v ← Uint64;
  pkScript ← readScript MaxMessagePayload;
  mret (mkTxOut (int64 v) pkScript).

(** The witness of one input, with the amount an EPTF stream may carry. *)
Definition read_witness (eptf : bool) (ti : TxIn) : Rd (TxIn * option Z) :=
  witCount ← ReadVarInt;
  '(witCount, amt) ←
    (if eptf && (witCount =? 0xffffffff) then
       amt ← Uint64;
       ver ← Uint16;
       if negb (ver =? 0) then mthrow ErrText
       else wc ← ReadVarInt; mret (wc, Some (int64 amt))
     else mret (witCount, None));
  if maxWitnessItemsPerInput <? witCount then mthrow ErrMessage
  else
    items ← read_n (Z.to_nat witCount) (readScript maxWitnessItemSize);
    mret (mkTxIn (ti_PreviousOutPoint ti) (ti_SignatureScript ti) (Some items) (ti_Sequence ti), amt).

(** ** The contiguous script buffer *)

(** All scripts are copied into one buffer, and each script becomes the view
    [scripts[offset:end:end]] of it.  The state is the buffer and the offset. *)
Abbreviation Pk := (St wireerr (bytes * Z)).

Definition pack (script : bytes) : Pk (Z * Z) :=
  '(scripts, offset) ← gets id;
  if (offset <? 0) || (len scripts <? offset) then lift Panic
  else
    let n := Z.min (len script) (len scripts - offset) in
    let scripts := take (Z.to_nat offset) scripts ++ take (Z.to_nat n) script ++
                   drop (Z.to_nat (offset + n)) scripts in
    let end_ := uint64 (offset + len script) in
    if (end_ <? offset) || (len scripts <? end_) then lift Panic
    else modify (fun _ => (scripts, end_));; mret (offset, end_).

Fixpoint pack_all (l : list bytes) : Pk (list (Z * Z)) :=
  match l with
  | [] => mret []
  | s :: l' => v ← pack s; vs ← pack_all l'; mret (v :: vs)
  end.

Fixpoint pack_ins (l : list TxIn) : Pk (list ((Z * Z) * option (list (Z * Z)))) :=
  match l with
  | [] => mret []
  | ti :: l' =>
    v ← pack (ti_SignatureScript ti);
    ws ← (match ti_Witness ti with
          | None => mret None
          | Some w => vs ← pack_all w; mret (Some vs)
          end);
    rest ← pack_ins l'; mret ((v, ws) :: rest)
  end.

(** Reading a view when the copying is over. *)
Definition view (scripts : bytes) (v : Z * Z) : outcome wireerr bytes :=
  or_panic (slice scripts v.1 v.2).

Fixpoint views (scripts : bytes) (l : list (Z * Z)) : outcome wireerr (list bytes) :=
  match l with
  | [] => mret []
  | v :: l' => b ← view scripts v; bs ← views scripts l'; mret (b :: bs)
  end.

Fixpoint view_ins (scripts : bytes) (l : list TxIn) (vs : list ((Z * Z) * option (list (Z * Z)))) :
    outcome wireerr (list TxIn) :=
  match l, vs with
  | ti :: l', (v, ws) :: vs' =>
    s ← view scripts v;
    w ← (match ws with None => mret None | Some w => x ← views scripts w; mret (Some x) end);
    rest ← view_ins scripts l' vs';
    mret (mkTxIn (ti_PreviousOutPoint ti) s w (ti_Sequence ti) :: rest)
  | _, _ => mret []
  end.

Definition tx_scripts_in (l : list TxIn) : list bytes :=
  concat (map (fun ti => ti_SignatureScript ti :: witness ti) l).

(** The loops over the inputs and the outputs, with [totalScriptSize] the sum
    the read loops have accumulated. *)
Definition repack (ins : list TxIn) (outs : list TxOut) (totalScriptSize : Z) :
    outcome wireerr (list TxIn * list TxOut) :=
  let '(r, (scripts, _)) :=
    (vi ← pack_ins ins; vo ← pack_all (map to_PkScript outs); mret (vi, vo))
      (repeat (to_byte 0) (Z.to_nat totalScriptSize), 0) in
  '(vi, vo) ← r;
  ins' ← view_ins scripts ins vi;
  pks ← views scripts vo;
  mret (ins', zip_with (fun o pk => mkTxOut (to_Value o) pk) outs pks).

Definition sum_len (l : list bytes) : Z := foldr (fun s n => len s + n) 0 l.

(** ** The whole transaction *)

(** [if b, err := m(r); err != nil || ...]: the error is turned into [None]. *)
Definition try_read {A} (m : Rd A) : Rd (option A) := fun r =>
  match m r with
  | (Ret a, r') => (Ret (Some a), r')
  | (Throw _, r') => (Ret None, r')
  | (Panic, r') => (Panic, r')
  end.

Definition EptfMagic : Z := 0x46545045.

(** The version, behind the magic of the EPTF format if it is there: whether
    it is, the encoding, the version. *)
Definition decode_version (enc : Z) : Rd (bool * Z * Z) :=
  version ← Uint32;
  if version =? EptfMagic then
    let enc := enc ||| WitnessEncoding in
    b ← try_read Uint8;
    if negb (bool_decide (b = Some 0xff)) then mthrow ErrMessage else
    b ← try_read Uint8;
    if negb (bool_decide (b = Some 0x00)) then mthrow ErrMessage else
    v ← Uint32;
    mret (true, enc, v)
  else mret (false, enc, version).

(** The witness flag and the number of inputs. *)
Definition decode_count (eptf : bool) (enc : Z) : Rd (Z * Z) :=
  count ← ReadVarInt;
  if (count =? 0) && (enc =? WitnessEncoding) then
    flag ← Uint8;
    if negb (flag =? 0x01) then mthrow ErrMessage
    else count ← ReadVarInt; mret (flag, count)
  else if eptf then mthrow ErrMessage
  else mret (0, count).

(** The inputs, the outputs, the witnesses, the lock time and the repacking of
    the scripts. *)
Definition decode_body (msg : MsgTx) (eptf : bool) (enc version flag count : Z) : Rd MsgTx :=
  if maxTxInPerMessage <? count then mthrow ErrMessage else
  insadd ← read_n (Z.to_nat count) (readTxIn eptf);
  count ← ReadVarInt;
  if maxTxOutPerMessage <? count then mthrow ErrMessage else
  outs ← read_n (Z.to_nat count) readTxOut;
  inswit ← (if negb (flag =? 0) && (enc =? WitnessEncoding) then
              read_each (map fst insadd) (read_witness eptf)
            else mret (map (fun p => (fst p, None)) insadd));
  lockTime ← Uint32;
  let totalScriptSize :=
    uint64 (sum_len (tx_scripts_in (map fst inswit)) + sum_len (map to_PkScript outs)) in
  '(ins, outs) ← lift (repack (map fst inswit) outs totalScriptSize);
  mret (mkMsgTx (int32 version) ins outs lockTime
         (if eptf then zip_with (fun p q => mkAdditional (snd p) (snd q)) insadd inswit
          else tx_Additional msg)).

(** [msg] is the receiver; of its old contents only [Additional] can survive.
    The result is the decoded transaction. *)
Definition BtcDecode (msg : MsgTx) (enc : Z) : Rd MsgTx :=
  '(eptf, enc, version) ← decode_version enc;
  '(flag, count) ← decode_count eptf enc;
  decode_body msg eptf enc version flag count.

Definition Deserialize (msg : MsgTx) : Rd MsgTx := BtcDecode msg WitnessEncoding.
Definition DeserializeNoWitness (msg : MsgTx) : Rd MsgTx := BtcDecode msg BaseEncoding.

(** * Sizes, hashes, script offsets, copies *)

Definition TxIn_SerializeSize (t : TxIn) : Z :=
  40 + VarIntSerializeSize (uint64 (len (ti_SignatureScript t))) + len (ti_SignatureScript t).

Definition TxWitness_SerializeSize (t : list bytes) : Z :=
  foldl (fun n witItem => n + VarIntSerializeSize (uint64 (len witItem)) + len witItem)
    (VarIntSerializeSize (uint64 (len t))) t.

Definition TxOut_SerializeSize (t : TxOut) : Z :=
  8 + VarIntSerializeSize (uint64 (len (to_PkScript t))) + len (to_PkScript t).

Definition baseSize (msg : MsgTx) : Z :=
  let n := 8 + VarIntSerializeSize (uint64 (len (tx_TxIn msg))) +
           VarIntSerializeSize (uint64 (len (tx_TxOut msg))) in
  let n := foldl (fun n txIn => n + TxIn_SerializeSize txIn) n (tx_TxIn msg) in
  foldl (fun n txOut => n + TxOut_SerializeSize txOut) n (tx_TxOut msg).

Definition SerializeSize (msg : MsgTx) : Z :=
  let n := baseSize msg in
  if HasWitness msg then
    foldl (fun n txin => n + TxWitness_SerializeSize (witness txin)) (n + 2) (tx_TxIn msg)
  else n.

Definition SerializeSizeStripped (msg : MsgTx) : Z := baseSize msg.

(** The bytes a writer leaves in a fresh buffer; a returned error is ignored. *)
Definition buffer_of (m : Wr) : bytes := snd (m []).

Definition TxHash (msg : MsgTx) : bytes := DoubleHashB (buffer_of (SerializeNoWitness msg)).

Definition WitnessHash (msg : MsgTx) : bytes :=
  if HasWitness msg then DoubleHashB (buffer_of (Serialize msg)) else TxHash msg.

(** The offsets accumulated by the last loop of [PkScriptLocs]. *)
Fixpoint pkScriptLocs_loop (n : Z) (outs : list TxOut) : list Z :=
  match outs with
  | [] => []
  | txOut :: outs' =>
    let n := n + 8 + VarIntSerializeSize (uint64 (len (to_PkScript txOut))) in
    n :: pkScriptLocs_loop (n + len (to_PkScript txOut)) outs'
  end.

Definition PkScriptLocs (msg : MsgTx) : list Z :=
  if len (tx_TxOut msg) =? 0 then []
  else
    let n := 4 + VarIntSerializeSize (uint64 (len (tx_TxIn msg))) +
             VarIntSerializeSize (uint64 (len (tx_TxOut msg))) in
    let n := match tx_TxIn msg with
             | ti :: _ => if ti_Witness ti is Some _ then n + 2 else n
             | [] => n
             end in
    let n := foldl (fun n txIn => n + TxIn_SerializeSize txIn) n (tx_TxIn msg) in
    pkScriptLocs_loop n (tx_TxOut msg).

(** The deep copy: [Additional] is not copied, and an empty witness becomes
    nil. *)
Definition copy_txin (oldTxIn : TxIn) : TxIn :=
  mkTxIn (ti_PreviousOutPoint oldTxIn) (ti_SignatureScript oldTxIn)
    (if negb (len (witness oldTxIn) =? 0) then Some (witness oldTxIn) else None)
    (ti_Sequence oldTxIn).

Definition Copy (msg : MsgTx) : MsgTx :=
  mkMsgTx (tx_Version msg) (map copy_txin (tx_TxIn msg)) (tx_TxOut msg) (tx_LockTime msg) [].
