(* ===== verification/MsgTxProps.v ===== *)
(** Proofs about the transaction encoding of MsgTx.v: what the encoder writes,
    that the decoder reads it back in all three formats, that sizes are exact,
    and that the base encoding is canonical. *)

From S2P Require Import Prelude TxScriptErr Params Opcode ParseScript ScriptBuilder Sha Wire MsgTx.

(** * Well-formed transactions *)

(** The ranges of the Go types, and the limits the decoder enforces. *)
Record outpoint_wf (op : OutPoint) : Prop :=
  { opwf_hash : len (op_Hash op) = 32; opwf_index : 0 <= op_Index op < 2 ^ 32 }.

Record txin_wf (ti : TxIn) : Prop :=
  { tiwf_prev : outpoint_wf (ti_PreviousOutPoint ti);
    tiwf_sig : len (ti_SignatureScript ti) <= MaxMessagePayload;
    tiwf_seq : 0 <= ti_Sequence ti < 2 ^ 32;
    tiwf_count : len (witness ti) <= maxWitnessItemsPerInput;
    tiwf_items : Forall (fun item => len item <= maxWitnessItemSize) (witness ti) }.

Record txout_wf (o : TxOut) : Prop :=
  { towf_value : - 2 ^ 63 <= to_Value o < 2 ^ 63;
    towf_pk : len (to_PkScript o) <= MaxMessagePayload }.

Record tx_wf (tx : MsgTx) : Prop :=
  { txwf_version : - 2 ^ 31 <= tx_Version tx < 2 ^ 31;
    txwf_ins : Forall txin_wf (tx_TxIn tx);
    txwf_nins : len (tx_TxIn tx) <= maxTxInPerMessage;
    txwf_outs : Forall txout_wf (tx_TxOut tx);
    txwf_nouts : len (tx_TxOut tx) <= maxTxOutPerMessage;
    txwf_lock : 0 <= tx_LockTime tx < 2 ^ 32 }.

(** * The bytes of a transaction *)

Definition vb (s : bytes) : bytes := varint (len s) ++ s.
Definition outpoint_bytes (op : OutPoint) : bytes := op_Hash op ++ le_split 4 (op_Index op).
Definition txin_bytes (ti : TxIn) : bytes :=
  outpoint_bytes (ti_PreviousOutPoint ti) ++ vb (ti_SignatureScript ti) ++ le_split 4 (ti_Sequence ti).
Definition txout_bytes (o : TxOut) : bytes := le_split 8 (uint64 (to_Value o)) ++ vb (to_PkScript o).
Definition wit_bytes (w : list bytes) : bytes := varint (len w) ++ concat (map vb w).

Definition inputs_bytes (ins : list TxIn) : bytes := varint (len ins) ++ concat (map txin_bytes ins).
Definition outputs_bytes (outs : list TxOut) : bytes := varint (len outs) ++ concat (map txout_bytes outs).
Definition version_bytes (v : Z) : bytes := le_split 4 (uint32 v).

Definition base_bytes (tx : MsgTx) : bytes :=
  version_bytes (tx_Version tx) ++ inputs_bytes (tx_TxIn tx) ++ outputs_bytes (tx_TxOut tx) ++
  le_split 4 (tx_LockTime tx).

Definition witness_bytes (tx : MsgTx) : bytes :=
  version_bytes (tx_Version tx) ++ witessMarkerBytes ++ inputs_bytes (tx_TxIn tx) ++
  outputs_bytes (tx_TxOut tx) ++ concat (map (fun ti => wit_bytes (witness ti)) (tx_TxIn tx)) ++
  le_split 4 (tx_LockTime tx).

(** * What the encoder writes *)

Lemma writes_for_each {A} (l : list A) (body : A -> Wr) (f : A -> bytes) :
  Forall (fun a => writes (body a) (f a)) l -> writes (for_each l body) (concat (map f l)).
Proof.
  induction 1 as [|a l Ha Hl IH]; simpl; [apply writes_ret|]. by apply writes_bind.
Qed.

Lemma writes_if (c : bool) (m1 m2 : Wr) b1 b2 :
  (c = true -> writes m1 b1) -> (c = false -> writes m2 b2) ->
  writes (if c then m1 else m2) (if c then b1 else b2).
Proof. destruct c; auto. Qed.

(** A bind whose first part writes and returns a value. *)
Lemma writes_bind_val {A} (m : St wireerr bytes A) (f : A -> Wr) a b1 b2 :
  (forall w, m w = (Ret a, w ++ b1)) -> writes (f a) b2 -> writes (m ≫= f) (b1 ++ b2).
Proof. intros H1 H2 w. rewrite (bind_Ret _ _ _ a (w ++ b1)) by apply H1. by rewrite H2, app_assoc. Qed.

Lemma writes_count {A} (l : list A) n : len l <= n -> n < 2 ^ 64 -> writes (WriteVarInt (uint64 (len l))) (varint (len l)).
Proof. intros. pose proof (len_nonneg l). rewrite uwrap_small by lia. apply writes_VarInt. lia. Qed.

Lemma writes_vb s n : len s <= n -> n < 2 ^ 64 -> writes (WriteVarBytes s) (vb s).
Proof. intros. apply writes_WriteVarBytes. lia. Qed.

Lemma writes_txout o : txout_wf o -> writes (WriteTxOut o) (txout_bytes o).
Proof.
  intros [Hv Hp]. apply writes_bind; [apply writes_Write|].
  by apply (writes_vb _ MaxMessagePayload).
Qed.

Lemma writes_outpoint op : writes (writeOutPoint op) (outpoint_bytes op).
Proof. by apply writes_bind. Qed.

Lemma writes_txin_plain ti add : txin_wf ti -> writes (write_txin false ti add) (txin_bytes ti).
Proof.
  intros [Hp Hs _ _ _]. apply writes_bind; [apply writes_outpoint|].
  apply writes_bind; [|apply writes_Write]. by apply (writes_vb _ MaxMessagePayload).
Qed.

Lemma writes_wit w :
  len w <= maxWitnessItemsPerInput -> Forall (fun i => len i <= maxWitnessItemSize) w ->
  writes (writeTxWitness w (-1)) (wit_bytes w).
Proof.
  intros Hc Hi. unfold writeTxWitness, wit_bytes. simpl.
  apply (writes_bind _ _ [] (varint (len w) ++ concat (map vb w))); [apply writes_ret|].
  apply writes_bind; [by apply (writes_count _ maxWitnessItemsPerInput)|].
  apply writes_for_each. eapply Forall_impl; [|exact Hi]. simpl. intros i Hl.
  by apply (writes_vb _ maxWitnessItemSize).
Qed.

Lemma with_additional_fst ins adds : map fst (with_additional ins adds) = ins.
Proof. revert adds. induction ins as [|ti ins IH]; intros adds; simpl; [done|]. by rewrite IH. Qed.

Lemma writes_with_additional (body : TxIn * option TxInAdditional -> Wr) (f : TxIn -> bytes) ins adds :
  (forall ti add, txin_wf ti -> writes (body (ti, add)) (f ti)) -> Forall txin_wf ins ->
  writes (for_each (with_additional ins adds) body) (concat (map f ins)).
Proof.
  intros Hb Hf. revert adds. induction Hf as [|ti ins Hti Hf IH]; intros adds; simpl; [apply writes_ret|].
  apply writes_bind; [by apply Hb|apply IH].
Qed.

Lemma witness_wf ti : txin_wf ti -> writes (write_witness false ti None) (wit_bytes (witness ti)).
Proof. intros [_ _ _ Hc Hi]. by apply writes_wit. Qed.

(** The encoder without the EPTF format. *)
Lemma writes_BtcEncode_plain tx enc :
  tx_wf tx -> enc = BaseEncoding \/ enc = WitnessEncoding ->
  writes (BtcEncode tx enc)
    (if (enc =? WitnessEncoding) && HasWitness tx then witness_bytes tx else base_bytes tx).
Proof.
  intros [Hv Hi Hni Ho Hno Hl] Henc. unfold BtcEncode.
  assert (enc &&& EptfEncoding = 0 /\ enc &&& ForceEptfEncoding = 0) as [-> ->] by (by destruct Henc as [->| ->]).
  rewrite Z.eqb_refl. cbn [negb andb].
  apply (writes_bind_val (mret false) _ false []); [intros w; by rewrite app_nil_r|].
  rewrite orb_false_r.
  set (doWitness := (enc =? WitnessEncoding) && HasWitness tx).
  replace (if doWitness then witness_bytes tx else base_bytes tx) with
    (version_bytes (tx_Version tx) ++ (if doWitness then witessMarkerBytes else []) ++
     varint (len (tx_TxIn tx)) ++ concat (map txin_bytes (tx_TxIn tx)) ++
     varint (len (tx_TxOut tx)) ++ concat (map txout_bytes (tx_TxOut tx)) ++
     (if doWitness then concat (map (fun ti => wit_bytes (witness ti)) (tx_TxIn tx)) else []) ++
     le_split 4 (tx_LockTime tx)).
  2: { unfold witness_bytes, base_bytes, inputs_bytes, outputs_bytes. by destruct doWitness; rewrite <- ?app_assoc. }
  apply writes_bind; [apply writes_Write|].
  apply writes_bind; [apply writes_if; [intros _; apply writes_Write|intros _; apply writes_ret]|].
  apply writes_bind; [by apply (writes_count _ maxTxInPerMessage)|].
  apply writes_bind; [apply writes_with_additional; [|done]; intros; by apply writes_txin_plain|].
  apply writes_bind; [by apply (writes_count _ maxTxOutPerMessage)|].
  apply writes_bind; [apply writes_for_each; eapply Forall_impl; [|exact Ho]; apply writes_txout|].
  apply writes_bind; [|apply writes_Write].
  apply writes_if; intros _; [|apply writes_ret].
  apply writes_with_additional; [|done]. intros ti add [_ _ _ Hc Hit]. by apply writes_wit.
Qed.

(** * The contiguous script buffer changes nothing *)

Lemma sum_len_concat l : sum_len l = len (concat l).
Proof. induction l as [|s l IH]; simpl; [done|]. rewrite len_app. lia. Qed.

(** Copying one script: the buffer is split into the part filled so far and the
    part that is left. *)
Lemma pack_spec done_ s tail :
  len s <= len tail -> len done_ + len s < 2 ^ 64 ->
  pack s (done_ ++ tail, len done_) =
  (Ret (len done_, len done_ + len s),
   (done_ ++ s ++ drop (length s) tail, len done_ + len s)).
Proof.
  intros Hs Hb. unfold pack. pose proof (len_nonneg done_). pose proof (len_nonneg s).
  unfold mbind, St_bind, gets. simpl.
  destruct (Z.ltb_spec (len done_) 0), (Z.ltb_spec (len (done_ ++ tail)) (len done_)); try len_lia. simpl.
  rewrite uwrap_small by lia.
  replace (Z.min (len s) (len (done_ ++ tail) - len done_)) with (len s) by len_lia.
  replace (Z.to_nat (len s)) with (length s) by (unfold len; lia).
  replace (Z.to_nat (len done_)) with (length done_) by (unfold len; lia).
  replace (Z.to_nat (len done_ + len s)) with (length done_ + length s)%nat by (unfold len; lia).
  rewrite take_app_length, take_ge, drop_app_add by lia.
  destruct (Z.ltb_spec (len done_ + len s) (len done_)); [lia|].
  destruct (Z.ltb_spec (len (done_ ++ s ++ drop (length s) tail)) (len done_ + len s)); [|done].
  autorewrite with len in *. pose proof (len_nonneg (drop (length s) tail)). lia.
Qed.

Lemma len_drop {A} (l : list A) (k : nat) : Z.of_nat k <= len l -> len (drop k l) = len l - Z.of_nat k.
Proof. unfold len. rewrite length_drop. lia. Qed.

Lemma view_spec done_ s rest : view (done_ ++ s ++ rest) (len done_, len done_ + len s) = Ret s.
Proof. unfold view. simpl. by rewrite slice_seam. Qed.

(** [packs m l Q]: [m] copies the scripts [l] to the end of the filled part of
    the buffer, and [Q] holds of its result in any later buffer that keeps
    them. *)
Definition packs {V} (m : Pk V) (l : list bytes) (Q : bytes -> V -> Prop) : Prop :=
  forall done_ tail, len (concat l) <= len tail -> len done_ + len (concat l) < 2 ^ 64 ->
  exists v tail', m (done_ ++ tail, len done_) =
      (Ret v, ((done_ ++ concat l) ++ tail', len (done_ ++ concat l))) /\
    len tail' = len tail - len (concat l) /\
    forall rest, Q ((done_ ++ concat l) ++ rest) v.

Lemma packs_pack s : packs (pack s) [s] (fun buf v => view buf v = Ret s).
Proof.
  intros done_ tail Hl Hb. cbn [concat] in *. rewrite app_nil_r in *.
  exists (len done_, len done_ + len s), (drop (length s) tail).
  rewrite pack_spec by done. rewrite app_assoc, len_app.
  split; [done|]. split; [rewrite len_drop; unfold len in *; lia|].
  intros rest. rewrite <- app_assoc. apply view_spec.
Qed.

Lemma packs_ret {V} (v : V) (Q : bytes -> V -> Prop) : (forall buf, Q buf v) -> packs (mret v) [] Q.
Proof.
  intros H done_ tail Hl Hb. exists v, tail. cbn [concat] in *. rewrite !app_nil_r.
  split; [done|]. split; [len_lia|]. intros rest. apply H.
Qed.

Lemma packs_bind {V W} (m : Pk V) (k : V -> Pk W) l1 l2 Q1 Q :
  packs m l1 Q1 -> (forall v, packs (k v) l2 (fun buf w => Q1 buf v -> Q buf w)) ->
  packs (m ≫= k) (l1 ++ l2) Q.
Proof.
  intros H1 H2 done_ tail Hl Hb. rewrite concat_app, len_app in Hl, Hb.
  pose proof (len_nonneg (concat l1)). pose proof (len_nonneg (concat l2)).
  destruct (H1 done_ tail) as (v & t1 & E1 & Ht1 & V1); [lia..|].
  destruct (H2 v (done_ ++ concat l1) t1) as (w & t2 & E2 & Ht2 & V2); [len_lia..|].
  exists w, t2. rewrite (bind_Ret _ _ _ _ _ E1), E2.
  rewrite concat_app, !app_assoc. split; [done|]. split; [len_lia|].
  intros rest. apply V2. rewrite <- (app_assoc _ (concat l2)). apply V1.
Qed.

(** The last step of a sequence, which copies nothing. *)
Lemma packs_bind_ret {V W} (m : Pk V) (f : V -> W) l Q1 Q :
  packs m l Q1 -> (forall buf v, Q1 buf v -> Q buf (f v)) -> packs (v ← m; mret (f v)) l Q.
Proof.
  intros Hm HQ. rewrite <- (app_nil_r l). eapply packs_bind; [exact Hm|].
  intros v. apply packs_ret. auto.
Qed.

Lemma packs_all l : packs (pack_all l) l (fun buf vs => views buf vs = Ret l).
Proof.
  induction l as [|s l IH]; simpl; [by apply packs_ret|].
  apply (packs_bind _ _ [s] l _ _ (packs_pack s)). intros v.
  eapply packs_bind_ret; [exact IH|]. intros buf vs H2 H1. simpl. by rewrite H1, H2.
Qed.

Lemma packs_ins ins :
  packs (pack_ins ins) (tx_scripts_in ins) (fun buf vs => view_ins buf ins vs = Ret ins).
Proof.
  unfold tx_scripts_in. induction ins as [|ti ins IH]; simpl; [by apply packs_ret|].
  apply (packs_bind _ _ [ti_SignatureScript ti] _ _ _ (packs_pack _)). intros v.
  apply (packs_bind _ _ (witness ti) _ (fun buf ws =>
    match ws with None => mret None | Some w => x ← views buf w; mret (Some x) end = Ret (ti_Witness ti))).
  { unfold witness. destruct (ti_Witness ti) as [w|]; [|by apply packs_ret].
    eapply packs_bind_ret; [apply packs_all|]. intros buf vs H. by rewrite H. }
  intros ws. eapply packs_bind_ret; [exact IH|]. intros buf vs H3 H2 H1. simpl.
  rewrite H1. simpl. rewrite H2. simpl. rewrite H3. by destruct ti.
Qed.

Lemma repack_id ins outs total :
  total = len (concat (tx_scripts_in ins)) + len (concat (map to_PkScript outs)) ->
  total < 2 ^ 64 -> repack ins outs total = Ret (ins, outs).
Proof.
  intros -> Ht. unfold repack. set (total := _ + _) in *.
  assert (packs (vi ← pack_ins ins; vo ← pack_all (map to_PkScript outs); mret (vi, vo))
    (tx_scripts_in ins ++ map to_PkScript outs)
    (fun buf v => view_ins buf ins v.1 = Ret ins /\ views buf v.2 = Ret (map to_PkScript outs))) as H.
  { eapply packs_bind; [apply packs_ins|]. intros vi. eapply packs_bind_ret; [apply packs_all|]. done. }
  destruct (H [] (repeat (to_byte 0) (Z.to_nat total))) as ([vi vo] & t & E & _ & V).
  { rewrite concat_app, len_app. unfold len at 3. rewrite repeat_length. subst total. len_lia. }
  { rewrite concat_app, len_app. simpl. subst total. len_lia. }
  change (len []) with 0 in E. cbn [app] in E. rewrite E. simpl.
  destruct (V t) as [V1 V2]. simpl in V1, V2. rewrite V1. simpl. rewrite V2. simpl. do 2 f_equal.
  clear. induction outs as [|o outs IH]; simpl; [done|]. rewrite IH. by destruct o.
Qed.

(** ** The size of the buffer *)

Definition max_input_scripts : Z := MaxMessagePayload + maxWitnessItemSize * maxWitnessItemsPerInput.

Lemma concat_len_bound {A} (l : list (list A)) M :
  0 <= M -> Forall (fun s => len s <= M) l -> len (concat l) <= M * len l.
Proof.
  intros HM. induction 1 as [|s l Hs Hl IH]; simpl; [len_lia|]. rewrite len_app, len_cons. lia.
Qed.

Lemma scripts_in_bound ins :
  Forall txin_wf ins -> len (concat (tx_scripts_in ins)) <= max_input_scripts * len ins.
Proof.
  unfold tx_scripts_in. induction 1 as [|ti ins Hti Hl IH]; simpl; [len_lia|].
  destruct Hti as [_ Hs _ Hc Hi]. rewrite concat_app, !len_app, len_cons.
  pose proof (concat_len_bound (witness ti) maxWitnessItemSize ltac:(done) Hi).
  unfold max_input_scripts, maxWitnessItemSize, maxWitnessItemsPerInput in *. lia.
Qed.

Lemma scripts_out_bound outs :
  Forall txout_wf outs -> len (concat (map to_PkScript outs)) <= MaxMessagePayload * len outs.
Proof.
  induction 1 as [|o outs [_ Ho] Hl IH]; simpl; [len_lia|]. rewrite len_app, len_cons. lia.
Qed.

Lemma total_bound ins outs :
  Forall txin_wf ins -> len ins <= maxTxInPerMessage ->
  Forall txout_wf outs -> len outs <= maxTxOutPerMessage ->
  len (concat (tx_scripts_in ins)) + len (concat (map to_PkScript outs)) < 2 ^ 64.
Proof.
  intros Hi Hni Ho Hno. pose proof (scripts_in_bound ins Hi). pose proof (scripts_out_bound outs Ho).
  assert (maxTxInPerMessage = 818401) as E1 by done. assert (maxTxOutPerMessage = 3728271) as E2 by done.
  unfold max_input_scripts, MaxMessagePayload, maxWitnessItemSize, maxWitnessItemsPerInput in *. lia.
Qed.

Lemma repack_wf ins outs :
  Forall txin_wf ins -> len ins <= maxTxInPerMessage ->
  Forall txout_wf outs -> len outs <= maxTxOutPerMessage ->
  repack ins outs (uint64 (sum_len (tx_scripts_in ins) + sum_len (map to_PkScript outs))) = Ret (ins, outs).
Proof.
  intros. rewrite !sum_len_concat. pose proof (len_nonneg (concat (tx_scripts_in ins))).
  pose proof (len_nonneg (concat (map to_PkScript outs))).
  pose proof (total_bound ins outs). rewrite uwrap_small by lia. apply repack_id; [done|lia].
Qed.

(** * The decoder reads what the encoder writes *)

Lemma reads_read_n {A} (m : Rd A) (f : A -> bytes) l :
  Forall (fun a => reads m (f a) a) l -> reads (read_n (length l) m) (concat (map f l)) l.
Proof.
  induction 1 as [|a l Ha Hl IH]; simpl; [apply reads_ret|].
  eapply reads_bind; [exact Ha|]. eapply reads_bind_last; [exact IH|]. apply reads_ret.
Qed.

Lemma reads_read_n' {A B} (m : Rd B) (f : A -> bytes) (g : A -> B) l :
  Forall (fun a => reads m (f a) (g a)) l -> reads (read_n (length l) m) (concat (map f l)) (map g l).
Proof.
  induction 1 as [|a l Ha Hl IH]; simpl; [apply reads_ret|].
  eapply reads_bind; [exact Ha|]. eapply reads_bind_last; [exact IH|]. apply reads_ret.
Qed.

Lemma reads_read_each {A B C} (m : B -> Rd C) (f : A -> bytes) (g : A -> B) (h : A -> C) l :
  Forall (fun a => reads (m (g a)) (f a) (h a)) l ->
  reads (read_each (map g l) m) (concat (map f l)) (map h l).
Proof.
  induction 1 as [|a l Ha Hl IH]; simpl; [apply reads_ret|].
  eapply reads_bind; [exact Ha|]. eapply reads_bind_last; [exact IH|]. apply reads_ret.
Qed.

Lemma reads_script s n : len s <= n -> n < 2 ^ 64 -> reads (readScript n) (vb s) s.
Proof. intros. apply reads_ReadVarBytes; lia. Qed.

Lemma reads_outpoint op : outpoint_wf op -> reads readOutPoint (outpoint_bytes op) op.
Proof.
  intros [Hh Hi]. unfold readOutPoint, outpoint_bytes. change HashSize with 32. rewrite <- Hh.
  eapply reads_bind; [apply reads_ReadFull|].
  eapply reads_bind_last; [apply (reads_UintN 4); lia|]. destruct op. apply reads_ret.
Qed.

(** An input without its witness, which is stored apart. *)
Definition strip_witness (ti : TxIn) : TxIn :=
  mkTxIn (ti_PreviousOutPoint ti) (ti_SignatureScript ti) None (ti_Sequence ti).

Lemma reads_txin ti : txin_wf ti -> reads (readTxIn false) (txin_bytes ti) (strip_witness ti, []).
Proof.
  intros [Hp Hs Hq _ _]. unfold readTxIn, txin_bytes.
  eapply reads_bind; [by apply reads_outpoint|].
  eapply reads_bind; [by apply reads_script|].
  apply (reads_bind _ _ [] _ None); [done|].
  eapply reads_bind_last; [apply (reads_UintN 4); lia|]. apply reads_ret.
Qed.

Lemma int64_uint64 v : - 2 ^ 63 <= v < 2 ^ 63 -> int64 (uint64 v) = v.
Proof. intros Hv. unfold swrap, uwrap. lia. Qed.

Lemma int32_uint32 v : - 2 ^ 31 <= v < 2 ^ 31 -> int32 (uint32 v) = v.
Proof. intros Hv. unfold swrap, uwrap. lia. Qed.

Lemma reads_txout o : txout_wf o -> reads readTxOut (txout_bytes o) o.
Proof.
  intros [Hv Hp]. unfold readTxOut, txout_bytes.
  eapply reads_bind; [apply (reads_UintN 8), uwrap_range; lia|].
  eapply reads_bind_last; [by apply reads_script|]. rewrite int64_uint64 by done.
  destruct o. apply reads_ret.
Qed.

Lemma reads_items w :
  Forall (fun i => len i <= maxWitnessItemSize) w ->
  reads (read_n (length w) (readScript maxWitnessItemSize)) (concat (map vb w)) w.
Proof.
  intros Hw. apply reads_read_n. eapply Forall_impl; [|exact Hw]. intros i Hi. by apply reads_script.
Qed.

(** An input with its witness as a slice that is not nil. *)
Definition fill_witness (ti : TxIn) : TxIn :=
  mkTxIn (ti_PreviousOutPoint ti) (ti_SignatureScript ti) (Some (witness ti)) (ti_Sequence ti).

Lemma reads_witness ti :
  txin_wf ti ->
  reads (read_witness false (strip_witness ti)) (wit_bytes (witness ti)) (fill_witness ti, None).
Proof.
  intros [_ _ _ Hc Hi]. unfold read_witness, wit_bytes. pose proof (len_nonneg (witness ti)).
  unfold maxWitnessItemsPerInput in *.
  eapply reads_bind; [apply reads_VarInt; lia|]. cbn [andb].
  apply (reads_bind _ _ [] _ (len (witness ti), None)); [done|]. cbv beta iota.
  destruct (Z.ltb_spec 500000 (len (witness ti))); [lia|].
  replace (Z.to_nat (len (witness ti))) with (length (witness ti)) by (unfold len; lia).
  eapply reads_bind_last; [by apply reads_items|]. apply reads_ret.
Qed.

Lemma strip_witness_wf ti : txin_wf ti -> txin_wf (strip_witness ti).
Proof. intros [? ? ? _ _]. split; [done..| |]; simpl; [done|constructor]. Qed.

Lemma fill_witness_wf ti : txin_wf ti -> txin_wf (fill_witness ti).
Proof. by intros []. Qed.

Lemma reads_version v : reads Uint32 (version_bytes v) (uint32 v).
Proof. apply (reads_UintN 4), uwrap_range. lia. Qed.

Lemma to_nat_len {A} (l : list A) : Z.to_nat (len l) = length l.
Proof. unfold len. lia. Qed.

Lemma reads_outputs {A} outs (f : list TxOut -> Rd A) b a :
  Forall txout_wf outs -> len outs <= maxTxOutPerMessage -> reads (f outs) b a ->
  reads (count ← ReadVarInt;
         if maxTxOutPerMessage <? count then mthrow ErrMessage else
         outs ← read_n (Z.to_nat count) readTxOut; f outs) (outputs_bytes outs ++ b) a.
Proof.
  intros Ho Hno Hf. unfold outputs_bytes. rewrite <- app_assoc. pose proof (len_nonneg outs).
  assert (maxTxOutPerMessage = 3728271) as E by done.
  eapply reads_bind; [apply reads_VarInt; lia|]. rewrite E in *.
  destruct (Z.ltb_spec 3728271 (len outs)); [lia|]. rewrite to_nat_len.
  eapply reads_bind; [|exact Hf]. apply reads_read_n. eapply Forall_impl; [|exact Ho]. apply reads_txout.
Qed.

(** The decoder after the header, from what the parts of the stream contain. *)
Lemma reads_body msg enc eptf enc' version flag insadd inswit outs l b0 b1 b2 b3 :
  reads (decode_version enc) b0 (eptf, enc', version) ->
  reads (decode_count eptf enc') b1 (flag, len insadd) ->
  reads (read_n (length insadd) (readTxIn eptf)) b2 insadd ->
  reads (if negb (flag =? 0) && (enc' =? WitnessEncoding) then
           read_each (map fst insadd) (read_witness eptf)
         else mret (map (fun p => (fst p, None)) insadd)) b3 inswit ->
  Forall txin_wf (map fst inswit) -> length inswit = length insadd -> len insadd <= maxTxInPerMessage ->
  Forall txout_wf outs -> len outs <= maxTxOutPerMessage -> 0 <= l < 2 ^ 32 ->
  reads (BtcDecode msg enc) (b0 ++ b1 ++ b2 ++ outputs_bytes outs ++ b3 ++ le_split 4 l)
    (mkMsgTx (int32 version) (map fst inswit) outs l
       (if eptf then zip_with (fun p q => mkAdditional (snd p) (snd q)) insadd inswit
        else tx_Additional msg)).
Proof.
  intros H0 H1 H2 H3 Hi Hn Hni Ho Hno Hl. unfold BtcDecode.
  eapply reads_bind; [exact H0|]. cbv beta iota. eapply reads_bind; [exact H1|]. cbv beta iota. unfold decode_body.
  destruct (Z.ltb_spec maxTxInPerMessage (len insadd)); [lia|]. rewrite to_nat_len.
  eapply reads_bind; [exact H2|]. cbv beta.
  eapply (reads_outputs outs); [done..|].
  eapply reads_bind; [exact H3|]. cbv beta.
  eapply reads_bind_last; [apply (reads_UintN 4); lia|].
  rewrite repack_wf; [done|done| |done|done]. unfold len in *. rewrite length_map. lia.
Qed.

Lemma reads_version_plain v enc :
  uint32 v <> EptfMagic -> reads (decode_version enc) (version_bytes v) (false, enc, uint32 v).
Proof.
  intros Hv. eapply reads_bind_last; [apply reads_version|].
  destruct (Z.eqb_spec (uint32 v) EptfMagic); [done|apply reads_ret].
Qed.

Lemma reads_count_plain n enc :
  0 <= n < 2 ^ 64 -> n <> 0 \/ enc <> WitnessEncoding -> reads (decode_count false enc) (varint n) (0, n).
Proof.
  intros Hn Hne. eapply reads_bind_last; [by apply reads_VarInt|].
  destruct (Z.eqb_spec n 0), (Z.eqb_spec enc WitnessEncoding); try (apply reads_ret). by destruct Hne.
Qed.

Lemma reads_count_marker n eptf :
  0 <= n < 2 ^ 64 ->
  reads (decode_count eptf WitnessEncoding) (witessMarkerBytes ++ varint n) (1, n).
Proof.
  intros Hn. change witessMarkerBytes with (varint 0 ++ le_split 1 1). rewrite <- app_assoc.
  eapply reads_bind; [by apply reads_VarInt|]. eval_ztests. cbn [andb].
  eapply reads_bind; [by apply (reads_UintN 1)|]. eval_ztests. cbn [negb].
  eapply reads_bind_last; [by apply reads_VarInt|]. apply reads_ret.
Qed.

Lemma reads_ins_plain ins :
  Forall txin_wf ins ->
  reads (read_n (length (map (fun ti => (strip_witness ti, [] : bytes)) ins)) (readTxIn false))
    (concat (map txin_bytes ins)) (map (fun ti => (strip_witness ti, [])) ins).
Proof.
  intros Hi. rewrite length_map. apply reads_read_n'. eapply Forall_impl; [|exact Hi]. apply reads_txin.
Qed.

Lemma reads_base tx msg enc :
  tx_wf tx -> uint32 (tx_Version tx) <> EptfMagic -> tx_TxIn tx <> [] \/ enc <> WitnessEncoding ->
  reads (BtcDecode msg enc) (base_bytes tx)
    (mkMsgTx (tx_Version tx) (map strip_witness (tx_TxIn tx)) (tx_TxOut tx) (tx_LockTime tx)
       (tx_Additional msg)).
Proof.
  intros [Hv Hi Hni Ho Hno Hl] Hm Hne. unfold base_bytes, inputs_bytes. rewrite <- (app_assoc (varint _)).
  rewrite <- (int32_uint32 (tx_Version tx)) at 2 by done.
  set (insadd := map (fun ti => (strip_witness ti, [] : bytes)) (tx_TxIn tx)).
  assert (len insadd = len (tx_TxIn tx)) as Hlen by (unfold len, insadd; by rewrite length_map).
  assert (map strip_witness (tx_TxIn tx) = map fst (map (fun p => (fst p, None : option Z)) insadd)) as ->.
  { unfold insadd. rewrite !map_map. done. }
  pose proof (len_nonneg (tx_TxIn tx)). assert (maxTxInPerMessage = 818401) as E by done.
  apply (reads_body msg enc false enc (uint32 (tx_Version tx)) 0 insadd _ (tx_TxOut tx) _ _ _ _ []);
    [by apply reads_version_plain| |by apply reads_ins_plain|apply reads_ret| | | |done..].
  - rewrite Hlen. apply reads_count_plain; [lia|]. destruct Hne as [Hne|]; [left|by right].
    intros H0%len_0. done.
  - unfold insadd. rewrite !map_map. simpl. apply Forall_map. eapply Forall_impl; [|exact Hi].
    apply strip_witness_wf.
  - by rewrite length_map.
  - lia.
Qed.

Lemma reads_wit tx msg :
  tx_wf tx -> uint32 (tx_Version tx) <> EptfMagic ->
  reads (BtcDecode msg WitnessEncoding) (witness_bytes tx)
    (mkMsgTx (tx_Version tx) (map fill_witness (tx_TxIn tx)) (tx_TxOut tx) (tx_LockTime tx)
       (tx_Additional msg)).
Proof.
  intros [Hv Hi Hni Ho Hno Hl] Hm. unfold witness_bytes, inputs_bytes.
  rewrite <- (app_assoc (varint _)), (app_assoc witessMarkerBytes).
  rewrite <- (int32_uint32 (tx_Version tx)) at 2 by done.
  set (insadd := map (fun ti => (strip_witness ti, [] : bytes)) (tx_TxIn tx)).
  set (inswit := map (fun ti => (fill_witness ti, None : option Z)) (tx_TxIn tx)).
  assert (len insadd = len (tx_TxIn tx)) as Hlen by (unfold len, insadd; by rewrite length_map).
  replace (map fill_witness (tx_TxIn tx)) with (map fst inswit) by (unfold inswit; by rewrite map_map).
  pose proof (len_nonneg (tx_TxIn tx)). assert (maxTxInPerMessage = 818401) as E by done.
  apply (reads_body msg _ false WitnessEncoding (uint32 (tx_Version tx)) 1 insadd inswit (tx_TxOut tx));
    [by apply reads_version_plain| |by apply reads_ins_plain| | | | |done..].
  - rewrite Hlen. apply reads_count_marker. lia.
  - cbn [negb andb]. eval_ztests. unfold insadd. rewrite map_map. cbn [fst].
    apply reads_read_each. eapply Forall_impl; [|exact Hi]. apply reads_witness.
  - unfold inswit. rewrite map_map. apply Forall_map. eapply Forall_impl; [|exact Hi]. apply fill_witness_wf.
  - unfold insadd, inswit. by rewrite !length_map.
  - lia.
Qed.

(** * Sizes *)

Lemma foldl_add_concat {A} (f : A -> Z) (g : A -> bytes) l n :
  Forall (fun a => f a = len (g a)) l ->
  foldl (fun n a => n + f a) n l = n + len (concat (map g l)).
Proof.
  intros H. revert n. induction H as [|a l Ha Hl IH]; intros n; simpl; [len_lia|].
  rewrite IH, len_app, Ha. lia.
Qed.

Lemma size_count {A} (l : list A) n : len l <= n -> n < 2 ^ 64 -> VarIntSerializeSize (uint64 (len l)) = len (varint (len l)).
Proof. intros. pose proof (len_nonneg l). by rewrite uwrap_small, len_varint by lia. Qed.

Lemma size_vb s n : len s <= n -> n < 2 ^ 64 -> VarIntSerializeSize (uint64 (len s)) + len s = len (vb s).
Proof. intros. unfold vb. by rewrite len_app, (size_count s n) by lia. Qed.

Lemma size_txin ti : txin_wf ti -> TxIn_SerializeSize ti = len (txin_bytes ti).
Proof.
  intros [[Hh _] Hs _ _ _]. unfold TxIn_SerializeSize, txin_bytes, outpoint_bytes.
  pose proof (size_vb _ _ Hs eq_refl). len_lia.
Qed.

Lemma size_txout o : txout_wf o -> TxOut_SerializeSize o = len (txout_bytes o).
Proof.
  intros [_ Hs]. unfold TxOut_SerializeSize, txout_bytes. pose proof (size_vb _ _ Hs eq_refl). len_lia.
Qed.

Lemma size_wit ti : txin_wf ti -> TxWitness_SerializeSize (witness ti) = len (wit_bytes (witness ti)).
Proof.
  intros [_ _ _ Hc Hi]. unfold TxWitness_SerializeSize, wit_bytes.
  rewrite (size_count _ _ Hc eq_refl), len_app.
  rewrite <- (foldl_add_concat (fun i => VarIntSerializeSize (uint64 (len i)) + len i) vb).
  - generalize (len (varint (len (witness ti)))). generalize (witness ti). clear.
    intros w. induction w as [|i w IH]; intros n; simpl; [done|]. rewrite IH. f_equal. lia.
  - eapply Forall_impl; [|exact Hi]. intros i Hl. by apply (size_vb i maxWitnessItemSize).
Qed.

Lemma size_base tx : tx_wf tx -> baseSize tx = len (base_bytes tx).
Proof.
  intros [Hv Hi Hni Ho Hno Hl]. unfold baseSize, base_bytes, inputs_bytes, outputs_bytes, version_bytes.
  rewrite (foldl_add_concat _ txin_bytes) by (eapply Forall_impl; [|exact Hi]; apply size_txin).
  rewrite (foldl_add_concat _ txout_bytes) by (eapply Forall_impl; [|exact Ho]; apply size_txout).
  rewrite (size_count _ _ Hni), (size_count _ _ Hno) by done. rewrite !len_app, !len_le_split. lia.
Qed.

Lemma size_full tx :
  tx_wf tx -> SerializeSize tx = len (if HasWitness tx then witness_bytes tx else base_bytes tx).
Proof.
  intros Hwf. unfold SerializeSize. rewrite (size_base tx Hwf). destruct (HasWitness tx); [|done].
  rewrite (foldl_add_concat _ (fun ti => wit_bytes (witness ti)))
    by (destruct Hwf as [_ Hi _ _ _ _]; eapply Forall_impl; [|exact Hi]; apply size_wit).
  unfold base_bytes, witness_bytes. rewrite !len_app. change (len witessMarkerBytes) with 2. lia.
Qed.

(** * The decoder accepts only encodings *)

Lemma inverts_read_n {A} (m : Rd A) P n :
  inverts m P ->
  inverts (read_n n m) (fun l b => length l = n /\ exists bs, b = concat bs /\ Forall2 P l bs).
Proof.
  intros Hm. induction n as [|n IH]; simpl.
  { apply inverts_ret. split; [done|]. exists []. by split. }
  eapply (inverts_bind _ _ _ (fun a l b => exists l', l = a :: l' /\ length l' = n /\ exists bs, b = concat bs /\ Forall2 P l' bs)); [exact Hm| |].
  - intros a. eapply (inverts_bind _ _ _ (fun l' l b => l = a :: l' /\ b = [])); [exact IH| |].
    + intros l'. by apply inverts_ret.
    + intros l' b1 l b2 (Hl & bs & -> & Hbs) [-> ->]. rewrite app_nil_r. eauto 6.
  - intros a b1 l b2 Ha (l' & -> & Hl & bs & -> & Hbs). split; [by simpl; rewrite Hl|].
    exists (b1 :: bs). split; [done|by constructor].
Qed.

Lemma Forall2_concat {A} (P : A -> bytes -> Prop) (f : A -> bytes) (Q : A -> Prop) l bs :
  (forall a b, P a b -> b = f a /\ Q a) -> Forall2 P l bs -> concat bs = concat (map f l) /\ Forall Q l.
Proof.
  intros H. induction 1 as [|a b l bs Hab Hl [IH1 IH2]]; simpl; [done|].
  destruct (H a b Hab) as [-> Hq]. rewrite IH1. split; [done|by constructor].
Qed.

Lemma inverts_script n : inverts (readScript n) (fun s b => b = vb s /\ len s <= n).
Proof. apply inverts_ReadVarBytes. Qed.

Lemma inverts_outpoint : inverts readOutPoint (fun op b => b = outpoint_bytes op /\ outpoint_wf op).
Proof.
  unfold readOutPoint. eapply (inverts_bind _ _ _ (fun h op b =>
    b = le_split 4 (op_Index op) /\ op_Hash op = h /\ 0 <= op_Index op < 2 ^ 32)); [by apply inverts_ReadFull| |].
  - intros h. eapply (inverts_bind _ _ _ (fun i op b => op = mkOutPoint h i /\ b = [])); [apply (inverts_UintN 4)| |].
    + intros i. by apply inverts_ret.
    + simpl. intros i b1 op b2 [-> Hi] [-> ->]. rewrite app_nil_r. done.
  - simpl. intros h b1 op b2 [-> Hh] (-> & <- & Hi). split; [done|by split].
Qed.

(** An input read from a stream outside the EPTF format. *)
Lemma inverts_txin :
  inverts (readTxIn false) (fun p b => b = txin_bytes p.1 /\ p = (strip_witness p.1, []) /\ txin_wf p.1).
Proof.
  unfold readTxIn. eapply (inverts_bind _ _ _ (fun prev p b => exists s q, p = (mkTxIn prev s None q, []) /\
    b = vb s ++ le_split 4 q /\ len s <= MaxMessagePayload /\ 0 <= q < 2 ^ 32)); [apply inverts_outpoint| |].
  - intros prev. eapply (inverts_bind _ _ _ (fun s p b => exists q, p = (mkTxIn prev s None q, []) /\
      b = le_split 4 q /\ 0 <= q < 2 ^ 32)); [apply inverts_script| |].
    + intros s. apply (inverts_bind (lift (mret None)) _ (fun pk b => pk = None /\ b = [])
        (fun pk p b => pk = None -> exists q, p = (mkTxIn prev s None q, []) /\ b = le_split 4 q /\ 0 <= q < 2 ^ 32)).
      * by apply inverts_ret.
      * intros pk. eapply (inverts_bind _ _ _ (fun q p b => b = [] /\ (pk = None -> p = (mkTxIn prev s None q, [])))).
        -- apply (inverts_UintN 4).
        -- intros q. apply inverts_ret. split; [done|]. by intros ->.
        -- simpl. intros q b1 p b2 [-> Hq] [-> Hp] Hpk. rewrite app_nil_r. eauto.
      * intros pk b1 p b2 [-> ->] Hp. by apply Hp.
    + simpl. intros s b1 p b2 [-> Hs] (q & -> & -> & Hq). eauto 7.
  - simpl. intros prev b1 p b2 [-> Hp] (s & q & -> & -> & Hs & Hq). split; [done|]. split; [done|].
    split; [done..|constructor].
Qed.

Lemma uint64_int64 v : 0 <= v < 2 ^ 64 -> uint64 (int64 v) = v.
Proof. intros Hv. unfold swrap, uwrap. lia. Qed.

Lemma uint32_int32 v : 0 <= v < 2 ^ 32 -> uint32 (int32 v) = v.
Proof. intros Hv. unfold swrap, uwrap. lia. Qed.

Lemma inverts_txout : inverts readTxOut (fun o b => b = txout_bytes o /\ txout_wf o).
Proof.
  unfold readTxOut. eapply (inverts_bind _ _ _ (fun v o b => exists s, o = mkTxOut (int64 v) s /\
    b = vb s /\ len s <= MaxMessagePayload)); [apply (inverts_UintN 8)| |].
  - intros v. eapply (inverts_bind _ _ _ (fun s o b => o = mkTxOut (int64 v) s /\ b = [])); [apply inverts_script| |].
    + intros s. by apply inverts_ret.
    + simpl. intros s b1 o b2 [-> Hs] [-> ->]. rewrite app_nil_r. eauto.
  - simpl. intros v b1 o b2 [-> Hv] (s & -> & -> & Hs). unfold txout_bytes. simpl.
    rewrite uint64_int64 by lia. split; [done|]. split; [|done]. simpl. by apply (swrap_range 64).
Qed.

(** An input with the witness [w], read from the bytes of its items. *)
Definition with_witness (ti : TxIn) (w : list bytes) : TxIn :=
  mkTxIn (ti_PreviousOutPoint ti) (ti_SignatureScript ti) (Some w) (ti_Sequence ti).
Definition items_read (ti : TxIn) (n : Z) (p : TxIn * option Z) (b : bytes) : Prop :=
  0 <= n -> exists w, p = (with_witness ti w, None) /\ b = concat (map vb w) /\ len w = n /\
    n <= maxWitnessItemsPerInput /\ Forall (fun i => len i <= maxWitnessItemSize) w.

Lemma inverts_witness ti :
  inverts (read_witness false ti) (fun p b => exists w, p = (with_witness ti w, None) /\
    b = wit_bytes w /\ len w <= maxWitnessItemsPerInput /\
    Forall (fun i => len i <= maxWitnessItemSize) w).
Proof.
  unfold read_witness. eapply (inverts_bind _ _ _ (items_read ti)); [apply inverts_VarInt| |].
  - intros n. cbn [andb]. apply (inverts_bind (mret (n, None)) _ (fun q b => q = (n, None) /\ b = [])
      (fun q p b => q = (n, None) -> items_read ti n p b));
      [by apply inverts_ret| |by intros q b1 p b2 [-> ->] Hp; apply Hp].
    intros [n' amt]. apply inverts_guard. intros Hn%Z.ltb_ge.
    eapply (inverts_bind _ _ _ (fun w p b => p = (with_witness ti w, amt) /\ b = []));
      [apply inverts_read_n, inverts_script|intros w; by apply inverts_ret|].
    intros w b1 p b2 (Hl & bs & -> & Hbs) [-> ->] [= -> ->] H0. rewrite app_nil_r. exists w.
    destruct (Forall2_concat _ vb (fun i => len i <= maxWitnessItemSize) _ _ (fun _ _ H => H) Hbs) as [-> Hi].
    unfold len in *. repeat split; [lia..|done].
  - simpl. intros n b1 p b2 [-> Hn] H. destruct H as (w & -> & -> & <- & ? & ?); [lia|].
    exists w. done.
Qed.

Lemma inverts_read_each {A B} (l : list A) (m : A -> Rd B) (P : A -> B -> bytes -> Prop) :
  (forall a, inverts (m a) (P a)) ->
  inverts (read_each l m) (fun r b => exists bs, b = concat bs /\ Forall3 P l r bs).
Proof.
  intros Hm. induction l as [|a l IH]; simpl.
  { apply inverts_ret. exists []. split; [done|constructor]. }
  eapply (inverts_bind _ _ _ (fun x r b => exists r' bs, r = x :: r' /\ b = concat bs /\ Forall3 P l r' bs)); [apply Hm| |].
  - intros x. eapply (inverts_bind _ _ _ (fun r' r b => r = x :: r' /\ b = [])); [exact IH| |].
    + intros r'. by apply inverts_ret.
    + intros r' b1 r b2 (bs & -> & Hbs) [-> ->]. rewrite app_nil_r. eauto.
  - intros x b1 r b2 Hx (r' & bs & -> & -> & Hbs). exists (b1 :: bs). split; [done|by constructor].
Qed.

(** The inputs after the witnesses have been read, and the bytes read. *)
Lemma inverts_witnesses (c : bool) insadd :
  Forall (fun p => p = (strip_witness p.1, []) /\ txin_wf p.1) insadd ->
  inverts (if c then read_each (map fst insadd) (read_witness false)
           else mret (map (fun p : TxIn * bytes => (fst p, None : option Z)) insadd))
    (fun inswit b => Forall txin_wf (map fst inswit) /\ map fst insadd = map (fun p => strip_witness p.1) inswit /\
       map fst inswit = map (fun p => if c then fill_witness p.1 else strip_witness p.1) inswit /\
       b = (if c then concat (map (fun p => wit_bytes (witness p.1)) inswit) else [])).
Proof.
  intros Hf. destruct c.
  - eapply inverts_mono; [apply inverts_read_each, inverts_witness|]. simpl.
    intros inswit b (bs & -> & H3). revert inswit bs H3.
    induction Hf as [|[ti add] insadd [E Hwf] Hf IH]; intros inswit bs H3; inversion H3; subst; simpl.
    { done. }
    destruct (IH _ _ ltac:(eassumption)) as (I1 & I2 & I3 & I4).
    match goal with H : exists w, _ |- _ => destruct H as (w & -> & -> & Hc & Hi) end.
    simpl in *. injection E as E _. destruct Hwf as [? ? ? _ _].
    rewrite I2, I3, I4. repeat split; [|by rewrite E|done..].
    constructor; [by split|]. by rewrite <- I3.
  - intros r inswit rest [= <- <-]. exists []. rewrite !map_map. simpl. repeat split.
    + apply Forall_map. eapply Forall_impl; [|exact Hf]. by intros p [_ Hp].
    + apply map_ext_Forall. eapply Forall_impl; [|exact Hf]. intros [ti add] [[= E _] _]. exact E.
    + apply map_ext_Forall. eapply Forall_impl; [|exact Hf]. intros [ti add] [[= E _] _]. exact E.
Qed.

Lemma map_txin_strip l : map txin_bytes (map strip_witness l) = map txin_bytes l.
Proof. rewrite map_map. by apply map_ext. Qed.

(** What the decoder has read after the header, outside the EPTF format. *)
Lemma inverts_body msg enc version flag count :
  0 <= version < 2 ^ 32 -> 0 <= count ->
  inverts (decode_body msg false enc version flag count) (fun tx b =>
    let c := negb (flag =? 0) && (enc =? WitnessEncoding) in
    tx_wf tx /\ uint32 (tx_Version tx) = version /\ len (tx_TxIn tx) = count /\
    tx_Additional tx = tx_Additional msg /\
    tx_TxIn tx = map (if c then fill_witness else strip_witness) (tx_TxIn tx) /\
    b = concat (map txin_bytes (tx_TxIn tx)) ++ outputs_bytes (tx_TxOut tx) ++
        (if c then concat (map (fun ti => wit_bytes (witness ti)) (tx_TxIn tx)) else []) ++
        le_split 4 (tx_LockTime tx)).
Proof.
  intros Hver Hcount r tx rest. unfold decode_body.
  destruct (Z.ltb_spec maxTxInPerMessage count) as [|Hni]; [done|]. intros H.
  apply bind_Ret_inv in H as (insadd & r1 & H1 & H). apply bind_Ret_inv in H as (nouts & r2 & H2 & H).
  destruct (Z.ltb_spec maxTxOutPerMessage nouts) as [|Hno]; [done|].
  apply bind_Ret_inv in H as (outs & r3 & H3 & H). apply bind_Ret_inv in H as (inswit & r4 & H4 & H).
  apply bind_Ret_inv in H as (lock & r5 & H5 & H).
  apply (inverts_read_n _ _ _ inverts_txin) in H1 as (b1 & -> & Hl1 & bs1 & -> & Hbs1).
  apply (Forall2_concat _ (fun p => txin_bytes p.1) (fun p => p = (strip_witness p.1, []) /\ txin_wf p.1)) in Hbs1
    as [-> Hins]; [|tauto].
  apply inverts_VarInt in H2 as (b2 & -> & -> & Hnouts).
  apply (inverts_read_n _ _ _ inverts_txout) in H3 as (b3 & -> & Hl3 & bs3 & -> & Hbs3).
  apply (Forall2_concat _ txout_bytes txout_wf) in Hbs3 as [-> Houts]; [|tauto].
  apply (inverts_witnesses _ _ Hins) in H4 as (b4 & -> & Hwf & Eins & Ewit & ->).
  apply (inverts_UintN 4) in H5 as (b5 & -> & -> & Hlock).
  assert (length (map fst inswit) = length insadd) as Hlen.
  { rewrite length_map. apply (f_equal length) in Eins. by rewrite !length_map in Eins. }
  rewrite repack_wf in H; [|done|unfold len in *; rewrite Hlen; lia|done|unfold len in *; lia].
  injection H as <- <-. simpl.
  exists (concat (map txin_bytes (map fst inswit)) ++ outputs_bytes outs ++
    (if negb (flag =? 0) && (enc =? WitnessEncoding)
     then concat (map (fun ti => wit_bytes (witness ti)) (map fst inswit)) else []) ++ le_split 4 lock).
  assert (outs = outs /\ nouts = len outs) as [_ ->] by (unfold len in *; split; [done|lia]).
  split; [|split; [|split; [|split; [|split; [done|split]]]]].
  - unfold outputs_bytes. rewrite !map_map, <- !app_assoc. f_equal.
    rewrite <- (map_map fst txin_bytes), Eins, !map_map. done.
  - split; simpl; try done; [by apply (swrap_range 32)|unfold len in *; lia].
  - by apply uint32_int32.
  - unfold len in *. lia.
  - rewrite Ewit at 1. rewrite map_map. by destruct (_ && _).
  - done.
Qed.

Lemma inverts_version_base :
  inverts (decode_version BaseEncoding) (fun p b =>
    (p.1.1 = true /\ p.1.2 = 3) \/
    (p.1 = (false, BaseEncoding) /\ b = le_split 4 p.2 /\ 0 <= p.2 < 2 ^ 32 /\ p.2 <> EptfMagic)).
Proof.
  intros r [[eptf enc] version] rest H. unfold decode_version in H.
  apply bind_Ret_inv in H as (v & r1 & H1 & H). apply (inverts_UintN 4) in H1 as (b1 & -> & -> & Hv).
  destruct (Z.eqb_spec v EptfMagic) as [E|E].
  - apply bind_Ret_inv in H as (o1 & r2 & H2 & H). destruct (negb _) eqn:E1 in H; [done|].
    apply bind_Ret_inv in H as (o2 & r3 & H3 & H). destruct (negb _) eqn:E2 in H; [done|].
    apply bind_Ret_inv in H as (v' & r4 & H4 & H). injection H as <- <- <- <-.
    unfold try_read in H2, H3.
    destruct (Uint8 r1) as [[x1| |] y1] eqn:U1; [|by injection H2 as <- <-|done].
    injection H2 as <- <-.
    destruct (Uint8 y1) as [[x2| |] y2] eqn:U2; [|by injection H3 as <- <-|done].
    injection H3 as <- <-.
    apply (inverts_UintN 1) in U1 as (c1 & -> & _). apply (inverts_UintN 1) in U2 as (c2 & -> & _).
    apply (inverts_UintN 4) in H4 as (c3 & -> & _).
    exists (le_split 4 v ++ c1 ++ c2 ++ c3). rewrite <- !app_assoc. split; [done|]. by left.
  - injection H as <- <- <- <-. exists (le_split 4 v). split; [done|]. right. done.
Qed.

(** A header whose encoding is not exactly the witness encoding has no marker. *)
Lemma inverts_count_base eptf enc :
  enc <> WitnessEncoding ->
  inverts (decode_count eptf enc) (fun p b => eptf = false /\ p.1 = 0 /\ b = varint p.2 /\ 0 <= p.2 < 2 ^ 64).
Proof.
  intros Henc r [flag n] rest H. unfold decode_count in H.
  apply bind_Ret_inv in H as (m & r1 & H1 & H). apply inverts_VarInt in H1 as (b1 & -> & -> & Hm).
  destruct (Z.eqb_spec enc WitnessEncoding); [done|]. rewrite andb_false_r in H.
  destruct eptf; [done|]. injection H as <- <- <-. exists (varint m). done.
Qed.

Lemma inverts_BtcDecode_base msg :
  inverts (BtcDecode msg BaseEncoding) (fun tx b => tx_wf tx /\ b = base_bytes tx /\
    uint32 (tx_Version tx) <> EptfMagic /\ tx_Additional tx = tx_Additional msg /\
    tx_TxIn tx = map strip_witness (tx_TxIn tx)).
Proof.
  intros r tx rest H. unfold BtcDecode in H.
  apply bind_Ret_inv in H as ([[eptf enc] version] & r1 & H1 & H).
  apply inverts_version_base in H1 as (b1 & -> & Hv). simpl in Hv.
  apply bind_Ret_inv in H as ([flag n] & r2 & H2 & H).
  apply inverts_count_base in H2 as (b2 & -> & He & Hf & Hb & Hn).
  2: { by destruct Hv as [[_ ->]|([= _ ->] & _)]. }
  simpl in *. destruct Hv as [[-> _]|([= -> ->] & -> & Hv & Hm)]; [done|]. subst flag b2.
  apply inverts_body in H as (b3 & -> & Hwf & Ev & El & Ea & Ei & ->); [|lia..].
  exists (le_split 4 version ++ varint n ++ concat (map txin_bytes (tx_TxIn tx)) ++
    outputs_bytes (tx_TxOut tx) ++ le_split 4 (tx_LockTime tx)).
  split; [by rewrite <- !app_assoc|]. split; [done|]. split; [|split; [congruence|split; [done|exact Ei]]].
  unfold base_bytes, version_bytes, inputs_bytes. rewrite Ev, El. by rewrite <- !app_assoc.
Qed.

(** * Theorems *)

(** A transaction read from the base encoding is exactly the bytes that
    were read: encoding it again gives them back and its hash is their double
    SHA-256, so no two encodings share a transaction hash by re-encoding. *)
Theorem base_encoding_canonical (msg tx : MsgTx) (r rest : bytes)
    (H : DeserializeNoWitness msg r = (Ret tx, rest)) :
  exists b, r = b ++ rest /\ SerializeNoWitness tx [] = (Ret (), b) /\
    len b = SerializeSizeStripped tx /\ TxHash tx = DoubleHashB b.
Proof.
  destruct (inverts_BtcDecode_base msg r tx rest H) as (b & -> & Hwf & -> & _).
  pose proof (writes_BtcEncode_plain tx BaseEncoding Hwf ltac:(by left) []) as Hw. simpl in Hw.
  exists (base_bytes tx). split; [done|]. split; [exact Hw|]. split.
  - unfold SerializeSizeStripped. by rewrite size_base.
  - unfold TxHash, buffer_of, SerializeNoWitness. by rewrite Hw.
Qed.

(** Version 1, no inputs, one output of 5 to the script OP_1, lock time 0. *)
Definition tiny_tx_bytes : bytes :=
  [Byte.x01; Byte.x00; Byte.x00; Byte.x00; Byte.x00; Byte.x01; Byte.x05; Byte.x00; Byte.x00; Byte.x00;
   Byte.x00; Byte.x00; Byte.x00; Byte.x00; Byte.x01; OP_1; Byte.x00; Byte.x00; Byte.x00; Byte.x00].
Definition tiny_tx : MsgTx := mkMsgTx 1 [] [mkTxOut 5 [OP_1]] 0 [].

Lemma base_encoding_canonical_witness :
  exists b, tiny_tx_bytes ++ [Byte.xff] = b ++ [Byte.xff] /\ SerializeNoWitness tiny_tx [] = (Ret (), b) /\
    len b = 20 /\ TxHash tiny_tx = DoubleHashB b.
Proof.
  apply (base_encoding_canonical (NewMsgTx 1) tiny_tx (tiny_tx_bytes ++ [Byte.xff]) [Byte.xff]).
  vm_compute. reflexivity.
Defined.

(** What a round trip gives: the witnesses are all nil slices or none is. *)
Definition normal_tx (tx : MsgTx) : MsgTx :=
  mkMsgTx (tx_Version tx)
    (map (if HasWitness tx then fill_witness else strip_witness) (tx_TxIn tx))
    (tx_TxOut tx) (tx_LockTime tx) [].

(** C37: a transaction with inputs is read back from its encoding with
    witnesses, whatever follows it in the stream, up to nil witnesses; its
    encoding takes [SerializeSize] bytes.  The version must not be the magic
    number that announces the EPTF format. *)
Theorem tx_roundtrip (tx : MsgTx) (v : Z) (Hwf : tx_wf tx) (Hins : tx_TxIn tx <> [])
    (Hm : uint32 (tx_Version tx) <> EptfMagic) :
  exists b, Serialize tx [] = (Ret (), b) /\ len b = SerializeSize tx /\
    forall rest, Deserialize (NewMsgTx v) (b ++ rest) = (Ret (normal_tx tx), rest).
Proof.
  pose proof (writes_BtcEncode_plain tx WitnessEncoding Hwf ltac:(by right) []) as Hw. simpl in Hw.
  exists (if HasWitness tx then witness_bytes tx else base_bytes tx). split; [exact Hw|].
  split; [symmetry; by apply size_full|]. intros rest. unfold Deserialize, normal_tx.
  destruct (HasWitness tx).
  - by rewrite (reads_wit tx (NewMsgTx v)).
  - rewrite (reads_base tx (NewMsgTx v)); [done|done|done|by left].
Qed.

(** One input with a witness of two items, one output. *)
Definition sample_txin : TxIn :=
  mkTxIn (mkOutPoint (repeat Byte.xab 32) 7) [] (Some [[Byte.x01; Byte.x02]; []]) 0xffffffff.
Definition sample_tx : MsgTx := mkMsgTx 2 [sample_txin] [mkTxOut 1000 [OP_1]] 17 [].

Lemma sample_tx_wf : tx_wf sample_tx.
Proof. repeat first [done|constructor]. Qed.

Lemma tx_roundtrip_witness :
  exists b, Serialize sample_tx [] = (Ret (), b) /\ len b = SerializeSize sample_tx /\
    forall rest, Deserialize (NewMsgTx 1) (b ++ rest) = (Ret sample_tx, rest).
Proof. apply (tx_roundtrip sample_tx 1); [exact sample_tx_wf|done|done]. Defined.

(** * The EPTF format *)

Lemma push_enc_data data :
  2 <= len data < 2 ^ 32 ->
  Data (push_enc data).1 = data /\ u8 (Value (Opc (push_enc data).1)) <= 78.
Proof.
  intros Hl. push_cases data; try lia; (split; [done|]); [rewrite u8_to_byte by lia; lia|done..].
Qed.

Lemma CanonicalDataSize_le data : CanonicalDataSize data <= 5 + len data.
Proof. unfold CanonicalDataSize. pose proof (len_nonneg data). repeat case_match; lia. Qed.

(** What the encoder writes for the script of an incomplete input, and that the
    decoder finds the script again. *)
Lemma eptf_script_spec pk :
  1 <= len pk <= 519 ->
  exists scr, eptf_script pk = (scr, None) /\ len scr <= MaxMessagePayload /\
    eptf_parse scr = Ret (Some pk).
Proof.
  intros Hpk. set (data := Byte.xfd :: pk).
  assert (2 <= len data <= 520) as Hd by (unfold data; len_lia).
  pose proof (CanonicalDataSize_le data) as Hc.
  exists ([Byte.xff; Byte.x00] ++ (push_enc data).2). split; [|split].
  - unfold eptf_script. fold data.
    change (AddOp OP_0 (AddOp OP_INVALIDOPCODE NewScriptBuilder))
      with {| ScriptInt := [Byte.xff; Byte.x00]; ErrInt := None |}.
    unfold AddData. cbn [ErrInt ScriptInt]. change (len [Byte.xff; Byte.x00]) with 2.
    unfold MaxScriptSize, MaxScriptElementSize.
    destruct (Z.ltb_spec 10000 (2 + CanonicalDataSize data)), (Z.ltb_spec 520 (len data)); try lia.
    by rewrite addData_push_enc by lia.
  - rewrite len_app, push_enc_len by lia. change (len [Byte.xff; Byte.x00]) with 2. unfold MaxMessagePayload. lia.
  - unfold eptf_parse. rewrite len_app. change (len [Byte.xff; Byte.x00]) with 2.
    pose proof (len_nonneg (push_enc data).2).
    destruct (Z.ltb_spec (2 + len (push_enc data).2) 2); [lia|].
    rewrite (slice_from_app [Byte.xff; Byte.x00]) by done. simpl.
    rewrite (parse_single (push_enc data).1) by (apply push_enc_enc; lia).
    destruct (push_enc_data data ltac:(lia)) as [Ed Hv]. unfold IsPushOnly. simpl.
    change (u8 OP_16) with 96. destruct (Z.ltb_spec 96 (u8 (Value (Opc (push_enc data).1)))); [lia|]. simpl.
    rewrite Ed. destruct (Z.ltb_spec (len data) 1); [lia|]. unfold data. simpl.
    change (slice_from (Byte.xfd :: pk) 1) with (slice_from ([Byte.xfd] ++ pk) 1).
    by rewrite slice_from_app.
Qed.

(** What an input and its additional data must satisfy to be carried by the
    format: an incomplete input has no signature script, a complete one has a
    script that is not mistaken for the format's own. *)
Record eptf_wf (p : TxIn * TxInAdditional) : Prop :=
  { eptf_sig : add_PkScript p.2 <> [] -> ti_SignatureScript p.1 = [];
    eptf_pk : len (add_PkScript p.2) <= 519;
    eptf_clash : bytes_prefixb [Byte.xff; Byte.x00] (ti_SignatureScript p.1) = false;
    eptf_value : forall v, add_Value p.2 = Some v -> 0 <= v < 2 ^ 63 }.

Lemma eptf_parse_plain s :
  bytes_prefixb [Byte.xff; Byte.x00] s = false -> eptf_parse s = Ret None.
Proof.
  intros Hs. unfold eptf_parse. destruct (Z.ltb_spec (len s) 2); [done|].
  destruct s as [|b0 [|b1 s]]; [done|done|]. rewrite index_cons_0. simpl.
  destruct (Z.eqb_spec (u8 b0) 0xff) as [E0|]; [|done]. destruct (Z.eqb_spec (u8 b1) 0) as [E1|]; [|done].
  change 0xff with (u8 Byte.xff) in E0. change 0 with (u8 Byte.x00) in E1.
  apply u8_inj in E0, E1. subst. done.
Qed.

(** A loop over a mapped list. *)
Lemma writes_map_body {A B} (g : A -> B) (body : B -> Wr) l (f : A -> bytes) :
  Forall (fun a => writes (body (g a)) (f a)) l -> writes (for_each (map g l) body) (concat (map f l)).
Proof. induction 1 as [|a l Ha Hl IH]; simpl; [apply writes_ret|]. by apply writes_bind. Qed.

(** The script field of an input in the EPTF format. *)
Definition eptf_field (p : TxIn * TxInAdditional) : bytes :=
  if (0 <? len (add_PkScript p.2)) && (len (ti_SignatureScript p.1) =? 0)
  then (eptf_script (add_PkScript p.2)).1 else ti_SignatureScript p.1.

Definition eptf_txin_bytes (p : TxIn * TxInAdditional) : bytes :=
  outpoint_bytes (ti_PreviousOutPoint p.1) ++ vb (eptf_field p) ++ le_split 4 (ti_Sequence p.1).

Definition eptf_wit_bytes (p : TxIn * TxInAdditional) : bytes :=
  match add_Value p.2 with
  | Some v => varint 0xffffffff ++ le_split 8 v ++ [Byte.x00; Byte.x00]
  | None => []
  end ++ wit_bytes (witness p.1).

Lemma eptf_field_spec p :
  txin_wf p.1 -> eptf_wf p ->
  len (eptf_field p) <= MaxMessagePayload /\
  eptf_parse (eptf_field p) = Ret (if 0 <? len (add_PkScript p.2) then Some (add_PkScript p.2) else None) /\
  writes (add_i ← lift (mret p.2);
    if true && (0 <? len (add_PkScript add_i)) && (len (ti_SignatureScript p.1) =? 0) then
     match eptf_script (add_PkScript add_i) with
     | (_, Some e) => mthrow (ErrFromScript e)
     | (scr, None) => WriteVarBytes scr
     end
   else WriteVarBytes (ti_SignatureScript p.1)) (vb (eptf_field p)).
Proof.
  intros [_ Hs _ _ _] [He Hp Hc _]. unfold eptf_field. cbn [andb].
  destruct (Z.ltb_spec 0 (len (add_PkScript p.2))) as [Hpk|Hpk]; cbn [andb].
  - rewrite (He ltac:(intros E; rewrite E in Hpk; done)).
    change (len (@nil byte) =? 0) with true. cbn [andb].
    destruct (eptf_script_spec (add_PkScript p.2)) as (scr & E & Hl & Hps); [lia|]. rewrite E. cbn [fst].
    split; [done|]. split; [done|]. intros w.
    rewrite (bind_Ret _ _ _ p.2 w) by done. destruct (Z.ltb_spec 0 (len (add_PkScript p.2))); [|lia].
    cbn [andb]. rewrite E. by apply (writes_vb scr MaxMessagePayload).
  - split; [done|]. split; [by apply eptf_parse_plain|]. intros w.
    rewrite (bind_Ret _ _ _ p.2 w) by done. destruct (Z.ltb_spec 0 (len (add_PkScript p.2))); [lia|].
    simpl. by apply (writes_vb _ MaxMessagePayload).
Qed.

Lemma with_additional_zip ins adds :
  length ins = length adds ->
  with_additional ins adds = map (fun p => (p.1, Some p.2)) (zip ins adds).
Proof.
  revert adds. induction ins as [|ti ins IH]; intros [|a adds] H; try done.
  simpl. f_equal. apply IH. by injection H.
Qed.

Lemma writes_eptf_txin p :
  txin_wf p.1 -> eptf_wf p -> writes (write_txin true p.1 (Some p.2)) (eptf_txin_bytes p).
Proof.
  intros Hp He. destruct (eptf_field_spec p Hp He) as (_ & _ & Hw).
  apply writes_bind; [apply writes_outpoint|]. apply writes_bind; [exact Hw|apply writes_Write].
Qed.

Lemma writes_eptf_witness p :
  txin_wf p.1 -> eptf_wf p -> writes (write_witness true p.1 (Some p.2)) (eptf_wit_bytes p).
Proof.
  intros [_ _ _ Hc Hi] [_ _ _ Hv]. unfold write_witness, eptf_wit_bytes.
  apply (writes_bind_val (lift (or_panic (Some p.2))) _ p.2 []); [intros w; by rewrite app_nil_r|].
  destruct (add_Value p.2) as [v|]; cbn [default from_option]; [|by apply writes_wit].
  specialize (Hv v eq_refl). unfold writeTxWitness, wit_bytes. cbn [default from_option id].
  destruct (Z.ltb_spec (-1) v); [|lia]. rewrite (uwrap_small 64 v) by lia.
  apply writes_bind.
  - apply writes_bind; [by apply writes_VarInt|]. by apply writes_bind.
  - apply writes_bind; [by apply (writes_count _ maxWitnessItemsPerInput)|].
    apply writes_for_each. eapply Forall_impl; [|exact Hi]. intros i Hl. by apply (writes_vb _ maxWitnessItemSize).
Qed.

Lemma reads_eptf_txin p :
  txin_wf p.1 -> eptf_wf p ->
  reads (readTxIn true) (eptf_txin_bytes p) (strip_witness p.1, add_PkScript p.2).
Proof.
  intros Hp He. destruct (eptf_field_spec p Hp He) as (Hl & Hps & _).
  destruct Hp as [Hp Hs Hq _ _], He as [He _ _ _]. unfold readTxIn, eptf_txin_bytes.
  eapply reads_bind; [by apply reads_outpoint|]. eapply reads_bind; [by apply reads_script|].
  rewrite Hps. eapply (reads_bind _ _ []); [done|].
  eapply reads_bind_last; [apply (reads_UintN 4); lia|]. unfold strip_witness, eptf_field.
  destruct (Z.ltb_spec 0 (len (add_PkScript p.2))) as [Hpk|Hpk]; cbn [andb].
  - rewrite He; [apply reads_ret|]. intros E. by rewrite E in Hpk.
  - assert (add_PkScript p.2 = []) as -> by (apply len_0; pose proof (len_nonneg (add_PkScript p.2)); lia).
    apply reads_ret.
Qed.

Lemma reads_eptf_witness p :
  txin_wf p.1 -> eptf_wf p ->
  reads (read_witness true (strip_witness p.1)) (eptf_wit_bytes p) (fill_witness p.1, add_Value p.2).
Proof.
  intros [_ _ _ Hc Hi] [_ _ _ Hv]. unfold read_witness, eptf_wit_bytes, wit_bytes.
  pose proof (len_nonneg (witness p.1)). unfold maxWitnessItemsPerInput in *.
  assert (forall amt : option Z, reads (if 500000 <? len (witness p.1) then mthrow ErrMessage else
    items ← read_n (Z.to_nat (len (witness p.1))) (readScript maxWitnessItemSize);
    mret (with_witness (strip_witness p.1) items, amt)) (concat (map vb (witness p.1)))
    (fill_witness p.1, amt)) as Hend.
  { intros amt. destruct (Z.ltb_spec 500000 (len (witness p.1))); [lia|]. rewrite to_nat_len.
    eapply reads_bind_last; [by apply reads_items|]. apply reads_ret. }
  destruct (add_Value p.2) as [v|].
  - specialize (Hv v eq_refl). rewrite <- !app_assoc.
    eapply reads_bind; [by apply reads_VarInt|]. eval_ztests. cbn [andb].
    rewrite !app_assoc. apply (reads_bind _ _ _ _ (len (witness p.1), Some v)); [|apply Hend]. rewrite <- !app_assoc.
    eapply reads_bind; [apply (reads_UintN 8); lia|].
    eapply reads_bind; [by apply (reads_UintN 2 0)|]. eval_ztests. cbn [negb].
    eapply reads_bind_last; [apply reads_VarInt; lia|]. rewrite int64_small by lia. apply reads_ret.
  - simpl. eapply reads_bind; [apply reads_VarInt; lia|].
    destruct (Z.eqb_spec (len (witness p.1)) 0xffffffff); [lia|]. cbn [andb].
    apply (reads_bind _ _ [] _ (len (witness p.1), None)); [done|]. apply Hend.
Qed.

Lemma reads_version_eptf v enc :
  reads (decode_version enc) ([Byte.x45; Byte.x50; Byte.x54; Byte.x46; Byte.xff; Byte.x00] ++ version_bytes v)
    (true, enc ||| WitnessEncoding, uint32 v).
Proof.
  change [Byte.x45; Byte.x50; Byte.x54; Byte.x46; Byte.xff; Byte.x00]
    with (le_split 4 EptfMagic ++ le_split 1 0xff ++ le_split 1 0).
  assert (forall x, 0 <= x < 256 -> reads (try_read Uint8) (le_split 1 x) (Some x)) as Ht.
  { intros x Hx rest. unfold try_read. change Uint8 with (UintN 1). by rewrite (reads_UintN 1). }
  rewrite <- !app_assoc. eapply reads_bind; [by apply (reads_UintN 4)|]. eval_ztests.
  rewrite Z.eqb_refl. eapply reads_bind; [by apply Ht|].
  eapply reads_bind; [by apply Ht|]. eapply reads_bind_last; [apply reads_version|]. apply reads_ret.
Qed.

Definition eptf_bytes (tx : MsgTx) : bytes :=
  let ps := zip (tx_TxIn tx) (tx_Additional tx) in
  [Byte.x45; Byte.x50; Byte.x54; Byte.x46; Byte.xff; Byte.x00] ++ version_bytes (tx_Version tx) ++
  witessMarkerBytes ++ varint (len (tx_TxIn tx)) ++ concat (map eptf_txin_bytes ps) ++
  outputs_bytes (tx_TxOut tx) ++ concat (map eptf_wit_bytes ps) ++ le_split 4 (tx_LockTime tx).

Section eptf.
Context (tx : MsgTx) (Hwf : tx_wf tx) (Hne : tx_TxIn tx <> []).
Context (Hlen : length (tx_TxIn tx) = length (tx_Additional tx)).
Context (Heptf : Forall eptf_wf (zip (tx_TxIn tx) (tx_Additional tx))).

Let ps := zip (tx_TxIn tx) (tx_Additional tx).

Lemma eptf_ps_wf : Forall (fun p => txin_wf p.1 /\ eptf_wf p) ps.
Proof.
  destruct Hwf as [_ Hi _ _ _ _]. subst ps. revert Hi Heptf Hlen. clear.
  generalize (tx_Additional tx). induction (tx_TxIn tx) as [|ti ins IH]; intros [|a adds] Hi He Hl; try done.
  simpl in *. inversion Hi; inversion He; subst. constructor; [done|]. apply IH; auto.
Qed.

Lemma eptf_fst : map fst ps = tx_TxIn tx.
Proof. subst ps. apply fst_zip. lia. Qed.

Lemma eptf_snd : map snd ps = tx_Additional tx.
Proof. subst ps. apply snd_zip. lia. Qed.

Lemma writes_eptf : writes (BtcEncode tx EptfEncoding) (eptf_bytes tx).
Proof.
  destruct Hwf as [Hv Hi Hni Ho Hno Hl]. pose proof eptf_ps_wf as Hps. unfold BtcEncode, eptf_bytes. fold ps.
  assert (0 < len (tx_TxIn tx)) as Hpos.
  { pose proof (len_nonneg (tx_TxIn tx)). destruct (Z.eq_dec (len (tx_TxIn tx)) 0) as [E%len_0|]; [done|lia]. }
  assert (len (tx_Additional tx) = len (tx_TxIn tx)) as E by (unfold len; lia).
  change (EptfEncoding &&& EptfEncoding =? 0) with false. cbn [negb andb]. rewrite E.
  destruct (Z.ltb_spec 0 (len (tx_TxIn tx))), (Z.ltb_spec (len (tx_TxIn tx)) (len (tx_TxIn tx))); try lia.
  eapply writes_bind_val; [done|]. cbv beta. rewrite orb_true_r, with_additional_zip by done. fold ps.
  apply writes_bind; [apply writes_Write|]. apply writes_bind; [apply writes_Write|].
  apply writes_bind; [by apply (writes_count _ maxTxInPerMessage)|].
  apply writes_bind.
  { apply (writes_map_body _ _ _ eptf_txin_bytes).
    eapply Forall_impl; [|exact Hps]. intros p [Hp He]. by apply writes_eptf_txin. }
  unfold outputs_bytes. rewrite <- app_assoc.
  apply writes_bind; [by apply (writes_count _ maxTxOutPerMessage)|].
  apply writes_bind; [apply writes_for_each; eapply Forall_impl; [|exact Ho]; apply writes_txout|].
  apply writes_bind; [|apply writes_Write].
  apply (writes_map_body _ _ _ eptf_wit_bytes).
  eapply Forall_impl; [|exact Hps]. intros p [Hp He]. by apply writes_eptf_witness.
Qed.

Lemma reads_eptf msg :
  reads (BtcDecode msg WitnessEncoding) (eptf_bytes tx)
    (mkMsgTx (tx_Version tx) (map fill_witness (tx_TxIn tx)) (tx_TxOut tx) (tx_LockTime tx) (tx_Additional tx)).
Proof.
  destruct Hwf as [Hv Hi Hni Ho Hno Hl]. pose proof eptf_ps_wf as Hps. unfold eptf_bytes. fold ps.
  rewrite <- (int32_uint32 (tx_Version tx)) at 2 by done.
  set (insadd := map (fun p => (strip_witness p.1, add_PkScript p.2)) ps).
  set (inswit := map (fun p => (fill_witness p.1, add_Value p.2)) ps).
  assert (len insadd = len (tx_TxIn tx)) as El.
  { unfold len, insadd. rewrite length_map, <- eptf_fst. by rewrite length_map. }
  assert (map fill_witness (tx_TxIn tx) = map fst inswit) as ->.
  { rewrite <- eptf_fst. unfold inswit. by rewrite !map_map. }
  assert (tx_Additional tx = zip_with (fun p q => mkAdditional (snd p) (snd q)) insadd inswit) as ->.
  { rewrite <- eptf_snd. unfold insadd, inswit. clear. induction ps as [|[ti a] l IH]; simpl; [done|].
    rewrite IH. by destruct a. }
  pose proof (len_nonneg (tx_TxIn tx)). assert (maxTxInPerMessage = 818401) as E by done.
  rewrite (app_assoc _ (version_bytes _)), (app_assoc witessMarkerBytes).
  apply (reads_body msg _ true WitnessEncoding (uint32 (tx_Version tx)) 1 insadd inswit (tx_TxOut tx));
    [apply (reads_version_eptf _ WitnessEncoding)| | | | | | |done..].
  - rewrite El. apply reads_count_marker. lia.
  - unfold insadd. rewrite length_map. apply reads_read_n'. eapply Forall_impl; [|exact Hps].
    intros p [Hp He]. by apply reads_eptf_txin.
  - cbn [negb andb]. eval_ztests. unfold insadd. rewrite map_map. cbn [fst].
    apply (reads_read_each _ eptf_wit_bytes (fun p => strip_witness p.1)). eapply Forall_impl; [|exact Hps].
    intros p [Hp He]. by apply reads_eptf_witness.
  - unfold inswit. rewrite map_map. apply Forall_map. eapply Forall_impl; [|exact Hps].
    intros p [Hp _]. by apply fill_witness_wf.
  - unfold insadd, inswit. by rewrite !length_map.
  - lia.
Qed.
End eptf.

(** A partially signed transaction survives the EPTF format: inputs,
    witnesses, outputs and the additional data of the incomplete inputs (their
    public key script and amount) are read back, whatever follows. *)
Theorem eptf_roundtrip (tx : MsgTx) (v : Z) (Hwf : tx_wf tx) (Hne : tx_TxIn tx <> [])
    (Hlen : length (tx_TxIn tx) = length (tx_Additional tx))
    (Heptf : Forall eptf_wf (zip (tx_TxIn tx) (tx_Additional tx))) :
  exists b, BtcEncode tx EptfEncoding [] = (Ret (), b) /\
    forall rest, Deserialize (NewMsgTx v) (b ++ rest) =
      (Ret (mkMsgTx (tx_Version tx) (map fill_witness (tx_TxIn tx)) (tx_TxOut tx) (tx_LockTime tx)
              (tx_Additional tx)), rest).
Proof.
  exists (eptf_bytes tx). split; [by apply (writes_eptf tx Hwf Hne Hlen Heptf [])|].
  intros rest. by apply (reads_eptf tx).
Qed.

Definition sample_eptf : MsgTx :=
  mkMsgTx 2 [mkTxIn (mkOutPoint (repeat Byte.x11 32) 0) [] (Some []) 5] [mkTxOut 900 [OP_1]] 0
    [mkAdditional [OP_0; Byte.x01; Byte.x07] (Some 1000)].

Lemma eptf_roundtrip_witness :
  exists b, BtcEncode sample_eptf EptfEncoding [] = (Ret (), b) /\
    forall rest, Deserialize (NewMsgTx 1) (b ++ rest) = (Ret sample_eptf, rest).
Proof.
  apply (eptf_roundtrip sample_eptf 1); [repeat first [done|constructor]|done|done|].
  apply Forall_cons; [|by apply Forall_nil].
  split; [done|done|done|]. intros v [= <-]. done.
Defined.

(** Asking for the EPTF format without forcing it fails for every
    transaction that has no additional data: the test for the forced variant
    also holds for the plain one. *)
Theorem eptf_encoding_needs_additional (tx : MsgTx) (w : bytes) (H : tx_Additional tx = []) :
  BtcEncode tx EptfEncoding w = (Throw ErrText, w).
Proof. unfold BtcEncode. by rewrite H. Qed.

Lemma eptf_encoding_needs_additional_witness :
  BtcEncode sample_tx EptfEncoding [] = (Throw ErrText, []).
Proof. apply eptf_encoding_needs_additional. reflexivity. Defined.

(** * Script offsets *)

Lemma pkScriptLocs_loop_spec outs pre post i off o :
  Forall txout_wf outs -> pkScriptLocs_loop (len pre) outs !! i = Some off -> outs !! i = Some o ->
  slice (pre ++ concat (map txout_bytes outs) ++ post) off (off + len (to_PkScript o)) = Some (to_PkScript o).
Proof.
  intros Hf. revert pre i. induction Hf as [|o' outs Ho Hf IH]; intros pre i Hi Hoi; [done|].
  assert (len pre + 8 + VarIntSerializeSize (uint64 (len (to_PkScript o'))) =
    len (pre ++ le_split 8 (uint64 (to_Value o')) ++ varint (len (to_PkScript o')))) as E.
  { rewrite (size_count (to_PkScript o') MaxMessagePayload) by (done || by destruct Ho).
    rewrite !len_app, len_le_split. lia. }
  simpl in Hi. rewrite E in Hi. set (pre' := pre ++ _) in *.
  assert (forall r, pre ++ (txout_bytes o' ++ r) ++ post = pre' ++ to_PkScript o' ++ r ++ post) as Eb.
  { intros r. unfold pre', txout_bytes, vb. by rewrite <- !app_assoc. }
  cbn [map concat]. rewrite Eb. destruct i as [|i]; cbn in Hi, Hoi.
  - injection Hi as <-. injection Hoi as <-. by apply slice_seam.
  - rewrite <- len_app in Hi. specialize (IH (pre' ++ to_PkScript o') i Hi Hoi).
    rewrite <- IH, <- !app_assoc. done.
Qed.

Lemma pkScriptLocs_loop_length n outs : length (pkScriptLocs_loop n outs) = length outs.
Proof. revert n. induction outs as [|o outs IH]; intros n; simpl; [done|]. by rewrite IH. Qed.

(** The script offsets of a transaction are right in its serialized form,
    when the witness of the first input is nil exactly if no input has a
    witness, which is the test the code makes. *)
Theorem PkScriptLocs_spec (tx : MsgTx) (Hwf : tx_wf tx)
    (Hfirst : match tx_TxIn tx with
              | ti :: _ => bool_decide (is_Some (ti_Witness ti))
              | [] => false
              end = HasWitness tx) :
  exists b, Serialize tx [] = (Ret (), b) /\ length (PkScriptLocs tx) = length (tx_TxOut tx) /\
    forall i off o, PkScriptLocs tx !! i = Some off -> tx_TxOut tx !! i = Some o ->
      slice b off (off + len (to_PkScript o)) = Some (to_PkScript o).
Proof.
  pose proof (writes_BtcEncode_plain tx WitnessEncoding Hwf ltac:(by right) []) as Hw. simpl in Hw.
  eexists. split; [exact Hw|]. unfold PkScriptLocs. destruct Hwf as [Hv Hi Hni Ho Hno Hl].
  destruct (Z.eqb_spec (len (tx_TxOut tx)) 0) as [E%len_0|_].
  { rewrite E. split; [done|]. by intros [] ? ? ?. }
  set (n := foldl _ _ _). set (marker := if HasWitness tx then witessMarkerBytes else []).
  set (pre := version_bytes (tx_Version tx) ++ marker ++ inputs_bytes (tx_TxIn tx) ++ varint (len (tx_TxOut tx))).
  assert (n = len pre) as ->.
  { unfold n. rewrite (foldl_add_concat _ txin_bytes) by (eapply Forall_impl; [|exact Hi]; apply size_txin).
    unfold pre, inputs_bytes, version_bytes. rewrite (size_count _ _ Hni), (size_count _ _ Hno) by done.
    rewrite !len_app, len_le_split.
    assert (len marker = match tx_TxIn tx with ti :: _ => if ti_Witness ti is Some _ then 2 else 0 | [] => 0 end) as ->.
    { unfold marker. rewrite <- Hfirst. destruct (tx_TxIn tx) as [|ti ?]; [done|]. by destruct (ti_Witness ti). }
    destruct (tx_TxIn tx) as [|ti ?]; [lia|]. destruct (ti_Witness ti); lia. }
  split; [apply pkScriptLocs_loop_length|]. intros i off o Hoff Hoi.
  set (post := (if HasWitness tx then concat (map (fun ti => wit_bytes (witness ti)) (tx_TxIn tx)) else []) ++
    le_split 4 (tx_LockTime tx)).
  rewrite <- (pkScriptLocs_loop_spec _ pre post i off o Ho Hoff Hoi). f_equal.
  unfold witness_bytes, base_bytes, pre, post, marker, outputs_bytes.
  destruct (HasWitness tx); by rewrite <- ?app_assoc.
Qed.

Lemma PkScriptLocs_spec_witness :
  exists b, Serialize sample_tx [] = (Ret (), b) /\ length (PkScriptLocs sample_tx) = 1%nat /\
    forall i off o, PkScriptLocs sample_tx !! i = Some off -> tx_TxOut sample_tx !! i = Some o ->
      slice b off (off + len (to_PkScript o)) = Some (to_PkScript o).
Proof. apply (PkScriptLocs_spec sample_tx); [exact sample_tx_wf|reflexivity]. Defined.

(** Where the hypothesis fails the offsets are wrong: here only the second input
    has a witness, and the offset of the script is two bytes short. *)
Definition second_witness_tx : MsgTx :=
  mkMsgTx 2 [strip_witness sample_txin; sample_txin] [mkTxOut 1000 [OP_1]] 17 [].

Lemma PkScriptLocs_wrong_offset :
  exists b off, Serialize second_witness_tx [] = (Ret (), b) /\ PkScriptLocs second_witness_tx = [off] /\
    slice b off (off + 1) <> Some [OP_1] /\ slice b (off + 2) (off + 3) = Some [OP_1].
Proof. eexists _, _. vm_compute. repeat split. discriminate. Qed.
