(* ===== verification/ScriptUtil.v ===== *)
(** The script utilities of src/txscript/script.go: recognisers of standard
    forms, witness programs, canonical pushes, votes, counts of signature
    operations. *)

From S2P Require Import Prelude TxScriptErr Params Opcode ParseScript.

(** [pops[i].Opcode.Value == b]; the index is in range where it is used. *)
Definition op_is (pops : list ParsedOpcode) (i : Z) (b : byte) : bool :=
  match index pops i with
  | Some pop => bool_decide (Value (Opc pop) = b)
  | None => false
  end.

(** * Recognisers *)

Definition isSmallInt (op : Opcode) : bool :=
  bool_decide (Value op = OP_0) || ((u8 OP_1 <=? u8 (Value op)) && (u8 (Value op) <=? u8 OP_16)).

Definition asSmallInt (op : Opcode) : Z :=
  if bool_decide (Value op = OP_0) then 0 else uwrap 8 (u8 (Value op) - (u8 OP_1 - 1)).

Definition isScriptHash (pops : list ParsedOpcode) : bool :=
  (len pops =? 3) && op_is pops 0 OP_HASH160 && op_is pops 1 OP_DATA_20 && op_is pops 2 OP_EQUAL.

(** A script that does not parse is not of the form. *)
Definition parsed_and (script : bytes) (f : list ParsedOpcode -> bool) : bool :=
  match ParseScript script with
  | (_, Some _) => false
  | (pops, None) => f pops
  end.

Definition IsPayToScriptHash (script : bytes) : bool := parsed_and script isScriptHash.

Definition isWitnessScriptHash (pops : list ParsedOpcode) : bool :=
  (len pops =? 2) && op_is pops 0 OP_0 && op_is pops 1 OP_DATA_32.

Definition isWitnessPubKeyHash (pops : list ParsedOpcode) : bool :=
  (len pops =? 2) && op_is pops 0 OP_0 && op_is pops 1 OP_DATA_20.

Definition IsPayToWitnessScriptHash (script : bytes) : bool := parsed_and script isWitnessScriptHash.
Definition IsPayToWitnessPubKeyHash (script : bytes) : bool := parsed_and script isWitnessPubKeyHash.

Definition canonicalPush (pop : ParsedOpcode) : bool :=
  let op := u8 (Value (Opc pop)) in
  let data := Data pop in
  let dataLen := len (Data pop) in
  if u8 OP_16 <? op then true
  else if (op <? u8 OP_PUSHDATA1) && (u8 OP_0 <? op) && ((dataLen =? 1) && (data0 data <=? 16)) then false
  else if (op =? u8 OP_PUSHDATA1) && (dataLen <? u8 OP_PUSHDATA1) then false
  else if (op =? u8 OP_PUSHDATA2) && (dataLen <=? 0xff) then false
  else if (op =? u8 OP_PUSHDATA4) && (dataLen <=? 0xffff) then false
  else true.

Definition isWitnessProgram (pops : list ParsedOpcode) : bool :=
  match pops with
  | [p0; p1] =>
    isSmallInt (Opc p0) && canonicalPush p1 && ((2 <=? len (Data p1)) && (len (Data p1) <=? 40))
  | _ => false
  end.

Definition IsWitnessProgram (script : bytes) : bool :=
  if (len script <? 4) || (42 <? len script) then false
  else parsed_and script isWitnessProgram.

(** The version and the program. *)
Definition ExtractWitnessProgramInfo (script : bytes) : outcome scripterr (Z * bytes) :=
  match ParseScript script with
  | (_, Some e) => mthrow e
  | (pops, None) =>
    if negb (isWitnessProgram pops) then mthrow ErrNoCode
    else
      p0 ← or_panic (index pops 0);
      p1 ← or_panic (index pops 1);
      mret (asSmallInt (Opc p0), Data p1)
  end.

Definition IsPushOnlyScript (script : bytes) : bool := parsed_and script IsPushOnly.

Definition IsUnspendable (pkScript : bytes) : bool :=
  match ParseScript pkScript with
  | (_, Some _) => true
  | (pops, None) => (0 <? len pops) && op_is pops 0 OP_RETURN
  end.

(** * Edits of a parsed script *)

Definition removeOpcode (pkscript : list ParsedOpcode) (opcode : byte) : list ParsedOpcode :=
  List.filter (fun pop => negb (bool_decide (Value (Opc pop) = opcode))) pkscript.

Definition removeOpcodeByData (pkscript : list ParsedOpcode) (data : bytes) : list ParsedOpcode :=
  List.filter (fun pop => negb (canonicalPush pop) || negb (bytes_contains (Data pop) data)) pkscript.

(** * Votes *)

(** A candidate is pushed canonically and has 1 to 79 bytes. *)
Definition is_candidate (pop : ParsedOpcode) : bool :=
  canonicalPush pop && (0 <? len (Data pop)) && (len (Data pop) <? 80).

(** The loop at index [i]; [ops] are the opcodes from there on. *)
Fixpoint votes_loop (pops : list ParsedOpcode) (i : Z) (ops : list ParsedOpcode)
    (voteFor voteAgainst : option bytes) : outcome scripterr (option bytes * option bytes) :=
  match ops with
  | [] => mret (voteFor, voteAgainst)
  | op :: ops' =>
    if negb (bool_decide (Value (Opc op) = OP_VOTE)) then votes_loop pops (i + 1) ops' voteFor voteAgainst
    else if i <? 2 then votes_loop pops (i + 1) ops' voteFor voteAgainst
    else
      p1 ← or_panic (index pops (i - 1));
      p2 ← or_panic (index pops (i - 2));
      if bool_decide (Value (Opc p1) = OP_0) || is_candidate p1 then
        let voteAgainst :=
          if bool_decide (Value (Opc p1) = OP_0) then voteAgainst else Some (Data p1) in
        if bool_decide (Value (Opc p2) = OP_0) then mret (voteFor, voteAgainst)
        else if is_candidate p2 then mret (Some (Data p2), voteAgainst)
        else votes_loop pops (i + 1) ops' voteFor None
      else votes_loop pops (i + 1) ops' voteFor voteAgainst
  end.

(** The candidates voted for and against; [None] is nil. *)
Definition ElectionGetVotesForAgainst (pkScript : bytes) :
    outcome scripterr (option bytes * option bytes) :=
  match ParseScript pkScript with
  | (_, Some _) => mret (None, None)
  | (pops, None) => votes_loop pops 0 pops None None
  end.

(** * Signature operations *)

(** What the opcode [pop] adds, with the opcode before it. *)
Definition sigops_of (precise : bool) (prev : option ParsedOpcode) (pop : ParsedOpcode) : Z :=
  match Value (Opc pop) with
  | OP_CHECKSIG | OP_CHECKSIGVERIFY => 1
  | OP_CHECKMULTISIG | OP_CHECKMULTISIGVERIFY =>
    match prev with
    | Some p =>
      if precise && (u8 OP_1 <=? u8 (Value (Opc p))) && (u8 (Value (Opc p)) <=? u8 OP_16)
      then asSmallInt (Opc p) else MaxPubKeysPerMultiSig
    | None => MaxPubKeysPerMultiSig
    end
  | _ => 0
  end.

Fixpoint sigops_loop (precise : bool) (prev : option ParsedOpcode) (pops : list ParsedOpcode) (nSigs : Z) : Z :=
  match pops with
  | [] => nSigs
  | pop :: pops' => sigops_loop precise (Some pop) pops' (nSigs + sigops_of precise prev pop)
  end.

Definition getSigOpCount (pops : list ParsedOpcode) (precise : bool) : Z :=
  sigops_loop precise None pops 0.

Definition GetSigOpCount (script : bytes) : Z := getSigOpCount (ParseScript script).1 false.

Definition GetPreciseSigOpCount (scriptSig scriptPubKey : bytes) (bip16 : bool) : Z :=
  let pops := (ParseScript scriptPubKey).1 in
  if negb (bip16 && isScriptHash pops) then getSigOpCount pops true
  else match ParseScript scriptSig with
  | (_, Some _) => 0
  | (sigPops, None) =>
    if negb (IsPushOnly sigPops) then 0
    else match index sigPops (len sigPops - 1) with
    | None => 0
    | Some pop =>
      let shScript := Data pop in
      if len shScript =? 0 then 0 else getSigOpCount (ParseScript shScript).1 true
    end
  end.

Definition getWitnessSigOps (pkScript : bytes) (witness : list bytes) : outcome scripterr Z :=
  match ExtractWitnessProgramInfo pkScript with
  | Throw _ => mret 0
  | Panic => Panic
  | Ret (witnessVersion, witnessProgram) =>
    if witnessVersion =? 0 then
      if len witnessProgram =? PayToWitnessPubKeyHashDataSize then mret 1
      else if (len witnessProgram =? PayToWitnessScriptHashDataSize) && (0 <? len witness) then
        witnessScript ← or_panic (index witness (len witness - 1));
        mret (getSigOpCount (ParseScript witnessScript).1 true)
      else mret 0
    else mret 0
  end.

Definition GetWitnessSigOpCount (sigScript pkScript : bytes) (witness : list bytes) : outcome scripterr Z :=
  if IsWitnessProgram pkScript then getWitnessSigOps pkScript witness
  else match ParseScript sigScript with
  | (_, Some _) => mret 0
  | (sigPops, None) =>
    if IsPayToScriptHash pkScript && IsPushOnly sigPops then
      nested ← or_panic (slice_from sigScript 1);
      if IsWitnessProgram nested then getWitnessSigOps nested witness else mret 0
    else mret 0
  end.

(** * Scripts of a given shape *)

(** A script that parses is the concatenation of the encodings. *)
Lemma ParseScript_script_enc s pops : ParseScript s = (pops, None) -> script_enc pops s.
Proof.
  intros H. destruct (ParseScript_total s) as [_ (bs & rest & Henc & E & Hr)].
  rewrite H in *. simpl in *. by rewrite E, Hr, app_nil_r.
Qed.

Lemma script_enc_ParseScript s pops : script_enc pops s -> ParseScript s = (pops, None).
Proof. intros H. apply ParseScript_eq. exists s, []. by rewrite app_nil_r. Qed.

Lemma parsed_and_true s f : parsed_and s f = true <-> exists pops, script_enc pops s /\ f pops = true.
Proof.
  unfold parsed_and. destruct (ParseScript s) as [pops [e|]] eqn:E.
  - split; [done|]. intros (pops' & H & _). apply script_enc_ParseScript in H. congruence.
  - apply ParseScript_script_enc in E as Henc. split; [eauto|].
    intros (pops' & H & Hf). apply script_enc_ParseScript in H. rewrite E in H. by injection H as <-.
Qed.

(** The encoding of an opcode of which only the value is known. *)
Lemma pop_enc_plain pop bs b : pop_enc pop bs -> Value (Opc pop) = b -> opcodeLengths b = 1 -> bs = [b] /\ Data pop = [].
Proof. intros [] <-; simpl; intros H'; [done|..]; exfalso; lia. Qed.

Lemma pop_enc_data pop bs b n :
  pop_enc pop bs -> Value (Opc pop) = b -> opcodeLengths b = 1 + n -> 1 <= n -> bs = b :: Data pop /\ len (Data pop) = n.
Proof. intros [] <-; simpl; intros H' Hn; try (exfalso; lia). split; [done|lia]. Qed.

Lemma index_0 {A} (l : list A) x : index (x :: l) 0 = Some x.
Proof. done. Qed.

Lemma script_enc_1 pop bs : pop_enc pop bs -> script_enc [pop] bs.
Proof. intros H. rewrite <- (app_nil_r bs). by repeat constructor. Qed.

Lemma script_enc_snoc_inv pop pops s :
  script_enc (pop :: pops) s -> exists bs rest, s = bs ++ rest /\ pop_enc pop bs /\ script_enc pops rest.
Proof. inversion 1; subst. eauto 6. Qed.

Lemma script_enc_nil_inv s : script_enc [] s -> s = [].
Proof. by inversion 1. Qed.

Lemma len_3_inv {A} (l : list A) : len l = 3 -> exists a b c, l = [a; b; c].
Proof. destruct l as [|a [|b [|c [|]]]]; intros; try len_lia. eauto. Qed.

Lemma op_is_head pop pops b : op_is (pop :: pops) 0 b = true <-> Value (Opc pop) = b.
Proof. unfold op_is. rewrite index_0. apply bool_decide_eq_true. Qed.

Lemma p2sh_form (s : bytes) :
  IsPayToScriptHash s = true <->
  exists h, len h = 20 /\ s = [OP_HASH160; OP_DATA_20] ++ h ++ [OP_EQUAL].
Proof.
  unfold IsPayToScriptHash. rewrite parsed_and_true. split.
  - intros (pops & Henc & Hs). unfold isScriptHash in Hs. rewrite !andb_true_iff in Hs.
    destruct Hs as [[[Hl%Z.eqb_eq H0] H1] H2]. destruct (len_3_inv pops Hl) as (a & b & c & ->).
    apply script_enc_snoc_inv in Henc as (x & s1 & -> & Ha & Henc).
    apply script_enc_snoc_inv in Henc as (y & s2 & -> & Hb & Henc).
    apply script_enc_snoc_inv in Henc as (z & s3 & -> & Hc & ->%script_enc_nil_inv).
    unfold op_is in H0, H1, H2. simpl in H0, H1, H2. apply bool_decide_eq_true in H0, H1, H2.
    destruct (pop_enc_plain _ _ _ Ha H0 eq_refl) as [-> _].
    destruct (pop_enc_data _ _ _ 20 Hb H1 eq_refl) as [-> Hd]; [lia|].
    destruct (pop_enc_plain _ _ _ Hc H2 eq_refl) as [-> _]. exists (Data b). by rewrite app_nil_r.
  - intros (h & Hh & ->).
    exists [{| Opc := MkOpcode OP_HASH160; Data := [] |}; {| Opc := MkOpcode OP_DATA_20; Data := h |};
            {| Opc := MkOpcode OP_EQUAL; Data := [] |}]. split; [|done].
    apply (script_enc_cons _ _ [OP_HASH160] (OP_DATA_20 :: h ++ [OP_EQUAL])); [by constructor|].
    apply (script_enc_cons _ _ (OP_DATA_20 :: h) [OP_EQUAL]); [constructor; rewrite ?Hh; done|].
    apply script_enc_1. by constructor.
Qed.

(** The recogniser of pay-to-script-hash outputs accepts exactly the scripts
    of BIP0016: OP_HASH160, a push of 20 bytes with OP_DATA_20, OP_EQUAL. *)
Theorem IsPayToScriptHash_spec (s : bytes) :
  IsPayToScriptHash s = true <->
  exists h, len h = 20 /\ s = [OP_HASH160; OP_DATA_20] ++ h ++ [OP_EQUAL].
Proof. apply p2sh_form. Qed.

(** A canonical push of 2 to 40 bytes is a length byte and the data. *)
Lemma witness_push pop bs :
  pop_enc pop bs -> canonicalPush pop = true -> 2 <= len (Data pop) <= 40 ->
  bs = to_byte (len (Data pop)) :: Data pop.
Proof.
  unfold canonicalPush. change (u8 OP_16) with 96. change (u8 OP_PUSHDATA1) with 76. change (u8 OP_0) with 0.
  change (u8 OP_PUSHDATA2) with 77. change (u8 OP_PUSHDATA4) with 78.
  intros [b Hb|b d Hb Hd|b lb d Hb Hl Hd] Hc Hlen; simpl in *; [exfalso; len_lia| |].
  - f_equal. apply u8_inj. rewrite u8_to_byte by lia. rewrite opcodeLengths_spec in Hb.
    unfold op_length in Hb. pose proof (u8_range b). repeat case_match; lia.
  - exfalso. rewrite opcodeLengths_spec in Hb. unfold op_length in Hb. pose proof (u8_range b).
    pose proof (len_nonneg lb).
    destruct (Z.leb_spec (u8 b) 75); [lia|]. destruct (Z.eqb_spec (u8 b) 76) as [E|]; [rewrite E in Hc|];
      [|destruct (Z.eqb_spec (u8 b) 77) as [E|]; [rewrite E in Hc|destruct (Z.eqb_spec (u8 b) 78) as [E|]; [rewrite E in Hc|lia]]];
      simpl in Hc; repeat case_match; lia.
Qed.

(** The version byte of a witness program: OP_0 or OP_1 to OP_16. *)
Definition version_byte (v : byte) : Prop := v = OP_0 \/ 81 <= u8 v <= 96.

Lemma isSmallInt_spec op : isSmallInt op = true <-> version_byte (Value op).
Proof.
  unfold isSmallInt, version_byte. change (u8 OP_1) with 81. change (u8 OP_16) with 96.
  rewrite orb_true_iff, bool_decide_eq_true, andb_true_iff, !Z.leb_le. done.
Qed.

Lemma version_byte_length v : version_byte v -> opcodeLengths v = 1.
Proof.
  intros [->|Hv]; [done|]. rewrite opcodeLengths_spec. unfold op_length. repeat case_match; lia.
Qed.

Lemma isWitnessProgram_enc pops s :
  script_enc pops s -> isWitnessProgram pops = true ->
  exists v prog, version_byte v /\ 2 <= len prog <= 40 /\ s = [v; to_byte (len prog)] ++ prog /\
    pops = [{| Opc := MkOpcode v; Data := [] |}; {| Opc := MkOpcode (to_byte (len prog)); Data := prog |}].
Proof.
  intros Henc Hp. destruct pops as [|p0 [|p1 [|]]]; try done. unfold isWitnessProgram in Hp.
  rewrite !andb_true_iff, !Z.leb_le in Hp. destruct Hp as [[Hv%isSmallInt_spec Hc] Hl].
  pose proof (script_enc_wf _ _ Henc) as Hwf.
  apply script_enc_snoc_inv in Henc as (x & s1 & -> & H0 & Henc).
  apply script_enc_snoc_inv in Henc as (y & s2 & -> & H1 & ->%script_enc_nil_inv).
  destruct (pop_enc_plain _ _ _ H0 eq_refl (version_byte_length _ Hv)) as [-> Hd0].
  pose proof (witness_push _ _ H1 Hc Hl) as Ey. exists (Value (Opc p0)), (Data p1).
  split; [done|]. split; [done|]. split; [rewrite Ey, app_nil_r; done|].
  inversion Hwf as [|? ? W0 Hwf1]; inversion Hwf1 as [|? ? W1 _]; subst.
  destruct p0 as [o0 d0], p1 as [o1 d1]. unfold pop_wf in W0, W1. simpl in *. subst d0.
  rewrite <- W0. do 2 f_equal. rewrite W1. do 2 f_equal. inversion H1; subst; simpl in *; congruence.
Qed.

Lemma witness_program_pops v prog :
  version_byte v -> 2 <= len prog <= 40 ->
  let pops := [{| Opc := MkOpcode v; Data := [] |}; {| Opc := MkOpcode (to_byte (len prog)); Data := prog |}] in
  script_enc pops ([v; to_byte (len prog)] ++ prog) /\ isWitnessProgram pops = true.
Proof.
  intros Hv Hl. split.
  - apply (script_enc_cons _ _ [v] (to_byte (len prog) :: prog)); [constructor; by apply version_byte_length|].
    apply script_enc_1. constructor; [|lia]. rewrite opcodeLengths_spec, u8_to_byte by lia.
    unfold op_length. destruct (Z.leb_spec (len prog) 75); lia.
  - unfold isWitnessProgram. rewrite !andb_true_iff, !Z.leb_le. split; [split|done].
    + by apply isSmallInt_spec.
    + unfold canonicalPush. simpl. rewrite u8_to_byte by lia. change (u8 OP_16) with 96.
      change (u8 OP_PUSHDATA1) with 76. change (u8 OP_PUSHDATA2) with 77. change (u8 OP_PUSHDATA4) with 78.
      repeat case_match; first [done|lia].
Qed.

(** The recogniser of witness programs accepts exactly the scripts of
    BIP0141: a version opcode, a length byte from 2 to 40 and that many bytes;
    and the extraction returns the version number and these bytes. *)
Theorem IsWitnessProgram_spec (s : bytes) :
  (IsWitnessProgram s = true <->
   exists v prog, version_byte v /\ 2 <= len prog <= 40 /\ s = [v; to_byte (len prog)] ++ prog) /\
  (forall v prog, version_byte v -> 2 <= len prog <= 40 -> s = [v; to_byte (len prog)] ++ prog ->
   ExtractWitnessProgramInfo s = Ret (if bool_decide (v = OP_0) then 0 else u8 v - 80, prog)).
Proof.
  split; [split|].
  - unfold IsWitnessProgram. destruct (_ || _); [done|]. rewrite parsed_and_true.
    intros (pops & Henc & Hp). destruct (isWitnessProgram_enc _ _ Henc Hp) as (v & prog & ? & ? & ? & _). eauto.
  - intros (v & prog & Hv & Hl & ->). unfold IsWitnessProgram. rewrite len_app.
    change (len [v; to_byte (len prog)]) with 2.
    destruct (Z.ltb_spec (2 + len prog) 4), (Z.ltb_spec 42 (2 + len prog)); try lia. simpl orb. cbv iota.
    apply parsed_and_true. eexists. by apply witness_program_pops.
  - intros v prog Hv Hl ->. destruct (witness_program_pops v prog Hv Hl) as [Henc Hp].
    unfold ExtractWitnessProgramInfo. rewrite (script_enc_ParseScript _ _ Henc), Hp. simpl.
    unfold asSmallInt. simpl. case_bool_decide; [done|]. change (u8 OP_1) with 81.
    destruct Hv as [->|Hv]; [done|]. by rewrite uwrap_small by lia.
Qed.

(** * Counts of signature operations *)

Lemma sigops_of_bounds prev pop :
  0 <= sigops_of true prev pop <= sigops_of false prev pop /\ sigops_of false prev pop <= MaxPubKeysPerMultiSig.
Proof.
  unfold sigops_of, MaxPubKeysPerMultiSig.
  assert (forall p, 81 <= u8 (Value (Opc p)) <= 96 -> 0 <= asSmallInt (Opc p) <= 16) as Hs.
  { intros p Hp. unfold asSmallInt. case_bool_decide; [lia|]. change (u8 OP_1) with 81.
    rewrite uwrap_small; lia. }
  change (u8 OP_1) with 81. change (u8 OP_16) with 96.
  destruct (Value (Opc pop)); try lia; (destruct prev as [p|]; [|lia]); simpl;
    (destruct ((81 <=? u8 (Value (Opc p))) && (u8 (Value (Opc p)) <=? 96)) eqn:E; [|lia]);
    specialize (Hs p); lia.
Qed.

Lemma sigops_loop_bounds prev pops n m :
  n <= m -> n <= sigops_loop true prev pops n <= sigops_loop false prev pops m /\
  sigops_loop false prev pops m <= m + MaxPubKeysPerMultiSig * len pops.
Proof.
  revert prev n m. induction pops as [|pop pops IH]; intros prev n m Hnm; simpl; [len_lia|].
  pose proof (sigops_of_bounds prev pop).
  destruct (IH (Some pop) (n + sigops_of true prev pop) (m + sigops_of false prev pop)); [lia|].
  rewrite len_cons. unfold MaxPubKeysPerMultiSig in *. lia.
Qed.

Lemma script_enc_count pops s : script_enc pops s -> len pops <= len s.
Proof. induction 1 as [|pop pops b s Hb Hs IH]; [done|]. pose proof (pop_enc_len _ _ Hb). len_lia. Qed.

Lemma parse_count s : len (ParseScript s).1 <= len s.
Proof.
  destruct (ParseScript_total s) as [_ (bs & rest & Henc & E & _)]. apply script_enc_count in Henc.
  apply (f_equal len) in E. len_lia.
Qed.

(** The precise count of signature operations never exceeds the quick one,
    and both are bounded by 20 per byte of script, so the count of a block
    cannot overflow. *)
Theorem sigop_count_bounds (s : bytes) :
  0 <= getSigOpCount (ParseScript s).1 true <= GetSigOpCount s /\
  GetSigOpCount s <= MaxPubKeysPerMultiSig * len s.
Proof.
  unfold GetSigOpCount, getSigOpCount.
  destruct (sigops_loop_bounds None (ParseScript s).1 0 0) as [H1 H2]; [lia|].
  pose proof (parse_count s). unfold MaxPubKeysPerMultiSig in *. lia.
Qed.

Lemma getWitnessSigOps_no_panic pk w : getWitnessSigOps pk w <> Panic.
Proof.
  unfold getWitnessSigOps, ExtractWitnessProgramInfo.
  destruct (ParseScript pk) as [pops [e|]]; [done|].
  destruct (isWitnessProgram pops) eqn:Hp; [|done]. destruct pops as [|p0 [|p1 [|]]]; try done. simpl.
  destruct (asSmallInt (Opc p0) =? 0); [|done]. destruct (_ =? PayToWitnessPubKeyHashDataSize); [done|].
  destruct (_ && (0 <? len w)) eqn:E; [|done].
  destruct (index_is_Some w (len w - 1)) as [x ->]; [lia|done].
Qed.

Lemma p2sh_not_witness h :
  len h = 20 -> IsWitnessProgram ([OP_HASH160; OP_DATA_20] ++ h ++ [OP_EQUAL]) = false.
Proof.
  intros Hh. destruct (IsWitnessProgram _) eqn:E; [|done]. exfalso. revert E.
  unfold IsWitnessProgram. destruct (_ || _); [done|]. rewrite parsed_and_true. intros (pops & Henc & Hp).
  destruct (isWitnessProgram_enc _ _ Henc Hp) as (v & prog & [->|Hv] & _ & [= <-] & _).
  change (u8 OP_HASH160) with 169 in Hv. lia.
Qed.

(** Counting the signature operations of an input panics exactly when it
    spends a pay-to-script-hash output with an empty signature script: the code
    then slices the empty script from index 1. *)
Theorem GetWitnessSigOpCount_panics_iff (sigScript pkScript : bytes) (w : list bytes) :
  GetWitnessSigOpCount sigScript pkScript w = Panic <->
  sigScript = [] /\ IsPayToScriptHash pkScript = true.
Proof.
  unfold GetWitnessSigOpCount. destruct (IsWitnessProgram pkScript) eqn:Ew.
  { split; [intros H; by destruct (getWitnessSigOps_no_panic pkScript w)|].
    intros [_ (h & Hh & ->)%p2sh_form]. by rewrite p2sh_not_witness in Ew. }
  destruct sigScript as [|b s].
  { change (ParseScript []) with ([] : list ParsedOpcode, None : option scripterr). cbv beta iota.
    rewrite andb_true_r. by destruct (IsPayToScriptHash pkScript); split; [|intros []| |intros []]. }
  split; [|by intros []]. destruct (ParseScript (b :: s)) as [pops [e|]]; [done|].
  destruct (_ && _); [|done]. rewrite (slice_from_app [b] s) by done. simpl.
  destruct (IsWitnessProgram s); [|done]. intros H. by destruct (getWitnessSigOps_no_panic s w).
Qed.

(** * Votes *)

(** One side of a ballot: OP_0 abstains, a candidate's key votes. *)
Definition vote_of (pop : ParsedOpcode) : option (option bytes) :=
  if bool_decide (Value (Opc pop) = OP_0) then Some None
  else if is_candidate pop then Some (Some (Data pop)) else None.

(** The first three consecutive opcodes of the form: for, against, OP_VOTE. *)
Fixpoint first_ballot (pops : list ParsedOpcode) : option bytes * option bytes :=
  match pops with
  | p2 :: t =>
    match t with
    | p1 :: p0 :: _ =>
      match bool_decide (Value (Opc p0) = OP_VOTE), vote_of p2, vote_of p1 with
      | true, Some f, Some a => (f, a)
      | _, _, _ => first_ballot t
      end
    | _ => (None, None)
    end
  | [] => (None, None)
  end.

Lemma first_ballot_3 p2 p1 p0 t :
  first_ballot (p2 :: p1 :: p0 :: t) =
  match bool_decide (Value (Opc p0) = OP_VOTE), vote_of p2, vote_of p1 with
  | true, Some f, Some a => (f, a)
  | _, _, _ => first_ballot (p1 :: p0 :: t)
  end.
Proof. done. Qed.

Lemma votes_loop_spec pre p2 p1 ops :
  votes_loop (pre ++ p2 :: p1 :: ops) (len pre + 2) ops None None = Ret (first_ballot (p2 :: p1 :: ops)).
Proof.
  revert pre p2 p1. induction ops as [|op ops IH]; intros pre p2 p1; [done|].
  assert (votes_loop (pre ++ p2 :: p1 :: op :: ops) (len pre + 2 + 1) ops None None =
    Ret (first_ballot (p1 :: op :: ops))) as Hnext.
  { rewrite (cons_middle p2), app_assoc, <- (IH (pre ++ [p2])). f_equal. len_lia. }
  rewrite first_ballot_3. cbn [votes_loop].
  destruct (bool_decide (Value (Opc op) = OP_VOTE)); cbn [negb]; [|exact Hnext].
  pose proof (len_nonneg pre). destruct (Z.ltb_spec (len pre + 2) 2); [lia|].
  replace (len pre + 2 - 1) with (len pre + 1) by lia. replace (len pre + 2 - 2) with (len pre) by lia.
  rewrite index_app_at, index_app_here by lia.
  change (index (p2 :: p1 :: op :: ops) 1) with (Some p1).
  change (index (p2 :: p1 :: op :: ops) 0) with (Some p2). cbn [or_panic mbind outcome_bind].
  unfold vote_of at 1 2. destruct (bool_decide (Value (Opc p1) = OP_0)) eqn:E1; cbn [orb].
  - destruct (bool_decide (Value (Opc p2) = OP_0)); [done|]. destruct (is_candidate p2); [done|exact Hnext].
  - destruct (is_candidate p1).
    + destruct (bool_decide (Value (Opc p2) = OP_0)); [done|]. destruct (is_candidate p2); [done|exact Hnext].
    + destruct (bool_decide (Value (Opc p2) = OP_0)); [exact Hnext|].
      destruct (is_candidate p2); exact Hnext.
Qed.

Lemma first_ballot_bounds pops v :
  (first_ballot pops).1 = Some v \/ (first_ballot pops).2 = Some v -> 1 <= len v <= 79.
Proof.
  assert (forall p w, vote_of p = Some (Some w) -> 1 <= len w <= 79) as Hv.
  { intros p w. unfold vote_of. case_bool_decide; [done|]. destruct (is_candidate p) eqn:E; [|done].
    intros [= <-]. unfold is_candidate in E. lia. }
  induction pops as [|p2 t IH]; [by intros []|]. destruct t as [|p1 [|p0 t]]; [by intros []..|].
  rewrite first_ballot_3. destruct (bool_decide (Value (Opc p0) = OP_VOTE)); [|exact IH].
  destruct (vote_of p2) as [f|] eqn:E2; [|exact IH]. destruct (vote_of p1) as [a|] eqn:E1; [|exact IH].
  cbn [fst snd]. intros [->| ->]; eauto.
Qed.

(** The votes of a script are those of its first complete ballot (three
    consecutive opcodes: a candidate or OP_0 for, a candidate or OP_0 against,
    OP_VOTE); a script that does not parse casts none; the code never panics,
    and a candidate key has 1 to 79 bytes, so it fits the 80-byte key of the
    tally with its padding. *)
Theorem ElectionGetVotes_spec (s : bytes) :
  exists f a, ElectionGetVotesForAgainst s = Ret (f, a) /\
    (f, a) = (match ParseScript s with (pops, None) => first_ballot pops | _ => (None, None) end) /\
    (forall v, f = Some v \/ a = Some v -> 1 <= len v <= 79).
Proof.
  unfold ElectionGetVotesForAgainst. destruct (ParseScript s) as [pops [e|]].
  { exists None, None. split; [done|]. split; [done|]. intros v [H|H]; done. }
  exists (first_ballot pops).1, (first_ballot pops).2. rewrite <- surjective_pairing.
  split; [|split; [done|by apply first_ballot_bounds]].
  destruct pops as [|p2 [|p1 ops]]; [done| |].
  - cbn [votes_loop]. by destruct (negb _).
  - cbn [votes_loop]. destruct (negb _), (negb _); apply (votes_loop_spec []).
Qed.
