(* ===== verification/SigHash.v ===== *)
(** Signature hashes: the original digest and the BIP0143 digest of
    src/txscript/script.go, and the cache of partial digests of
    src/txscript/hashcache.go.  A digest is shown to commit to the parts of the
    transaction that its hash type signs, and to nothing else. *)

From S2P Require Import Prelude TxScriptErr Params Opcode ParseScript Sha Wire MsgTx MsgTxProps ScriptUtil.
From stdpp Require Import gmap.
#[local] Open Scope Z_scope.
#[local] Open Scope list_scope.

(** * Partial digests *)

Definition calcHashPrevOuts (tx : MsgTx) : bytes :=
  DoubleHashB (concat (map (fun i => op_Hash (ti_PreviousOutPoint i) ++
                                     le_split 4 (op_Index (ti_PreviousOutPoint i))) (tx_TxIn tx))).

Definition calcHashSequence (tx : MsgTx) : bytes :=
  DoubleHashB (concat (map (fun i => le_split 4 (ti_Sequence i)) (tx_TxIn tx))).

Definition calcHashOutputs (tx : MsgTx) : bytes :=
  DoubleHashB (buffer_of (for_each (tx_TxOut tx) WriteTxOut)).

Record TxSigHashes : Type := mkSigHashes
  { HashPrevOuts : bytes; HashSequence : bytes; HashOutputs : bytes }.

Definition NewTxSigHashes (tx : MsgTx) : TxSigHashes :=
  mkSigHashes (calcHashPrevOuts tx) (calcHashSequence tx) (calcHashOutputs tx).

(** ** The shared cache *)

#[global] Instance byte_countable : Countable byte.
Proof.
  refine (inj_countable' (fun b => Z.to_N (u8 b)) (fun n => to_byte (Z.of_N n)) _).
  intros b. pose proof (u8_range b). rewrite Z2N.id by lia. by rewrite byte.of_Z_unsigned.
Defined.

(** Keyed by transaction hash; every operation holds the lock. *)
Definition HashCache : Type := gmap bytes TxSigHashes.

Definition NewHashCache : HashCache := ∅.
Definition AddSigHashes (tx : MsgTx) (h : HashCache) : HashCache := <[TxHash tx := NewTxSigHashes tx]> h.
Definition ContainsHashes (txid : bytes) (h : HashCache) : bool := bool_decide (is_Some (h !! txid)).
Definition GetSigHashes (txid : bytes) (h : HashCache) : option TxSigHashes := h !! txid.
Definition PurgeSigHashes (txid : bytes) (h : HashCache) : HashCache := delete txid h.

(** * The digest of BIP0143 *)

Definition zeroHash : bytes := repeat (to_byte 0) 32.

(** [sigHashes] is a pointer: [None] is nil. *)
Definition calcWitnessSignatureHash (subScript : list ParsedOpcode) (sigHashes : option TxSigHashes)
    (hashType : Z) (tx : MsgTx) (idx amt : Z) : outcome scripterr bytes :=
  if len (tx_TxIn tx) - 1 <? idx then mthrow ErrNoCode
  else
    let sigHash := le_split 4 (uint32 (tx_Version tx)) in
    prevOuts ← (if hashType &&& SigHashAnyOneCanPay =? 0
                then sh ← or_panic sigHashes; mret (HashPrevOuts sh) else mret zeroHash);
    let sigHash := sigHash ++ prevOuts in
    sequence ← (if (hashType &&& SigHashAnyOneCanPay =? 0) &&
                   negb (hashType &&& SigHashMask =? SigHashSingle) &&
                   negb (hashType &&& SigHashMask =? SigHashNone)
                then sh ← or_panic sigHashes; mret (HashSequence sh) else mret zeroHash);
    let sigHash := sigHash ++ sequence in
    txIn ← or_panic (index (tx_TxIn tx) idx);
    let sigHash := sigHash ++ op_Hash (ti_PreviousOutPoint txIn) in
    let sigHash := sigHash ++ le_split 4 (op_Index (ti_PreviousOutPoint txIn)) in
    code ← (if isWitnessPubKeyHash subScript then
              sub1 ← or_panic (index subScript 1);
              mret ([Byte.x19] ++ [OP_DUP] ++ [OP_HASH160] ++ [OP_DATA_20] ++ Data sub1 ++
                    [OP_EQUALVERIFY] ++ [OP_CHECKSIG])
            else
              let rawScript := match unparseScript subScript with Ret s => s | _ => [] end in
              mret (buffer_of (WriteVarBytes rawScript)));
    let sigHash := sigHash ++ code in
    let sigHash := sigHash ++ le_split 8 (uint64 amt) in
    let sigHash := sigHash ++ le_split 4 (ti_Sequence txIn) in
    outs ← (if negb (hashType &&& SigHashSingle =? SigHashSingle) &&
               negb (hashType &&& SigHashNone =? SigHashNone)
            then sh ← or_panic sigHashes; mret (HashOutputs sh)
            else if (hashType &&& SigHashMask =? SigHashSingle) && (idx <? len (tx_TxOut tx)) then
              o ← or_panic (index (tx_TxOut tx) idx);
              mret (DoubleHashB (buffer_of (WriteTxOut o)))
            else mret zeroHash);
    let sigHash := sigHash ++ outs in
    let sigHash := sigHash ++ le_split 4 (tx_LockTime tx) in
    let sigHash := sigHash ++ le_split 4 (uint32 hashType) in
    mret (DoubleHashB sigHash).

Definition CalcWitnessSigHash (script : bytes) (sigHashes : option TxSigHashes) (hType : Z)
    (tx : MsgTx) (idx amt : Z) : outcome scripterr bytes :=
  match ParseScript script with
  | (_, Some _) => mthrow ErrNoCode
  | (parsedScript, None) => calcWitnessSignatureHash parsedScript sigHashes hType tx idx amt
  end.

(** * The original digest *)

(** The copy drops [Additional]; inputs and outputs are copied by value. *)
Definition shallowCopyTx (tx : MsgTx) : MsgTx :=
  mkMsgTx (tx_Version tx) (tx_TxIn tx) (tx_TxOut tx) (tx_LockTime tx) [].

Definition set_sig (s : bytes) (ti : TxIn) : TxIn :=
  mkTxIn (ti_PreviousOutPoint ti) s (ti_Witness ti) (ti_Sequence ti).
Definition set_seq (q : Z) (ti : TxIn) : TxIn :=
  mkTxIn (ti_PreviousOutPoint ti) (ti_SignatureScript ti) (ti_Witness ti) q.

(** [for i := range l]. *)
Definition range_map {A} (f : Z -> A -> A) (l : list A) : list A := imap (fun i => f (Z.of_nat i)) l.

(** [for i := range txCopy.TxIn { if i != idx { Sequence = 0 } }]. *)
Definition zero_sequences (idx : Z) (ins : list TxIn) : list TxIn :=
  range_map (fun i ti => if negb (i =? idx) then set_seq 0 ti else ti) ins.

Definition calcSignatureHash (script : list ParsedOpcode) (hashType : Z) (tx : MsgTx) (idx : Z) :
    outcome scripterr bytes :=
  if (hashType &&& SigHashMask =? SigHashSingle) && (len (tx_TxOut tx) <=? idx) then
    mret (to_byte 1 :: repeat (to_byte 0) 31)
  else
    let script := removeOpcode script OP_CODESEPARATOR in
    let txCopy := shallowCopyTx tx in
    let ins := range_map (fun i ti =>
      if i =? idx then set_sig (match unparseScript script with Ret s => s | _ => [] end) ti
      else set_sig [] ti) (tx_TxIn txCopy) in
    '(ins, outs) ←
      (let m := hashType &&& SigHashMask in
       if m =? SigHashNone then mret (zero_sequences idx ins, [])
       else if m =? SigHashSingle then
         outs ← or_panic (slice_to (tx_TxOut txCopy) (idx + 1));
         let outs := range_map (fun i o => if i <? idx then mkTxOut (-1) [] else o) outs in
         mret (zero_sequences idx ins, outs)
       else mret (ins, tx_TxOut txCopy));
    ins ← (if negb (hashType &&& SigHashAnyOneCanPay =? 0)
           then or_panic (slice ins idx (idx + 1)) else mret ins);
    let txCopy := mkMsgTx (tx_Version txCopy) ins outs (tx_LockTime txCopy) [] in
    let wbuf := buffer_of (SerializeNoWitness txCopy) in
    mret (DoubleHashB (wbuf ++ le_split 4 (uint32 hashType))).

Definition CalcSignatureHash (script : bytes) (hashType : Z) (tx : MsgTx) (idx : Z) : outcome scripterr bytes :=
  match ParseScript script with
  | (_, Some _) => mthrow ErrNoCode
  | (parsedScript, None) => calcSignatureHash parsedScript hashType tx idx
  end.

(** * Commitment *)

(** These two strings are not a collision of double SHA-256. *)
Definition no_collision (a b : bytes) : Prop := DoubleHashB a = DoubleHashB b -> a = b.

Lemma app_inj_len {A} (a1 a2 b1 b2 : list A) :
  len a1 = len a2 -> a1 ++ b1 = a2 ++ b2 -> a1 = a2 /\ b1 = b2.
Proof. intros Hl. apply app_inj_1. unfold len in Hl. lia. Qed.

Lemma app_inj_len_r {A} (a1 a2 b1 b2 : list A) :
  len b1 = len b2 -> a1 ++ b1 = a2 ++ b2 -> a1 = a2 /\ b1 = b2.
Proof. intros Hl. apply app_inj_2. unfold len in Hl. lia. Qed.

Lemma le_split_inj k a b :
  0 <= a < 256 ^ Z.of_nat k -> 0 <= b < 256 ^ Z.of_nat k -> le_split k a = le_split k b -> a = b.
Proof. intros Ha Hb H%(f_equal le_combine). by rewrite !le_combine_le_split_small in H. Qed.

Lemma uint32_inj a b : - 2 ^ 31 <= a < 2 ^ 31 -> - 2 ^ 31 <= b < 2 ^ 31 -> uint32 a = uint32 b -> a = b.
Proof. intros. rewrite <- (int32_uint32 a), <- (int32_uint32 b) by done. congruence. Qed.

Lemma version_bytes_inj a b :
  - 2 ^ 31 <= a < 2 ^ 31 -> - 2 ^ 31 <= b < 2 ^ 31 -> version_bytes a = version_bytes b -> a = b.
Proof.
  intros Ha Hb H. apply uint32_inj; [done..|]. revert H. apply (le_split_inj 4); by apply (uwrap_range 32).
Qed.

(** The base encoding determines the transaction up to its witnesses. *)
Definition with_version (v : Z) (tx : MsgTx) : MsgTx :=
  mkMsgTx v (tx_TxIn tx) (tx_TxOut tx) (tx_LockTime tx) (tx_Additional tx).

Lemma base_bytes_version tx : base_bytes tx = version_bytes (tx_Version tx) ++ drop 4 (base_bytes tx).
Proof. done. Qed.

Lemma base_bytes_inj t1 t2 r1 r2 :
  tx_wf t1 -> tx_wf t2 -> base_bytes t1 ++ r1 = base_bytes t2 ++ r2 ->
  tx_Version t1 = tx_Version t2 /\ map strip_witness (tx_TxIn t1) = map strip_witness (tx_TxIn t2) /\
  tx_TxOut t1 = tx_TxOut t2 /\ tx_LockTime t1 = tx_LockTime t2 /\ r1 = r2.
Proof.
  intros W1 W2 H. rewrite (base_bytes_version t1), (base_bytes_version t2), <- !app_assoc in H.
  apply app_inj_len in H as [Hv Hr]; [|done].
  assert (base_bytes (with_version 1 t1) ++ r1 = base_bytes (with_version 1 t2) ++ r2) as H.
  { rewrite (base_bytes_version (with_version 1 t1)), (base_bytes_version (with_version 1 t2)), <- !app_assoc.
    by f_equal. }
  assert (forall t, tx_wf t -> tx_wf (with_version 1 t)) as Hw by (intros t []; by split).
  pose proof (reads_base _ (NewMsgTx 1) BaseEncoding (Hw _ W1) ltac:(done) ltac:(by right) r1) as R1.
  rewrite H, (reads_base _ (NewMsgTx 1) BaseEncoding (Hw _ W2) ltac:(done) ltac:(by right) r2) in R1.
  injection R1 as E1 E2 E3 E4. destruct W1 as [V1 _ _ _ _ _], W2 as [V2 _ _ _ _ _].
  split; [by apply version_bytes_inj|]. done.
Qed.

Lemma buffer_of_writes m b : writes m b -> buffer_of m = b.
Proof. intros H. unfold buffer_of. by rewrite (H []). Qed.

Lemma buffer_of_base tx : tx_wf tx -> buffer_of (SerializeNoWitness tx) = base_bytes tx.
Proof. intros H. apply buffer_of_writes. apply (writes_BtcEncode_plain tx BaseEncoding H). by left. Qed.

(** ** What a hash type signs *)

Inductive sighash_kind : Type := KAll | KNone | KSingle.

Definition kind_of (hashType : Z) : sighash_kind :=
  let m := hashType &&& SigHashMask in
  if m =? SigHashNone then KNone else if m =? SigHashSingle then KSingle else KAll.

Definition acp (hashType : Z) : bool := negb (hashType &&& SigHashAnyOneCanPay =? 0).

(** The input [i], with the script only where it is signed and the sequence
    number only where it is covered. *)
Definition signed_in (k : sighash_kind) (raw : bytes) (idx i : Z) (ti : TxIn) : TxIn :=
  mkTxIn (ti_PreviousOutPoint ti) (if i =? idx then raw else []) None
    (if (i =? idx) || match k with KAll => true | _ => false end then ti_Sequence ti else 0).

Definition signed_ins (hashType : Z) (raw : bytes) (idx : Z) (ins : list TxIn) : list TxIn :=
  let ins := range_map (signed_in (kind_of hashType) raw idx) ins in
  if acp hashType then take 1 (drop (Z.to_nat idx) ins) else ins.

Definition signed_outs (hashType : Z) (idx : Z) (outs : list TxOut) : list TxOut :=
  match kind_of hashType with
  | KAll => outs
  | KNone => []
  | KSingle => repeat (mkTxOut (-1) []) (Z.to_nat idx) ++ take 1 (drop (Z.to_nat idx) outs)
  end.

Definition signed_tx (hashType : Z) (raw : bytes) (idx : Z) (tx : MsgTx) : MsgTx :=
  mkMsgTx (tx_Version tx) (signed_ins hashType raw idx (tx_TxIn tx)) (signed_outs hashType idx (tx_TxOut tx))
    (tx_LockTime tx) [].

Definition raw_script (script : list ParsedOpcode) : bytes :=
  match unparseScript (removeOpcode script OP_CODESEPARATOR) with Ret s => s | _ => [] end.

(** ** The code hashes the signed parts *)

Lemma range_map_lookup {A} (f : Z -> A -> A) l i : range_map f l !! i = f (Z.of_nat i) <$> l !! i.
Proof. unfold range_map. by rewrite list_lookup_imap. Qed.

Lemma range_map_length {A} (f : Z -> A -> A) l : length (range_map f l) = length l.
Proof. unfold range_map. apply length_imap. Qed.

Lemma len_range_map {A} (f : Z -> A -> A) l : len (range_map f l) = len l.
Proof. unfold len. by rewrite range_map_length. Qed.

Lemma range_map_ext {A B} (h : A -> B) (f g : Z -> A -> A) l1 l2 :
  map h l1 = map h l2 -> (forall i a b, h a = h b -> h (f i a) = h (g i b)) ->
  map h (range_map f l1) = map h (range_map g l2).
Proof.
  intros Hl H. apply list_eq. intros i. rewrite !list_lookup_fmap, !range_map_lookup.
  assert (h <$> l1 !! i = h <$> l2 !! i) as E
    by (rewrite <- !list_lookup_fmap; f_equal; exact Hl).
  destruct (l1 !! i), (l2 !! i); simpl in *; try done. injection E as E. f_equal. by apply H.
Qed.

Lemma range_map_Forall {A} (P Q : A -> Prop) (f : Z -> A -> A) l :
  Forall P l -> (forall i a, P a -> Q (f i a)) -> Forall Q (range_map f l).
Proof.
  intros HP H. apply Forall_lookup. intros i x. rewrite range_map_lookup.
  destruct (l !! i) as [a|] eqn:E; [|done]. intros [= <-]. apply H. by eapply Forall_lookup.
Qed.

Lemma slice_one {A} (l : list A) i :
  0 <= i < len l -> slice l i (i + 1) = Some (take 1 (drop (Z.to_nat i) l)).
Proof.
  intros Hi. unfold slice. destruct (Z.leb_spec 0 i), (Z.leb_spec i (i + 1)), (Z.leb_spec (i + 1) (len l)); try lia.
  simpl. by replace (i + 1 - i) with 1 by lia.
Qed.

Lemma base_bytes_strip v ins outs lock a b :
  base_bytes (mkMsgTx v ins outs lock a) = base_bytes (mkMsgTx v (map strip_witness ins) outs lock b).
Proof.
  unfold base_bytes, inputs_bytes. simpl. rewrite map_txin_strip. unfold len. by rewrite length_map.
Qed.

Lemma lookup_repeat {A} (x : A) n i : (i < n)%nat -> repeat x n !! i = Some x.
Proof. revert i. induction n as [|n IH]; intros [|i] Hi; simpl; try lia; [done|]. apply IH. lia. Qed.

Section legacy.
Context (script : list ParsedOpcode) (hashType : Z) (tx : MsgTx) (idx : Z).
Context (Hwf : tx_wf tx) (Hidx : 0 <= idx < len (tx_TxIn tx)).
Context (Hraw : len (raw_script script) <= MaxMessagePayload).

Let ins0 := range_map (fun i ti =>
  if i =? idx then set_sig (raw_script script) ti else set_sig [] ti) (tx_TxIn tx).
Let ins1 := match kind_of hashType with KAll => ins0 | _ => zero_sequences idx ins0 end.

Lemma legacy_ins :
  map strip_witness ins1 = range_map (signed_in (kind_of hashType) (raw_script script) idx) (tx_TxIn tx).
Proof.
  apply list_eq. intros i. rewrite list_lookup_fmap, range_map_lookup. subst ins1.
  destruct (kind_of hashType); unfold zero_sequences; rewrite ?range_map_lookup; subst ins0;
    rewrite range_map_lookup; destruct (tx_TxIn tx !! i) as [ti|]; try done; simpl; f_equal;
    unfold signed_in, strip_witness; destruct (Z.of_nat i =? idx); done.
Qed.

Lemma legacy_ins_len : len ins1 = len (tx_TxIn tx).
Proof.
  subst ins1 ins0. unfold zero_sequences. by destruct (kind_of hashType); rewrite ?len_range_map.
Qed.

Lemma map_take_drop {A B} (f : A -> B) n l : map f (take 1 (drop n l)) = take 1 (drop n (map f l)).
Proof. by rewrite skipn_map, firstn_map. Qed.

Lemma single_outs :
  idx < len (tx_TxOut tx) ->
  range_map (fun i o => if i <? idx then mkTxOut (-1) [] else o) (take (Z.to_nat (idx + 1)) (tx_TxOut tx)) =
  repeat (mkTxOut (-1) []) (Z.to_nat idx) ++ take 1 (drop (Z.to_nat idx) (tx_TxOut tx)).
Proof.
  intros Ho. apply list_eq. intros i. rewrite range_map_lookup.
  destruct (Nat.lt_ge_cases i (Z.to_nat idx)) as [Hi|Hi].
  - rewrite lookup_app_l by (rewrite repeat_length; lia). rewrite lookup_take_lt by lia.
    destruct (lookup_lt_is_Some_2 (tx_TxOut tx) i) as [o ->]; [unfold len in *; lia|]. simpl.
    destruct (Z.ltb_spec (Z.of_nat i) idx); [|lia].
    by rewrite lookup_repeat by lia.
  - rewrite lookup_app_r by (rewrite repeat_length; lia). rewrite repeat_length.
    destruct (decide (i = Z.to_nat idx)) as [->|Hne].
    + rewrite Nat.sub_diag, !lookup_take_lt, lookup_drop, Nat.add_0_r by lia.
      destruct (tx_TxOut tx !! Z.to_nat idx); [|done]. simpl. destruct (Z.ltb_spec (Z.of_nat (Z.to_nat idx)) idx); [lia|done].
    + rewrite !lookup_take_ge by lia. done.
Qed.

Lemma signed_tx_wf : tx_wf (signed_tx hashType (raw_script script) idx tx).
Proof.
  destruct Hwf as [Hv Hi Hni Ho Hno Hl].
  assert (Forall txin_wf (range_map (signed_in (kind_of hashType) (raw_script script) idx) (tx_TxIn tx))) as Hs.
  { eapply range_map_Forall; [exact Hi|]. intros i ti [Hp Hs Hq _ _]. split; simpl; [done| | |done|constructor].
    - destruct (i =? idx); [done|]. len_lia || done.
    - destruct (_ || _); [done|lia]. }
  split; simpl; [done| | | | |done].
  - unfold signed_ins. destruct (acp hashType); [|done]. by apply Forall_take, Forall_drop.
  - unfold signed_ins. destruct (acp hashType); [|by rewrite len_range_map].
    unfold len in *. rewrite length_take. assert (maxTxInPerMessage = 818401) as -> by done. lia.
  - unfold signed_outs. destruct (kind_of hashType); [done|constructor|].
    apply Forall_app. split; [|by apply Forall_take, Forall_drop].
    apply Forall_forall. intros o Hin. apply list_elem_of_In, repeat_spec in Hin as ->. by split.
  - unfold signed_outs. assert (maxTxOutPerMessage = 3728271) as E by done.
    assert (maxTxInPerMessage = 818401) as E' by done.
    destruct (kind_of hashType); [done|len_lia|]. rewrite len_app. unfold len in *.
    rewrite repeat_length, length_take. lia.
Qed.

Lemma legacy_ins_wf : Forall txin_wf ins1.
Proof.
  assert (Forall txin_wf ins0) as H0.
  { subst ins0. eapply range_map_Forall; [apply Hwf|]. intros i ti [? ? ? ? ?].
    destruct (i =? idx); by split. }
  subst ins1. destruct (kind_of hashType); [done|..];
    (eapply range_map_Forall; [exact H0|]; intros i ti [? ? ? ? ?]; destruct (i =? idx); by split).
Qed.

(** The digest is the hash of the signed parts and the hash type. *)
Lemma calcSignatureHash_spec :
  (kind_of hashType = KSingle -> idx < len (tx_TxOut tx)) ->
  calcSignatureHash script hashType tx idx =
  Ret (DoubleHashB (base_bytes (signed_tx hashType (raw_script script) idx tx) ++ le_split 4 (uint32 hashType))).
Proof.
  intros Hsingle. unfold calcSignatureHash.
  assert ((hashType &&& SigHashMask =? SigHashSingle) && (len (tx_TxOut tx) <=? idx) = false) as ->.
  { unfold kind_of in Hsingle. destruct (Z.eqb_spec (hashType &&& SigHashMask) SigHashSingle) as [E|]; [|done].
    rewrite E in Hsingle. simpl. specialize (Hsingle eq_refl). lia. }
  fold (raw_script script). cbn [tx_TxIn tx_TxOut tx_Version tx_LockTime shallowCopyTx]. fold ins0.
  set (body := if hashType &&& SigHashMask =? SigHashNone then _ else _).
  assert (body = Ret (ins1, signed_outs hashType idx (tx_TxOut tx))) as ->.
  { subst body. unfold signed_outs. subst ins1. unfold kind_of in *.
    destruct (hashType &&& SigHashMask =? SigHashNone); [done|].
    destruct (hashType &&& SigHashMask =? SigHashSingle); [|done]. specialize (Hsingle eq_refl).
    unfold slice_to, slice. destruct (Z.leb_spec 0 (idx + 1)), (Z.leb_spec (idx + 1) (len (tx_TxOut tx))); try lia.
    cbn [Z.leb Z.compare andb or_panic mbind outcome_bind]. rewrite Z.sub_0_r. by rewrite drop_0, single_outs. }
  cbn [mbind outcome_bind].
  assert ((if negb (hashType &&& SigHashAnyOneCanPay =? 0) then or_panic (slice ins1 idx (idx + 1)) else mret ins1) =
    Ret (if acp hashType then take 1 (drop (Z.to_nat idx) ins1) else ins1) :> outcome scripterr _) as ->.
  { fold (acp hashType). destruct (acp hashType); [|done]. rewrite slice_one; [done|]. by rewrite legacy_ins_len. }
  cbn [mbind outcome_bind]. unfold mret, outcome_ret. do 3 f_equal.
  set (ins2 := if acp hashType then _ else ins1). set (t := mkMsgTx _ ins2 _ _ _).
  assert (map strip_witness ins2 = tx_TxIn (signed_tx hashType (raw_script script) idx tx)) as E.
  { subst ins2. simpl. unfold signed_ins. rewrite <- legacy_ins. destruct (acp hashType); [|done]. apply map_take_drop. }
  assert (base_bytes t = base_bytes (signed_tx hashType (raw_script script) idx tx)) as <-.
  { unfold t. rewrite (base_bytes_strip _ _ _ _ [] []), E. done. }
  apply buffer_of_base. pose proof signed_tx_wf as [Hv Hi Hni Ho Hno Hl].
  split; try done; simpl; subst ins2.
  - pose proof legacy_ins_wf. destruct (acp hashType); [|done]. by apply Forall_take, Forall_drop.
  - rewrite <- E in Hni. unfold len in *. by rewrite length_map in Hni.
Qed.
End legacy.

(** ** The meaning of the hash types *)

(** Two transactions agree on what [hashType] signs at their inputs [i1] and
    [i2]: version, lock time and the signed input always; every previous output
    and the position unless anyone can pay; the other sequence numbers only
    when all outputs are signed too; all outputs, none, or the one at the
    position of the input. *)
Record same_signed (hashType : Z) (tx1 : MsgTx) (i1 : Z) (tx2 : MsgTx) (i2 : Z) : Prop :=
  { ss_version : tx_Version tx1 = tx_Version tx2;
    ss_lock : tx_LockTime tx1 = tx_LockTime tx2;
    ss_own : (fun ti => (ti_PreviousOutPoint ti, ti_Sequence ti)) <$> index (tx_TxIn tx1) i1 =
             (fun ti => (ti_PreviousOutPoint ti, ti_Sequence ti)) <$> index (tx_TxIn tx2) i2;
    ss_prevouts : acp hashType = false ->
      i1 = i2 /\ map ti_PreviousOutPoint (tx_TxIn tx1) = map ti_PreviousOutPoint (tx_TxIn tx2);
    ss_sequences : acp hashType = false -> kind_of hashType = KAll ->
      map ti_Sequence (tx_TxIn tx1) = map ti_Sequence (tx_TxIn tx2);
    ss_outputs : match kind_of hashType with
                 | KAll => tx_TxOut tx1 = tx_TxOut tx2
                 | KNone => True
                 | KSingle => i1 = i2 /\ index (tx_TxOut tx1) i1 = index (tx_TxOut tx2) i2
                 end }.

Lemma index_lookup {A} (l : list A) i : 0 <= i -> index l i = l !! Z.to_nat i.
Proof. intros. unfold index. by destruct (Z.leb_spec 0 i); [|lia]. Qed.

Lemma take_1_drop {A} (l : list A) i : take 1 (drop i l) = match l !! i with Some x => [x] | None => [] end.
Proof. revert i. induction l as [|a l IH]; intros [|i]; simpl; done. Qed.

Lemma map_eq_lookup {A B} (f : A -> B) l1 l2 :
  (forall i : nat, f <$> l1 !! i = f <$> l2 !! i) -> map f l1 = map f l2.
Proof. intros H. apply list_eq. intros i. by rewrite !list_lookup_fmap. Qed.

Lemma map_eq_lookup_inv {A B} (f : A -> B) l1 l2 (i : nat) :
  map f l1 = map f l2 -> f <$> l1 !! i = f <$> l2 !! i.
Proof. intros H. rewrite <- !list_lookup_fmap. f_equal. exact H. Qed.

Section same_signed.
Context (hashType : Z) (raw : bytes) (tx1 tx2 : MsgTx) (i1 i2 : Z).
Context (H1 : 0 <= i1 < len (tx_TxIn tx1)) (H2 : 0 <= i2 < len (tx_TxIn tx2)).
Context (S1 : kind_of hashType = KSingle -> i1 < len (tx_TxOut tx1)).
Context (S2 : kind_of hashType = KSingle -> i2 < len (tx_TxOut tx2)).

Lemma own_lookup tx i : 0 <= i < len (tx_TxIn tx) -> exists ti, tx_TxIn tx !! Z.to_nat i = Some ti.
Proof. intros H. apply lookup_lt_is_Some_2. unfold len in H. lia. Qed.

Lemma signed_ins_same :
  same_signed hashType tx1 i1 tx2 i2 ->
  signed_ins hashType raw i1 (tx_TxIn tx1) = signed_ins hashType raw i2 (tx_TxIn tx2).
Proof.
  intros [_ _ Hown Hp Hs _]. unfold signed_ins. rewrite !index_lookup in Hown by lia.
  destruct (own_lookup tx1 i1 H1) as [t1 E1], (own_lookup tx2 i2 H2) as [t2 E2].
  rewrite E1, E2 in Hown. injection Hown as Ho Hq. destruct (acp hashType).
  - rewrite !take_1_drop, !range_map_lookup, E1, E2. simpl. unfold signed_in.
    rewrite !Z2Nat.id, !Z.eqb_refl by lia. simpl. by rewrite Ho, Hq.
  - destruct (Hp eq_refl) as [<- Hprev]. apply list_eq. intros i. rewrite !range_map_lookup.
    pose proof (map_eq_lookup_inv _ _ _ i Hprev) as Hi.
    destruct (decide (i = Z.to_nat i1)) as [->|Hne].
    { rewrite E1, E2. simpl. unfold signed_in. rewrite Z2Nat.id, Z.eqb_refl by lia. simpl. by rewrite Ho, Hq. }
    assert ((Z.of_nat i =? i1) = false) as Hf by lia.
    destruct (kind_of hashType) eqn:Ek; [pose proof (map_eq_lookup_inv _ _ _ i (Hs eq_refl eq_refl)) as Hsi|..];
      destruct (tx_TxIn tx1 !! i), (tx_TxIn tx2 !! i); simpl in *; try done; f_equal;
      unfold signed_in; rewrite Hf; simpl; congruence.
Qed.

Lemma signed_outs_same :
  same_signed hashType tx1 i1 tx2 i2 ->
  signed_outs hashType i1 (tx_TxOut tx1) = signed_outs hashType i2 (tx_TxOut tx2).
Proof.
  intros [_ _ _ _ _ Ho]. unfold signed_outs. destruct (kind_of hashType); [done|done|].
  destruct Ho as [<- Ho]. rewrite !index_lookup in Ho by lia. by rewrite !take_1_drop, Ho.
Qed.

Lemma signed_own raw2 :
  signed_ins hashType raw i1 (tx_TxIn tx1) = signed_ins hashType raw2 i2 (tx_TxIn tx2) -> raw <> [] ->
  raw = raw2 /\ (acp hashType = false -> i1 = i2) /\
  (fun ti => (ti_PreviousOutPoint ti, ti_Sequence ti)) <$> index (tx_TxIn tx1) i1 =
  (fun ti => (ti_PreviousOutPoint ti, ti_Sequence ti)) <$> index (tx_TxIn tx2) i2.
Proof.
  intros H Hraw. unfold signed_ins in H. rewrite !index_lookup by lia.
  destruct (own_lookup tx1 i1 H1) as [t1 E1], (own_lookup tx2 i2 H2) as [t2 E2].
  destruct (acp hashType).
  - rewrite !take_1_drop, !range_map_lookup, E1, E2 in H. simpl in H.
    unfold signed_in in H. rewrite !Z2Nat.id, !Z.eqb_refl in H by lia. simpl in H. injection H as Ha Hr Hb.
    split; [done|]. split; [done|]. rewrite E1, E2. simpl. by rewrite Ha, Hb.
  - assert (range_map (signed_in (kind_of hashType) raw i1) (tx_TxIn tx1) !! Z.to_nat i1 =
            range_map (signed_in (kind_of hashType) raw2 i2) (tx_TxIn tx2) !! Z.to_nat i1) as Hl by (by rewrite H).
    rewrite !range_map_lookup, E1 in Hl. simpl in Hl. unfold signed_in in Hl.
    rewrite Z2Nat.id, Z.eqb_refl in Hl by lia.
    destruct (tx_TxIn tx2 !! Z.to_nat i1) as [t|] eqn:E; [|done]. simpl in Hl.
    destruct (Z.eqb_spec i1 i2) as [->|]; [|by injection Hl as _ ? _].
    injection Hl as Ha Hr Hb. split; [done|]. split; [done|]. rewrite E1, E. simpl. by rewrite Ha, Hb.
Qed.

Lemma signed_ins_inv :
  signed_ins hashType raw i1 (tx_TxIn tx1) = signed_ins hashType raw i2 (tx_TxIn tx2) ->
  acp hashType = false ->
  map ti_PreviousOutPoint (tx_TxIn tx1) = map ti_PreviousOutPoint (tx_TxIn tx2) /\
  (kind_of hashType = KAll -> map ti_Sequence (tx_TxIn tx1) = map ti_Sequence (tx_TxIn tx2)).
Proof.
  intros H Ha. unfold signed_ins in H. rewrite Ha in H.
  assert (forall i : nat, signed_in (kind_of hashType) raw i1 (Z.of_nat i) <$> tx_TxIn tx1 !! i =
    signed_in (kind_of hashType) raw i2 (Z.of_nat i) <$> tx_TxIn tx2 !! i) as Hl.
  { intros i. by rewrite <- !range_map_lookup, H. }
  split; [|intros Hk]; apply map_eq_lookup; intros i; specialize (Hl i);
    destruct (tx_TxIn tx1 !! i), (tx_TxIn tx2 !! i); simpl in *; try done; unfold signed_in in Hl.
  - by injection Hl as ->.
  - rewrite Hk, !orb_true_r in Hl. by injection Hl as _ _ ->.
Qed.

Lemma signed_outs_inv :
  signed_outs hashType i1 (tx_TxOut tx1) = signed_outs hashType i2 (tx_TxOut tx2) ->
  match kind_of hashType with
  | KAll => tx_TxOut tx1 = tx_TxOut tx2
  | KNone => True
  | KSingle => i1 = i2 /\ index (tx_TxOut tx1) i1 = index (tx_TxOut tx2) i2
  end.
Proof.
  unfold signed_outs. destruct (kind_of hashType); [done|done|]. intros H.
  specialize (S1 eq_refl). specialize (S2 eq_refl). rewrite !index_lookup by lia. rewrite !take_1_drop in H.
  destruct (lookup_lt_is_Some_2 (tx_TxOut tx1) (Z.to_nat i1)) as [o1 E1]; [unfold len in *; lia|].
  destruct (lookup_lt_is_Some_2 (tx_TxOut tx2) (Z.to_nat i2)) as [o2 E2]; [unfold len in *; lia|].
  rewrite E1, E2 in *. apply (f_equal length) in H as Hl. rewrite !length_app, !repeat_length in Hl. simpl in Hl.
  split; [lia|]. apply app_inj_2 in H as [_ H]; [|done]. by injection H as ->.
Qed.
End same_signed.

(** A transaction, an input of it, a script and a hash type, in the ranges of the wire
    format. *)
Record signable (script : list ParsedOpcode) (hashType : Z) (tx : MsgTx) (idx : Z) : Prop :=
  { sg_wf : tx_wf tx;
    sg_idx : 0 <= idx < len (tx_TxIn tx);
    sg_raw : len (raw_script script) <= MaxMessagePayload;
    sg_type : 0 <= hashType < 2 ^ 32 }.

(** SigHashSingle for an input without an output of the same index. *)
Definition unmatched_single (hashType : Z) (tx : MsgTx) (idx : Z) : bool :=
  (hashType &&& SigHashMask =? SigHashSingle) && (len (tx_TxOut tx) <=? idx).

Lemma matched_single ht tx i : unmatched_single ht tx i = false -> kind_of ht = KSingle -> i < len (tx_TxOut tx).
Proof.
  unfold unmatched_single, kind_of. destruct (_ =? SigHashNone); [done|]. destruct (_ =? SigHashSingle); [|done].
  intros Hl _. by apply Z.leb_gt in Hl.
Qed.

(** The number one, little endian. *)
Definition hash_one : bytes := to_byte 1 :: repeat (to_byte 0) 31.

(** The string whose double SHA-256 is signed. *)
Definition sighash_preimage (script : list ParsedOpcode) (hashType : Z) (tx : MsgTx) (idx : Z) : bytes :=
  base_bytes (signed_tx hashType (raw_script script) idx tx) ++ le_split 4 (uint32 hashType).

Lemma strip_signed_ins ht raw i ins : map strip_witness (signed_ins ht raw i ins) = signed_ins ht raw i ins.
Proof.
  unfold signed_ins. assert (forall l, map strip_witness (range_map (signed_in (kind_of ht) raw i) l) =
    range_map (signed_in (kind_of ht) raw i) l) as E.
  { intros l. apply list_eq. intros j. rewrite list_lookup_fmap, range_map_lookup. by destruct (l !! j). }
  destruct (acp ht); [|apply E]. by rewrite map_take_drop, E.
Qed.

Section commitment.
Context (s1 s2 : list ParsedOpcode) (ht1 ht2 : Z) (tx1 tx2 : MsgTx) (i1 i2 : Z).
Context (G1 : signable s1 ht1 tx1 i1) (G2 : signable s2 ht2 tx2 i2).
Context (U1 : unmatched_single ht1 tx1 i1 = false) (U2 : unmatched_single ht2 tx2 i2 = false).

Let O1 := matched_single ht1 tx1 i1 U1.
Let O2 := matched_single ht2 tx2 i2 U2.

Lemma sighash_preimage_inj :
  raw_script s1 <> [] -> sighash_preimage s1 ht1 tx1 i1 = sighash_preimage s2 ht2 tx2 i2 ->
  ht1 = ht2 /\ raw_script s1 = raw_script s2 /\ same_signed ht1 tx1 i1 tx2 i2.
Proof.
  destruct G1 as [W1 R1 L1 T1], G2 as [W2 R2 L2 T2]. intros Hne H.
  apply base_bytes_inj in H as (Hv & Hi & Ho & Hl & Ht); [|by apply signed_tx_wf..]. simpl in *.
  rewrite !(uwrap_small 32) in Ht by lia. apply (le_split_inj 4) in Ht; [|done..]. pose proof O2 as O2'. clear O2. subst ht2.
  rewrite !strip_signed_ins in Hi.
  destruct (signed_own ht1 (raw_script s1) tx1 tx2 i1 i2 R1 R2 O1 _ Hi Hne) as (Er & Hpos & Hown).
  rewrite <- Er in Hi. split; [done|]. split; [done|].
  pose proof (signed_ins_inv ht1 (raw_script s1) tx1 tx2 i1 i2 Hi) as Hins.
  pose proof (signed_outs_inv ht1 tx1 tx2 i1 i2 R1 R2 O1 O2' Ho) as Houts.
  split; try done; intros Ha; [split; [auto|]|]; by destruct (Hins Ha); auto.
Qed.

Lemma sighash_preimage_same :
  ht1 = ht2 -> raw_script s1 = raw_script s2 -> same_signed ht1 tx1 i1 tx2 i2 ->
  sighash_preimage s1 ht1 tx1 i1 = sighash_preimage s2 ht2 tx2 i2.
Proof.
  destruct G1 as [W1 R1 L1 T1], G2 as [W2 R2 L2 T2]. pose proof O2 as O2'. clear O2. intros <- Hraw H. unfold sighash_preimage, signed_tx.
  rewrite <- Hraw, (signed_ins_same _ _ tx1 tx2 i1 i2), (signed_outs_same _ tx1 tx2 i1 i2) by done.
  by destruct H as [-> -> _ _ _ _].
Qed.
End commitment.

(** C22: the legacy signature hash.  For SigHashSingle on an input that has no output of
    its index it is the constant one, which commits to nothing.  In all other cases it is
    the double SHA-256 of a string that is determined by, and for a script that is not
    empty determines, the script, the hash type and exactly the parts of the transaction that
    the hash type signs.  So a signature cannot be moved to another script or to other
    signed parts without a SHA-256 collision of the two strings, and the outputs under
    SigHashNone, the other outputs under SigHashSingle and the other inputs under
    SigHashAnyOneCanPay can be changed after signing. *)
Theorem sighash_commits (s1 s2 : list ParsedOpcode) (ht1 ht2 : Z) (tx1 tx2 : MsgTx) (i1 i2 : Z)
    (G1 : signable s1 ht1 tx1 i1) (G2 : signable s2 ht2 tx2 i2) :
  calcSignatureHash s1 ht1 tx1 i1 =
    Ret (if unmatched_single ht1 tx1 i1 then hash_one else DoubleHashB (sighash_preimage s1 ht1 tx1 i1)) /\
  (unmatched_single ht1 tx1 i1 = false -> unmatched_single ht2 tx2 i2 = false ->
   (ht1 = ht2 /\ raw_script s1 = raw_script s2 /\ same_signed ht1 tx1 i1 tx2 i2 ->
    sighash_preimage s1 ht1 tx1 i1 = sighash_preimage s2 ht2 tx2 i2) /\
   (raw_script s1 <> [] -> sighash_preimage s1 ht1 tx1 i1 = sighash_preimage s2 ht2 tx2 i2 ->
    ht1 = ht2 /\ raw_script s1 = raw_script s2 /\ same_signed ht1 tx1 i1 tx2 i2)).
Proof.
  split; [|intros U1 U2; split].
  - destruct (unmatched_single ht1 tx1 i1) eqn:U1.
    + unfold calcSignatureHash. unfold unmatched_single in U1. by rewrite U1.
    + destruct G1. apply calcSignatureHash_spec; try done. by apply matched_single.
  - intros (? & ? & ?). by apply sighash_preimage_same.
  - by apply sighash_preimage_inj.
Qed.

(** ** Examples of signed transactions *)

Definition pop (b : byte) : ParsedOpcode := {| Opc := MkOpcode b; Data := [] |}.

(** The sample transaction with another output. *)
Definition sample_tx_other : MsgTx := mkMsgTx 2 [sample_txin] [mkTxOut 999 [OP_2]] 17 [].

Lemma sample_tx_other_wf : tx_wf sample_tx_other.
Proof. repeat first [done|constructor]. Qed.

Lemma sample_signable ht tx :
  tx = sample_tx \/ tx = sample_tx_other -> 0 <= ht < 2 ^ 32 -> signable [pop OP_CHECKSIG] ht tx 0.
Proof.
  intros Htx Hht. split; [|by destruct Htx as [->| ->]|done|done].
  destruct Htx as [->| ->]; [apply sample_tx_wf|apply sample_tx_other_wf].
Qed.

(** Under SigHashNone two transactions with different outputs share the string
    that is signed. *)
Lemma sighash_commits_witness :
  calcSignatureHash [pop OP_CHECKSIG] SigHashNone sample_tx 0 =
    Ret (DoubleHashB (sighash_preimage [pop OP_CHECKSIG] SigHashNone sample_tx 0)) /\
  sighash_preimage [pop OP_CHECKSIG] SigHashNone sample_tx 0 =
    sighash_preimage [pop OP_CHECKSIG] SigHashNone sample_tx_other 0.
Proof.
  destruct (sighash_commits [pop OP_CHECKSIG] [pop OP_CHECKSIG] SigHashNone SigHashNone sample_tx sample_tx_other
    0 0) as [H1 H2];
    [apply sample_signable; [by left|done]|apply sample_signable; [by right|done]|].
  split; [exact H1|]. clear H1. apply (proj1 (H2 eq_refl eq_refl)). split; [reflexivity|]. split; [reflexivity|by split].
Defined.

(** * The BIP0143 digest *)

(** A list is determined by its concatenated encodings. *)
Lemma concat_encodings_inj {A} (m : Rd A) (f : A -> bytes) l1 l2 :
  Forall (fun a => reads m (f a) a /\ 1 <= len (f a)) l1 ->
  Forall (fun a => reads m (f a) a /\ 1 <= len (f a)) l2 ->
  concat (map f l1) = concat (map f l2) -> l1 = l2.
Proof.
  intros F1. revert l2. induction F1 as [|a l1 [Ra La] F1 IH]; intros l2 F2 H.
  - destruct F2 as [|b l2 [_ Lb] F2]; [done|]. simpl in H. apply (f_equal len) in H. len_lia.
  - destruct F2 as [|b l2 [Rb Lb] F2]; simpl in H; [apply (f_equal len) in H; len_lia|].
    pose proof (Ra (concat (map f l1))) as E. rewrite H, Rb in E. injection E as -> E.
    f_equal. apply IH; [done|]. apply app_inv_head in H. exact H.
Qed.

(** The strings behind the three shared hashes. *)
Definition prevouts_bytes (tx : MsgTx) : bytes :=
  concat (map (fun ti => outpoint_bytes (ti_PreviousOutPoint ti)) (tx_TxIn tx)).
Definition sequences_bytes (tx : MsgTx) : bytes :=
  concat (map (fun ti => le_split 4 (ti_Sequence ti)) (tx_TxIn tx)).
Definition outputs_bytes (tx : MsgTx) : bytes := concat (map txout_bytes (tx_TxOut tx)).

Lemma calcHashPrevOuts_inj tx1 tx2 :
  tx_wf tx1 -> tx_wf tx2 -> no_collision (prevouts_bytes tx1) (prevouts_bytes tx2) ->
  calcHashPrevOuts tx1 = calcHashPrevOuts tx2 ->
  map ti_PreviousOutPoint (tx_TxIn tx1) = map ti_PreviousOutPoint (tx_TxIn tx2).
Proof.
  intros W1 W2 N H%N. unfold prevouts_bytes in H.
  rewrite <- !(map_map ti_PreviousOutPoint outpoint_bytes) in H.
  apply (concat_encodings_inj readOutPoint outpoint_bytes); [..|exact H].
  all: apply Forall_map.
  all: [> destruct W1 as [_ Hi _ _ _ _] | destruct W2 as [_ Hi _ _ _ _] ].
  all: eapply Forall_impl; [exact Hi|]; intros ti [Hp _ _ _ _]; split; [by apply reads_outpoint|].
  all: unfold outpoint_bytes; len_lia.
Qed.

Lemma calcHashSequence_inj tx1 tx2 :
  tx_wf tx1 -> tx_wf tx2 -> no_collision (sequences_bytes tx1) (sequences_bytes tx2) ->
  calcHashSequence tx1 = calcHashSequence tx2 ->
  map ti_Sequence (tx_TxIn tx1) = map ti_Sequence (tx_TxIn tx2).
Proof.
  intros W1 W2 N H%N. unfold sequences_bytes in H.
  rewrite <- !(map_map ti_Sequence (le_split 4)) in H.
  apply (concat_encodings_inj Uint32 (le_split 4)); [..|exact H].
  all: apply Forall_map.
  all: [> destruct W1 as [_ Hi _ _ _ _] | destruct W2 as [_ Hi _ _ _ _] ].
  all: eapply Forall_impl; [exact Hi|]; intros ti [_ _ Hq _ _]; split; [by apply (reads_UintN 4)|].
  all: len_lia.
Qed.

Lemma calcHashOutputs_eq tx : tx_wf tx -> calcHashOutputs tx = DoubleHashB (outputs_bytes tx).
Proof.
  intros [_ _ _ Ho _ _]. unfold calcHashOutputs. f_equal. apply buffer_of_writes, writes_for_each.
  eapply Forall_impl; [exact Ho|]. apply writes_txout.
Qed.

Lemma txout_reads o : txout_wf o -> reads readTxOut (txout_bytes o) o /\ 1 <= len (txout_bytes o).
Proof. intros H. split; [by apply reads_txout|]. unfold txout_bytes. len_lia. Qed.

Lemma calcHashOutputs_inj tx1 tx2 :
  tx_wf tx1 -> tx_wf tx2 -> no_collision (outputs_bytes tx1) (outputs_bytes tx2) ->
  calcHashOutputs tx1 = calcHashOutputs tx2 -> tx_TxOut tx1 = tx_TxOut tx2.
Proof.
  intros W1 W2 N. rewrite !calcHashOutputs_eq by done. intros H%N.
  destruct W1 as [_ _ _ O1 _ _], W2 as [_ _ _ O2 _ _].
  apply (concat_encodings_inj readTxOut txout_bytes); [..|exact H];
    (eapply Forall_impl; [eassumption|]; apply txout_reads).
Qed.

(** The parts of the preimage. *)
Definition script_code (sub : list ParsedOpcode) : bytes :=
  if isWitnessPubKeyHash sub then
    [Byte.x19; OP_DUP; OP_HASH160; OP_DATA_20] ++ match index sub 1 with Some p => Data p | None => [] end ++
    [OP_EQUALVERIFY; OP_CHECKSIG]
  else buffer_of (WriteVarBytes (match unparseScript sub with Ret s => s | _ => [] end)).

Definition wit_prevouts (hashType : Z) (tx : MsgTx) : bytes :=
  if acp hashType then zeroHash else calcHashPrevOuts tx.
Definition wit_sequences (hashType : Z) (tx : MsgTx) : bytes :=
  match acp hashType, kind_of hashType with
  | false, KAll => calcHashSequence tx
  | _, _ => zeroHash
  end.

(** The outputs are hashed as a whole exactly when bit 1 of the type is clear. *)
Definition wit_outputs (hashType : Z) (tx : MsgTx) (idx : Z) : bytes :=
  if negb (Z.testbit hashType 1) then calcHashOutputs tx
  else match kind_of hashType, index (tx_TxOut tx) idx with
  | KSingle, Some o => DoubleHashB (buffer_of (WriteTxOut o))
  | _, _ => zeroHash
  end.

Definition wit_preimage (sub : list ParsedOpcode) (hashType : Z) (tx : MsgTx) (idx amt : Z) (ti : TxIn) : bytes :=
  (version_bytes (tx_Version tx) ++ wit_prevouts hashType tx ++ wit_sequences hashType tx ++
   outpoint_bytes (ti_PreviousOutPoint ti)) ++
  script_code sub ++
  (le_split 8 (uint64 amt) ++ le_split 4 (ti_Sequence ti) ++ wit_outputs hashType tx idx ++
   le_split 4 (tx_LockTime tx) ++ le_split 4 (uint32 hashType)).

(** The two tests of the code on the type are a test of bit 1. *)
Lemma land_2 h : (h &&& 2 =? 2) = Z.testbit h 1.
Proof.
  destruct (Z.testbit h 1) eqn:E.
  - apply Z.eqb_eq, Z.bits_inj'. intros n Hn. rewrite Z.land_spec. change 2 with (2 ^ 1).
    rewrite Z.pow2_bits_eqb by lia. destruct (Z.eqb_spec 1 n) as [<-|]; [by rewrite E|by rewrite andb_false_r].
  - apply Z.eqb_neq. intros H. apply (f_equal (fun x => Z.testbit x 1)) in H.
    rewrite Z.land_spec, E in H. done.
Qed.

Lemma land_3 h : (h &&& 3 =? 3) = Z.testbit h 0 && Z.testbit h 1.
Proof.
  destruct (Z.testbit h 0) eqn:E0, (Z.testbit h 1) eqn:E1; simpl.
  - apply Z.eqb_eq, Z.bits_inj'. intros n Hn. rewrite Z.land_spec. change 3 with (Z.ones 2).
    destruct (Z.lt_ge_cases n 2); [|rewrite Z.ones_spec_high by lia; by rewrite andb_false_r].
    assert (n = 0 \/ n = 1) as [->| ->] by lia; [rewrite E0|rewrite E1]; reflexivity.
  - apply Z.eqb_neq. intros H. apply (f_equal (fun x => Z.testbit x 1)) in H. by rewrite Z.land_spec, E1 in H.
  - apply Z.eqb_neq. intros H. apply (f_equal (fun x => Z.testbit x 0)) in H. by rewrite Z.land_spec, E0 in H.
  - apply Z.eqb_neq. intros H. apply (f_equal (fun x => Z.testbit x 0)) in H. by rewrite Z.land_spec, E0 in H.
Qed.

Lemma outputs_test h :
  negb (h &&& SigHashSingle =? SigHashSingle) && negb (h &&& SigHashNone =? SigHashNone) = negb (Z.testbit h 1).
Proof.
  unfold SigHashSingle, SigHashNone. rewrite land_3, land_2.
  by destruct (Z.testbit h 0), (Z.testbit h 1).
Qed.

Lemma isWitnessPubKeyHash_len sub : isWitnessPubKeyHash sub = true -> exists p0 p1, sub = [p0; p1].
Proof. unfold isWitnessPubKeyHash. rewrite !andb_true_iff, Z.eqb_eq. intros [[H _] _]. by apply len_2_inv. Qed.

Lemma calcWitnessSignatureHash_spec sub hashType tx idx amt ti :
  index (tx_TxIn tx) idx = Some ti ->
  calcWitnessSignatureHash sub (Some (NewTxSigHashes tx)) hashType tx idx amt =
  Ret (DoubleHashB (wit_preimage sub hashType tx idx amt ti)).
Proof.
  intros Hti. pose proof (index_Some_lt _ _ _ Hti). unfold calcWitnessSignatureHash.
  destruct (Z.ltb_spec (len (tx_TxIn tx) - 1) idx); [lia|]. rewrite Hti, outputs_test.
  assert (forall E (b : bool) (x y : bytes), (if b then sh ← or_panic (Some x); mret sh else mret y) =
    Ret (if b then x else y) :> outcome E _) as Hif by (by intros ? []).
  cbn [or_panic mbind outcome_bind NewTxSigHashes HashPrevOuts HashSequence HashOutputs].
  unfold mret, outcome_ret.
  replace (if hashType &&& SigHashAnyOneCanPay =? 0 then Ret (calcHashPrevOuts tx) else Ret zeroHash)
    with (Ret (wit_prevouts hashType tx) : outcome scripterr bytes)
    by (unfold wit_prevouts, acp; by destruct (_ =? 0)).
  cbn [mbind outcome_bind].
  replace (if _ && _ && _ then Ret (calcHashSequence tx) else Ret zeroHash)
    with (Ret (wit_sequences hashType tx) : outcome scripterr bytes).
  2: { unfold wit_sequences, acp, kind_of. destruct (hashType &&& SigHashAnyOneCanPay =? 0); [|done]. simpl.
       destruct (Z.eqb_spec (hashType &&& SigHashMask) SigHashSingle) as [E|];
         [by rewrite E|by destruct (hashType &&& SigHashMask =? SigHashNone)]. }
  cbn [mbind outcome_bind].
  set (code := if isWitnessPubKeyHash sub then _ else _).
  assert (code = Ret (script_code sub)) as ->.
  { subst code. unfold script_code. destruct (isWitnessPubKeyHash sub) eqn:E; [|done].
    apply isWitnessPubKeyHash_len in E as (p0 & p1 & ->). done. }
  cbn [mbind outcome_bind].
  set (outs := if negb (Z.testbit hashType 1) then _ else _).
  assert (outs = Ret (wit_outputs hashType tx idx)) as ->.
  { subst outs. unfold wit_outputs. destruct (negb _); [done|]. unfold kind_of.
    destruct (Z.eqb_spec (hashType &&& SigHashMask) SigHashSingle) as [->|]; simpl.
    - destruct (Z.ltb_spec idx (len (tx_TxOut tx))).
      + by destruct (index_is_Some (tx_TxOut tx) idx) as [o ->]; [lia|].
      + destruct (index (tx_TxOut tx) idx) eqn:E; [|done]. apply index_Some_lt in E. lia.
    - by destruct (_ =? SigHashNone). }
  cbn [mbind outcome_bind]. unfold wit_preimage, outpoint_bytes, version_bytes. by rewrite <- !app_assoc.
Qed.

Lemma wit_preimage_inj s1 s2 ht1 ht2 tx1 tx2 i1 i2 a1 a2 t1 t2 :
  outpoint_wf (ti_PreviousOutPoint t1) -> outpoint_wf (ti_PreviousOutPoint t2) ->
  wit_preimage s1 ht1 tx1 i1 a1 t1 = wit_preimage s2 ht2 tx2 i2 a2 t2 ->
  version_bytes (tx_Version tx1) = version_bytes (tx_Version tx2) /\
  wit_prevouts ht1 tx1 = wit_prevouts ht2 tx2 /\ wit_sequences ht1 tx1 = wit_sequences ht2 tx2 /\
  outpoint_bytes (ti_PreviousOutPoint t1) = outpoint_bytes (ti_PreviousOutPoint t2) /\
  script_code s1 = script_code s2 /\ le_split 8 (uint64 a1) = le_split 8 (uint64 a2) /\
  le_split 4 (ti_Sequence t1) = le_split 4 (ti_Sequence t2) /\
  wit_outputs ht1 tx1 i1 = wit_outputs ht2 tx2 i2 /\
  le_split 4 (tx_LockTime tx1) = le_split 4 (tx_LockTime tx2) /\
  le_split 4 (uint32 ht1) = le_split 4 (uint32 ht2).
Proof.
  intros [Hh1 _] [Hh2 _] H. unfold wit_preimage, outpoint_bytes in *.
  assert (forall ht tx, len (wit_prevouts ht tx) = 32) as Lp.
  { intros. unfold wit_prevouts. destruct (acp ht); [done|apply len_DoubleHashB]. }
  assert (forall ht tx, len (wit_sequences ht tx) = 32) as Ls.
  { intros. unfold wit_sequences. destruct (acp ht), (kind_of ht); done || apply len_DoubleHashB. }
  assert (forall ht tx i, len (wit_outputs ht tx i) = 32) as Lo.
  { intros. unfold wit_outputs. destruct (negb _); [apply len_DoubleHashB|].
    destruct (kind_of ht), (index (tx_TxOut tx) i); done || apply len_DoubleHashB. }
  assert (forall v, len (version_bytes v) = 4) as Lv by (intros; apply len_le_split).
  apply app_inj_len in H as [Ha H]; [|by rewrite !len_app, !Lp, !Ls, !Lv, !len_le_split, Hh1, Hh2].
  apply app_inj_len_r in H as [Hc H]; [|by rewrite !len_app, !Lo, !len_le_split].
  apply app_inj_len in Ha as [Hv Ha]; [|by rewrite !Lv].
  apply app_inj_len in Ha as [Hp Ha]; [|by rewrite !Lp].
  apply app_inj_len in Ha as [Hs Ha]; [|by rewrite !Ls].
  apply app_inj_len in H as [Hamt H]; [|by rewrite !len_le_split].
  apply app_inj_len in H as [Hseq H]; [|by rewrite !len_le_split].
  apply app_inj_len in H as [Ho H]; [|by rewrite !Lo].
  apply app_inj_len in H as [Hl H]; [|by rewrite !len_le_split]. tauto.
Qed.

Lemma uint64_inj a b : - 2 ^ 63 <= a < 2 ^ 63 -> - 2 ^ 63 <= b < 2 ^ 63 -> uint64 a = uint64 b -> a = b.
Proof. intros. rewrite <- (int64_uint64 a), <- (int64_uint64 b) by done. congruence. Qed.

Lemma outpoint_bytes_inj o1 o2 : outpoint_wf o1 -> outpoint_wf o2 -> outpoint_bytes o1 = outpoint_bytes o2 -> o1 = o2.
Proof.
  intros [H1 I1] [H2 I2] H. unfold outpoint_bytes in H. apply app_inj_len in H as [Hh Hi]; [|lia].
  apply (le_split_inj 4) in Hi; [|done..]. destruct o1, o2. simpl in *. congruence.
Qed.

Lemma tx_wf_input tx i t : tx_wf tx -> index (tx_TxIn tx) i = Some t -> txin_wf t.
Proof.
  intros [_ Hi _ _ _ _] E. pose proof (index_Some_lt _ _ _ E). rewrite index_lookup in E by lia.
  by eapply Forall_lookup in Hi.
Qed.

Lemma wit_outputs_single ht tx i o :
  tx_wf tx -> kind_of ht = KSingle -> index (tx_TxOut tx) i = Some o ->
  txout_wf o /\ wit_outputs ht tx i = DoubleHashB (txout_bytes o).
Proof.
  intros [_ _ _ Ho _ _] Hk E. pose proof (index_Some_lt _ _ _ E) as Hi.
  assert (txout_wf o) as Hw.
  { rewrite index_lookup in E by lia. by eapply Forall_lookup in Ho. }
  split; [done|]. unfold wit_outputs. rewrite Hk, E.
  assert (Z.testbit ht 1 = true) as ->.
  { unfold kind_of in Hk. destruct (_ =? SigHashNone); [done|].
    destruct (Z.eqb_spec (ht &&& SigHashMask) SigHashSingle) as [Em|]; [|done].
    apply (f_equal (fun x => Z.testbit x 1)) in Em. rewrite Z.land_spec in Em.
    change (Z.testbit SigHashMask 1) with true in Em. by rewrite andb_true_r in Em. }
  simpl. f_equal. by apply buffer_of_writes, writes_txout.
Qed.

(** C23: the BIP0143 signature hash is the double SHA-256 of a string that
    determines the spent amount, the script code, the hash type, version, lock
    time and the signed input; and, unless the strings hashed inside it collide,
    all previous outputs unless anyone can pay, all sequence numbers for the
    SigHashAll family, all outputs when bit 1 of the type is clear, and the
    output at the input's position under SigHashSingle. *)
Theorem witness_sighash_commits (s1 s2 : list ParsedOpcode) (ht1 ht2 : Z) (tx1 tx2 : MsgTx)
    (i1 i2 a1 a2 : Z) (t1 t2 : TxIn) (W1 : tx_wf tx1) (W2 : tx_wf tx2)
    (E1 : index (tx_TxIn tx1) i1 = Some t1) (E2 : index (tx_TxIn tx2) i2 = Some t2)
    (T1 : 0 <= ht1 < 2 ^ 32) (T2 : 0 <= ht2 < 2 ^ 32)
    (A1 : - 2 ^ 63 <= a1 < 2 ^ 63) (A2 : - 2 ^ 63 <= a2 < 2 ^ 63) :
  calcWitnessSignatureHash s1 (Some (NewTxSigHashes tx1)) ht1 tx1 i1 a1 =
    Ret (DoubleHashB (wit_preimage s1 ht1 tx1 i1 a1 t1)) /\
  (wit_preimage s1 ht1 tx1 i1 a1 t1 = wit_preimage s2 ht2 tx2 i2 a2 t2 ->
   ht1 = ht2 /\ a1 = a2 /\ script_code s1 = script_code s2 /\
   tx_Version tx1 = tx_Version tx2 /\ tx_LockTime tx1 = tx_LockTime tx2 /\
   ti_PreviousOutPoint t1 = ti_PreviousOutPoint t2 /\ ti_Sequence t1 = ti_Sequence t2 /\
   (acp ht1 = false -> no_collision (prevouts_bytes tx1) (prevouts_bytes tx2) ->
    map ti_PreviousOutPoint (tx_TxIn tx1) = map ti_PreviousOutPoint (tx_TxIn tx2)) /\
   (acp ht1 = false -> kind_of ht1 = KAll -> no_collision (sequences_bytes tx1) (sequences_bytes tx2) ->
    map ti_Sequence (tx_TxIn tx1) = map ti_Sequence (tx_TxIn tx2)) /\
   (Z.testbit ht1 1 = false -> no_collision (outputs_bytes tx1) (outputs_bytes tx2) ->
    tx_TxOut tx1 = tx_TxOut tx2) /\
   (forall o1 o2, kind_of ht1 = KSingle -> index (tx_TxOut tx1) i1 = Some o1 ->
    index (tx_TxOut tx2) i2 = Some o2 -> no_collision (txout_bytes o1) (txout_bytes o2) -> o1 = o2)).
Proof.
  split; [by apply calcWitnessSignatureHash_spec|]. intros H.
  destruct (tx_wf_input _ _ _ W1 E1) as [P1 _ Q1 _ _], (tx_wf_input _ _ _ W2 E2) as [P2 _ Q2 _ _].
  apply wit_preimage_inj in H as (Hv & Hp & Hs & Hop & Hc & Ha & Hq & Ho & Hl & Ht); [|done..].
  rewrite !(uwrap_small 32) in Ht by lia. apply (le_split_inj 4) in Ht; [|done..]. subst ht2.
  apply (le_split_inj 8) in Ha; [|by apply (uwrap_range 64)..]. apply uint64_inj in Ha; [|done..].
  apply version_bytes_inj in Hv; [|by destruct W1|by destruct W2].
  apply (le_split_inj 4) in Hl; [|by destruct W1|by destruct W2].
  apply (le_split_inj 4) in Hq; [|done..]. apply outpoint_bytes_inj in Hop; [|done..].
  repeat (split; [done|]). split; [|split; [|split]].
  - intros Hacp N. unfold wit_prevouts in Hp. rewrite Hacp in Hp. by apply calcHashPrevOuts_inj.
  - intros Hacp Hk N. unfold wit_sequences in Hs. rewrite Hacp, Hk in Hs. by apply calcHashSequence_inj.
  - intros Hb N. unfold wit_outputs in Ho. rewrite Hb in Ho. by apply calcHashOutputs_inj.
  - intros o1 o2 Hk O1 O2 N. destruct (wit_outputs_single ht1 tx1 i1 o1) as [Wo1 F1]; [done..|].
    destruct (wit_outputs_single ht1 tx2 i2 o2) as [Wo2 F2]; [done..|].
    rewrite F1, F2 in Ho. apply N in Ho.
    pose proof (reads_txout o1 Wo1 []) as X. rewrite Ho, (reads_txout o2 Wo2 []) in X. by injection X.
Qed.

(** Two amounts are told apart by the string that is signed. *)
Lemma witness_sighash_commits_witness :
  wit_preimage [pop OP_CHECKSIG] SigHashAll sample_tx 0 1000 sample_txin <>
  wit_preimage [pop OP_CHECKSIG] SigHashAll sample_tx 0 1001 sample_txin.
Proof.
  destruct (witness_sighash_commits [pop OP_CHECKSIG] [pop OP_CHECKSIG] SigHashAll SigHashAll
    sample_tx sample_tx 0 0 1000 1001 sample_txin sample_txin sample_tx_wf sample_tx_wf) as [_ X]; [done..|].
  intros H. destruct (X H) as (_ & Ha & _). discriminate Ha.
Defined.

(** For hash types other than SigHashNone and SigHashSingle that have bit 1
    set (6, 7, 10, ...) the BIP0143 hash of the code does not cover the outputs
    at all, although BIP0143, and the original hash of the same code, treat
    such types as SigHashAll. *)
Theorem witness_sighash_undefined_types (sub : list ParsedOpcode) (hashType : Z) (tx : MsgTx)
    (outs : list TxOut) (idx amt : Z) (Hk : kind_of hashType = KAll) (Hb : Z.testbit hashType 1 = true)
    (Hi : 0 <= idx < len (tx_TxIn tx)) :
  let tx' := mkMsgTx (tx_Version tx) (tx_TxIn tx) outs (tx_LockTime tx) (tx_Additional tx) in
  calcWitnessSignatureHash sub (Some (NewTxSigHashes tx)) hashType tx idx amt =
  calcWitnessSignatureHash sub (Some (NewTxSigHashes tx')) hashType tx' idx amt.
Proof.
  destruct (index_is_Some _ _ Hi) as [ti E]. intros tx'.
  rewrite (calcWitnessSignatureHash_spec _ _ _ _ _ _ E), (calcWitnessSignatureHash_spec _ _ tx' _ _ ti E).
  do 2 f_equal. unfold wit_preimage, wit_outputs. by rewrite Hb, Hk.
Qed.

Lemma witness_sighash_undefined_types_witness :
  calcWitnessSignatureHash [pop OP_CHECKSIG] (Some (NewTxSigHashes sample_tx)) 6 sample_tx 0 1000 =
  calcWitnessSignatureHash [pop OP_CHECKSIG] (Some (NewTxSigHashes sample_tx_other)) 6 sample_tx_other 0 1000.
Proof.
  apply (witness_sighash_undefined_types [pop OP_CHECKSIG] 6 sample_tx (tx_TxOut sample_tx_other) 0 1000); done.
Defined.
