(* ===== verification/Field.v ===== *)
(** The secp256k1 field arithmetic of src/btcec/field.go: 256-bit values as ten
    32-bit words in base 2^26, every word operation at its Go width.  The
    theorems are in FieldProps.v and FieldOps.v. *)

From S2P Require Import Prelude.

Definition twoBitsMask : Z := 0x3.
Definition fourBitsMask : Z := 0xf.
Definition sixBitsMask : Z := 0x3f.
Definition eightBitsMask : Z := 0xff.
Definition fieldBase : Z := 26.
Definition fieldBaseMask : Z := (1 <<< fieldBase) - 1.
Definition fieldMSBBits : Z := 256 - fieldBase * (10 - 1).
Definition fieldMSBMask : Z := (1 <<< fieldMSBBits) - 1.
Definition fieldPrimeWordZero : Z := 0x3fffc2f.
Definition fieldPrimeWordOne : Z := 0x3ffffbf.

(** The array [n [10]uint32]. *)
Record fieldVal : Type := mkF
  { n0 : Z; n1 : Z; n2 : Z; n3 : Z; n4 : Z; n5 : Z; n6 : Z; n7 : Z; n8 : Z; n9 : Z }.

(** [x << k] of a uint32. *)
Definition shl32 (x k : Z) : Z := uint32 (x <<< k).

(** Go's crypto/subtle on the non-negative values it is used with. *)
Definition ConstantTimeEq (x y : Z) : Z := if x =? y then 1 else 0.
Definition ConstantTimeLessOrEq (x y : Z) : Z := if x <=? y then 1 else 0.

Definition Zero : fieldVal := mkF 0 0 0 0 0 0 0 0 0 0.
Definition SetInt (ui : Z) : fieldVal := mkF (uint32 ui) 0 0 0 0 0 0 0 0 0.

(** The argument is a [*[32]byte]. *)
Definition SetBytes (b32 : bytes) : fieldVal :=
  let b i := u8 (nth (Z.to_nat i) b32 Byte.x00) in
  let n0 := (b 31) ||| shl32 (b 30) 8 ||| shl32 (b 29) 16 ||| shl32 ((b 28) &&& twoBitsMask) 24 in
  let n1 := ((b 28) >>> 2) ||| shl32 (b 27) 6 ||| shl32 (b 26) 14 ||| shl32 ((b 25) &&& fourBitsMask) 22 in
  let n2 := ((b 25) >>> 4) ||| shl32 (b 24) 4 ||| shl32 (b 23) 12 ||| shl32 ((b 22) &&& sixBitsMask) 20 in
  let n3 := ((b 22) >>> 6) ||| shl32 (b 21) 2 ||| shl32 (b 20) 10 ||| shl32 (b 19) 18 in
  let n4 := (b 18) ||| shl32 (b 17) 8 ||| shl32 (b 16) 16 ||| shl32 ((b 15) &&& twoBitsMask) 24 in
  let n5 := ((b 15) >>> 2) ||| shl32 (b 14) 6 ||| shl32 (b 13) 14 ||| shl32 ((b 12) &&& fourBitsMask) 22 in
  let n6 := ((b 12) >>> 4) ||| shl32 (b 11) 4 ||| shl32 (b 10) 12 ||| shl32 ((b 9) &&& sixBitsMask) 20 in
  let n7 := ((b 9) >>> 6) ||| shl32 (b 8) 2 ||| shl32 (b 7) 10 ||| shl32 (b 6) 18 in
  let n8 := (b 5) ||| shl32 (b 4) 8 ||| shl32 (b 3) 16 ||| shl32 ((b 2) &&& twoBitsMask) 24 in
  let n9 := ((b 2) >>> 2) ||| shl32 (b 1) 6 ||| shl32 (b 0) 14 in
  mkF n0 n1 n2 n3 n4 n5 n6 n7 n8 n9.

(** Slices longer than 32 bytes are cut, shorter ones are padded on the left. *)
Definition SetByteSlice (b : bytes) : fieldVal :=
  let b := take 32 b in
  SetBytes (repeat Byte.x00 (32 - length b) ++ b).

Definition Normalize (f : fieldVal) : fieldVal :=
  let t9 := n9 f in
  let m := t9 >>> fieldMSBBits in
  let t9 := t9 &&& fieldMSBMask in
  let t0 := uint32 (n0 f + m * 977) in
  let t1 := uint32 ((t0 >>> fieldBase) + n1 f + (m <<< 6)) in
  let t0 := t0 &&& fieldBaseMask in
  let t2 := uint32 ((t1 >>> fieldBase) + n2 f) in
  let t1 := t1 &&& fieldBaseMask in
  let t3 := uint32 ((t2 >>> fieldBase) + n3 f) in
  let t2 := t2 &&& fieldBaseMask in
  let t4 := uint32 ((t3 >>> fieldBase) + n4 f) in
  let t3 := t3 &&& fieldBaseMask in
  let t5 := uint32 ((t4 >>> fieldBase) + n5 f) in
  let t4 := t4 &&& fieldBaseMask in
  let t6 := uint32 ((t5 >>> fieldBase) + n6 f) in
  let t5 := t5 &&& fieldBaseMask in
  let t7 := uint32 ((t6 >>> fieldBase) + n7 f) in
  let t6 := t6 &&& fieldBaseMask in
  let t8 := uint32 ((t7 >>> fieldBase) + n8 f) in
  let t7 := t7 &&& fieldBaseMask in
  let t9 := uint32 ((t8 >>> fieldBase) + t9) in
  let t8 := t8 &&& fieldBaseMask in
  let m := ConstantTimeEq (int32 (t9)) fieldMSBMask in
  let m := m &&& ConstantTimeEq (int32 (t2 &&& t3 &&& t4 &&& t5 &&& t6 &&& t7 &&& t8)) fieldBaseMask in
  let m := m &&& ConstantTimeLessOrEq (1 <<< fieldBase) (uint32 ((uint32 (t0 + 977) >>> fieldBase) + t1 + 64)) in
  let m := m ||| (t9 >>> fieldMSBBits) in
  let t0 := uint32 (t0 + m * 977) in
  let t1 := uint32 ((t0 >>> fieldBase) + t1 + (m <<< 6)) in
  let t0 := t0 &&& fieldBaseMask in
  let t2 := uint32 ((t1 >>> fieldBase) + t2) in
  let t1 := t1 &&& fieldBaseMask in
  let t3 := uint32 ((t2 >>> fieldBase) + t3) in
  let t2 := t2 &&& fieldBaseMask in
  let t4 := uint32 ((t3 >>> fieldBase) + t4) in
  let t3 := t3 &&& fieldBaseMask in
  let t5 := uint32 ((t4 >>> fieldBase) + t5) in
  let t4 := t4 &&& fieldBaseMask in
  let t6 := uint32 ((t5 >>> fieldBase) + t6) in
  let t5 := t5 &&& fieldBaseMask in
  let t7 := uint32 ((t6 >>> fieldBase) + t7) in
  let t6 := t6 &&& fieldBaseMask in
  let t8 := uint32 ((t7 >>> fieldBase) + t8) in
  let t7 := t7 &&& fieldBaseMask in
  let t9 := uint32 ((t8 >>> fieldBase) + t9) in
  let t8 := t8 &&& fieldBaseMask in
  let t9 := t9 &&& fieldMSBMask in
  mkF t0 t1 t2 t3 t4 t5 t6 t7 t8 t9.

(** The 32 bytes written by [PutBytes]. *)
Definition PutBytes (f : fieldVal) : bytes :=
  [to_byte ((n9 f >>> 14) &&& eightBitsMask);
   to_byte ((n9 f >>> 6) &&& eightBitsMask);
   to_byte ((n8 f >>> 24) &&& twoBitsMask ||| shl32 (n9 f &&& sixBitsMask) 2);
   to_byte ((n8 f >>> 16) &&& eightBitsMask);
   to_byte ((n8 f >>> 8) &&& eightBitsMask);
   to_byte (n8 f &&& eightBitsMask);
   to_byte ((n7 f >>> 18) &&& eightBitsMask);
   to_byte ((n7 f >>> 10) &&& eightBitsMask);
   to_byte ((n7 f >>> 2) &&& eightBitsMask);
   to_byte ((n6 f >>> 20) &&& sixBitsMask ||| shl32 (n7 f &&& twoBitsMask) 6);
   to_byte ((n6 f >>> 12) &&& eightBitsMask);
   to_byte ((n6 f >>> 4) &&& eightBitsMask);
   to_byte ((n5 f >>> 22) &&& fourBitsMask ||| shl32 (n6 f &&& fourBitsMask) 4);
   to_byte ((n5 f >>> 14) &&& eightBitsMask);
   to_byte ((n5 f >>> 6) &&& eightBitsMask);
   to_byte ((n4 f >>> 24) &&& twoBitsMask ||| shl32 (n5 f &&& sixBitsMask) 2);
   to_byte ((n4 f >>> 16) &&& eightBitsMask);
   to_byte ((n4 f >>> 8) &&& eightBitsMask);
   to_byte (n4 f &&& eightBitsMask);
   to_byte ((n3 f >>> 18) &&& eightBitsMask);
   to_byte ((n3 f >>> 10) &&& eightBitsMask);
   to_byte ((n3 f >>> 2) &&& eightBitsMask);
   to_byte ((n2 f >>> 20) &&& sixBitsMask ||| shl32 (n3 f &&& twoBitsMask) 6);
   to_byte ((n2 f >>> 12) &&& eightBitsMask);
   to_byte ((n2 f >>> 4) &&& eightBitsMask);
   to_byte ((n1 f >>> 22) &&& fourBitsMask ||| shl32 (n2 f &&& fourBitsMask) 4);
   to_byte ((n1 f >>> 14) &&& eightBitsMask);
   to_byte ((n1 f >>> 6) &&& eightBitsMask);
   to_byte ((n0 f >>> 24) &&& twoBitsMask ||| shl32 (n1 f &&& sixBitsMask) 2);
   to_byte ((n0 f >>> 16) &&& eightBitsMask);
   to_byte ((n0 f >>> 8) &&& eightBitsMask);
   to_byte (n0 f &&& eightBitsMask)].
Definition fieldVal_Bytes (f : fieldVal) : bytes := PutBytes f.

Definition IsZero (f : fieldVal) : bool :=
  n0 f ||| n1 f ||| n2 f ||| n3 f ||| n4 f ||| n5 f ||| n6 f ||| n7 f ||| n8 f ||| n9 f =? 0.
Definition IsOdd (f : fieldVal) : bool := n0 f &&& 1 =? 1.
Definition Equals (f val : fieldVal) : bool :=
  Z.lxor (n0 f) (n0 val) |||
  Z.lxor (n1 f) (n1 val) |||
  Z.lxor (n2 f) (n2 val) |||
  Z.lxor (n3 f) (n3 val) |||
  Z.lxor (n4 f) (n4 val) |||
  Z.lxor (n5 f) (n5 val) |||
  Z.lxor (n6 f) (n6 val) |||
  Z.lxor (n7 f) (n7 val) |||
  Z.lxor (n8 f) (n8 val) |||
  Z.lxor (n9 f) (n9 val) =? 0.

(** The receiver is the result; the code also writes it to the receiver. *)
Definition NegateVal (val : fieldVal) (magnitude : Z) : fieldVal :=
  let w p n := uint32 (uint32 (magnitude + 1) * p - n) in
  mkF (w fieldPrimeWordZero (n0 val)) (w fieldPrimeWordOne (n1 val)) 
    (w fieldBaseMask (n2 val)) (w fieldBaseMask (n3 val)) (w fieldBaseMask (n4 val)) (w fieldBaseMask (n5 val))
    (w fieldBaseMask (n6 val)) (w fieldBaseMask (n7 val)) (w fieldBaseMask (n8 val))
    (w fieldMSBMask (n9 val)).
Definition Negate (f : fieldVal) (magnitude : Z) : fieldVal := NegateVal f magnitude.

Definition AddInt (f : fieldVal) (ui : Z) : fieldVal :=
  mkF (uint32 (n0 f + uint32 ui)) (n1 f) (n2 f) (n3 f) (n4 f) (n5 f) (n6 f) (n7 f) (n8 f) (n9 f).

Definition Add2 (val val2 : fieldVal) : fieldVal :=
  mkF (uint32 (n0 val + n0 val2)) (uint32 (n1 val + n1 val2)) (uint32 (n2 val + n2 val2))
    (uint32 (n3 val + n3 val2)) (uint32 (n4 val + n4 val2)) (uint32 (n5 val + n5 val2))
    (uint32 (n6 val + n6 val2)) (uint32 (n7 val + n7 val2)) (uint32 (n8 val + n8 val2))
    (uint32 (n9 val + n9 val2)).
Definition Add (f val : fieldVal) : fieldVal := Add2 f val.

Definition MulInt (f : fieldVal) (val : Z) : fieldVal :=
  let ui := uint32 val in
  mkF (uint32 (n0 f * ui)) (uint32 (n1 f * ui)) (uint32 (n2 f * ui)) (uint32 (n3 f * ui))
    (uint32 (n4 f * ui)) (uint32 (n5 f * ui)) (uint32 (n6 f * ui)) (uint32 (n7 f * ui))
    (uint32 (n8 f * ui)) (uint32 (n9 f * ui)).

(** The twenty base-2^26 digits of a product. *)
Record wide : Type := mkW
  { w0 : Z; w1 : Z; w2 : Z; w3 : Z; w4 : Z; w5 : Z; w6 : Z; w7 : Z; w8 : Z; w9 : Z;
    w10 : Z; w11 : Z; w12 : Z; w13 : Z; w14 : Z; w15 : Z; w16 : Z; w17 : Z; w18 : Z; w19 : Z }.

(** The first half of [Mul2]: the columns of the product with their carries. *)
Definition Mul2_columns (val val2 : fieldVal) : wide :=
  let m := uint64 (n0 val * n0 val2) in
  let t0 := m &&& fieldBaseMask in
  let m := uint64 ((m >>> fieldBase) + n0 val * n1 val2 + n1 val * n0 val2) in
  let t1 := m &&& fieldBaseMask in
  let m := uint64 ((m >>> fieldBase) + n0 val * n2 val2 + n1 val * n1 val2 + n2 val * n0 val2) in
  let t2 := m &&& fieldBaseMask in
  let m := uint64 ((m >>> fieldBase) + n0 val * n3 val2 + n1 val * n2 val2 + n2 val * n1 val2 +
    n3 val * n0 val2) in
  let t3 := m &&& fieldBaseMask in
  let m := uint64 ((m >>> fieldBase) + n0 val * n4 val2 + n1 val * n3 val2 + n2 val * n2 val2 +
    n3 val * n1 val2 + n4 val * n0 val2) in
  let t4 := m &&& fieldBaseMask in
  let m := uint64 ((m >>> fieldBase) + n0 val * n5 val2 + n1 val * n4 val2 + n2 val * n3 val2 +
    n3 val * n2 val2 + n4 val * n1 val2 + n5 val * n0 val2) in
  let t5 := m &&& fieldBaseMask in
  let m := uint64 ((m >>> fieldBase) + n0 val * n6 val2 + n1 val * n5 val2 + n2 val * n4 val2 +
    n3 val * n3 val2 + n4 val * n2 val2 + n5 val * n1 val2 + n6 val * n0 val2) in
  let t6 := m &&& fieldBaseMask in
  let m := uint64 ((m >>> fieldBase) + n0 val * n7 val2 + n1 val * n6 val2 + n2 val * n5 val2 +
    n3 val * n4 val2 + n4 val * n3 val2 + n5 val * n2 val2 + n6 val * n1 val2 + n7 val * n0 val2) in
  let t7 := m &&& fieldBaseMask in
  let m := uint64 ((m >>> fieldBase) + n0 val * n8 val2 + n1 val * n7 val2 + n2 val * n6 val2 +
    n3 val * n5 val2 + n4 val * n4 val2 + n5 val * n3 val2 + n6 val * n2 val2 + n7 val * n1 val2 +
    n8 val * n0 val2) in
  let t8 := m &&& fieldBaseMask in
  let m := uint64 ((m >>> fieldBase) + n0 val * n9 val2 + n1 val * n8 val2 + n2 val * n7 val2 +
    n3 val * n6 val2 + n4 val * n5 val2 + n5 val * n4 val2 + n6 val * n3 val2 + n7 val * n2 val2 +
    n8 val * n1 val2 + n9 val * n0 val2) in
  let t9 := m &&& fieldBaseMask in
  let m := uint64 ((m >>> fieldBase) + n1 val * n9 val2 + n2 val * n8 val2 + n3 val * n7 val2 +
    n4 val * n6 val2 + n5 val * n5 val2 + n6 val * n4 val2 + n7 val * n3 val2 + n8 val * n2 val2 +
    n9 val * n1 val2) in
  let t10 := m &&& fieldBaseMask in
  let m := uint64 ((m >>> fieldBase) + n2 val * n9 val2 + n3 val * n8 val2 + n4 val * n7 val2 +
    n5 val * n6 val2 + n6 val * n5 val2 + n7 val * n4 val2 + n8 val * n3 val2 + n9 val * n2 val2) in
  let t11 := m &&& fieldBaseMask in
  let m := uint64 ((m >>> fieldBase) + n3 val * n9 val2 + n4 val * n8 val2 + n5 val * n7 val2 +
    n6 val * n6 val2 + n7 val * n5 val2 + n8 val * n4 val2 + n9 val * n3 val2) in
  let t12 := m &&& fieldBaseMask in
  let m := uint64 ((m >>> fieldBase) + n4 val * n9 val2 + n5 val * n8 val2 + n6 val * n7 val2 +
    n7 val * n6 val2 + n8 val * n5 val2 + n9 val * n4 val2) in
  let t13 := m &&& fieldBaseMask in
  let m := uint64 ((m >>> fieldBase) + n5 val * n9 val2 + n6 val * n8 val2 + n7 val * n7 val2 +
    n8 val * n6 val2 + n9 val * n5 val2) in
  let t14 := m &&& fieldBaseMask in
  let m := uint64 ((m >>> fieldBase) + n6 val * n9 val2 + n7 val * n8 val2 + n8 val * n7 val2 +
    n9 val * n6 val2) in
  let t15 := m &&& fieldBaseMask in
  let m := uint64 ((m >>> fieldBase) + n7 val * n9 val2 + n8 val * n8 val2 + n9 val * n7 val2) in
  let t16 := m &&& fieldBaseMask in
  let m := uint64 ((m >>> fieldBase) + n8 val * n9 val2 + n9 val * n8 val2) in
  let t17 := m &&& fieldBaseMask in
  let m := uint64 ((m >>> fieldBase) + n9 val * n9 val2) in
  let t18 := m &&& fieldBaseMask in
  let t19 := m >>> fieldBase in
  mkW t0 t1 t2 t3 t4 t5 t6 t7 t8 t9 t10 t11 t12 t13 t14 t15 t16 t17 t18 t19.

(** The second half, which [SquareVal] repeats: the digits above 2^260 are folded
    into the lower ones with 2^260 = 2^36 + 15632, then the rest above 2^256. *)
Definition Mul2_reduce (t : wide) : fieldVal :=
  let t0 := w0 t in let t1 := w1 t in let t2 := w2 t in let t3 := w3 t in let t4 := w4 t in
  let t5 := w5 t in let t6 := w6 t in let t7 := w7 t in let t8 := w8 t in let t9 := w9 t in
  let t10 := w10 t in let t11 := w11 t in let t12 := w12 t in let t13 := w13 t in let t14 := w14 t in
  let t15 := w15 t in let t16 := w16 t in let t17 := w17 t in let t18 := w18 t in let t19 := w19 t in
  let m := uint64 (t0 + t10 * 15632) in
  let t0 := m &&& fieldBaseMask in
  let m := uint64 ((m >>> fieldBase) + t1 + t10 * 1024 + t11 * 15632) in
  let t1 := m &&& fieldBaseMask in
  let m := uint64 ((m >>> fieldBase) + t2 + t11 * 1024 + t12 * 15632) in
  let t2 := m &&& fieldBaseMask in
  let m := uint64 ((m >>> fieldBase) + t3 + t12 * 1024 + t13 * 15632) in
  let t3 := m &&& fieldBaseMask in
  let m := uint64 ((m >>> fieldBase) + t4 + t13 * 1024 + t14 * 15632) in
  let t4 := m &&& fieldBaseMask in
  let m := uint64 ((m >>> fieldBase) + t5 + t14 * 1024 + t15 * 15632) in
  let t5 := m &&& fieldBaseMask in
  let m := uint64 ((m >>> fieldBase) + t6 + t15 * 1024 + t16 * 15632) in
  let t6 := m &&& fieldBaseMask in
  let m := uint64 ((m >>> fieldBase) + t7 + t16 * 1024 + t17 * 15632) in
  let t7 := m &&& fieldBaseMask in
  let m := uint64 ((m >>> fieldBase) + t8 + t17 * 1024 + t18 * 15632) in
  let t8 := m &&& fieldBaseMask in
  let m := uint64 ((m >>> fieldBase) + t9 + t18 * 1024 + t19 * 68719492368) in
  let t9 := m &&& fieldMSBMask in
  let m := m >>> fieldMSBBits in
  let d := uint64 (t0 + m * 977) in
  let r0 := uint32 (d &&& fieldBaseMask) in
  let d := uint64 ((d >>> fieldBase) + t1 + m * 64) in
  let r1 := uint32 (d &&& fieldBaseMask) in
  let r2 := uint32 ((d >>> fieldBase) + t2) in
  let r3 := uint32 (t3) in
  let r4 := uint32 (t4) in
  let r5 := uint32 (t5) in
  let r6 := uint32 (t6) in
  let r7 := uint32 (t7) in
  let r8 := uint32 (t8) in
  let r9 := uint32 (t9) in
  mkF r0 r1 r2 r3 r4 r5 r6 r7 r8 r9.

Definition Mul2 (val val2 : fieldVal) : fieldVal := Mul2_reduce (Mul2_columns val val2).
Definition Mul (f val : fieldVal) : fieldVal := Mul2 f val.

Definition SquareVal_columns (val : fieldVal) : wide :=
  let m := uint64 (n0 val * n0 val) in
  let t0 := m &&& fieldBaseMask in
  let m := uint64 ((m >>> fieldBase) + 2 * n0 val * n1 val) in
  let t1 := m &&& fieldBaseMask in
  let m := uint64 ((m >>> fieldBase) + 2 * n0 val * n2 val + n1 val * n1 val) in
  let t2 := m &&& fieldBaseMask in
  let m := uint64 ((m >>> fieldBase) + 2 * n0 val * n3 val + 2 * n1 val * n2 val) in
  let t3 := m &&& fieldBaseMask in
  let m := uint64 ((m >>> fieldBase) + 2 * n0 val * n4 val + 2 * n1 val * n3 val + n2 val * n2 val) in
  let t4 := m &&& fieldBaseMask in
  let m := uint64 ((m >>> fieldBase) + 2 * n0 val * n5 val + 2 * n1 val * n4 val +
    2 * n2 val * n3 val) in
  let t5 := m &&& fieldBaseMask in
  let m := uint64 ((m >>> fieldBase) + 2 * n0 val * n6 val + 2 * n1 val * n5 val +
    2 * n2 val * n4 val + n3 val * n3 val) in
  let t6 := m &&& fieldBaseMask in
  let m := uint64 ((m >>> fieldBase) + 2 * n0 val * n7 val + 2 * n1 val * n6 val +
    2 * n2 val * n5 val + 2 * n3 val * n4 val) in
  let t7 := m &&& fieldBaseMask in
  let m := uint64 ((m >>> fieldBase) + 2 * n0 val * n8 val + 2 * n1 val * n7 val +
    2 * n2 val * n6 val + 2 * n3 val * n5 val + n4 val * n4 val) in
  let t8 := m &&& fieldBaseMask in
  let m := uint64 ((m >>> fieldBase) + 2 * n0 val * n9 val + 2 * n1 val * n8 val +
    2 * n2 val * n7 val + 2 * n3 val * n6 val + 2 * n4 val * n5 val) in
  let t9 := m &&& fieldBaseMask in
  let m := uint64 ((m >>> fieldBase) + 2 * n1 val * n9 val + 2 * n2 val * n8 val +
    2 * n3 val * n7 val + 2 * n4 val * n6 val + n5 val * n5 val) in
  let t10 := m &&& fieldBaseMask in
  let m := uint64 ((m >>> fieldBase) + 2 * n2 val * n9 val + 2 * n3 val * n8 val +
    2 * n4 val * n7 val + 2 * n5 val * n6 val) in
  let t11 := m &&& fieldBaseMask in
  let m := uint64 ((m >>> fieldBase) + 2 * n3 val * n9 val + 2 * n4 val * n8 val +
    2 * n5 val * n7 val + n6 val * n6 val) in
  let t12 := m &&& fieldBaseMask in
  let m := uint64 ((m >>> fieldBase) + 2 * n4 val * n9 val + 2 * n5 val * n8 val +
    2 * n6 val * n7 val) in
  let t13 := m &&& fieldBaseMask in
  let m := uint64 ((m >>> fieldBase) + 2 * n5 val * n9 val + 2 * n6 val * n8 val + n7 val * n7 val) in
  let t14 := m &&& fieldBaseMask in
  let m := uint64 ((m >>> fieldBase) + 2 * n6 val * n9 val + 2 * n7 val * n8 val) in
  let t15 := m &&& fieldBaseMask in
  let m := uint64 ((m >>> fieldBase) + 2 * n7 val * n9 val + n8 val * n8 val) in
  let t16 := m &&& fieldBaseMask in
  let m := uint64 ((m >>> fieldBase) + 2 * n8 val * n9 val) in
  let t17 := m &&& fieldBaseMask in
  let m := uint64 ((m >>> fieldBase) + n9 val * n9 val) in
  let t18 := m &&& fieldBaseMask in
  let t19 := m >>> fieldBase in
  mkW t0 t1 t2 t3 t4 t5 t6 t7 t8 t9 t10 t11 t12 t13 t14 t15 t16 t17 t18 t19.

Definition SquareVal (val : fieldVal) : fieldVal := Mul2_reduce (SquareVal_columns val).
Definition Square (f : fieldVal) : fieldVal := SquareVal f.

(** A chain of [k] calls of [Square] (the first may be [SquareVal]). *)
Fixpoint squares (k : nat) (f : fieldVal) : fieldVal :=
  match k with O => f | S k' => Square (squares k' f) end.

Definition Inverse (f : fieldVal) : fieldVal :=
  let x1 := f in
  let x2 := Mul2 (squares 1 x1) x1 in
  let x3 := Mul2 (squares 1 x2) x1 in
  let x11 := Mul2 (squares 2 (Mul2 (squares 3 (Mul2 (squares 3 x3) x3)) x3)) x2 in
  let x22 := Mul2 (squares 11 x11) x11 in
  let x44 := Mul2 (squares 22 x22) x22 in
  let x88 := Mul2 (squares 44 x44) x44 in
  let invSq := squares 2 (Mul2 (squares 3 (Mul2 (squares 5 (Mul2 (squares 23 (Mul2 (squares 3 (Mul2 (squares 44 (Mul2 (squares 88 x88) x88)) x44)) x3)) x22)) x1)) x2) in
  Mul2 invSq x1.
