(* ===== verification/FieldProps.v ===== *)
(** The field arithmetic computes modulo the prime: no word overflows within the
    magnitudes that the code allows, products and squares are congruent to the
    products of the values, and normalization gives the residue. *)

From S2P Require Import Prelude Field.

Definition fieldP : Z := 2 ^ 256 - 2 ^ 32 - 977.

(** The value of ten words, least significant first. *)
Definition fvalue (f : fieldVal) : Z :=
  n0 f + 2 ^ 26 * (n1 f + 2 ^ 26 * (n2 f + 2 ^ 26 * (n3 f + 2 ^ 26 * (n4 f + 2 ^ 26 * (n5 f + 2 ^ 26 *
  (n6 f + 2 ^ 26 * (n7 f + 2 ^ 26 * (n8 f + 2 ^ 26 * n9 f)))))))).

(** The magnitude of a value, as the comments of field.go use the word: every word
    is at most [k] times what a normalized word may be, with some slack that
    [Mul2] leaves in the third word. *)
Definition word_ok (k w : Z) : Prop := 0 <= w <= k * (2 ^ 26 + 2 ^ 21).
Definition magnitude (k : Z) (f : fieldVal) : Prop :=
  word_ok k (n0 f) /\ word_ok k (n1 f) /\ word_ok k (n2 f) /\ word_ok k (n3 f) /\ word_ok k (n4 f) /\ word_ok k (n5 f) /\
  word_ok k (n6 f) /\ word_ok k (n7 f) /\ word_ok k (n8 f) /\ 0 <= n9 f <= k * 2 ^ 22.

(** * Carries *)

Lemma land_base x : x &&& fieldBaseMask = x mod 2 ^ 26.
Proof. change fieldBaseMask with (Z.ones 26). by rewrite Z.land_ones. Qed.
Lemma land_msb x : x &&& fieldMSBMask = x mod 2 ^ 22.
Proof. change fieldMSBMask with (Z.ones 22). by rewrite Z.land_ones. Qed.
Lemma shr_base x : x >>> fieldBase = x / 2 ^ 26.
Proof. by rewrite Z.shiftr_div_pow2. Qed.
Lemma shr_msb x : x >>> fieldMSBBits = x / 2 ^ 22.
Proof. by rewrite Z.shiftr_div_pow2. Qed.

(** Columns with their carries: the sum of a column and the carry is cut into a
    digit and the carry of the next column. *)
Fixpoint chain (w c : Z) (cols : list (list Z)) : list Z :=
  match cols with
  | [] => [c]
  | col :: cols' => let m := uwrap w (fold_left Z.add col c) in (m &&& fieldBaseMask) :: chain w (m >>> fieldBase) cols'
  end.

Definition sum (l : list Z) : Z := fold_right Z.add 0 l.

Fixpoint evalB (l : list Z) : Z := match l with [] => 0 | d :: l' => d + 2 ^ 26 * evalB l' end.

Lemma fold_left_sum l c : fold_left Z.add l c = c + sum l.
Proof. revert c. induction l as [|x l IH]; intros c; simpl; [lia|]. rewrite IH. lia. Qed.

(** A chain of columns that leave room for a carry: no wrap-around, digits below
    the base. *)
Lemma chain_spec w c cols :
  26 <= w -> 0 <= c < 2 ^ (w - 26) -> Forall (fun col => 0 <= sum col <= 2 ^ w - 2 ^ (w - 26)) cols ->
  exists ds c', chain w c cols = ds ++ [c'] /\ length ds = length cols /\ Forall (fun d => 0 <= d < 2 ^ 26) ds /\
    0 <= c' < 2 ^ (w - 26) /\ evalB (ds ++ [c']) = c + evalB (map sum cols).
Proof.
  intros Hw. assert (2 ^ w = 2 ^ 26 * 2 ^ (w - 26)) as Ew by (rewrite <- Z.pow_add_r by lia; f_equal; lia).
  revert c. induction cols as [|col cols IH]; intros c Hc Hf.
  - exists [], c. simpl. repeat split; try done; lia.
  - inversion Hf as [|? ? Hcol Hf']; subst. simpl. rewrite fold_left_sum, uwrap_small by lia.
    rewrite land_base, shr_base. set (m := c + sum col).
    destruct (IH (m / 2 ^ 26)) as (ds & c' & -> & Hlen & Hds & Hc' & He); [|done|].
    { split; [apply Z.div_pos; lia|]. apply Z.div_lt_upper_bound; lia. }
    exists (m mod 2 ^ 26 :: ds), c'. split; [done|]. split; [simpl; lia|]. split; [constructor; [|done]; apply Z.mod_pos_bound; lia|].
    split; [done|]. simpl. rewrite He. pose proof (Z.div_mod m (2 ^ 26)). unfold m in *. lia.
Qed.

(** * Products *)

Definition words (f : fieldVal) : list Z := [n0 f; n1 f; n2 f; n3 f; n4 f; n5 f; n6 f; n7 f; n8 f; n9 f].
Definition digits (w : wide) : list Z :=
  [w0 w; w1 w; w2 w; w3 w; w4 w; w5 w; w6 w; w7 w; w8 w; w9 w; w10 w; w11 w; w12 w; w13 w; w14 w; w15 w; w16 w; w17 w; w18 w; w19 w].

Lemma fvalue_words f : fvalue f = evalB (words f).
Proof. unfold fvalue, words, evalB. lia. Qed.

(** The products of two lists of words, column by column. *)
Definition mul_column (a b : list Z) (k : nat) : list Z :=
  flat_map (fun i => match a !! i, b !! (k - i)%nat with
                     | Some x, Some y => if (i <=? k)%nat then [x * y] else []
                     | _, _ => [] end) (seq 0 10).
Definition mul_columns (a b : list Z) : list (list Z) := map (mul_column a b) (seq 0 19).

Lemma Mul2_columns_chain a b : digits (Mul2_columns a b) = chain 64 0 (mul_columns (words a) (words b)).
Proof.
  unfold digits, Mul2_columns, words, mul_columns.
  cbn [w0 w1 w2 w3 w4 w5 w6 w7 w8 w9 w10 w11 w12 w13 w14 w15 w16 w17 w18 w19].
  cbv [mul_column seq map flat_map chain fold_left app lookup list_lookup Nat.sub Nat.leb].
  rewrite Z.add_0_l. reflexivity.
Qed.

Lemma mul_columns_value a b : evalB (map sum (mul_columns (words a) (words b))) = fvalue a * fvalue b.
Proof.
  unfold mul_columns, words, fvalue.
  cbv [mul_column seq map flat_map app lookup list_lookup Nat.sub Nat.leb sum fold_right evalB]. ring.
Qed.

Lemma magnitude_words k f : 0 <= k -> magnitude k f -> Forall (word_ok k) (words f).
Proof.
  intros Hk (? & ? & ? & ? & ? & ? & ? & ? & ? & ?). unfold words, word_ok in *. repeat constructor; lia.
Qed.

Lemma sum_bound M l : 0 <= M -> Forall (fun x => 0 <= x <= M) l -> 0 <= sum l <= len l * M.
Proof.
  intros HM. induction 1 as [|x l Hx Hl IH]; simpl; [unfold len; simpl; lia|]. rewrite len_cons. lia.
Qed.

(** A column has at most ten products. *)
Lemma mul_column_ok a b k M :
  0 <= M -> Forall (fun x => 0 <= x <= M) a -> Forall (fun x => 0 <= x <= M) b ->
  Forall (fun x => 0 <= x <= M * M) (mul_column a b k) /\ len (mul_column a b k) <= 10.
Proof.
  intros HM Ha Hb. unfold mul_column.
  assert (forall idxs, Forall (fun x => 0 <= x <= M * M) (flat_map (fun i => match a !! i, b !! (k - i)%nat with
    | Some x, Some y => if (i <=? k)%nat then [x * y] else [] | _, _ => [] end) idxs) /\
    len (flat_map (fun i => match a !! i, b !! (k - i)%nat with
    | Some x, Some y => if (i <=? k)%nat then [x * y] else [] | _, _ => [] end) idxs) <= len idxs) as H; [|apply (H (seq 0 10))].
  induction idxs as [|i idxs [IH1 IH2]]; [done|]. simpl. rewrite len_app, len_cons.
  destruct (a !! i) as [x|] eqn:Ea; [|split; [done|rewrite len_nil; lia]].
  destruct (b !! (k - i)%nat) as [y|] eqn:Eb; [|split; [done|rewrite len_nil; lia]].
  destruct (i <=? k)%nat; [|split; [done|rewrite len_nil; lia]]. split; [|rewrite len_cons, len_nil; lia].
  apply Forall_app. split; [|done]. constructor; [|done].
  assert (0 <= x <= M) as [] by exact (Forall_lookup_1 _ _ _ _ Ha Ea). assert (0 <= y <= M) as [] by exact (Forall_lookup_1 _ _ _ _ Hb Eb).
  split; [by apply Z.mul_nonneg_nonneg|]. by apply Z.mul_le_mono_nonneg.
Qed.

Definition max_word : Z := 8 * (2 ^ 26 + 2 ^ 21).

Lemma mul_columns_small a b :
  magnitude 8 a -> magnitude 8 b -> Forall (fun col => 0 <= sum col <= 2 ^ 64 - 2 ^ 38) (mul_columns (words a) (words b)).
Proof.
  intros Ha%magnitude_words Hb%magnitude_words; [|lia|lia]. apply Forall_map, Forall_forall. intros k _. unfold compose.
  destruct (mul_column_ok (words a) (words b) k max_word) as [Hf Hl]; [by unfold max_word|done|done|].
  apply sum_bound in Hf; [|unfold max_word; lia]. pose proof (len_nonneg (mul_column (words a) (words b) k)).
  unfold max_word in *. nia.
Qed.

(** The wide digits of a product. *)
Definition wide_ok (w : wide) (v : Z) : Prop :=
  exists ds c, digits w = ds ++ [c] /\ length ds = 19%nat /\ Forall (fun d => 0 <= d < 2 ^ 26) ds /\ 0 <= c < 2 ^ 25 /\
    evalB (ds ++ [c]) = v.

Lemma evalB_snoc ds c : evalB (ds ++ [c]) = evalB ds + 2 ^ (26 * Z.of_nat (length ds)) * c.
Proof.
  induction ds as [|d ds IH]; [simpl; lia|]. simpl length. rewrite Nat2Z.inj_succ. simpl app. cbn [evalB]. rewrite IH.
  replace (26 * Z.succ (Z.of_nat (length ds))) with (26 + 26 * Z.of_nat (length ds)) by lia.
  rewrite (Z.pow_add_r 2 26) by lia. ring.
Qed.

Lemma evalB_nonneg ds : Forall (fun d => 0 <= d < 2 ^ 26) ds -> 0 <= evalB ds.
Proof. induction 1; simpl; lia. Qed.

Lemma fvalue_bound f : magnitude 8 f -> 0 <= fvalue f <= 2 ^ 259 + 2 ^ 240.
Proof. intros (? & ? & ? & ? & ? & ? & ? & ? & ? & ?). unfold fvalue, word_ok in *. lia. Qed.

Lemma chain_wide w cols v :
  digits w = chain 64 0 cols -> length cols = 19%nat -> Forall (fun col => 0 <= sum col <= 2 ^ 64 - 2 ^ 38) cols ->
  evalB (map sum cols) = v -> v <= (2 ^ 259 + 2 ^ 240) * (2 ^ 259 + 2 ^ 240) -> wide_ok w v.
Proof.
  intros E Hlen Hs Hv Hb. destruct (chain_spec 64 0 cols) as (ds & c & Ec & Hl & Hd & Hc & He); [lia|lia|done|].
  exists ds, c. rewrite Hv in He. split_and!; try done; try congruence; [lia|].
  rewrite Hlen in Hl. rewrite evalB_snoc, Hl in He. pose proof (evalB_nonneg ds Hd).
  change (26 * Z.of_nat 19) with 494 in He. lia.
Qed.

Lemma Mul2_columns_ok a b : magnitude 8 a -> magnitude 8 b -> wide_ok (Mul2_columns a b) (fvalue a * fvalue b).
Proof.
  intros Ha Hb. apply (chain_wide _ _ _ (Mul2_columns_chain a b)); [done|by apply mul_columns_small|apply mul_columns_value|].
  pose proof (fvalue_bound a Ha). pose proof (fvalue_bound b Hb). apply Z.mul_le_mono_nonneg; lia.
Qed.

(** * Squares *)

(** The columns of a square: each mixed product once, doubled. *)
Definition sq_column (a : list Z) (k : nat) : list Z :=
  flat_map (fun i => match a !! i, a !! (k - i)%nat with
                     | Some x, Some y => if (2 * i <? k)%nat then [2 * x * y] else if (2 * i =? k)%nat then [x * x] else []
                     | _, _ => [] end) (seq 0 10).
Definition sq_columns (a : list Z) : list (list Z) := map (sq_column a) (seq 0 19).

Lemma SquareVal_columns_chain a : digits (SquareVal_columns a) = chain 64 0 (sq_columns (words a)).
Proof.
  unfold digits, SquareVal_columns, words, sq_columns.
  cbn [w0 w1 w2 w3 w4 w5 w6 w7 w8 w9 w10 w11 w12 w13 w14 w15 w16 w17 w18 w19].
  cbv [sq_column seq map flat_map chain fold_left app lookup list_lookup Nat.sub Nat.leb Nat.ltb Nat.eqb Nat.mul Nat.add].
  rewrite Z.add_0_l. reflexivity.
Qed.

Lemma cons_eq {A} (x y : A) l l' : x = y -> l = l' -> x :: l = y :: l'.
Proof. by intros -> ->. Qed.

Lemma sq_columns_sums a : map sum (sq_columns (words a)) = map sum (mul_columns (words a) (words a)).
Proof.
  unfold sq_columns, mul_columns, words.
  cbv [sq_column mul_column seq map flat_map app lookup list_lookup Nat.sub Nat.leb Nat.ltb Nat.eqb Nat.mul Nat.add sum fold_right].
  repeat (apply cons_eq; [ring|]). reflexivity.
Qed.

Lemma SquareVal_columns_ok a : magnitude 8 a -> wide_ok (SquareVal_columns a) (fvalue a * fvalue a).
Proof.
  intros Ha. apply (chain_wide _ _ _ (SquareVal_columns_chain a)); [done| | |].
  - apply (Forall_map sum (fun s => 0 <= s <= 2 ^ 64 - 2 ^ 38)). rewrite sq_columns_sums. apply Forall_map. by apply mul_columns_small.
  - rewrite sq_columns_sums. apply mul_columns_value.
  - pose proof (fvalue_bound a Ha). apply Z.mul_le_mono_nonneg; lia.
Qed.

(** * Reduction *)

(** The digits above [2 ^ 260] folded into the lower ones. *)
Definition red_columns (t : wide) : list (list Z) :=
  [[w0 t; w10 t * 15632]; [w1 t; w10 t * 1024; w11 t * 15632]; [w2 t; w11 t * 1024; w12 t * 15632];
   [w3 t; w12 t * 1024; w13 t * 15632]; [w4 t; w13 t * 1024; w14 t * 15632]; [w5 t; w14 t * 1024; w15 t * 15632];
   [w6 t; w15 t * 1024; w16 t * 15632]; [w7 t; w16 t * 1024; w17 t * 15632]; [w8 t; w17 t * 1024; w18 t * 15632]].

(** The rest above [2 ^ 256], with the words that are left. *)
Definition reduce_top (t0 t1 t2 t3 t4 t5 t6 t7 t8 m : Z) : fieldVal :=
  let t9 := m &&& fieldMSBMask in
  let m := m >>> fieldMSBBits in
  let d := uint64 (t0 + m * 977) in
  let d' := uint64 ((d >>> fieldBase) + t1 + m * 64) in
  mkF (uint32 (d &&& fieldBaseMask)) (uint32 (d' &&& fieldBaseMask)) (uint32 ((d' >>> fieldBase) + t2))
    (uint32 t3) (uint32 t4) (uint32 t5) (uint32 t6) (uint32 t7) (uint32 t8) (uint32 t9).

Lemma Mul2_reduce_chain t :
  match chain 64 0 (red_columns t) with
  | [t0; t1; t2; t3; t4; t5; t6; t7; t8; c] =>
    Mul2_reduce t = reduce_top t0 t1 t2 t3 t4 t5 t6 t7 t8 (uint64 (c + w9 t + w18 t * 1024 + w19 t * 68719492368))
  | _ => True
  end.
Proof.
  cbv [chain red_columns fold_left]. rewrite Z.add_0_l. unfold Mul2_reduce, reduce_top. cbv zeta. reflexivity.
Qed.

Lemma reduce_top_spec t0 t1 t2 t3 t4 t5 t6 t7 t8 m :
  Forall (fun d => 0 <= d < 2 ^ 26) [t0; t1; t2; t3; t4; t5; t6; t7; t8] -> 0 <= m < 2 ^ 62 ->
  let r := reduce_top t0 t1 t2 t3 t4 t5 t6 t7 t8 m in
  magnitude 1 r /\ n9 r < 2 ^ 22 /\
  fvalue r = evalB [t0; t1; t2; t3; t4; t5; t6; t7; t8; m] - m / 2 ^ 22 * fieldP.
Proof.
  intros Hd Hm. repeat match goal with H : Forall _ (_ :: _) |- _ => inversion H; clear H; subst end.
  cbv zeta. unfold reduce_top. rewrite !land_base, !land_msb, !shr_base, !shr_msb.
  set (q := m / 2 ^ 22). set (t9 := m mod 2 ^ 22).
  assert (m = 2 ^ 22 * q + t9 /\ 0 <= t9 < 2 ^ 22 /\ 0 <= q < 2 ^ 40) as (Em & Ht9 & Hq).
  { unfold q, t9. pose proof (Z.div_mod m (2 ^ 22)). pose proof (Z.mod_pos_bound m (2 ^ 22)).
    split_and!; try lia. }
  rewrite (uwrap_small 64 (t0 + q * 977)) by lia. set (d := t0 + q * 977).
  assert (0 <= d / 2 ^ 26 < 2 ^ 27 /\ d = 2 ^ 26 * (d / 2 ^ 26) + d mod 2 ^ 26 /\ 0 <= d mod 2 ^ 26 < 2 ^ 26) as (Hd1 & Ed & Hd0) by lia.
  rewrite (uwrap_small 64 (d / 2 ^ 26 + t1 + q * 64)) by lia. set (d' := d / 2 ^ 26 + t1 + q * 64).
  assert (0 <= d' / 2 ^ 26 < 2 ^ 21 /\ d' = 2 ^ 26 * (d' / 2 ^ 26) + d' mod 2 ^ 26 /\ 0 <= d' mod 2 ^ 26 < 2 ^ 26) as (Hd1' & Ed' & Hd0') by lia.
  rewrite !uwrap_small by lia.
  split; [unfold magnitude, word_ok; cbn [n0 n1 n2 n3 n4 n5 n6 n7 n8 n9]; lia|]. split; [cbn [n9]; lia|].
  unfold fvalue, fieldP. cbn [n0 n1 n2 n3 n4 n5 n6 n7 n8 n9 evalB]. unfold d, d' in *. lia.
Qed.

Lemma Mul2_reduce_ok w v :
  wide_ok w v -> magnitude 1 (Mul2_reduce w) /\ n9 (Mul2_reduce w) < 2 ^ 22 /\ fvalue (Mul2_reduce w) mod fieldP = v mod fieldP.
Proof.
  intros (ds & c & Ed & Hlen & Hd & Hc & Hv). pose proof (Mul2_reduce_chain w) as Hr.
  destruct w as [x0 x1 x2 x3 x4 x5 x6 x7 x8 x9 x10 x11 x12 x13 x14 x15 x16 x17 x18 x19]. cbv [digits w0 w1 w2 w3 w4 w5 w6 w7 w8 w9 w10 w11 w12 w13 w14 w15 w16 w17 w18 w19] in *.
  rewrite <- Ed in Hv.
  change [x0; x1; x2; x3; x4; x5; x6; x7; x8; x9; x10; x11; x12; x13; x14; x15; x16; x17; x18; x19] with
    ([x0; x1; x2; x3; x4; x5; x6; x7; x8; x9; x10; x11; x12; x13; x14; x15; x16; x17; x18] ++ [x19]) in Ed.
  apply app_inj_tail in Ed as [<- <-].
  repeat match goal with H : Forall _ (_ :: _) |- _ => inversion H; clear H; subst end.
  set (w := mkW x0 x1 x2 x3 x4 x5 x6 x7 x8 x9 x10 x11 x12 x13 x14 x15 x16 x17 x18 x19) in *.
  destruct (chain_spec 64 0 (red_columns w)) as (ds & c & Ec & Hl & Hds & Hcc & He); [lia|lia| |].
  { unfold red_columns, w. repeat constructor; cbn; lia. }
  rewrite Ec in Hr. destruct ds as [|t0 [|t1 [|t2 [|t3 [|t4 [|t5 [|t6 [|t7 [|t8 [|]]]]]]]]]]; try done.
  cbn [app] in *. rewrite uwrap_small in Hr by lia. rewrite Hr.
  destruct (reduce_top_spec t0 t1 t2 t3 t4 t5 t6 t7 t8 (c + x9 + x18 * 1024 + x19 * 68719492368)) as (Hmag & Hn9 & Hval); [done|lia|].
  split; [done|]. split; [done|]. rewrite Hval. set (q := _ / 2 ^ 22).
  set (high := evalB [x10; x11; x12; x13; x14; x15; x16; x17; x18; x19]).
  rewrite <- (Z_mod_plus_full _ (q + 16 * high)). f_equal. unfold high, fieldP in *.
  cbn [red_columns w map sum fold_right evalB w0 w1 w2 w3 w4 w5 w6 w7 w8 w9 w10 w11 w12 w13 w14 w15 w16 w17 w18] in He |- *. lia.
Qed.

(** Products and squares of values of magnitude at most 8 have magnitude 1, and the
    right value. *)
Lemma Mul2_spec a b :
  magnitude 8 a -> magnitude 8 b ->
  magnitude 1 (Mul2 a b) /\ n9 (Mul2 a b) < 2 ^ 22 /\ fvalue (Mul2 a b) mod fieldP = (fvalue a * fvalue b) mod fieldP.
Proof. intros Ha Hb. by apply Mul2_reduce_ok, Mul2_columns_ok. Qed.

Lemma SquareVal_spec a :
  magnitude 8 a ->
  magnitude 1 (SquareVal a) /\ n9 (SquareVal a) < 2 ^ 22 /\ fvalue (SquareVal a) mod fieldP = (fvalue a * fvalue a) mod fieldP.
Proof. intros Ha. by apply Mul2_reduce_ok, SquareVal_columns_ok. Qed.

(** * Normalization *)

(** One pass: [m] times [2 ^ 32 + 977] is added, the carries are propagated. *)
Definition pass_columns (t0 t1 t2 t3 t4 t5 t6 t7 t8 m : Z) : list (list Z) :=
  [[t0; m * 977]; [t1; m <<< 6]; [t2]; [t3]; [t4]; [t5]; [t6]; [t7]; [t8]].

(** Whether the value is at least the prime, as the code finds out. *)
Definition at_least_P (t0 t1 t2 t3 t4 t5 t6 t7 t8 t9 : Z) : Z :=
  (ConstantTimeEq (int32 t9) fieldMSBMask &&& ConstantTimeEq (int32 (t2 &&& t3 &&& t4 &&& t5 &&& t6 &&& t7 &&& t8)) fieldBaseMask &&&
   ConstantTimeLessOrEq (1 <<< fieldBase) (uint32 ((uint32 (t0 + 977) >>> fieldBase) + t1 + 64))) ||| (t9 >>> fieldMSBBits).

Lemma Normalize_passes f :
  match chain 32 0 (pass_columns (n0 f) (n1 f) (n2 f) (n3 f) (n4 f) (n5 f) (n6 f) (n7 f) (n8 f) (n9 f >>> fieldMSBBits)) with
  | [t0; t1; t2; t3; t4; t5; t6; t7; t8; c] =>
    let t9 := uint32 (c + (n9 f &&& fieldMSBMask)) in
    match chain 32 0 (pass_columns t0 t1 t2 t3 t4 t5 t6 t7 t8 (at_least_P t0 t1 t2 t3 t4 t5 t6 t7 t8 t9)) with
    | [u0; u1; u2; u3; u4; u5; u6; u7; u8; c'] =>
      Normalize f = mkF u0 u1 u2 u3 u4 u5 u6 u7 u8 (uint32 (c' + t9) &&& fieldMSBMask)
    | _ => True
    end
  | _ => True
  end.
Proof.
  cbv [chain pass_columns fold_left]. rewrite !Z.add_0_l. unfold Normalize, at_least_P. cbv zeta. reflexivity.
Qed.

Lemma land_ones_inv x y :
  0 <= x < 2 ^ 26 -> 0 <= y < 2 ^ 26 -> 0 <= x &&& y < 2 ^ 26 /\ (x &&& y = 2 ^ 26 - 1 <-> x = 2 ^ 26 - 1 /\ y = 2 ^ 26 - 1).
Proof.
  intros Hx Hy. assert (0 <= x &&& y) by (apply Z.land_nonneg; lia).
  assert (x &&& y <= x) as Hl.
  { assert (Z.ldiff x (x &&& y) = x - (x &&& y)) as E.
    { rewrite <- Z.sub_nocarry_ldiff; [done|]. apply Z.bits_inj'. intros n Hn. rewrite Z.ldiff_spec, !Z.land_spec, Z.bits_0.
      by destruct (Z.testbit x n), (Z.testbit y n). }
    assert (0 <= Z.ldiff x (x &&& y)) by (apply Z.ldiff_nonneg; lia). lia. }
  assert (x &&& y <= y) as Hl'.
  { assert (Z.ldiff y (x &&& y) = y - (x &&& y)) as E.
    { rewrite <- Z.sub_nocarry_ldiff; [done|]. apply Z.bits_inj'. intros n Hn. rewrite Z.ldiff_spec, !Z.land_spec, Z.bits_0.
      by destruct (Z.testbit x n), (Z.testbit y n). }
    assert (0 <= Z.ldiff y (x &&& y)) by (apply Z.ldiff_nonneg; lia). lia. }
  split; [lia|]. split; [lia|]. intros [-> ->]. done.
Qed.

Lemma low_words_test t0 t1 :
  0 <= t0 < 2 ^ 26 -> 0 <= t1 < 2 ^ 26 ->
  ConstantTimeLessOrEq (1 <<< fieldBase) (uint32 ((uint32 (t0 + 977) >>> fieldBase) + t1 + 64)) =
  if 2 ^ 52 - 2 ^ 32 - 977 <=? t0 + 2 ^ 26 * t1 then 1 else 0.
Proof.
  intros H0 H1. unfold ConstantTimeLessOrEq. rewrite shr_base, (uwrap_small 32 (t0 + 977)) by lia.
  rewrite uwrap_small by lia. change (1 <<< fieldBase) with (2 ^ 26).
  destruct (Z.leb_spec (2 ^ 26) ((t0 + 977) / 2 ^ 26 + t1 + 64)), (Z.leb_spec (2 ^ 52 - 2 ^ 32 - 977) (t0 + 2 ^ 26 * t1)); lia.
Qed.

(** The middle words are all ones exactly when their value is the largest. *)
Lemma middle_words_test t2 t3 t4 t5 t6 t7 t8 :
  Forall (fun d => 0 <= d < 2 ^ 26) [t2; t3; t4; t5; t6; t7; t8] ->
  ConstantTimeEq (int32 (t2 &&& t3 &&& t4 &&& t5 &&& t6 &&& t7 &&& t8)) fieldBaseMask =
  if 2 ^ 182 - 1 <=? evalB [t2; t3; t4; t5; t6; t7; t8] then 1 else 0.
Proof.
  intros Hd. repeat match goal with H : Forall _ (_ :: _) |- _ => inversion H; clear H; subst end.
  destruct (land_ones_inv t2 t3) as [B3 I3]; [done..|]. destruct (land_ones_inv (t2 &&& t3) t4) as [B4 I4]; [done..|].
  destruct (land_ones_inv (t2 &&& t3 &&& t4) t5) as [B5 I5]; [done..|].
  destruct (land_ones_inv (t2 &&& t3 &&& t4 &&& t5) t6) as [B6 I6]; [done..|].
  destruct (land_ones_inv (t2 &&& t3 &&& t4 &&& t5 &&& t6) t7) as [B7 I7]; [done..|].
  destruct (land_ones_inv (t2 &&& t3 &&& t4 &&& t5 &&& t6 &&& t7) t8) as [B8 I8]; [done..|].
  set (all := t2 &&& t3 &&& t4 &&& t5 &&& t6 &&& t7 &&& t8) in *.
  assert (all = 2 ^ 26 - 1 <-> t2 = 2 ^ 26 - 1 /\ t3 = 2 ^ 26 - 1 /\ t4 = 2 ^ 26 - 1 /\ t5 = 2 ^ 26 - 1 /\
    t6 = 2 ^ 26 - 1 /\ t7 = 2 ^ 26 - 1 /\ t8 = 2 ^ 26 - 1) as Hall by (clear - I3 I4 I5 I6 I7 I8; tauto).
  clear I3 I4 I5 I6 I7 I8 B3 B4 B5 B6 B7. clearbody all. unfold ConstantTimeEq. rewrite int32_small by lia.
  change fieldBaseMask with (2 ^ 26 - 1). cbn [evalB].
  destruct (Z.eqb_spec all (2 ^ 26 - 1)) as [E|E].
  - apply Hall in E as (-> & -> & -> & -> & -> & -> & ->). done.
  - destruct (Z.leb_spec (2 ^ 182 - 1) (t2 + 2 ^ 26 * (t3 + 2 ^ 26 * (t4 + 2 ^ 26 * (t5 + 2 ^ 26 * (t6 + 2 ^ 26 * (t7 + 2 ^ 26 * (t8 + 2 ^ 26 * 0)))))))); [|done].
    exfalso. apply E, Hall. clear E Hall. lia.
Qed.

Lemma at_least_P_spec t0 t1 t2 t3 t4 t5 t6 t7 t8 t9 :
  Forall (fun d => 0 <= d < 2 ^ 26) [t0; t1; t2; t3; t4; t5; t6; t7; t8] -> 0 <= t9 < 2 ^ 22 + 64 ->
  at_least_P t0 t1 t2 t3 t4 t5 t6 t7 t8 t9 = if fieldP <=? evalB [t0; t1; t2; t3; t4; t5; t6; t7; t8; t9] then 1 else 0.
Proof.
  intros Hd H9. inversion Hd as [|? ? Hd0 Hd']; subst. inversion Hd' as [|? ? Hd1 Hmid]; subst.
  unfold at_least_P. rewrite low_words_test, middle_words_test by done. unfold ConstantTimeEq. rewrite int32_small by lia.
  rewrite shr_msb. change fieldMSBMask with (2 ^ 22 - 1).
  assert (t9 / 2 ^ 22 = if 2 ^ 22 <=? t9 then 1 else 0) as -> by (destruct (Z.leb_spec (2 ^ 22) t9); lia).
  change (evalB [t0; t1; t2; t3; t4; t5; t6; t7; t8; t9]) with (t0 + 2 ^ 26 * (t1 + 2 ^ 26 * evalB ([t2; t3; t4; t5; t6; t7; t8] ++ [t9]))).
  rewrite evalB_snoc. change (26 * Z.of_nat (length [t2; t3; t4; t5; t6; t7; t8])) with 182.
  assert (0 <= evalB [t2; t3; t4; t5; t6; t7; t8] < 2 ^ 182) as Hm.
  { clear - Hmid. repeat match goal with H : Forall _ (_ :: _) |- _ => inversion H; clear H; subst end. cbn [evalB]. lia. }
  revert Hm. generalize (evalB [t2; t3; t4; t5; t6; t7; t8]) as mid. intros mid Hm. unfold fieldP. clear Hd Hd' Hmid.
  destruct (Z.eqb_spec t9 (2 ^ 22 - 1)), (Z.leb_spec (2 ^ 182 - 1) mid), (Z.leb_spec (2 ^ 52 - 2 ^ 32 - 977) (t0 + 2 ^ 26 * t1)),
    (Z.leb_spec (2 ^ 22) t9); cbn; (case_match; [done || (exfalso; lia)|done || (exfalso; lia)]).
Qed.

(** The words of a normalized value. *)
Definition normal (f : fieldVal) : Prop :=
  Forall (fun d => 0 <= d < 2 ^ 26) [n0 f; n1 f; n2 f; n3 f; n4 f; n5 f; n6 f; n7 f; n8 f] /\ 0 <= n9 f < 2 ^ 22.

Lemma normal_value f : normal f -> 0 <= fvalue f < 2 ^ 256.
Proof.
  intros [Hd H9]. repeat match goal with H : Forall _ (_ :: _) |- _ => inversion H; clear H; subst end. unfold fvalue. lia.
Qed.

(** One pass over words that leave room for a carry. *)
Lemma pass_spec t0 t1 t2 t3 t4 t5 t6 t7 t8 m :
  Forall (fun d => 0 <= d <= 2 ^ 31 + 2 ^ 26) [t0; t1; t2; t3; t4; t5; t6; t7; t8] -> 0 <= m < 2 ^ 10 ->
  exists u0 u1 u2 u3 u4 u5 u6 u7 u8 c,
    chain 32 0 (pass_columns t0 t1 t2 t3 t4 t5 t6 t7 t8 m) = [u0; u1; u2; u3; u4; u5; u6; u7; u8; c] /\
    Forall (fun d => 0 <= d < 2 ^ 26) [u0; u1; u2; u3; u4; u5; u6; u7; u8] /\ 0 <= c < 64 /\
    evalB [u0; u1; u2; u3; u4; u5; u6; u7; u8; c] = evalB [t0; t1; t2; t3; t4; t5; t6; t7; t8] + m * (2 ^ 32 + 977).
Proof.
  intros Hd Hm. destruct (chain_spec 32 0 (pass_columns t0 t1 t2 t3 t4 t5 t6 t7 t8 m)) as (ds & c & E & Hl & Hds & Hc & He); [lia|lia| |].
  { repeat match goal with H : Forall _ (_ :: _) |- _ => inversion H; clear H; subst end.
    unfold pass_columns. rewrite (Z.shiftl_mul_pow2 m 6) by lia. repeat constructor; cbn [sum fold_right]; lia. }
  destruct ds as [|u0 [|u1 [|u2 [|u3 [|u4 [|u5 [|u6 [|u7 [|u8 [|]]]]]]]]]]; try done.
  exists u0, u1, u2, u3, u4, u5, u6, u7, u8, c. split; [done|]. split; [done|]. split; [lia|].
  cbn [app] in He. rewrite He. unfold pass_columns. rewrite (Z.shiftl_mul_pow2 m 6) by lia. cbn [map sum fold_right evalB]. lia.
Qed.

(** The subtraction of the prime, as an addition of its complement to [2 ^ 256]. *)
Lemma normal_finish V m v q low T :
  0 <= V < 2 ^ 256 + 2 ^ 240 -> m = (if fieldP <=? V then 1 else 0) -> V = v - q * fieldP ->
  0 <= low < 2 ^ 234 -> low + 2 ^ 234 * T = V + m * (2 ^ 32 + 977) ->
  v mod fieldP = low + 2 ^ 234 * (T mod 2 ^ 22).
Proof.
  intros HV Hm Ev Hlow HT. pose proof (Z.div_mod T (2 ^ 22)). pose proof (Z.mod_pos_bound T (2 ^ 22)). unfold fieldP in *.
  destruct (Z.leb_spec (2 ^ 256 - 2 ^ 32 - 977) V); subst m.
  - symmetry. apply Z.mod_unique with (q + 1); lia.
  - symmetry. apply Z.mod_unique with q; lia.
Qed.

Lemma Normalize_spec f :
  magnitude 32 f -> normal (Normalize f) /\ fvalue (Normalize f) = fvalue f mod fieldP.
Proof.
  intros Hmag. pose proof (Normalize_passes f) as Hn. destruct Hmag as (M0 & M1 & M2 & M3 & M4 & M5 & M6 & M7 & M8 & M9).
  rewrite land_msb, shr_msb in Hn. set (q := n9 f / 2 ^ 22) in *. set (r := n9 f mod 2 ^ 22) in *.
  assert (n9 f = 2 ^ 22 * q + r /\ 0 <= r < 2 ^ 22 /\ 0 <= q < 2 ^ 10) as (E9 & Hr & Hq) by (unfold q, r; lia).
  destruct (pass_spec (n0 f) (n1 f) (n2 f) (n3 f) (n4 f) (n5 f) (n6 f) (n7 f) (n8 f) q)
    as (t0 & t1 & t2 & t3 & t4 & t5 & t6 & t7 & t8 & c & Ec & Ht & Hc & He);
    [unfold word_ok in *; repeat constructor; lia|lia|]. rewrite Ec in Hn. cbv zeta in Hn.
  rewrite (uwrap_small 32 (c + r)) in Hn by lia. rewrite at_least_P_spec in Hn by (done || lia).
  set (V := evalB [t0; t1; t2; t3; t4; t5; t6; t7; t8; c + r]) in *.
  assert (V = fvalue f - q * fieldP) as HV.
  { clearbody q r. clear - He E9. unfold V, fvalue, fieldP. cbn [evalB] in *. lia. }
  set (m := if fieldP <=? V then 1 else 0) in *. assert (0 <= m < 2 ^ 10) as Hm by (unfold m; destruct (fieldP <=? V); clear; lia).
  destruct (pass_spec t0 t1 t2 t3 t4 t5 t6 t7 t8 m) as (u0 & u1 & u2 & u3 & u4 & u5 & u6 & u7 & u8 & c' & Ec' & Hu & Hc' & He');
    [|done|].
  { eapply List.Forall_impl; [|exact Ht]. cbv beta. lia. }
  rewrite Ec' in Hn. rewrite Hn. rewrite uwrap_small by lia. rewrite land_msb.
  assert (0 <= V < 2 ^ 256 + 2 ^ 240) as HVb.
  { unfold V. clear - Ht Hc Hr. repeat match goal with H : Forall _ (_ :: _) |- _ => inversion H; clear H; subst end. cbn [evalB]. lia. }
  assert (0 <= evalB [u0; u1; u2; u3; u4; u5; u6; u7; u8] < 2 ^ 234) as Hlow.
  { clear - Hu. repeat match goal with H : Forall _ (_ :: _) |- _ => inversion H; clear H; subst end. cbn [evalB]. lia. }
  split; [split; [done|apply Z.mod_pos_bound; lia]|].
  rewrite (normal_finish V m (fvalue f) q (evalB [u0; u1; u2; u3; u4; u5; u6; u7; u8]) (c' + (c + r))); try done.
  - unfold fvalue. cbn [n0 n1 n2 n3 n4 n5 n6 n7 n8 n9 evalB]. lia.
  - unfold V. clear - He'. cbn [evalB] in *. lia.
Qed.
