(* ===== verification/Btcec.v ===== *)
(** The parts of src/btcec that the script engine calls: the secp256k1
    constants, public keys and signatures with their parsers and printers, and
    the interface to the cryptographic code that is not in the repository.
    The theorems are in BtcecProps.v. *)

From S2P Require Import Prelude Sha Field.

(** * Curve constants (btcec.go, initS256) *)

Definition curve_P : Z := 0xFFFFFFFFFFFFFFFFFFFFFFFFFFFFFFFFFFFFFFFFFFFFFFFFFFFFFFFEFFFFFC2F.
Definition curve_N : Z := 0xFFFFFFFFFFFFFFFFFFFFFFFFFFFFFFFEBAAEDCE6AF48A03BBFD25E8CD0364141.
Definition curve_B : Z := 7.
Definition QPlus1Div4 : Z := (curve_P + 1) / 4.
Definition curve_halfOrder : Z := curve_N >>> 1.

(** * Go's math/big, as far as it is used *)

(** [new(big.Int).SetBytes(b)] and [x.Bytes()]. *)
Definition bigSetBytes (b : bytes) : Z := be_combine b.
Definition bigBytes (x : Z) : bytes :=
  let x := Z.abs x in
  if x =? 0 then [] else be_split (Z.to_nat (Z.log2 x / 8 + 1)) x.

(** [new(big.Int).Exp(x, e, m)] for a positive modulus, by repeated squaring. *)
Fixpoint pow_mod (x : Z) (e : positive) (m : Z) : Z :=
  match e with
  | xH => x mod m
  | xO e' => let r := pow_mod x e' m in r * r mod m
  | xI e' => let r := pow_mod x e' m in r * r mod m * x mod m
  end.
Definition bigExp (x e m : Z) : Z := match e with Zpos p => pow_mod x p m | _ => 1 mod m end.

(** * Errors *)

(** The parsers return errors that carry only a text; callers test for [nil]. *)
Abbreviation ec := (outcome ()).

(** * Signatures (signature.go) *)

Record Signature : Type := mkSig { sig_R : Z; sig_S : Z }.

#[global] Instance Signature_eq_dec : EqDecision Signature.
Proof. solve_decision. Defined.

Definition canonicalizeInt (val : Z) : bytes :=
  let b := bigBytes val in
  let b := if len b =? 0 then [Byte.x00] else b in
  match b with
  | b0 :: _ => if negb (u8 b0 &&& 0x80 =? 0) then Byte.x00 :: b else b
  | [] => b
  end.

(** [true] stands for a [nil] error. *)
Definition canonicalPadding (b : bytes) : ec bool :=
  b0 ← or_panic (index b 0);
  if u8 b0 &&& 0x80 =? 0x80 then mret false else
  if (1 <? len b) && (u8 b0 =? 0x00) then
    b1 ← or_panic (index b 1); mret (u8 b1 &&& 0x80 =? 0x80)
  else mret true.

Definition Signature_Serialize (sig : Signature) : bytes :=
  let sigS := if curve_halfOrder <? sig_S sig then curve_N - sig_S sig else sig_S sig in
  let rb := canonicalizeInt (sig_R sig) in
  let sb := canonicalizeInt sigS in
  let length := 6 + len rb + len sb in
  [to_byte 0x30; to_byte (length - 2); to_byte 0x02; to_byte (len rb)] ++ rb ++
  [to_byte 0x02; to_byte (len sb)] ++ sb.

Definition Signature_IsEqual (sig otherSig : Signature) : bool :=
  (sig_R sig =? sig_R otherSig) && (sig_S sig =? sig_S otherSig).

Definition MinSigLen : Z := 8.

(** One of the two integers of [parseSig]: its padding is checked under [der]. *)
Definition parse_int (b : bytes) (der : bool) : ec Z :=
  if der then ok ← canonicalPadding b; if ok : bool then mret (bigSetBytes b) else mthrow ()
  else mret (bigSetBytes b).

Definition parseSig (sigStr : bytes) (der : bool) : ec Signature :=
  if len sigStr <? MinSigLen then mthrow () else
  magic ← or_panic (index sigStr 0);
  if negb (u8 magic =? 0x30) then mthrow () else
  siglen ← or_panic (index sigStr 1);
  let total := uwrap 8 (u8 siglen + 2) in
  if (len sigStr <? total) || (total <? MinSigLen) then mthrow () else
  sigStr ← or_panic (slice_to sigStr total);
  m1 ← or_panic (index sigStr 2);
  if negb (u8 m1 =? 0x02) then mthrow () else
  rl ← or_panic (index sigStr 3);
  let rLen := u8 rl in
  if (rLen <=? 0) || (len sigStr - 4 - 3 <? rLen) then mthrow () else
  rBytes ← or_panic (slice sigStr 4 (4 + rLen));
  r ← parse_int rBytes der;
  let idx := 4 + rLen in
  m2 ← or_panic (index sigStr idx);
  if negb (u8 m2 =? 0x02) then mthrow () else
  sl ← or_panic (index sigStr (idx + 1));
  let sLen := u8 sl in
  let idx := idx + 2 in
  if (sLen <=? 0) || (len sigStr - idx <? sLen) then mthrow () else
  sBytes ← or_panic (slice sigStr idx (idx + sLen));
  s ← parse_int sBytes der;
  if negb (idx + sLen =? len sigStr) then mthrow () else
  if negb (Z.sgn r =? 1) then mthrow () else
  if negb (Z.sgn s =? 1) then mthrow () else
  if curve_N <=? r then mthrow () else
  if curve_N <=? s then mthrow () else
  mret (mkSig r s).

Definition ParseSignature (sigStr : bytes) : ec Signature := parseSig sigStr false.
Definition ParseDERSignature (sigStr : bytes) : ec Signature := parseSig sigStr true.

(** * Points and public keys (btcec.go, pubkey.go) *)

Definition bigAffineToField (x y : Z) : fieldVal * fieldVal :=
  (SetByteSlice (bigBytes x), SetByteSlice (bigBytes y)).

Definition IsOnCurve (x y : Z) : bool :=
  let '(fx, fy) := bigAffineToField x y in
  let y2 := Normalize (SquareVal fy) in
  let result := Normalize (AddInt (Mul (SquareVal fx) fx) 7) in
  Equals y2 result.

Definition isOdd (a : Z) : bool := Z.testbit a 0.

Definition decompressPoint (x : Z) (ybit : bool) : ec Z :=
  let x3 := (x * x * x + curve_B) mod curve_P in
  let y := bigExp x3 QPlus1Div4 curve_P in
  let y := if Bool.eqb ybit (isOdd y) then y else curve_P - y in
  let y2 := y * y mod curve_P in
  if negb (y2 =? x3) then mthrow () else
  if negb (Bool.eqb ybit (isOdd y)) then mthrow () else
  mret y.

Definition PubKeyBytesLenCompressed : Z := 33.
Definition PubKeyBytesLenUncompressed : Z := 65.
Definition pubkeyCompressed : Z := 0x2.
Definition pubkeyUncompressed : Z := 0x4.
Definition pubkeyHybrid : Z := 0x6.

(** [pubKey[0]&^byte(0x1)] clears the low bit. *)
Definition IsCompressedPubKey (pubKey : bytes) : bool :=
  match pubKey with
  | b0 :: _ => (len pubKey =? PubKeyBytesLenCompressed) && (Z.ldiff (u8 b0) 0x1 =? pubkeyCompressed)
  | [] => false
  end.

(** The affine coordinates; the curve is always secp256k1. *)
Record PublicKey : Type := mkPub { pk_X : Z; pk_Y : Z }.

#[global] Instance PublicKey_eq_dec : EqDecision PublicKey.
Proof. solve_decision. Defined.

Definition ParsePubKey (pubKeyStr : bytes) : ec PublicKey :=
  match pubKeyStr with
  | [] => mthrow ()
  | b0 :: _ =>
    let ybit := u8 b0 &&& 0x1 =? 0x1 in
    let format := Z.ldiff (u8 b0) 0x1 in
    pubkey ←
      (if len pubKeyStr =? PubKeyBytesLenUncompressed then
         if negb (format =? pubkeyUncompressed) && negb (format =? pubkeyHybrid) then mthrow () else
         xb ← or_panic (slice pubKeyStr 1 33);
         yb ← or_panic (slice_from pubKeyStr 33);
         let x := bigSetBytes xb in
         let y := bigSetBytes yb in
         if (format =? pubkeyHybrid) && negb (Bool.eqb ybit (isOdd y)) then mthrow () else
         mret (mkPub x y)
       else if len pubKeyStr =? PubKeyBytesLenCompressed then
         if negb (format =? pubkeyCompressed) then mthrow () else
         xb ← or_panic (slice pubKeyStr 1 33);
         let x := bigSetBytes xb in
         y ← decompressPoint x ybit;
         mret (mkPub x y)
       else mthrow ());
    if curve_P <=? pk_X pubkey then mthrow () else
    if curve_P <=? pk_Y pubkey then mthrow () else
    if negb (IsOnCurve (pk_X pubkey) (pk_Y pubkey)) then mthrow () else
    mret pubkey
  end.

(** Appends [src] to [dst], padded on the left to [size] bytes. *)
Definition paddedAppend (size : Z) (dst src : bytes) : bytes :=
  dst ++ repeat Byte.x00 (Z.to_nat (size - len src)) ++ src.

Definition SerializeUncompressed (p : PublicKey) : bytes :=
  let b := [to_byte pubkeyUncompressed] in
  let b := paddedAppend 32 b (bigBytes (pk_X p)) in
  paddedAppend 32 b (bigBytes (pk_Y p)).

Definition SerializeCompressed (p : PublicKey) : bytes :=
  let format := if isOdd (pk_Y p) then pubkeyCompressed ||| 0x1 else pubkeyCompressed in
  paddedAppend 32 [to_byte format] (bigBytes (pk_X p)).

Definition SerializeHybrid (p : PublicKey) : bytes :=
  let format := if isOdd (pk_Y p) then pubkeyHybrid ||| 0x1 else pubkeyHybrid in
  let b := paddedAppend 32 [to_byte format] (bigBytes (pk_X p)) in
  paddedAppend 32 b (bigBytes (pk_Y p)).

Definition PublicKey_IsEqual (p otherPubKey : PublicKey) : bool :=
  (pk_X p =? pk_X otherPubKey) && (pk_Y p =? pk_Y otherPubKey).

(** * Cryptographic code outside the repository *)

(** [ecdsa.Verify] of Go's crypto/ecdsa on this curve, and the hash of
    golang.org/x/crypto/ripemd160, which returns 20 bytes. *)
Class Crypto : Type := {
  ecdsa_Verify : PublicKey -> bytes -> Z -> Z -> bool;
  ripemd160 : bytes -> bytes;
  ripemd160_len : forall buf, len (ripemd160 buf) = 20
}.

Definition Verify `{Crypto} (sig : Signature) (hash : bytes) (pubKey : PublicKey) : bool :=
  ecdsa_Verify pubKey hash (sig_R sig) (sig_S sig).

(** btcutil/hash160.go. *)
Definition Ripemd160 `{Crypto} (buf : bytes) : bytes := ripemd160 buf.
Definition Hash160 `{Crypto} (buf : bytes) : bytes := Ripemd160 (sha256 buf).
