(* ===== verification/BtcecProps.v ===== *)
(** The parsers of src/btcec for signatures and public keys: what they accept,
    that they never panic, and that they read back what the printers write. *)

From S2P Require Import Prelude Sha Wire ParseScript Field Btcec.

(** * Big-endian numbers *)

Lemma be_combine_range b : 0 <= be_combine b < 256 ^ len b.
Proof.
  unfold be_combine. pose proof (le_combine_range (rev b)) as H. unfold len in *. by rewrite length_rev in H.
Qed.

Lemma be_combine_split n x : 0 <= x < 256 ^ Z.of_nat n -> be_combine (be_split n x) = x.
Proof. intros Hx. unfold be_combine, be_split. rewrite rev_involutive. by apply le_combine_le_split_small. Qed.

Lemma be_combine_cons b l : be_combine (b :: l) = u8 b * 256 ^ len l + be_combine l.
Proof.
  unfold be_combine. simpl. rewrite le_combine_snoc. unfold len. rewrite length_rev. lia.
Qed.

Lemma be_combine_zeros n l : be_combine (repeat Byte.x00 n ++ l) = be_combine l.
Proof. induction n as [|n IH]; [done|]. simpl. rewrite be_combine_cons. change (u8 Byte.x00) with 0. lia. Qed.

(** * Signatures *)

(** An integer in DER: not negative, and no superfluous leading zero. *)
Definition der_int (b : bytes) : bool :=
  match b with
  | [] => false
  | b0 :: rest => (u8 b0 <? 128) && negb ((u8 b0 =? 0) && match rest with b1 :: _ => u8 b1 <? 128 | [] => false end)
  end.

(** The layout [0x30 len 0x02 len(R) R 0x02 len(S) S]. *)
Definition der_sig (rb sb : bytes) : bytes :=
  [to_byte 0x30; to_byte (4 + len rb + len sb); to_byte 0x02; to_byte (len rb)] ++ rb ++
  [to_byte 0x02; to_byte (len sb)] ++ sb.

Lemma len_der_sig rb sb : len (der_sig rb sb) = 6 + len rb + len sb.
Proof. unfold der_sig. len_lia. Qed.

Lemma u8_is b v : 0 <= v < 256 -> u8 b = v -> b = to_byte v.
Proof. intros Hv H. apply u8_inj. by rewrite u8_to_byte. Qed.

Lemma canonicalPadding_spec b : b <> [] -> canonicalPadding b = Ret (der_int b).
Proof.
  destruct b as [|b0 b]; [done|]. intros _. unfold canonicalPadding. rewrite index_cons_0. simpl.
  pose proof (u8_range b0). rewrite land_128_byte by done.
  destruct (Z.ltb_spec (u8 b0) 128); [|done]. simpl.
  destruct b as [|b1 b]; [by rewrite andb_false_r|].
  destruct (Z.ltb_spec 1 (len (b0 :: b1 :: b))); [|len_lia]. simpl.
  destruct (u8 b0 =? 0); [|done]. change (index (b0 :: b1 :: b) 1) with (Some b1). simpl.
  pose proof (u8_range b1). rewrite land_128_byte by done. by destruct (Z.ltb_spec (u8 b1) 128).
Qed.

Lemma parse_int_spec b der :
  b <> [] -> parse_int b der = if der && negb (der_int b) then Throw () else Ret (be_combine b).
Proof.
  intros Hb. unfold parse_int. destruct der; [|done]. rewrite canonicalPadding_spec by done. simpl.
  by destruct (der_int b).
Qed.

(** What [parseSig] returns for a byte string. *)
Definition sig_accepted (s : bytes) (der : bool) (sg : Signature) : Prop :=
  exists rb sb rest, s = der_sig rb sb ++ rest /\ 1 <= len rb /\ 1 <= len sb /\ len rb + len sb <= 249 /\
    (der = true -> der_int rb = true /\ der_int sb = true) /\
    sg = mkSig (be_combine rb) (be_combine sb) /\ 1 <= sig_R sg < curve_N /\ 1 <= sig_S sg < curve_N.

Lemma parseSig_sound s der :
  match parseSig s der with Ret sg => sig_accepted s der sg | Throw _ => True | Panic => False end.
Proof.
  unfold parseSig, MinSigLen. destruct (Z.ltb_spec (len s) 8); [done|].
  destruct s as [|a0 [|a1 [|a2 [|a3 s]]]]; try len_lia.
  change (index (a0 :: _) 0) with (Some a0). change (index (a0 :: a1 :: _) 1) with (Some a1). simpl.
  destruct (Z.eqb_spec (u8 a0) 0x30) as [E0|]; [|done]. simpl.
  set (total := uwrap 8 (u8 a1 + 2)). destruct (Z.ltb_spec (len (a0 :: a1 :: a2 :: a3 :: s)) total); [done|].
  destruct (Z.ltb_spec total 8); [done|]. simpl.
  assert (u8 a1 = total - 2 /\ total < 256) as [E1 Etot].
  { subst total. unfold uwrap in *. pose proof (u8_range a1). lia. }
  destruct (split_at_len s (total - 4)) as (t & rest & -> & Ht); [len_lia|].
  rewrite (slice_to_app (a0 :: a1 :: a2 :: a3 :: t) rest) by len_lia. simpl.
  change (index (a0 :: a1 :: a2 :: a3 :: t) 2) with (Some a2).
  change (index (a0 :: a1 :: a2 :: a3 :: t) 3) with (Some a3). simpl.
  destruct (Z.eqb_spec (u8 a2) 0x02) as [E2|]; [|done]. simpl.
  destruct (Z.leb_spec (u8 a3) 0); [done|].
  destruct (Z.ltb_spec (len (a0 :: a1 :: a2 :: a3 :: t) - 4 - 3) (u8 a3)); [done|]. simpl.
  destruct (split_at_len t (u8 a3)) as (rb & t' & -> & Hrb); [len_lia|].
  rewrite (slice_seam [a0; a1; a2; a3] rb t') by len_lia. simpl.
  rewrite parse_int_spec by (intros ->; len_lia).
  destruct (der && negb (der_int rb)) eqn:Dr; [done|]. simpl.
  destruct t' as [|a4 [|a5 t']]; try len_lia.
  assert (forall k (x : byte), index (a4 :: a5 :: t') k = Some x -> 0 <= k ->
    index (a0 :: a1 :: a2 :: a3 :: rb ++ a4 :: a5 :: t') (4 + u8 a3 + k) = Some x) as Hix.
  { intros k x Hk Hk0. change (a0 :: a1 :: a2 :: a3 :: rb ++ a4 :: a5 :: t') with ((a0 :: a1 :: a2 :: a3 :: rb) ++ a4 :: a5 :: t').
    rewrite index_app_r by len_lia. rewrite <- Hk. f_equal. len_lia. }
  pose proof (Hix 0 a4) as Hx. rewrite Z.add_0_r in Hx. rewrite Hx, (Hix 1 a5) by done. simpl.
  destruct (Z.eqb_spec (u8 a4) 0x02) as [E4|]; [|done]. simpl.
  destruct (Z.leb_spec (u8 a5) 0); [done|].
  destruct (Z.ltb_spec (len (a0 :: a1 :: a2 :: a3 :: rb ++ a4 :: a5 :: t') - (4 + u8 a3 + 2)) (u8 a5)); [done|]. simpl.
  destruct (split_at_len t' (u8 a5)) as (sb & t'' & -> & Hsb); [len_lia|].
  change (a0 :: a1 :: a2 :: a3 :: rb ++ a4 :: a5 :: sb ++ t'') with
    (([a0; a1; a2; a3] ++ rb ++ [a4; a5] ++ sb ++ t'') : bytes) in *.
  rewrite (app_assoc rb), (app_assoc [a0; a1; a2; a3]). rewrite (slice_seam (_ ++ _) sb t'') by len_lia. simpl.
  rewrite parse_int_spec by (intros ->; len_lia).
  destruct (der && negb (der_int sb)) eqn:Ds; [done|]. simpl.
  destruct (Z.eqb_spec (4 + u8 a3 + 2 + u8 a5) (len (a0 :: a1 :: a2 :: a3 :: (rb ++ [a4; a5]) ++ sb ++ t''))) as [Ee|];
    [|done]. simpl.
  assert (t'' = []) as -> by (apply len_0; len_lia). rewrite app_nil_r in *.
  destruct (Z.eqb_spec (Z.sgn (be_combine rb)) 1); [|done]. simpl.
  destruct (Z.eqb_spec (Z.sgn (be_combine sb)) 1); [|done]. simpl.
  destruct (Z.leb_spec curve_N (be_combine rb)); [done|]. destruct (Z.leb_spec curve_N (be_combine sb)); [done|].
  exists rb, sb, rest. pose proof (u8_range a1). pose proof (u8_range a3). pose proof (u8_range a5).
  assert (der = true -> der_int rb = true /\ der_int sb = true) as Hd.
  { intros ->. simpl in *. by destruct (der_int rb), (der_int sb). }
  split; [|split_and!; simpl; try done; lia || len_lia].
  unfold der_sig. simpl. rewrite <- !app_assoc. simpl.
  rewrite (u8_is a0 0x30), (u8_is a1 (4 + len rb + len sb)), (u8_is a2 0x02), (u8_is a3 (len rb)),
    (u8_is a4 0x02), (u8_is a5 (len sb)) by (lia || len_lia). done.
Qed.

Lemma der_sig_head rb sb rest :
  index (der_sig rb sb ++ rest) 0 = Some (to_byte 0x30) /\
  index (der_sig rb sb ++ rest) 1 = Some (to_byte (4 + len rb + len sb)) /\
  index (der_sig rb sb ++ rest) 2 = Some (to_byte 0x02) /\
  index (der_sig rb sb ++ rest) 3 = Some (to_byte (len rb)).
Proof. done. Qed.

Lemma der_sig_app rb sb : der_sig rb sb =
  [to_byte 0x30; to_byte (4 + len rb + len sb); to_byte 0x02; to_byte (len rb)] ++ rb ++
  [to_byte 0x02; to_byte (len sb)] ++ sb.
Proof. done. Qed.

#[local] Opaque der_sig.

Lemma parseSig_complete rb sb rest (der : bool) :
  1 <= len rb -> 1 <= len sb -> len rb + len sb <= 249 ->
  (der = true -> der_int rb = true /\ der_int sb = true) ->
  1 <= be_combine rb < curve_N -> 1 <= be_combine sb < curve_N ->
  parseSig (der_sig rb sb ++ rest) der = Ret (mkSig (be_combine rb) (be_combine sb)).
Proof.
  intros Hrb Hsb Hlen Hd Hr Hs. unfold parseSig, MinSigLen. pose proof (len_der_sig rb sb) as Hl.
  destruct (Z.ltb_spec (len (der_sig rb sb ++ rest)) 8); [len_lia|].
  destruct (der_sig_head rb sb rest) as (-> & -> & _ & _). simpl.
  rewrite !u8_to_byte by lia. eval_ztests. simpl. rewrite uwrap_small by lia.
  destruct (Z.ltb_spec (len (der_sig rb sb ++ rest)) (4 + len rb + len sb + 2)); [len_lia|].
  destruct (Z.ltb_spec (4 + len rb + len sb + 2) 8); [lia|]. simpl.
  rewrite slice_to_app by lia. simpl.
  destruct (der_sig_head rb sb []) as (_ & _ & I2 & I3). rewrite app_nil_r in I2, I3. rewrite I2, I3. simpl.
  rewrite !u8_to_byte by lia. eval_ztests. simpl. rewrite Hl.
  destruct (Z.leb_spec (len rb) 0), (Z.ltb_spec (6 + len rb + len sb - 4 - 3) (len rb)); try lia. simpl.
  set (hd := [to_byte 0x30; to_byte (4 + len rb + len sb); to_byte 0x02; to_byte (len rb)]).
  set (mid := [to_byte 0x02; to_byte (len sb)]).
  rewrite (der_sig_app rb sb). fold hd mid.
  assert (len hd = 4 /\ len mid = 2 /\ index mid 0 = Some (to_byte 0x02) /\ index mid 1 = Some (to_byte (len sb)))
    as (Lh & Lm & M0 & M1) by done. clearbody hd mid.
  rewrite (slice_seam hd rb (mid ++ sb)) by lia. simpl.
  rewrite parse_int_spec by (intros ->; len_lia).
  assert (der && negb (der_int rb) = false) as -> by (destruct der; [by destruct Hd as [-> _]|done]). simpl.
  assert (forall k : Z, 0 <= k < 2 -> index (hd ++ rb ++ mid ++ sb) (4 + len rb + k) = index mid k) as Hix.
  { intros k Hk. rewrite app_assoc, index_app_r by len_lia. rewrite index_app_l by len_lia. f_equal. len_lia. }
  pose proof (Hix 0 ltac:(lia)) as Hx. rewrite Z.add_0_r in Hx. rewrite Hx, Hix, M0, M1 by lia. simpl.
  rewrite !u8_to_byte by lia. eval_ztests. simpl.
  destruct (Z.leb_spec (len sb) 0), (Z.ltb_spec (6 + len rb + len sb - (4 + len rb + 2)) (len sb)); try lia. simpl.
  replace (hd ++ rb ++ mid ++ sb) with ((hd ++ rb ++ mid) ++ sb ++ []) by (by rewrite app_nil_r, <- !app_assoc).
  rewrite (slice_seam (hd ++ rb ++ mid) sb []) by len_lia. simpl.
  rewrite parse_int_spec by (intros ->; len_lia).
  assert (der && negb (der_int sb) = false) as -> by (destruct der; [by destruct Hd as [_ ->]|done]). simpl.
  destruct (Z.eqb_spec (4 + len rb + 2 + len sb) (6 + len rb + len sb)); [|lia]. simpl.
  rewrite !Z.sgn_pos by lia. simpl.
  destruct (Z.leb_spec curve_N (be_combine rb)), (Z.leb_spec curve_N (be_combine sb)); try lia. done.
Qed.

(** The minimal big-endian bytes of a positive number. *)
Lemma bigBytes_spec x : 0 < x -> exists b0 l, bigBytes x = b0 :: l /\ be_combine (b0 :: l) = x /\ 0 < u8 b0 /\
  256 ^ len l <= x < 256 ^ (1 + len l).
Proof.
  intros Hx. unfold bigBytes. rewrite Z.abs_eq by lia. destruct (Z.eqb_spec x 0); [lia|].
  pose proof (Z.log2_spec x Hx) as [Hlo Hhi]. pose proof (Z.log2_nonneg x).
  set (k := Z.log2 x / 8). assert (0 <= k) by (apply Z.div_pos; lia).
  assert (256 ^ k <= x < 256 ^ (k + 1)) as Hk.
  { change 256 with (2 ^ 8). rewrite <- !Z.pow_mul_r by lia. split.
    - etransitivity; [|exact Hlo]. apply Z.pow_le_mono_r; lia.
    - eapply Z.lt_le_trans; [exact Hhi|]. apply Z.pow_le_mono_r; lia. }
  assert (be_combine (be_split (Z.to_nat (k + 1)) x) = x) as E by (apply be_combine_split; rewrite Z2Nat.id; lia).
  pose proof (len_be_split (Z.to_nat (k + 1)) x) as Hl. rewrite Z2Nat.id in Hl by lia.
  destruct (be_split (Z.to_nat (k + 1)) x) as [|b0 l]; [len_lia|]. exists b0, l.
  assert (len l = k) as -> by len_lia. rewrite Z.add_comm. split_and!; try done; try lia.
  rewrite be_combine_cons in E. pose proof (be_combine_range l). assert (len l = k) as El by len_lia. rewrite El in *.
  pose proof (u8_range b0). destruct (Z.eq_dec (u8 b0) 0) as [E0|]; [rewrite E0 in E|]; lia.
Qed.

Lemma canonicalizeInt_spec x :
  1 <= x < 2 ^ 256 ->
  der_int (canonicalizeInt x) = true /\ be_combine (canonicalizeInt x) = x /\ 1 <= len (canonicalizeInt x) <= 33.
Proof.
  intros Hx. unfold canonicalizeInt. destruct (bigBytes_spec x) as (b0 & l & -> & E & Hb & Hr); [lia|].
  assert (len l < 32) as Hl.
  { change (2 ^ 256) with (256 ^ 32) in Hx. apply (Z.pow_lt_mono_r_iff 256); len_lia. }
  destruct (Z.eqb_spec (len (b0 :: l)) 0); [len_lia|]. pose proof (u8_range b0).
  rewrite land_128_byte by done. destruct (Z.ltb_spec (u8 b0) 128); simpl.
  - destruct (Z.ltb_spec (u8 b0) 128); [|lia]. destruct (Z.eqb_spec (u8 b0) 0); [lia|].
    split_and!; [done|done|len_lia|len_lia].
  - destruct (Z.ltb_spec (u8 b0) 128); [lia|]. rewrite be_combine_cons. change (u8 Byte.x00) with 0.
    split_and!; [done|lia|len_lia|len_lia].
Qed.

(** The signature with the smaller of the two equivalent values of S. *)
Definition low_s (sig : Signature) : Signature :=
  mkSig (sig_R sig) (if curve_halfOrder <? sig_S sig then curve_N - sig_S sig else sig_S sig).

Lemma low_s_range sig :
  1 <= sig_S sig < curve_N -> 1 <= sig_S (low_s sig) <= curve_halfOrder.
Proof.
  unfold low_s, curve_halfOrder. intros H. simpl. change (curve_N >>> 1) with (curve_N / 2).
  destruct (Z.ltb_spec (curve_N / 2) (sig_S sig)); unfold curve_N in *; lia.
Qed.

Lemma Serialize_der sig : Signature_Serialize sig =
  der_sig (canonicalizeInt (sig_R sig)) (canonicalizeInt (sig_S (low_s sig))).
Proof.
  rewrite der_sig_app. unfold Signature_Serialize, low_s. cbn [sig_R sig_S].
  set (rb := canonicalizeInt _). set (sb := canonicalizeInt _).
  replace (6 + len rb + len sb - 2) with (4 + len rb + len sb) by lia. done.
Qed.

(** C34: a signature is read back from its printed form, with S replaced by the
    smaller of S and N-S, by the strict parser and by the lax one, whatever
    follows it; and the strict parser accepts nothing else: every string it
    accepts starts with the DER layout of the two integers it returns, each in
    its only DER form, positive and below the group order.  The parsers never
    panic. *)
Theorem signature_roundtrip (sig : Signature) (der : bool) (rest : bytes)
    (HR : 1 <= sig_R sig < curve_N) (HS : 1 <= sig_S sig < curve_N) :
  parseSig (Signature_Serialize sig ++ rest) der = Ret (low_s sig) /\
  forall s, ParseDERSignature s <> Panic /\
    forall sg, ParseDERSignature s = Ret sg -> sig_accepted s true sg.
Proof.
  split.
  - pose proof (low_s_range sig HS) as Hl. assert (curve_N < 2 ^ 256) by done.
    assert (curve_halfOrder < curve_N) by done.
    destruct (canonicalizeInt_spec (sig_R sig)) as (D1 & E1 & L1); [lia|].
    destruct (canonicalizeInt_spec (sig_S (low_s sig))) as (D2 & E2 & L2); [lia|].
    rewrite Serialize_der, parseSig_complete by (lia || done). by rewrite E1, E2.
  - intros s. pose proof (parseSig_sound s true) as H. unfold ParseDERSignature.
    split; [intros E; by rewrite E in H|]. intros sg E. by rewrite E in H.
Qed.

Lemma signature_roundtrip_witness :
  parseSig (Signature_Serialize (mkSig 255 (curve_N - 1)) ++ [Byte.x01]) true = Ret (mkSig 255 1).
Proof. apply (signature_roundtrip (mkSig 255 (curve_N - 1)) true [Byte.x01]); done. Defined.

Lemma parseSig_no_panic s der : parseSig s der <> Panic.
Proof. intros E. pose proof (parseSig_sound s der) as H. by rewrite E in H. Qed.

(** * Public keys *)

Lemma slice_is_Some {A} (l : list A) lo hi : 0 <= lo -> lo <= hi -> hi <= len l -> is_Some (slice l lo hi).
Proof.
  intros. unfold slice. by destruct (Z.leb_spec 0 lo), (Z.leb_spec lo hi), (Z.leb_spec hi (len l)); try lia.
Qed.

Lemma ParsePubKey_no_panic s : ParsePubKey s <> Panic.
Proof.
  unfold ParsePubKey. destruct s as [|b0 s]; [done|]. set (str := b0 :: s).
  assert (forall m : ec PublicKey, m <> Panic ->
    (pubkey ← m; if curve_P <=? pk_X pubkey then mthrow () else
     if curve_P <=? pk_Y pubkey then mthrow () else
     if negb (IsOnCurve (pk_X pubkey) (pk_Y pubkey)) then mthrow () else mret pubkey) <> Panic) as Hk.
  { intros [pk| |] Hm; [|discriminate|congruence]. unfold mbind, outcome_bind.
    destruct (curve_P <=? pk_X pk); [discriminate|]. destruct (curve_P <=? pk_Y pk); [discriminate|].
    destruct (negb _); discriminate. }
  apply Hk. unfold slice_from. destruct (Z.eqb_spec (len str) PubKeyBytesLenUncompressed) as [E|_].
  { unfold PubKeyBytesLenUncompressed in E. destruct (_ && _); [done|].
    destruct (slice_is_Some str 1 33) as [xb ->]; [lia..|]. simpl.
    destruct (slice_is_Some str 33 (len str)) as [yb ->]; [lia..|]. simpl. by destruct (_ && _). }
  destruct (Z.eqb_spec (len str) PubKeyBytesLenCompressed) as [E|_]; [|done].
  unfold PubKeyBytesLenCompressed in E. destruct (negb _); [done|].
  destruct (slice_is_Some str 1 33) as [xb ->]; [lia..|]. simpl.
  unfold decompressPoint. destruct (negb (_ =? _)); [discriminate|]. destruct (negb _); discriminate.
Qed.

Lemma len_Ripemd160 `{Crypto} buf : len (Ripemd160 buf) = 20.
Proof. apply ripemd160_len. Qed.
Lemma len_Hash160 `{Crypto} buf : len (Hash160 buf) = 20.
Proof. apply ripemd160_len. Qed.
#[export] Hint Rewrite @len_Ripemd160 @len_Hash160 : len.
