(* ===== verification/Prime.v ===== *)
(** The field prime of secp256k1 is prime.  The curve code depends on it: [Inverse]
    of btcec/field.go raises to the power [P - 2], and [decompressPoint] of
    btcec/pubkey.go takes square roots by raising to [(P + 1) / 4].  The proof is by
    Pocklington certificates, evaluated with the [bigExp] of the model. *)

From Stdlib Require Import ZArith.Znumtheory Zmod.ZmodInv.
From S2P Require Import Prelude Sha Wire Btcec BtcecProps.

(** * Modular powers *)

Lemma pow_mod_spec x p m : 0 < m -> pow_mod x p m = x ^ Zpos p mod m.
Proof.
  intros Hm. induction p as [p IH|p IH|]; cbn [pow_mod]; rewrite ?IH; [| |by rewrite Z.pow_1_r].
  - rewrite Pos2Z.inj_xI, Z.pow_add_r, Z.pow_1_r, Z.pow_mul_r, Z.pow_2_r by lia. rewrite <- Z.mul_mod by lia.
    rewrite Z.mul_mod_idemp_l by lia. by rewrite Z.pow_mul_l.
  - rewrite Pos2Z.inj_xO, Z.pow_mul_r, Z.pow_2_r by lia. rewrite <- Z.mul_mod by lia. by rewrite Z.pow_mul_l.
Qed.

Lemma bigExp_spec x e m : 0 <= e -> 0 < m -> bigExp x e m = x ^ e mod m.
Proof. intros He Hm. destruct e as [|p|p]; [done|by apply pow_mod_spec|lia]. Qed.

(** * Primes and divisors *)

Lemma prime_divisor n : 1 < n -> exists q, Z.prime q /\ (q | n) /\ q <= n.
Proof.
  intros Hn. assert (0 <= n) as H0 by lia. revert Hn. pattern n. apply Z_lt_induction; [|exact H0]. clear n H0. intros n IH Hn.
  destruct (prime_dec n) as [Hp%prime_alt|Hp]; [exists n; split_and!; [done|reflexivity|lia]|].
  destruct (not_prime_divide n Hn Hp) as (m & Hm & Hd). destruct (IH m) as (q & Hq & Hqm & Hle); [lia..|].
  exists q. split; [done|]. split; [by apply Z.divide_trans with m|lia].
Qed.

(** A number all of whose prime divisors exceed its square root is prime. *)
Lemma prime_sqrt n : 1 < n -> (forall q, Z.prime q -> (q | n) -> n < q * q) -> Z.prime n.
Proof.
  intros Hn Hall. split; [done|]. intros m Hm [k Hk].
  assert (exists d, 1 < d /\ (d | n) /\ d * d <= n) as (d & Hd & Hdn & Hdd).
  { destruct (Z.le_gt_cases m k); [exists m|exists k]; (split; [nia|]; split; [|nia]); [exists k|exists m]; lia. }
  destruct (prime_divisor d Hd) as (q & Hq & Hqd & Hle). pose proof (Z.prime_ge_2 q Hq).
  specialize (Hall q Hq (Z.divide_trans _ _ _ Hqd Hdn)). nia.
Qed.

(** Trial division by [2 .. fuel + 1]. *)
Fixpoint trial (fuel : nat) (d n : Z) : bool :=
  match fuel with O => n <? d * d | S fuel' => (n <? d * d) || (negb (n mod d =? 0) && trial fuel' (d + 1) n) end.

Lemma trial_spec fuel d n : 0 < d -> trial fuel d n = true -> forall q, d <= q -> (q | n) -> n < q * q.
Proof.
  revert d. induction fuel as [|fuel IH]; intros d Hd Ht q Hq Hqn; cbn [trial] in Ht.
  { apply Z.ltb_lt in Ht. nia. }
  apply orb_true_iff in Ht as [Ht|Ht]; [apply Z.ltb_lt in Ht; nia|]. apply andb_true_iff in Ht as [Hm Ht].
  destruct (decide (q = d)) as [->|Hne]; [|apply (IH (d + 1)); [lia|done|lia|done]].
  exfalso. apply Z.mod_divide in Hqn; [|lia]. by rewrite Hqn in Hm.
Qed.

Lemma trial_prime n : 1 < n -> trial (Z.to_nat 20000) 2 n = true -> Z.prime n.
Proof.
  intros Hn Ht. apply prime_sqrt; [done|]. intros q Hq. apply (trial_spec _ 2 n ltac:(lia) Ht). pose proof (Z.prime_ge_2 q Hq). lia.
Qed.

(** * Pocklington's criterion *)

Lemma pow_mod_1 b e p : 1 < p -> 0 <= e -> b mod p = 1 -> b ^ e mod p = 1.
Proof. intros Hp He Hb. rewrite <- Z.mod_pow_l, Hb, Z.pow_1_l by lia. by apply Z.mod_small. Qed.

(** A unit of which two coprime powers are 1 is 1. *)
Lemma coprime_powers b q r p :
  1 < p -> 0 < q -> 0 < r -> Z.gcd q r = 1 -> b ^ q mod p = 1 -> b ^ r mod p = 1 -> b mod p = 1.
Proof.
  intros Hp Hq Hr Hg Hbq Hbr. destruct (Z.gcd_bezout q r 1 Hg) as (u0 & v0 & Huv).
  set (t := Z.abs u0 + Z.abs v0). set (u := u0 + t * r). set (v := t * q - v0).
  assert (u * q = 1 + v * r) as E by (unfold u, v; lia).
  assert (0 <= t /\ t <= t * r /\ t <= t * q) as (Ht & Htr & Htq) by (clear -Hq Hr; unfold t; nia).
  assert (0 <= u /\ 0 <= v) as [Hu Hv] by (clear -Ht Htr Htq; unfold u, v, t in *; lia).
  clearbody u v.
  pose proof (pow_mod_1 _ u p Hp Hu Hbq) as H1. rewrite <- Z.pow_mul_r in H1 by lia.
  replace (q * u) with (1 + r * v) in H1 by lia. rewrite Z.pow_add_r, Z.pow_1_r, Z.pow_mul_r in H1 by lia.
  rewrite <- Z.mul_mod_idemp_r, (pow_mod_1 _ v p Hp Hv Hbr), Z.mul_1_r in H1 by lia. exact H1.
Qed.

Lemma pocklington_factor n p q a :
  Z.prime p -> (p | n) -> Z.prime q -> (q | n - 1) -> 1 < n ->
  a ^ (n - 1) mod n = 1 -> Z.gcd (a ^ ((n - 1) / q) - 1) n = 1 -> (q | p - 1).
Proof.
  intros Hp Hpn Hq [R HR] Hn Ha Hg. pose proof (Z.prime_ge_2 p Hp). pose proof (Z.prime_ge_2 q Hq).
  destruct (Z.BoolSpec_divide q (p - 1)) as [Hd|Hd]; [done|exfalso]. apply (Z.coprime_prime_l q (p - 1) Hq) in Hd.
  rewrite HR, Z.div_mul in Hg by lia. rewrite HR in Ha. rewrite Z.pow_mul_r in Ha by nia.
  set (b := a ^ R) in *. clearbody b.
  assert (b ^ q mod p = 1) as Hbq.
  { destruct Hpn as [k ->]. rewrite <- (Z.mod_small 1 p) by lia. rewrite <- Ha. symmetry. apply Z.mod_mod_divide. exists k. lia. }
  assert (b mod p <> 0) as Hb0. { intros Hb. rewrite <- Z.mod_pow_l, Hb, Z.pow_0_l in Hbq by lia. by rewrite Z.mod_0_l in Hbq by lia. }
  pose proof (coprime_powers b q (p - 1) p ltac:(lia) ltac:(lia) ltac:(lia) Hd Hbq (Z.fermat_nz p b Hp Hb0)) as Hb1.
  assert (p | b - 1) as Hpb. { apply Z.mod_divide; [lia|]. rewrite Zminus_mod, Hb1, (Z.mod_small 1 p) by lia. apply Z.mod_0_l. lia. }
  pose proof (Z.gcd_greatest _ _ _ Hpb Hpn) as Hdiv. rewrite Hg in Hdiv. apply Z.divide_1_r_nonneg in Hdiv; lia.
Qed.

(** A certificate for [n]: primes dividing [n - 1], each with a base that shows the
    criterion for it; their product exceeds the square root of [n]. *)
Definition factor_ok (n : Z) (c : Z * Z) : bool :=
  let '(q, a) := c in
  ((n - 1) mod q =? 0) && (bigExp a (n - 1) n =? 1) && (Z.gcd (bigExp a ((n - 1) / q) n - 1) n =? 1).

Fixpoint factored (cs : list (Z * Z)) : Z := match cs with [] => 1 | (q, _) :: cs' => q * factored cs' end.

Fixpoint coprime_factors (cs : list (Z * Z)) : bool :=
  match cs with [] => true | (q, _) :: cs' => (Z.gcd q (factored cs') =? 1) && coprime_factors cs' end.

Definition certificate (n : Z) (cs : list (Z * Z)) : bool :=
  forallb (factor_ok n) cs && coprime_factors cs && (n <? (1 + factored cs) * (1 + factored cs)).

Lemma factor_ok_divides n p q a : 1 < n -> Z.prime q -> factor_ok n (q, a) = true -> Z.prime p -> (p | n) -> (q | p - 1).
Proof.
  intros Hn Hq Hc Hp Hpn. unfold factor_ok in Hc. pose proof (Z.prime_ge_2 q Hq).
  apply andb_true_iff in Hc as [Hc Hg]. apply andb_true_iff in Hc as [Hd Ha].
  apply Z.eqb_eq in Hd, Ha, Hg. rewrite bigExp_spec in Ha, Hg by (try apply Z.div_pos; lia).
  apply (pocklington_factor n p q a Hp Hpn Hq); [apply Z.mod_divide; lia|done|done|].
  rewrite Z.gcd_comm, <- Z.gcd_mod, Zminus_mod_idemp_l, Z.gcd_mod, Z.gcd_comm in Hg by lia. exact Hg.
Qed.

Lemma pocklington n cs : 1 < n -> Forall (fun c => Z.prime (fst c)) cs -> certificate n cs = true -> Z.prime n.
Proof.
  intros Hn Hcs Hc. unfold certificate in Hc. apply andb_true_iff in Hc as [Hc Hlt]. apply andb_true_iff in Hc as [Hok Hco].
  apply Z.ltb_lt in Hlt. apply prime_sqrt; [done|]. intros p Hp Hpn.
  assert (factored cs | p - 1) as Hd.
  { clear Hlt. induction cs as [|[q a] cs IH]; [apply Z.divide_1_l|]. inversion Hcs; subst.
    cbn [forallb factored coprime_factors] in *. apply andb_true_iff in Hok as [Hq Hok], Hco as [Hg Hco]. apply Z.eqb_eq in Hg.
    pose proof (factor_ok_divides n p q a Hn ltac:(done) Hq Hp Hpn) as [k Hk]. specialize (IH ltac:(done) Hok Hco).
    rewrite Hk in *. rewrite (Z.mul_comm k). apply Z.mul_divide_mono_l. rewrite (Z.mul_comm k), Z.gcd_comm in *.
    by apply Z.gauss in IH. }
  pose proof (Z.prime_ge_2 p Hp). apply Z.divide_pos_le in Hd; [|lia].
  assert (0 <= factored cs); [|nia].
  clear -Hcs. induction Hcs as [|[q a] cs Hq Hcs IH]; cbn [factored]; [lia|]. pose proof (Z.prime_ge_2 q Hq). lia.
Qed.

(** * The prime of the curve *)

Lemma prime_128 : Z.prime 255515944373312847190720520512484175977.
Proof.
  apply (pocklington _ [(107590001, 2); (7240687, 2); (96557, 2)]); [done| |vm_compute; reflexivity].
  repeat constructor; cbn [fst]; (apply trial_prime; [done|vm_compute; reflexivity]).
Qed.

Lemma prime_237 : Z.prime 205115282021455665897114700593932402728804164701536103180137503955397371.
Proof.
  apply (pocklington _ [(255515944373312847190720520512484175977, 2)]); [done| |vm_compute; reflexivity].
  constructor; [exact prime_128|constructor].
Qed.

Lemma curve_P_prime : Z.prime curve_P.
Proof.
  apply (pocklington _ [(205115282021455665897114700593932402728804164701536103180137503955397371, 2)]); [done| |vm_compute; reflexivity].
  constructor; [exact prime_237|constructor].
Qed.
