(* ===== verification/FieldOps.v ===== *)
(** The other operations of field.go: negation, sums, comparisons, bytes; and the
    curve equation as [IsOnCurve] evaluates it. *)

From Stdlib Require Import Zmod.ZmodInv.
From S2P Require Import Prelude Sha Wire Field FieldProps Btcec BtcecProps Prime.

(** * Sums and negation *)

Ltac open_mag := unfold magnitude, word_ok in *; cbn [n0 n1 n2 n3 n4 n5 n6 n7 n8 n9] in *.

Lemma magnitude_mono j k f : 0 <= j <= k -> magnitude j f -> magnitude k f.
Proof. intros Hjk (? & ? & ? & ? & ? & ? & ? & ? & ? & ?). open_mag. split_and!; nia. Qed.

Lemma normal_magnitude f : normal f -> magnitude 1 f.
Proof.
  intros [Hd H9]. repeat match goal with H : Forall _ (_ :: _) |- _ => inversion H; clear H; subst end. open_mag. lia.
Qed.

Lemma Add2_spec j k a b :
  magnitude j a -> magnitude k b -> 0 <= j -> 0 <= k -> j + k <= 32 ->
  magnitude (j + k) (Add2 a b) /\ fvalue (Add2 a b) = fvalue a + fvalue b.
Proof.
  intros (A0 & A1 & A2 & A3 & A4 & A5 & A6 & A7 & A8 & A9) (B0 & B1 & B2 & B3 & B4 & B5 & B6 & B7 & B8 & B9) Hj Hk Hjk.
  open_mag. unfold Add2. rewrite !uwrap_small by lia. split; [open_mag; lia|]. unfold fvalue. cbn [n0 n1 n2 n3 n4 n5 n6 n7 n8 n9]. lia.
Qed.

Lemma AddInt_spec k f i :
  magnitude k f -> 0 <= k < 32 -> 0 <= i < 2 ^ 26 -> magnitude (k + 1) (AddInt f i) /\ fvalue (AddInt f i) = fvalue f + i.
Proof.
  intros (A0 & A1 & A2 & A3 & A4 & A5 & A6 & A7 & A8 & A9) Hk Hi. open_mag. unfold AddInt. rewrite !uwrap_small by (rewrite ?uwrap_small by lia; lia).
  split; [open_mag; lia|]. unfold fvalue. cbn [n0 n1 n2 n3 n4 n5 n6 n7 n8 n9]. lia.
Qed.

Lemma mul_word M k w i : 0 <= M -> 0 <= k -> 0 <= i -> 0 <= w <= k * M -> 0 <= w * i <= k * i * M.
Proof.
  intros HM Hk Hi Hw. split; [nia|]. replace (k * i * M) with (k * M * i) by ring. apply Z.mul_le_mono_nonneg_r; lia.
Qed.

Lemma MulInt_spec k f i :
  magnitude k f -> 0 <= k -> 0 <= i < 2 ^ 32 -> k * i <= 32 -> magnitude (k * i) (MulInt f i) /\ fvalue (MulInt f i) = fvalue f * i.
Proof.
  intros (A0 & A1 & A2 & A3 & A4 & A5 & A6 & A7 & A8 & A9) Hk Hi Hki. open_mag. unfold MulInt. cbv zeta.
  rewrite (uwrap_small 32 i) by lia.
  repeat match goal with A : 0 <= _ <= k * ?M |- _ => apply (mul_word M k _ i) in A; [|lia..] end.
  rewrite !uwrap_small by lia. split; [open_mag; tauto|]. unfold fvalue. cbn [n0 n1 n2 n3 n4 n5 n6 n7 n8 n9]. ring.
Qed.

Lemma NegateVal_spec k f :
  magnitude k f -> 0 <= k < 31 ->
  magnitude (k + 1) (NegateVal f k) /\ fvalue (NegateVal f k) = (k + 1) * fieldP - fvalue f.
Proof.
  intros (A0 & A1 & A2 & A3 & A4 & A5 & A6 & A7 & A8 & A9) Hk. open_mag. unfold NegateVal. cbv zeta.
  rewrite (uwrap_small 32 (k + 1)) by lia. change fieldPrimeWordZero with (2 ^ 26 - 977). change fieldPrimeWordOne with (2 ^ 26 - 65).
  change fieldBaseMask with (2 ^ 26 - 1). change fieldMSBMask with (2 ^ 22 - 1).
  rewrite !uwrap_small by lia. split; [open_mag; lia|]. unfold fvalue, fieldP. cbn [n0 n1 n2 n3 n4 n5 n6 n7 n8 n9]. lia.
Qed.

(** * Comparisons *)

Lemma lor_zero a b : a ||| b = 0 <-> a = 0 /\ b = 0.
Proof. apply Z.lor_eq_0_iff. Qed.

Lemma Equals_spec f g : Equals f g = true <-> f = g.
Proof.
  unfold Equals. rewrite Z.eqb_eq, !lor_zero, !Z.lxor_eq_0_iff. destruct f as [a0 a1 a2 a3 a4 a5 a6 a7 a8 a9], g as [b0 b1 b2 b3 b4 b5 b6 b7 b8 b9]; cbn [n0 n1 n2 n3 n4 n5 n6 n7 n8 n9].
  split; [by intros (((((((((-> & ->) & ->) & ->) & ->) & ->) & ->) & ->) & ->) & ->)|].
  intros E. injection E as -> -> -> -> -> -> -> -> -> ->. tauto.
Qed.

Lemma digit_inj a b x y : 0 <= a < 2 ^ 26 -> 0 <= b < 2 ^ 26 -> a + 2 ^ 26 * x = b + 2 ^ 26 * y -> a = b /\ x = y.
Proof. lia. Qed.

(** Normalized values are equal when their words are. *)
Lemma normal_inj f g : normal f -> normal g -> fvalue f = fvalue g -> f = g.
Proof.
  intros [Hf Hf9] [Hg Hg9] E. destruct f as [a0 a1 a2 a3 a4 a5 a6 a7 a8 a9], g as [b0 b1 b2 b3 b4 b5 b6 b7 b8 b9]; cbn [n0 n1 n2 n3 n4 n5 n6 n7 n8 n9] in *.
  repeat match goal with H : Forall _ (_ :: _) |- _ => inversion H; clear H; subst end.
  unfold fvalue in E. cbn [n0 n1 n2 n3 n4 n5 n6 n7 n8 n9] in E.
  do 9 (apply digit_inj in E as [-> E]; [|done|done]). by rewrite E.
Qed.

Lemma Equals_value f g : normal f -> normal g -> Equals f g = true <-> fvalue f = fvalue g.
Proof. intros Hf Hg. rewrite Equals_spec. split; [by intros ->|by apply normal_inj]. Qed.

(** * Bytes *)

Lemma lor_shl a x k : 0 <= k -> 0 <= a < 2 ^ k -> 0 <= x -> x * 2 ^ k < 2 ^ 32 -> a ||| shl32 x k = a + x * 2 ^ k.
Proof.
  intros Hk Ha Hx Hlt. unfold shl32. rewrite Z.shiftl_mul_pow2 by done. rewrite uwrap_small by nia. by apply lor_add_pow2.
Qed.

Lemma land_low x k m : 0 <= k -> m = Z.ones k -> x &&& m = x mod 2 ^ k.
Proof. intros Hk ->. by apply Z.land_ones. Qed.

(** A byte of which the low bits go to one word and the high bits to the next. *)
Ltac split_byte b k :=
  let lo := fresh "lo" in let hi := fresh "hi" in let E := fresh "E" in
  set (lo := b mod 2 ^ k); set (hi := b / 2 ^ k);
  assert (b = 2 ^ k * hi + lo /\ 0 <= lo < 2 ^ k /\ 0 <= hi < 2 ^ (8 - k)) as (E & ? & ?) by (unfold lo, hi; lia);
  clearbody lo hi.

Lemma join3 x y z i j k :
  0 <= i <= j -> j + k <= 32 -> 0 <= k -> 0 <= x < 2 ^ i -> 0 <= y < 2 ^ (j - i) -> 0 <= z < 2 ^ k ->
  x ||| shl32 y i ||| shl32 z j = x + y * 2 ^ i + z * 2 ^ j /\ x + y * 2 ^ i < 2 ^ j.
Proof.
  intros Hij Hk Hk0 Hx Hy Hz. assert (2 ^ j = 2 ^ (j - i) * 2 ^ i) as Ej by (rewrite <- Z.pow_add_r by lia; f_equal; lia).
  assert (2 ^ (j + k) <= 2 ^ 32) as H32 by (apply Z.pow_le_mono_r; lia). rewrite Z.pow_add_r in H32 by lia.
  pose proof (Z.pow_pos_nonneg 2 i). pose proof (Z.pow_pos_nonneg 2 j). pose proof (Z.pow_pos_nonneg 2 k).
  assert (x + y * 2 ^ i < 2 ^ j) as Hxy by nia. assert (2 ^ j <= 2 ^ 32) by nia.
  split; [|done]. rewrite (lor_shl x y i) by nia. by rewrite lor_shl by nia.
Qed.

Lemma join3' x y z i j k :
  0 <= i <= j -> j + k <= 32 -> 0 <= k -> 0 <= x < 2 ^ i -> 0 <= y < 2 ^ (j - i) -> 0 <= z < 2 ^ k ->
  x ||| shl32 y i ||| shl32 z j = x + y * 2 ^ i + z * 2 ^ j.
Proof. intros. by apply (join3 x y z i j k). Qed.

Lemma join4 x y z w i j k l :
  0 <= i <= j -> j <= k -> k + l <= 32 -> 0 <= l -> 0 <= x < 2 ^ i -> 0 <= y < 2 ^ (j - i) -> 0 <= z < 2 ^ (k - j) -> 0 <= w < 2 ^ l ->
  x ||| shl32 y i ||| shl32 z j ||| shl32 w k = x + y * 2 ^ i + z * 2 ^ j + w * 2 ^ k.
Proof.
  intros Hij Hjk Hk Hl Hx Hy Hz Hw. destruct (join3 x y z i j (k - j)) as [-> Hlt]; [lia..|done|done|].
  assert (2 ^ k = 2 ^ (k - j) * 2 ^ j) as Ek by (rewrite <- Z.pow_add_r by lia; f_equal; lia).
  assert (2 ^ (k + l) <= 2 ^ 32) as H32 by (apply Z.pow_le_mono_r; lia). rewrite Z.pow_add_r in H32 by lia.
  pose proof (Z.pow_pos_nonneg 2 i). pose proof (Z.pow_pos_nonneg 2 j). pose proof (Z.pow_pos_nonneg 2 k).
  apply lor_shl; nia.
Qed.

Ltac join_words :=
  rewrite ?(join4 _ _ _ _ 8 16 24 2) by (done || assumption); rewrite ?(join4 _ _ _ _ 6 14 22 4) by (done || assumption);
  rewrite ?(join4 _ _ _ _ 4 12 20 6) by (done || assumption); rewrite ?(join4 _ _ _ _ 2 10 18 8) by (done || assumption);
  rewrite (join3' _ _ _ 6 14 8) by (done || assumption).

Lemma SetBytes_spec b32 : length b32 = 32%nat -> normal (SetBytes b32) /\ fvalue (SetBytes b32) = be_combine b32.
Proof.
  intros Hl. do 32 (destruct b32 as [|? b32]; [discriminate Hl|]). destruct b32; [|discriminate Hl]. clear Hl.
  unfold be_combine. cbn [rev app]. rewrite !le_combine_cons, le_combine_nil.
  cbv [SetBytes Z.to_nat Pos.to_nat Pos.iter_op Init.Nat.add nth].
  rewrite !(land_low _ 2 twoBitsMask), !(land_low _ 4 fourBitsMask), !(land_low _ 6 sixBitsMask) by done.
  rewrite !Z.shiftr_div_pow2 by lia.
  repeat match goal with |- context [u8 ?b] => pose proof (u8_range b); generalize dependent (u8 b); intros ? ? end.
  repeat match goal with |- context [?b mod 2 ^ ?k] => split_byte b k end.
  join_words. split; [split; [repeat constructor|]; cbn [n0 n1 n2 n3 n4 n5 n6 n7 n8 n9]; lia|].
  unfold fvalue. cbn [n0 n1 n2 n3 n4 n5 n6 n7 n8 n9]. subst. ring.
Qed.

Lemma SetByteSlice_spec b :
  len b <= 32 -> normal (SetByteSlice b) /\ fvalue (SetByteSlice b) = be_combine b.
Proof.
  intros Hb. unfold SetByteSlice. rewrite take_ge by (unfold len in Hb; lia).
  destruct (SetBytes_spec (repeat Byte.x00 (32 - length b) ++ b)) as [Hn Hv].
  { rewrite length_app, repeat_length. unfold len in Hb. lia. }
  split; [done|]. by rewrite Hv, be_combine_zeros.
Qed.

(** A word cut at the bits [i], [j] and [k]. *)
Lemma cut4 w i j k :
  0 <= w < 2 ^ 26 -> 0 <= i <= j -> j <= k -> k <= 26 ->
  w = w mod 2 ^ i + 2 ^ i * ((w / 2 ^ i) mod 2 ^ (j - i)) + 2 ^ j * ((w / 2 ^ j) mod 2 ^ (k - j)) + 2 ^ k * ((w / 2 ^ k) mod 2 ^ (26 - k)).
Proof.
  intros Hw Hij Hjk Hk. assert (0 <= j <= k /\ 0 <= k <= 26) as [Hj' Hk'] by lia.
  assert (2 ^ j = 2 ^ i * 2 ^ (j - i)) as Ej by (rewrite <- Z.pow_add_r by lia; f_equal; lia).
  assert (2 ^ k = 2 ^ j * 2 ^ (k - j)) as Ek by (rewrite <- Z.pow_add_r by lia; f_equal; lia).
  assert (forall a b, 0 <= a <= b -> w / 2 ^ a = 2 ^ (b - a) * (w / 2 ^ b) + (w / 2 ^ a) mod 2 ^ (b - a)) as Hs.
  { intros a b Hab. rewrite (Z.div_mod (w / 2 ^ a) (2 ^ (b - a))) at 1 by (apply Z.pow_nonzero; lia).
    rewrite Zdiv_Zdiv, <- Z.pow_add_r by (try apply Z.pow_nonneg; lia). by replace (a + (b - a)) with b by lia. }
  pose proof (Hs 0 i (conj (Z.le_refl 0) (proj1 Hij))) as H1. rewrite Z.pow_0_r, Z.div_1_r, Z.sub_0_r in H1.
  pose proof (Hs i j Hij) as H2. pose proof (Hs j k Hj') as H3.
  pose proof (Hs k 26 Hk') as H4. rewrite (Z.div_small w (2 ^ 26) Hw) in H4.
  clear Hs Hw. revert H1 H2 H3 H4. generalize (w mod 2 ^ i). generalize ((w / 2 ^ i) mod 2 ^ (j - i)).
  generalize ((w / 2 ^ j) mod 2 ^ (k - j)). generalize ((w / 2 ^ k) mod 2 ^ (26 - k)).
  generalize (w / 2 ^ i). generalize (w / 2 ^ j). generalize (w / 2 ^ k). intros q3 q2 q1 a3 a2 a1 a0 -> -> -> ->.
  rewrite Ek, Ej. ring.
Qed.

(** The four fields of a word as variables. *)
Lemma cut_word w i j k l :
  0 <= w < 2 ^ 26 -> j = i + 8 -> k = i + 16 -> l = 10 - i -> 0 <= i <= 10 ->
  exists a b c d, w mod 2 ^ i = a /\ (w / 2 ^ i) mod 2 ^ 8 = b /\ (w / 2 ^ j) mod 2 ^ 8 = c /\ (w / 2 ^ k) mod 2 ^ l = d /\
    w = a + 2 ^ i * b + 2 ^ j * c + 2 ^ k * d /\ 0 <= a < 2 ^ i /\ 0 <= b < 2 ^ 8 /\ 0 <= c < 2 ^ 8 /\ 0 <= d < 2 ^ l.
Proof.
  intros Hw -> -> -> Hi. pose proof (cut4 w i (i + 8) (i + 16) Hw ltac:(lia) ltac:(lia) ltac:(lia)) as E.
  replace (i + 8 - i) with 8 in E by lia. replace (i + 16 - (i + 8)) with 8 in E by lia. replace (26 - (i + 16)) with (10 - i) in E by lia.
  do 4 eexists. split_and!; try reflexivity; try exact E; apply Z.mod_pos_bound; try done; apply Z.pow_pos_nonneg; lia.
Qed.

Ltac cut w i j k l :=
  let a := fresh "p" in let b := fresh "p" in let c := fresh "p" in let d := fresh "p" in
  let Ea := fresh "Ea" in let Eb := fresh "Eb" in let Ec := fresh "Ec" in let Ed := fresh "Ed" in let Ew := fresh "Ew" in
  destruct (cut_word w i j k l) as (a & b & c & d & Ea & Eb & Ec & Ed & Ew & ? & ? & ? & ?); [done..|];
  rewrite ?Ea, ?Eb, ?Ec, ?Ed; clear Ea Eb Ec Ed.

(** A byte made of the high bits of one word and the low bits of the next. *)
Lemma mixed_byte x y k l :
  0 <= k -> 0 <= l -> k + l = 8 -> 0 <= x < 2 ^ k -> 0 <= y < 2 ^ l -> u8 (to_byte (x ||| shl32 y k)) = x + y * 2 ^ k.
Proof.
  intros Hk Hl Hkl Hx Hy. assert (2 ^ k * 2 ^ l = 256) as E by (rewrite <- Z.pow_add_r by lia; by rewrite Hkl).
  rewrite lor_shl by nia. apply u8_to_byte. nia.
Qed.

Lemma whole_byte x : 0 <= x < 2 ^ 8 -> u8 (to_byte x) = x.
Proof. apply u8_to_byte. Qed.

Lemma PutBytes_value f : normal f -> be_combine (PutBytes f) = fvalue f.
Proof.
  intros [Hd H9]. repeat match goal with H : Forall _ (_ :: _) |- _ => inversion H; clear H; subst end.
  unfold be_combine, PutBytes. cbn [rev app]. rewrite !le_combine_cons, le_combine_nil.
  rewrite !(land_low _ 8 eightBitsMask), !(land_low _ 2 twoBitsMask), !(land_low _ 4 fourBitsMask), !(land_low _ 6 sixBitsMask) by done.
  rewrite !Z.shiftr_div_pow2 by lia. destruct f as [a0 a1 a2 a3 a4 a5 a6 a7 a8 a9]. cbn [n0 n1 n2 n3 n4 n5 n6 n7 n8 n9] in *.
  unfold fvalue. cbn [n0 n1 n2 n3 n4 n5 n6 n7 n8 n9]. assert (0 <= a9 < 2 ^ 26) by lia.
  cut a0 8 16 24 2. cut a1 6 14 22 4. cut a2 4 12 20 6. cut a3 2 10 18 8. cut a4 8 16 24 2. cut a5 6 14 22 4. cut a6 4 12 20 6.
  cut a7 2 10 18 8. cut a8 8 16 24 2.
  destruct (cut_word a9 6 14 22 4) as (x & y & z & u & -> & -> & -> & _ & E9 & Hx & Hy & Hz & Hu); [done..|].
  assert (u = 0) as -> by (clear - E9 H9 Hx Hy Hz Hu; lia).
  rewrite !(mixed_byte _ _ 2 6), !(mixed_byte _ _ 4 4), !(mixed_byte _ _ 6 2) by (done || assumption).
  rewrite !whole_byte by assumption. subst. ring.
Qed.

Lemma fieldVal_Bytes_spec f : normal f -> fieldVal_Bytes f = be_split 32 (fvalue f).
Proof.
  intros Hn. unfold fieldVal_Bytes. rewrite <- (PutBytes_value f Hn).
  unfold be_split, be_combine. change 32%nat with (length (rev (PutBytes f))) at 1.
  by rewrite split_le_combine, rev_involutive.
Qed.

(** * The curve equation *)

Lemma curve_P_fieldP : curve_P = fieldP.
Proof. by vm_compute. Qed.

Lemma bigBytes_value x : 0 <= x < 2 ^ 256 -> be_combine (bigBytes x) = x /\ len (bigBytes x) <= 32.
Proof.
  intros Hx. destruct (decide (x = 0)) as [->|Hne]; [done|].
  destruct (bigBytes_spec x) as (b0 & l & -> & E & _ & Hr & _); [lia|]. split; [done|]. rewrite len_cons.
  pose proof (len_nonneg l). destruct (Z.le_gt_cases (len l) 31); [lia|]. exfalso.
  assert (256 ^ 32 <= 256 ^ len l) by (apply Z.pow_le_mono_r; lia). change (256 ^ 32) with (2 ^ 256) in *. lia.
Qed.

Lemma mul_mod_idemp a b a' b' :
  a mod fieldP = a' mod fieldP -> b mod fieldP = b' mod fieldP -> (a * b) mod fieldP = (a' * b') mod fieldP.
Proof. intros Ha Hb. rewrite Z.mul_mod, Ha, Hb, <- Z.mul_mod by done. done. Qed.

Lemma add_mod_idemp a b a' : a mod fieldP = a' mod fieldP -> (a + b) mod fieldP = (a' + b) mod fieldP.
Proof. intros Ha. rewrite Z.add_mod, Ha, <- Z.add_mod by done. done. Qed.

Lemma IsOnCurve_spec x y :
  0 <= x < 2 ^ 256 -> 0 <= y < 2 ^ 256 -> IsOnCurve x y = true <-> (y * y) mod curve_P = (x * x * x + 7) mod curve_P.
Proof.
  intros Hx Hy. unfold IsOnCurve, bigAffineToField.
  destruct (bigBytes_value x Hx) as [Ex Lx], (bigBytes_value y Hy) as [Ey Ly].
  destruct (SetByteSlice_spec _ Lx) as [Nx Vx], (SetByteSlice_spec _ Ly) as [Ny Vy]. rewrite Ex in Vx. rewrite Ey in Vy.
  apply normal_magnitude in Nx, Ny. apply (magnitude_mono 1 8) in Nx, Ny; [|lia..].
  destruct (SquareVal_spec _ Ny) as (M2 & _ & V2). destruct (SquareVal_spec _ Nx) as (M3 & _ & V3).
  destruct (Mul2_spec (SquareVal (SetByteSlice (bigBytes x))) (SetByteSlice (bigBytes x))) as (M4 & _ & V4);
    [by apply (magnitude_mono 1); [lia|]|done|].
  destruct (AddInt_spec 1 (Mul2 (SquareVal (SetByteSlice (bigBytes x))) (SetByteSlice (bigBytes x))) 7) as [M5 V5]; [done|lia|lia|].
  destruct (Normalize_spec (SquareVal (SetByteSlice (bigBytes y)))) as [N6 V6]; [by apply (magnitude_mono 1); [lia|]|].
  destruct (Normalize_spec (AddInt (Mul2 (SquareVal (SetByteSlice (bigBytes x))) (SetByteSlice (bigBytes x))) 7)) as [N7 V7];
    [by apply (magnitude_mono (1 + 1)); [lia|]|].
  unfold Mul. rewrite Equals_value by done. rewrite V6, V7, V2, V5, curve_P_fieldP, Vy.
  rewrite (add_mod_idemp _ 7 (x * x * x)); [done|]. rewrite V4, Vx. apply mul_mod_idemp; [|done]. by rewrite V3, Vx.
Qed.

(** * Inversion *)

(** [g] is the power [e] of the value [v]. *)
Definition power_of (v e : Z) (g : fieldVal) : Prop := 0 <= e /\ magnitude 8 g /\ fvalue g mod fieldP = v ^ e mod fieldP.

#[local] Opaque Mul2 SquareVal squares Z.pow.

Lemma power_product v d e g h m :
  power_of v d g -> power_of v e h -> magnitude 1 m -> fvalue m mod fieldP = (fvalue g * fvalue h) mod fieldP ->
  power_of v (d + e) m.
Proof.
  intros (Hd & _ & Vg) (He & _ & Vh) M V. split; [clear -Hd He; lia|].
  split; [exact (magnitude_mono 1 8 m ltac:(clear; lia) M)|].
  rewrite V, Z.pow_add_r by assumption. exact (mul_mod_idemp _ _ _ _ Vg Vh).
Qed.

Lemma power_mul v d e g h : power_of v d g -> power_of v e h -> power_of v (d + e) (Mul2 g h).
Proof.
  intros Hg Hh. destruct (Mul2_spec g h (proj1 (proj2 Hg)) (proj1 (proj2 Hh))) as (M & _ & V).
  exact (power_product v d e g h _ Hg Hh M V).
Qed.

Lemma power_square v e g : power_of v e g -> power_of v (e + e) (Square g).
Proof.
  intros Hg. destruct (SquareVal_spec g (proj1 (proj2 Hg))) as (M & _ & V). exact (power_product v e e g g _ Hg Hg M V).
Qed.

Lemma power_squares v e g k : power_of v e g -> power_of v (2 ^ Z.of_nat k * e) (squares k g).
Proof.
  intros Hp. induction k as [|k IH].
  - change (2 ^ Z.of_nat 0) with 1. rewrite Z.mul_1_l. exact Hp.
  - rewrite Nat2Z.inj_succ, Z.pow_succ_r by (clear; lia).
    replace (2 * 2 ^ Z.of_nat k * e) with (2 ^ Z.of_nat k * e + 2 ^ Z.of_nat k * e) by (clear; ring).
    exact (power_square _ _ _ IH).
Qed.

Lemma Inverse_power f : magnitude 8 f -> power_of (fvalue f) (fieldP - 2) (Inverse f).
Proof.
  intros Hf. assert (power_of (fvalue f) 1 f) as H1 by (split_and!; [lia|exact Hf|by rewrite Z.pow_1_r]).
  pose proof (power_mul _ _ _ _ _ (power_squares _ _ _ 1 H1) H1) as H2.
  pose proof (power_mul _ _ _ _ _ (power_squares _ _ _ 1 H2) H1) as H3.
  pose proof (power_mul _ _ _ _ _ (power_squares _ _ _ 2 (power_mul _ _ _ _ _ (power_squares _ _ _ 3
    (power_mul _ _ _ _ _ (power_squares _ _ _ 3 H3) H3)) H3)) H2) as H11.
  pose proof (power_mul _ _ _ _ _ (power_squares _ _ _ 11 H11) H11) as H22.
  pose proof (power_mul _ _ _ _ _ (power_squares _ _ _ 22 H22) H22) as H44.
  pose proof (power_mul _ _ _ _ _ (power_squares _ _ _ 44 H44) H44) as H88.
  pose proof (power_mul _ _ _ _ _ (power_squares _ _ _ 44 (power_mul _ _ _ _ _ (power_squares _ _ _ 88 H88) H88)) H44) as Ha.
  pose proof (power_mul _ _ _ _ _ (power_squares _ _ _ 23 (power_mul _ _ _ _ _ (power_squares _ _ _ 3 Ha) H3)) H22) as Hb.
  pose proof (power_mul _ _ _ _ _ (power_squares _ _ _ 3 (power_mul _ _ _ _ _ (power_squares _ _ _ 5 Hb) H1)) H2) as Hc.
  pose proof (power_mul _ _ _ _ _ (power_squares _ _ _ 2 Hc) H1) as Hd.
  clear -Hd. match type of Hd with power_of _ ?e _ => replace (fieldP - 2) with e by (vm_compute; reflexivity) end.
  exact Hd.
Qed.

#[local] Transparent Mul2 SquareVal squares Z.pow.

(** * The operations as arithmetic modulo the field prime *)

Lemma Normalize_small k f : 0 <= k <= 32 -> magnitude k f -> normal (Normalize f) /\ fvalue (Normalize f) = fvalue f mod fieldP.
Proof. intros Hk Hf. exact (Normalize_spec f (magnitude_mono k 32 f Hk Hf)). Qed.

(** Fermat's theorem for the exponent of [Inverse]. *)
Lemma power_inverse v : v ^ (fieldP - 2) * v mod fieldP = if v mod fieldP =? 0 then 0 else 1.
Proof.
  assert (v ^ (fieldP - 2) * v = v ^ (fieldP - 1)) as ->.
  { replace (fieldP - 1) with (fieldP - 2 + 1) by (clear; lia). rewrite (Z.pow_add_r v (fieldP - 2) 1) by (vm_compute; discriminate).
    by rewrite Z.pow_1_r. }
  destruct (Z.eqb_spec (v mod fieldP) 0) as [E|E].
  - rewrite <- Z.mod_pow_l, E. reflexivity.
  - apply Z.fermat_nz; [|exact E]. rewrite <- curve_P_fieldP. exact curve_P_prime.
Qed.

(** C24: field.go computes in the prime field of secp256k1.  On operands whose ten
    words are at most eight times their width (what the callers of field.go keep
    between normalizations), no 32 or 64 bit word overflows and the normalized
    result of [Mul2], [SquareVal], [Add2], [NegateVal] and [MulInt] is the product,
    square, sum, opposite and multiple modulo the field prime; [Inverse] of a
    nonzero residue is its multiplicative inverse (0 for 0); the bytes of a normalized value are its 32 byte big-endian
    representation, which [SetBytes] reads back; and [Equals] on normalized values
    compares residues. *)
Theorem field_arithmetic (a b : fieldVal) (i : Z) :
  magnitude 8 a -> magnitude 8 b -> 0 <= i <= 4 ->
  fvalue (Normalize a) = fvalue a mod fieldP /\
  fvalue (Normalize (Mul2 a b)) = (fvalue a * fvalue b) mod fieldP /\
  fvalue (Normalize (SquareVal a)) = (fvalue a * fvalue a) mod fieldP /\
  fvalue (Normalize (Add2 a b)) = (fvalue a + fvalue b) mod fieldP /\
  fvalue (Normalize (NegateVal a 8)) = (- fvalue a) mod fieldP /\
  fvalue (Normalize (MulInt a i)) = (fvalue a * i) mod fieldP /\
  (fvalue (Normalize (Inverse a)) * fvalue a) mod fieldP = (if fvalue a mod fieldP =? 0 then 0 else 1) /\
  fieldVal_Bytes (Normalize a) = be_split 32 (fvalue a mod fieldP) /\
  SetBytes (fieldVal_Bytes (Normalize a)) = Normalize a /\
  (Equals (Normalize a) (Normalize b) = true <-> fvalue a mod fieldP = fvalue b mod fieldP).
Proof.
  intros Ha Hb Hi.
  destruct (Normalize_small 8 a ltac:(clear; lia) Ha) as [Na Va]. destruct (Normalize_small 8 b ltac:(clear; lia) Hb) as [Nb Vb].
  split; [exact Va|].
  split. { destruct (Mul2_spec a b Ha Hb) as (M & _ & V). rewrite (proj2 (Normalize_small 1 _ ltac:(clear; lia) M)). exact V. }
  split. { destruct (SquareVal_spec a Ha) as (M & _ & V). rewrite (proj2 (Normalize_small 1 _ ltac:(clear; lia) M)). exact V. }
  split. { destruct (Add2_spec 8 8 a b Ha Hb) as (M & V); [clear; lia..|]. by rewrite (proj2 (Normalize_small 16 _ ltac:(clear; lia) M)), V. }
  split. { destruct (NegateVal_spec 8 a Ha) as (M & V); [clear; lia|]. rewrite (proj2 (Normalize_small 9 _ ltac:(clear; lia) M)), V.
    replace ((8 + 1) * fieldP - fvalue a) with (- fvalue a + 9 * fieldP) by (clear; ring). by apply Z.mod_add. }
  split. { destruct (MulInt_spec 8 a i Ha) as (M & V); [clear -Hi; lia..|].
    by rewrite (proj2 (Normalize_small (8 * i) _ ltac:(clear -Hi; lia) M)), V. }
  split. { destruct (Inverse_power a Ha) as (_ & M & V). rewrite (proj2 (Normalize_small 8 _ ltac:(clear; lia) M)), V.
    rewrite Z.mul_mod_idemp_l by (vm_compute; discriminate). apply power_inverse. }
  split; [by rewrite (fieldVal_Bytes_spec _ Na), Va|].
  split. { destruct (SetBytes_spec (fieldVal_Bytes (Normalize a)) eq_refl) as [N V]. apply (normal_inj _ _ N Na).
    rewrite V. exact (PutBytes_value _ Na). }
  rewrite (Equals_value _ _ Na Nb), Va, Vb. reflexivity.
Qed.

(** [field_arithmetic] on two words that need the reduction. *)
Lemma field_arithmetic_witness :
  let a := SetBytes (repeat Byte.xff 32) in
  fvalue (Normalize (Mul2 a a)) = 0x1000003d0 * 0x1000003d0 /\ fvalue (Normalize (Inverse a)) * 0x1000003d0 mod fieldP = 1.
Proof.
  assert (magnitude 8 (SetBytes (repeat Byte.xff 32))) as Ha
    by (apply (magnitude_mono 1); [lia|]; apply normal_magnitude, SetBytes_spec; reflexivity).
  pose proof (field_arithmetic _ _ 3 Ha Ha ltac:(lia)) as (_ & HM & _). cbv zeta. split; [rewrite HM; vm_compute; reflexivity|].
  vm_compute. reflexivity.
Defined.
