(* ===== verification/PubKey.v ===== *)
(** Public keys (btcec/pubkey.go): what [ParsePubKey] accepts, and its round trips
    with the three serializations. *)

From Stdlib Require Import Zmod.ZmodInv.
From S2P Require Import Prelude Sha Wire Field FieldProps Btcec BtcecProps Prime FieldOps.

(** A point of the curve, in affine coordinates below the field prime. *)
Definition on_curve (p : PublicKey) : Prop :=
  0 <= pk_X p < curve_P /\ 0 <= pk_Y p < curve_P /\ (pk_Y p * pk_Y p) mod curve_P = (pk_X p * pk_X p * pk_X p + 7) mod curve_P.

#[global] Instance on_curve_dec p : Decision (on_curve p).
Proof. unfold on_curve. apply _. Defined.

(** * Coordinates as 32 bytes *)

Lemma curve_P_bound : 0 < curve_P < 2 ^ 256.
Proof. by vm_compute. Qed.

Lemma be_split_combine b : be_split (length b) (be_combine b) = b.
Proof.
  unfold be_split, be_combine. rewrite <- (length_rev b), split_le_combine. apply rev_involutive.
Qed.

Lemma paddedAppend_split d x : 0 <= x < 2 ^ 256 -> paddedAppend 32 d (bigBytes x) = d ++ be_split 32 x.
Proof.
  intros Hx. destruct (bigBytes_value x Hx) as [E L]. unfold paddedAppend. f_equal.
  set (z := Z.to_nat (32 - len (bigBytes x))). rewrite <- (be_split_combine (repeat Byte.x00 z ++ bigBytes x)).
  rewrite be_combine_zeros, E, length_app, repeat_length. f_equal. unfold z, len in *. lia.
Qed.

Lemma be_combine_256 b : len b = 32 -> 0 <= be_combine b < 2 ^ 256.
Proof. intros L. pose proof (be_combine_range b) as H. rewrite L in H. exact H. Qed.

Lemma be_split_coordinate x : 0 <= x < 2 ^ 256 -> bigSetBytes (be_split 32 x) = x.
Proof. intros Hx. apply be_combine_split. exact Hx. Qed.

Lemma be_split_of b : len b = 32 -> b = be_split 32 (bigSetBytes b).
Proof.
  intros L. unfold bigSetBytes. assert (length b = 32%nat) as E by (unfold len in L; lia).
  rewrite <- E. symmetry. apply be_split_combine.
Qed.

(** * The first byte *)

Lemma ldiff_1 a : 0 <= a -> Z.ldiff a 1 = a - Z.b2z (Z.odd a).
Proof.
  intros Ha. change 1 with (Z.ones 1). rewrite Z.ldiff_ones_r by lia. rewrite Z.shiftr_div_pow2, Z.shiftl_mul_pow2 by lia.
  change (2 ^ 1) with 2. pose proof (Z.div_mod a 2 ltac:(lia)) as E. rewrite Zmod_odd in E. destruct (Z.odd a); cbn [Z.b2z]; lia.
Qed.

Lemma low_bit a : (a &&& 1 =? 1) = Z.odd a.
Proof. change 1 with (Z.ones 1) at 1. rewrite Z.land_ones by lia. change (2 ^ 1) with 2. rewrite Zmod_odd. by destruct (Z.odd a). Qed.

(** The first byte that says format [k] and parity [odd]. *)
Lemma format_byte b0 k odd : Z.ldiff (u8 b0) 1 = k -> Z.odd (u8 b0) = odd -> b0 = to_byte (k + Z.b2z odd).
Proof.
  intros Hk <-. pose proof (u8_range b0) as Hr. rewrite ldiff_1 in Hk by lia. rewrite <- Hk. replace (_ - _ + _) with (u8 b0) by lia.
  apply u8_inj. by rewrite u8_to_byte.
Qed.

(** * The checks on the point *)

(** What [ParsePubKey] does with the coordinates it has read. *)
Definition validated (p : PublicKey) : ec PublicKey :=
  if curve_P <=? pk_X p then mthrow () else
  if curve_P <=? pk_Y p then mthrow () else
  if negb (IsOnCurve (pk_X p) (pk_Y p)) then mthrow () else
  mret p.

Lemma validated_spec p :
  0 <= pk_X p < 2 ^ 256 -> 0 <= pk_Y p < 2 ^ 256 -> validated p = if decide (on_curve p) then Ret p else Throw ().
Proof.
  intros HX HY. unfold validated, on_curve. pose proof (IsOnCurve_spec _ _ HX HY) as Hc.
  destruct (Z.leb_spec curve_P (pk_X p)); [by rewrite decide_False by lia|].
  destruct (Z.leb_spec curve_P (pk_Y p)); [by rewrite decide_False by lia|].
  destruct (IsOnCurve _ _); cbn [negb].
  - rewrite decide_True; [done|]. split; [lia|]. split; [lia|]. by apply Hc.
  - rewrite decide_False; [done|]. intros (_ & _ & E). apply Hc in E. discriminate.
Qed.

Lemma parse_full b0 xb yb :
  len xb = 32 -> len yb = 32 ->
  ParsePubKey (b0 :: xb ++ yb) =
    let format := Z.ldiff (u8 b0) 1 in
    if negb (format =? 4) && negb (format =? 6) then Throw () else
    if (format =? 6) && negb (Bool.eqb (Z.odd (u8 b0)) (isOdd (bigSetBytes yb))) then Throw () else
    validated (mkPub (bigSetBytes xb) (bigSetBytes yb)).
Proof.
  intros Lx Ly. unfold ParsePubKey. rewrite low_bit.
  assert (len (b0 :: xb ++ yb) = 65) as L by (rewrite len_cons, len_app; lia). rewrite L. cbn [Z.eqb].
  change (65 =? PubKeyBytesLenUncompressed) with true. cbv iota zeta.
  change (b0 :: xb ++ yb) with ([b0] ++ xb ++ yb). rewrite (slice_seam [b0] xb yb) by (rewrite ?Lx; done).
  rewrite (app_assoc [b0]), (slice_from_app ([b0] ++ xb) yb) by (rewrite len_app, Lx; done).
  unfold pubkeyUncompressed, pubkeyHybrid. destruct (negb _ && negb _); [done|]. cbn [or_panic mbind outcome_bind].
  by destruct (_ && _).
Qed.

Lemma parse_compressed b0 xb :
  len xb = 32 ->
  ParsePubKey (b0 :: xb) =
    if negb (Z.ldiff (u8 b0) 1 =? 2) then Throw () else
    y ← decompressPoint (bigSetBytes xb) (Z.odd (u8 b0));
    validated (mkPub (bigSetBytes xb) y).
Proof.
  intros Lx. unfold ParsePubKey. rewrite low_bit.
  assert (len (b0 :: xb) = 33) as L by (rewrite len_cons; lia). rewrite L.
  change (33 =? PubKeyBytesLenUncompressed) with false. change (33 =? PubKeyBytesLenCompressed) with true. cbv iota zeta.
  change (b0 :: xb) with ([b0] ++ xb). rewrite <- (app_nil_r xb) at 1. rewrite (slice_seam [b0] xb []) by (rewrite ?Lx; done).
  unfold pubkeyCompressed. destruct (negb _); [done|]. cbn [or_panic mbind outcome_bind].
  by destruct (decompressPoint _ _).
Qed.

(** * Square roots *)

Lemma isOdd_odd a : isOdd a = Z.odd a.
Proof. unfold isOdd. apply Z.bit0_odd. Qed.

Lemma odd_opposite y : Z.odd (curve_P - y) = negb (Z.odd y).
Proof. rewrite Z.odd_sub. change (Z.odd curve_P) with true. by destruct (Z.odd y). Qed.

#[local] Opaque curve_P QPlus1Div4.

(** The power that [decompressPoint] takes of a square is a root of it. *)
Lemma bigExp_root y : 0 <= y < curve_P ->
  let r := bigExp (y * y mod curve_P) QPlus1Div4 curve_P in 0 <= r < curve_P /\ (r = y \/ r = curve_P - y).
Proof.
  intros Hy. pose proof curve_P_bound as HP. assert (0 <= QPlus1Div4 /\ 4 * QPlus1Div4 = curve_P + 1) as [Hq0 Hq] by (vm_compute; split; [discriminate|reflexivity]).
  cbv zeta. rewrite bigExp_spec by lia. rewrite Z.mod_pow_l. set (r := (y * y) ^ QPlus1Div4 mod curve_P).
  assert (0 <= r < curve_P) as Hr by (apply Z.mod_pos_bound; lia). split; [done|].
  assert ((r * r) mod curve_P = (y * y) mod curve_P) as E.
  { unfold r. rewrite <- Z.mul_mod by lia. rewrite <- Z.pow_add_r by lia. rewrite <- Z.pow_2_r, <- Z.pow_mul_r by lia.
    replace (2 * (QPlus1Div4 + QPlus1Div4)) with (curve_P + 1) by lia. rewrite Z.pow_add_r, Z.pow_1_r by lia.
    rewrite <- Z.mul_mod_idemp_l, (Z.fermat _ _ curve_P_prime), Z.mul_mod_idemp_l by lia. by rewrite Z.pow_2_r. }
  assert (curve_P | (r - y) * (r + y)) as Hd.
  { replace ((r - y) * (r + y)) with (r * r - y * y) by ring. apply Z.mod_divide; [lia|].
    rewrite Zminus_mod, E, Z.sub_diag. apply Z.mod_0_l. lia. }
  clearbody r. apply (Z.divide_prime_mul _ _ _ curve_P_prime) in Hd as [[k Hk]|[k Hk]].
  - assert (k = 0) by nia. left. lia.
  - assert (k = 0 \/ k = 1) as [-> | ->] by nia; [left|right]; lia.
Qed.

Lemma decompressPoint_complete p : on_curve p -> decompressPoint (pk_X p) (isOdd (pk_Y p)) = Ret (pk_Y p).
Proof.
  destruct p as [x y]. intros (Hx & Hy & E). cbn [pk_X pk_Y] in *. unfold decompressPoint. change curve_B with 7. rewrite <- E.
  destruct (bigExp_root y Hy) as [Hr Hroot]. set (r := bigExp _ _ _) in *. clearbody r. cbv zeta.
  assert ((if Bool.eqb (isOdd y) (isOdd r) then r else curve_P - r) = y) as ->.
  { rewrite !isOdd_odd. destruct Hroot as [-> | ->]; [by rewrite Bool.eqb_reflx|]. rewrite odd_opposite.
    destruct (Z.odd y); cbn [negb Bool.eqb]; lia. }
  by rewrite Z.eqb_refl, Bool.eqb_reflx.
Qed.

Lemma decompressPoint_sound x odd y : decompressPoint x odd = Ret y -> isOdd y = odd /\ 0 <= y < 2 ^ 256.
Proof.
  pose proof curve_P_bound as HP. unfold decompressPoint. change curve_B with 7.
  assert (0 <= QPlus1Div4) by (vm_compute; discriminate). rewrite bigExp_spec by lia. cbv zeta.
  set (r := _ ^ _ mod curve_P). assert (0 <= r < curve_P) as Hr by (apply Z.mod_pos_bound; lia). clearbody r.
  set (y' := if Bool.eqb odd (isOdd r) then r else curve_P - r). assert (0 <= y' <= curve_P) by (unfold y'; destruct (Bool.eqb _ _); lia).
  clearbody y'. destruct (negb (_ =? _)); [discriminate|]. destruct (Bool.eqb odd (isOdd y')) eqn:Eo; cbn [negb]; [|discriminate].
  intros [= <-]. apply Bool.eqb_prop in Eo. split; [done|lia].
Qed.

(** * Parsing and serialization *)

Lemma serialized p : on_curve p ->
  SerializeUncompressed p = to_byte 4 :: be_split 32 (pk_X p) ++ be_split 32 (pk_Y p) /\
  SerializeHybrid p = to_byte (6 + Z.b2z (Z.odd (pk_Y p))) :: be_split 32 (pk_X p) ++ be_split 32 (pk_Y p) /\
  SerializeCompressed p = to_byte (2 + Z.b2z (Z.odd (pk_Y p))) :: be_split 32 (pk_X p).
Proof.
  intros (Hx & Hy & _). pose proof curve_P_bound. unfold SerializeUncompressed, SerializeHybrid, SerializeCompressed.
  rewrite !paddedAppend_split, isOdd_odd by lia. by destruct (Z.odd (pk_Y p)).
Qed.

Lemma validated_Ret p q :
  0 <= pk_X p < 2 ^ 256 -> 0 <= pk_Y p < 2 ^ 256 -> validated p = Ret q -> q = p /\ on_curve p.
Proof.
  intros HX HY. rewrite validated_spec by done. destruct (decide _) as [Hc|_]; [|discriminate].
  intros E. injection E as <-. split; [reflexivity|exact Hc].
Qed.

Lemma validated_on_curve p : on_curve p -> validated p = Ret p.
Proof.
  intros Hc. pose proof curve_P_bound. rewrite validated_spec by (destruct Hc as (? & ? & _); lia). by rewrite decide_True.
Qed.

(** A key whose length [ParsePubKey] accepts, cut at the coordinates. *)
Lemma pubkey_shape b p : ParsePubKey b = Ret p ->
  (exists b0 xb, b = b0 :: xb /\ len xb = 32) \/ (exists b0 xb yb, b = b0 :: xb ++ yb /\ len xb = 32 /\ len yb = 32).
Proof.
  destruct b as [|b0 r]; [discriminate|]. intros Hp.
  destruct (decide (len r = 32)) as [L|L]; [left; by exists b0, r|].
  destruct (decide (len r = 64)) as [L'|L'].
  - right. exists b0, (take 32 r), (drop 32 r). rewrite take_drop. split; [done|].
    unfold len in *. rewrite length_take, length_drop. lia.
  - exfalso. unfold ParsePubKey in Hp. rewrite len_cons in Hp. unfold PubKeyBytesLenUncompressed, PubKeyBytesLenCompressed in Hp.
    rewrite (proj2 (Z.eqb_neq (1 + len r) 65)), (proj2 (Z.eqb_neq (1 + len r) 33)) in Hp by lia. discriminate.
Qed.

Lemma full_shape b0 xb yb p :
  len xb = 32 -> len yb = 32 -> ParsePubKey (b0 :: xb ++ yb) = Ret p ->
  on_curve p /\ xb = be_split 32 (pk_X p) /\ yb = be_split 32 (pk_Y p) /\
  (b0 = Byte.x04 \/ b0 = Byte.x05 \/ b0 = to_byte (6 + Z.b2z (Z.odd (pk_Y p)))).
Proof.
  intros Lx Ly. rewrite (parse_full b0 xb yb Lx Ly). cbv zeta.
  destruct (negb _ && negb _) eqn:Ef; [discriminate|].
  destruct ((_ =? 6) && negb _) eqn:Eh; [discriminate|]. intros Hv. apply validated_Ret in Hv as [-> Hc]; [|by apply be_combine_256..]. split; [done|]. cbn [pk_X pk_Y].
  split; [by apply be_split_of|]. split; [by apply be_split_of|]. rewrite (isOdd_odd (bigSetBytes yb)) in Eh.
  destruct (Z.eqb_spec (Z.ldiff (u8 b0) 1) 4) as [E4|_].
  - pose proof (format_byte b0 4 _ E4 eq_refl) as E4'. destruct (Z.odd (u8 b0)); [right; left|left]; exact E4'.
  - destruct (Z.eqb_spec (Z.ldiff (u8 b0) 1) 6) as [E6|_]; [|discriminate]. right. right. apply (format_byte _ _ _ E6).
    cbn [andb] in Eh. apply negb_false_iff in Eh. by apply Bool.eqb_prop in Eh.
Qed.

Lemma compressed_shape b0 xb p :
  len xb = 32 -> ParsePubKey (b0 :: xb) = Ret p ->
  on_curve p /\ xb = be_split 32 (pk_X p) /\ b0 = to_byte (2 + Z.b2z (Z.odd (pk_Y p))).
Proof.
  intros Lx. rewrite (parse_compressed b0 xb Lx). destruct (Z.eqb_spec (Z.ldiff (u8 b0) 1) 2) as [E|_]; cbn [negb]; [|discriminate].
  destruct (decompressPoint _ _) as [y| |] eqn:Ed; [|discriminate..]. apply decompressPoint_sound in Ed as [Eo Hy].
  intros Hv. cbn [mbind outcome_bind] in Hv. apply validated_Ret in Hv as [-> Hc]; [|by apply be_combine_256|done].
  split; [done|]. split; [by apply be_split_of|]. cbn [pk_Y]. apply (format_byte _ _ _ E). rewrite isOdd_odd in Eo. by rewrite Eo.
Qed.

Lemma parse_serialized_compressed p : on_curve p -> ParsePubKey (SerializeCompressed p) = Ret p.
Proof.
  intros Hc. pose proof curve_P_bound as HP. destruct (serialized p Hc) as (_ & _ & ->).
  assert (0 <= pk_X p < 2 ^ 256) as HX by (destruct Hc as (? & _ & _); lia).
  rewrite parse_compressed by (rewrite len_be_split; done). rewrite be_split_coordinate by done.
  pose proof (decompressPoint_complete p Hc) as Hd. rewrite isOdd_odd in Hd.
  replace (Z.odd (u8 (to_byte (2 + Z.b2z (Z.odd (pk_Y p)))))) with (Z.odd (pk_Y p)) by (by destruct (Z.odd (pk_Y p))). rewrite Hd.
  replace (Z.ldiff _ 1 =? 2) with true by (by destruct (Z.odd (pk_Y p))). cbn [negb mbind outcome_bind].
  replace (mkPub (pk_X p) (pk_Y p)) with p by (by destruct p). exact (validated_on_curve p Hc).
Qed.

(** The forms with both coordinates, for the four format bytes that are accepted. *)
Lemma parse_serialized_full p : on_curve p ->
  let body := be_split 32 (pk_X p) ++ be_split 32 (pk_Y p) in
  ParsePubKey (to_byte 4 :: body) = Ret p /\ ParsePubKey (Byte.x05 :: body) = Ret p /\
  ParsePubKey (to_byte (6 + Z.b2z (Z.odd (pk_Y p))) :: body) = Ret p.
Proof.
  intros Hc. pose proof curve_P_bound as HP. cbv zeta.
  assert (0 <= pk_X p < 2 ^ 256 /\ 0 <= pk_Y p < 2 ^ 256) as [HX HY] by (destruct Hc as (? & ? & _); lia).
  rewrite !parse_full by (rewrite len_be_split; done). rewrite !be_split_coordinate by done.
  rewrite (isOdd_odd (pk_Y p)).
  assert (mkPub (pk_X p) (pk_Y p) = p) as -> by (by destruct p).
  rewrite (validated_on_curve p Hc). split; [done|]. split; [done|by destruct (Z.odd (pk_Y p))].
Qed.

(** C28: exactly what [ParsePubKey] accepts.  It parses [b] to the point [p] if and only if
    both coordinates of [p] are below the field prime and satisfy the curve equation, and
    [b] is the compressed, the uncompressed or the hybrid serialization of [p], or the
    uncompressed one with 5 in place of the format byte 4, whose low bit the parser masks
    without looking at it.  Every other input is an error, never a panic. *)
Theorem ParsePubKey_exact (b : bytes) (p : PublicKey) :
  (ParsePubKey b = Ret p <->
   on_curve p /\
   (b = SerializeCompressed p \/ b = SerializeUncompressed p \/ b = SerializeHybrid p \/
    b = Byte.x05 :: tail (SerializeUncompressed p))) /\
  ParsePubKey b <> Panic.
Proof.
  split; [split|apply ParsePubKey_no_panic].
  - intros Hp. destruct (pubkey_shape b p Hp) as [(b0 & xb & -> & Lx)|(b0 & xb & yb & -> & Lx & Ly)].
    + destruct (compressed_shape b0 xb p Lx Hp) as (Hc & -> & ->). split; [done|]. left. symmetry. apply (serialized p Hc).
    + destruct (full_shape b0 xb yb p Lx Ly Hp) as (Hc & -> & -> & Hb). split; [done|]. right.
      destruct (serialized p Hc) as (-> & -> & _). destruct Hb as [-> |[-> | ->]]; [by left|by right; right|by right; left].
  - intros [Hc Hb]. destruct (parse_serialized_full p Hc) as (H4 & H5 & H6). pose proof (parse_serialized_compressed p Hc).
    destruct (serialized p Hc) as (Eu & Eh & _). rewrite Eu, Eh in Hb. by destruct Hb as [->|[->|[->| ->]]].
Qed.

(** C25: every point of the curve survives its three serializations: the
    uncompressed, the hybrid and the compressed bytes all parse back to it.  For the
    compressed form this says that the power [decompressPoint] computes is a square
    root for every point, and that the parity bit selects the right one. *)
Theorem pubkey_roundtrip (p : PublicKey) :
  on_curve p ->
  ParsePubKey (SerializeUncompressed p) = Ret p /\
  ParsePubKey (SerializeHybrid p) = Ret p /\
  ParsePubKey (SerializeCompressed p) = Ret p.
Proof.
  intros Hc. destruct (parse_serialized_full p Hc) as (H4 & _ & H6). pose proof (parse_serialized_compressed p Hc).
  by destruct (serialized p Hc) as (-> & -> & _).
Qed.

#[local] Transparent curve_P QPlus1Div4.

(** The generator of the group. *)
Definition generator : PublicKey :=
  mkPub 0x79be667ef9dcbbac55a06295ce870b07029bfcdb2dce28d959f2815b16f81798
        0x483ada7726a3c4655da4fbfc0e1108a8fd17b448a68554199c47d08ffb10d4b8.

Lemma generator_on_curve : on_curve generator.
Proof. unfold on_curve. split; [vm_compute; split; [discriminate|reflexivity]|]. split; [vm_compute; split; [discriminate|reflexivity]|]. vm_compute. reflexivity. Qed.

(** [pubkey_roundtrip] for the generator. *)
Lemma pubkey_roundtrip_witness : ParsePubKey (SerializeCompressed generator) = Ret generator.
Proof. exact (proj2 (proj2 (pubkey_roundtrip generator generator_on_curve))). Defined.
