(* ===== verification/SigCache.v ===== *)
(** The signature cache (src/txscript/sigcache.go): verified signatures keyed
    by the hash they sign, with an arbitrary entry evicted when the cache is
    full.  The mutex makes every method atomic, so the cache is a value that
    the methods update. *)

From S2P Require Import Prelude Sha Wire MsgTx MsgTxProps SigHash Field Btcec.
From stdpp Require Import gmap.
#[local] Open Scope Z_scope.
#[local] Open Scope list_scope.

Record sigCacheEntry : Type := mkEntry { sce_sig : Signature; sce_pubKey : PublicKey }.

(** [evictions] counts the entries evicted so far.  It is not in the code: it
    lets the order in which Go visits a map differ between two evictions. *)
Record SigCache : Type := mkCache
  { validSigs : gmap bytes sigCacheEntry; maxEntries : Z; evictions : nat }.

(** The first key that a [range] loop over the map visits, the [n]th time it is
    asked: the language only promises that it is a key of the map. *)
Class MapOrder : Type := {
  first_key : nat -> gmap bytes sigCacheEntry -> option bytes;
  first_key_in : forall n m, match first_key n m with Some k => is_Some (m !! k) | None => m = ∅ end
}.

Definition NewSigCache (maxEntries : Z) : SigCache := mkCache ∅ maxEntries 0.

Definition SigCache_Exists (sigHash : bytes) (sig : Signature) (pubKey : PublicKey) (s : SigCache) : bool :=
  match validSigs s !! sigHash with
  | Some entry => PublicKey_IsEqual (sce_pubKey entry) pubKey && Signature_IsEqual (sce_sig entry) sig
  | None => false
  end.

Definition SigCache_Add `{MapOrder} (sigHash : bytes) (sig : Signature) (pubKey : PublicKey)
    (s : SigCache) : SigCache :=
  if maxEntries s =? 0 then s else
  let s :=
    if maxEntries s <? uint64 (Z.of_nat (size (validSigs s)) + 1) then
      match first_key (evictions s) (validSigs s) with
      | Some k => mkCache (delete k (validSigs s)) (maxEntries s) (S (evictions s))
      | None => s
      end
    else s in
  mkCache (<[sigHash := mkEntry sig pubKey]> (validSigs s)) (maxEntries s) (evictions s).

(** * Histories *)

(** The entries that have been passed to [Add], latest first. *)
Fixpoint cache_of `{MapOrder} (max : Z) (adds : list (bytes * Signature * PublicKey)) : SigCache :=
  match adds with
  | [] => NewSigCache max
  | (h, sig, pk) :: adds' => SigCache_Add h sig pk (cache_of max adds')
  end.

Lemma Signature_IsEqual_eq a b : Signature_IsEqual a b = true <-> a = b.
Proof.
  unfold Signature_IsEqual. rewrite andb_true_iff, !Z.eqb_eq. destruct a, b; simpl.
  split; [by intros [-> ->]|by intros [= -> ->]].
Qed.

Lemma PublicKey_IsEqual_eq a b : PublicKey_IsEqual a b = true <-> a = b.
Proof.
  unfold PublicKey_IsEqual. rewrite andb_true_iff, !Z.eqb_eq. destruct a, b; simpl.
  split; [by intros [-> ->]|by intros [= -> ->]].
Qed.

Lemma SigCache_Exists_lookup h sig pk s :
  SigCache_Exists h sig pk s = true <-> validSigs s !! h = Some (mkEntry sig pk).
Proof.
  unfold SigCache_Exists. destruct (validSigs s !! h) as [[sig' pk']|]; [|done]. simpl.
  rewrite andb_true_iff, PublicKey_IsEqual_eq, Signature_IsEqual_eq.
  split; [by intros [-> ->]|by intros [= -> ->]].
Qed.

(** Every entry of a property that the added entry has too keeps it. *)
Definition entries_ok (Q : bytes -> Signature -> PublicKey -> Prop) (s : SigCache) : Prop :=
  forall h e, validSigs s !! h = Some e -> Q h (sce_sig e) (sce_pubKey e).

Section cache.
Context `{MapOrder}.

Lemma SigCache_Add_ok Q h sig pk s :
  entries_ok Q s -> Q h sig pk -> entries_ok Q (SigCache_Add h sig pk s).
Proof.
  unfold entries_ok, SigCache_Add. intros Hs Hq h' e. destruct (maxEntries s =? 0); [apply Hs|]. simpl.
  intros [[<- <-]|[Hne He]]%lookup_insert_Some; [done|]. apply Hs. revert He.
  destruct (maxEntries s <? _); [|done]. destruct (first_key _ _); [|done]. simpl.
  by intros [_ ?]%lookup_delete_Some.
Qed.

Lemma SigCache_Add_max h sig pk s : maxEntries (SigCache_Add h sig pk s) = maxEntries s.
Proof.
  unfold SigCache_Add. destruct (maxEntries s =? 0); [done|]. simpl.
  destruct (maxEntries s <? _); [|done]. by destruct (first_key _ _).
Qed.

Lemma SigCache_Add_size h sig pk s :
  0 <= maxEntries s < 2 ^ 63 -> Z.of_nat (size (validSigs s)) <= maxEntries s ->
  Z.of_nat (size (validSigs (SigCache_Add h sig pk s))) <= maxEntries s.
Proof.
  intros Hmax Hs. unfold SigCache_Add. destruct (Z.eqb_spec (maxEntries s) 0) as [|Hne]; [done|]. simpl.
  rewrite uwrap_small by lia.
  assert (forall m : gmap bytes sigCacheEntry, Z.of_nat (size m) + 1 <= maxEntries s ->
    Z.of_nat (size (<[h := mkEntry sig pk]> m)) <= maxEntries s) as Hins.
  { intros m Hm. rewrite map_size_insert. destruct (m !! h); simpl; lia. }
  destruct (Z.ltb_spec (maxEntries s) (Z.of_nat (size (validSigs s)) + 1)) as [Hfull|]; [|by apply Hins; simpl; lia].
  pose proof (first_key_in (evictions s) (validSigs s)) as Hk.
  destruct (first_key (evictions s) (validSigs s)) as [k|].
  - apply Hins. simpl. rewrite map_size_delete. destruct Hk as [e He]. rewrite He. simpl.
    assert (size (validSigs s) <> 0)%nat; [|lia].
    intros Hz%map_size_empty_iff. rewrite Hz in He. by rewrite lookup_empty in He.
  - apply Hins. simpl. rewrite Hk, map_size_empty. lia.
Qed.

Lemma SigCache_Add_Exists h sig pk s :
  maxEntries s <> 0 -> SigCache_Exists h sig pk (SigCache_Add h sig pk s) = true.
Proof.
  intros Hm. apply SigCache_Exists_lookup. unfold SigCache_Add.
  destruct (Z.eqb_spec (maxEntries s) 0); [done|]. apply lookup_insert_eq.
Qed.
End cache.

(** C33: whatever is added to a new cache and whichever entries are evicted, the
    cache never holds more than its maximum, it answers yes only for a
    signature that was added under the same hash and key, and the entry added
    last is found unless the maximum is zero. *)
Theorem sigcache_history `{MapOrder} (max : Z) (adds : list (bytes * Signature * PublicKey))
    (Hmax : 0 <= max < 2 ^ 63) :
  let s := cache_of max adds in
  Z.of_nat (size (validSigs s)) <= max /\
  (forall h sig pk, SigCache_Exists h sig pk s = true -> (h, sig, pk) ∈ adds) /\
  (max <> 0 -> forall h sig pk, head adds = Some (h, sig, pk) -> SigCache_Exists h sig pk s = true).
Proof.
  assert (forall l, maxEntries (cache_of max l) = max) as Em.
  { induction l as [|[[h sig] pk] l IH]; [done|]. simpl. by rewrite SigCache_Add_max. }
  intros s. subst s. split; [|split].
  - induction adds as [|[[h sig] pk] l IH]; simpl; [rewrite map_size_empty; lia|].
    pose proof (SigCache_Add_size h sig pk (cache_of max l)) as Hs. rewrite Em in Hs. auto.
  - assert (entries_ok (fun h sig pk => (h, sig, pk) ∈ adds) (cache_of max adds)) as Hok.
    { induction adds as [|[[h sig] pk] l IH]; [by intros h e|]. simpl. apply SigCache_Add_ok; [|left].
      intros h' e He. right. by apply IH. }
    intros h sig pk Hx%SigCache_Exists_lookup. by apply Hok in Hx.
  - intros Hne h sig pk Hh. destruct adds as [|[[h' sig'] pk'] l]; [done|]. simpl in Hh. simplify_eq.
    apply SigCache_Add_Exists. by rewrite Em.
Qed.

(** The least key first. *)
Definition map_to_list_order : MapOrder.
Proof.
  refine {| first_key := fun _ m => fst <$> head (map_to_list m) |}.
  intros _ m. destruct (map_to_list m) as [|[k e] l] eqn:E; simpl.
  - by apply map_to_list_empty_iff.
  - exists e. apply elem_of_map_to_list. rewrite E. left.
Defined.

Lemma sigcache_history_witness :
  Z.of_nat (size (validSigs (cache_of (H := map_to_list_order) 1 [([Byte.x02], mkSig 3 4, mkPub 5 6); ([Byte.x01], mkSig 1 2, mkPub 5 6)]))) <= 1.
Proof.
  apply (sigcache_history (H := map_to_list_order) 1 [([Byte.x02], mkSig 3 4, mkPub 5 6); ([Byte.x01], mkSig 1 2, mkPub 5 6)]). lia.
Defined.
