(* ===== verification/Engine.v ===== *)
(** The state of the script engine (src/txscript/engine.go): the Engine struct,
    the script flags, the small methods, and the checks of signature and public
    key encodings.  The opcode handlers are in Handlers.v, stepping and
    construction in Execute.v. *)

From S2P Require Import Prelude TxScriptErr Params ScriptNum Stack Opcode Sha Wire ParseScript MsgTx ScriptUtil.
From S2P Require Import SigHash Field Btcec SigCache.

(** * Flags *)

Definition ScriptBip16 : Z := 1 <<< 0.
Definition ScriptStrictMultiSig : Z := 1 <<< 1.
Definition ScriptDiscourageUpgradableNops : Z := 1 <<< 2.
Definition ScriptVerifyCheckLockTimeVerify : Z := 1 <<< 3.
Definition ScriptVerifyCheckSequenceVerify : Z := 1 <<< 4.
Definition ScriptVerifyCleanStack : Z := 1 <<< 5.
Definition ScriptVerifyDERSignatures : Z := 1 <<< 6.
Definition ScriptVerifyLowS : Z := 1 <<< 7.
Definition ScriptVerifyMinimalData : Z := 1 <<< 8.
Definition ScriptVerifyNullFail : Z := 1 <<< 9.
Definition ScriptVerifySigPushOnly : Z := 1 <<< 10.
Definition ScriptVerifyStrictEncoding : Z := 1 <<< 11.
Definition ScriptVerifyWitness : Z := 1 <<< 12.
Definition ScriptVerifyDiscourageUpgradeableWitnessProgram : Z := 1 <<< 13.
Definition ScriptVerifyMinimalIf : Z := 1 <<< 14.
Definition ScriptVerifyWitnessPubKeyType : Z := 1 <<< 15.

Definition halfOrder : Z := curve_N >>> 1.

(** * The engine *)

(** [nil] is [None] for the pointers and for the witness program. *)
Record Engine : Type := mkEngine {
  vm_scripts : list (list ParsedOpcode);
  vm_scriptIdx : Z;
  vm_scriptOff : Z;
  vm_lastCodeSep : Z;
  vm_dstack : stack;
  vm_astack : stack;
  vm_tx : MsgTx;
  vm_txIdx : Z;
  vm_condStack : list Z;
  vm_numOps : Z;
  vm_flags : Z;
  vm_sigCache : option SigCache;
  vm_hashCache : option TxSigHashes;
  vm_bip16 : bool;
  vm_savedFirstStack : list bytes;
  vm_witnessVersion : Z;
  vm_witnessProgram : option bytes;
  vm_inputAmount : Z
}.

Definition set_scripts (x : list (list ParsedOpcode)) (vm : Engine) : Engine :=
  mkEngine x (vm_scriptIdx vm) (vm_scriptOff vm) (vm_lastCodeSep vm) (vm_dstack vm) (vm_astack vm)
    (vm_tx vm) (vm_txIdx vm) (vm_condStack vm) (vm_numOps vm) (vm_flags vm) (vm_sigCache vm)
    (vm_hashCache vm) (vm_bip16 vm) (vm_savedFirstStack vm) (vm_witnessVersion vm)
    (vm_witnessProgram vm) (vm_inputAmount vm).
Definition set_scriptIdx (x : Z) (vm : Engine) : Engine :=
  mkEngine (vm_scripts vm) x (vm_scriptOff vm) (vm_lastCodeSep vm) (vm_dstack vm) (vm_astack vm) (vm_tx vm)
    (vm_txIdx vm) (vm_condStack vm) (vm_numOps vm) (vm_flags vm) (vm_sigCache vm) (vm_hashCache vm)
    (vm_bip16 vm) (vm_savedFirstStack vm) (vm_witnessVersion vm) (vm_witnessProgram vm)
    (vm_inputAmount vm).
Definition set_scriptOff (x : Z) (vm : Engine) : Engine :=
  mkEngine (vm_scripts vm) (vm_scriptIdx vm) x (vm_lastCodeSep vm) (vm_dstack vm) (vm_astack vm) (vm_tx vm)
    (vm_txIdx vm) (vm_condStack vm) (vm_numOps vm) (vm_flags vm) (vm_sigCache vm) (vm_hashCache vm)
    (vm_bip16 vm) (vm_savedFirstStack vm) (vm_witnessVersion vm) (vm_witnessProgram vm)
    (vm_inputAmount vm).
Definition set_lastCodeSep (x : Z) (vm : Engine) : Engine :=
  mkEngine (vm_scripts vm) (vm_scriptIdx vm) (vm_scriptOff vm) x (vm_dstack vm) (vm_astack vm) (vm_tx vm)
    (vm_txIdx vm) (vm_condStack vm) (vm_numOps vm) (vm_flags vm) (vm_sigCache vm) (vm_hashCache vm)
    (vm_bip16 vm) (vm_savedFirstStack vm) (vm_witnessVersion vm) (vm_witnessProgram vm)
    (vm_inputAmount vm).
Definition set_dstack (x : stack) (vm : Engine) : Engine :=
  mkEngine (vm_scripts vm) (vm_scriptIdx vm) (vm_scriptOff vm) (vm_lastCodeSep vm) x (vm_astack vm)
    (vm_tx vm) (vm_txIdx vm) (vm_condStack vm) (vm_numOps vm) (vm_flags vm) (vm_sigCache vm)
    (vm_hashCache vm) (vm_bip16 vm) (vm_savedFirstStack vm) (vm_witnessVersion vm)
    (vm_witnessProgram vm) (vm_inputAmount vm).
Definition set_astack (x : stack) (vm : Engine) : Engine :=
  mkEngine (vm_scripts vm) (vm_scriptIdx vm) (vm_scriptOff vm) (vm_lastCodeSep vm) (vm_dstack vm) x
    (vm_tx vm) (vm_txIdx vm) (vm_condStack vm) (vm_numOps vm) (vm_flags vm) (vm_sigCache vm)
    (vm_hashCache vm) (vm_bip16 vm) (vm_savedFirstStack vm) (vm_witnessVersion vm)
    (vm_witnessProgram vm) (vm_inputAmount vm).
Definition set_condStack (x : list Z) (vm : Engine) : Engine :=
  mkEngine (vm_scripts vm) (vm_scriptIdx vm) (vm_scriptOff vm) (vm_lastCodeSep vm) (vm_dstack vm)
    (vm_astack vm) (vm_tx vm) (vm_txIdx vm) x (vm_numOps vm) (vm_flags vm) (vm_sigCache vm)
    (vm_hashCache vm) (vm_bip16 vm) (vm_savedFirstStack vm) (vm_witnessVersion vm)
    (vm_witnessProgram vm) (vm_inputAmount vm).
Definition set_numOps (x : Z) (vm : Engine) : Engine :=
  mkEngine (vm_scripts vm) (vm_scriptIdx vm) (vm_scriptOff vm) (vm_lastCodeSep vm) (vm_dstack vm)
    (vm_astack vm) (vm_tx vm) (vm_txIdx vm) (vm_condStack vm) x (vm_flags vm) (vm_sigCache vm)
    (vm_hashCache vm) (vm_bip16 vm) (vm_savedFirstStack vm) (vm_witnessVersion vm)
    (vm_witnessProgram vm) (vm_inputAmount vm).
Definition set_sigCache (x : option SigCache) (vm : Engine) : Engine :=
  mkEngine (vm_scripts vm) (vm_scriptIdx vm) (vm_scriptOff vm) (vm_lastCodeSep vm) (vm_dstack vm)
    (vm_astack vm) (vm_tx vm) (vm_txIdx vm) (vm_condStack vm) (vm_numOps vm) (vm_flags vm) x
    (vm_hashCache vm) (vm_bip16 vm) (vm_savedFirstStack vm) (vm_witnessVersion vm)
    (vm_witnessProgram vm) (vm_inputAmount vm).
Definition set_savedFirstStack (x : list bytes) (vm : Engine) : Engine :=
  mkEngine (vm_scripts vm) (vm_scriptIdx vm) (vm_scriptOff vm) (vm_lastCodeSep vm) (vm_dstack vm)
    (vm_astack vm) (vm_tx vm) (vm_txIdx vm) (vm_condStack vm) (vm_numOps vm) (vm_flags vm)
    (vm_sigCache vm) (vm_hashCache vm) (vm_bip16 vm) x (vm_witnessVersion vm) (vm_witnessProgram vm)
    (vm_inputAmount vm).
Definition set_witnessProgram (x : option bytes) (vm : Engine) : Engine :=
  mkEngine (vm_scripts vm) (vm_scriptIdx vm) (vm_scriptOff vm) (vm_lastCodeSep vm) (vm_dstack vm)
    (vm_astack vm) (vm_tx vm) (vm_txIdx vm) (vm_condStack vm) (vm_numOps vm) (vm_flags vm)
    (vm_sigCache vm) (vm_hashCache vm) (vm_bip16 vm) (vm_savedFirstStack vm) (vm_witnessVersion vm)
    x (vm_inputAmount vm).

(** Methods of the engine; [dstack m] and [astack m] call a method of a stack. *)
Abbreviation EM := (St scripterr Engine).
Definition dstack {A} (m : SM A) : EM A := on_field vm_dstack set_dstack m.
Definition astack {A} (m : SM A) : EM A := on_field vm_astack set_astack m.

Definition OpCondFalse : Z := 0.
Definition OpCondTrue : Z := 1.
Definition OpCondSkip : Z := 2.

Definition hasFlag (vm : Engine) (flag : Z) : bool := vm_flags vm &&& flag =? flag.

Definition isBranchExecuting (vm : Engine) : bool :=
  if len (vm_condStack vm) =? 0 then true else
  match index (vm_condStack vm) (len (vm_condStack vm) - 1) with
  | Some c => c =? OpCondTrue
  | None => false
  end.

Definition validPC (vm : Engine) : outcome scripterr () :=
  if len (vm_scripts vm) <=? vm_scriptIdx vm then mthrow ErrInvalidProgramCounter else
  script ← or_panic (index (vm_scripts vm) (vm_scriptIdx vm));
  if len script <=? vm_scriptOff vm then mthrow ErrInvalidProgramCounter else
  mret ().

Definition curPC (vm : Engine) : outcome scripterr (Z * Z) :=
  validPC vm;; mret (vm_scriptIdx vm, vm_scriptOff vm).

Definition isWitnessVersionActive (vm : Engine) (version : Z) : bool :=
  match vm_witnessProgram vm with
  | Some _ => uint64 (vm_witnessVersion vm) =? version
  | None => false
  end.

Definition subScript (vm : Engine) : outcome scripterr (list ParsedOpcode) :=
  script ← or_panic (index (vm_scripts vm) (vm_scriptIdx vm));
  or_panic (slice_from script (vm_lastCodeSep vm)).

(** * Contents of a stack *)

(** The errors of [PeekByteArray] are dropped and leave [nil] in the array. *)
Definition getStack (s : stack) : list bytes :=
  rev (map (fun i => match fst (PeekByteArray (int32 (Z.of_nat i)) s) with Ret so => so | _ => [] end)
           (seq 0 (Z.to_nat (Depth s)))).

Fixpoint push_all (data : list bytes) : SM () :=
  match data with
  | [] => mret ()
  | so :: data' => PushByteArray so;; push_all data'
  end.

Definition setStack (data : list bytes) : SM () :=
  depth ← gets Depth;
  ignore_err (DropN depth);;
  push_all data.

Definition GetStack (vm : Engine) : list bytes := getStack (vm_dstack vm).
Definition SetStack (data : list bytes) : EM () := dstack (setStack data).

(** * Encoding checks *)

Definition checkHashTypeEncoding (vm : Engine) (hashType : Z) : outcome scripterr () :=
  if negb (hasFlag vm ScriptVerifyStrictEncoding) then mret () else
  let sigHashType := hashType &&& Z.lnot SigHashAnyOneCanPay in
  if (sigHashType <? SigHashAll) || (SigHashSingle <? sigHashType) then mthrow ErrInvalidSigHashType else
  mret ().

Definition checkPubKeyEncoding (vm : Engine) (pubKey : bytes) : outcome scripterr () :=
  if hasFlag vm ScriptVerifyWitnessPubKeyType && isWitnessVersionActive vm 0 &&
     negb (IsCompressedPubKey pubKey) then mthrow ErrWitnessPubKeyType else
  if negb (hasFlag vm ScriptVerifyStrictEncoding) then mret () else
  let pk0 := data0 pubKey in
  if (len pubKey =? 33) && ((pk0 =? 0x02) || (pk0 =? 0x03)) then mret () else
  if (len pubKey =? 65) && (pk0 =? 0x04) then mret () else
  mthrow ErrPubKeyType.

Definition asn1SequenceID : Z := 0x30.
Definition asn1IntegerID : Z := 0x02.
Definition minSigLen : Z := 8.
Definition maxSigLen : Z := 72.

(** [sig[i]]. *)
Definition at_ (sig : bytes) (i : Z) : outcome scripterr Z := b ← or_panic (index sig i); mret (u8 b).

(** The checks that the code makes for R and repeats for S: the type at [typeOff],
    then length, sign and padding of the integer at [off]. *)
Definition check_asn1_int (sig : bytes) (typeOff off intLen : Z)
    (eType eZero eNeg ePad : scripterr) : outcome scripterr () :=
  ty ← at_ sig typeOff;
  if negb (ty =? asn1IntegerID) then mthrow eType else
  if intLen =? 0 then mthrow eZero else
  b0 ← at_ sig off;
  if negb (b0 &&& 0x80 =? 0) then mthrow eNeg else
  if (1 <? intLen) && (b0 =? 0x00) then
    b1 ← at_ sig (off + 1);
    if b1 &&& 0x80 =? 0 then mthrow ePad else mret ()
  else mret ().

Definition checkSignatureEncoding (vm : Engine) (sig : bytes) : outcome scripterr () :=
  if negb (hasFlag vm ScriptVerifyDERSignatures) && negb (hasFlag vm ScriptVerifyLowS) &&
     negb (hasFlag vm ScriptVerifyStrictEncoding) then mret () else
  let sigLen := len sig in
  if sigLen <? minSigLen then mthrow ErrSigTooShort else
  if maxSigLen <? sigLen then mthrow ErrSigTooLong else
  seqID ← at_ sig 0;
  if negb (seqID =? asn1SequenceID) then mthrow ErrSigInvalidSeqID else
  dataLen ← at_ sig 1;
  if negb (dataLen =? sigLen - 2) then mthrow ErrSigInvalidDataLen else
  rLen ← at_ sig 3;
  let sTypeOffset := 4 + rLen in
  let sLenOffset := sTypeOffset + 1 in
  if sigLen <=? sTypeOffset then mthrow ErrSigMissingSTypeID else
  if sigLen <=? sLenOffset then mthrow ErrSigMissingSLen else
  let sOffset := sLenOffset + 1 in
  sLen ← at_ sig sLenOffset;
  if negb (sOffset + sLen =? sigLen) then mthrow ErrSigInvalidSLen else
  check_asn1_int sig 2 4 rLen ErrSigInvalidRIntID ErrSigZeroRLen ErrSigNegativeR ErrSigTooMuchRPadding;;
  check_asn1_int sig sTypeOffset sOffset sLen ErrSigInvalidSIntID ErrSigZeroSLen ErrSigNegativeS
    ErrSigTooMuchSPadding;;
  if hasFlag vm ScriptVerifyLowS then
    sb ← or_panic (slice sig sOffset (sOffset + sLen));
    if halfOrder <? bigSetBytes sb then mthrow ErrSigHighS else mret ()
  else mret ().
