(* ===== verification/Handlers.v ===== *)
(** The opcode handlers of src/txscript/opcode.go and their dispatch.  The
    messages of errors are dropped, their codes are kept. *)

From S2P Require Import Prelude TxScriptErr Params ScriptNum Stack Opcode Sha Wire ParseScript MsgTx ScriptUtil.
From S2P Require Import SigHash Field Btcec SigCache Engine.

Section handlers.
Context `{Crypto} `{MapOrder}.

(** A script number from a Go comparison. *)
Definition of_test (b : bool) : Z := if b then 1 else 0.

(** * Constants, pushes and no-ops *)

Definition opcodeDisabled (op : ParsedOpcode) : EM () := mthrow ErrDisabledOpcode.
Definition opcodeReserved (op : ParsedOpcode) : EM () := mthrow ErrReservedOpcode.
Definition opcodeInvalid (op : ParsedOpcode) : EM () := mthrow ErrReservedOpcode.
Definition opcodeFalse (op : ParsedOpcode) : EM () := dstack (PushByteArray []).
Definition opcodePushData (op : ParsedOpcode) : EM () := dstack (PushByteArray (Data op)).
Definition opcode1Negate (op : ParsedOpcode) : EM () := dstack (PushInt (-1)).
Definition opcodeN (op : ParsedOpcode) : EM () :=
  dstack (PushInt (uwrap 8 (u8 (Value (Opc op)) - (u8 OP_1 - 1)))).

Definition opcodeNop (op : ParsedOpcode) : EM () :=
  match Value (Opc op) with
  | OP_NOP1 | OP_NOP4 | OP_NOP5 | OP_NOP6 | OP_NOP7 | OP_NOP8 | OP_NOP9 | OP_NOP10 =>
    vm ← gets id;
    if hasFlag vm ScriptDiscourageUpgradableNops then mthrow ErrDiscourageUpgradableNOPs else mret ()
  | _ => mret ()
  end.

(** * Conditionals *)

Definition popIfBool : EM bool :=
  vm ← gets id;
  if negb (isWitnessVersionActive vm 0) || negb (hasFlag vm ScriptVerifyMinimalIf) then dstack PopBool else
  so ← dstack PopByteArray;
  if 1 <? len so then mthrow ErrMinimalIf else
  if (len so =? 1) && negb (data0 so =? 0x01) then mthrow ErrMinimalIf else
  mret (asBool so).

Definition push_cond (c : Z) : EM () := modify (fun vm => set_condStack (vm_condStack vm ++ [c]) vm).

Definition opcodeIf (op : ParsedOpcode) : EM () :=
  vm ← gets id;
  condVal ← (if isBranchExecuting vm then
               ok ← popIfBool; mret (if ok : bool then OpCondTrue else OpCondFalse)
             else mret OpCondSkip);
  push_cond condVal.

Definition opcodeNotIf (op : ParsedOpcode) : EM () :=
  vm ← gets id;
  condVal ← (if isBranchExecuting vm then
               ok ← popIfBool; mret (if negb ok then OpCondTrue else OpCondFalse)
             else mret OpCondSkip);
  push_cond condVal.

Definition opcodeElse (op : ParsedOpcode) : EM () :=
  vm ← gets id;
  if len (vm_condStack vm) =? 0 then mthrow ErrUnbalancedConditional else
  let conditionalIdx := len (vm_condStack vm) - 1 in
  c ← lift (or_panic (index (vm_condStack vm) conditionalIdx));
  if c =? OpCondTrue then modify (set_condStack (<[Z.to_nat conditionalIdx := OpCondFalse]> (vm_condStack vm)))
  else if c =? OpCondFalse then
    modify (set_condStack (<[Z.to_nat conditionalIdx := OpCondTrue]> (vm_condStack vm)))
  else mret ().

Definition opcodeEndif (op : ParsedOpcode) : EM () :=
  vm ← gets id;
  if len (vm_condStack vm) =? 0 then mthrow ErrUnbalancedConditional else
  l ← lift (or_panic (slice_to (vm_condStack vm) (len (vm_condStack vm) - 1)));
  modify (set_condStack l).

Definition abstractVerify (op : ParsedOpcode) (c : scripterr) : EM () :=
  verified ← dstack PopBool;
  if negb verified then mthrow c else mret ().

Definition opcodeVerify (op : ParsedOpcode) : EM () := abstractVerify op ErrVerify.
Definition opcodeReturn (op : ParsedOpcode) : EM () := mthrow ErrEarlyReturn.

(** * Lock times *)

Definition verifyLockTime (txLockTime threshold lockTime : Z) : outcome scripterr () :=
  if negb ((txLockTime <? threshold) && (lockTime <? threshold) ||
           (threshold <=? txLockTime) && (threshold <=? lockTime)) then mthrow ErrUnsatisfiedLockTime else
  if txLockTime <? lockTime then mthrow ErrUnsatisfiedLockTime else
  mret ().

(** The lock-time operand: up to five bytes, left on the stack. *)
Definition peek_locktime : EM Z :=
  so ← dstack (PeekByteArray 0);
  vm ← gets id;
  lockTime ← lift (MakeScriptNum so (verifyMinimalData (vm_dstack vm)) 5);
  if lockTime <? 0 then mthrow ErrNegativeLockTime else mret lockTime.

Definition opcodeCheckLockTimeVerify (op : ParsedOpcode) : EM () :=
  vm ← gets id;
  if negb (hasFlag vm ScriptVerifyCheckLockTimeVerify) then
    if hasFlag vm ScriptDiscourageUpgradableNops then mthrow ErrDiscourageUpgradableNOPs else mret ()
  else
  lockTime ← peek_locktime;
  lift (verifyLockTime (tx_LockTime (vm_tx vm)) LockTimeThreshold lockTime);;
  ti ← lift (or_panic (index (tx_TxIn (vm_tx vm)) (vm_txIdx vm)));
  if ti_Sequence ti =? MaxTxInSequenceNum then mthrow ErrUnsatisfiedLockTime else mret ().

Definition opcodeCheckSequenceVerify (op : ParsedOpcode) : EM () :=
  vm ← gets id;
  if negb (hasFlag vm ScriptVerifyCheckSequenceVerify) then
    if hasFlag vm ScriptDiscourageUpgradableNops then mthrow ErrDiscourageUpgradableNOPs else mret ()
  else
  sequence ← peek_locktime;
  if negb (sequence &&& SequenceLockTimeDisabled =? 0) then mret () else
  if tx_Version (vm_tx vm) <? 2 then mthrow ErrUnsatisfiedLockTime else
  ti ← lift (or_panic (index (tx_TxIn (vm_tx vm)) (vm_txIdx vm)));
  let txSequence := ti_Sequence ti in
  if negb (txSequence &&& SequenceLockTimeDisabled =? 0) then mthrow ErrUnsatisfiedLockTime else
  let lockTimeMask := SequenceLockTimeIsSeconds ||| SequenceLockTimeMask in
  lift (verifyLockTime (txSequence &&& lockTimeMask) SequenceLockTimeIsSeconds (sequence &&& lockTimeMask)).

(** * Stack manipulation *)

Definition opcodeToAltStack (op : ParsedOpcode) : EM () :=
  so ← dstack PopByteArray;
  astack (PushByteArray so).
Definition opcodeFromAltStack (op : ParsedOpcode) : EM () :=
  so ← astack PopByteArray;
  dstack (PushByteArray so).

Definition opcode2Drop (op : ParsedOpcode) : EM () := dstack (DropN 2).
Definition opcode2Dup (op : ParsedOpcode) : EM () := dstack (DupN 2).
Definition opcode3Dup (op : ParsedOpcode) : EM () := dstack (DupN 3).
Definition opcode2Over (op : ParsedOpcode) : EM () := dstack (OverN 2).
Definition opcode2Rot (op : ParsedOpcode) : EM () := dstack (RotN 2).
Definition opcode2Swap (op : ParsedOpcode) : EM () := dstack (SwapN 2).

Definition opcodeIfDup (op : ParsedOpcode) : EM () :=
  so ← dstack (PeekByteArray 0);
  if asBool so then dstack (PushByteArray so) else mret ().

Definition opcodeDepth (op : ParsedOpcode) : EM () :=
  vm ← gets id;
  dstack (PushInt (Depth (vm_dstack vm))).

Definition opcodeDrop (op : ParsedOpcode) : EM () := dstack (DropN 1).
Definition opcodeDup (op : ParsedOpcode) : EM () := dstack (DupN 1).
Definition opcodeNip (op : ParsedOpcode) : EM () := dstack (NipN 1).
Definition opcodeOver (op : ParsedOpcode) : EM () := dstack (OverN 1).

Definition opcodePick (op : ParsedOpcode) : EM () :=
  val ← dstack PopInt;
  dstack (PickN (Int32 val)).
Definition opcodeRoll (op : ParsedOpcode) : EM () :=
  val ← dstack PopInt;
  dstack (RollN (Int32 val)).

Definition opcodeRot (op : ParsedOpcode) : EM () := dstack (RotN 1).
Definition opcodeSwap (op : ParsedOpcode) : EM () := dstack (SwapN 1).
Definition opcodeTuck (op : ParsedOpcode) : EM () := dstack (Tuck).

Definition opcodeSize (op : ParsedOpcode) : EM () :=
  so ← dstack (PeekByteArray 0);
  dstack (PushInt (len so)).

Definition opcodeEqual (op : ParsedOpcode) : EM () :=
  a ← dstack PopByteArray;
  b ← dstack PopByteArray;
  dstack (PushBool (bytes_eqb a b)).
Definition opcodeEqualVerify (op : ParsedOpcode) : EM () := opcodeEqual op;; abstractVerify op ErrEqualVerify.

(** * Arithmetic on script numbers, in [int64] *)

Definition opcode1Add (op : ParsedOpcode) : EM () :=
  m ← dstack PopInt;
  dstack (PushInt (int64 (m + 1))).
Definition opcode1Sub (op : ParsedOpcode) : EM () :=
  m ← dstack PopInt;
  dstack (PushInt (int64 (m - 1))).
Definition opcodeNegate (op : ParsedOpcode) : EM () :=
  m ← dstack PopInt;
  dstack (PushInt (int64 (- m))).
Definition opcodeAbs (op : ParsedOpcode) : EM () :=
  m ← dstack PopInt;
  dstack (PushInt (if m <? 0 then int64 (- m) else m)).
Definition opcodeNot (op : ParsedOpcode) : EM () :=
  m ← dstack PopInt;
  dstack (PushInt (of_test (m =? 0))).
Definition opcode0NotEqual (op : ParsedOpcode) : EM () :=
  m ← dstack PopInt;
  dstack (PushInt (if negb (m =? 0) then 1 else m)).

Definition opcodeAdd (op : ParsedOpcode) : EM () :=
  v0 ← dstack PopInt;
  v1 ← dstack PopInt;
  dstack (PushInt (int64 (v0 + v1))).
Definition opcodeSub (op : ParsedOpcode) : EM () :=
  v0 ← dstack PopInt;
  v1 ← dstack PopInt;
  dstack (PushInt (int64 (v1 - v0))).
Definition opcodeBoolAnd (op : ParsedOpcode) : EM () :=
  v0 ← dstack PopInt;
  v1 ← dstack PopInt;
  dstack (PushInt (of_test (negb (v0 =? 0) && negb (v1 =? 0)))).
Definition opcodeBoolOr (op : ParsedOpcode) : EM () :=
  v0 ← dstack PopInt;
  v1 ← dstack PopInt;
  dstack (PushInt (of_test (negb (v0 =? 0) || negb (v1 =? 0)))).
Definition opcodeNumEqual (op : ParsedOpcode) : EM () :=
  v0 ← dstack PopInt;
  v1 ← dstack PopInt;
  dstack (PushInt (of_test (v0 =? v1))).
Definition opcodeNumEqualVerify (op : ParsedOpcode) : EM () := opcodeNumEqual op;; abstractVerify op ErrNumEqualVerify.
Definition opcodeNumNotEqual (op : ParsedOpcode) : EM () :=
  v0 ← dstack PopInt;
  v1 ← dstack PopInt;
  dstack (PushInt (of_test (negb (v0 =? v1)))).
Definition opcodeLessThan (op : ParsedOpcode) : EM () :=
  v0 ← dstack PopInt;
  v1 ← dstack PopInt;
  dstack (PushInt (of_test (v1 <? v0))).
Definition opcodeGreaterThan (op : ParsedOpcode) : EM () :=
  v0 ← dstack PopInt;
  v1 ← dstack PopInt;
  dstack (PushInt (of_test (v1 >? v0))).
Definition opcodeLessThanOrEqual (op : ParsedOpcode) : EM () :=
  v0 ← dstack PopInt;
  v1 ← dstack PopInt;
  dstack (PushInt (of_test (v1 <=? v0))).
Definition opcodeGreaterThanOrEqual (op : ParsedOpcode) : EM () :=
  v0 ← dstack PopInt;
  v1 ← dstack PopInt;
  dstack (PushInt (of_test (v1 >=? v0))).
Definition opcodeMin (op : ParsedOpcode) : EM () :=
  v0 ← dstack PopInt;
  v1 ← dstack PopInt;
  dstack (PushInt (if v1 <? v0 then v1 else v0)).
Definition opcodeMax (op : ParsedOpcode) : EM () :=
  v0 ← dstack PopInt;
  v1 ← dstack PopInt;
  dstack (PushInt (if v1 >? v0 then v1 else v0)).

Definition opcodeWithin (op : ParsedOpcode) : EM () :=
  maxVal ← dstack PopInt;
  minVal ← dstack PopInt;
  x ← dstack PopInt;
  dstack (PushInt (of_test ((x >=? minVal) && (x <? maxVal)))).

(** * Hashes *)

Definition opcodeRipemd160 (op : ParsedOpcode) : EM () :=
  buf ← dstack PopByteArray;
  dstack (PushByteArray (Ripemd160 buf)).
Definition opcodeSha1 (op : ParsedOpcode) : EM () :=
  buf ← dstack PopByteArray;
  dstack (PushByteArray (sha1 buf)).
Definition opcodeSha256 (op : ParsedOpcode) : EM () :=
  buf ← dstack PopByteArray;
  dstack (PushByteArray (sha256 buf)).
Definition opcodeHash160 (op : ParsedOpcode) : EM () :=
  buf ← dstack PopByteArray;
  dstack (PushByteArray (Hash160 buf)).
Definition opcodeHash256 (op : ParsedOpcode) : EM () :=
  buf ← dstack PopByteArray;
  dstack (PushByteArray (DoubleHashB buf)).

Definition opcodeCodeSeparator (op : ParsedOpcode) : EM () :=
  modify (fun vm => set_lastCodeSep (vm_scriptOff vm) vm).

(** * Signatures *)

(** The hash that is signed: BIP0143 in a version-0 witness, else the original. *)
Definition sig_hash (script : list ParsedOpcode) (hashType : Z) (vm : Engine) : outcome scripterr bytes :=
  if isWitnessVersionActive vm 0 then
    let sigHashes := match vm_hashCache vm with Some h => h | None => NewTxSigHashes (vm_tx vm) end in
    calcWitnessSignatureHash script (Some sigHashes) hashType (vm_tx vm) (vm_txIdx vm) (vm_inputAmount vm)
  else calcSignatureHash script hashType (vm_tx vm) (vm_txIdx vm).

(** BER or DER, depending on the flags; [None] is a parse error. *)
Definition parse_signature (vm : Engine) (sigBytes : bytes) : outcome scripterr (option Signature) :=
  match (if hasFlag vm ScriptVerifyStrictEncoding || hasFlag vm ScriptVerifyDERSignatures
         then ParseDERSignature sigBytes else ParseSignature sigBytes) with
  | Ret sig => Ret (Some sig)
  | Throw _ => Ret None
  | Panic => Panic
  end.

Definition parse_pubkey (pkBytes : bytes) : outcome scripterr (option PublicKey) :=
  match ParsePubKey pkBytes with
  | Ret pk => Ret (Some pk)
  | Throw _ => Ret None
  | Panic => Panic
  end.

(** [copy(sigHash[:], hash)] into a [32]byte. *)
Definition to_hash (hash : bytes) : bytes := take 32 (hash ++ repeat (to_byte 0) 32).

(** Verification through the cache, when there is one. *)
Definition verify_cached (hash : bytes) (signature : Signature) (pubKey : PublicKey) : EM bool :=
  vm ← gets id;
  match vm_sigCache vm with
  | Some cache =>
    let sigHash := to_hash hash in
    if SigCache_Exists sigHash signature pubKey cache then mret true
    else if Verify signature hash pubKey then
      modify (set_sigCache (Some (SigCache_Add sigHash signature pubKey cache)));; mret true
    else mret false
  | None => mret (Verify signature hash pubKey)
  end.

Definition opcodeCheckSig (op : ParsedOpcode) : EM () :=
  pkBytes ← dstack PopByteArray;
  fullSigBytes ← dstack PopByteArray;
  if len fullSigBytes <? 1 then dstack (PushBool false) else
  ht ← lift (or_panic (index fullSigBytes (len fullSigBytes - 1)));
  let hashType := u8 ht in
  sigBytes ← lift (or_panic (slice_to fullSigBytes (len fullSigBytes - 1)));
  vm ← gets id;
  lift (checkHashTypeEncoding vm hashType);;
  lift (checkSignatureEncoding vm sigBytes);;
  lift (checkPubKeyEncoding vm pkBytes);;
  script ← lift (subScript vm);
  let script := if isWitnessVersionActive vm 0 then script else removeOpcodeByData script fullSigBytes in
  hash ← lift (sig_hash script hashType vm);
  pk ← lift (parse_pubkey pkBytes);
  match pk with
  | None => dstack (PushBool false)
  | Some pubKey =>
    sg ← lift (parse_signature vm sigBytes);
    match sg with
    | None => dstack (PushBool false)
    | Some signature =>
      valid ← verify_cached hash signature pubKey;
      if negb valid && hasFlag vm ScriptVerifyNullFail && (0 <? len sigBytes) then mthrow ErrNullFail else
      dstack (PushBool valid)
    end
  end.
Definition opcodeCheckSigVerify (op : ParsedOpcode) : EM () := opcodeCheckSig op;; abstractVerify op ErrCheckSigVerify.

(** [for i := 0; i < n; i++ { PopByteArray; append }]. *)
Fixpoint pop_n (n : nat) : EM (list bytes) :=
  match n with
  | O => mret []
  | S n' => so ← dstack PopByteArray; rest ← pop_n n'; mret (so :: rest)
  end.

(** [parsedSignature] is [nil] when the signature does not parse. *)
Record parsedSigInfo : Type := mkSigInfo
  { si_signature : bytes; si_parsedSignature : option Signature; si_parsed : bool }.

(** The signature of one round of the loop: checked and parsed the first time,
    remembered afterwards.  [None]: the round moves on to the next key. *)
Definition round_signature (vm : Engine) (sigInfo : parsedSigInfo) (hashType : Z) (signature : bytes) :
    outcome scripterr (option Signature * parsedSigInfo) :=
  if negb (si_parsed sigInfo) then
    checkHashTypeEncoding vm hashType;;
    checkSignatureEncoding vm signature;;
    sg ← parse_signature vm signature;
    mret (sg, mkSigInfo (si_signature sigInfo) sg true)
  else mret (si_parsedSignature sigInfo, sigInfo).

(** One signature and one key: whether the signature verifies, and what to
    remember of it.  Every [continue] of the code is a [false]. *)
Definition check_round (script : list ParsedOpcode) (sigInfo : parsedSigInfo) (pubKey : bytes) :
    EM (bool * parsedSigInfo) :=
  let rawSig := si_signature sigInfo in
  if len rawSig =? 0 then mret (false, sigInfo) else
  ht ← lift (or_panic (index rawSig (len rawSig - 1)));
  let hashType := u8 ht in
  signature ← lift (or_panic (slice_to rawSig (len rawSig - 1)));
  vm ← gets id;
  '(parsedSig, sigInfo) ← lift (round_signature vm sigInfo hashType signature);
  match parsedSig with
  | None => mret (false, sigInfo)
  | Some parsedSig =>
    lift (checkPubKeyEncoding vm pubKey);;
    pk ← lift (parse_pubkey pubKey);
    match pk with
    | None => mret (false, sigInfo)
    | Some parsedPubKey =>
      hash ← lift (sig_hash script hashType vm);
      valid ← verify_cached hash parsedSig parsedPubKey;
      mret (valid, sigInfo)
    end
  end.

(** The loop over the keys: [success] when all signatures have been matched.
    [fuel] bounds the rounds; every round takes a key. *)
Fixpoint multisig_loop (fuel : nat) (script : list ParsedOpcode) (pubKeys : list bytes)
    (signatures : list parsedSigInfo) (numSignatures numPubKeys pubKeyIdx signatureIdx : Z) : EM bool :=
  match fuel with
  | O => lift Panic
  | S fuel' =>
    if negb (0 <? numSignatures) then mret true else
    let pubKeyIdx := pubKeyIdx + 1 in
    let numPubKeys := numPubKeys - 1 in
    if numPubKeys <? numSignatures then mret false else
    sigInfo ← lift (or_panic (index signatures signatureIdx));
    pubKey ← lift (or_panic (index pubKeys pubKeyIdx));
    '(valid, sigInfo) ← check_round script sigInfo pubKey;
    let signatures := <[Z.to_nat signatureIdx := sigInfo]> signatures in
    if valid : bool
    then multisig_loop fuel' script pubKeys signatures (numSignatures - 1) numPubKeys pubKeyIdx (signatureIdx + 1)
    else multisig_loop fuel' script pubKeys signatures numSignatures numPubKeys pubKeyIdx signatureIdx
  end.

(** The checks of the dummy item, the signed script, the loop and its result. *)
Definition multisig_verdict (numPubKeys numSignatures : Z) (pubKeys sigs : list bytes) (dummy : bytes) : EM () :=
  let signatures := map (fun signature => mkSigInfo signature None false) sigs in
  vm ← gets id;
  if hasFlag vm ScriptStrictMultiSig && negb (len dummy =? 0) then mthrow ErrSigNullDummy else
  script ← lift (subScript vm);
  let script := if isWitnessVersionActive vm 0 then script else foldl removeOpcodeByData script sigs in
  success ← multisig_loop (Z.to_nat numPubKeys + 2) script pubKeys signatures numSignatures (numPubKeys + 1) (-1) 0;
  if negb success && hasFlag vm ScriptVerifyNullFail && existsb (fun sig => 0 <? len sig) sigs
  then mthrow ErrNullFail else
  dstack (PushBool success).

Definition opcodeCheckMultiSig (op : ParsedOpcode) : EM () :=
  numKeys ← dstack PopInt;
  let numPubKeys := Int32 numKeys in
  if numPubKeys <? 0 then mthrow ErrInvalidPubKeyCount else
  if MaxPubKeysPerMultiSig <? numPubKeys then mthrow ErrInvalidPubKeyCount else
  modify (fun vm => set_numOps (vm_numOps vm + numPubKeys) vm);;
  vm ← gets id;
  if MaxOpsPerScript <? vm_numOps vm then mthrow ErrTooManyOperations else
  pubKeys ← pop_n (Z.to_nat numPubKeys);
  numSigs ← dstack PopInt;
  let numSignatures := Int32 numSigs in
  if numSignatures <? 0 then mthrow ErrInvalidSignatureCount else
  if numPubKeys <? numSignatures then mthrow ErrInvalidSignatureCount else
  sigs ← pop_n (Z.to_nat numSignatures);
  dummy ← dstack PopByteArray;
  multisig_verdict numPubKeys numSignatures pubKeys sigs dummy.
Definition opcodeCheckMultiSigVerify (op : ParsedOpcode) : EM () := opcodeCheckMultiSig op;; abstractVerify op ErrCheckMultiSigVerify.

(** * Dispatch *)

Definition executeOp (po : ParsedOpcode) : EM () :=
  match Value (Opc po) with
  | OP_FALSE => opcodeFalse po
  | OP_DATA_1 => opcodePushData po
  | OP_DATA_2 => opcodePushData po
  | OP_DATA_3 => opcodePushData po
  | OP_DATA_4 => opcodePushData po
  | OP_DATA_5 => opcodePushData po
  | OP_DATA_6 => opcodePushData po
  | OP_DATA_7 => opcodePushData po
  | OP_DATA_8 => opcodePushData po
  | OP_DATA_9 => opcodePushData po
  | OP_DATA_10 => opcodePushData po
  | OP_DATA_11 => opcodePushData po
  | OP_DATA_12 => opcodePushData po
  | OP_DATA_13 => opcodePushData po
  | OP_DATA_14 => opcodePushData po
  | OP_DATA_15 => opcodePushData po
  | OP_DATA_16 => opcodePushData po
  | OP_DATA_17 => opcodePushData po
  | OP_DATA_18 => opcodePushData po
  | OP_DATA_19 => opcodePushData po
  | OP_DATA_20 => opcodePushData po
  | OP_DATA_21 => opcodePushData po
  | OP_DATA_22 => opcodePushData po
  | OP_DATA_23 => opcodePushData po
  | OP_DATA_24 => opcodePushData po
  | OP_DATA_25 => opcodePushData po
  | OP_DATA_26 => opcodePushData po
  | OP_DATA_27 => opcodePushData po
  | OP_DATA_28 => opcodePushData po
  | OP_DATA_29 => opcodePushData po
  | OP_DATA_30 => opcodePushData po
  | OP_DATA_31 => opcodePushData po
  | OP_DATA_32 => opcodePushData po
  | OP_DATA_33 => opcodePushData po
  | OP_DATA_34 => opcodePushData po
  | OP_DATA_35 => opcodePushData po
  | OP_DATA_36 => opcodePushData po
  | OP_DATA_37 => opcodePushData po
  | OP_DATA_38 => opcodePushData po
  | OP_DATA_39 => opcodePushData po
  | OP_DATA_40 => opcodePushData po
  | OP_DATA_41 => opcodePushData po
  | OP_DATA_42 => opcodePushData po
  | OP_DATA_43 => opcodePushData po
  | OP_DATA_44 => opcodePushData po
  | OP_DATA_45 => opcodePushData po
  | OP_DATA_46 => opcodePushData po
  | OP_DATA_47 => opcodePushData po
  | OP_DATA_48 => opcodePushData po
  | OP_DATA_49 => opcodePushData po
  | OP_DATA_50 => opcodePushData po
  | OP_DATA_51 => opcodePushData po
  | OP_DATA_52 => opcodePushData po
  | OP_DATA_53 => opcodePushData po
  | OP_DATA_54 => opcodePushData po
  | OP_DATA_55 => opcodePushData po
  | OP_DATA_56 => opcodePushData po
  | OP_DATA_57 => opcodePushData po
  | OP_DATA_58 => opcodePushData po
  | OP_DATA_59 => opcodePushData po
  | OP_DATA_60 => opcodePushData po
  | OP_DATA_61 => opcodePushData po
  | OP_DATA_62 => opcodePushData po
  | OP_DATA_63 => opcodePushData po
  | OP_DATA_64 => opcodePushData po
  | OP_DATA_65 => opcodePushData po
  | OP_DATA_66 => opcodePushData po
  | OP_DATA_67 => opcodePushData po
  | OP_DATA_68 => opcodePushData po
  | OP_DATA_69 => opcodePushData po
  | OP_DATA_70 => opcodePushData po
  | OP_DATA_71 => opcodePushData po
  | OP_DATA_72 => opcodePushData po
  | OP_DATA_73 => opcodePushData po
  | OP_DATA_74 => opcodePushData po
  | OP_DATA_75 => opcodePushData po
  | OP_PUSHDATA1 => opcodePushData po
  | OP_PUSHDATA2 => opcodePushData po
  | OP_PUSHDATA4 => opcodePushData po
  | OP_1NEGATE => opcode1Negate po
  | OP_RESERVED => opcodeReserved po
  | OP_TRUE => opcodeN po
  | OP_2 => opcodeN po
  | OP_3 => opcodeN po
  | OP_4 => opcodeN po
  | OP_5 => opcodeN po
  | OP_6 => opcodeN po
  | OP_7 => opcodeN po
  | OP_8 => opcodeN po
  | OP_9 => opcodeN po
  | OP_10 => opcodeN po
  | OP_11 => opcodeN po
  | OP_12 => opcodeN po
  | OP_13 => opcodeN po
  | OP_14 => opcodeN po
  | OP_15 => opcodeN po
  | OP_16 => opcodeN po
  | OP_NOP => opcodeNop po
  | OP_VER => opcodeReserved po
  | OP_IF => opcodeIf po
  | OP_NOTIF => opcodeNotIf po
  | OP_VERIF => opcodeReserved po
  | OP_VOTE => opcode2Drop po
  | OP_ELSE => opcodeElse po
  | OP_ENDIF => opcodeEndif po
  | OP_VERIFY => opcodeVerify po
  | OP_RETURN => opcodeReturn po
  | OP_CHECKLOCKTIMEVERIFY => opcodeCheckLockTimeVerify po
  | OP_CHECKSEQUENCEVERIFY => opcodeCheckSequenceVerify po
  | OP_TOALTSTACK => opcodeToAltStack po
  | OP_FROMALTSTACK => opcodeFromAltStack po
  | OP_2DROP => opcode2Drop po
  | OP_2DUP => opcode2Dup po
  | OP_3DUP => opcode3Dup po
  | OP_2OVER => opcode2Over po
  | OP_2ROT => opcode2Rot po
  | OP_2SWAP => opcode2Swap po
  | OP_IFDUP => opcodeIfDup po
  | OP_DEPTH => opcodeDepth po
  | OP_DROP => opcodeDrop po
  | OP_DUP => opcodeDup po
  | OP_NIP => opcodeNip po
  | OP_OVER => opcodeOver po
  | OP_PICK => opcodePick po
  | OP_ROLL => opcodeRoll po
  | OP_ROT => opcodeRot po
  | OP_SWAP => opcodeSwap po
  | OP_TUCK => opcodeTuck po
  | OP_CAT => opcodeDisabled po
  | OP_SUBSTR => opcodeDisabled po
  | OP_LEFT => opcodeDisabled po
  | OP_RIGHT => opcodeDisabled po
  | OP_SIZE => opcodeSize po
  | OP_INVERT => opcodeDisabled po
  | OP_AND => opcodeDisabled po
  | OP_OR => opcodeDisabled po
  | OP_XOR => opcodeDisabled po
  | OP_EQUAL => opcodeEqual po
  | OP_EQUALVERIFY => opcodeEqualVerify po
  | OP_RESERVED1 => opcodeReserved po
  | OP_RESERVED2 => opcodeReserved po
  | OP_1ADD => opcode1Add po
  | OP_1SUB => opcode1Sub po
  | OP_2MUL => opcodeDisabled po
  | OP_2DIV => opcodeDisabled po
  | OP_NEGATE => opcodeNegate po
  | OP_ABS => opcodeAbs po
  | OP_NOT => opcodeNot po
  | OP_0NOTEQUAL => opcode0NotEqual po
  | OP_ADD => opcodeAdd po
  | OP_SUB => opcodeSub po
  | OP_MUL => opcodeDisabled po
  | OP_DIV => opcodeDisabled po
  | OP_MOD => opcodeDisabled po
  | OP_LSHIFT => opcodeDisabled po
  | OP_RSHIFT => opcodeDisabled po
  | OP_BOOLAND => opcodeBoolAnd po
  | OP_BOOLOR => opcodeBoolOr po
  | OP_NUMEQUAL => opcodeNumEqual po
  | OP_NUMEQUALVERIFY => opcodeNumEqualVerify po
  | OP_NUMNOTEQUAL => opcodeNumNotEqual po
  | OP_LESSTHAN => opcodeLessThan po
  | OP_GREATERTHAN => opcodeGreaterThan po
  | OP_LESSTHANOREQUAL => opcodeLessThanOrEqual po
  | OP_GREATERTHANOREQUAL => opcodeGreaterThanOrEqual po
  | OP_MIN => opcodeMin po
  | OP_MAX => opcodeMax po
  | OP_WITHIN => opcodeWithin po
  | OP_RIPEMD160 => opcodeRipemd160 po
  | OP_SHA1 => opcodeSha1 po
  | OP_SHA256 => opcodeSha256 po
  | OP_HASH160 => opcodeHash160 po
  | OP_HASH256 => opcodeHash256 po
  | OP_CODESEPARATOR => opcodeCodeSeparator po
  | OP_CHECKSIG => opcodeCheckSig po
  | OP_CHECKSIGVERIFY => opcodeCheckSigVerify po
  | OP_CHECKMULTISIG => opcodeCheckMultiSig po
  | OP_CHECKMULTISIGVERIFY => opcodeCheckMultiSigVerify po
  | OP_NOP1 => opcodeNop po
  | OP_NOP4 => opcodeNop po
  | OP_NOP5 => opcodeNop po
  | OP_NOP6 => opcodeNop po
  | OP_NOP7 => opcodeNop po
  | OP_NOP8 => opcodeNop po
  | OP_NOP9 => opcodeNop po
  | OP_NOP10 => opcodeNop po
  | OP_UNKNOWN186 => opcodeInvalid po
  | OP_UNKNOWN187 => opcodeInvalid po
  | OP_UNKNOWN188 => opcodeInvalid po
  | OP_UNKNOWN189 => opcodeInvalid po
  | OP_UNKNOWN190 => opcodeInvalid po
  | OP_UNKNOWN191 => opcodeInvalid po
  | OP_UNKNOWN192 => opcodeInvalid po
  | OP_UNKNOWN193 => opcodeInvalid po
  | OP_UNKNOWN194 => opcodeInvalid po
  | OP_UNKNOWN195 => opcodeInvalid po
  | OP_UNKNOWN196 => opcodeInvalid po
  | OP_UNKNOWN197 => opcodeInvalid po
  | OP_UNKNOWN198 => opcodeInvalid po
  | OP_UNKNOWN199 => opcodeInvalid po
  | OP_UNKNOWN200 => opcodeInvalid po
  | OP_UNKNOWN201 => opcodeInvalid po
  | OP_UNKNOWN202 => opcodeInvalid po
  | OP_UNKNOWN203 => opcodeInvalid po
  | OP_UNKNOWN204 => opcodeInvalid po
  | OP_UNKNOWN205 => opcodeInvalid po
  | OP_UNKNOWN206 => opcodeInvalid po
  | OP_UNKNOWN207 => opcodeInvalid po
  | OP_UNKNOWN208 => opcodeInvalid po
  | OP_UNKNOWN209 => opcodeInvalid po
  | OP_UNKNOWN210 => opcodeInvalid po
  | OP_UNKNOWN211 => opcodeInvalid po
  | OP_UNKNOWN212 => opcodeInvalid po
  | OP_UNKNOWN213 => opcodeInvalid po
  | OP_UNKNOWN214 => opcodeInvalid po
  | OP_UNKNOWN215 => opcodeInvalid po
  | OP_UNKNOWN216 => opcodeInvalid po
  | OP_UNKNOWN217 => opcodeInvalid po
  | OP_UNKNOWN218 => opcodeInvalid po
  | OP_UNKNOWN219 => opcodeInvalid po
  | OP_UNKNOWN220 => opcodeInvalid po
  | OP_UNKNOWN221 => opcodeInvalid po
  | OP_UNKNOWN222 => opcodeInvalid po
  | OP_UNKNOWN223 => opcodeInvalid po
  | OP_UNKNOWN224 => opcodeInvalid po
  | OP_UNKNOWN225 => opcodeInvalid po
  | OP_UNKNOWN226 => opcodeInvalid po
  | OP_UNKNOWN227 => opcodeInvalid po
  | OP_UNKNOWN228 => opcodeInvalid po
  | OP_UNKNOWN229 => opcodeInvalid po
  | OP_UNKNOWN230 => opcodeInvalid po
  | OP_UNKNOWN231 => opcodeInvalid po
  | OP_UNKNOWN232 => opcodeInvalid po
  | OP_UNKNOWN233 => opcodeInvalid po
  | OP_UNKNOWN234 => opcodeInvalid po
  | OP_UNKNOWN235 => opcodeInvalid po
  | OP_UNKNOWN236 => opcodeInvalid po
  | OP_UNKNOWN237 => opcodeInvalid po
  | OP_UNKNOWN238 => opcodeInvalid po
  | OP_UNKNOWN239 => opcodeInvalid po
  | OP_UNKNOWN240 => opcodeInvalid po
  | OP_UNKNOWN241 => opcodeInvalid po
  | OP_UNKNOWN242 => opcodeInvalid po
  | OP_UNKNOWN243 => opcodeInvalid po
  | OP_UNKNOWN244 => opcodeInvalid po
  | OP_UNKNOWN245 => opcodeInvalid po
  | OP_UNKNOWN246 => opcodeInvalid po
  | OP_UNKNOWN247 => opcodeInvalid po
  | OP_UNKNOWN248 => opcodeInvalid po
  | OP_UNKNOWN249 => opcodeInvalid po
  | OP_SMALLINTEGER => opcodeInvalid po
  | OP_PUBKEYS => opcodeInvalid po
  | OP_UNKNOWN252 => opcodeInvalid po
  | OP_PUBKEYHASH => opcodeInvalid po
  | OP_PUBKEY => opcodeInvalid po
  | OP_INVALIDOPCODE => opcodeInvalid po
  end.
End handlers.
