(* ===== verification/Execute.v ===== *)
(** Running scripts (src/txscript/engine.go): one opcode, one step, the whole
    execution, and the construction of an engine for a transaction input. *)

From S2P Require Import Prelude TxScriptErr Params ScriptNum Stack Opcode Sha Wire ParseScript ScriptBuilder MsgTx.
From S2P Require Import ScriptUtil SigHash Field Btcec SigCache Engine Handlers.

(** src/txscript/standard.go. *)
Definition payToPubKeyHashScriptBuilder (pubKeyHash : bytes) : ScriptBuilder :=
  AddOp OP_CHECKSIG (AddOp OP_EQUALVERIFY (AddData pubKeyHash (AddOp OP_HASH160 (AddOp OP_DUP NewScriptBuilder)))).

(** The pair of the builder, as a call that returns or fails. *)
Definition payToPubKeyHashScript (pubKeyHash : bytes) : outcome scripterr bytes :=
  match Script (payToPubKeyHashScriptBuilder pubKeyHash) with
  | (script, None) => Ret script
  | (_, Some e) => Throw e
  end.

(** [pops, err := ParseScript(script); if err != nil { return err }]. *)
Definition parse (script : bytes) : outcome scripterr (list ParsedOpcode) :=
  match ParseScript script with
  | (pops, None) => Ret pops
  | (_, Some e) => Throw e
  end.

Section execute.
Context `{Crypto} `{MapOrder}.

(** * One opcode *)

Definition executeOpcode (pop : ParsedOpcode) : EM () :=
  if popIsDisabled pop then mthrow ErrDisabledOpcode else
  if popAlwaysIllegal pop then mthrow ErrReservedOpcode else
  (if u8 OP_16 <? u8 (Value (Opc pop)) then
     modify (fun vm => set_numOps (vm_numOps vm + 1) vm);;
     vm ← gets id;
     if MaxOpsPerScript <? vm_numOps vm then mthrow ErrTooManyOperations else mret ()
   else if MaxScriptElementSize <? len (Data pop) then mthrow ErrElementTooBig
   else mret ());;
  vm ← gets id;
  if negb (isBranchExecuting vm) && negb (popIsConditional pop) then mret () else
  (if verifyMinimalData (vm_dstack vm) && isBranchExecuting vm &&
      (u8 (Value (Opc pop)) <=? u8 OP_PUSHDATA4)
   then lift (popCheckMinimalDataPush pop) else mret ());;
  executeOp pop.

(** * Witness programs *)

(** [vm.scripts = append(vm.scripts, pops)]. *)
Definition append_pops (pops : list ParsedOpcode) : EM () :=
  modify (fun vm => set_scripts (vm_scripts vm ++ [pops]) vm).

(** Version 0: the script that the program commits to, and its stack. *)
Definition install_program (program : bytes) (witness : list bytes) : EM () :=
  if len program =? PayToWitnessPubKeyHashDataSize then
    if negb (len witness =? 2) then mthrow ErrWitnessProgramMismatch else
    pkScript ← lift (payToPubKeyHashScript program);
    pops ← lift (parse pkScript);
    append_pops pops;;
    SetStack witness
  else if len program =? PayToWitnessScriptHashDataSize then
    if len witness =? 0 then mthrow ErrWitnessProgramEmpty else
    witnessScript ← lift (or_panic (index witness (len witness - 1)));
    if MaxScriptSize <? len witnessScript then mthrow ErrScriptTooBig else
    let witnessHash := sha256 witnessScript in
    if negb (bytes_eqb witnessHash program) then mthrow ErrWitnessProgramMismatch else
    pops ← lift (parse witnessScript);
    append_pops pops;;
    rest ← lift (or_panic (slice_to witness (len witness - 1)));
    SetStack rest
  else mthrow ErrWitnessProgramWrongLength.

Definition verifyWitnessProgram (witness : list bytes) : EM () :=
  vm ← gets id;
  (if isWitnessVersionActive vm 0 then
     program ← lift (or_panic (vm_witnessProgram vm));
     install_program program witness
   else if hasFlag vm ScriptVerifyDiscourageUpgradeableWitnessProgram
   then mthrow ErrDiscourageUpgradableWitnessProgram
   else modify (set_witnessProgram None));;
  vm ← gets id;
  if isWitnessVersionActive vm 0 then
    if existsb (fun witElement => MaxScriptElementSize <? len witElement) (GetStack vm)
    then mthrow ErrElementTooBig else mret ()
  else mret ().

(** * The final check *)

Definition CheckErrorCondition (finalScript : bool) : EM () :=
  vm ← gets id;
  if vm_scriptIdx vm <? len (vm_scripts vm) then mthrow ErrScriptUnfinished else
  if finalScript && isWitnessVersionActive vm 0 && negb (Depth (vm_dstack vm) =? 1) then mthrow ErrEvalFalse else
  if finalScript && hasFlag vm ScriptVerifyCleanStack && negb (Depth (vm_dstack vm) =? 1) then mthrow ErrCleanStack
  else if Depth (vm_dstack vm) <? 1 then mthrow ErrEmptyStack else
  v ← dstack PopBool;
  if negb v then mthrow ErrEvalFalse else mret ().

(** * One step *)

Definition next_script : EM () := modify (fun vm => set_scriptIdx (vm_scriptIdx vm + 1) vm).

(** The script of a pay-to-script-hash input, and the stack below it. *)
Definition install_redeem (saved : list bytes) : EM () :=
  script ← lift (or_panic (index saved (len saved - 1)));
  pops ← lift (parse script);
  append_pops pops;;
  rest ← lift (or_panic (slice_to saved (len saved - 1)));
  SetStack rest.

(** An empty script is skipped.  [true]: no script is left. *)
Definition skip_empty : EM bool :=
  vm ← gets id;
  (if vm_scriptIdx vm <? len (vm_scripts vm) then
     script ← lift (or_panic (index (vm_scripts vm) (vm_scriptIdx vm)));
     if len script <=? vm_scriptOff vm then next_script else mret ()
   else mret ());;
  modify (set_lastCodeSep 0);;
  vm ← gets id;
  mret (len (vm_scripts vm) <=? vm_scriptIdx vm).

(** The end of a script: the next one is prepared.  [true]: there is none. *)
Definition end_of_script : EM bool :=
  vm ← gets id;
  if negb (len (vm_condStack vm) =? 0) then mthrow ErrUnbalancedConditional else
  ignore_err (astack (depth ← gets Depth; DropN depth));;
  modify (set_numOps 0);;
  modify (set_scriptOff 0);;
  (if (vm_scriptIdx vm =? 0) && vm_bip16 vm then
     next_script;;
     modify (fun vm => set_savedFirstStack (GetStack vm) vm)
   else if (vm_scriptIdx vm =? 1) && vm_bip16 vm then
     next_script;;
     CheckErrorCondition false;;
     install_redeem (vm_savedFirstStack vm)
   else if (vm_scriptIdx vm =? 1) && (if vm_witnessProgram vm is Some _ then true else false) ||
           (vm_scriptIdx vm =? 2) && (if vm_witnessProgram vm is Some _ then true else false) && vm_bip16 vm then
     next_script;;
     ti ← lift (or_panic (index (tx_TxIn (vm_tx vm)) (vm_txIdx vm)));
     verifyWitnessProgram (witness ti)
   else next_script);;
  skip_empty.

(** [true]: the last opcode of the last script has been executed. *)
Definition Step : EM bool :=
  vm ← gets id;
  lift (validPC vm);;
  script ← lift (or_panic (index (vm_scripts vm) (vm_scriptIdx vm)));
  opcode ← lift (or_panic (index script (vm_scriptOff vm)));
  modify (set_scriptOff (vm_scriptOff vm + 1));;
  executeOpcode opcode;;
  vm ← gets id;
  if MaxStackSize <? int32 (Depth (vm_dstack vm) + Depth (vm_astack vm)) then mthrow ErrStackOverflow else
  script ← lift (or_panic (index (vm_scripts vm) (vm_scriptIdx vm)));
  if len script <=? vm_scriptOff vm then end_of_script else mret false.

(** * The whole execution *)

(** [for !done { done, err = vm.Step() }]; running out of fuel is a panic, which
    the theorems on [Execute] exclude. *)
Fixpoint step_loop (fuel : nat) : EM () :=
  match fuel with
  | O => lift Panic
  | S fuel' => done ← Step; if done : bool then mret () else step_loop fuel'
  end.

(** An execution has at most four scripts: two of at most 10,000 bytes, the
    script of a pay-to-script-hash input, and a witness script of at most
    10,000 bytes; every step takes an opcode, which has at least a byte. *)
Definition max_steps : nat := Z.to_nat 40000.

Definition Execute : EM () :=
  step_loop max_steps;;
  CheckErrorCondition true.
End execute.

(** * Construction *)

Definition new_stack (minimal : bool) : stack := mkStack [] minimal.

(** The size check and the parse of one script. *)
Definition parse_checked (scr : bytes) : outcome scripterr (list ParsedOpcode) :=
  if MaxScriptSize <? len scr then mthrow ErrScriptTooBig else parse scr.

(** The witness program of an input, if it has one. *)
Definition find_witness_program (scriptSig scriptPubKey : bytes) (wit : list bytes) (bip16 : bool)
    (pops0 pops1 : list ParsedOpcode) : outcome scripterr (option bytes) :=
  if isWitnessProgram pops1 then
    if negb (len scriptSig =? 0) then mthrow ErrWitnessMalleated else mret (Some scriptPubKey)
  else if negb (len wit =? 0) && bip16 then
    match pops0 with
    | [p] => if canonicalPush p && IsWitnessProgram (Data p) then mret (Some (Data p))
             else mthrow ErrWitnessMalleatedP2SH
    | _ => mthrow ErrWitnessMalleatedP2SH
    end
  else mret None.

Definition NewEngine (scriptPubKey : bytes) (tx : MsgTx) (txIdx flags : Z) (sigCache : option SigCache)
    (hashCache : option TxSigHashes) (inputAmount : Z) : outcome scripterr Engine :=
  if (txIdx <? 0) || (len (tx_TxIn tx) <=? txIdx) then mthrow ErrInvalidIndex else
  ti ← or_panic (index (tx_TxIn tx) txIdx);
  let scriptSig := ti_SignatureScript ti in
  if (len scriptSig =? 0) && (len scriptPubKey =? 0) then mthrow ErrEvalFalse else
  let has flag := flags &&& flag =? flag in
  if has ScriptVerifyCleanStack && (negb (has ScriptBip16) && negb (has ScriptVerifyWitness))
  then mthrow ErrInvalidFlags else
  if has ScriptVerifySigPushOnly && negb (IsPushOnlyScript scriptSig) then mthrow ErrNotPushOnly else
  pops0 ← parse_checked scriptSig;
  pops1 ← parse_checked scriptPubKey;
  let scriptIdx := if len scriptSig =? 0 then 1 else 0 in
  let bip16 := has ScriptBip16 && isScriptHash pops1 in
  if bip16 && negb (IsPushOnly pops0) then mthrow ErrNotPushOnly else
  let minimal := has ScriptVerifyMinimalData in
  '(version, program) ←
    (if has ScriptVerifyWitness then
       if negb (has ScriptBip16) then mthrow ErrInvalidFlags else
       witProgram ← find_witness_program scriptSig scriptPubKey (witness ti) bip16 pops0 pops1;
       match witProgram with
       | Some witProgram =>
         '(v, p) ← ExtractWitnessProgramInfo witProgram; mret (v, Some p)
       | None => if negb (len (witness ti) =? 0) then mthrow ErrWitnessUnexpected else mret (0, None)
       end
     else mret (0, None));
  mret (mkEngine [pops0; pops1] scriptIdx 0 0 (new_stack minimal) (new_stack minimal) tx txIdx [] 0 flags
          sigCache hashCache bip16 [] version program inputAmount).
