(* ===== verification/EngineSafety.v ===== *)
(** Every opcode handler is safe: started in an engine whose program counter,
    code separator and input index are in range and whose stacks are of
    reasonable size, it never panics, and it changes only what a handler may
    change, within the limits of the consensus rules. *)

From S2P Require Import Prelude TxScriptErr Params ScriptNum Stack Opcode Sha Wire ParseScript MsgTx MsgTxProps.
From S2P Require Import ScriptUtil SigHash Field Btcec BtcecProps SigCache Engine Handlers.

(** No panic, and [Q] of a result; nothing of an error. *)
Abbreviation safe m Q s := (wp m Q (fun _ _ => True) s).

Lemma safe_bind {E S A B} (m : St E S A) (f : A -> St E S B) Q (R : B -> S -> Prop) s :
  safe m Q s -> (forall a s', Q a s' -> safe (f a) R s') -> safe (m ≫= f) R s.
Proof. intros Hm Hf. apply wp_bind. by eapply wp_mono. Qed.

(** * Stack methods *)

Definition elem_ok (so : bytes) : Prop := len so <= MaxScriptElementSize.

Section stack_methods.
Context (s : stack) (Hs : len (stk s) < 2 ^ 29).

Let small : stack_small s.
Proof. unfold stack_small. lia. Qed.

Lemma PopByteArray_wp :
  safe PopByteArray (fun so s' => stk s = stk s' ++ [so] /\ verifyMinimalData s' = verifyMinimalData s) s.
Proof.
  unfold wp. destruct (decide (stk s = [])) as [E|Hne]; [by rewrite PopByteArray_empty|].
  destruct (snoc_inv _ Hne) as (l & x & E). by rewrite (PopByteArray_snoc s l x).
Qed.

Lemma PeekByteArray_wp idx : safe (PeekByteArray idx) (fun so s' => so ∈ stk s /\ s' = s) s.
Proof.
  unfold wp. destruct (decide (0 <= idx < len (stk s))) as [Hi|];
    [|by rewrite PeekByteArray_err by (done || lia)].
  destruct (index_is_Some (stk s) (len (stk s) - 1 - idx)) as [x Hx]; [lia|].
  unfold index in Hx. destruct (Z.leb_spec 0 (len (stk s) - 1 - idx)); [|lia].
  destruct (list_elem_of_split_length _ _ _ Hx) as (l1 & l2 & E & Hl).
  assert (idx = len l2) as -> by (apply (f_equal len) in E; unfold len in *; rewrite length_app in E; simpl in E; lia).
  rewrite (PeekByteArray_split s l1 x l2) by done. split; [|done].
  rewrite E. apply elem_of_app. right. left.
Qed.

Lemma PopBool_wp :
  safe PopBool (fun _ s' => exists so, stk s = stk s' ++ [so] /\ verifyMinimalData s' = verifyMinimalData s) s.
Proof. apply wp_bind. eapply wp_mono; [apply PopByteArray_wp| |done]. intros so s' []. apply wp_ret. eauto. Qed.

Lemma PopInt_wp :
  safe PopInt (fun v s' => - 2 ^ 31 < v < 2 ^ 31 /\
    exists so, stk s = stk s' ++ [so] /\ verifyMinimalData s' = verifyMinimalData s) s.
Proof.
  apply wp_bind. eapply wp_mono; [apply PopByteArray_wp| |done]. intros so s' [E Hm].
  apply wp_bind, wp_gets, wp_lift.
  destruct (MakeScriptNum _ _ _) as [v|e|] eqn:Ev; [|done|by apply MakeScriptNum_no_panic in Ev].
  apply MakeScriptNum_range in Ev; [|by unfold DefaultScriptNumLen]. unfold DefaultScriptNumLen in Ev.
  split; [lia|eauto].
Qed.

Lemma run_op_wp op :
  op_small op ->
  safe (run_op op) (fun _ s' => spec_op op (stk s) = Some (stk s') /\ verifyMinimalData s' = verifyMinimalData s) s.
Proof.
  intros Hop. pose proof (op_refines_all s Hs op Hop) as Href. unfold op_refines in Href. unfold wp.
  destruct (spec_op op (stk s)); [by rewrite Href|]. destruct (run_op op s) as [r s']. simpl in Href. by subst.
Qed.
End stack_methods.

Lemma Bytes_len n : - 2 ^ 39 < n < 2 ^ 39 -> exists v, Bytes n = Ret v /\ len v <= 5.
Proof.
  intros Hn. destruct (decide (n = 0)) as [->|Hne]; [by exists []|].
  destruct (Bytes_spec n) as (v & Hv & Hm & Hval); [done|lia|]. exists v. split; [done|].
  apply (sn_minimal_len v 5 Hm); [lia|]. rewrite Hval. lia.
Qed.

(** A stack transformation rearranges and copies at most three items. *)
Lemma spec_op_elems (P : bytes -> Prop) op l l' : spec_op op l = Some l' -> Forall P l -> Forall P l'.
Proof.
  assert (forall n m a b, split_top n m = Some (a, b) -> Forall P m -> Forall P a /\ Forall P b) as Hsp.
  { intros n m a b [E _]%split_top_Some Hf. rewrite E in Hf. by apply Forall_app in Hf. }
  intros H Hf. destruct op; simpl in H; repeat case_match; try done;
    repeat match goal with
    | E : _ ≫= _ = Some _ |- _ =>
      apply bind_Some in E as ([? ?] & ? & E); simpl in E
    | E : split_top _ ?m = Some (_, _), F : Forall P ?m |- _ => destruct (Hsp _ _ _ _ E F); clear E
    end; unfold mret, option_ret in *; simplify_eq; rewrite ?Forall_app; repeat split; auto using Forall_drop, Forall_take.
Qed.

Lemma spec_op_len op l l' :
  match op with SDup n | SOver n => n <= 3 | _ => True end -> spec_op op l = Some l' -> len l' <= len l + 3.
Proof.
  assert (forall n m a b, split_top n m = Some (a, b) -> len m = len a + len b /\ len b = n) as Hsp.
  { intros n m a b [E Hb]%split_top_Some. apply (f_equal len) in E. rewrite len_app in E. lia. }
  assert (forall (m : list bytes) k, len (drop k m) <= len m) as Hd.
  { intros. unfold len. rewrite length_drop. lia. }
  assert (forall (m : list bytes) k, len (take k m) <= len m /\ len (take k m) <= Z.of_nat k) as Ht.
  { intros. unfold len. rewrite length_take. lia. }
  intros Ha H. destruct op; simpl in H, Ha; repeat case_match; try done;
    repeat match goal with
    | E : _ ≫= _ = Some _ |- _ => apply bind_Some in E as ([? ?] & ? & E); simpl in E
    | E : split_top _ ?m = Some (_, _) |- _ => destruct (Hsp _ _ _ _ E); clear E
    end; unfold mret, option_ret in *; simplify_eq; rewrite ?len_app;
    repeat match goal with
    | |- context [len (drop ?k ?m)] => pose proof (Hd m k); generalize dependent (len (drop k m)); intros
    | |- context [len (take ?k ?m)] => destruct (Ht m k); generalize dependent (len (take k m)); intros
    end; try lia.
Qed.

(** * What a handler may change *)

Definition total (vm : Engine) : Z := len (stk (vm_dstack vm)) + len (stk (vm_astack vm)).
Definition elems_ok (vm : Engine) : Prop :=
  Forall elem_ok (stk (vm_dstack vm)) /\ Forall elem_ok (stk (vm_astack vm)).

(** The branch states from the outermost conditional inwards: below an executing
    branch a condition is true or false, below any other it is skipped. *)
Fixpoint cond_wf (exec : bool) (l : list Z) : Prop :=
  match l with
  | [] => True
  | c :: l' => (if exec then c = OpCondTrue \/ c = OpCondFalse else c = OpCondSkip) /\
               cond_wf (exec && (c =? OpCondTrue)) l'
  end.

Definition all_true (l : list Z) : bool := forallb (fun c => c =? OpCondTrue) l.

Lemma cond_wf_snoc e l c :
  cond_wf e (l ++ [c]) <->
  cond_wf e l /\ (if e && all_true l then c = OpCondTrue \/ c = OpCondFalse else c = OpCondSkip).
Proof.
  revert e. induction l as [|x l IH]; intros e; simpl; [rewrite andb_true_r; tauto|].
  rewrite IH, andb_assoc. tauto.
Qed.

(** A branch executes when all the conditions around it hold. *)
Lemma isBranchExecuting_all vm :
  cond_wf true (vm_condStack vm) -> isBranchExecuting vm = all_true (vm_condStack vm).
Proof.
  unfold isBranchExecuting. intros Hc.
  destruct (decide (vm_condStack vm = [])) as [->|Hne]; [done|].
  destruct (snoc_inv _ Hne) as (l & c & E). rewrite E in *. apply cond_wf_snoc in Hc as [_ Hc].
  destruct (Z.eqb_spec (len (l ++ [c])) 0); [len_lia|]. rewrite index_last.
  unfold all_true in *. rewrite forallb_app. simpl in *. rewrite andb_true_r.
  destruct (forallb _ l); [done|]. by rewrite Hc.
Qed.

Record ready (vm : Engine) : Prop := {
  rd_total : total vm < 2 ^ 28;
  rd_elems : elems_ok vm;
  rd_ops : 0 <= vm_numOps vm <= MaxOpsPerScript;
  rd_script : exists script, index (vm_scripts vm) (vm_scriptIdx vm) = Some script /\
    0 <= vm_lastCodeSep vm <= len script /\ 0 <= vm_scriptOff vm <= len script;
  rd_input : 0 <= vm_txIdx vm < len (tx_TxIn (vm_tx vm));
  rd_cond : cond_wf true (vm_condStack vm)
}.

(** The fields that no handler writes. *)
Definition fixed (vm : Engine) :=
  (vm_scripts vm, vm_scriptIdx vm, vm_scriptOff vm, vm_tx vm, vm_txIdx vm, vm_flags vm, vm_hashCache vm,
   vm_bip16 vm, vm_savedFirstStack vm, vm_witnessVersion vm, vm_witnessProgram vm, vm_inputAmount vm,
   verifyMinimalData (vm_dstack vm), verifyMinimalData (vm_astack vm)).

(** A handler adds at most [k] items to the stacks. *)
Record frame (k : Z) (vm vm' : Engine) : Prop := {
  fr_fixed : fixed vm' = fixed vm;
  fr_sep : vm_lastCodeSep vm' = vm_lastCodeSep vm \/ vm_lastCodeSep vm' = vm_scriptOff vm;
  fr_ops : vm_numOps vm <= vm_numOps vm' <= MaxOpsPerScript;
  fr_total : total vm' <= total vm + k;
  fr_elems : elems_ok vm';
  fr_cond : cond_wf true (vm_condStack vm')
}.

Lemma frame_refl vm : ready vm -> frame 0 vm vm.
Proof. intros []. split; auto; lia. Qed.

Lemma frame_trans j k vm vm1 vm2 : frame j vm vm1 -> frame k vm1 vm2 -> frame (j + k) vm vm2.
Proof.
  intros [F1 S1 O1 T1 E1 C1] [F2 S2 O2 T2 E2 C2]. split; [by rewrite F2| |lia|lia|done|done].
  assert (vm_scriptOff vm1 = vm_scriptOff vm) as Eo by (unfold fixed in F1; congruence).
  rewrite Eo in S2. destruct S2 as [->|]; auto.
Qed.

Lemma frame_mono j k vm vm' : j <= k -> frame j vm vm' -> frame k vm vm'.
Proof. intros Hjk [F S O T E C]. split; auto; lia. Qed.

Lemma frame_ready k vm vm' : k <= 0 -> ready vm -> frame k vm vm' -> ready vm'.
Proof.
  intros Hk [T E O (script & Hs & Hsep & Hoff) I C] [F' S' O' T' E' C'].
  assert (vm_scripts vm' = vm_scripts vm /\ vm_scriptIdx vm' = vm_scriptIdx vm /\
    vm_scriptOff vm' = vm_scriptOff vm /\ vm_tx vm' = vm_tx vm /\ vm_txIdx vm' = vm_txIdx vm)
    as (E1 & E2 & E3 & E4 & E5) by (unfold fixed in F'; repeat split; congruence).
  split; [lia|done|lia| |by rewrite E4, E5|done].
  exists script. rewrite E1, E2, E3. split; [done|]. split; [|done]. destruct S' as [->| ->]; lia.
Qed.

(** * Proof rules for the calls that handlers make *)

(** The data stack after a call: [k] more items, all of allowed size. *)
Record dgrow (vm : Engine) (k : Z) (s : stack) : Prop := {
  dg_len : len (stk s) <= len (stk (vm_dstack vm)) + k;
  dg_elems : Forall elem_ok (stk s);
  dg_min : verifyMinimalData s = verifyMinimalData (vm_dstack vm)
}.

Section rules.
Context (vm : Engine) (Hd : len (stk (vm_dstack vm)) < 2 ^ 29) (He : Forall elem_ok (stk (vm_dstack vm))).

Lemma dgrow_pop s so :
  stk (vm_dstack vm) = stk s ++ [so] -> verifyMinimalData s = verifyMinimalData (vm_dstack vm) ->
  dgrow vm (-1) s /\ elem_ok so.
Proof.
  intros E Hm. assert (Forall elem_ok (stk s ++ [so])) as Hf by (rewrite <- E; exact He).
  apply Forall_app in Hf as [Hf Hso]. split; [|by apply Forall_inv in Hso].
  split; [rewrite E; len_lia|done|done].
Qed.

Lemma wp_pop (Q : bytes -> Engine -> Prop) :
  (forall so s, dgrow vm (-1) s -> elem_ok so -> Q so (set_dstack s vm)) -> safe (dstack PopByteArray) Q vm.
Proof.
  intros HQ. apply wp_on_field. eapply wp_mono; [by apply PopByteArray_wp| |done].
  intros so s [E Hm]. destruct (dgrow_pop s so E Hm). auto.
Qed.

Lemma wp_pop_bool (Q : bool -> Engine -> Prop) :
  (forall b s, dgrow vm (-1) s -> Q b (set_dstack s vm)) -> safe (dstack PopBool) Q vm.
Proof.
  intros HQ. apply wp_on_field. eapply wp_mono; [by apply PopBool_wp| |done].
  intros b s (so & E & Hm). destruct (dgrow_pop s so E Hm). auto.
Qed.

Lemma wp_pop_int (Q : Z -> Engine -> Prop) :
  (forall v s, - 2 ^ 31 < v < 2 ^ 31 -> dgrow vm (-1) s -> Q v (set_dstack s vm)) -> safe (dstack PopInt) Q vm.
Proof.
  intros HQ. apply wp_on_field. eapply wp_mono; [by apply PopInt_wp| |done].
  intros v s (Hv & so & E & Hm). destruct (dgrow_pop s so E Hm). auto.
Qed.

Lemma wp_peek idx (Q : bytes -> Engine -> Prop) :
  (forall so s, dgrow vm 0 s -> elem_ok so -> Q so (set_dstack s vm)) -> safe (dstack (PeekByteArray idx)) Q vm.
Proof.
  intros HQ. apply wp_on_field. eapply wp_mono; [by apply PeekByteArray_wp| |done].
  intros so s [Hin ->]. apply HQ; [by split; [lia| |]|].
  apply list_elem_of_In in Hin. revert so Hin. by apply Forall_forall.
Qed.

Lemma wp_push so (Q : () -> Engine -> Prop) :
  elem_ok so -> (forall s, dgrow vm 1 s -> Q () (set_dstack s vm)) -> safe (dstack (PushByteArray so)) Q vm.
Proof.
  intros Hso HQ. apply wp_on_field, wp_modify, HQ. split; simpl; [len_lia|apply Forall_app; split; [done|by constructor]|done].
Qed.

Lemma wp_push_bool b (Q : () -> Engine -> Prop) :
  (forall s, dgrow vm 1 s -> Q () (set_dstack s vm)) -> safe (dstack (PushBool b)) Q vm.
Proof. intros HQ. apply wp_push; [by destruct b|done]. Qed.

Lemma wp_push_int v (Q : () -> Engine -> Prop) :
  - 2 ^ 39 < v < 2 ^ 39 -> (forall s, dgrow vm 1 s -> Q () (set_dstack s vm)) -> safe (dstack (PushInt v)) Q vm.
Proof.
  intros Hv HQ. unfold PushInt. apply wp_on_field, wp_bind, wp_lift. destruct (Bytes_len v Hv) as (so & -> & Hl).
  apply wp_modify, HQ. split; simpl; [len_lia|apply Forall_app; split; [done|]|done].
  constructor; [|done]. unfold elem_ok, MaxScriptElementSize. lia.
Qed.

Lemma wp_run_op m op (Q : () -> Engine -> Prop) :
  m = run_op op -> op_small op -> match op with SDup n | SOver n => n <= 3 | _ => True end ->
  (forall s, dgrow vm 3 s -> Q () (set_dstack s vm)) -> safe (dstack m) Q vm.
Proof.
  intros -> Hop Ha HQ. apply wp_on_field. eapply wp_mono; [by apply run_op_wp| |done].
  intros [] s [E Hm]. apply HQ. split; [by eapply spec_op_len|by eapply spec_op_elems|done].
Qed.
End rules.

(** * Handlers *)

Definition handler_safe (k : Z) (m : EM ()) : Prop :=
  forall vm, ready vm -> safe m (fun _ vm' => frame k vm vm') vm.

(** Side conditions: the sizes and the items of the stacks. *)
Ltac stacks_ok :=
  solve [simpl; repeat match goal with H : dgrow _ _ _ |- _ => destruct H; simpl in * end; unfold total in *;
         first [assumption | lia | len_lia]].

Ltac elem := solve [assumption | unfold elem_ok, MaxScriptElementSize; autorewrite with len; lia].

Ltac stack_call o :=
  refine (wp_run_op _ _ _ _ o _ eq_refl _ _ _); [stacks_ok|stacks_ok|done|done|intros].

(** The call at the head of the body. *)
Ltac call :=
  lazymatch goal with
  | |- wp (dstack PopByteArray) _ _ _ => apply wp_pop; [stacks_ok|stacks_ok|intros]
  | |- wp (dstack PopBool) _ _ _ => apply wp_pop_bool; [stacks_ok|stacks_ok|intros]
  | |- wp (dstack PopInt) _ _ _ => apply wp_pop_int; [stacks_ok|stacks_ok|intros]
  | |- wp (dstack (PeekByteArray _)) _ _ _ => apply wp_peek; [stacks_ok|stacks_ok|intros]
  | |- wp (dstack (PushByteArray _)) _ _ _ => apply wp_push; [stacks_ok|try elem|intros]
  | |- wp (dstack (PushBool _)) _ _ _ => apply wp_push_bool; [stacks_ok|intros]
  | |- wp (dstack (PushInt _)) _ _ _ => apply wp_push_int; [stacks_ok| |intros]
  | |- wp (dstack (NipN ?n)) _ _ _ => stack_call (SNip n)
  | |- wp (dstack Tuck) _ _ _ => stack_call STuck
  | |- wp (dstack (DropN ?n)) _ _ _ => stack_call (SDrop n)
  | |- wp (dstack (DupN ?n)) _ _ _ => stack_call (SDup n)
  | |- wp (dstack (RotN ?n)) _ _ _ => stack_call (SRot n)
  | |- wp (dstack (SwapN ?n)) _ _ _ => stack_call (SSwap n)
  | |- wp (dstack (OverN ?n)) _ _ _ => stack_call (SOver n)
  | |- wp (dstack (PickN ?n)) _ _ _ => stack_call (SPick n)
  | |- wp (dstack (RollN ?n)) _ _ _ => stack_call (SRoll n)
  | |- wp (abstractVerify _ _) _ _ _ => unfold abstractVerify
  | |- wp (opcodeEqual _) _ _ _ => unfold opcodeEqual
  | |- wp (opcodeNumEqual _) _ _ _ => unfold opcodeNumEqual
  | |- wp (mthrow _) _ _ _ => apply wp_throw; exact I
  | |- wp (mfail) _ _ _ => apply wp_throw; exact I
  | |- wp (mret _) _ _ _ => apply wp_ret
  | |- wp (mbind _ _) _ _ _ => apply wp_bind
  | |- wp (modify _) _ _ _ => apply wp_modify
  | |- wp (gets _) _ _ _ => apply wp_gets
  | |- wp (if ?b then _ else _) _ _ _ => destruct b eqn:?
  end; cbv beta.

(** The goal after the last call. *)
Ltac framed :=
  solve [repeat match goal with H : dgrow _ _ _ |- _ => destruct H; simpl in * end; split;
    [unfold fixed; simpl; congruence|first [by left|by right]|simpl; lia|unfold total in *; simpl in *; lia
    |by split|done]].

(** The number pushed by an arithmetic handler. *)
Ltac int_ok :=
  solve [rewrite ?int64_small by lia; unfold of_test; repeat case_match; lia].

Ltac start := intros vm Hr; pose proof Hr as [Ht [Hed Hea] Hops Hscript Hinput Hcond].

Ltac handler :=
  start; lazymatch goal with |- wp ?m _ _ _ => let h := get_head m in unfold h end;
  repeat call; try framed; try int_ok.

Section handlers.
Context `{Crypto} `{MapOrder} (op : ParsedOpcode).

Lemma opcode2Drop_safe : handler_safe 3 (opcode2Drop op).
Proof. handler. Qed.
Lemma opcode2Dup_safe : handler_safe 3 (opcode2Dup op).
Proof. handler. Qed.
Lemma opcode3Dup_safe : handler_safe 3 (opcode3Dup op).
Proof. handler. Qed.
Lemma opcode2Over_safe : handler_safe 3 (opcode2Over op).
Proof. handler. Qed.
Lemma opcode2Rot_safe : handler_safe 3 (opcode2Rot op).
Proof. handler. Qed.
Lemma opcode2Swap_safe : handler_safe 3 (opcode2Swap op).
Proof. handler. Qed.
Lemma opcodeDrop_safe : handler_safe 3 (opcodeDrop op).
Proof. handler. Qed.
Lemma opcodeDup_safe : handler_safe 3 (opcodeDup op).
Proof. handler. Qed.
Lemma opcodeNip_safe : handler_safe 3 (opcodeNip op).
Proof. handler. Qed.
Lemma opcodeOver_safe : handler_safe 3 (opcodeOver op).
Proof. handler. Qed.
Lemma opcodePick_safe : handler_safe 3 (opcodePick op).
Proof. handler. Qed.
Lemma opcodeRoll_safe : handler_safe 3 (opcodeRoll op).
Proof. handler. Qed.
Lemma opcodeRot_safe : handler_safe 3 (opcodeRot op).
Proof. handler. Qed.
Lemma opcodeSwap_safe : handler_safe 3 (opcodeSwap op).
Proof. handler. Qed.
Lemma opcodeTuck_safe : handler_safe 3 (opcodeTuck op).
Proof. handler. Qed.
Lemma opcodeDisabled_safe : handler_safe 3 (opcodeDisabled op).
Proof. handler. Qed.
Lemma opcodeReserved_safe : handler_safe 3 (opcodeReserved op).
Proof. handler. Qed.
Lemma opcodeInvalid_safe : handler_safe 3 (opcodeInvalid op).
Proof. handler. Qed.
Lemma opcodeReturn_safe : handler_safe 3 (opcodeReturn op).
Proof. handler. Qed.
Lemma opcodeFalse_safe : handler_safe 3 (opcodeFalse op).
Proof. handler. Qed.
Lemma opcode1Negate_safe : handler_safe 3 (opcode1Negate op).
Proof. handler. Qed.
Lemma opcodeIfDup_safe : handler_safe 3 (opcodeIfDup op).
Proof. handler. Qed.
Lemma opcodeEqual_safe : handler_safe 3 (opcodeEqual op).
Proof. handler. Qed.
Lemma opcodeEqualVerify_safe : handler_safe 3 (opcodeEqualVerify op).
Proof. handler. Qed.
Lemma opcodeVerify_safe : handler_safe 3 (opcodeVerify op).
Proof. handler. Qed.
Lemma opcode1Add_safe : handler_safe 3 (opcode1Add op).
Proof. handler. Qed.
Lemma opcode1Sub_safe : handler_safe 3 (opcode1Sub op).
Proof. handler. Qed.
Lemma opcodeNegate_safe : handler_safe 3 (opcodeNegate op).
Proof. handler. Qed.
Lemma opcodeAbs_safe : handler_safe 3 (opcodeAbs op).
Proof. handler. Qed.
Lemma opcodeNot_safe : handler_safe 3 (opcodeNot op).
Proof. handler. Qed.
Lemma opcode0NotEqual_safe : handler_safe 3 (opcode0NotEqual op).
Proof. handler. Qed.
Lemma opcodeAdd_safe : handler_safe 3 (opcodeAdd op).
Proof. handler. Qed.
Lemma opcodeSub_safe : handler_safe 3 (opcodeSub op).
Proof. handler. Qed.
Lemma opcodeBoolAnd_safe : handler_safe 3 (opcodeBoolAnd op).
Proof. handler. Qed.
Lemma opcodeBoolOr_safe : handler_safe 3 (opcodeBoolOr op).
Proof. handler. Qed.
Lemma opcodeNumEqual_safe : handler_safe 3 (opcodeNumEqual op).
Proof. handler. Qed.
Lemma opcodeNumEqualVerify_safe : handler_safe 3 (opcodeNumEqualVerify op).
Proof. handler. Qed.
Lemma opcodeNumNotEqual_safe : handler_safe 3 (opcodeNumNotEqual op).
Proof. handler. Qed.
Lemma opcodeLessThan_safe : handler_safe 3 (opcodeLessThan op).
Proof. handler. Qed.
Lemma opcodeGreaterThan_safe : handler_safe 3 (opcodeGreaterThan op).
Proof. handler. Qed.
Lemma opcodeLessThanOrEqual_safe : handler_safe 3 (opcodeLessThanOrEqual op).
Proof. handler. Qed.
Lemma opcodeGreaterThanOrEqual_safe : handler_safe 3 (opcodeGreaterThanOrEqual op).
Proof. handler. Qed.
Lemma opcodeMin_safe : handler_safe 3 (opcodeMin op).
Proof. handler. Qed.
Lemma opcodeMax_safe : handler_safe 3 (opcodeMax op).
Proof. handler. Qed.
Lemma opcodeWithin_safe : handler_safe 3 (opcodeWithin op).
Proof. handler. Qed.
Lemma opcodeRipemd160_safe : handler_safe 3 (opcodeRipemd160 op).
Proof. handler. Qed.
Lemma opcodeSha1_safe : handler_safe 3 (opcodeSha1 op).
Proof. handler. Qed.
Lemma opcodeSha256_safe : handler_safe 3 (opcodeSha256 op).
Proof. handler. Qed.
Lemma opcodeHash160_safe : handler_safe 3 (opcodeHash160 op).
Proof. handler. Qed.
Lemma opcodeHash256_safe : handler_safe 3 (opcodeHash256 op).
Proof. handler. Qed.
Lemma opcodeCodeSeparator_safe : handler_safe 3 (opcodeCodeSeparator op).
Proof. handler. Qed.

Lemma opcodePushData_safe : elem_ok (Data op) -> handler_safe 3 (opcodePushData op).
Proof. intros Hop. handler. Qed.

Lemma opcodeN_safe : handler_safe 3 (opcodeN op).
Proof. handler. pose proof (uwrap_range 8 (u8 (Value (Opc op)) - (u8 OP_1 - 1))). lia. Qed.

Lemma opcodeNop_safe : handler_safe 3 (opcodeNop op).
Proof. start. unfold opcodeNop. destruct (Value (Opc op)); repeat call; framed. Qed.

Lemma opcodeDepth_safe : handler_safe 3 (opcodeDepth op).
Proof. handler. pose proof (swrap_range 32 (len (stk (vm_dstack vm)))). unfold Depth. simpl. lia. Qed.

Lemma opcodeSize_safe : handler_safe 3 (opcodeSize op).
Proof. handler. unfold elem_ok, MaxScriptElementSize in *. len_lia. Qed.

Lemma opcodeToAltStack_safe : handler_safe 3 (opcodeToAltStack op).
Proof.
  handler. apply wp_on_field, wp_modify. simpl.
  match goal with H : dgrow _ _ _ |- _ => destruct H end. split; [unfold fixed; simpl; congruence|by left|simpl; lia| | |done].
  - unfold total in *. simpl. len_lia.
  - split; [done|]. simpl. apply Forall_app. split; [done|by constructor].
Qed.

Lemma opcodeFromAltStack_safe : handler_safe 3 (opcodeFromAltStack op).
Proof.
  start. unfold opcodeFromAltStack. apply wp_bind, wp_on_field.
  eapply wp_mono; [apply PopByteArray_wp; unfold total in *; len_lia| |done]. intros so s [E Hm]. rewrite E in Hea.
  apply Forall_app in Hea as [Hs Hso]. apply Forall_inv in Hso.
  call. unfold total in *. rewrite E in *. match goal with H : dgrow _ _ _ |- _ => destruct H; simpl in * end.
  split; [unfold fixed; simpl; congruence|by left|simpl; lia| |by split|done].
  unfold total. simpl. rewrite E. len_lia.
Qed.

(** Conditionals. *)
Lemma push_cond_frame vm vm' c :
  frame 3 vm vm' -> vm_condStack vm' = vm_condStack vm -> cond_wf true (vm_condStack vm ++ [c]) ->
  frame 3 vm (set_condStack (vm_condStack vm' ++ [c]) vm').
Proof. intros [F S O T E C] Ec Hc. split; try done. simpl. by rewrite Ec. Qed.

Lemma popIfBool_safe vm :
  ready vm -> safe popIfBool (fun _ vm' => frame 3 vm vm' /\ vm_condStack vm' = vm_condStack vm) vm.
Proof. revert vm. start. unfold popIfBool. repeat call; (split; [framed|done]). Qed.

Lemma cond_push vm (c : Z) :
  ready vm -> (if isBranchExecuting vm then c = OpCondTrue \/ c = OpCondFalse else c = OpCondSkip) ->
  cond_wf true (vm_condStack vm ++ [c]).
Proof. intros [] Hc. apply cond_wf_snoc. split; [done|]. by rewrite <- isBranchExecuting_all. Qed.

Lemma conditional_safe (f : bool -> Z) :
  (forall b, f b = OpCondTrue \/ f b = OpCondFalse) ->
  handler_safe 3 (vm ← gets id;
    condVal ← (if isBranchExecuting vm then ok ← popIfBool; mret (f ok) else mret OpCondSkip);
    push_cond condVal).
Proof.
  intros Hf. start. call. call. simpl. apply wp_bind. destruct (isBranchExecuting vm) eqn:Eb.
  - apply wp_bind. eapply wp_mono; [by apply popIfBool_safe| |done]. intros b vm' [Hfr Ec].
    apply wp_ret, wp_modify, push_cond_frame; [done|done|]. apply cond_push; [done|by rewrite Eb].
  - apply wp_ret, wp_modify, push_cond_frame; [by eapply frame_mono, frame_refl; [lia|]|done|].
    apply cond_push; [done|by rewrite Eb].
Qed.

Lemma opcodeIf_safe : handler_safe 3 (opcodeIf op).
Proof. apply (conditional_safe (fun ok => if ok then OpCondTrue else OpCondFalse)). intros []; auto. Qed.
Lemma opcodeNotIf_safe : handler_safe 3 (opcodeNotIf op).
Proof. apply (conditional_safe (fun ok => if negb ok then OpCondTrue else OpCondFalse)). intros []; auto. Qed.

(** The innermost condition. *)
Lemma cond_last vm :
  ready vm -> len (vm_condStack vm) <> 0 ->
  exists l c, vm_condStack vm = l ++ [c] /\ cond_wf true l /\ cond_wf true (l ++ [c]) /\
    index (vm_condStack vm) (len (vm_condStack vm) - 1) = Some c /\
    slice_to (vm_condStack vm) (len (vm_condStack vm) - 1) = Some l.
Proof.
  intros [_ _ _ _ _ Hc] Hne. destruct (snoc_inv (vm_condStack vm)) as (l & c & E); [intros E; by rewrite E in Hne|].
  exists l, c. rewrite E in *. pose proof (proj1 (cond_wf_snoc _ _ _) Hc) as [Hl _].
  repeat split; [done|done|apply index_last|]. apply slice_to_app. len_lia.
Qed.

Lemma insert_snoc {A} (l : list A) x y : <[Z.to_nat (len (l ++ [x]) - 1) := y]> (l ++ [x]) = l ++ [y].
Proof.
  replace (Z.to_nat (len (l ++ [x]) - 1)) with (length l + 0)%nat by (rewrite len_app; unfold len; simpl; lia).
  by rewrite insert_app_r.
Qed.

Lemma set_cond_frame vm l : ready vm -> cond_wf true l -> frame 3 vm (set_condStack l vm).
Proof. intros Hr Hl. destruct (frame_mono 0 3 vm vm ltac:(lia) (frame_refl vm Hr)). by split. Qed.

Lemma opcodeElse_safe : handler_safe 3 (opcodeElse op).
Proof.
  start. unfold opcodeElse. call. call. simpl. destruct (Z.eqb_spec (len (vm_condStack vm)) 0); [by apply wp_throw|].
  destruct (cond_last vm) as (l & c & E & Hl & Hc & -> & _); [done|done|]. apply wp_bind, wp_lift. simpl.
  rewrite E. rewrite !insert_snoc. apply cond_wf_snoc in Hc as [_ Hc].
  assert (forall c', c' = OpCondTrue \/ c' = OpCondFalse -> c <> OpCondSkip -> frame 3 vm (set_condStack (l ++ [c']) vm)) as Hset.
  { intros c' Hc' Hns. apply set_cond_frame; [done|]. apply cond_wf_snoc. split; [done|].
    by destruct (true && all_true l). }
  destruct (Z.eqb_spec c OpCondTrue) as [->|]; [apply wp_modify, Hset; [by right|done]|].
  destruct (Z.eqb_spec c OpCondFalse) as [->|]; [apply wp_modify, Hset; [by left|done]|].
  apply wp_ret. by eapply frame_mono, frame_refl; [lia|].
Qed.

Lemma opcodeEndif_safe : handler_safe 3 (opcodeEndif op).
Proof.
  start. unfold opcodeEndif. call. call. simpl. destruct (Z.eqb_spec (len (vm_condStack vm)) 0); [by apply wp_throw|].
  destruct (cond_last vm) as (l & c & E & Hl & Hc & _ & ->); [done|done|]. apply wp_bind, wp_lift. simpl.
  apply wp_modify. by apply set_cond_frame.
Qed.

(** Lock times. *)
Lemma verifyLockTime_no_panic a b c : verifyLockTime a b c <> Panic.
Proof. unfold verifyLockTime. destruct (negb _); [done|]. by destruct (a <? c). Qed.

Lemma wp_lift_safe {A S} (m : outcome scripterr A) (Q : A -> S -> Prop) s :
  m <> Panic -> (forall a, m = Ret a -> Q a s) -> safe (lift m) Q s.
Proof. intros Hm HQ. apply wp_lift. destruct m; auto. Qed.

Lemma peek_locktime_safe vm : ready vm -> safe peek_locktime (fun _ vm' => frame 3 vm vm') vm.
Proof.
  revert vm. start. unfold peek_locktime. call. call. call. call. apply wp_bind, wp_lift_safe; [apply MakeScriptNum_no_panic|].
  intros v Hv. repeat call. framed.
Qed.

Lemma input_index vm : ready vm -> exists ti, index (tx_TxIn (vm_tx vm)) (vm_txIdx vm) = Some ti.
Proof. intros []. by apply index_is_Some. Qed.

Lemma opcodeCheckLockTimeVerify_safe : handler_safe 3 (opcodeCheckLockTimeVerify op).
Proof.
  start. unfold opcodeCheckLockTimeVerify. call. call. simpl. destruct (negb _).
  { repeat call. framed. }
  call. eapply wp_mono; [by apply peek_locktime_safe| |done]. intros v vm' Hf. apply wp_bind.
  apply wp_lift_safe; [apply verifyLockTime_no_panic|]. intros [] _. destruct (input_index vm Hr) as [ti ->].
  apply wp_bind, wp_lift. simpl. by repeat call.
Qed.

Lemma opcodeCheckSequenceVerify_safe : handler_safe 3 (opcodeCheckSequenceVerify op).
Proof.
  start. unfold opcodeCheckSequenceVerify. call. call. simpl. destruct (negb _).
  { repeat call. framed. }
  call. eapply wp_mono; [by apply peek_locktime_safe| |done]. intros v vm' Hf.
  call; [by call|]. call; [by call|]. destruct (input_index vm Hr) as [ti ->].
  apply wp_bind, wp_lift. simpl. call; [by call|].
  apply wp_lift_safe; [apply verifyLockTime_no_panic|done].
Qed.
End handlers.
