(* ===== verification/CheckSafety.v ===== *)
(** Safety of the signature-checking opcodes and of the dispatch: hashing,
    encoding checks and parsing never panic on an input in range, the loop of
    [opcodeCheckMultiSig] stays within its slices and ends, and so executing an
    opcode is safe whatever the opcode is. *)

From S2P Require Import Prelude TxScriptErr Params ScriptNum Stack Opcode Sha Wire ParseScript ScriptBuilder MsgTx MsgTxProps.
From S2P Require Import ScriptUtil SigHash Field Btcec BtcecProps SigCache Engine Handlers Execute EngineSafety.

(** * Calls that return or fail *)

Lemma bind_no_panic {E A B} (m : outcome E A) (f : A -> outcome E B) :
  m <> Panic -> (forall a, m = Ret a -> f a <> Panic) -> (m ≫= f) <> Panic.
Proof. intros Hm Hf. destruct m; [by apply Hf|done|done]. Qed.

Lemma or_panic_no_panic {E A} (o : option A) : is_Some o -> or_panic (E := E) o <> Panic.
Proof. by intros [x ->]. Qed.

Lemma at_no_panic sig i : 0 <= i < len sig -> at_ sig i <> Panic.
Proof.
  intros Hi. apply bind_no_panic; [|done]. by apply or_panic_no_panic, index_is_Some.
Qed.

Ltac no_panic :=
  lazymatch goal with
  | |- mbind _ _ <> Panic => apply bind_no_panic; [|intros]
  | |- mret _ <> Panic => discriminate
  | |- mthrow _ <> Panic => discriminate
  | |- or_panic _ <> Panic => apply or_panic_no_panic
  | |- at_ _ _ <> Panic => apply at_no_panic
  | |- (if ?b then _ else _) <> Panic => destruct b eqn:?
  end; cbv beta zeta.

Lemma slice_to_is_Some {A} (l : list A) hi : 0 <= hi <= len l -> is_Some (slice_to l hi).
Proof. intros. apply slice_is_Some; lia. Qed.
Lemma slice_from_is_Some {A} (l : list A) lo : 0 <= lo <= len l -> is_Some (slice_from l lo).
Proof. intros. apply slice_is_Some; lia. Qed.

Lemma at_range sig i v : at_ sig i = Ret v -> 0 <= v < 256.
Proof. unfold at_. destruct (index sig i) as [b|]; simpl; [|done]. intros [= <-]. apply u8_range. Qed.

Lemma check_asn1_int_no_panic sig ty off n e1 e2 e3 e4 :
  0 <= ty < len sig -> 0 <= off -> 0 <= n -> off + n <= len sig -> check_asn1_int sig ty off n e1 e2 e3 e4 <> Panic.
Proof. intros. unfold check_asn1_int. repeat no_panic; try lia. Qed.

Lemma checkSignatureEncoding_no_panic vm sig : checkSignatureEncoding vm sig <> Panic.
Proof.
  unfold checkSignatureEncoding, minSigLen, maxSigLen.
  repeat first
    [ no_panic
    | match goal with H : at_ _ _ = Ret _ |- _ => apply at_range in H end
    | apply check_asn1_int_no_panic
    | apply slice_is_Some ]; lia.
Qed.

Lemma checkHashTypeEncoding_no_panic vm ht : checkHashTypeEncoding vm ht <> Panic.
Proof. unfold checkHashTypeEncoding. repeat no_panic. Qed.

Lemma checkPubKeyEncoding_no_panic vm pk : checkPubKeyEncoding vm pk <> Panic.
Proof. unfold checkPubKeyEncoding. repeat no_panic. Qed.

Lemma parse_signature_no_panic vm s : parse_signature vm s <> Panic.
Proof.
  unfold parse_signature, ParseDERSignature, ParseSignature.
  pose proof (parseSig_no_panic s true) as H1. pose proof (parseSig_no_panic s false) as H2. revert H1 H2.
  destruct (_ || _), (parseSig s true), (parseSig s false); congruence.
Qed.

Lemma parse_pubkey_no_panic s : parse_pubkey s <> Panic.
Proof. unfold parse_pubkey. pose proof (ParsePubKey_no_panic s) as Hs. revert Hs. destruct (ParsePubKey s); congruence. Qed.

(** A call that returns. *)
Definition gives {E A} (m : outcome E A) : Prop := exists a, m = Ret a.

Lemma gives_ret {E A} (a : A) : gives (E := E) (mret a).
Proof. by exists a. Qed.

Lemma gives_or_panic {E A} (o : option A) : is_Some o -> gives (E := E) (or_panic o).
Proof. intros [x ->]. by exists x. Qed.

Lemma gives_bind {E A B} (m : outcome E A) (f : A -> outcome E B) :
  gives m -> (forall a, m = Ret a -> gives (f a)) -> gives (m ≫= f).
Proof. intros [a ->] Hf. by apply Hf. Qed.

Ltac gives_step :=
  lazymatch goal with
  | |- gives (mbind _ _) => apply gives_bind; [|intros]
  | |- gives (mret _) => apply gives_ret
  | |- gives (or_panic _) => apply gives_or_panic
  | |- gives (if ?b then _ else _) => destruct b eqn:?
  end; cbv beta zeta.

Lemma calcSignatureHash_gives script ht tx idx :
  0 <= idx < len (tx_TxIn tx) -> gives (calcSignatureHash script ht tx idx).
Proof.
  intros Hi. unfold calcSignatureHash. gives_step; [gives_step|]. cbn [tx_TxIn tx_TxOut shallowCopyTx tx_Version tx_LockTime].
  match goal with |- context [zero_sequences idx ?l] => set (ins0 := l) end.
  assert (len ins0 = len (tx_TxIn tx)) as Hl by (unfold ins0; apply len_range_map). clearbody ins0.
  apply gives_bind.
  - repeat gives_step. apply slice_to_is_Some. cbn. destruct (_ && _) eqn:E in Heqb; lia.
  - intros [ins outs] Ho.
    assert (len ins = len ins0) as Hl'.
    { revert Ho. repeat case_match; try (intros [= <- _]; try apply len_range_map; reflexivity).
      unfold mbind, outcome_bind. case_match; intros E; [|discriminate|discriminate]. injection E as <- _. apply len_range_map. }
    repeat gives_step. apply slice_is_Some; lia.
Qed.

Lemma calcWitnessSignatureHash_gives sub sh ht tx idx amt :
  0 <= idx < len (tx_TxIn tx) -> gives (calcWitnessSignatureHash sub (Some sh) ht tx idx amt).
Proof.
  intros Hi. unfold calcWitnessSignatureHash. gives_step; [lia|].
  repeat first [gives_step | by apply index_is_Some | by eexists].
  - unfold isWitnessPubKeyHash in *. apply index_is_Some.
    match goal with H : _ && _ = true |- _ => apply andb_true_iff in H as [? _] end. lia.
  - apply index_is_Some. match goal with H : _ && (_ <? _) = true |- _ => apply andb_true_iff in H as [_ ?] end. lia.
Qed.

Lemma sig_hash_gives script ht vm : 0 <= vm_txIdx vm < len (tx_TxIn (vm_tx vm)) -> gives (sig_hash script ht vm).
Proof.
  intros. unfold sig_hash. destruct (isWitnessVersionActive vm 0);
    [by apply calcWitnessSignatureHash_gives|by apply calcSignatureHash_gives].
Qed.

Lemma sig_hash_no_panic script ht vm : 0 <= vm_txIdx vm < len (tx_TxIn (vm_tx vm)) -> sig_hash script ht vm <> Panic.
Proof. intros Hin. by destruct (sig_hash_gives script ht vm Hin) as [h ->]. Qed.

Lemma subScript_gives vm : ready vm -> gives (subScript vm).
Proof.
  intros [_ _ _ (script & Hs & Hsep & _) _ _]. unfold subScript. rewrite Hs.
  apply gives_bind; [by eexists|]. intros s [= <-]. by apply gives_or_panic, slice_from_is_Some.
Qed.

Lemma subScript_no_panic vm : ready vm -> subScript vm <> Panic.
Proof. intros Hr. by destruct (subScript_gives vm Hr) as [s ->]. Qed.

(** * Handlers *)

Section handlers.
Context `{Crypto} `{MapOrder} (op : ParsedOpcode).

(** Only the cache may change. *)
Lemma verify_cached_safe hash sg pk vm :
  safe (verify_cached hash sg pk) (fun _ vm' => exists c, vm' = set_sigCache c vm) vm.
Proof.
  assert (exists c, vm = set_sigCache c vm) as Hid by (exists (vm_sigCache vm); by destruct vm).
  unfold verify_cached. call. call. simpl. destruct (vm_sigCache vm); [|by call].
  call; [by call|]. call; [|by call]. call. call. call. eauto.
Qed.

Lemma set_sigCache_frame k c vm0 vm : frame k vm0 vm -> frame k vm0 (set_sigCache c vm).
Proof. by intros []; split. Qed.

Lemma push_bool_frame b k vm0 vm1 :
  ready vm1 -> frame k vm0 vm1 -> safe (dstack (PushBool b)) (fun _ vm' => frame (k + 1) vm0 vm') vm1.
Proof.
  assert (handler_safe 1 (dstack (PushBool b))) as Hp by (start; call; framed). intros Hr1 Hf.
  eapply wp_mono; [by apply Hp|intros ? vm2 Hf2; exact (frame_trans _ _ _ _ _ Hf Hf2)|done].
Qed.

Ltac np :=
  lazymatch goal with
  | |- wp (lift ?m) _ _ _ =>
    apply wp_lift_safe;
    [first [apply checkHashTypeEncoding_no_panic | apply checkSignatureEncoding_no_panic
           |apply checkPubKeyEncoding_no_panic | apply parse_signature_no_panic | apply parse_pubkey_no_panic
           |apply sig_hash_no_panic | apply subScript_no_panic
           |apply or_panic_no_panic, index_is_Some | apply or_panic_no_panic, slice_to_is_Some]
    |intros ? ?]
  end.

Ltac opt := lazymatch goal with |- wp (match ?o with _ => _ end) _ _ _ => destruct o as [?|] end.

Lemma opcodeCheckSig_frame : handler_safe (-1) (opcodeCheckSig op).
Proof.
  start. unfold opcodeCheckSig. call. call. call. call. call; [call; framed|]. apply Z.ltb_ge in Heqb.
  call. np; [lia|]. call. np; [lia|]. call. call.
  set (vm2 := set_dstack _ _).
  assert (frame (-2) vm vm2) as Hf2 by (unfold vm2; framed).
  assert (ready vm2) as Hr2 by (by apply (frame_ready (-2) vm); [lia| |]).
  assert (forall b, safe (dstack (PushBool b)) (fun _ vm' => frame (-1) vm vm') vm2) as Hpush.
  { intros b. by apply (push_bool_frame b (-2)). }
  clearbody vm2. do 3 (call; np). call. np; [done|]. call. np; [apply Hr2|]. call. np.
  opt; [|apply Hpush]. call. np. opt; [|apply Hpush].
  call. eapply wp_mono; [apply verify_cached_safe| |done]. intros b vm3 [c ->]. call; [call|].
  apply (push_bool_frame b (-2)); [|by apply set_sigCache_frame].
  apply (frame_ready 0 vm2); [lia|done|]. by apply set_sigCache_frame, frame_refl.
Qed.

Lemma opcodeCheckSig_safe : handler_safe 3 (opcodeCheckSig op).
Proof. intros vm Hr. eapply wp_mono; [by apply opcodeCheckSig_frame| |done]. intros ? vm'. by apply frame_mono. Qed.

(** A handler that removes an item, followed by a verification of its result. *)
Lemma then_verify_safe m e : handler_safe (-1) m -> handler_safe 3 (m;; abstractVerify op e).
Proof.
  assert (handler_safe 3 (abstractVerify op e)) as Hv by handler.
  intros Hm vm Hr. call. eapply wp_mono; [by apply Hm| |done]. intros ? vm1 Hf1.
  assert (ready vm1) as Hr1 by (by apply (frame_ready (-1) vm); [lia| |]).
  eapply wp_mono; [by apply Hv| |done]. intros ? vm2 Hf2. exact (frame_mono (-1 + 3) 3 _ _ ltac:(lia) (frame_trans _ _ _ _ _ Hf1 Hf2)).
Qed.

Lemma opcodeCheckSigVerify_safe : handler_safe 3 (opcodeCheckSigVerify op).
Proof. apply then_verify_safe, opcodeCheckSig_frame. Qed.

Lemma pop_n_safe n vm :
  ready vm -> safe (pop_n n) (fun l vm' => frame (- Z.of_nat n) vm vm' /\ len l = Z.of_nat n) vm.
Proof.
  assert (forall vm0, ready vm0 -> safe (dstack PopByteArray) (fun _ vm' => frame (-1) vm0 vm') vm0) as Hpop.
  { clear vm. start. call. framed. }
  revert vm. induction n as [|n IH]; intros vm Hr; simpl.
  - call. split; [by apply frame_refl|done].
  - call. eapply wp_mono; [by apply Hpop| |done]. intros so vm1 Hf1. call.
    eapply wp_mono; [by apply IH, (frame_ready (-1) vm)| |done]. intros l vm2 [Hf2 Hl]. call.
    split; [|unfold len in *; simpl; lia].
    replace (- Z.of_nat (S n)) with (-1 + - Z.of_nat n) by lia. exact (frame_trans _ _ _ _ _ Hf1 Hf2).
Qed.

Lemma round_signature_no_panic vm si ht sg : round_signature vm si ht sg <> Panic.
Proof.
  unfold round_signature. repeat no_panic; [apply checkHashTypeEncoding_no_panic
    |apply checkSignatureEncoding_no_panic|apply parse_signature_no_panic].
Qed.

Lemma check_round_safe script info key vm :
  0 <= vm_txIdx vm < len (tx_TxIn (vm_tx vm)) ->
  safe (check_round script info key) (fun _ vm' => exists c, vm' = set_sigCache c vm) vm.
Proof.
  intros Hin. assert (exists c, vm = set_sigCache c vm) as Hid by (exists (vm_sigCache vm); by destruct vm).
  unfold check_round. destruct (Z.eqb_spec (len (si_signature info)) 0); [by call|].
  pose proof (len_nonneg (si_signature info)). call. np; [lia|]. call. np; [lia|]. call. call.
  call. apply wp_lift_safe; [apply round_signature_no_panic|]. intros [psg a'] _. cbv beta iota.
  opt; [|by call]. call. np. call. np. opt; [|by call]. call. np; [done|].
  call. eapply wp_mono; [apply verify_cached_safe| |done]. intros b vm3 Hvm. by call.
Qed.

Lemma multisig_loop_safe fuel script pubKeys sigs ns np pi si vm :
  0 <= vm_txIdx vm < len (tx_TxIn (vm_tx vm)) ->
  0 <= ns -> 0 <= np < Z.of_nat fuel -> 0 <= si -> -1 <= pi -> ns + si = len sigs -> np + pi = len pubKeys ->
  safe (multisig_loop fuel script pubKeys sigs ns np pi si) (fun _ vm' => exists c, vm' = set_sigCache c vm) vm.
Proof.
  revert sigs ns np pi si vm. induction fuel as [|fuel IH]; intros sigs ns np pi si vm Hin Hns Hfuel Hsi Hpi Es Ep; [lia|].
  assert (exists c, vm = set_sigCache c vm) as Hid by (exists (vm_sigCache vm); by destruct vm).
  cbn [multisig_loop]. call; [by call|]. call; [by call|].
  apply negb_false_iff, Z.ltb_lt in Heqb. apply Z.ltb_ge in Heqb0.
  call. np; [lia|]. call. np; [lia|]. call. eapply wp_mono; [by apply check_round_safe| |done].
  intros [b a'] vm3 [c ->]. cbv beta iota zeta.
  assert (forall x, len (<[Z.to_nat si := x]> sigs) = len sigs) as Hins by (intros; unfold len; by rewrite length_insert).
  call; (eapply wp_mono; [by apply IH; rewrite ?Hins; simpl; try lia| |done]); intros ? ? [? ->]; eauto.
Qed.

Lemma pop_int_frame k vm0 vm1 :
  k <= 0 -> ready vm0 -> frame k vm0 vm1 -> safe (dstack PopInt) (fun _ vm' => frame (k - 1) vm0 vm') vm1.
Proof.
  assert (forall vm, ready vm -> safe (dstack PopInt) (fun _ vm' => frame (-1) vm vm') vm) as Hp by (start; call; framed).
  intros Hk Hr Hf. eapply wp_mono; [by apply Hp, (frame_ready k vm0)| |done].
  intros ? vm2 Hf2. exact (frame_trans _ _ _ _ _ Hf Hf2).
Qed.

Lemma pop_frame k vm0 vm1 :
  k <= 0 -> ready vm0 -> frame k vm0 vm1 -> safe (dstack PopByteArray) (fun _ vm' => frame (k - 1) vm0 vm') vm1.
Proof.
  assert (forall vm, ready vm -> safe (dstack PopByteArray) (fun _ vm' => frame (-1) vm vm') vm) as Hp
    by (start; call; framed).
  intros Hk Hr Hf. eapply wp_mono; [by apply Hp, (frame_ready k vm0)| |done].
  intros ? vm2 Hf2. exact (frame_trans _ _ _ _ _ Hf Hf2).
Qed.

Lemma pop_n_frame n k vm0 vm1 :
  k <= 0 -> ready vm0 -> frame k vm0 vm1 ->
  safe (pop_n n) (fun l vm' => frame (k - Z.of_nat n) vm0 vm' /\ len l = Z.of_nat n) vm1.
Proof.
  intros Hk Hr Hf. eapply wp_mono; [by apply pop_n_safe, (frame_ready k vm0)| |done].
  intros l vm2 [Hf2 Hl]. split; [exact (frame_trans _ _ _ _ _ Hf Hf2)|done].
Qed.

Lemma opcodeCheckMultiSig_frame : handler_safe (-1) (opcodeCheckMultiSig op).
Proof.
  start. unfold opcodeCheckMultiSig, multisig_verdict. call. call. set (npk := Int32 v). call; [call|]. call; [call|].
  unfold MaxPubKeysPerMultiSig in *. apply Z.ltb_ge in Heqb, Heqb0.
  call. call. call. call. simpl. call; [call|]. apply Z.ltb_ge in Heqb1.
  set (vm1 := set_numOps _ _). assert (frame (-1) vm vm1) as Hf1 by (unfold vm1; framed). clearbody vm1 npk.
  call. eapply wp_mono; [by apply (pop_n_frame _ (-1) vm)| |done]. intros pks vm2 [Hf2 Hpks].
  call. eapply wp_mono; [refine (pop_int_frame _ _ _ _ Hr Hf2); lia| |done]. intros nsigs vm3 Hf3. cbv beta.
  set (ns := Int32 nsigs). call; [call|]. call; [call|]. clearbody ns. apply Z.ltb_ge in Heqb2, Heqb3.
  call. eapply wp_mono; [refine (pop_n_frame _ _ _ _ _ Hr Hf3); lia| |done]. intros sigs vm4 [Hf4 Hsigs].
  call. eapply wp_mono; [refine (pop_frame _ _ _ _ Hr Hf4); lia| |done]. intros dummy vm5 Hf5.
  call. call. simpl. call; [call|]. apply (frame_mono _ (-2)) in Hf5; [|lia].
  assert (ready vm5) as Hr5 by (by apply (frame_ready (-2) vm); [lia| |]).
  call. np; [done|]. call. eapply wp_mono; [apply multisig_loop_safe| |done]; try lia; [apply Hr5| |].
  { unfold len in *. rewrite length_map. lia. }
  intros b vm6 [c ->]. call; [call|]. apply (push_bool_frame b (-2)); [|by apply set_sigCache_frame].
  apply (frame_ready 0 vm5); [lia|done|]. by apply set_sigCache_frame, frame_refl.
Qed.

Lemma opcodeCheckMultiSig_safe : handler_safe 3 (opcodeCheckMultiSig op).
Proof. intros vm Hr. eapply wp_mono; [by apply opcodeCheckMultiSig_frame| |done]. intros ? vm'. by apply frame_mono. Qed.
Lemma opcodeCheckMultiSigVerify_safe : handler_safe 3 (opcodeCheckMultiSigVerify op).
Proof. apply then_verify_safe, opcodeCheckMultiSig_frame. Qed.
End handlers.

(** * Dispatch *)

Create HintDb handlers.
#[export] Hint Resolve opcode2Drop_safe opcode2Dup_safe opcode3Dup_safe opcode2Over_safe opcode2Rot_safe
  opcode2Swap_safe opcodeDrop_safe opcodeDup_safe opcodeNip_safe opcodeOver_safe opcodePick_safe
  opcodeRoll_safe opcodeRot_safe opcodeSwap_safe opcodeTuck_safe opcodeDisabled_safe opcodeReserved_safe
  opcodeInvalid_safe opcodeReturn_safe opcodeFalse_safe opcode1Negate_safe opcodeIfDup_safe opcodeEqual_safe
  opcodeEqualVerify_safe opcodeVerify_safe opcode1Add_safe opcode1Sub_safe opcodeNegate_safe opcodeAbs_safe
  opcodeNot_safe opcode0NotEqual_safe opcodeAdd_safe opcodeSub_safe opcodeBoolAnd_safe opcodeBoolOr_safe
  opcodeNumEqual_safe opcodeNumEqualVerify_safe opcodeNumNotEqual_safe opcodeLessThan_safe
  opcodeGreaterThan_safe opcodeLessThanOrEqual_safe opcodeGreaterThanOrEqual_safe opcodeMin_safe
  opcodeMax_safe opcodeWithin_safe opcodeRipemd160_safe opcodeSha1_safe opcodeSha256_safe opcodeHash160_safe
  opcodeHash256_safe opcodeCodeSeparator_safe opcodePushData_safe opcodeN_safe opcodeNop_safe opcodeDepth_safe
  opcodeSize_safe opcodeToAltStack_safe opcodeFromAltStack_safe opcodeIf_safe opcodeNotIf_safe opcodeElse_safe
  opcodeEndif_safe opcodeCheckLockTimeVerify_safe opcodeCheckSequenceVerify_safe opcodeCheckSig_safe
  opcodeCheckSigVerify_safe opcodeCheckMultiSig_safe opcodeCheckMultiSigVerify_safe : handlers.

Section dispatch.
Context `{Crypto} `{MapOrder}.

Lemma executeOp_safe po :
  (u8 (Value (Opc po)) <= u8 OP_16 -> elem_ok (Data po)) -> handler_safe 3 (executeOp po).
Proof. intros Hd. unfold executeOp. destruct (Value (Opc po)); auto with handlers; (apply opcodePushData_safe, Hd; by vm_compute). Qed.

Lemma popCheckMinimalDataPush_no_panic pop : popCheckMinimalDataPush pop <> Panic.
Proof. unfold popCheckMinimalDataPush. repeat no_panic. Qed.

Lemma count_op_frame vm :
  ready vm -> vm_numOps vm + 1 <= MaxOpsPerScript -> frame 0 vm (set_numOps (vm_numOps vm + 1) vm).
Proof. intros Hr Hn. destruct (frame_refl vm Hr). split; simpl; try done. lia. Qed.

Lemma executeOpcode_safe po : handler_safe 3 (executeOpcode po).
Proof.
  intros vm Hr. unfold executeOpcode. call; [call|]. call; [call|].
  apply safe_bind with (fun _ vm1 => frame 0 vm vm1 /\ (u8 (Value (Opc po)) <= u8 OP_16 -> elem_ok (Data po))).
  - call.
    + apply Z.ltb_lt in Heqb1. call. call. call. call. simpl. call; [call|]. call.
      split; [apply count_op_frame; [done|lia]|lia].
    + call; [call|]. call. split; [by apply frame_refl|]. unfold elem_ok. lia.
  - intros _ vm1 [Hf1 Hdata]. call. call. simpl.
    assert (ready vm1) as Hr1 by (by apply (frame_ready 0 vm); [lia| |]).
    call; [call; by apply (frame_mono 0)|]. apply safe_bind with (fun _ vm2 => vm2 = vm1).
    { call; [|by call]. apply wp_lift_safe; [apply popCheckMinimalDataPush_no_panic|done]. }
    intros _ vm2 ->. eapply wp_mono; [by apply executeOp_safe| |done].
    intros ? vm2 Hf2. exact (frame_trans _ _ _ _ _ Hf1 Hf2).
Qed.

(** A hash of nothing. *)
Lemma hash160_empty po vm :
  Value (Opc po) = OP_HASH160 -> stk (vm_dstack vm) = [] -> vm_condStack vm = [] ->
  wp (executeOpcode po) (fun _ _ => False) (fun _ _ => True) vm.
Proof.
  intros Hv Hd Hc. unfold executeOpcode. call; [call|]. call; [call|]. rewrite Hv.
  apply safe_bind with (fun _ vm1 => stk (vm_dstack vm1) = [] /\ vm_condStack vm1 = []).
  { call; [|done]. call. call. call. call. call; [call|by call]. }
  intros _ vm1 [Hd1 Hc1]. call. call. simpl. unfold isBranchExecuting. rewrite Hc1. simpl.
  call. rewrite andb_false_r. call. unfold executeOp. rewrite Hv. unfold opcodeHash160. call.
  apply wp_on_field. unfold wp. by rewrite PopByteArray_empty.
Qed.
End dispatch.
