(* ===== verification/SigEncoding.v ===== *)
(** The signature encodings that the engine demands (src/txscript/engine.go,
    [checkSignatureEncoding]): exactly the DER layout of two minimal positive
    integers, with a low S when that flag is set; what [Serialize] writes passes. *)

From S2P Require Import Prelude TxScriptErr Params ScriptNum Stack Opcode Sha Wire ParseScript MsgTx.
From S2P Require Import ScriptUtil SigHash Field Btcec BtcecProps SigCache Engine CheckSafety.

Lemma bind_Ret_iff {E A B} (m : outcome E A) (f : A -> outcome E B) b :
  (m ≫= f) = Ret b <-> exists a, m = Ret a /\ f a = Ret b.
Proof.
  split; [|by intros (a & -> & ?)]. destruct m as [a| |]; [by eauto|done|done].
Qed.

Lemma at_split l1 b l2 i : i = len l1 -> at_ (l1 ++ b :: l2) i = Ret (u8 b).
Proof. intros ->. unfold at_. by rewrite index_app_here. Qed.

Lemma at_inv sig i v : at_ sig i = Ret v -> exists l1 b l2, sig = l1 ++ b :: l2 /\ len l1 = i /\ v = u8 b.
Proof.
  unfold at_. destruct (index sig i) as [b|] eqn:E; [|done]. intros [= <-].
  unfold index in E. destruct (Z.leb_spec 0 i); [|done]. apply list_elem_of_split_length in E as (l1 & l2 & -> & Hl).
  exists l1, b, l2. split_and!; [done| |done]. unfold len. lia.
Qed.

(** The checks of one integer. *)
Lemma check_asn1_int_spec pre b post ty off e1 e2 e3 e4 t :
  at_ (pre ++ b ++ post) ty = Ret t -> off = len pre ->
  check_asn1_int (pre ++ b ++ post) ty off (len b) e1 e2 e3 e4 = Ret () <-> t = asn1IntegerID /\ der_int b = true.
Proof.
  intros Ht ->. unfold check_asn1_int. rewrite Ht. simpl.
  destruct (Z.eqb_spec t asn1IntegerID); simpl; [|by split; [|intros []]].
  destruct b as [|b0 b]; [by split; [|intros []]|]. destruct (Z.eqb_spec (len (b0 :: b)) 0); [len_lia|].
  change ((b0 :: b) ++ post) with (b0 :: (b ++ post)). rewrite (at_split pre b0 (b ++ post) (len pre)) by done. simpl.
  pose proof (u8_range b0). rewrite land_128_byte by done.
  destruct (Z.ltb_spec (u8 b0) 128); simpl; [|by split; [|intros []]]. rewrite len_cons.
  destruct b as [|b1 b]; [by rewrite andb_false_r|].
  assert ((1 <? 1 + len (b1 :: b)) = true) as -> by (apply Z.ltb_lt; len_lia). simpl.
  destruct (Z.eqb_spec (u8 b0) 0); simpl; [|by split].
  replace (pre ++ b0 :: b1 :: b ++ post) with ((pre ++ [b0]) ++ b1 :: (b ++ post)) by (by rewrite <- app_assoc).
  rewrite at_split by len_lia. simpl. pose proof (u8_range b1). rewrite land_128_byte by done.
  by destruct (Z.ltb_spec (u8 b1) 128); simpl; [split; [|intros []]|].
Qed.

(** * The whole check *)

Definition encoding_demanded (vm : Engine) : bool :=
  hasFlag vm ScriptVerifyDERSignatures || hasFlag vm ScriptVerifyLowS || hasFlag vm ScriptVerifyStrictEncoding.

(** The signatures that are let through. *)
Definition strict_der (vm : Engine) (sig : bytes) : Prop :=
  exists rb sb, sig = der_sig rb sb /\ der_int rb = true /\ der_int sb = true /\ len rb + len sb <= 66 /\
    (hasFlag vm ScriptVerifyLowS = true -> be_combine sb <= halfOrder).

Lemma der_int_len b : der_int b = true -> 1 <= len b.
Proof. destruct b; [done|]. intros _. len_lia. Qed.

(** The layout of a signature whose lengths add up. *)
Lemma sig_layout sig a1 rLen sLen :
  at_ sig 0 = Ret asn1SequenceID -> at_ sig 1 = Ret a1 -> a1 = len sig - 2 -> at_ sig 3 = Ret rLen ->
  5 + rLen < len sig -> at_ sig (5 + rLen) = Ret sLen -> 6 + rLen + sLen = len sig ->
  exists a2 a4 rb sb, sig = [to_byte 0x30; to_byte a1; a2; to_byte rLen] ++ rb ++ [a4; to_byte sLen] ++ sb /\
    len rb = rLen /\ len sb = sLen.
Proof.
  intros H0 H1 E1 H3 Hl H5 E5. destruct sig as [|b0 [|b1 [|b2 [|b3 s]]]]; try discriminate H3.
  injection H0 as H0. injection H1 as H1. injection H3 as H3. pose proof (u8_range b3).
  destruct (split_at_len s rLen) as (rb & t & -> & Hrb); [len_lia|].
  destruct t as [|a4 [|a5 sb]]; try len_lia.
  change (b0 :: b1 :: b2 :: b3 :: rb ++ a4 :: a5 :: sb) with ([b0; b1; b2; b3] ++ rb ++ [a4] ++ a5 :: sb) in *.
  rewrite (app_assoc rb), (app_assoc [b0; b1; b2; b3]) in H5. rewrite at_split in H5 by len_lia. injection H5 as H5.
  exists b2, a4, rb, sb. pose proof (u8_range b1). pose proof (u8_range a5).
  rewrite <- (u8_is b0 0x30), <- (u8_is b1 a1), <- (u8_is b3 rLen), <- (u8_is a5 sLen) by (lia || done).
  split_and!; [done|done|]. len_lia.
Qed.

(** ** A signature of the right layout *)

Section layout.
Context (a2 a4 : byte) (rb sb : bytes) (Hlen : 2 <= len rb + len sb <= 66).

Let hd := [to_byte 0x30; to_byte (4 + len rb + len sb); a2; to_byte (len rb)].
Let mid := [a4; to_byte (len sb)].
Let sig := hd ++ rb ++ mid ++ sb.

Lemma layout_len : len sig = 6 + len rb + len sb.
Proof. unfold sig, hd, mid. len_lia. Qed.

Lemma layout_head :
  at_ sig 0 = Ret 0x30 /\ at_ sig 1 = Ret (4 + len rb + len sb) /\ at_ sig 2 = Ret (u8 a2) /\ at_ sig 3 = Ret (len rb).
Proof.
  pose proof (len_nonneg rb). pose proof (len_nonneg sb). unfold sig, hd, at_. simpl. by rewrite !u8_to_byte by lia.
Qed.

Lemma layout_mid : at_ sig (4 + len rb) = Ret (u8 a4) /\ at_ sig (4 + len rb + 1) = Ret (len sb).
Proof.
  pose proof (len_nonneg rb). pose proof (len_nonneg sb). unfold sig, mid. rewrite app_assoc. split.
  - change ([a4; to_byte (len sb)] ++ sb) with (a4 :: to_byte (len sb) :: sb). apply at_split. unfold hd. len_lia.
  - replace ((hd ++ rb) ++ [a4; to_byte (len sb)] ++ sb) with (((hd ++ rb) ++ [a4]) ++ to_byte (len sb) :: sb)
      by (by rewrite <- !app_assoc).
    rewrite at_split by (unfold hd; len_lia). by rewrite u8_to_byte by lia.
Qed.

Lemma layout_S : sig = (hd ++ rb ++ mid) ++ sb ++ [] /\ len (hd ++ rb ++ mid) = 4 + len rb + 1 + 1.
Proof. unfold sig, hd, mid. split; [by rewrite app_nil_r, <- !app_assoc|len_lia]. Qed.

Lemma layout_ints e1 e2 e3 e4 f1 f2 f3 f4 :
  (check_asn1_int sig 2 4 (len rb) e1 e2 e3 e4;;
   check_asn1_int sig (4 + len rb) (4 + len rb + 1 + 1) (len sb) f1 f2 f3 f4) = Ret () <->
  u8 a2 = 2 /\ der_int rb = true /\ u8 a4 = 2 /\ der_int sb = true.
Proof.
  destruct layout_head as (_ & _ & A2 & _), layout_mid as [A4 _], layout_S as [Es Hl].
  pose proof (check_asn1_int_spec hd rb (mid ++ sb) 2 4 e1 e2 e3 e4 (u8 a2) A2 eq_refl) as HR.
  rewrite Es in A4. pose proof (check_asn1_int_spec _ sb [] _ (4 + len rb + 1 + 1) f1 f2 f3 f4 (u8 a4) A4 ltac:(lia)) as HS.
  rewrite <- Es in HS. fold sig in HR. rewrite bind_Ret_iff. unfold asn1IntegerID in *.
  split; [intros ([] & E1 & E2)|intros (? & ? & ? & ?); exists ()]; intuition.
Qed.

Lemma check_layout vm :
  encoding_demanded vm = true ->
  checkSignatureEncoding vm sig = Ret () <->
  u8 a2 = 2 /\ der_int rb = true /\ u8 a4 = 2 /\ der_int sb = true /\
  (hasFlag vm ScriptVerifyLowS = true -> be_combine sb <= halfOrder).
Proof.
  intros Hf. pose proof (len_nonneg rb). pose proof (len_nonneg sb).
  destruct layout_head as (A0 & A1 & _ & A3), layout_mid as [_ A5], layout_S as [Es Hls].
  assert (slice sig (4 + len rb + 1 + 1) (4 + len rb + 1 + 1 + len sb) = Some sb) as Hsl by (rewrite Es; apply slice_seam; lia).
  pose proof (layout_ints ErrSigInvalidRIntID ErrSigZeroRLen ErrSigNegativeR ErrSigTooMuchRPadding
    ErrSigInvalidSIntID ErrSigZeroSLen ErrSigNegativeS ErrSigTooMuchSPadding) as Hints.
  pose proof layout_len as Hl. clearbody sig.
  unfold checkSignatureEncoding, minSigLen, maxSigLen, asn1SequenceID. unfold encoding_demanded in Hf.
  assert (negb (hasFlag vm ScriptVerifyDERSignatures) && negb (hasFlag vm ScriptVerifyLowS) &&
     negb (hasFlag vm ScriptVerifyStrictEncoding) = false) as ->.
  { by destruct (hasFlag vm ScriptVerifyDERSignatures), (hasFlag vm ScriptVerifyLowS), (hasFlag vm ScriptVerifyStrictEncoding). }
  rewrite Hl, A0, A1, A3. destruct (Z.ltb_spec (6 + len rb + len sb) 8), (Z.ltb_spec 72 (6 + len rb + len sb)); try lia.
  cbn [mbind outcome_bind]. destruct (Z.eqb_spec 48 48); [|done]. cbn [negb].
  destruct (Z.eqb_spec (4 + len rb + len sb) (6 + len rb + len sb - 2)); [|lia]. cbn [negb].
  destruct (Z.leb_spec (6 + len rb + len sb) (4 + len rb)), (Z.leb_spec (6 + len rb + len sb) (4 + len rb + 1)); try lia.
  rewrite A5. cbn [mbind outcome_bind]. destruct (Z.eqb_spec (4 + len rb + 1 + 1 + len sb) (6 + len rb + len sb)); [|lia].
  cbn [negb]. rewrite Hsl. revert Hints. generalize (check_asn1_int sig 2 4 (len rb) ErrSigInvalidRIntID ErrSigZeroRLen ErrSigNegativeR ErrSigTooMuchRPadding).
  generalize (check_asn1_int sig (4 + len rb) (4 + len rb + 1 + 1) (len sb) ErrSigInvalidSIntID ErrSigZeroSLen ErrSigNegativeS ErrSigTooMuchSPadding).
  intros mS mR Hints. transitivity ((mR;; mS) = Ret () /\ (hasFlag vm ScriptVerifyLowS = true -> be_combine sb <= halfOrder)); [|tauto].
  destruct mR as [[]| |]; [|by split; [|intros []]..]. destruct mS as [[]| |]; [|by split; [|intros []]..]. simpl.
  destruct (hasFlag vm ScriptVerifyLowS); [|by split]. unfold bigSetBytes.
  destruct (Z.ltb_spec halfOrder (be_combine sb)).
  - split; [discriminate|]. intros [_ Hx]. specialize (Hx eq_refl). lia.
  - split; [|reflexivity]. by intros _.
Qed.
End layout.

(** A signature that passes has the layout. *)
Lemma check_gives_layout vm sig :
  encoding_demanded vm = true -> checkSignatureEncoding vm sig = Ret () ->
  exists a2 a4 rb sb, 2 <= len rb + len sb <= 66 /\
    sig = [to_byte 0x30; to_byte (4 + len rb + len sb); a2; to_byte (len rb)] ++ rb ++ [a4; to_byte (len sb)] ++ sb.
Proof.
  intros Hf. unfold checkSignatureEncoding, minSigLen, maxSigLen. unfold encoding_demanded in Hf.
  destruct (negb _ && _ && _) eqn:En.
  { by destruct (hasFlag vm ScriptVerifyDERSignatures), (hasFlag vm ScriptVerifyLowS), (hasFlag vm ScriptVerifyStrictEncoding). }
  destruct (Z.ltb_spec (len sig) 8); [done|]. destruct (Z.ltb_spec 72 (len sig)); [done|].
  intros (s0 & A0 & H1)%bind_Ret_iff. destruct (Z.eqb_spec s0 asn1SequenceID) as [->|]; [|done]. cbn [negb] in H1.
  apply bind_Ret_iff in H1 as (a1 & A1 & H1). destruct (Z.eqb_spec a1 (len sig - 2)) as [E1|]; [|done]. cbn [negb] in H1.
  apply bind_Ret_iff in H1 as (rLen & A3 & H1).
  destruct (Z.leb_spec (len sig) (4 + rLen)); [done|]. destruct (Z.leb_spec (len sig) (4 + rLen + 1)); [done|].
  apply bind_Ret_iff in H1 as (sLen & A5 & H1). destruct (Z.eqb_spec (4 + rLen + 1 + 1 + sLen) (len sig)); [|done].
  replace (4 + rLen + 1) with (5 + rLen) in A5 by lia.
  destruct (sig_layout sig a1 rLen sLen) as (a2 & a4 & rb & sb & -> & Hrb & Hsb); try done; try lia.
  exists a2, a4, rb, sb. split; [lia|]. by replace (4 + len rb + len sb) with a1 by lia; rewrite Hrb, Hsb.
Qed.

(** C18: under the flags that demand an encoding, the check of any byte string returns or
    fails, without an index out of range.  It returns exactly when the string is the DER
    sequence of two integers that are not negative and have no superfluous leading zero,
    of at most 72 bytes, with S at most half the order under the low-S flag; and what
    [Serialize] writes for a signature in range always passes. *)
Theorem signature_encoding_spec (vm : Engine) (sig : bytes) (Hf : encoding_demanded vm = true) :
  (checkSignatureEncoding vm sig = Ret () <-> strict_der vm sig) /\
  (~ strict_der vm sig <-> exists e, checkSignatureEncoding vm sig = Throw e) /\
  checkSignatureEncoding vm sig <> Panic /\
  forall sg, 1 <= sig_R sg < curve_N -> 1 <= sig_S sg < curve_N ->
    checkSignatureEncoding vm (Signature_Serialize sg) = Ret ().
Proof.
  assert (forall sig, strict_der vm sig -> checkSignatureEncoding vm sig = Ret ()) as Hcomp.
  { intros s (rb & sb & -> & Hr & Hs & Hlen & Hlow). pose proof (der_int_len rb Hr). pose proof (der_int_len sb Hs).
    apply (check_layout (to_byte 0x02) (to_byte 0x02) rb sb ltac:(lia) vm Hf). by rewrite !u8_to_byte by lia. }
  assert (checkSignatureEncoding vm sig = Ret () -> strict_der vm sig) as Hsound.
  { intros Hc. destruct (check_gives_layout vm sig Hf Hc) as (a2 & a4 & rb & sb & Hlen & ->).
    apply check_layout in Hc as (E2 & Hr & E4 & Hs & Hlow); [|done|done]. exists rb, sb.
    rewrite (u8_is a2 2), (u8_is a4 2) by (lia || done). split_and!; try done. lia. }
  split; [by split; [|apply Hcomp]|]. split; [|split; [apply checkSignatureEncoding_no_panic|]].
  - pose proof (checkSignatureEncoding_no_panic vm sig) as Hp. specialize (Hcomp sig).
    destruct (checkSignatureEncoding vm sig) as [[]|e|]; [|by split; [eauto|intros _ ?%Hcomp]|done].
    split; [by intros []; apply Hsound|by intros [e ?]].
  - intros sg HR HS. apply Hcomp. rewrite Serialize_der. pose proof (low_s_range sg HS) as Hls.
    assert (curve_N < 2 ^ 256 /\ curve_halfOrder < 2 ^ 256) as [HN Hh] by (split; vm_compute; reflexivity).
    destruct (canonicalizeInt_spec (sig_R sg)) as (D1 & _ & L1); [lia|].
    destruct (canonicalizeInt_spec (sig_S (low_s sg))) as (D2 & V2 & L2); [lia|].
    eexists _, _. split; [reflexivity|]. split_and!; [done|done|lia|]. intros _. rewrite V2. apply Hls.
Qed.

Definition sample_strict : Engine :=
  mkEngine [] 0 0 0 (mkStack [] false) (mkStack [] false) (mkMsgTx 1 [] [] 0 []) 0 []  0
    (ScriptVerifyDERSignatures ||| ScriptVerifyLowS) None None false [] 0 None 0.

Lemma signature_encoding_spec_witness :
  strict_der sample_strict (der_sig [Byte.x05] [Byte.x07]) /\
  checkSignatureEncoding sample_strict (Signature_Serialize (mkSig 5 (curve_N - 7))) = Ret ().
Proof.
  split.
  - apply (proj1 (signature_encoding_spec sample_strict (der_sig [Byte.x05] [Byte.x07]) eq_refl)). reflexivity.
  - apply (proj2 (proj2 (proj2 (signature_encoding_spec sample_strict [] eq_refl)))); split; vm_compute; done.
Defined.
