(* ===== verification/EngineInv.v ===== *)
(** The invariant of script execution: in every state that [Step] reaches from
    an engine built by [NewEngine] the limits of the consensus rules hold, the
    program counter is valid until the execution is done, and every step brings
    the end nearer.  So [Execute] returns within [max_steps] steps, without a
    panic, whatever scripts, witness and flags it is given. *)

From S2P Require Import Prelude TxScriptErr Params ScriptNum Stack Opcode Sha Wire ParseScript ScriptBuilder MsgTx MsgTxProps.
From S2P Require Import ScriptUtil SigHash Field Btcec BtcecProps SigCache Engine Handlers Execute EngineSafety CheckSafety.

(** * Whole stacks *)

Lemma Depth_small s : len (stk s) < 2 ^ 29 -> Depth s = len (stk s).
Proof. intros. unfold Depth. apply int32_small. pose proof (len_nonneg (stk s)). lia. Qed.

Lemma getStack_spec s : len (stk s) < 2 ^ 29 -> getStack s = stk s.
Proof.
  intros Hs. unfold getStack. rewrite Depth_small by done.
  assert (forall l1 l2, stk s = l1 ++ l2 ->
    map (fun i => match fst (PeekByteArray (int32 (Z.of_nat i)) s) with Ret so => so | _ => [] end) (seq 0 (length l2)) = rev l2)
    as Hp.
  { intros l1 l2. revert l1. induction l2 as [|x l2 IH]; intros l1 E; [done|].
    simpl length. rewrite seq_S, map_app, (IH (l1 ++ [x])) by (by rewrite <- app_assoc). simpl. f_equal.
    assert (len l2 < 2 ^ 29) by (rewrite E in Hs; rewrite len_app, len_cons in Hs; pose proof (len_nonneg l1); lia).
    rewrite int32_small by (unfold len in *; lia).
    replace (Z.of_nat (length l2)) with (len l2) by done.
    rewrite (PeekByteArray_split s l1 x l2); [done|done|unfold stack_small; lia]. }
  unfold len. rewrite Nat2Z.id, (Hp []) by done. apply rev_involutive.
Qed.

Lemma push_all_spec data s : push_all data s = (Ret (), set_stk (stk s ++ data) s).
Proof.
  revert s. induction data as [|so data IH]; intros s; simpl.
  - rewrite app_nil_r. by destruct s.
  - unfold PushByteArray. erewrite bind_Ret by reflexivity. rewrite IH. simpl. by rewrite <- app_assoc.
Qed.

(** [DropN(Depth())] empties a stack; its error on an empty one is dropped. *)
Lemma clear_spec s : len (stk s) < 2 ^ 29 -> ignore_err (DropN (Depth s)) s = (Ret (), set_stk [] s).
Proof.
  intros Hs. rewrite Depth_small by done. pose proof (len_nonneg (stk s)).
  pose proof (op_refines_all s Hs (SDrop (len (stk s)))) as Href. unfold op_refines in Href. simpl in Href.
  unfold ignore_err. destruct (Z.ltb_spec (len (stk s)) 1).
  - assert (stk s = []) as E by (apply length_zero_iff_nil; unfold len in *; lia).
    assert (DropN (len (stk s)) s = (Throw ErrInvalidStackOperation, s)) as -> by (rewrite E; reflexivity).
    by destruct s; simpl in *; subst.
  - unfold split_top in Href. destruct (Z.leb_spec 0 (len (stk s))), (Z.leb_spec (len (stk s)) (len (stk s))); try lia.
    simpl in Href. rewrite Href by (unfold op_small; simpl; lia).
    unfold len. by rewrite Nat2Z.id, Nat.sub_diag, take_0.
Qed.

Lemma setStack_spec data s : len (stk s) < 2 ^ 29 -> setStack data s = (Ret (), set_stk data s).
Proof.
  intros Hs. unfold setStack. erewrite bind_Ret by reflexivity. erewrite bind_Ret by (by apply clear_spec).
  by rewrite push_all_spec.
Qed.

(** * Parsing *)

Lemma or_panic_Ret {E A} (o : option A) x : or_panic (E := E) o = Ret x -> o = Some x.
Proof. destruct o; [|done]. by intros [= ->]. Qed.

Lemma Forall_index {A} (P : A -> Prop) l i x : Forall P l -> index l i = Some x -> P x.
Proof. unfold index. destruct (0 <=? i); [|done]. intros Hl Hx. by eapply Forall_lookup_1. Qed.

Lemma parse_count_le script pops : parse script = Ret pops -> len pops <= len script.
Proof.
  unfold parse. pose proof (parse_count script) as Hc. revert Hc.
  destruct (ParseScript script) as [ps [e|]]; simpl; [done|]. by intros ? [= <-].
Qed.

Lemma parse_no_panic script : parse script <> Panic.
Proof. unfold parse. by destruct (ParseScript script) as [ps [e|]]. Qed.

Lemma payToPubKeyHashScript_spec h :
  len h = 20 ->
  payToPubKeyHashScript h = Ret ([OP_DUP; OP_HASH160; OP_DATA_20] ++ h ++ [OP_EQUALVERIFY; OP_CHECKSIG]).
Proof.
  intros Hh. assert (length h = 20%nat) as Hl by (unfold len in Hh; lia).
  do 20 (destruct h as [|? h]; [done|]). destruct h; [|done]. reflexivity.
Qed.

(** * Witness programs *)

Section inv.
Context `{Crypto} `{MapOrder}.

Definition install (vm : Engine) (pops : list ParsedOpcode) (l : list bytes) : Engine :=
  set_dstack (set_stk l (vm_dstack vm)) (set_scripts (vm_scripts vm ++ [pops]) vm).

Lemma append_wp {Q : () -> Engine -> Prop} vm script k :
  (forall pops, len pops <= len script -> safe k Q (set_scripts (vm_scripts vm ++ [pops]) vm)) ->
  safe (pops ← lift (parse script); append_pops pops;; k) Q vm.
Proof.
  intros HQ. call. apply wp_lift_safe; [apply parse_no_panic|]. intros pops Hp%parse_count_le.
  apply wp_bind, wp_modify. by apply HQ.
Qed.

Lemma SetStack_wp (Q : () -> Engine -> Prop) vm l :
  len (stk (vm_dstack vm)) < 2 ^ 29 -> Q () (set_dstack (set_stk l (vm_dstack vm)) vm) -> safe (SetStack l) Q vm.
Proof. intros Hd HQ. apply wp_on_field. unfold wp. by rewrite setStack_spec. Qed.

Lemma install_program_wp program w vm :
  len (stk (vm_dstack vm)) < 2 ^ 29 -> len w < 2 ^ 29 ->
  safe (install_program program w)
    (fun _ vm' => exists pops l, vm' = install vm pops l /\ len pops <= MaxScriptSize /\ len l <= len w) vm.
Proof.
  intros Hd Hw. unfold install_program. call.
  - call; [call|]. apply Z.eqb_eq in Heqb. rewrite payToPubKeyHashScript_spec by done.
    call. apply wp_lift. apply append_wp. intros pops Hp. apply SetStack_wp; [done|].
    exists pops, w. split; [done|]. split; [|lia]. revert Hp. unfold MaxScriptSize, PayToWitnessPubKeyHashDataSize in *. len_lia.
  - call; [|call]. call; [call|]. destruct (snoc_inv w) as (l & ws & ->); [by intros ->|].
    rewrite index_last. call. apply wp_lift. cbn [or_panic].
    call; [call|]. apply Z.ltb_ge in Heqb2. cbv zeta. call; [call|].
    apply append_wp. intros pops Hp. rewrite (slice_to_app l) by len_lia. call. apply wp_lift. cbn [or_panic].
    apply SetStack_wp; [done|]. exists pops, l. split; [done|]. split; [lia|len_lia].
Qed.

Lemma verifyWitnessProgram_wp w vm :
  len (stk (vm_dstack vm)) < 2 ^ 29 -> len w < 2 ^ 29 ->
  safe (verifyWitnessProgram w) (fun _ vm' =>
    vm' = set_witnessProgram None vm \/
    exists pops l, vm' = install vm pops l /\ len pops <= MaxScriptSize /\ len l <= len w /\ Forall elem_ok l) vm.
Proof.
  intros Hd Hw. unfold verifyWitnessProgram. call. call. cbn [id].
  apply safe_bind with (fun _ vm' =>
    if isWitnessVersionActive vm 0
    then exists pops l, vm' = install vm pops l /\ len pops <= MaxScriptSize /\ len l <= len w
    else vm' = set_witnessProgram None vm).
  - destruct (isWitnessVersionActive vm 0) eqn:Ea; [|by repeat call].
    unfold isWitnessVersionActive in Ea. destruct (vm_witnessProgram vm) as [program|]; [|done].
    call. apply wp_lift. by apply install_program_wp.
  - intros _ vm' Hvm'. call. call. cbn [id]. destruct (isWitnessVersionActive vm 0) eqn:Ea.
    + destruct Hvm' as (pops & l & -> & Hp & Hl).
      change (isWitnessVersionActive (install vm pops l) 0) with (isWitnessVersionActive vm 0). rewrite Ea.
      unfold GetStack. rewrite getStack_spec by (simpl; lia). call; [call|]. call. right.
      exists pops, l. split_and!; [done..|]. apply Forall_forall. intros so Hso. unfold elem_ok.
      destruct (Z.ltb_spec MaxScriptElementSize (len so)) as [Hlt|]; [|lia].
      exfalso. apply Bool.not_true_iff_false in Heqb. apply Heqb, existsb_exists. exists so. split; [done|]. by apply Z.ltb_lt.
    + rewrite Hvm'. change (isWitnessVersionActive (set_witnessProgram None vm) 0) with false. apply wp_ret. by left.
Qed.

(** * The invariant *)

(** The scripts and the input. *)
Record setup (vm : Engine) : Prop := {
  su_lens : Forall (fun script : list ParsedOpcode => len script <= MaxScriptSize) (vm_scripts vm);
  su_input : exists ti, index (tx_TxIn (vm_tx vm)) (vm_txIdx vm) = Some ti /\ len (witness ti) <= maxWitnessItemsPerInput;
  su_p2sh : vm_bip16 vm = true -> exists script, index (vm_scripts vm) 1 = Some script /\ isScriptHash script = true;
  su_count : 2 <= len (vm_scripts vm) <= Z.max 2 (vm_scriptIdx vm + 1);
  su_max : len (vm_scripts vm) <= 4;
  su_idx : 0 <= vm_scriptIdx vm <= len (vm_scripts vm)
}.

(** The limits of the consensus rules.  A witness may bring more items than the
    stacks may have after an opcode. *)
Record limits (vm : Engine) : Prop := {
  li_total : total vm <= MaxStackSize \/
    vm_scriptOff vm = 0 /\ 2 <= vm_scriptIdx vm /\ total vm <= maxWitnessItemsPerInput;
  li_elems : elems_ok vm;
  li_ops : 0 <= vm_numOps vm <= MaxOpsPerScript;
  li_cond : cond_wf true (vm_condStack vm)
}.

(** The stack that a pay-to-script-hash execution goes back to.  When it is
    empty the public key script has not started, and fails on its first opcode. *)
Definition saved_ok (vm : Engine) : Prop :=
  vm_bip16 vm = true -> vm_scriptIdx vm = 1 ->
  Forall elem_ok (vm_savedFirstStack vm) /\ len (vm_savedFirstStack vm) <= MaxStackSize /\
  (vm_savedFirstStack vm = [] -> vm_scriptOff vm = 0 /\ stk (vm_dstack vm) = [] /\ vm_condStack vm = []).

Definition finished (vm : Engine) : bool := len (vm_scripts vm) <=? vm_scriptIdx vm.

Definition pc_ok (vm : Engine) : Prop :=
  finished vm = false -> exists script, index (vm_scripts vm) (vm_scriptIdx vm) = Some script /\
    0 <= vm_scriptOff vm < len script /\ 0 <= vm_lastCodeSep vm <= len script.

Record inv (vm : Engine) : Prop := {
  inv_setup : setup vm; inv_limits : limits vm; inv_saved : saved_ok vm; inv_pc : pc_ok vm
}.

(** The steps left: no script has more opcodes than the bytes that it may have. *)
Definition steps_left (vm : Engine) : Z := MaxScriptSize * (4 - vm_scriptIdx vm) - vm_scriptOff vm.

Lemma inv_script vm :
  inv vm -> finished vm = false ->
  exists script op, index (vm_scripts vm) (vm_scriptIdx vm) = Some script /\ len script <= MaxScriptSize /\
    index script (vm_scriptOff vm) = Some op /\ 0 <= vm_scriptOff vm < len script /\ 0 <= vm_lastCodeSep vm <= len script.
Proof.
  intros [[Hl _ _ _ _ _] _ _ Hpc] Hf. destruct (Hpc Hf) as (script & Hs & Ho & Hc).
  destruct (index_is_Some script (vm_scriptOff vm)) as [o Hop]; [done|]. exists script, o.
  split_and!; try done; try lia. exact (Forall_index _ _ _ _ Hl Hs).
Qed.

(** ** An opcode *)

Definition advanced (vm : Engine) : Engine := set_scriptOff (vm_scriptOff vm + 1) vm.

Lemma inv_total vm : inv vm -> total vm <= maxWitnessItemsPerInput.
Proof. intros [_ [[?|(_ & _ & ?)] _ _ _] _ _]; unfold MaxStackSize, maxWitnessItemsPerInput in *; lia. Qed.

Lemma inv_ready vm : inv vm -> finished vm = false -> ready (advanced vm).
Proof.
  intros Hinv Hf. destruct (inv_script vm Hinv Hf) as (script & o & Hs & _ & _ & Ho & Hc).
  pose proof (inv_total vm Hinv) as Ht. destruct Hinv as [[_ (ti & Hti & _) _ _ _ _] [_ He Hn Hcd] _ _].
  unfold maxWitnessItemsPerInput in Ht. split; simpl; try done.
  - change (total (advanced vm)) with (total vm). lia.
  - exists script. split; [done|]. lia.
  - by apply index_Some_lt in Hti.
Qed.

(** In pay-to-script-hash the first opcode of the public key script needs an item. *)
Lemma opcode_executed vm o script :
  inv vm -> finished vm = false -> index (vm_scripts vm) (vm_scriptIdx vm) = Some script ->
  index script (vm_scriptOff vm) = Some o ->
  safe (executeOpcode o) (fun _ vm' => frame 3 (advanced vm) vm' /\
    (vm_bip16 vm = true -> vm_scriptIdx vm = 1 -> vm_savedFirstStack vm <> [])) (advanced vm).
Proof.
  intros Hinv Hf Hs Ho. pose proof (executeOpcode_safe o _ (inv_ready vm Hinv Hf)) as Hsafe.
  destruct (decide (vm_bip16 vm = true /\ vm_scriptIdx vm = 1 /\ vm_savedFirstStack vm = [])) as [(Hb & Hi & He)|Hno].
  - destruct Hinv as [[_ _ Hp2sh _ _ _] _ Hsaved _]. destruct (Hsaved Hb Hi) as (_ & _ & Hsv).
    destruct (Hsv He) as (Hoff & Hd & Hc). destruct (Hp2sh Hb) as (script' & Hs' & Hsh).
    rewrite Hi, Hs' in Hs. injection Hs as <-. rewrite Hoff in Ho.
    eapply wp_mono; [apply hash160_empty; [|done|done]|done|done].
    unfold isScriptHash in Hsh. apply andb_true_iff in Hsh as [[[_ Hsh]%andb_true_iff _]%andb_true_iff _].
    unfold op_is in Hsh. rewrite Ho in Hsh. by apply bool_decide_eq_true in Hsh.
  - eapply wp_mono; [exact Hsafe| |done]. intros ? vm' Hfr. split; [exact Hfr|]. intros ? ? ?. by apply Hno.
Qed.

(** ** The end of a script *)

Record ended (vm : Engine) : Prop := {
  en_setup : setup vm;
  en_running : vm_scriptIdx vm < len (vm_scripts vm);
  en_total : total vm <= MaxStackSize;
  en_elems : elems_ok vm;
  en_saved : vm_bip16 vm = true -> vm_scriptIdx vm = 1 ->
    Forall elem_ok (vm_savedFirstStack vm) /\ len (vm_savedFirstStack vm) <= MaxStackSize /\
    vm_savedFirstStack vm <> []
}.

(** The state in which the next script, if there is one, has been chosen. *)
Record switched (vm : Engine) : Prop := {
  sw_setup : setup vm;
  sw_idx : 1 <= vm_scriptIdx vm;
  sw_off : vm_scriptOff vm = 0;
  sw_ops : vm_numOps vm = 0;
  sw_cond : vm_condStack vm = [];
  sw_alt : stk (vm_astack vm) = [];
  sw_elems : Forall elem_ok (stk (vm_dstack vm));
  sw_total : len (stk (vm_dstack vm)) <= MaxStackSize \/
    2 <= vm_scriptIdx vm /\ len (stk (vm_dstack vm)) <= maxWitnessItemsPerInput;
  sw_saved : saved_ok vm
}.

Lemma setup_next vm : setup vm -> vm_scriptIdx vm < len (vm_scripts vm) ->
  setup (set_scriptIdx (vm_scriptIdx vm + 1) vm).
Proof. intros [] Hlt. split; simpl; try done; lia. Qed.

Lemma setup_append vm pops :
  setup vm -> len pops <= MaxScriptSize -> 2 <= vm_scriptIdx vm <= 3 -> len (vm_scripts vm) <= vm_scriptIdx vm ->
  setup (set_scripts (vm_scripts vm ++ [pops]) vm).
Proof.
  intros [Hl Hin Hp Hc Hm Hi] Hpops Hidx Hle. split; simpl; rewrite ?len_app, ?len_cons, ?len_nil; try done; try lia.
  - apply Forall_app. split; [done|]. by constructor.
  - intros Hb. destruct (Hp Hb) as (script & Hs & ?). exists script. split; [|done].
    rewrite index_app_l by lia. done.
  - unfold len in *. simpl. lia.
Qed.

(** The end of [end_of_script]: an empty script is skipped. *)
Lemma skip_empty_wp vm :
  switched vm ->
  safe skip_empty
    (fun b vm' => inv vm' /\ b = finished vm' /\ vm_scriptIdx vm <= vm_scriptIdx vm' /\ vm_scriptOff vm' = 0) vm.
Proof.
  intros Hsw. unfold skip_empty. call. call. cbn [id].
  apply safe_bind with (fun _ vm' => switched vm' /\ vm_scriptIdx vm <= vm_scriptIdx vm' /\
    (finished vm' = false -> exists script, index (vm_scripts vm') (vm_scriptIdx vm') = Some script /\ 0 < len script)).
  - pose proof Hsw as [Hsu Hi Ho Hn Hc Ha He Ht Hsv]. pose proof Hsu as [Hl Hin Hp Hcnt Hm Hidx]. unfold finished.
    call.
    + apply Z.ltb_lt in Heqb. call. apply wp_lift_safe; [apply or_panic_no_panic, index_is_Some; lia|].
      intros script Hs. call.
      * apply wp_modify. split; [|split; [simpl; lia|simpl; lia]].
        split; simpl; try done; try lia; [by apply setup_next|]. intros Hb. simpl. lia.
      * call. split; [done|]. split; [lia|]. intros _. exists script. apply or_panic_Ret in Hs.
        split; [done|]. lia.
    + call. split; [done|]. split; [lia|]. lia.
  - intros _ vm1 ([Hsu Hi Ho Hn Hc Ha He Ht Hsv] & Hle & Hrun). call. call. call. call. cbn [id]. call.
    split; [|split; [done|simpl; lia]]. split; [by destruct Hsu; split| |done|].
    + split; unfold total; simpl; rewrite ?Ha, ?len_nil, ?Hc, ?Hn; [|by split; simpl; rewrite ?Ha|by unfold MaxOpsPerScript|done].
      destruct Ht; [left|right]; lia.
    + intros Hf. destruct (Hrun Hf) as (script & Hs & Hpos). exists script. simpl. split; [done|]. lia.
Qed.

Definition wound_up (vm : Engine) : Engine :=
  set_scriptOff 0 (set_numOps 0 (set_astack (set_stk [] (vm_astack vm)) vm)).

Lemma clear_alt_wp (Q : () -> Engine -> Prop) vm :
  len (stk (vm_astack vm)) < 2 ^ 29 -> Q () (set_astack (set_stk [] (vm_astack vm)) vm) ->
  safe (ignore_err (astack (depth ← gets Depth; DropN depth))) Q vm.
Proof.
  intros Ha HQ. pose proof (clear_spec _ Ha) as Hcl. unfold wp, ignore_err, astack, on_field in *.
  erewrite bind_Ret by reflexivity. destruct (DropN (Depth (vm_astack vm)) (vm_astack vm)) as [[[]|e|] s];
    simplify_eq; done.
Qed.

Lemma ended_dstack vm : ended vm -> len (stk (vm_dstack vm)) <= MaxStackSize /\ len (stk (vm_astack vm)) <= MaxStackSize.
Proof. intros [_ _ Ht _ _]. unfold total in Ht. pose proof (len_nonneg (stk (vm_dstack vm))). pose proof (len_nonneg (stk (vm_astack vm))). lia. Qed.

(** [saved_ok] says nothing past the public key script. *)
Lemma saved_past vm : 2 <= vm_scriptIdx vm -> saved_ok vm.
Proof. intros ? ? ?. lia. Qed.


Lemma CheckErrorCondition_wp final vm :
  len (stk (vm_dstack vm)) < 2 ^ 29 ->
  safe (CheckErrorCondition final) (fun _ vm' => exists l,
    vm' = set_dstack (set_stk l (vm_dstack vm)) vm /\ len l < len (stk (vm_dstack vm))) vm.
Proof.
  intros Hd. unfold CheckErrorCondition. call. call. do 4 (call; [call|]). call. apply wp_on_field.
  eapply wp_mono; [by apply PopBool_wp| |done]. intros b s (so & E & Hm). call; [call|]. call. exists (stk s).
  split; [|rewrite E; len_lia]. f_equal. destruct s, (vm_dstack vm); simpl in *. by subst.
Qed.

(** Each of the ways to the next script. *)
Definition next_wp (vm : Engine) (m : EM ()) : Prop :=
  safe m (fun _ vm' => switched vm' /\ vm_scriptIdx vm < vm_scriptIdx vm') (wound_up vm).

Section next.
Context (vm : Engine) (Hen : ended vm) (Hc : vm_condStack vm = []).

Let moved := set_scriptIdx (vm_scriptIdx vm + 1) (wound_up vm).

Lemma moved_setup : setup moved.
Proof. destruct Hen as [Hsu Hrun _ _ _]. apply (setup_next (wound_up vm)); [by destruct Hsu; split|done]. Qed.

(** Everything but the stack and the saved stack. *)
Lemma switched_moved vm' :
  setup vm' -> vm_scriptIdx vm' = vm_scriptIdx vm + 1 -> vm_scriptOff vm' = 0 -> vm_numOps vm' = 0 ->
  vm_condStack vm' = [] -> stk (vm_astack vm') = [] -> Forall elem_ok (stk (vm_dstack vm')) ->
  (len (stk (vm_dstack vm')) <= MaxStackSize \/
    1 <= vm_scriptIdx vm /\ len (stk (vm_dstack vm')) <= maxWitnessItemsPerInput) ->
  saved_ok vm' -> switched vm' /\ vm_scriptIdx vm < vm_scriptIdx vm'.
Proof.
  destruct Hen as [[] _ _ _ _]. intros ? Hi ? ? ? ? ? Ht ?. rewrite Hi. split; [|lia]. split; try done; rewrite ?Hi; [lia|].
  destruct Ht; [by left|right; lia].
Qed.

Lemma next_plain : vm_bip16 vm = false \/ vm_scriptIdx vm <> 0 -> next_wp vm next_script.
Proof.
  intros Hno. pose proof (ended_dstack vm Hen) as [Hd Ha]. pose proof moved_setup as Hsu. destruct Hen as [[] _ _ [He _] _].
  apply wp_modify. apply switched_moved; try done; [by left|].
  intros Hb Hi. simpl in Hb, Hi. destruct Hno; [congruence|lia].
Qed.

Lemma next_saved :
  vm_scriptIdx vm = 0 -> next_wp vm (next_script;; modify (fun vm => set_savedFirstStack (GetStack vm) vm)).
Proof.
  intros Hi. pose proof (ended_dstack vm Hen) as [Hd Ha]. pose proof moved_setup as Hsu.
  destruct Hen as [_ _ _ [He _] _]. unfold MaxStackSize in Hd, Ha.
  apply wp_bind, wp_modify, wp_modify. fold moved. unfold GetStack. rewrite getStack_spec by (simpl; lia).
  apply switched_moved; try done; [by destruct Hsu; split|by left].
Qed.

Lemma next_p2sh :
  vm_scriptIdx vm = 1 -> vm_bip16 vm = true ->
  next_wp vm (next_script;; CheckErrorCondition false;; install_redeem (vm_savedFirstStack vm)).
Proof.
  intros Hi Hb. pose proof (ended_dstack vm Hen) as [Hd Ha]. pose proof moved_setup as Hsu.
  destruct Hen as [[_ _ _ Hcnt _ _] Hrun _ [He _] Hsv]. destruct (Hsv Hb Hi) as (Hse & Hsl & Hne).
  unfold MaxStackSize in Hd, Ha. apply wp_bind, wp_modify. fold moved.
  apply safe_bind with (fun _ vm' => exists l, vm' = set_dstack (set_stk l (vm_dstack moved)) moved /\ len l <= 1000).
  - eapply wp_mono; [apply CheckErrorCondition_wp; simpl; lia| |done].
    intros _ vm' (l & -> & Hl). exists l. simpl in Hl. split; [done|lia].
  - intros _ vm' (l & -> & Hl). destruct (snoc_inv _ Hne) as (rest & script & E). rewrite E in Hse, Hsl |- *. unfold install_redeem.
    rewrite index_last. call. apply wp_lift. cbn [or_panic].
    apply append_wp. intros pops Hp. rewrite slice_to_app by len_lia. call. apply wp_lift. cbn [or_panic].
    apply SetStack_wp; [simpl; lia|]. apply Forall_app in Hse as [Hre Hsc]. apply Forall_inv in Hsc.
    unfold elem_ok, MaxScriptElementSize in Hsc. unfold MaxStackSize in *. rewrite len_app in Hsl.
    pose proof (len_nonneg [script]).
    apply switched_moved; try done; simpl; [|left; unfold MaxStackSize; lia|apply saved_past; simpl; lia].
    assert (setup (set_scripts (vm_scripts moved ++ [pops]) moved)) as Hs2; [|by destruct Hs2; split].
    apply setup_append; [done|unfold MaxScriptSize|simpl|simpl]; lia.
Qed.

Lemma next_witness ti :
  1 <= vm_scriptIdx vm <= 2 -> vm_bip16 vm = false \/ vm_scriptIdx vm = 2 ->
  index (tx_TxIn (vm_tx vm)) (vm_txIdx vm) = Some ti ->
  next_wp vm (next_script;; verifyWitnessProgram (witness ti)).
Proof.
  intros Hi Hb Hti. pose proof (ended_dstack vm Hen) as [Hd Ha]. pose proof moved_setup as Hsu.
  destruct Hen as [[_ (ti' & Hti' & Hw) _ Hcnt _ _] Hrun _ [He _] _]. rewrite Hti in Hti'. injection Hti' as <-.
  unfold MaxStackSize, maxWitnessItemsPerInput in *. apply wp_bind, wp_modify. fold moved.
  eapply wp_mono; [apply verifyWitnessProgram_wp; simpl; lia| |done].
  intros _ vm' [-> | (pops & l & -> & Hp & Hl & Hle)].
  - apply switched_moved; try done; [by destruct Hsu; split|by left|apply saved_past; simpl; lia].
  - unfold install. apply switched_moved; try done; simpl; [|right; unfold maxWitnessItemsPerInput; lia|apply saved_past; simpl; lia].
    assert (setup (set_scripts (vm_scripts moved ++ [pops]) moved)) as Hs2; [|by destruct Hs2; split].
    apply setup_append; [done|done|simpl|simpl]; lia.
Qed.
End next.

Lemma end_of_script_wp vm :
  ended vm ->
  safe end_of_script (fun b vm' => inv vm' /\ b = finished vm' /\
    vm_scriptIdx vm < vm_scriptIdx vm' /\ vm_scriptOff vm' = 0) vm.
Proof.
  intros Hen. pose proof (ended_dstack vm Hen) as [Hd Ha]. unfold MaxStackSize in Hd, Ha.
  unfold end_of_script. call. call. cbn [id]. call; [call|]. apply negb_false_iff, Z.eqb_eq in Heqb.
  assert (vm_condStack vm = []) as Hc by (apply length_zero_iff_nil; unfold len in *; lia).
  call. apply clear_alt_wp; [lia|]. call. call. call. call. fold (wound_up vm).
  apply safe_bind with (fun _ vm' => switched vm' /\ vm_scriptIdx vm < vm_scriptIdx vm'); cycle 1.
  { intros _ vm1 [Hsw Hlt]. eapply wp_mono; [by apply skip_empty_wp| |done].
    intros b vm2 (? & ? & ? & ?). split_and!; try done. lia. }
  pose proof (en_setup vm Hen) as [_ (ti & Hti & _) _ _ _ _].
  call; [apply andb_true_iff in Heqb0 as [?%Z.eqb_eq _]; by apply next_saved|].
  call; [apply andb_true_iff in Heqb1 as [?%Z.eqb_eq ?]; by apply next_p2sh|].
  call; [|apply next_plain; [done..|]]; cycle 1.
  { destruct (vm_bip16 vm); [right|by left]. intros E. by rewrite E in Heqb0. }
  rewrite Hti. change (next_wp vm (next_script;; verifyWitnessProgram (witness ti))).
  apply next_witness; [done|done| | |done].
  - apply orb_true_iff in Heqb2 as [[?%Z.eqb_eq _]%andb_true_iff|[[?%Z.eqb_eq _]%andb_true_iff _]%andb_true_iff]; lia.
  - destruct (vm_bip16 vm); [right|by left]. rewrite andb_true_r in *. rewrite Heqb1 in Heqb2. simpl in Heqb2.
    by apply andb_true_iff in Heqb2 as [?%Z.eqb_eq _].
Qed.

(** ** A step *)

(** The fields that the execution of an opcode leaves alone. *)
Lemma executed_fields vm vm1 :
  frame 3 (advanced vm) vm1 ->
  vm_scripts vm1 = vm_scripts vm /\ vm_scriptIdx vm1 = vm_scriptIdx vm /\ vm_scriptOff vm1 = vm_scriptOff vm + 1 /\
  vm_tx vm1 = vm_tx vm /\ vm_txIdx vm1 = vm_txIdx vm /\ vm_bip16 vm1 = vm_bip16 vm /\
  vm_savedFirstStack vm1 = vm_savedFirstStack vm.
Proof. intros [Hfx _ _ _ _ _]. unfold fixed in Hfx. simpl in Hfx. split_and!; congruence. Qed.

Section executed.
Context (vm vm1 : Engine) (Hinv : inv vm) (Hf : finished vm = false) (Hfr : frame 3 (advanced vm) vm1).
Context (Hne : vm_bip16 vm = true -> vm_scriptIdx vm = 1 -> vm_savedFirstStack vm <> []).
Context (Ht : total vm1 <= MaxStackSize).

Lemma executed_setup : setup vm1.
Proof.
  destruct (executed_fields vm vm1 Hfr) as (E1 & E2 & E3 & E4 & E5 & E6 & E7). destruct Hinv as [[] _ _ _].
  by split; rewrite ?E1, ?E2, ?E4, ?E5, ?E6.
Qed.

Lemma executed_saved :
  vm_bip16 vm1 = true -> vm_scriptIdx vm1 = 1 ->
  Forall elem_ok (vm_savedFirstStack vm1) /\ len (vm_savedFirstStack vm1) <= MaxStackSize /\ vm_savedFirstStack vm1 <> [].
Proof.
  destruct (executed_fields vm vm1 Hfr) as (E1 & E2 & E3 & E4 & E5 & E6 & E7). rewrite E2, E6, E7.
  intros Hb Hi. destruct Hinv as [_ _ Hsv _]. destruct (Hsv Hb Hi) as (? & ? & _). auto.
Qed.

Lemma executed_ended : ended vm1.
Proof.
  split; [apply executed_setup| |done|apply Hfr|apply executed_saved].
  destruct (executed_fields vm vm1 Hfr) as (-> & -> & _). unfold finished in Hf. lia.
Qed.

Lemma executed_inv script :
  index (vm_scripts vm) (vm_scriptIdx vm) = Some script -> vm_scriptOff vm1 < len script -> inv vm1.
Proof.
  intros Hs Hlt. destruct (executed_fields vm vm1 Hfr) as (E1 & E2 & E3 & _).
  pose proof Hinv as [_ [_ _ Hops _] _ Hpc]. destruct (Hpc Hf) as (script' & Hs' & Ho & Hc).
  rewrite Hs in Hs'. injection Hs' as <-. destruct Hfr as [_ Hsp Hop _ He Hcd]. split.
  - apply executed_setup.
  - split; [by left|done|simpl in Hop; lia|done].
  - intros Hb Hi. destruct (executed_saved Hb Hi) as (? & ? & ?). split_and!; done.
  - intros _. exists script. rewrite E1, E2. split; [done|]. simpl in Hsp. rewrite E3 in *. destruct Hsp as [->| ->]; lia.
Qed.
End executed.

Lemma Step_wp vm :
  inv vm -> finished vm = false ->
  safe Step (fun b vm' => inv vm' /\ b = finished vm' /\ steps_left vm' < steps_left vm) vm.
Proof.
  intros Hinv Hf. destruct (inv_script vm Hinv Hf) as (script & o & Hs & Hlen & Ho & Hoff & Hsep).
  assert (validPC vm = Ret ()) as Hpc.
  { unfold validPC. unfold finished in Hf. rewrite Hf, Hs. simpl. by destruct (Z.leb_spec (len script) (vm_scriptOff vm)); [lia|]. }
  unfold Step. call. call. cbn [id]. rewrite Hpc, Hs. call. apply wp_lift. call. apply wp_lift. cbn [or_panic].
  rewrite Ho. call. apply wp_lift. cbn [or_panic]. call. call. fold (advanced vm).
  eapply safe_bind; [by eapply opcode_executed|]. intros _ vm1 [Hfr Hne]. call. call. cbn [id].
  pose proof (inv_total vm Hinv) as Htot. pose proof (fr_total _ _ _ Hfr) as Htot1.
  change (total (advanced vm)) with (total vm) in Htot1. unfold maxWitnessItemsPerInput in Htot.
  pose proof (len_nonneg (stk (vm_dstack vm1))). pose proof (len_nonneg (stk (vm_astack vm1))).
  unfold total in Htot, Htot1. rewrite !Depth_small by lia. rewrite int32_small by lia.
  call; [call|]. apply Z.ltb_ge in Heqb.
  destruct (executed_fields vm vm1 Hfr) as (E1 & E2 & E3 & _). rewrite E1, E2, Hs. call. apply wp_lift. cbn [or_panic].
  unfold steps_left, MaxScriptSize in *. call.
  - eapply wp_mono; [by apply end_of_script_wp, (executed_ended vm vm1)| |done].
    intros b vm2 (Hi2 & Hb & Hlt & Hoff2). split_and!; try done. lia.
  - call. apply Z.leb_gt in Heqb0. split; [by apply (executed_inv vm vm1 Hinv Hf Hfr Hne Heqb script)|]. unfold finished. rewrite E1, E2, E3. split; [by rewrite <- Hf|lia].
Qed.

(** ** The loop *)

Lemma step_loop_wp fuel vm :
  inv vm -> finished vm = false -> steps_left vm <= Z.of_nat fuel ->
  safe (step_loop fuel) (fun _ vm' => inv vm' /\ finished vm' = true) vm.
Proof.
  revert vm. induction fuel as [|fuel IH]; intros vm Hinv Hf Hleft.
  - exfalso. destruct (inv_script vm Hinv Hf) as (script & o & _ & Hlen & _ & Hoff & _).
    destruct Hinv as [[] _ _ _]. unfold finished, steps_left, MaxScriptSize in *. lia.
  - cbn [step_loop]. eapply safe_bind; [by apply Step_wp|]. intros b vm1 (Hinv1 & -> & Hlt). cbv beta.
    destruct (finished vm1) eqn:Hf1; [by call|]. apply IH; [done|done|lia].
Qed.

(** More fuel changes nothing. *)
Lemma step_loop_fuel fuel n vm :
  inv vm -> finished vm = false -> steps_left vm <= Z.of_nat fuel -> (fuel <= n)%nat ->
  step_loop n vm = step_loop fuel vm.
Proof.
  revert n vm. induction fuel as [|fuel IH]; intros n vm Hinv Hf Hleft Hn.
  - pose proof (step_loop_wp 0 vm Hinv Hf Hleft) as Hw. by unfold wp in Hw.
  - destruct n as [|n]; [lia|]. cbn [step_loop]. pose proof (Step_wp vm Hinv Hf) as Hst.
    unfold wp, mbind, St_bind in *. destruct (Step vm) as [[b|e|] vm1]; [|done|done].
    destruct Hst as (Hinv1 & -> & Hlt). destruct (finished vm1) eqn:Hf1; [done|]. apply IH; [done|done|lia|lia].
Qed.
End inv.

(** * Construction *)

Lemma parse_nonempty script pops : parse script = Ret pops -> script <> [] -> 0 < len pops.
Proof.
  unfold parse. destruct (ParseScript script) as [ps [e|]] eqn:E; [done|]. intros [= <-] Hne.
  apply ParseScript_script_enc in E. destruct ps; [by apply script_enc_nil_inv in E|]. len_lia.
Qed.

Lemma ExtractWitnessProgramInfo_no_panic s : ExtractWitnessProgramInfo s <> Panic.
Proof.
  unfold ExtractWitnessProgramInfo. destruct (ParseScript s) as [pops [e|]]; [done|].
  destruct (isWitnessProgram pops) eqn:E; [|done]. unfold isWitnessProgram in E. by destruct pops as [|? [|? []]].
Qed.

(** No panic, and [Q] of what is returned. *)
Definition returns {E A} (m : outcome E A) (Q : A -> Prop) : Prop :=
  match m with Ret a => Q a | Throw _ => True | Panic => False end.

Lemma returns_bind {E A B} (m : outcome E A) (f : A -> outcome E B) P Q :
  returns m P -> (forall a, P a -> returns (f a) Q) -> returns (m ≫= f) Q.
Proof. destruct m; simpl; auto. Qed.

Lemma returns_any {E A} (m : outcome E A) : m <> Panic -> returns m (fun _ => True).
Proof. by destruct m. Qed.

Ltac past_guard :=
  lazymatch goal with |- returns (if ?b then _ else _) _ => destruct b eqn:?; [exact I|] end; cbv beta zeta.

Lemma parse_checked_spec s :
  returns (parse_checked s) (fun pops => len pops <= MaxScriptSize /\ (len s <> 0 -> 0 < len pops)).
Proof.
  unfold parse_checked. past_guard. pose proof (parse_no_panic s) as Hp. destruct (parse s) as [pops|e|] eqn:E; [|done|done].
  split; [apply parse_count_le in E; lia|]. intros Hs. apply (parse_nonempty s); [done|]. by intros ->.
Qed.

Lemma find_witness_program_no_panic a b w bip pops0 pops1 : find_witness_program a b w bip pops0 pops1 <> Panic.
Proof. unfold find_witness_program. repeat case_match; discriminate. Qed.

Lemma NewEngine_inv pk tx idx flags sc hc amt :
  (forall ti, index (tx_TxIn tx) idx = Some ti -> len (witness ti) <= maxWitnessItemsPerInput) ->
  returns (NewEngine pk tx idx flags sc hc amt)
    (fun vm => inv vm /\ finished vm = false /\ steps_left vm <= Z.of_nat max_steps).
Proof.
  intros Hw. unfold NewEngine. past_guard. destruct (index_is_Some (tx_TxIn tx) idx) as [ti Hti]; [lia|]. rewrite Hti.
  apply (returns_bind _ _ (fun ti' => ti' = ti)); [done|]. intros _ ->. cbv zeta. do 3 past_guard.
  eapply returns_bind; [apply parse_checked_spec|]. intros pops0 [Hl0 Hp0].
  eapply returns_bind; [apply parse_checked_spec|]. intros pops1 [Hl1 Hp1]. cbv zeta. past_guard.
  eapply returns_bind.
  { apply returns_any. repeat no_panic; [apply find_witness_program_no_panic|]. case_match; repeat no_panic.
    - apply ExtractWitnessProgramInfo_no_panic.
    - destruct a0. no_panic. }
  intros [ver prog] _. simpl. set (b := _ && isScriptHash pops1).
  assert (b = true -> isScriptHash pops1 = true) as Hb by (unfold b; by intros [_ ?]%andb_true_iff). clearbody b.
  assert (len (ti_SignatureScript ti) = 0 -> len pk <> 0) by (destruct (Z.eqb_spec (len (ti_SignatureScript ti)) 0), (Z.eqb_spec (len pk) 0); naive_solver).
  set (start := if _ =? 0 then 1 else 0).
  assert (start = 0 /\ 0 < len pops0 \/ start = 1 /\ 0 < len pops1) as Hst.
  { unfold start. destruct (Z.eqb_spec (len (ti_SignatureScript ti)) 0); auto. }
  clearbody start. split; [split|].
  - split; simpl; try done; try lia; [by constructor; [|constructor]|by eauto|by eauto|unfold len; simpl; lia..].
  - split; simpl; try done; by left.
  - done.
  - intros _. simpl. destruct Hst as [[-> ?]|[-> ?]]; [exists pops0|exists pops1]; split; [done|lia|done|lia].
  - unfold finished, steps_left, max_steps, MaxScriptSize. simpl. split; [destruct Hst as [[-> _]|[-> _]]; done|].
    destruct Hst as [[-> _]|[-> _]]; lia.
Qed.
