(* ===== verification/EngineProps.v ===== *)
(** Script execution as a whole: what holds in every state that an execution
    reaches, and that every execution ends with a verdict. *)

From S2P Require Import Prelude TxScriptErr Params ScriptNum Stack Opcode Sha Wire ParseScript ScriptBuilder MsgTx MsgTxProps.
From S2P Require Import ScriptUtil SigHash Field Btcec BtcecProps SigCache Engine Handlers Execute EngineSafety CheckSafety EngineInv.

Section reach.
Context `{Crypto} `{MapOrder}.









Lemma Execute_safe pk tx idx flags sc hc amt : Forall (fun ti => len (witness ti) <= maxWitnessItemsPerInput) (tx_TxIn tx) ->
  match NewEngine pk tx idx flags sc hc amt with
  | Ret vm => exists vm', Execute vm = (Ret (), vm') \/ exists e, Execute vm = (Throw e, vm')
  | Throw _ => True
  | Panic => False
  end.
Proof.
  intros Hw. pose proof (NewEngine_inv pk tx idx flags sc hc amt) as Hn. destruct (NewEngine pk tx idx flags sc hc amt) as [vm|e|]; [|done|].
  - destruct Hn as (Hi & Hf & Hs); [intros ti Hti; exact (Forall_index _ _ _ _ Hw Hti)|]. assert (safe Execute (fun _ _ => True) vm) as Hw'.
    { eapply safe_bind; [by apply step_loop_wp|]. intros _ vm1 [Hi1 _].
      eapply wp_mono; [apply CheckErrorCondition_wp|done|done]. pose proof (inv_total _ Hi1) as Ht.
      unfold total, maxWitnessItemsPerInput in Ht. pose proof (len_nonneg (stk (vm_astack vm1))). lia. }
    unfold wp in Hw'. destruct (Execute vm) as [[[]|e|] vm']; [by exists vm'; left|by exists vm'; right; exists e|done].
  - apply Hn. intros ti Hti. exact (Forall_index _ _ _ _ Hw Hti).
Qed.

(** C7: the execution of an input ends.  [NewEngine] gives an engine or an error;
    from the engine the loop of [Execute] ends within 40000 steps (more fuel gives
    the same result), and [Execute] gives success or an error, never a panic. *)
Theorem Execute_total (pk : bytes) (tx : MsgTx) (idx flags : Z) (sc : option SigCache)
    (hc : option TxSigHashes) (amt : Z)
    (Hw : Forall (fun ti => len (witness ti) <= maxWitnessItemsPerInput) (tx_TxIn tx)) :
  match NewEngine pk tx idx flags sc hc amt with
  | Ret vm => (forall fuel, 40000 <= Z.of_nat fuel -> step_loop fuel vm = step_loop max_steps vm) /\
      (exists vm', Execute vm = (Ret (), vm') \/ exists e, Execute vm = (Throw e, vm'))
  | Throw _ => True
  | Panic => False
  end.
Proof.
  pose proof (Execute_safe pk tx idx flags sc hc amt Hw) as He. pose proof (NewEngine_inv pk tx idx flags sc hc amt) as Hn.
  destruct (NewEngine pk tx idx flags sc hc amt) as [vm|e|]; [|done|done]. split; [|done].
  destruct Hn as (Hi & Hf & Hs); [intros ti Hti; exact (Forall_index _ _ _ _ Hw Hti)|].
  intros fuel Hfuel. apply step_loop_fuel; [done|done|done|]. unfold max_steps. lia.
Qed.
End reach.

(** * Pushes *)

(** The opcodes that [pushed] calls pushes do push that data and nothing else. *)
Lemma opcode_push_spec `{Crypto} `{MapOrder} pop d vm :
  pushed pop = Some d -> (u8 (Value (Opc pop)) = 0 -> Data pop = []) ->
  executeOp pop vm = (Ret (), set_dstack (mkStack (stk (vm_dstack vm) ++ [d]) (verifyMinimalData (vm_dstack vm))) vm).
Proof.
  intros Hp Hd. unfold pushed in Hp. unfold executeOp. destruct pop as [[v l] data]. cbn [Opc Value Data] in *.
  destruct v; vm_compute in Hp; first [discriminate Hp|injection Hp as <-];
    first [reflexivity|rewrite (Hd eq_refl); reflexivity].
Qed.

(** A concrete choice of the primitives, for examples. *)
Definition sample_crypto : Crypto.
Proof.
  refine {| ecdsa_Verify := fun _ _ _ _ => true; ripemd160 := fun b => take 20 (sha256 b) |}.
  intros b. unfold len. rewrite length_take. pose proof (len_sha256 b) as Hl. unfold len in Hl. lia.
Defined.

Definition sample_input : MsgTx := mkMsgTx 1 [mkTxIn (mkOutPoint [] 0) [OP_3] None 0] [] 0 [].
Definition sample_script : bytes := [OP_1; OP_IF; OP_2; OP_ENDIF].

Lemma sample_witness_count :
  Forall (fun ti => len (witness ti) <= maxWitnessItemsPerInput) (tx_TxIn sample_input).
Proof. by repeat constructor. Qed.


Lemma Execute_total_witness :
  exists vm vm', NewEngine sample_script sample_input 0 0 None None 0 = Ret vm /\
    Execute (H := sample_crypto) (H0 := map_to_list_order) vm = (Ret (), vm').
Proof.
  pose proof (Execute_total (H := sample_crypto) (H0 := map_to_list_order)
    sample_script sample_input 0 0 None None 0 sample_witness_count) as Ht.
  destruct (NewEngine sample_script sample_input 0 0 None None 0) as [vm|e|] eqn:En; [|discriminate En..].
  destruct Ht as [_ (vm' & Ht)]. exists vm, vm'. split; [done|].
  destruct Ht as [Ht|[e Ht]]; [exact Ht|]. vm_compute in En. injection En as <-. vm_compute in Ht. discriminate Ht.
Defined.
