(* ===== verification/Simulation.v ===== *)
(** Simulations between engines: two engines that agree on everything that a
    handler looks at run in step.  The relation is a parameter, so that the
    handlers are gone through once; it is used for the branch states and for the
    signature cache. *)

From S2P Require Import Prelude TxScriptErr Params ScriptNum Stack Opcode Sha Wire ParseScript ScriptBuilder MsgTx.
From S2P Require Import ScriptUtil SigHash Field Btcec SigCache Engine Handlers Execute.

(** What a call returns when it returns. *)
Definition yields {E A} (m : outcome E A) (Q : A -> Prop) : Prop := forall a, m = Ret a -> Q a.

Lemma yields_bind {E A B} (m : outcome E A) (f : A -> outcome E B) Q :
  (forall a, yields (f a) Q) -> yields (m ≫= f) Q.
Proof. intros Hf b. destruct m; [apply Hf|done|done]. Qed.

Lemma yields_ret {E A} (a : A) (Q : A -> Prop) : Q a -> yields (E := E) (mret a) Q.
Proof. by intros ? ? [= <-]. Qed.

Lemma len_sig_hash script ht vm : yields (sig_hash script ht vm) (fun h => len h = 32).
Proof.
  unfold sig_hash, calcWitnessSignatureHash, calcSignatureHash.
  repeat lazymatch goal with
  | |- yields (_ ≫= _) _ => apply yields_bind; intros
  | |- yields (if ?b then _ else _) _ => destruct b
  | |- yields (let '(_, _) := ?p in _) _ => destruct p
  | |- yields (mthrow _) _ => discriminate 1
  | |- yields (mret (DoubleHashB _)) _ => apply yields_ret, len_DoubleHashB
  | |- yields (mret _) _ => apply yields_ret; reflexivity
  end.
Qed.

Section sim.
Context (R : Engine -> Engine -> Prop).

(** Same verdict, same value, same error code, related states. *)
Definition sim {A} (m1 m2 : EM A) (vm1 vm2 : Engine) : Prop :=
  match m1 vm1, m2 vm2 with
  | (Ret a1, v1), (Ret a2, v2) => a1 = a2 /\ R v1 v2
  | (Throw e1, v1), (Throw e2, v2) => e1 = e2 /\ R v1 v2
  | (Panic, v1), (Panic, v2) => R v1 v2
  | _, _ => False
  end.

Definition simulates {A} (m : EM A) : Prop := forall vm1 vm2, R vm1 vm2 -> sim m m vm1 vm2.

Lemma sim_ret {A} (a : A) vm1 vm2 : R vm1 vm2 -> sim (mret a) (mret a) vm1 vm2.
Proof. done. Qed.
Lemma sim_throw {A} (e : scripterr) vm1 vm2 : R vm1 vm2 -> sim (A := A) (mthrow e) (mthrow e) vm1 vm2.
Proof. done. Qed.
Lemma sim_lift {A} (m : outcome scripterr A) vm1 vm2 : R vm1 vm2 -> sim (lift m) (lift m) vm1 vm2.
Proof. unfold sim, lift. by destruct m. Qed.
Lemma sim_modify f1 f2 vm1 vm2 : R (f1 vm1) (f2 vm2) -> sim (modify f1) (modify f2) vm1 vm2.
Proof. done. Qed.
Lemma sim_gets {A} (k1 k2 : Engine -> EM A) vm1 vm2 :
  sim (k1 vm1) (k2 vm2) vm1 vm2 -> sim (gets id ≫= k1) (gets id ≫= k2) vm1 vm2.
Proof. done. Qed.

Lemma sim_bind {A B} (m1 m2 : EM A) (f1 f2 : A -> EM B) vm1 vm2 :
  sim m1 m2 vm1 vm2 -> (forall a v1 v2, R v1 v2 -> sim (f1 a) (f2 a) v1 v2) -> sim (m1 ≫= f1) (m2 ≫= f2) vm1 vm2.
Proof.
  unfold sim, mbind, St_bind. destruct (m1 vm1) as [[a1|e1|] v1], (m2 vm2) as [[a2|e2|] v2]; try done.
  intros [-> HR] Hf. by apply Hf.
Qed.

(** A call that does not look at the engine. *)
Lemma sim_lift_bind {A B} (m : outcome scripterr A) (f1 f2 : A -> EM B) vm1 vm2 :
  R vm1 vm2 -> (forall a, m = Ret a -> sim (f1 a) (f2 a) vm1 vm2) -> sim (lift m ≫= f1) (lift m ≫= f2) vm1 vm2.
Proof. intros HR Hf. unfold sim, mbind, St_bind, lift. destruct m; [by apply Hf|done|done]. Qed.

Lemma sim_ignore_err (m1 m2 : EM ()) vm1 vm2 : sim m1 m2 vm1 vm2 -> sim (ignore_err m1) (ignore_err m2) vm1 vm2.
Proof.
  unfold sim, ignore_err. destruct (m1 vm1) as [[[]|e1|] v1], (m2 vm2) as [[[]|e2|] v2]; try done.
  by intros [_ ?].
Qed.

(** Agreement on the fields that every handler may look at; a common change of a
    field that a handler may change keeps it. *)
Class Agree : Prop := {
  ag_scripts vm1 vm2 : R vm1 vm2 -> vm_scripts vm2 = vm_scripts vm1;
  ag_scriptIdx vm1 vm2 : R vm1 vm2 -> vm_scriptIdx vm2 = vm_scriptIdx vm1;
  ag_scriptOff vm1 vm2 : R vm1 vm2 -> vm_scriptOff vm2 = vm_scriptOff vm1;
  ag_lastCodeSep vm1 vm2 : R vm1 vm2 -> vm_lastCodeSep vm2 = vm_lastCodeSep vm1;
  ag_dstack vm1 vm2 : R vm1 vm2 -> vm_dstack vm2 = vm_dstack vm1;
  ag_astack vm1 vm2 : R vm1 vm2 -> vm_astack vm2 = vm_astack vm1;
  ag_tx vm1 vm2 : R vm1 vm2 -> vm_tx vm2 = vm_tx vm1;
  ag_txIdx vm1 vm2 : R vm1 vm2 -> vm_txIdx vm2 = vm_txIdx vm1;
  ag_numOps vm1 vm2 : R vm1 vm2 -> vm_numOps vm2 = vm_numOps vm1;
  ag_flags vm1 vm2 : R vm1 vm2 -> vm_flags vm2 = vm_flags vm1;
  ag_hashCache vm1 vm2 : R vm1 vm2 -> vm_hashCache vm2 = vm_hashCache vm1;
  ag_witnessVersion vm1 vm2 : R vm1 vm2 -> vm_witnessVersion vm2 = vm_witnessVersion vm1;
  ag_witnessProgram vm1 vm2 : R vm1 vm2 -> vm_witnessProgram vm2 = vm_witnessProgram vm1;
  ag_inputAmount vm1 vm2 : R vm1 vm2 -> vm_inputAmount vm2 = vm_inputAmount vm1;
  ag_set_dstack s vm1 vm2 : R vm1 vm2 -> R (set_dstack s vm1) (set_dstack s vm2);
  ag_set_astack s vm1 vm2 : R vm1 vm2 -> R (set_astack s vm1) (set_astack s vm2);
  ag_set_numOps n vm1 vm2 : R vm1 vm2 -> R (set_numOps n vm1) (set_numOps n vm2);
  ag_set_lastCodeSep n vm1 vm2 : R vm1 vm2 -> R (set_lastCodeSep n vm1) (set_lastCodeSep n vm2)
}.

Section handlers.
Context `{Agree} `{Crypto} `{MapOrder}.

Lemma sim_dstack {A} (m : SM A) : simulates (dstack m).
Proof.
  intros vm1 vm2 HR. unfold sim, dstack, on_field. rewrite (ag_dstack _ _ HR).
  destruct (m (vm_dstack vm1)) as [[] s]; try split; try done; by apply ag_set_dstack.
Qed.

Lemma sim_astack {A} (m : SM A) : simulates (astack m).
Proof.
  intros vm1 vm2 HR. unfold sim, astack, on_field. rewrite (ag_astack _ _ HR).
  destruct (m (vm_astack vm1)) as [[] s]; try split; try done; by apply ag_set_astack.
Qed.

Section agree.
Context (vm1 vm2 : Engine) (HR : R vm1 vm2).

Lemma ag_hasFlag f : hasFlag vm2 f = hasFlag vm1 f.
Proof. unfold hasFlag. by rewrite (ag_flags _ _ HR). Qed.
Lemma ag_isWitnessVersionActive v : isWitnessVersionActive vm2 v = isWitnessVersionActive vm1 v.
Proof. unfold isWitnessVersionActive. by rewrite (ag_witnessProgram _ _ HR), (ag_witnessVersion _ _ HR). Qed.
Lemma ag_subScript : subScript vm2 = subScript vm1.
Proof. unfold subScript. by rewrite (ag_scripts _ _ HR), (ag_scriptIdx _ _ HR), (ag_lastCodeSep _ _ HR). Qed.
Lemma ag_sig_hash script ht : sig_hash script ht vm2 = sig_hash script ht vm1.
Proof.
  unfold sig_hash. by rewrite ag_isWitnessVersionActive, (ag_hashCache _ _ HR), (ag_tx _ _ HR), (ag_txIdx _ _ HR), (ag_inputAmount _ _ HR).
Qed.
Lemma ag_checkHashTypeEncoding ht : checkHashTypeEncoding vm2 ht = checkHashTypeEncoding vm1 ht.
Proof. unfold checkHashTypeEncoding. by rewrite ag_hasFlag. Qed.
Lemma ag_checkPubKeyEncoding pk : checkPubKeyEncoding vm2 pk = checkPubKeyEncoding vm1 pk.
Proof. unfold checkPubKeyEncoding. by rewrite !ag_hasFlag, ag_isWitnessVersionActive. Qed.
Lemma ag_checkSignatureEncoding s : checkSignatureEncoding vm2 s = checkSignatureEncoding vm1 s.
Proof. unfold checkSignatureEncoding. by rewrite !ag_hasFlag. Qed.
Lemma ag_parse_signature s : parse_signature vm2 s = parse_signature vm1 s.
Proof. unfold parse_signature. by rewrite !ag_hasFlag. Qed.
Lemma ag_round_signature si ht s : round_signature vm2 si ht s = round_signature vm1 si ht s.
Proof. unfold round_signature. by rewrite ag_checkHashTypeEncoding, ag_checkSignatureEncoding, ag_parse_signature. Qed.
End agree.

(** The state of the right-hand engine in terms of the left-hand one. *)
Ltac agree HR :=
  repeat first
    [ rewrite (ag_hasFlag _ _ HR) | rewrite (ag_isWitnessVersionActive _ _ HR) | rewrite (ag_subScript _ _ HR)
    | rewrite (ag_checkHashTypeEncoding _ _ HR) | rewrite (ag_checkPubKeyEncoding _ _ HR)
    | rewrite (ag_checkSignatureEncoding _ _ HR) | rewrite (ag_parse_signature _ _ HR)
    | rewrite (ag_round_signature _ _ HR) | rewrite (ag_sig_hash _ _ HR)
    | rewrite (ag_dstack _ _ HR) | rewrite (ag_astack _ _ HR) | rewrite (ag_tx _ _ HR) | rewrite (ag_txIdx _ _ HR)
    | rewrite (ag_numOps _ _ HR) | rewrite (ag_scriptOff _ _ HR) ].

Ltac sim_step :=
  lazymatch goal with
  | |- sim (gets id ≫= _) (gets id ≫= _) ?vm1 ?vm2 =>
    apply sim_gets; lazymatch goal with HR : R vm1 vm2 |- _ => agree HR end
  | |- sim (lift _ ≫= _) (lift _ ≫= _) _ _ => apply sim_lift_bind; [assumption|intros ? ?]
  | |- sim (_ ≫= _) (_ ≫= _) _ _ => apply sim_bind; [|intros ? ? ? ?]
  | |- sim (mret _) _ _ _ => by apply sim_ret
  | |- sim (mthrow _) _ _ _ => by apply sim_throw
  | |- sim (lift _) _ _ _ => by apply sim_lift
  | |- sim (dstack _) _ _ _ => by apply sim_dstack
  | |- sim (astack _) _ _ _ => by apply sim_astack
  | |- sim (if ?b then _ else _) _ _ _ => destruct b
  | |- sim (match ?o with _ => _ end) _ _ _ => destruct o
  end; cbv beta zeta.

Ltac sim_handler :=
  intros vm1 vm2 HR; lazymatch goal with |- sim ?m _ _ _ => let h := get_head m in unfold h end; repeat sim_step.

Lemma sim_abstractVerify op e : simulates (abstractVerify op e).
Proof. sim_handler. Qed.
Lemma sim_peek_locktime : simulates peek_locktime.
Proof. sim_handler. Qed.
Lemma sim_popIfBool : simulates popIfBool.
Proof. sim_handler. Qed.
Lemma sim_opcodeEqual op : simulates (opcodeEqual op).
Proof. sim_handler. Qed.
Lemma sim_opcodeNumEqual op : simulates (opcodeNumEqual op).
Proof. sim_handler. Qed.
Lemma sim_opcodeCheckLockTimeVerify op : simulates (opcodeCheckLockTimeVerify op).
Proof. sim_handler. by apply sim_peek_locktime. Qed.
Lemma sim_opcodeCheckSequenceVerify op : simulates (opcodeCheckSequenceVerify op).
Proof. sim_handler. by apply sim_peek_locktime. Qed.

Lemma sim_opcodeCodeSeparator op : simulates (opcodeCodeSeparator op).
Proof. intros vm1 vm2 HR. apply sim_modify. rewrite (ag_scriptOff _ _ HR). by apply ag_set_lastCodeSep. Qed.

Lemma sim_then_verify (m : EM ()) op e : simulates m -> simulates (m;; abstractVerify op e).
Proof. intros Hm vm1 vm2 HR. apply sim_bind; [by apply Hm|]. intros. by apply sim_abstractVerify. Qed.

Definition is_signature_op (b : byte) : bool :=
  match b with OP_CHECKSIG | OP_CHECKSIGVERIFY | OP_CHECKMULTISIG | OP_CHECKMULTISIGVERIFY => true | _ => false end.

Lemma sim_executeOp_quiet po :
  popIsConditional po = false -> is_signature_op (Value (Opc po)) = false -> simulates (executeOp po).
Proof.
  intros Hc Hs. unfold executeOp. unfold popIsConditional in Hc.
  destruct (Value (Opc po)) eqn:E; try discriminate Hc; try discriminate Hs; clear Hc Hs;
    lazymatch goal with
    | |- simulates (opcodeCheckLockTimeVerify _) => apply sim_opcodeCheckLockTimeVerify
    | |- simulates (opcodeCheckSequenceVerify _) => apply sim_opcodeCheckSequenceVerify
    | |- simulates (opcodeEqualVerify _) => apply sim_then_verify, sim_opcodeEqual
    | |- simulates (opcodeNumEqualVerify _) => apply sim_then_verify, sim_opcodeNumEqual
    | |- simulates (opcodeVerify _) => apply sim_abstractVerify
    | |- simulates (opcodeCodeSeparator _) => apply sim_opcodeCodeSeparator
    | |- _ => sim_handler
    end.
Qed.

(** ** Signatures *)

Class Verifies : Prop := {
  sim_verify hash sg pk : len hash = 32 -> simulates (verify_cached hash sg pk)
}.

Section signatures.
Context `{Verifies}.

Lemma sim_pop_n n : simulates (pop_n n).
Proof.
  induction n as [|n IH]; intros vm1 vm2 HR; simpl; [by apply sim_ret|].
  apply sim_bind; [by apply sim_dstack|]. intros so v1 v2 HR'. apply sim_bind; [by apply IH|]. intros. by apply sim_ret.
Qed.

(** The values that the two sides take from their engines are the same. *)
Ltac same_values := repeat match goal with HR : R ?v1 ?v2 |- _ => progress agree HR end.

Ltac sim_sig :=
  lazymatch goal with
  | |- sim (lift _ ≫= _) (lift _ ≫= _) _ _ => same_values; apply sim_lift_bind; [assumption|intros ? ?]; cbv beta zeta
  | |- sim (verify_cached _ _ _) _ _ _ => apply sim_verify; [eapply len_sig_hash; eassumption|assumption]
  | |- sim (pop_n _) _ _ _ => by apply sim_pop_n
  | |- _ => sim_step
  end.

Lemma sim_opcodeCheckSig op : simulates (opcodeCheckSig op).
Proof. intros vm1 vm2 HR. unfold opcodeCheckSig. repeat sim_sig. Qed.

Lemma sim_check_round script info key : simulates (check_round script info key).
Proof. intros vm1 vm2 HR. unfold check_round. repeat sim_sig. Qed.

Lemma sim_multisig_loop fuel script pks sigs ns np pi si : simulates (multisig_loop fuel script pks sigs ns np pi si).
Proof.
  revert sigs ns np pi si. induction fuel as [|fuel IH]; intros sigs ns np pi si vm1 vm2 HR; cbn [multisig_loop].
  { by apply sim_lift. }
  repeat first [lazymatch goal with |- sim (multisig_loop _ _ _ _ _ _ _ _) _ _ _ => by apply IH
                | |- sim (check_round _ _ _) _ _ _ => by apply sim_check_round end | sim_sig].
Qed.

Lemma sim_opcodeCheckMultiSig op : simulates (opcodeCheckMultiSig op).
Proof.
  intros vm1 vm2 HR. unfold opcodeCheckMultiSig, multisig_verdict.
  repeat first
    [ lazymatch goal with
      | |- sim (multisig_loop _ _ _ _ _ _ _ _) _ _ _ => by apply sim_multisig_loop
      | |- sim (modify _) (modify _) ?v1 ?v2 => match goal with HR' : R v1 v2 |- _ => apply sim_modify; rewrite (ag_numOps _ _ HR'); by apply ag_set_numOps end
      end
    | sim_sig ].
Qed.

Lemma sim_executeOp_unconditional po : popIsConditional po = false -> simulates (executeOp po).
Proof.
  intros Hc. destruct (is_signature_op (Value (Opc po))) eqn:Hs; [|by apply sim_executeOp_quiet].
  unfold executeOp. destruct (Value (Opc po)); try discriminate Hs;
    [apply sim_opcodeCheckSig|apply sim_then_verify, sim_opcodeCheckSig
    |apply sim_opcodeCheckMultiSig|apply sim_then_verify, sim_opcodeCheckMultiSig].
Qed.
End signatures.
End handlers.
End sim.
