(* ===== verification/CacheProps.v ===== *)
(** The signature cache is transparent: an execution with a cache all of whose
    entries verify gives the verdict of the execution without a cache, and it
    leaves such a cache behind. *)

From stdpp Require Import gmap.
From S2P Require Import Prelude TxScriptErr Params ScriptNum Stack Opcode Sha Wire ParseScript ScriptBuilder MsgTx.
From S2P Require Import ScriptUtil SigHash Field Btcec SigCache Engine Handlers Execute EngineSafety CheckSafety EngineInv EngineProps Simulation.

Section cache.
Context `{Crypto} `{MapOrder}.

(** Every entry of the cache is a signature that verifies. *)
Definition cache_sound (c : option SigCache) : Prop :=
  match c with
  | Some s => entries_ok (fun hash sg pk => Verify sg hash pk = true) s
  | None => True
  end.

(** The same engine with a sound cache and without one. *)
Definition cached (vm1 vm2 : Engine) : Prop := cache_sound (vm_sigCache vm1) /\ vm2 = set_sigCache None vm1.

#[local] Instance cached_agree : Agree cached.
Proof. split; intros; (match goal with HR : cached _ _ |- _ => destruct HR as [? ->] end); done. Qed.

Lemma to_hash_32 h : len h = 32 -> to_hash h = h.
Proof. intros Hh. unfold to_hash. unfold len in Hh. by rewrite take_app_length' by lia. Qed.

#[local] Instance cached_verifies : Verifies cached.
Proof.
  split. intros hash sg pk Hh vm1 vm2 [Hs ->]. unfold verify_cached. apply sim_gets. simpl. rewrite to_hash_32 by done.
  destruct (vm_sigCache vm1) as [s|] eqn:Ec; [|apply sim_ret; split; [by rewrite Ec|done]].
  destruct (SigCache_Exists hash sg pk s) eqn:Ee.
  - apply SigCache_Exists_lookup in Ee. simpl in Hs. apply Hs in Ee. simpl in Ee. rewrite Ee.
    apply sim_ret. split; [by rewrite Ec|done].
  - destruct (Verify sg hash pk) eqn:Ev; [|apply sim_ret; split; [by rewrite Ec|done]].
    unfold sim. simpl. split; [done|]. split; [|done]. simpl. by apply SigCache_Add_ok.
Qed.

(** The right-hand engine is the left-hand one without its cache, so what is
    taken from it is the same by computation. *)
Ltac related := solve [split; [first [assumption|simpl; assumption]|reflexivity]].

Ltac cached_step :=
  lazymatch goal with
  | |- sim _ (gets id ≫= _) (gets id ≫= _) _ _ => apply sim_gets
  | |- sim _ (lift ?m1 ≫= _) (lift ?m2 ≫= _) _ _ => change m2 with m1; apply sim_lift_bind; [related|intros ? ?]
  | |- sim _ (_ ≫= _) (_ ≫= _) _ _ => apply sim_bind; [|intros ? ? ? [? ->]]
  | |- sim _ (mret ?a1) (mret ?a2) _ _ => change a2 with a1; apply sim_ret; related
  | |- sim _ (mthrow _) _ _ _ => apply sim_throw; related
  | |- sim _ (lift ?m1) (lift ?m2) _ _ => change m2 with m1; apply sim_lift; related
  | |- sim _ (dstack ?m1) (dstack ?m2) _ _ => change m2 with m1; apply sim_dstack; [apply _|related]
  | |- sim _ (astack _) _ _ _ => apply sim_astack; [apply _|related]
  | |- sim _ (modify _) _ _ _ => apply sim_modify; related
  | |- sim _ (ignore_err _) _ _ _ => apply sim_ignore_err
  | |- sim _ (if ?b1 then _ else _) (if ?b2 then _ else _) _ _ => change b2 with b1; destruct b1
  | |- sim _ popIfBool _ _ _ => apply sim_popIfBool; [apply _|related]
  | |- sim _ next_script _ _ _ => apply sim_modify; related
  | |- sim _ (push_cond _) _ _ _ => apply sim_modify; related
  | |- sim _ (append_pops _) _ _ _ => apply sim_modify; related
  | |- sim _ (SetStack _) _ _ _ => apply sim_dstack; [apply _|related]
  end; cbv beta zeta.

Ltac cached_run := intros vm1 vm2 [Hs ->]; repeat cached_step.

Lemma cached_executeOp po : simulates cached (executeOp po).
Proof.
  destruct (popIsConditional po) eqn:Hc; [|by apply sim_executeOp_unconditional; [apply _..|]].
  unfold popIsConditional in Hc. unfold executeOp. destruct (Value (Opc po)); try discriminate Hc.
  - unfold opcodeIf. cached_run.
  - unfold opcodeNotIf. cached_run.
  - unfold opcodeElse. cached_run.
  - unfold opcodeEndif. cached_run.
Qed.

Lemma cached_executeOpcode po : simulates cached (executeOpcode po).
Proof. unfold executeOpcode. cached_run. apply cached_executeOp. related. Qed.

Lemma cached_verifyWitnessProgram w : simulates cached (verifyWitnessProgram w).
Proof. unfold verifyWitnessProgram, install_program. cached_run. Qed.

Lemma cached_CheckErrorCondition b : simulates cached (CheckErrorCondition b).
Proof. unfold CheckErrorCondition. cached_run. Qed.

Lemma cached_end_of_script : simulates cached end_of_script.
Proof.
  unfold end_of_script, install_redeem, skip_empty. cached_run;
    first [apply cached_CheckErrorCondition|apply cached_verifyWitnessProgram]; related.
Qed.

Lemma cached_Step : simulates cached Step.
Proof. unfold Step. cached_run; first [apply cached_executeOpcode|apply cached_end_of_script]; related. Qed.

Lemma cached_Execute : simulates cached Execute.
Proof.
  assert (forall fuel, simulates cached (step_loop fuel)) as Hl.
  { induction fuel as [|fuel IH]; cbn [step_loop]; cached_run; [apply cached_Step; related|apply IH; related]. }
  unfold Execute. cached_run; [apply Hl|apply cached_CheckErrorCondition]; related.
Qed.
End cache.

(** A new cache holds nothing. *)
Lemma NewSigCache_sound `{Crypto} n : cache_sound (Some (NewSigCache n)).
Proof. intros h e. simpl. by rewrite lookup_empty. Qed.

Lemma NewEngine_cache pk tx idx flags s hc amt :
  match NewEngine pk tx idx flags (Some s) hc amt, NewEngine pk tx idx flags None hc amt with
  | Ret vm1, Ret vm2 => vm_sigCache vm1 = Some s /\ vm2 = set_sigCache None vm1
  | Throw e1, Throw e2 => e1 = e2
  | Panic, Panic => True
  | _, _ => False
  end.
Proof.
  unfold NewEngine, mbind, outcome_bind, mret, outcome_ret.
  repeat match goal with |- match (if ?b then _ else _) with _ => _ end => destruct b end; try done.
  destruct (or_panic _) as [ti|e|]; try done. cbv zeta.
  repeat match goal with |- match (if ?b then _ else _) with _ => _ end => destruct b end; try done.
  destruct (parse_checked (ti_SignatureScript ti)), (parse_checked pk); try done.
  repeat match goal with |- match (if ?b then _ else _) with _ => _ end => destruct b end; try done.
  match goal with |- match (match ?m with _ => _ end) with _ => _ end => destruct m as [[ver prog]|e|] end; done.
Qed.

(** C12: the signature cache changes no verdict.  For every input, an engine with a
    cache that holds only signatures that verify and an engine without a cache are
    built alike, and [Execute] gives the same result (success or error code) with
    both; the cache that it leaves behind again holds only signatures that
    verify. *)
Theorem sigcache_transparent `{Crypto} `{MapOrder} (pk : bytes) (tx : MsgTx) (idx flags : Z) (s : SigCache)
    (hc : option TxSigHashes) (amt : Z) (Hs : cache_sound (Some s)) :
  match NewEngine pk tx idx flags (Some s) hc amt, NewEngine pk tx idx flags None hc amt with
  | Ret vm1, Ret vm2 =>
    fst (Execute vm1) = fst (Execute vm2) /\ cache_sound (vm_sigCache (snd (Execute vm1)))
  | Throw e1, Throw e2 => e1 = e2
  | Panic, Panic => True
  | _, _ => False
  end.
Proof.
  pose proof (NewEngine_cache pk tx idx flags s hc amt) as Hn.
  destruct (NewEngine pk tx idx flags (Some s) hc amt) as [vm1|e|], (NewEngine pk tx idx flags None hc amt) as [vm2|e'|]; try done.
  destruct Hn as [Hc ->]. pose proof (cached_Execute vm1 (set_sigCache None vm1)) as Hsim. unfold sim in Hsim.
  destruct (Execute vm1) as [r1 v1], (Execute (set_sigCache None vm1)) as [r2 v2].
  assert (cached vm1 (set_sigCache None vm1)) as HR by (split; [by rewrite Hc|done]). specialize (Hsim HR).
  destruct r1 as [[]|e|], r2 as [[]|e'|]; try done; simpl.
  - by destruct Hsim as [_ []].
  - by destruct Hsim as [-> []].
  - by destruct Hsim.
Qed.

Definition sample_cache : SigCache :=
  SigCache_Add (H := map_to_list_order) (repeat Byte.x07 32) (mkSig 3 4) (mkPub 5 6) (NewSigCache 10).

Lemma sample_cache_sound : cache_sound (H := sample_crypto) (Some sample_cache).
Proof.
  apply (SigCache_Add_ok (H := map_to_list_order)); [apply (NewSigCache_sound (H := sample_crypto))|reflexivity].
Qed.

Lemma sigcache_transparent_witness :
  exists vm1 vm2, NewEngine sample_script sample_input 0 0 (Some sample_cache) None 0 = Ret vm1 /\
    NewEngine sample_script sample_input 0 0 None None 0 = Ret vm2 /\
    fst (Execute (H := sample_crypto) (H0 := map_to_list_order) vm1) =
    fst (Execute (H := sample_crypto) (H0 := map_to_list_order) vm2).
Proof.
  pose proof (sigcache_transparent (H := sample_crypto) (H0 := map_to_list_order)
    sample_script sample_input 0 0 sample_cache None 0 sample_cache_sound) as Ht.
  destruct (NewEngine sample_script sample_input 0 0 (Some sample_cache) None 0) as [vm1|e|] eqn:E1; [|discriminate E1..].
  destruct (NewEngine sample_script sample_input 0 0 None None 0) as [vm2|e|] eqn:E2; [|discriminate E2..].
  exists vm1, vm2. split; [reflexivity|]. split; [reflexivity|]. exact (proj1 Ht).
Defined.
