(* ===== verification/Conditionals.v ===== *)
(** Conditionals: the engine runs a flat list of opcodes and keeps a stack of
    branch states; a script with balanced conditionals means what its nesting
    says.  The structured reading evaluates the branch that is taken and only
    counts the opcodes of the other; it has no stack of branch states. *)

From S2P Require Import Prelude TxScriptErr Params ScriptNum Stack Opcode Sha Wire ParseScript ScriptBuilder MsgTx.
From S2P Require Import ScriptUtil SigHash Field Btcec SigCache Engine Handlers Execute EngineSafety EngineProps Simulation.

(** * Structured scripts *)

(** [SIf op bodies endif rest]: the bodies are separated by [OP_ELSE]. *)
Inductive script :=
| SEnd
| SOp (po : ParsedOpcode) (rest : script)
| SIf (op : ParsedOpcode) (bs : bodies) (endif : ParsedOpcode) (rest : script)
with bodies :=
| BLast (s : script)
| BElse (s : script) (els : ParsedOpcode) (bs : bodies).

Scheme script_mind := Induction for script Sort Prop
with bodies_mind := Induction for bodies Sort Prop.
Combined Scheme script_bodies_ind from script_mind, bodies_mind.

Fixpoint flatten (s : script) : list ParsedOpcode :=
  match s with
  | SEnd => []
  | SOp po rest => po :: flatten rest
  | SIf op bs endif rest => op :: flatten_bodies bs ++ endif :: flatten rest
  end
with flatten_bodies (bs : bodies) : list ParsedOpcode :=
  match bs with
  | BLast s => flatten s
  | BElse s els bs' => flatten s ++ els :: flatten_bodies bs'
  end.

Fixpoint script_wf (s : script) : Prop :=
  match s with
  | SEnd => True
  | SOp po rest => popIsConditional po = false /\ script_wf rest
  | SIf op bs endif rest =>
    (Value (Opc op) = OP_IF \/ Value (Opc op) = OP_NOTIF) /\ bodies_wf bs /\ Value (Opc endif) = OP_ENDIF /\ script_wf rest
  end
with bodies_wf (bs : bodies) : Prop :=
  match bs with
  | BLast s => script_wf s
  | BElse s els bs' => script_wf s /\ Value (Opc els) = OP_ELSE /\ bodies_wf bs'
  end.

Section conditionals.
Context `{Crypto} `{MapOrder}.

(** The checks that an opcode goes through even in a branch that is not taken. *)
Definition visit (po : ParsedOpcode) : EM () :=
  if popIsDisabled po then mthrow ErrDisabledOpcode else
  if popAlwaysIllegal po then mthrow ErrReservedOpcode else
  if u8 OP_16 <? u8 (Value (Opc po)) then
    modify (fun vm => set_numOps (vm_numOps vm + 1) vm);;
    vm ← gets id;
    if MaxOpsPerScript <? vm_numOps vm then mthrow ErrTooManyOperations else mret ()
  else if MaxScriptElementSize <? len (Data po) then mthrow ErrElementTooBig
  else mret ().

(** An opcode that is not a conditional, in a branch that is taken. *)
Definition perform (po : ParsedOpcode) : EM () :=
  visit po;;
  vm ← gets id;
  (if verifyMinimalData (vm_dstack vm) && (u8 (Value (Opc po)) <=? u8 OP_PUSHDATA4)
   then lift (popCheckMinimalDataPush po) else mret ());;
  executeOp po.

Fixpoint run_all (f : ParsedOpcode -> EM ()) (pops : list ParsedOpcode) : EM () :=
  match pops with
  | [] => mret ()
  | po :: pops' => f po;; run_all f pops'
  end.

Definition skip (s : script) : EM () := run_all visit (flatten s).

Fixpoint eval (s : script) : EM () :=
  match s with
  | SEnd => mret ()
  | SOp po rest => perform po;; eval rest
  | SIf op bs endif rest =>
    visit op;;
    ok ← popIfBool;
    eval_bodies (xorb (bool_decide (Value (Opc op) = OP_NOTIF)) ok) bs;;
    visit endif;;
    eval rest
  end
with eval_bodies (taken : bool) (bs : bodies) : EM () :=
  match bs with
  | BLast s => if taken then eval s else skip s
  | BElse s els bs' => (if taken then eval s else skip s);; visit els;; eval_bodies (negb taken) bs'
  end.

(** * The branch states *)

(** The same engine but for the branch states, which are [l] on the right. *)
Definition branch (l : list Z) (vm1 vm2 : Engine) : Prop := vm2 = set_condStack l vm1.

#[local] Instance branch_agree l : Agree (branch l).
Proof. split; by intros; (match goal with HR : branch _ _ _ |- _ => rewrite HR end). Qed.

#[local] Instance branch_verifies l : Verifies (branch l).
Proof.
  split. intros hash sg pk _ vm1 vm2 ->. unfold verify_cached. apply sim_gets. simpl.
  destruct (vm_sigCache vm1); [|by apply sim_ret].
  destruct (SigCache_Exists _ _ _ _); [by apply sim_ret|]. by destruct (Verify _ _ _).
Qed.

Definition executing (l : list Z) : bool :=
  if len l =? 0 then true else match index l (len l - 1) with Some c => c =? OpCondTrue | None => false end.

Lemma executing_snoc l c : executing (l ++ [c]) = (c =? OpCondTrue).
Proof. unfold executing. rewrite index_last. by destruct (Z.eqb_spec (len (l ++ [c])) 0); [len_lia|]. Qed.

(** Same verdict; related states when both return. *)
Definition meets {A} (R : Engine -> Engine -> Prop) (m1 m2 : EM A) (vm1 vm2 : Engine) : Prop :=
  match m1 vm1, m2 vm2 with
  | (Ret a1, v1), (Ret a2, v2) => a1 = a2 /\ R v1 v2
  | (Throw e1, _), (Throw e2, _) => e1 = e2
  | (Panic, _), (Panic, _) => True
  | _, _ => False
  end.

Lemma sim_meets {A} R (m1 m2 : EM A) vm1 vm2 : sim R m1 m2 vm1 vm2 -> meets R m1 m2 vm1 vm2.
Proof. unfold sim, meets. destruct (m1 vm1) as [[] ?], (m2 vm2) as [[] ?]; try done. by intros [-> _]. Qed.

Lemma meets_bind {A B} R R' (m1 m2 : EM A) (f1 f2 : A -> EM B) vm1 vm2 :
  meets R m1 m2 vm1 vm2 -> (forall a v1 v2, R v1 v2 -> meets R' (f1 a) (f2 a) v1 v2) ->
  meets R' (m1 ≫= f1) (m2 ≫= f2) vm1 vm2.
Proof.
  unfold meets, mbind, St_bind. destruct (m1 vm1) as [[a1|e1|] v1], (m2 vm2) as [[a2|e2|] v2]; try done.
  intros [-> HR] Hf. by apply Hf.
Qed.

Lemma bind_assoc {A B C} (m : EM A) (f : A -> EM B) (g : B -> EM C) vm : ((m ≫= f) ≫= g) vm = (m ≫= (fun a => f a ≫= g)) vm.
Proof. unfold mbind, St_bind. by destruct (m vm) as [[] ?]. Qed.

Lemma run_all_app f a b vm : run_all f (a ++ b) vm = (run_all f a;; run_all f b) vm.
Proof.
  revert vm. induction a as [|po a IH]; intros vm; simpl; [done|]. rewrite bind_assoc.
  unfold mbind, St_bind in *. destruct (f po vm) as [[] v]; [apply IH|done|done].
Qed.

Lemma sim_visit l po : simulates (branch l) (visit po).
Proof.
  intros vm1 vm2 ->. unfold visit. destruct (popIsDisabled po); [done|]. destruct (popAlwaysIllegal po); [done|].
  destruct (_ <? _); [|by destruct (_ <? _)]. apply sim_bind; [done|]. intros _ v1 v2 ->. apply sim_gets. simpl.
  by destruct (_ <? _).
Qed.

(** An opcode is visited first, whatever the branch. *)
Definition then_execute (po : ParsedOpcode) : EM () :=
  vm ← gets id;
  if negb (isBranchExecuting vm) && negb (popIsConditional po) then mret () else
  (if verifyMinimalData (vm_dstack vm) && isBranchExecuting vm &&
      (u8 (Value (Opc po)) <=? u8 OP_PUSHDATA4)
   then lift (popCheckMinimalDataPush po) else mret ());;
  executeOp po.

Lemma executeOpcode_visit po vm : executeOpcode po vm = (visit po;; then_execute po) vm.
Proof.
  unfold executeOpcode, visit. destruct (popIsDisabled po); [done|]. destruct (popAlwaysIllegal po); [done|]. done.
Qed.

Lemma meets_visit R l po (k1 : EM ()) (k2 : EM ()) vm1 vm2 :
  branch l vm1 vm2 -> (forall v1 v2, branch l v1 v2 -> meets R k1 (then_execute po;; k2) v1 v2) ->
  meets R (visit po;; k1) (executeOpcode po;; k2) vm1 vm2.
Proof.
  intros HR Hk. assert ((executeOpcode po;; k2) vm2 = (visit po;; (then_execute po;; k2)) vm2) as E.
  { rewrite <- bind_assoc. unfold mbind at 1 3, St_bind. by rewrite executeOpcode_visit. }
  unfold meets. rewrite E. change (meets R (visit po;; k1) (visit po;; (then_execute po;; k2)) vm1 vm2).
  eapply meets_bind; [by apply sim_meets, sim_visit|]. intros _. apply Hk.
Qed.

Lemma visit_then l po vm1 vm2 (k : EM ()) :
  branch l vm1 vm2 -> (forall v1 v2, branch l v1 v2 -> meets (branch l) k (then_execute po) v1 v2) ->
  meets (branch l) (visit po;; k) (executeOpcode po) vm1 vm2.
Proof.
  intros HR Hk. unfold meets. rewrite executeOpcode_visit.
  change (meets (branch l) (visit po;; k) (visit po;; then_execute po) vm1 vm2).
  eapply meets_bind; [by apply sim_meets, sim_visit|]. intros _. apply Hk.
Qed.

Lemma perform_meets l po vm1 vm2 :
  executing l = true -> popIsConditional po = false -> branch l vm1 vm2 ->
  meets (branch l) (perform po) (executeOpcode po) vm1 vm2.
Proof.
  intros Hl Hc HR. apply visit_then; [done|]. intros v1 v2 ->. apply sim_meets. unfold then_execute. apply sim_gets.
  change (isBranchExecuting (set_condStack l v1)) with (executing l). rewrite Hl. simpl. rewrite andb_true_r.
  apply sim_bind; [by destruct (_ && _); [apply sim_lift|apply sim_ret]|]. intros _ v1' v2' HR'.
  by apply sim_executeOp_unconditional; [apply _..| |].
Qed.

Lemma skip_meets l po vm1 vm2 :
  executing l = false -> popIsConditional po = false -> branch l vm1 vm2 ->
  meets (branch l) (visit po) (executeOpcode po) vm1 vm2.
Proof.
  intros Hl Hc HR. assert (visit po vm1 = (visit po;; mret ()) vm1) as E.
  { unfold mbind, St_bind. by destruct (visit po vm1) as [[[]| |] ?]. }
  unfold meets. rewrite E. apply (visit_then l); [done|]. intros v1 v2 ->. apply sim_meets. unfold then_execute.
  unfold sim, mbind, St_bind. simpl. change (isBranchExecuting (set_condStack l v1)) with (executing l).
  by rewrite Hl, Hc.
Qed.

(** ** The conditionals themselves *)

Definition cond_of (b : bool) : Z := if b then OpCondTrue else OpCondFalse.

Lemma then_execute_conditional po vm :
  popIsConditional po = true -> then_execute po vm = executeOp po vm.
Proof.
  intros Hc. unfold then_execute. rewrite Hc. unfold mbind at 1, St_bind. simpl. rewrite andb_false_r.
  assert ((u8 (Value (Opc po)) <=? u8 OP_PUSHDATA4) = false) as ->.
  { unfold popIsConditional in Hc. by destruct (Value (Opc po)). }
  by rewrite andb_false_r.
Qed.

Lemma meets_ext {A} R (m1 m1' m2 m2' : EM A) vm1 vm2 :
  m1 vm1 = m1' vm1 -> m2 vm2 = m2' vm2 -> meets R m1' m2' vm1 vm2 -> meets R m1 m2 vm1 vm2.
Proof. unfold meets. by intros -> ->. Qed.

Lemma meets_conditional l op (k1 k2 : EM ()) R vm1 vm2 :
  popIsConditional op = true -> branch l vm1 vm2 ->
  (forall v1, meets R k1 (executeOp op;; k2) v1 (set_condStack l v1)) ->
  meets R (visit op;; k1) (executeOpcode op;; k2) vm1 vm2.
Proof.
  intros Hop HR Hk. apply (meets_visit R l); [done|]. intros v1 v2 ->.
  apply (meets_ext _ _ k1 _ (executeOp op;; k2)); [done| |apply Hk].
  unfold mbind, St_bind. by rewrite then_execute_conditional.
Qed.

Lemma is_if_conditional op : Value (Opc op) = OP_IF \/ Value (Opc op) = OP_NOTIF -> popIsConditional op = true.
Proof. unfold popIsConditional. by intros [-> | ->]. Qed.

Lemma meets_if l op (k1 : bool -> EM ()) k2 R vm1 vm2 :
  executing l = true -> Value (Opc op) = OP_IF \/ Value (Opc op) = OP_NOTIF -> branch l vm1 vm2 ->
  (forall b v1 v2, branch (l ++ [cond_of b]) v1 v2 -> meets R (k1 b) k2 v1 v2) ->
  meets R (visit op;; ok ← popIfBool; k1 (xorb (bool_decide (Value (Opc op) = OP_NOTIF)) ok)) (executeOpcode op;; k2) vm1 vm2.
Proof.
  intros Hl Hop HR Hk. apply (meets_conditional l); [by apply is_if_conditional|done|]. intros v1.
  assert (sim (branch l) popIfBool popIfBool v1 (set_condStack l v1)) as Hs by (by apply sim_popIfBool; [apply _|]).
  unfold meets, sim, executeOp in *. destruct Hop as [E|E]; rewrite E.
  all: unfold opcodeIf, opcodeNotIf, mbind, St_bind, gets in *; simpl.
  all: change (isBranchExecuting (set_condStack l v1)) with (executing l); rewrite Hl.
  all: destruct (popIfBool v1) as [[b1|e1|] w1], (popIfBool (set_condStack l v1)) as [[b2|e2|] w2]; try done.
  all: destruct Hs as [? Hw]; try done.
  all: subst; apply Hk; unfold branch in *; subst; simpl; by destruct b2.
Qed.

Lemma meets_if_skipped l op (k1 k2 : EM ()) R vm1 vm2 :
  executing l = false -> Value (Opc op) = OP_IF \/ Value (Opc op) = OP_NOTIF -> branch l vm1 vm2 ->
  (forall v1 v2, branch (l ++ [OpCondSkip]) v1 v2 -> meets R k1 k2 v1 v2) ->
  meets R (visit op;; k1) (executeOpcode op;; k2) vm1 vm2.
Proof.
  intros Hl Hop HR Hk. apply (meets_conditional l); [by apply is_if_conditional|done|]. intros v1.
  unfold meets, executeOp in *. destruct Hop as [E|E]; rewrite E.
  all: unfold opcodeIf, opcodeNotIf, mbind, St_bind, gets in *; simpl.
  all: change (isBranchExecuting (set_condStack l v1)) with (executing l); rewrite Hl; by apply Hk.
Qed.

Definition toggled (c : Z) : Z := if c =? OpCondTrue then OpCondFalse else if c =? OpCondFalse then OpCondTrue else c.

Lemma meets_else l c op (k1 k2 : EM ()) R vm1 vm2 :
  Value (Opc op) = OP_ELSE -> branch (l ++ [c]) vm1 vm2 ->
  (forall v1 v2, branch (l ++ [toggled c]) v1 v2 -> meets R k1 k2 v1 v2) ->
  meets R (visit op;; k1) (executeOpcode op;; k2) vm1 vm2.
Proof.
  intros E HR Hk. apply (meets_conditional (l ++ [c])); [by unfold popIsConditional; rewrite E|done|]. intros v1.
  unfold meets, executeOp in *. rewrite E. unfold opcodeElse, mbind, St_bind, gets in *. simpl.
  destruct (Z.eqb_spec (len (l ++ [c])) 0); [len_lia|]. rewrite index_last. simpl. rewrite !insert_snoc.
  unfold toggled in Hk. destruct (c =? OpCondTrue); [by apply Hk|]. destruct (c =? OpCondFalse); by apply Hk.
Qed.

Lemma meets_endif l c op (k1 k2 : EM ()) R vm1 vm2 :
  Value (Opc op) = OP_ENDIF -> branch (l ++ [c]) vm1 vm2 ->
  (forall v1 v2, branch l v1 v2 -> meets R k1 k2 v1 v2) ->
  meets R (visit op;; k1) (executeOpcode op;; k2) vm1 vm2.
Proof.
  intros E HR Hk. apply (meets_conditional (l ++ [c])); [by unfold popIsConditional; rewrite E|done|]. intros v1.
  unfold meets, executeOp in *. rewrite E. unfold opcodeEndif, mbind, St_bind, gets in *. simpl.
  destruct (Z.eqb_spec (len (l ++ [c])) 0); [len_lia|]. rewrite (slice_to_app l) by len_lia. simpl. by apply Hk.
Qed.

(** * The two readings *)

Lemma meets_app R R' (m1 k1 : EM ()) a b vm1 vm2 :
  meets R m1 (run_all executeOpcode a) vm1 vm2 ->
  (forall v1 v2, R v1 v2 -> meets R' k1 (run_all executeOpcode b) v1 v2) ->
  meets R' (m1;; k1) (run_all executeOpcode (a ++ b)) vm1 vm2.
Proof.
  intros Hm Hk. eapply meets_ext; [done|apply run_all_app|]. eapply meets_bind; [done|]. intros _. apply Hk.
Qed.

Lemma visit_app R m a b vm1 vm2 :
  meets R (run_all visit a;; run_all visit b) m vm1 vm2 -> meets R (run_all visit (a ++ b)) m vm1 vm2.
Proof. intros Hm. eapply meets_ext; [apply run_all_app|done|done]. Qed.

(** A branch that is not taken is only counted. *)
Lemma skip_flat :
  (forall s, script_wf s -> forall l vm1 vm2, executing l = false -> branch l vm1 vm2 ->
     meets (branch l) (skip s) (run_all executeOpcode (flatten s)) vm1 vm2) /\
  (forall bs, bodies_wf bs -> forall l vm1 vm2, branch (l ++ [OpCondSkip]) vm1 vm2 ->
     meets (branch (l ++ [OpCondSkip])) (run_all visit (flatten_bodies bs))
       (run_all executeOpcode (flatten_bodies bs)) vm1 vm2).
Proof.
  unfold skip. apply script_bodies_ind.
  - intros _ l vm1 vm2 _ HR. by apply sim_meets, sim_ret.
  - intros po rest IH [Hc Hw] l vm1 vm2 Hl HR. simpl. eapply meets_bind; [by apply (skip_meets l)|].
    intros _ v1 v2 HR'. by apply IH.
  - intros op bs IHb endif rest IHr (Hop & Hb & He & Hr) l vm1 vm2 Hl HR. simpl.
    apply (meets_if_skipped l); [done|done|done|]. intros v1 v2 HR1.
    apply visit_app. eapply meets_app; [by apply IHb|]. intros w1 w2 HR2. simpl.
    eapply meets_endif; [done|done|]. intros x1 x2 HR3. by apply IHr.
  - intros s IH Hw l vm1 vm2 HR. apply IH; [done| |done]. by rewrite executing_snoc.
  - intros s IH els bs IHb (Hw & He & Hb) l vm1 vm2 HR. simpl. apply visit_app.
    eapply meets_app; [apply IH; [done| |done]; by rewrite executing_snoc|]. intros v1 v2 HR1. simpl.
    eapply meets_else; [done|done|]. intros w1 w2 HR2. by apply IHb.
Qed.

Lemma eval_flat :
  (forall s, script_wf s -> forall l vm1 vm2, executing l = true -> branch l vm1 vm2 ->
     meets (branch l) (eval s) (run_all executeOpcode (flatten s)) vm1 vm2) /\
  (forall bs, bodies_wf bs -> forall l b vm1 vm2, branch (l ++ [cond_of b]) vm1 vm2 ->
     meets (fun v1 v2 => exists c, branch (l ++ [c]) v1 v2) (eval_bodies b bs)
       (run_all executeOpcode (flatten_bodies bs)) vm1 vm2).
Proof.
  assert (forall s l b vm1 vm2, (forall l vm1 vm2, executing l = true -> branch l vm1 vm2 ->
      meets (branch l) (eval s) (run_all executeOpcode (flatten s)) vm1 vm2) -> script_wf s ->
    branch (l ++ [cond_of b]) vm1 vm2 ->
    meets (branch (l ++ [cond_of b])) (if b then eval s else skip s) (run_all executeOpcode (flatten s)) vm1 vm2) as Hbody.
  { intros s l b vm1 vm2 IH Hw HR. destruct b; [apply IH|apply skip_flat]; rewrite ?executing_snoc; done. }
  apply script_bodies_ind.
  - intros _ l vm1 vm2 _ HR. by apply sim_meets, sim_ret.
  - intros po rest IH [Hc Hw] l vm1 vm2 Hl HR. simpl. eapply meets_bind; [by apply (perform_meets l)|].
    intros _ v1 v2 HR'. by apply IH.
  - intros op bs IHb endif rest IHr (Hop & Hb & He & Hr) l vm1 vm2 Hl HR. cbn [eval flatten run_all].
    apply (meets_if l _ (fun b => eval_bodies b bs;; visit endif;; eval rest)); [done|done|done|].
    intros b v1 v2 HR1. eapply meets_app; [by apply IHb|]. intros w1 w2 [c HR2]. cbn [run_all].
    eapply meets_endif; [done|done|]. intros x1 x2 HR3. by apply IHr.
  - intros s IH Hw l b vm1 vm2 HR. cbn [eval_bodies flatten_bodies].
    pose proof (Hbody s l b vm1 vm2 (IH Hw) Hw HR) as Hm. revert Hm. unfold meets.
    destruct ((if b then eval s else skip s) vm1) as [[] ?], (run_all executeOpcode (flatten s) vm2) as [[] ?]; try done.
    intros [? ?]. eauto.
  - intros s IH els bs IHb (Hw & He & Hb) l b vm1 vm2 HR. cbn [eval_bodies flatten_bodies].
    eapply meets_app; [exact (Hbody s l b vm1 vm2 (IH Hw) Hw HR)|]. intros v1 v2 HR1. cbn [run_all].
    eapply meets_else; [done|done|]. intros w1 w2 HR2. apply IHb; [done|]. by destruct b.
Qed.
End conditionals.

(** C15: conditionals mean what their nesting says.  Running the opcodes of a script
    with balanced [OP_IF]/[OP_NOTIF], [OP_ELSE] and [OP_ENDIF] one after the other,
    in a branch that executes, has the result of the structured evaluation, which
    takes one condition from the stack per conditional, runs the bodies that are
    taken and counts the opcodes of the others; on success the engines are equal,
    branch states included. *)
Theorem conditionals_structured `{Crypto} `{MapOrder} (s : script) (vm : Engine)
    (Hwf : script_wf s) (Hexec : isBranchExecuting vm = true) :
  fst (run_all executeOpcode (flatten s) vm) = fst (eval s vm) /\
  (fst (eval s vm) = Ret () -> snd (run_all executeOpcode (flatten s) vm) = set_condStack (vm_condStack vm) (snd (eval s vm))).
Proof.
  pose proof (proj1 eval_flat s Hwf (vm_condStack vm) vm vm Hexec) as Hm. unfold meets in Hm.
  assert (branch (vm_condStack vm) vm vm) as HR by (by destruct vm). specialize (Hm HR).
  destruct (eval s vm) as [[[]|e1|] v1], (run_all executeOpcode (flatten s) vm) as [[[]|e2|] v2]; try done; simpl.
  - by destruct Hm as [_ ->].
  - by rewrite Hm.
Qed.

Definition sample_nested : script :=
  SIf (pop OP_IF) (BElse (SOp (pop OP_2) (SIf (pop OP_NOTIF) (BLast (SOp (pop OP_RETURN) SEnd)) (pop OP_ENDIF) SEnd))
    (pop OP_ELSE) (BLast (SOp (pop OP_RETURN) SEnd))) (pop OP_ENDIF) (SOp (pop OP_3) SEnd).

Definition sample_vm : Engine :=
  mkEngine [[]; []] 1 0 0 (mkStack [[Byte.x01]] false) (new_stack false) sample_input 0 [] 0 0 None None false [] 0 None 0.

Lemma conditionals_structured_witness :
  fst (run_all (executeOpcode (H := sample_crypto) (H0 := map_to_list_order)) (flatten sample_nested) sample_vm) = Ret () /\
  stk (vm_dstack (snd (run_all (executeOpcode (H := sample_crypto) (H0 := map_to_list_order)) (flatten sample_nested) sample_vm))) = [[Byte.x03]].
Proof.
  destruct (conditionals_structured (H := sample_crypto) (H0 := map_to_list_order) sample_nested sample_vm) as [-> Hv];
    [by repeat split; auto|reflexivity|].
  split; [reflexivity|]. rewrite Hv by reflexivity. reflexivity.
Defined.
