(* ===== verification/MultiSig.v ===== *)
(** [OP_CHECKMULTISIG] (src/txscript/opcode.go, [opcodeCheckMultiSig]) decides
    whether the signatures can be assigned to the keys in order: its loop over the
    keys is greedy, remembers parsed signatures and goes through the signature
    cache. *)

From stdpp Require Import gmap.
From S2P Require Import Prelude TxScriptErr Params ScriptNum Stack Opcode Sha Wire ParseScript ScriptBuilder MsgTx.
From S2P Require Import ScriptUtil SigHash Field Btcec BtcecProps SigCache Engine Handlers Execute.
From S2P Require Import EngineSafety CheckSafety EngineInv EngineProps Simulation CacheProps.

(** * Assignments *)

Lemma rev_reverse {A} (l : list A) : rev l = reverse l.
Proof. apply rev_alt. Qed.

Lemma sublist_rev {A} (l1 l2 : list A) : sublist l1 l2 -> sublist (rev l1) (rev l2).
Proof. induction 1; simpl; [constructor|by apply sublist_app|by apply sublist_inserts_r]. Qed.

Section matching.
Context {A B : Type} (ok : A -> B -> bool).

(** Each signature verifies under a key of its own, in the order of the keys. *)
Definition assigned (sigs : list A) (keys : list B) : Prop :=
  exists keys', sublist keys' keys /\ Forall2 (fun s k => ok s k = true) sigs keys'.

Lemma assigned_nil keys : assigned [] keys.
Proof. exists []. split; [apply sublist_nil_l|constructor]. Qed.

Lemma assigned_len sigs keys : assigned sigs keys -> len sigs <= len keys.
Proof. intros (keys' & Hs%sublist_length & Hf%Forall2_length). unfold len. lia. Qed.

Lemma assigned_tail s sigs keys : assigned (s :: sigs) keys -> assigned sigs keys.
Proof.
  intros (keys' & Hs & Hf). inversion Hf as [|? k ? keys'' Hok Hf' E1 E2]; subst. exists keys''. split; [|done].
  etrans; [by apply sublist_cons|done].
Qed.

(** The first key settles the first signature. *)
Lemma assigned_cons s sigs k keys :
  assigned (s :: sigs) (k :: keys) <-> if ok s k then assigned sigs keys else assigned (s :: sigs) keys.
Proof.
  split.
  - intros (keys' & Hs & Hf). inversion Hf as [|? k' ? keys'' Hok Hf' E1 E2]; subst.
    apply sublist_cons_r in Hs as [Hs|(l & E & Hs)].
    + assert (assigned (s :: sigs) keys) as Ha by (by exists (k' :: keys'')).
      destruct (ok s k); [by apply (assigned_tail s)|done].
    + injection E as -> ->. rewrite Hok. by exists l.
  - destruct (ok s k) eqn:E; intros (keys' & Hs & Hf).
    + exists (k :: keys'). split; [by apply sublist_skip|by constructor].
    + exists keys'. split; [by apply sublist_cons|done].
Qed.

Lemma assigned_rev sigs keys : assigned (rev sigs) (rev keys) <-> assigned sigs keys.
Proof.
  assert (forall s k, assigned s k -> assigned (rev s) (rev k)) as H.
  { intros s k (k' & Hs & Hf). exists (rev k'). split; [by apply sublist_rev|]. rewrite !rev_reverse. by apply Forall2_reverse. }
  split; [|apply H]. intros Ha%H. by rewrite !rev_involutive in Ha.
Qed.
End matching.

Section multisig.
Context `{Crypto} `{MapOrder}.

(** One signature, with its hash type as last byte, under one key. *)
Definition sig_ok (vm : Engine) (script : list ParsedOpcode) (rawSig pubKey : bytes) : bool :=
  match index rawSig (len rawSig - 1), slice_to rawSig (len rawSig - 1) with
  | Some ht, Some signature =>
    match parse_signature vm signature, parse_pubkey pubKey, sig_hash script (u8 ht) vm with
    | Ret (Some sg), Ret (Some pk), Ret hash => Verify sg hash pk
    | _, _, _ => false
    end
  | _, _ => false
  end.

(** What has been remembered of a signature is right. *)
Definition info_ok (vm : Engine) (si : parsedSigInfo) : Prop :=
  si_parsed si = true -> forall signature, slice_to (si_signature si) (len (si_signature si) - 1) = Some signature ->
    parse_signature vm signature = Ret (si_parsedSignature si).

(** An encoding that the flags demand is missing: the error [e] is the one of the hash
    type or the encoding of a signature, or of the encoding of a key. *)
Definition refused (vm : Engine) (sigs keys : list bytes) (e : scripterr) : Prop :=
  (exists signature ht, signature ++ [ht] ∈ sigs /\
     (checkHashTypeEncoding vm (u8 ht) = Throw e \/ checkSignatureEncoding vm signature = Throw e)) \/
  (exists key, key ∈ keys /\ checkPubKeyEncoding vm key = Throw e).

(** The cases of a call that does not panic. *)
Lemma wp_lift_cases {A} (vm : Engine) (m : outcome scripterr A) (Q : A -> Engine -> Prop) (X : scripterr -> Engine -> Prop) :
  m <> Panic -> (forall a, m = Ret a -> Q a vm) -> (forall e, m = Throw e -> X e vm) -> wp (lift m) Q X vm.
Proof. intros Hp HQ HX. apply wp_lift. destruct m; [by apply HQ|by apply HX|done]. Qed.

Lemma verify_cached_wp X hash sg pk vm :
  cache_sound (vm_sigCache vm) -> len hash = 32 ->
  wp (verify_cached hash sg pk) (fun b vm' => b = Verify sg hash pk /\ exists c, vm' = set_sigCache c vm /\ cache_sound c) X vm.
Proof.
  intros Hs Hh. assert (vm = set_sigCache (vm_sigCache vm) vm) as Hid by (by destruct vm).
  unfold verify_cached. wp_step. wp_step. rewrite to_hash_32 by done. destruct (vm_sigCache vm) as [s|] eqn:Ec; [|wp_step; eauto].
  destruct (SigCache_Exists hash sg pk s) eqn:Ee.
  - wp_step. apply SigCache_Exists_lookup, Hs in Ee. simpl in Ee. eauto.
  - destruct (Verify sg hash pk) eqn:Ev; [|wp_step; eauto]. wp_step. wp_step. wp_step. split; [done|]. eexists. split; [done|].
    by apply SigCache_Add_ok.
Qed.

(** ** One round *)

Lemma index_drop {A} (l : list A) i x : index l i = Some x -> drop (Z.to_nat i) l = x :: drop (Z.to_nat (i + 1)) l.
Proof.
  unfold index. destruct (Z.leb_spec 0 i); [|done]. intros Hx. rewrite (drop_S l x) by done.
  by replace (Z.to_nat (i + 1)) with (S (Z.to_nat i)) by lia.
Qed.

Lemma round_signature_spec vm si ht signature :
  info_ok vm si -> slice_to (si_signature si) (len (si_signature si) - 1) = Some signature ->
  round_signature vm si ht signature <> Panic /\
  (forall e, round_signature vm si ht signature = Throw e ->
     checkHashTypeEncoding vm ht = Throw e \/ checkSignatureEncoding vm signature = Throw e) /\
  (forall psg si', round_signature vm si ht signature = Ret (psg, si') ->
     parse_signature vm signature = Ret psg /\ si_signature si' = si_signature si /\ info_ok vm si').
Proof.
  intros Hi Hs. split; [apply round_signature_no_panic|]. unfold round_signature. destruct (si_parsed si) eqn:Ep; simpl.
  - split; [done|]. intros psg si' [= <- <-]. split; [by apply Hi|]. done.
  - destruct (checkHashTypeEncoding vm ht); simpl; [|by split; [intros ? [= <-]; left|]|done].
    destruct (checkSignatureEncoding vm signature); simpl; [|by split; [intros ? [= <-]; right|]|done].
    destruct (parse_signature vm signature) as [sg|e|] eqn:Eg; simpl; [split; [done|]| |done].
    + intros psg si' [= <- <-]. split; [done|]. split; [done|]. intros _ s'. simpl. rewrite Hs. by intros [= <-].
    + exfalso. revert Eg. unfold parse_signature. by case_match.
Qed.

(** The last byte and the rest. *)
Lemma split_last (s : bytes) ht signature :
  index s (len s - 1) = Some ht -> slice_to s (len s - 1) = Some signature -> s = signature ++ [ht].
Proof.
  destruct s as [|x s _] using rev_ind; [done|]. intros Hi Hs.
  assert (len (s ++ [x]) - 1 = len s) as El by len_lia. rewrite El in *.
  rewrite (slice_to_app s [x]) in Hs by done. rewrite index_app_here in Hi. injection Hi as ->. by injection Hs as ->.
Qed.

Lemma index_elem {A} (l : list A) i x : index l i = Some x -> x ∈ l.
Proof. unfold index. case_match; [|done]. apply list_elem_of_lookup_2. Qed.

Lemma parse_pubkey_Ret pk : exists o, parse_pubkey pk = Ret o.
Proof. pose proof (parse_pubkey_no_panic pk) as Hp. unfold parse_pubkey in *. destruct (ParsePubKey pk); [by eauto|by eauto|done]. Qed.

(** ** The loop *)

Section loop.
Context (vm0 : Engine) (script : list ParsedOpcode) (raw pks : list bytes).
Context (Hin : 0 <= vm_txIdx vm0 < len (tx_TxIn (vm_tx vm0))).

(** The answer of a round, and the state of the engine. *)
Definition answers (sigs keys : list bytes) (b : bool) (vm' : Engine) : Prop :=
  (b = true <-> assigned (sig_ok vm0 script) sigs keys) /\ exists c, vm' = set_sigCache c vm0 /\ cache_sound c.

Definition flagged (e : scripterr) (vm' : Engine) : Prop := refused vm0 raw pks e.

Lemma answers_step sig sigs key keys b vm' :
  answers (if sig_ok vm0 script sig key then sigs else sig :: sigs) keys b vm' -> answers (sig :: sigs) (key :: keys) b vm'.
Proof. intros [Hb Hc]. split; [|done]. rewrite assigned_cons, Hb. by destruct (sig_ok vm0 script sig key). Qed.

(** What a round that leaves the loop going has to show. *)
Definition loop_ok (fuel : nat) : Prop :=
  forall sigs ns np pi si c,
  cache_sound c -> Forall (info_ok vm0) sigs -> map si_signature sigs = raw ->
  0 <= ns -> 0 <= np < Z.of_nat fuel -> 0 <= si -> -1 <= pi -> ns + si = len sigs -> np + pi = len pks ->
  wp (multisig_loop fuel script pks sigs ns np pi si)
    (answers (map si_signature (drop (Z.to_nat si) sigs)) (drop (Z.to_nat (pi + 1)) pks)) flagged (set_sigCache c vm0).

Section round.
Context (fuel : nat) (IH : loop_ok fuel) (sigs : list parsedSigInfo) (ns np pi si : Z) (info : parsedSigInfo) (key : bytes).
Context (Hinfo : Forall (info_ok vm0) sigs) (Hraw : map si_signature sigs = raw) (Hpos : 0 < ns) (Hnp : ns <= np - 1) (Hfuel : np < Z.of_nat (S fuel)).
Context (Hsi : 0 <= si) (Hpi : -1 <= pi) (Es : ns + si = len sigs) (Ep : np + pi = len pks).
Context (Hs : index sigs si = Some info) (Hk : index pks (pi + 1) = Some key).

Let rest := map si_signature (drop (Z.to_nat (si + 1)) sigs).
Let goal := answers (if sig_ok vm0 script (si_signature info) key then rest else si_signature info :: rest)
  (drop (Z.to_nat (pi + 1 + 1)) pks).

Lemma round_next sigs' c :
  sig_ok vm0 script (si_signature info) key = false -> cache_sound c -> Forall (info_ok vm0) sigs' ->
  map si_signature sigs' = map si_signature sigs ->
  wp (multisig_loop fuel script pks sigs' ns (np - 1) (pi + 1) si) goal flagged (set_sigCache c vm0).
Proof.
  intros E Hc Hi Em. assert (len sigs' = len sigs) as El by (apply (f_equal length) in Em; rewrite !length_map in Em; unfold len; lia).
  assert (map si_signature (drop (Z.to_nat si) sigs') = si_signature info :: rest) as Ed.
  { unfold rest. by rewrite <- skipn_map, Em, skipn_map, (index_drop sigs si info Hs). }
  eapply wp_mono; [apply IH; try done; try lia; congruence| |done]. intros b vm'. unfold goal. by rewrite E, Ed.
Qed.

Lemma round_match sigs' c :
  sig_ok vm0 script (si_signature info) key = true -> cache_sound c -> Forall (info_ok vm0) sigs' ->
  map si_signature sigs' = map si_signature sigs ->
  wp (multisig_loop fuel script pks sigs' (ns - 1) (np - 1) (pi + 1) (si + 1)) goal flagged (set_sigCache c vm0).
Proof.
  intros E Hc Hi Em. assert (len sigs' = len sigs) as El by (apply (f_equal length) in Em; rewrite !length_map in Em; unfold len; lia).
  assert (map si_signature (drop (Z.to_nat (si + 1)) sigs') = rest) as Ed.
  { unfold rest. by rewrite <- skipn_map, Em, skipn_map. }
  eapply wp_mono; [apply IH; try done; try lia; congruence| |done]. intros b vm'. unfold goal. by rewrite E, Ed.
Qed.

Lemma remembered info' :
  si_signature info' = si_signature info -> info_ok vm0 info' ->
  Forall (info_ok vm0) (<[Z.to_nat si := info']> sigs) /\
  map si_signature (<[Z.to_nat si := info']> sigs) = map si_signature sigs.
Proof.
  intros E Hi. split; [by apply Forall_insert|]. apply list_eq. intros i. rewrite !list_lookup_fmap.
  destruct (decide (i = Z.to_nat si)) as [->|]; [|by rewrite list_lookup_insert_ne].
  unfold index in Hs. destruct (0 <=? si); [|done]. rewrite Hs, list_lookup_insert_eq by (by eapply lookup_lt_Some).
  simpl. by rewrite E.
Qed.
End round.

Lemma check_round_spec info key c :
  cache_sound c -> info_ok vm0 info -> si_signature info ∈ raw -> key ∈ pks ->
  wp (check_round script info key) (fun '(b, info') vm' =>
    b = sig_ok vm0 script (si_signature info) key /\ si_signature info' = si_signature info /\ info_ok vm0 info' /\
    exists c', vm' = set_sigCache c' vm0 /\ cache_sound c') flagged (set_sigCache c vm0).
Proof.
  intros Hc Hinfo Hsin Hkin. pose proof (len_nonneg (si_signature info)). unfold check_round, sig_ok.
  destruct (Z.eqb_spec (len (si_signature info)) 0) as [E0|]; [apply wp_ret; rewrite E0; split_and!; [done..|by eauto]|].
  destruct (index_is_Some (si_signature info) (len (si_signature info) - 1)) as [ht Eh]; [lia|].
  destruct (slice_to_is_Some (si_signature info) (len (si_signature info) - 1)) as [signature Es']; [lia|].
  pose proof (split_last _ _ _ Eh Es') as Esplit. rewrite Eh, Es'. do 2 (apply wp_bind, wp_lift; cbn [or_panic]). apply wp_bind, wp_gets. cbn [id].
  change (round_signature (set_sigCache c vm0) info (u8 ht) signature) with (round_signature vm0 info (u8 ht) signature).
  change (checkPubKeyEncoding (set_sigCache c vm0) key) with (checkPubKeyEncoding vm0 key).
  change (fun s => sig_hash s (u8 ht) (set_sigCache c vm0)) with (fun s => sig_hash s (u8 ht) vm0).
  destruct (round_signature_spec vm0 info (u8 ht) signature) as (Hp & Hl & Hr); [done|done|].
  apply wp_bind, wp_lift_cases; [done| |intros e Ee; left; exists signature, ht; rewrite <- Esplit; by eauto]. intros [psg info'] Er. destruct (Hr _ _ Er) as (Epsg & Esig & Hi').
  rewrite Epsg. destruct psg as [sg|]; [|apply wp_ret; split_and!; [done..|by eauto]].
  apply wp_bind, wp_lift_cases; [apply checkPubKeyEncoding_no_panic| |intros e Ee; right; by eauto].
  intros _ _. destruct (parse_pubkey_Ret key) as [o Eo]. rewrite Eo. apply wp_bind, wp_lift.
  destruct o as [pk|]; [|apply wp_ret; split_and!; [done..|by eauto]].
  destruct (sig_hash_gives script (u8 ht) vm0 Hin) as [hash Eh']. pose proof (len_sig_hash _ _ _ _ Eh') as Hlen.
  change (sig_hash script (u8 ht) (set_sigCache c vm0)) with (sig_hash script (u8 ht) vm0).
  rewrite Eh'. apply wp_bind, wp_lift. apply wp_bind.
  eapply wp_mono; [by apply (verify_cached_wp flagged)| |done]. intros b vm' [-> (c' & -> & Hc')]. apply wp_ret. split_and!; [done..|by eauto].
Qed.

Lemma multisig_loop_spec fuel : loop_ok fuel.
Proof.
  induction fuel as [|fuel IH]; intros sigs ns np pi si c Hc Hinfo Hraw Hns Hfuel Hsi Hpi Es Ep; [lia|].
  cbn [multisig_loop]. destruct (Z.ltb_spec 0 ns) as [Hpos|]; cbn [negb].
  2:{ apply wp_ret. rewrite drop_ge by (unfold len in *; lia). split; [|by eauto]. split; [|done]. intros _. apply assigned_nil. }
  destruct (Z.ltb_spec (np - 1) ns).
  { apply wp_ret. split; [|by eauto]. split; [done|]. intros Ha%assigned_len. exfalso. revert Ha. unfold len in *.
    rewrite length_map, !length_drop. lia. }
  destruct (index_is_Some sigs si) as [info Hs]; [lia|]. destruct (index_is_Some pks (pi + 1)) as [key Hk]; [lia|].
  rewrite Hs, Hk. do 2 (apply wp_bind, wp_lift; cbn [or_panic]).
  rewrite (index_drop sigs si info Hs), (index_drop pks (pi + 1) key Hk). cbn [map].
  eapply wp_mono; [|intros b vm'; apply answers_step|done]. apply wp_bind.
  eapply wp_mono; [apply check_round_spec; [done|by eapply Forall_index| |by eapply index_elem]| |done].
  { rewrite <- Hraw. apply list_elem_of_fmap_2. by eapply index_elem. }
  intros [b info'] vm' (Eb & Esig & Hi' & c' & -> & Hc').
  destruct (remembered sigs si info Hinfo Hs info' Esig Hi') as [Hall Hmap]. cbv beta iota zeta.
  destruct b; [eapply (round_match fuel IH)|eapply (round_next fuel IH)]; try done; lia.
Qed.
End loop.

(** * The handler *)

(** The engine with another data stack. *)
Definition with_stack (l : list bytes) (vm : Engine) : Engine := set_dstack (set_stk l (vm_dstack vm)) vm.

Lemma pop_run vm l x :
  len (stk (vm_dstack vm)) < 2 ^ 29 -> stk (vm_dstack vm) = l ++ [x] -> dstack PopByteArray vm = (Ret x, with_stack l vm).
Proof.
  intros Hd E. unfold dstack, on_field. rewrite (PopByteArray_snoc (vm_dstack vm) l x); [done|done|]. unfold stack_small. lia.
Qed.

Lemma pop_int_run vm l x n :
  len (stk (vm_dstack vm)) < 2 ^ 29 -> stk (vm_dstack vm) = l ++ [x] ->
  MakeScriptNum x (verifyMinimalData (vm_dstack vm)) DefaultScriptNumLen = Ret n ->
  dstack PopInt vm = (Ret n, with_stack l vm).
Proof.
  intros Hd E Hn. unfold dstack, on_field, PopInt. erewrite bind_Ret by (apply PopByteArray_snoc; [exact E|unfold stack_small; lia]).
  unfold mbind, St_bind, gets, lift. simpl. by rewrite Hn.
Qed.

Lemma pop_n_run vm l items :
  len (stk (vm_dstack vm)) < 2 ^ 29 -> stk (vm_dstack vm) = l ++ items ->
  pop_n (length items) vm = (Ret (rev items), with_stack l vm).
Proof.
  revert vm. induction items as [|x items IH] using rev_ind; intros vm Hd E.
  - rewrite app_nil_r in E. unfold with_stack. rewrite <- E. simpl. by destruct vm as [? ? ? ? []].
  - rewrite length_app, Nat.add_comm, rev_app_distr, app_assoc in *. simpl.
    erewrite bind_Ret by (by apply pop_run). erewrite bind_Ret; [reflexivity|]. rewrite IH; [done| |done].
    simpl. rewrite E, len_app in Hd. pose proof (len_nonneg [x]). lia.
Qed.

Definition multisig_code (vm : Engine) (sigs : list bytes) : list ParsedOpcode :=
  match subScript vm with
  | Ret script => if isWitnessVersionActive vm 0 then script else foldl removeOpcodeByData script (rev sigs)
  | _ => []
  end.

Lemma wp_run {A B} (m : EM A) (f : A -> EM B) Q X vm a vm1 :
  m vm = (Ret a, vm1) -> wp (f a) Q X vm1 -> wp (m ≫= f) Q X vm.
Proof. intros E Hw. apply wp_bind. unfold wp. by rewrite E. Qed.

(** The rule of the empty dummy item, and the rule that signatures which do not verify are
    empty. *)
Definition dummy_allowed (vm : Engine) (dummy : bytes) : Prop := hasFlag vm ScriptStrictMultiSig = true -> dummy = [].
Definition failure_allowed (vm : Engine) (sigs : list bytes) : Prop :=
  hasFlag vm ScriptVerifyNullFail = true -> Forall (fun sig => sig = []) sigs.

(** The signatures verify under keys of their own, in order. *)
Definition multisig_valid (vm : Engine) (sigs keys : list bytes) : Prop :=
  exists keys', sublist keys' keys /\ Forall2 (fun s k => sig_ok vm (multisig_code vm sigs) s k = true) sigs keys'.

(** What the handler leaves behind, *)
Definition multisig_result (vm : Engine) (base sigs keys : list bytes) (dummy : bytes) (vm' : Engine) : Prop :=
  dummy_allowed vm dummy /\ exists b, stk (vm_dstack vm') = base ++ [fromBool b] /\
    (b = true <-> multisig_valid vm sigs keys) /\ (b = false -> failure_allowed vm sigs) /\ cache_sound (vm_sigCache vm').

(** and why it fails. *)
Definition multisig_error (vm : Engine) (sigs keys : list bytes) (dummy : bytes) (e : scripterr) : Prop :=
  e = ErrSigNullDummy /\ ~ dummy_allowed vm dummy \/
  dummy_allowed vm dummy /\
    (e = ErrNullFail /\ ~ multisig_valid vm sigs keys /\ ~ failure_allowed vm sigs \/ refused vm sigs keys e).

Lemma dummy_allowed_spec vm dummy :
  hasFlag vm ScriptStrictMultiSig && negb (len dummy =? 0) = false <-> dummy_allowed vm dummy.
Proof.
  unfold dummy_allowed. destruct (hasFlag vm ScriptStrictMultiSig); simpl; [|by split]. destruct (Z.eqb_spec (len dummy) 0) as [E|E].
  - split; [|done]. intros _ _. by apply len_0.
  - split; [done|]. intros Hd. by rewrite Hd in E.
Qed.

Lemma failure_allowed_spec vm sigs :
  hasFlag vm ScriptVerifyNullFail && existsb (fun sig => 0 <? len sig) (rev sigs) = false <-> failure_allowed vm sigs.
Proof.
  unfold failure_allowed. destruct (hasFlag vm ScriptVerifyNullFail); simpl; [|by split].
  rewrite <- not_true_iff_false, existsb_exists, Forall_forall. split.
  - intros Hn _ sig Hin. apply len_0. pose proof (len_nonneg sig). destruct (Z.ltb_spec 0 (len sig)); [|lia].
    exfalso. apply Hn. exists sig. split; [by apply (proj1 (in_rev _ _))|by apply Z.ltb_lt].
  - intros Ha (sig & Hin%in_rev & Hl). by rewrite (Ha eq_refl sig Hin) in Hl.
Qed.

Lemma refused_rev vm sigs keys e : refused vm (rev sigs) (rev keys) e -> refused vm sigs keys e.
Proof.
  rewrite !rev_reverse. intros [(sg & ht & Hin & Hc)|(key & Hin & Hc)]; [left; exists sg, ht|right; exists key]; by rewrite elem_of_reverse in Hin.
Qed.

Lemma Int32_small n : - 2 ^ 31 <= n < 2 ^ 31 -> Int32 n = n.
Proof. unfold Int32, MaxInt32, MinInt32. intros. rewrite int32_small by lia. repeat case_match; lia. Qed.

(** The keys, the signatures and their counts come off the stack. *)
Lemma multisig_operands (Q : () -> Engine -> Prop) X op vm base sigs keys dummy mb nb :
  ready vm -> stk (vm_dstack vm) = base ++ [dummy] ++ sigs ++ [mb] ++ keys ++ [nb] ->
  MakeScriptNum mb (verifyMinimalData (vm_dstack vm)) DefaultScriptNumLen = Ret (len sigs) ->
  MakeScriptNum nb (verifyMinimalData (vm_dstack vm)) DefaultScriptNumLen = Ret (len keys) ->
  len sigs <= len keys <= MaxPubKeysPerMultiSig -> vm_numOps vm + len keys <= MaxOpsPerScript ->
  wp (multisig_verdict (len keys) (len sigs) (rev keys) (rev sigs) dummy) Q X
    (with_stack base (set_numOps (vm_numOps vm + len keys) vm)) ->
  wp (opcodeCheckMultiSig op) Q X vm.
Proof.
  intros [Ht _ _ _ _ _] Hstk Hm Hn Hmn Hops Hk. unfold opcodeCheckMultiSig, MaxPubKeysPerMultiSig in *.
  assert (len (stk (vm_dstack vm)) < 2 ^ 29) as Hd by (unfold total in Ht; pose proof (len_nonneg (stk (vm_astack vm))); lia).
  assert (len base + len sigs + len keys + 4 <= 2 ^ 29) as Hlen by (rewrite Hstk in Hd; autorewrite with len in Hd; lia).
  pose proof (len_nonneg sigs). pose proof (len_nonneg keys). rewrite !app_assoc in Hstk.
  eapply wp_run; [by eapply pop_int_run|]. rewrite Int32_small by lia. cbv zeta.
  destruct (Z.ltb_spec (len keys) 0); [lia|]. destruct (Z.ltb_spec 20 (len keys)); [lia|].
  apply wp_bind, wp_modify, wp_bind, wp_gets. cbn [id vm_numOps set_numOps with_stack set_dstack].
  destruct (Z.ltb_spec MaxOpsPerScript (vm_numOps vm + len keys)); [lia|].
  eapply wp_run. { replace (Z.to_nat (len keys)) with (length keys) by (unfold len; lia). apply pop_n_run; [|reflexivity]. simpl. autorewrite with len. lia. }
  eapply wp_run. { eapply pop_int_run; [|reflexivity|exact Hm]. simpl. autorewrite with len. lia. }
  rewrite Int32_small by lia. cbv zeta. destruct (Z.ltb_spec (len sigs) 0); [lia|]. destruct (Z.ltb_spec (len keys) (len sigs)); [lia|].
  eapply wp_run. { replace (Z.to_nat (len sigs)) with (length sigs) by (unfold len; lia). apply pop_n_run; [|reflexivity].
    simpl. autorewrite with len. lia. }
  eapply wp_run. { apply pop_run; [|reflexivity]. simpl. autorewrite with len. lia. }
  exact Hk.
Qed.

Lemma multisig_verdict_spec vm vm1 base sigs keys dummy :
  ready vm -> cache_sound (vm_sigCache vm) -> len sigs <= len keys ->
  vm1 = with_stack base (set_numOps (vm_numOps vm + len keys) vm) ->
  wp (multisig_verdict (len keys) (len sigs) (rev keys) (rev sigs) dummy)
    (fun _ vm' => multisig_result vm base sigs keys dummy vm') (fun e _ => multisig_error vm sigs keys dummy e) vm1.
Proof.
  intros Hr Hc Hmn E1. unfold multisig_verdict. apply wp_bind, wp_gets. cbn [id].
  assert (forall f, hasFlag vm1 f = hasFlag vm f) as Hfl by (by subst). assert (subScript vm1 = subScript vm) as Hsub by (by subst).
  assert (isWitnessVersionActive vm1 0 = isWitnessVersionActive vm 0) as Hwa by (by subst).
  rewrite !Hfl, Hsub, Hwa. pose proof (dummy_allowed_spec vm dummy) as Hd. pose proof (failure_allowed_spec vm sigs) as Hf.
  destruct (hasFlag vm ScriptStrictMultiSig && negb (len dummy =? 0)).
  { apply wp_throw. left. split; [done|]. by intros ?%Hd. }
  apply proj1 in Hd. specialize (Hd eq_refl).
  destruct (subScript_gives vm Hr) as [script Esc]. rewrite Esc. apply wp_bind, wp_lift. cbv zeta.
  assert ((if isWitnessVersionActive vm 0 then script else foldl removeOpcodeByData script (rev sigs)) = multisig_code vm sigs) as ->.
  { unfold multisig_code. by rewrite Esc. }
  apply wp_bind. assert (vm1 = set_sigCache (vm_sigCache vm) vm1) as E by (by subst). rewrite E.
  eapply wp_mono; [apply (multisig_loop_spec vm1 (multisig_code vm sigs) (rev sigs) (rev keys))| |].
  - subst. apply Hr.
  - done.
  - apply Forall_map, Forall_forall. by intros s _ ?.
  - rewrite map_map. apply map_id.
  - apply len_nonneg.
  - pose proof (len_nonneg keys). lia.
  - done.
  - done.
  - rewrite Z.add_0_r. unfold len. by rewrite length_map, length_rev.
  - unfold len. rewrite length_rev. lia.
  - intros b vm' [Hb (c & -> & Hc')]. cbv beta. assert (b = true <-> multisig_valid vm sigs keys) as Hb'.
    { subst vm1. rewrite Hb. change (Z.to_nat 0) with O. change (Z.to_nat (-1 + 1)) with O. rewrite !drop_0, map_map. simpl. rewrite map_id.
      apply assigned_rev. }
    destruct b; cbn [negb andb].
    + apply wp_on_field, wp_modify. split; [done|]. exists true. by subst vm1.
    + destruct (hasFlag vm ScriptVerifyNullFail && existsb _ (rev sigs)) eqn:Enf; cbn iota.
      * apply wp_throw. right. split; [done|]. left. split_and!; [done|by intros ?%Hb'|by intros ?%Hf].
      * apply wp_on_field, wp_modify. split; [done|]. exists false. subst vm1. split_and!; [done|done|by intros _; apply Hf|done].
  - intros e vm' Hl. subst. right. split; [done|]. right. by apply refused_rev.
Qed.
End multisig.

(** C16: [OP_CHECKMULTISIG] decides whether the signatures can be assigned to keys in
    order.  With [sigs] and [keys] on the stack (in the order of their pushes), their
    counts within the limits and a signature cache that holds only verified
    signatures, the handler either leaves a boolean in place of its operands or fails,
    and never panics.  The boolean is true exactly when some subsequence of the keys
    verifies the signatures one by one.  Whenever a boolean is left, the dummy item is empty
    if the flag of strict multisig is set; whenever it is false and the null-fail flag is
    set, all signatures are empty.  The handler fails with [ErrSigNullDummy] exactly when
    the dummy breaks its rule; otherwise with [ErrNullFail], only when the signatures do not verify and the
    null-fail rule is broken, or with the error of an encoding check for one of the
    signatures or keys. *)
Theorem CheckMultiSig_spec `{Crypto} `{MapOrder} (op : ParsedOpcode) (vm : Engine) (base sigs keys : list bytes)
    (dummy mb nb : bytes) (Hr : ready vm) (Hc : cache_sound (vm_sigCache vm))
    (Hstk : stk (vm_dstack vm) = base ++ [dummy] ++ sigs ++ [mb] ++ keys ++ [nb])
    (Hm : MakeScriptNum mb (verifyMinimalData (vm_dstack vm)) DefaultScriptNumLen = Ret (len sigs))
    (Hn : MakeScriptNum nb (verifyMinimalData (vm_dstack vm)) DefaultScriptNumLen = Ret (len keys))
    (Hmn : len sigs <= len keys <= MaxPubKeysPerMultiSig) (Hops : vm_numOps vm + len keys <= MaxOpsPerScript) :
  match opcodeCheckMultiSig op vm with
  | (Ret _, vm') => dummy_allowed vm dummy /\ exists b : bool, stk (vm_dstack vm') = base ++ [fromBool b] /\
      (b = true <-> multisig_valid vm sigs keys) /\ (b = false -> failure_allowed vm sigs) /\ cache_sound (vm_sigCache vm')
  | (Throw e, _) => multisig_error vm sigs keys dummy e
  | (Panic, _) => False
  end.
Proof.
  apply (multisig_operands (fun _ vm' => multisig_result vm base sigs keys dummy vm') (fun e _ => multisig_error vm sigs keys dummy e) op vm base sigs keys dummy mb nb);
    try done.
  apply multisig_verdict_spec; try done. lia.
Qed.

(** One signature, which is empty, and two keys. *)
Definition sample_multisig : Engine :=
  mkEngine [[]; [pop OP_CHECKMULTISIG]] 1 1 0 (mkStack [[]; []; [Byte.x01]; [Byte.x02]; [Byte.x03]; [Byte.x02]] false)
    (new_stack false) sample_input 0 [] 0 0 None None false [] 0 None 0.

Lemma sample_multisig_ready : ready sample_multisig.
Proof.
  split; [done|by split; repeat constructor|done| |done|done]. exists [pop OP_CHECKMULTISIG]. split; [reflexivity|]. done.
Qed.

Lemma CheckMultiSig_spec_witness :
  ~ exists keys', sublist keys' [[Byte.x02]; [Byte.x03]] /\
    Forall2 (fun s k => sig_ok (H := sample_crypto) sample_multisig (multisig_code sample_multisig [[]]) s k = true) [[]] keys'.
Proof.
  assert (len [[] : bytes] <= len [[Byte.x02]; [Byte.x03]] <= MaxPubKeysPerMultiSig) as Hmn by (vm_compute; split; discriminate).
  assert (vm_numOps sample_multisig + len [[Byte.x02]; [Byte.x03]] <= MaxOpsPerScript) as Hops by (vm_compute; discriminate).
  pose proof (CheckMultiSig_spec (H := sample_crypto) (H0 := map_to_list_order) (pop OP_CHECKMULTISIG) sample_multisig []
    [[]] [[Byte.x02]; [Byte.x03]] [] [Byte.x01] [Byte.x02] sample_multisig_ready I eq_refl eq_refl eq_refl Hmn Hops) as Ht.
  destruct (opcodeCheckMultiSig (H := sample_crypto) (H0 := map_to_list_order) (pop OP_CHECKMULTISIG) sample_multisig)
    as [[u|e|] vm'] eqn:E; vm_compute in E; [|discriminate E..].
  destruct Ht as (_ & b & Hb & Hiff & _). injection E as _ <-. vm_compute in Hb. destruct b; [discriminate Hb|].
  intros Hk. apply Hiff in Hk. discriminate Hk.
Defined.
