(* ===== verification/ChainParams.v ===== *)
(** The parameters of a network (src/chaincfg/params.go and
    src/chaincfg/globalcfg/config.go), as far as the consensus rules use them, and
    the issue of new money (src/blockchain/validate.go): the subsidy of a block, the
    share of the network steward and the total money at a height. *)

From S2P Require Import Prelude.

(** * Configuration *)

Inductive ProofOfWork : Type := PowSha256 | PowPacketCrypt.

#[global] Instance ProofOfWork_eq_dec : EqDecision ProofOfWork.
Proof. solve_decision. Defined.

(** The amounts table, used to print amounts, is left out. *)
Record Config : Type := mkConfig {
  ProofOfWorkAlgorithm : ProofOfWork;
  cfg_HasNetworkSteward : bool;
  MaxUnits : Z;
  UnitsPerCoin : Z;
  MaxTimeOffset : Z;
  MedianTimeBlocks : Z
}.

(** The configuration that [SelectConfig] has registered.  The accessors panic
    before that; the node registers it at start-up. *)
Class GlobalConf : Type := gConf : Config.

Definition HasNetworkSteward `{GlobalConf} : bool := cfg_HasNetworkSteward gConf.
Definition SatoshiPerBitcoin `{GlobalConf} : Z := UnitsPerCoin gConf.
Definition MaxUnitsI64 `{GlobalConf} : Z := MaxUnits gConf.

Definition BitcoinDefaults : Config := {|
  ProofOfWorkAlgorithm := PowSha256;
  cfg_HasNetworkSteward := false;
  MaxUnits := 21000000 * 100000000;
  UnitsPerCoin := 100000000;
  MaxTimeOffset := 2 * 60 * 60;
  MedianTimeBlocks := 11
|}.

Definition PktDefaults : Config := {|
  ProofOfWorkAlgorithm := PowPacketCrypt;
  cfg_HasNetworkSteward := true;
  UnitsPerCoin := 0x40000000;
  MaxUnits := 0x40000000 * 6000000000;
  MedianTimeBlocks := 111;
  MaxTimeOffset := 60 * 12
|}.

Definition IsPacketCryptAllowedVersion (version blockHeight : Z) : bool :=
  if (1 <? version) && (blockHeight <? 113949) then false
  else if (version <? 2) && (122621 <? blockHeight) then false
  else true.

(** * Networks *)

Record Checkpoint : Type := mkCheckpoint { cp_Height : Z; cp_Hash : bytes }.

Record ConsensusDeployment : Type := mkDeployment {
  BitNumber : Z;
  StartTime : Z;
  ExpireTime : Z
}.

(** The fields of [Params] that the rules read; durations are in nanoseconds. *)
Record Params : Type := mkParams {
  GlobalConfOf : Config;
  InitialNetworkSteward : bytes;
  GenesisHash : bytes;
  PowLimit : Z;
  PowLimitBits : Z;
  BIP0034Height : Z;
  BIP0065Height : Z;
  BIP0066Height : Z;
  CoinbaseMaturity : Z;
  SubsidyReductionInterval : Z;
  TargetTimespan : Z;
  TargetTimePerBlock : Z;
  RetargetAdjustmentFactor : Z;
  ReduceMinDifficulty : bool;
  MinDiffReductionTime : Z;
  Checkpoints : list Checkpoint;
  RuleChangeActivationThreshold : Z;
  MinerConfirmationWindow : Z;
  Deployments : list ConsensusDeployment;
  HDCoinType : Z
}.

Definition DeploymentTestDummy : Z := 0.
Definition DeploymentCSV : Z := 1.
Definition DeploymentSegwit : Z := 2.

(** * The PKT network *)

(** [newHashFromStr]: the text shows the bytes of a hash in reverse. *)
Definition newHashFromStr (hexStr : Z) : bytes := le_split 32 hexStr.

(** A second and a minute as a [time.Duration]. *)
Definition Second : Z := 1000000000.
Definition Minute : Z := 60 * Second.
Definition MaxInt64 : Z := 2 ^ 63 - 1.

Definition PktMainNetParams : Params := {|
  GlobalConfOf := PktDefaults;
  InitialNetworkSteward := map to_byte
    [0x00; 0x20; 0xd5; 0xc1; 0x00; 0x5c; 0x0d; 0x40; 0x12; 0xd3; 0xae; 0x26; 0x72; 0x31; 0x9e; 0x7f; 0x9e; 0xb1; 0x5a; 0x57; 0x51; 0x6a; 0xee; 0xfa; 0xbb; 0xbc; 0x06; 0x22; 0x65; 0xf6; 0x7e; 0x30; 0x8f; 0x2b];
  GenesisHash := newHashFromStr 0x0bdc1712a46194e552cf417ab0439c2d4f456c35cf63a0a406964c6f93432d85;
  PowLimit := 0x0fffff <<< (8 * (0x1f - 3));
  PowLimitBits := 0x1f0fffff;
  BIP0034Height := 0;
  BIP0065Height := 0;
  BIP0066Height := 0;
  CoinbaseMaturity := 100;
  SubsidyReductionInterval := -1;
  TargetTimespan := 60 * Minute * 24 * 14 / 10;
  TargetTimePerBlock := Minute;
  RetargetAdjustmentFactor := 4;
  ReduceMinDifficulty := false;
  MinDiffReductionTime := Minute * 2;
  Checkpoints :=
    [mkCheckpoint (1 <<< 15) (newHashFromStr 0x9e2f78040c97b244fcbbf9dd528e02f3aaa54705d04408e3079ee98f427cb1fa);
     mkCheckpoint (2 <<< 15) (newHashFromStr 0x26e5ca803a949a5ee09926a1042408e9c1ca0cfc4950c134791fa5eb2624183c);
     mkCheckpoint (3 <<< 15) (newHashFromStr 0x8745c74b6a105b0173c076adc2728ffae48e6e1c8219e9ab7588e020a10e07cb);
     mkCheckpoint (4 <<< 15) (newHashFromStr 0x7194f5f6210489ecd6bd0feb84fc72c00a4b4aed33e6e2da5a92faec94d56879);
     mkCheckpoint (5 <<< 15) (newHashFromStr 0x3c8a1d44c35bdcde485e8e0238593c4228f40643a89ab02c8766dc837c24ae9d);
     mkCheckpoint (6 <<< 15) (newHashFromStr 0x594567c710572b7ee01a3013d54efb4ca1a283d05ebbc24d206decb77aeef942);
     mkCheckpoint (7 <<< 15) (newHashFromStr 0x28b4cdf10297b018acb97562dd985c7d5bdbdbb6121768e1cb9c9c7910193c41);
     mkCheckpoint (8 <<< 15) (newHashFromStr 0x1d2d6ece172b67878cdc308aa9d2d1cb684d60f663fd820dd24aaaebc92e1450);
     mkCheckpoint (9 <<< 15) (newHashFromStr 0x46ac9323f6a3dd96e69f9f49b26844054265d96265d8f5f7b45ad23ac042ca0f);
     mkCheckpoint (10 <<< 15) (newHashFromStr 0xabaff3c0e48b822aec3fa4b3e40ddc3ac7121e1efa96c6883bb7217b49df3d2e);
     mkCheckpoint (11 <<< 15) (newHashFromStr 0xc2ddcc7d981bca4a924e82b3dd54a05fd5f4aa72d9731e01b8a7ee570f128831);
     mkCheckpoint (12 <<< 15) (newHashFromStr 0xa55d3d59fab43d8c28784dbaee31d3710be3fef2cab0fa02c77079bc88d62c95);
     mkCheckpoint (13 <<< 15) (newHashFromStr 0x64ae244ff7ef2d6e907cb0cb953abda21087100e4450fc57e1166bf6961b7a04);
     mkCheckpoint (14 <<< 15) (newHashFromStr 0x3a0668eaa7a1f89e7b5c8c87805f25877fe0e48ff0d28039fb34dc0cdee664f7);
     mkCheckpoint (15 <<< 15) (newHashFromStr 0x74fb58760a49b5469aabc2b193d020d781ea170e4619e605d9dfd7214fa04f12);
     mkCheckpoint (16 <<< 15) (newHashFromStr 0x4acf5a9646f521bb00f568036a4e739e7ecc10fdc12edd8146ab96e00666e0b8);
     mkCheckpoint (17 <<< 15) (newHashFromStr 0x4dd9226548ddef3193c97da7ecbd1986a9d4d3a77a9fddbb38cc729c669e0e1a);
     mkCheckpoint (18 <<< 15) (newHashFromStr 0xb8d2b39e2b6e50e36fa3f3c7890ae27fe6f5363d219dfec7c88ce50cc3466a4c);
     mkCheckpoint (19 <<< 15) (newHashFromStr 0xe4b42f977d75346c1fd89cbf00feebeff3814a8d29dc96c0b137b6ede60431b6);
     mkCheckpoint (20 <<< 15) (newHashFromStr 0x38c7905f4dacbd8101614f19c2a86b5344e993483b3ba1bfa84ef1124e543457);
     mkCheckpoint (21 <<< 15) (newHashFromStr 0x91cb278fa7c0069d42e25785a78429bdbaceb19f753abdd63bff394dd2f04337);
     mkCheckpoint (22 <<< 15) (newHashFromStr 0xfd089c041c2cd79b9f10239310f2f28e2157f7a0c2015b7f696ea35cf6b20082);
     mkCheckpoint (23 <<< 15) (newHashFromStr 0xa4e1d2228a7e8acd2a6317389c70c09d475e334b3ad934d571d5bcb0253c03ab);
     mkCheckpoint (24 <<< 15) (newHashFromStr 0x7ae9e5f968d75dc6b3dcb78a310dfc0628c3a2b3d209826ae8b247bfc3e718c6);
     mkCheckpoint (25 <<< 15) (newHashFromStr 0x800f3cf026c650bd60b039f1d374a613c46eb283fe842b11c20c096af4a05174);
     mkCheckpoint (26 <<< 15) (newHashFromStr 0x502b930a3df5456b822b1aea93df9ff04d4c506efb1243880882bdd391ff6e74);
     mkCheckpoint (27 <<< 15) (newHashFromStr 0x96e707504ec446f8db5537f9570e097580f73776307714c984300433592f6c01);
     mkCheckpoint (28 <<< 15) (newHashFromStr 0x36b4ec111b3552309229b9e9346a926bd7575eaa99a6d1560d675d0de1cbd153);
     mkCheckpoint (29 <<< 15) (newHashFromStr 0x62c6b30afdf16b9bcf37f28f2cac5f2ced02dd29e523561ce244897e2f02cfa9);
     mkCheckpoint (30 <<< 15) (newHashFromStr 0xf201f7bd254441c96d2a6646ab2ab17aaa44813b4d777739e958b3682aa073da);
     mkCheckpoint (31 <<< 15) (newHashFromStr 0x31f6876a24b92b709b73e888a49565611b5fffd4a7b3c7d9e57567229f28e327);
     mkCheckpoint (32 <<< 15) (newHashFromStr 0x7c498d0ce0da699f812163a21732f23735f6ae7b907da533fc885dbb60b49d90);
     mkCheckpoint (33 <<< 15) (newHashFromStr 0xbe78a867e38f605092ff792164e1a609714c0f439f0343f8fd7503c593eacf39);
     mkCheckpoint (34 <<< 15) (newHashFromStr 0x7e04e0dc8f0b7cc736884d78d5d768fd1c981e50a6aedacc05458ec274178d8c);
     mkCheckpoint (35 <<< 15) (newHashFromStr 0xfb2d9b65cd23f53ec0ff9102881f20f599ace34f9e7a2a6767a2f6127241bf5e);
     mkCheckpoint (36 <<< 15) (newHashFromStr 0xfbfa6217f048698b0853c48232510693742edd93fca9929fe0d3e2c4459ecf4b);
     mkCheckpoint (37 <<< 15) (newHashFromStr 0xca081e2a8af161284e4436c591d1fdf75362e7ab44c6a9a42d22b3fc435ddfb0);
     mkCheckpoint (38 <<< 15) (newHashFromStr 0x2da4585a5f97bf8d9d7ce24de51b918666c48096d02e3ecaeb2c16a04b6938be);
     mkCheckpoint (39 <<< 15) (newHashFromStr 0xa468deb9c3f71ae85d5132dc2c18ffe1596e3aaeaabefc78274d29222589d9f0);
     mkCheckpoint (40 <<< 15) (newHashFromStr 0xe7e0d190fedf330131673e3a7c554fae17324f0a335e8c1c6ed30b9f8143ea25);
     mkCheckpoint (41 <<< 15) (newHashFromStr 0xcaa62452841380e8d868e432d2d91765a83d2180a2e2ac14b154ca608df980d7);
     mkCheckpoint (42 <<< 15) (newHashFromStr 0x7c412619ed1c3b516d20c1d74b4b31060e1650d5e05ec9865aa32e1a87ca6817);
     mkCheckpoint (43 <<< 15) (newHashFromStr 0x09fbe7718260a4532e71c0ee385a8dac63c9ade79229e323123813644183dee3);
     mkCheckpoint (44 <<< 15) (newHashFromStr 0x513a45eb329e46a0a8bf1ef0ce8be43173295abb26b68651888bb6d7350c5510);
     mkCheckpoint (45 <<< 15) (newHashFromStr 0x2be0c1eb2bed850b75bc53c879d222abb78054e1a7c80dcf7619eaec4326a09f);
     mkCheckpoint (46 <<< 15) (newHashFromStr 0xeae42cd7a3e7d5c086b325a24992961b4b7f78ac96174d9f39edebf7ecc0e55d);
     mkCheckpoint (47 <<< 15) (newHashFromStr 0x361c5d7a76171e9caff6451d822c97256d68b7a87733bc95aa9cbe3aa3fd51ac);
     mkCheckpoint (48 <<< 15) (newHashFromStr 0x2ede3892f6ff4874fbd4b98e4bcf3d4b1d72ee4dd43d6b210a84c73f0f3194cd);
     mkCheckpoint (49 <<< 15) (newHashFromStr 0xd22f510e2494b97205e3e0c3f8340ed43b591d463789d2317c3043990ec42d7d);
     mkCheckpoint (50 <<< 15) (newHashFromStr 0x92d029520cc265d87ff5e0c057d456d49dfbce91c46381da62c21abd5150ace6);
     mkCheckpoint (51 <<< 15) (newHashFromStr 0xb7425861302ce3c984ae9fb9e264c001e126a30e2b5379fdc38605e1aeaec2b1);
     mkCheckpoint (52 <<< 15) (newHashFromStr 0x7f4460239c77affe0e134b0a62ddeeb575ae2cd2b449f81c409380b1ea383f50);
     mkCheckpoint (53 <<< 15) (newHashFromStr 0x418f787b9368fecb9d22378b5f75dd9e822487ee2e0f4f4831bb53273476b2f8);
     mkCheckpoint (54 <<< 15) (newHashFromStr 0x1f65bab0bb4e6eda0525d9055e87c1b143bdd14a0d09c3281d4b046ccf55ba6e);
     mkCheckpoint (55 <<< 15) (newHashFromStr 0xb9387767df9baf17f3c1ad99ed4fb3613b8bd863d4dcad70cbc7f967c335011e);
     mkCheckpoint (56 <<< 15) (newHashFromStr 0xdcb6b8d1a85fa89b494fefe3dd738a8caad452e0ec09527fc2ab38c7901912e7);
     mkCheckpoint (57 <<< 15) (newHashFromStr 0x85b45132326b3288abc29df1bf549679aa38731038abfc2e3be0725c35d17c5b);
     mkCheckpoint (58 <<< 15) (newHashFromStr 0x6ecfecdfb9c87332f8bbba8e5b5e2ac2b4dc741798e59f47481dc64e5d1c2f72);
     mkCheckpoint (59 <<< 15) (newHashFromStr 0x5ec4eef148936658209dc004362c051f2831195e14a1582423d7e2b82164a8d2);
     mkCheckpoint (60 <<< 15) (newHashFromStr 0x028c2c38497130cad7a02eb0386270d9fc9cee2369171628b18d73dc0c40ef01);
     mkCheckpoint (61 <<< 15) (newHashFromStr 0xa191a49bb963f4cbffabcded327c0bb8befcf9831be66460f1c250ca1fbec67e);
     mkCheckpoint (62 <<< 15) (newHashFromStr 0x81a7dd047af88a512c10b3e8b2159aedc7a047cf07a428762744539526c436e2);
     mkCheckpoint (63 <<< 15) (newHashFromStr 0x9e96647591bfddc8ec03aa1f9f885fc17fc56b319ad48d18079daffb5f689bab);
     mkCheckpoint (64 <<< 15) (newHashFromStr 0xf83dc987e6b081e403956d4a0faabe67a291aa8025a8d372749fee3cb7184b6b);
     mkCheckpoint (65 <<< 15) (newHashFromStr 0x689ef27b79fa2841d9cdc6a873d5c4ea77ae0488af33195f4bd213f391a0d135);
     mkCheckpoint (66 <<< 15) (newHashFromStr 0xb4b9d23e9acbfacc2b62e7abd28bcde97b419b86e9454731df1ec931a6272d2d);
     mkCheckpoint (67 <<< 15) (newHashFromStr 0xc39c8a3b140a3dc04ad6c824b0184aa95cc6fed6136deb5b0a1ee8a37f1e0418);
     mkCheckpoint (68 <<< 15) (newHashFromStr 0xb64073ea002446c0dbed664f6ba05b9801282669a43cf1261fc923c67eb7c860);
     mkCheckpoint (69 <<< 15) (newHashFromStr 0x3189252627c63e47790764157734d6badff2a628a099fea4b793c51adda4a114)];
  RuleChangeActivationThreshold := 1512;
  MinerConfirmationWindow := 2016;
  Deployments := [mkDeployment 28 1199145601 1230767999; mkDeployment 0 MaxInt64 MaxInt64; mkDeployment 0 MaxInt64 MaxInt64];
  HDCoinType := 390
|}.

(** * The subsidy *)

(** [n >> uint(k)]: the count of the shift is unsigned. *)
Definition bitcoinCalcBlockSubsidy `{GlobalConf} (height : Z) (chainParams : Params) : Z :=
  let bitcoinBaseSubsidy := int64 (50 * SatoshiPerBitcoin) in
  if SubsidyReductionInterval chainParams =? 0 then bitcoinBaseSubsidy
  else bitcoinBaseSubsidy >>> uint64 (Z.quot height (SubsidyReductionInterval chainParams)).

Definition pktBlocksPerPeriod : Z := 144000.

(** Go's division of an int32, which truncates. *)
Definition pktPeriodForBlock (height : Z) : Z := Z.quot height pktBlocksPerPeriod.

(** [big.Int.Exp] with no modulus is 1 for a negative exponent. *)
Definition pktCalcBlockSubsidy `{GlobalConf} (period : Z) : Z :=
  let periods := Z.max 0 period in
  let a := 9 ^ periods * int64 (4166 * SatoshiPerBitcoin) in
  let b := 10 ^ periods in
  int64 (a / b).

Definition CalcBlockSubsidy `{GlobalConf} (height : Z) (chainParams : Params) : Z :=
  if cfg_HasNetworkSteward (GlobalConfOf chainParams) then pktCalcBlockSubsidy (pktPeriodForBlock height)
  else bitcoinCalcBlockSubsidy height chainParams.

Definition PktCalcNetworkStewardPayout (subsidy : Z) : Z := Z.quot (int64 (subsidy * 51)) 256.

(** [for i := 0; i < p; i++]. *)
Fixpoint total_loop `{GlobalConf} (n : nat) (i total : Z) : Z :=
  match n with
  | O => total
  | S n' => total_loop n' (i + 1) (int64 (total + int64 (pktCalcBlockSubsidy i * pktBlocksPerPeriod)))
  end.

Definition PktCalcTotalMoney `{GlobalConf} (height : Z) : Z :=
  let p := pktPeriodForBlock height in
  let total := total_loop (Z.to_nat p) 0 0 in
  let upto := int32 (p * pktBlocksPerPeriod) in
  int64 (total + int64 (pktCalcBlockSubsidy p * int32 (height - upto))).
