(* ===== verification/Block.v ===== *)
(** Blocks on the wire: the block header (src/wire/blockheader.go), the PacketCrypt
    proof that follows it on networks with that proof of work
    (src/wire/packetcryptproof.go, src/wire/packetcryptann.go) and the block message
    (src/wire/msgblock.go). *)

From S2P Require Import Prelude Sha Wire MsgTx ChainParams.

(** * The header *)

(** The timestamp is the number of seconds, which is all the code reads of it. *)
Record BlockHeader : Type := mkHeader {
  bh_Version : Z;
  bh_PrevBlock : bytes;
  bh_MerkleRoot : bytes;
  bh_Timestamp : Z;
  bh_Bits : Z;
  bh_Nonce : Z
}.

#[global] Instance BlockHeader_eq_dec : EqDecision BlockHeader.
Proof. solve_decision. Defined.

Definition blockHeaderLen : Z := 80.

Definition readBlockHeader : Rd BlockHeader :=
  version ← Uint32;
  prevBlock ← ReadFull HashSize;
  merkleRoot ← ReadFull HashSize;
  timestamp ← Uint32;
  bits ← Uint32;
  nonce ← Uint32;
  mret (mkHeader (int32 version) prevBlock merkleRoot timestamp bits nonce).

Definition writeBlockHeader (bh : BlockHeader) : Wr :=
  let sec := uint32 (bh_Timestamp bh) in
  PutUint32 (uint32 (bh_Version bh));;
  Write (bh_PrevBlock bh);;
  Write (bh_MerkleRoot bh);;
  PutUint32 sec;;
  PutUint32 (bh_Bits bh);;
  PutUint32 (bh_Nonce bh).

Definition BlockHash (h : BlockHeader) : bytes := DoubleHashB (buffer_of (writeBlockHeader h)).

(** * The PacketCrypt proof *)

(** An announcement is its 1024 bytes. *)
Definition PcAnnSerializeSize : Z := 1024.

Definition GetContentLength (p : bytes) : Z := le_combine (take 4 (drop 20 p)).
Definition GetSigningKey (p : bytes) : bytes := take 32 (drop 56 p).

(** src/blockchain/packetcrypt/pcutil: the disjunction of all bytes is zero. *)
Definition IsZero (x : bytes) : bool := foldl (fun acc b => acc ||| u8 b) 0 x =? 0.
Definition HasSigningKey (p : bytes) : bool := negb (IsZero (GetSigningKey p)).

Definition endType : Z := 0.
Definition pcpType : Z := 1.
Definition signaturesType : Z := 2.
Definition contentProofsType : Z := 3.
Definition versionType : Z := 4.

(** [None] is a nil slice. *)
Record PacketCryptProof : Type := mkPcp {
  pcp_Nonce : Z;
  Announcements : list bytes;
  Signatures : list (option bytes);
  ContentProof : option bytes;
  AnnProof : bytes;
  pcp_Version : Z;
  serializeLength : Z
}.

#[global] Instance PacketCryptProof_eq_dec : EqDecision PacketCryptProof.
Proof. solve_decision. Defined.

(** [&PacketCryptProof{}]. *)
Definition empty_pcp : PacketCryptProof :=
  mkPcp 0 (repeat (repeat Byte.x00 1024) 4) (repeat None 4) None [] 0 0.

Definition sig_len (sigs : list (option bytes)) : Z := foldl (fun n sig => n + len (default [] sig)) 0 sigs.

Definition Pcp_SerializeSize (h : PacketCryptProof) : Z :=
  let out := 0 in
  let out :=
    if 0 <? pcp_Version h then
      let verLen := VarIntSerializeSize (uint64 (pcp_Version h)) in
      out + VarIntSerializeSize versionType + VarIntSerializeSize verLen + verLen
    else out in
  let pcplen := 1024 * 4 + 4 + len (AnnProof h) in
  let out := out + VarIntSerializeSize pcpType + VarIntSerializeSize (uint64 pcplen) + pcplen in
  let slen := sig_len (Signatures h) in
  let out :=
    if 0 <? slen then out + VarIntSerializeSize signaturesType + VarIntSerializeSize (uint64 slen) + slen else out in
  let clen := len (default [] (ContentProof h)) in
  let out :=
    if 0 <? clen then out + VarIntSerializeSize contentProofsType + VarIntSerializeSize (uint64 clen) + clen else out in
  out + VarIntSerializeSize endType + VarIntSerializeSize 0.

Definition IsStandard (h : PacketCryptProof) : bool :=
  if serializeLength h =? 0 then true else serializeLength h =? Pcp_SerializeSize h.

(** A buffer of a 64-bit length, and the bytes read into it: Go panics when the
    length is no int. *)
Definition make_and_read (length : Z) : Rd bytes :=
  if 2 ^ 63 <=? length then lift Panic else ReadFull length.

(** The signature loop of [readPacketCryptProof]: the signatures and the number of
    bytes left. *)
Fixpoint read_sigs (anns : list bytes) (sigs : list (option bytes)) (remainingBytes : Z) :
    Rd (list (option bytes) * Z) :=
  match anns, sigs with
  | ann :: anns', sig :: sigs' =>
    if negb (HasSigningKey ann) then
      '(rest, remainingBytes) ← read_sigs anns' sigs' remainingBytes;
      mret (sig :: rest, remainingBytes)
    else
      b ← ReadFull 64;
      let remainingBytes := remainingBytes - 64 in
      if remainingBytes <? 0 then mthrow ErrMessage else
      '(rest, remainingBytes) ← read_sigs anns' sigs' remainingBytes;
      mret (Some b :: rest, remainingBytes)
  | _, _ => mret ([], remainingBytes)
  end.

(** The branches of the switch that fill the proof.  The error of reading the nonce
    is dropped by the code; the announcements that follow it then fail to read. *)
Definition read_pcp_entry (t length : Z) (hasPcp : bool) (pcp : PacketCryptProof) : Rd (PacketCryptProof * bool) :=
  if t =? pcpType then
    if length <=? 1024 * 4 + 4 then mthrow ErrText else
    if 131072 <? length then mthrow ErrText else
    nonce ← try_read Uint32;
    anns ← read_n 4 (ReadFull PcAnnSerializeSize);
    annProof ← make_and_read (length - 1024 * 4 - 4);
    mret (mkPcp (default (pcp_Nonce pcp) nonce) anns (Signatures pcp) (ContentProof pcp) annProof (pcp_Version pcp) (serializeLength pcp),
          true)
  else if t =? signaturesType then
    if negb hasPcp then mthrow ErrMessage else
    '(sigs, remainingBytes) ← read_sigs (Announcements pcp) (Signatures pcp) (int64 length);
    if negb (remainingBytes =? 0) then mthrow ErrMessage else
    mret (mkPcp (pcp_Nonce pcp) (Announcements pcp) sigs (ContentProof pcp) (AnnProof pcp) (pcp_Version pcp) (serializeLength pcp), hasPcp)
  else if t =? contentProofsType then
    if negb hasPcp then mthrow ErrMessage else
    cp ← make_and_read length;
    mret (mkPcp (pcp_Nonce pcp) (Announcements pcp) (Signatures pcp) (Some cp) (AnnProof pcp) (pcp_Version pcp) (serializeLength pcp), hasPcp)
  else if t =? versionType then
    ver ← ReadVarInt;
    if negb (VarIntSerializeSize ver =? int64 length) then mthrow ErrMessage else
    mret (mkPcp (pcp_Nonce pcp) (Announcements pcp) (Signatures pcp) (ContentProof pcp) (AnnProof pcp) (int64 ver) (serializeLength pcp), hasPcp)
  else
    _ ← make_and_read length;
    mret (pcp, hasPcp).

(** The loop over the entries.  Every round reads at least two bytes, so the fuel of
    [readPacketCryptProof] is enough. *)
Fixpoint read_pcp_loop (fuel : nat) (pcp : PacketCryptProof) (hasPcp : bool) (totalLen : Z) : Rd PacketCryptProof :=
  match fuel with
  | O => mthrow ErrShortRead
  | S fuel' =>
    t ← ReadVarInt;
    length ← ReadVarInt;
    let totalLen := int64 (totalLen + (VarIntSerializeSize t + VarIntSerializeSize length + int64 length)) in
    if t =? endType then
      if negb hasPcp then mthrow ErrMessage else
      mret (mkPcp (pcp_Nonce pcp) (Announcements pcp) (Signatures pcp) (ContentProof pcp) (AnnProof pcp) (pcp_Version pcp) totalLen)
    else
      '(pcp, hasPcp) ← read_pcp_entry t length hasPcp pcp;
      read_pcp_loop fuel' pcp hasPcp totalLen
  end.

Definition readPacketCryptProof (pcp : PacketCryptProof) : Rd PacketCryptProof := fun r =>
  read_pcp_loop (S (length r)) pcp false 0 r.

Definition writePacketCryptProof (pcp : PacketCryptProof) : Wr :=
  (WriteVarInt pcpType;;
   WriteVarInt (uint64 (4 + 1024 * 4 + len (AnnProof pcp)));;
   PutUint32 (pcp_Nonce pcp);;
   for_each (Announcements pcp) Write;;
   Write (AnnProof pcp));;
  (let sigLen := sig_len (Signatures pcp) in
   if 0 <? sigLen then
     WriteVarInt signaturesType;;
     WriteVarInt (uint64 sigLen);;
     for_each (Signatures pcp) (fun sig => match sig with None => mret () | Some s => Write s end)
   else mret ());;
  (match ContentProof pcp with
   | Some cp => WriteVarInt contentProofsType;; WriteVarInt (uint64 (len cp));; Write cp
   | None => mret ()
   end);;
  (if 0 <? pcp_Version pcp then
     WriteVarInt versionType;;
     WriteVarInt (uint64 (VarIntSerializeSize (uint64 (pcp_Version pcp))));;
     WriteVarInt (uint64 (pcp_Version pcp))
   else mret ());;
  WriteVarInt endType;;
  WriteVarInt 0.

(** * The block *)

Definition PacketCryptEncoding : Z := 4.
Definition NoPacketCryptEncoding : Z := 8.

Definition MaxBlockPayload : Z := 4000000.
Definition minTxPayload : Z := 10.
Definition maxTxPerBlock : Z := MaxBlockPayload / minTxPayload + 1.

Record MsgBlock : Type := mkBlock {
  mb_Header : BlockHeader;
  mb_Pcp : option PacketCryptProof;
  mb_Transactions : list MsgTx
}.

#[global] Instance MsgBlock_eq_dec : EqDecision MsgBlock.
Proof. solve_decision. Defined.

(** Whether a block carries a proof in the encoding. *)
Definition with_pcp `{GlobalConf} (enc : Z) : bool :=
  if enc &&& NoPacketCryptEncoding =? NoPacketCryptEncoding then false
  else (enc &&& PacketCryptEncoding =? PacketCryptEncoding) || bool_decide (ProofOfWorkAlgorithm gConf = PowPacketCrypt).

(** [msg] is the receiver, whose proof is reused when it has one. *)
Definition MsgBlock_BtcDecode `{GlobalConf} (msg : MsgBlock) (enc : Z) : Rd MsgBlock :=
  header ← readBlockHeader;
  pcp ← (if with_pcp enc then
           pcp ← readPacketCryptProof (default empty_pcp (mb_Pcp msg));
           mret (Some pcp)
         else mret (mb_Pcp msg));
  txCount ← ReadVarInt;
  if maxTxPerBlock <? txCount then mthrow ErrMessage else
  txs ← read_n (Z.to_nat txCount) (BtcDecode (NewMsgTx 0) enc);
  mret (mkBlock header pcp txs).

Definition MsgBlock_Deserialize `{GlobalConf} (msg : MsgBlock) : Rd MsgBlock := MsgBlock_BtcDecode msg WitnessEncoding.

Definition MsgBlock_BtcEncode `{GlobalConf} (msg : MsgBlock) (enc : Z) : Wr :=
  writeBlockHeader (mb_Header msg);;
  (if with_pcp enc then
     match mb_Pcp msg with
     | None => mthrow ErrText
     | Some pcp => writePacketCryptProof pcp
     end
   else mret ());;
  WriteVarInt (uint64 (len (mb_Transactions msg)));;
  for_each (mb_Transactions msg) (fun tx => BtcEncode tx enc).

Definition MsgBlock_Serialize `{GlobalConf} (msg : MsgBlock) : Wr := MsgBlock_BtcEncode msg WitnessEncoding.

Definition block_size `{GlobalConf} (tx_size : MsgTx -> Z) (msg : MsgBlock) : Z :=
  let n := blockHeaderLen + VarIntSerializeSize (uint64 (len (mb_Transactions msg))) in
  let n :=
    if bool_decide (ProofOfWorkAlgorithm gConf = PowPacketCrypt) then
      match mb_Pcp msg with Some pcp => n + Pcp_SerializeSize pcp | None => n end
    else n in
  foldl (fun n tx => n + tx_size tx) n (mb_Transactions msg).

Definition MsgBlock_SerializeSize `{GlobalConf} (msg : MsgBlock) : Z := block_size SerializeSize msg.
Definition MsgBlock_SerializeSizeStripped `{GlobalConf} (msg : MsgBlock) : Z := block_size SerializeSizeStripped msg.

Record TxLoc : Type := mkTxLoc { TxStart : Z; TxLen : Z }.

(** [r.Len()] is the number of bytes left. *)
Definition left_len : Rd Z := gets len.

Definition read_located (fullLen : Z) : Rd (MsgTx * TxLoc) :=
  before ← left_len;
  tx ← Deserialize (NewMsgTx 0);
  after ← left_len;
  mret (tx, mkTxLoc (fullLen - before) (fullLen - after - (fullLen - before))).

(** The block and the place of each transaction.  The proof is read and dropped. *)
Definition DeserializeTxLoc `{GlobalConf} (msg : MsgBlock) : Rd (MsgBlock * list TxLoc) :=
  fullLen ← left_len;
  header ← readBlockHeader;
  (if bool_decide (ProofOfWorkAlgorithm gConf = PowPacketCrypt) then
     readPacketCryptProof empty_pcp;; mret ()
   else mret ());;
  txCount ← ReadVarInt;
  if maxTxPerBlock <? txCount then mthrow ErrMessage else
  located ← read_n (Z.to_nat txCount) (read_located fullLen);
  mret (mkBlock header (mb_Pcp msg) (map fst located), map snd located).

Definition MsgBlock_BlockHash (msg : MsgBlock) : bytes := BlockHash (mb_Header msg).

Definition TxHashes (msg : MsgBlock) : list bytes := map TxHash (mb_Transactions msg).
