(* ===== verification/BlockProps.v ===== *)
(** Correctness of the block encoding: headers, PacketCrypt proofs and blocks are read
    back from their serialization, whose size is the announced one up to one case, and the locator
    finds every transaction in it. *)

From S2P Require Import Prelude Sha Wire MsgTx MsgTxProps ChainParams Block.

(** * Headers *)

Record header_wf (h : BlockHeader) : Prop := {
  hwf_version : - 2 ^ 31 <= bh_Version h < 2 ^ 31;
  hwf_prev : len (bh_PrevBlock h) = 32;
  hwf_root : len (bh_MerkleRoot h) = 32;
  hwf_time : 0 <= bh_Timestamp h < 2 ^ 32;
  hwf_bits : 0 <= bh_Bits h < 2 ^ 32;
  hwf_nonce : 0 <= bh_Nonce h < 2 ^ 32
}.

Definition header_bytes (h : BlockHeader) : bytes :=
  le_split 4 (uint32 (bh_Version h)) ++ bh_PrevBlock h ++ bh_MerkleRoot h ++
  le_split 4 (uint32 (bh_Timestamp h)) ++ le_split 4 (bh_Bits h) ++ le_split 4 (bh_Nonce h).

Lemma writes_header h : writes (writeBlockHeader h) (header_bytes h).
Proof. unfold header_bytes. repeat (apply writes_bind; [apply writes_Write|]). apply writes_Write. Qed.

Lemma reads_hash b : len b = 32 -> reads (ReadFull HashSize) b b.
Proof. intros Hb. change HashSize with 32. rewrite <- Hb. apply reads_ReadFull. Qed.

Lemma reads_header h : header_wf h -> reads readBlockHeader (header_bytes h) h.
Proof.
  intros [Hv Hp Hr Ht Hb Hn]. unfold readBlockHeader, header_bytes. rewrite (uwrap_small 32 (bh_Timestamp h)) by lia.
  eapply reads_bind; [apply (reads_UintN 4); change (256 ^ Z.of_nat 4) with (2 ^ 32); apply Z.mod_pos_bound; lia|].
  eapply reads_bind; [by apply reads_hash|]. eapply reads_bind; [by apply reads_hash|].
  eapply reads_bind; [apply (reads_UintN 4); lia|]. eapply reads_bind; [apply (reads_UintN 4); lia|].
  eapply reads_bind_last; [apply (reads_UintN 4); lia|]. cbv beta. rewrite int32_uint32 by done.
  destruct h. apply reads_ret.
Qed.

Lemma len_header h : header_wf h -> len (header_bytes h) = blockHeaderLen.
Proof. intros [_ Hp Hr _ _ _]. unfold header_bytes, blockHeaderLen. len_lia. Qed.

(** * PacketCrypt proofs *)

Definition sigs_match (anns : list bytes) (sigs : list (option bytes)) : Prop :=
  Forall2 (fun ann sig => if HasSigningKey ann then exists s, sig = Some s /\ len s = 64 else sig = None) anns sigs.

(** The ranges of the Go types, the size of the proof that the reader enforces, a content
    proof that fits into memory, and signatures for exactly the announcements that have a
    signing key, or none at all. *)
Record pcp_wf (p : PacketCryptProof) : Prop := {
  pwf_nonce : 0 <= pcp_Nonce p < 2 ^ 32;
  pwf_count : length (Announcements p) = 4%nat;
  pwf_anns : Forall (fun a => len a = PcAnnSerializeSize) (Announcements p);
  pwf_proof : 0 < len (AnnProof p) <= 131072 - 4100;
  pwf_sigs : Signatures p = repeat None 4 \/ sigs_match (Announcements p) (Signatures p);
  pwf_content : match ContentProof p with Some cp => len cp < 2 ^ 61 | None => True end;
  pwf_version : 0 <= pcp_Version p < 2 ^ 63
}.

Definition entry (t : Z) (payload : bytes) : bytes := varint t ++ varint (len payload) ++ payload.

Definition pcp_entry (p : PacketCryptProof) : bytes :=
  entry pcpType (le_split 4 (pcp_Nonce p) ++ concat (Announcements p) ++ AnnProof p).

Definition sig_payload (sigs : list (option bytes)) : bytes := concat (map (default []) sigs).
Definition sig_entry (p : PacketCryptProof) : bytes :=
  if 0 <? sig_len (Signatures p) then entry signaturesType (sig_payload (Signatures p)) else [].
Definition content_entry (p : PacketCryptProof) : bytes :=
  match ContentProof p with Some cp => entry contentProofsType cp | None => [] end.
Definition version_entry (p : PacketCryptProof) : bytes :=
  if 0 <? pcp_Version p then entry versionType (varint (pcp_Version p)) else [].

Definition pcp_bytes (p : PacketCryptProof) : bytes :=
  pcp_entry p ++ sig_entry p ++ content_entry p ++ version_entry p ++ entry endType [].

Lemma sig_len_payload sigs : sig_len sigs = len (sig_payload sigs).
Proof.
  unfold sig_len, sig_payload. rewrite (foldl_add_concat _ (default [])); [done|]. apply Forall_true. done.
Qed.

Lemma len_concat_anns (l : list bytes) n : Forall (fun a => len a = n) l -> len (concat l) = len l * n.
Proof. induction 1 as [|a l Ha Hl IH]; cbn [concat]; len_lia. Qed.

Lemma pcp_payload_len p : pcp_wf p ->
  len (le_split 4 (pcp_Nonce p) ++ concat (Announcements p) ++ AnnProof p) = 4 + 1024 * 4 + len (AnnProof p).
Proof.
  intros [_ Hc Ha _ _ _ _]. assert (len (Announcements p) = 4) as E by (unfold len; by rewrite Hc).
  rewrite !len_app, (len_concat_anns _ _ Ha), E. unfold PcAnnSerializeSize. len_lia.
Qed.

Lemma sig_payload_le p : pcp_wf p -> len (sig_payload (Signatures p)) <= 256.
Proof.
  intros [_ Hc _ _ [->|Hs] _ _]; [vm_compute; discriminate|].
  assert (len (sig_payload (Signatures p)) <= 64 * len (Announcements p)) as H.
  { clear -Hs. unfold sig_payload. induction Hs as [|a s anns sigs H Hs IH]; cbn [map concat]; [done|].
    rewrite len_app, len_cons. assert (len (default [] s) <= 64); [|lia].
    destruct (HasSigningKey a); [destruct H as (x & -> & Hx); simpl; lia|]. subst s. simpl. len_lia. }
  assert (len (Announcements p) = 4) as E by (unfold len; by rewrite Hc). lia.
Qed.

Lemma writes_entry t payload (m : Wr) : 0 <= t < 2 ^ 64 -> len payload < 2 ^ 64 -> writes m payload ->
  writes (WriteVarInt t;; WriteVarInt (uint64 (len payload));; m) (entry t payload).
Proof.
  intros Ht Hl Hm. apply writes_bind; [by apply writes_VarInt|]. pose proof (len_nonneg payload).
  rewrite uwrap_small by lia. apply writes_bind; [by apply writes_VarInt|done].
Qed.

Lemma writes_pcp p : pcp_wf p -> writes (writePacketCryptProof p) (pcp_bytes p).
Proof.
  intros Hwf. pose proof Hwf as [Hn Hc Ha Hp Hs Hcp Hv]. pose proof (sig_payload_le p Hwf) as Hsl. unfold writePacketCryptProof, pcp_bytes.
  apply writes_bind; [|apply writes_bind; [|apply writes_bind; [|apply writes_bind]]].
  - unfold pcp_entry. rewrite <- pcp_payload_len by done. apply writes_entry; [done|rewrite pcp_payload_len by done; lia|].
    apply writes_bind; [apply writes_Write|]. apply writes_bind; [|apply writes_Write].
    rewrite <- (map_id (Announcements p)) at 2. apply writes_for_each, Forall_true. intros. apply writes_Write.
  - unfold sig_entry. cbv zeta. destruct (0 <? _); [|apply writes_ret]. rewrite sig_len_payload. apply writes_entry; [done|lia|].
    apply writes_for_each, Forall_true. intros [s|]; [apply writes_Write|apply writes_ret].
  - unfold content_entry. destruct (ContentProof p); [|apply writes_ret]. apply writes_entry; [done|lia|apply writes_Write].
  - unfold version_entry. destruct (0 <? _); [|apply writes_ret]. rewrite (uwrap_small 64 (pcp_Version p)) by lia.
    rewrite <- len_varint. apply writes_entry; [done| |apply writes_VarInt; lia].
    rewrite len_varint. unfold VarIntSerializeSize. repeat case_match; lia.
  - unfold entry. rewrite app_nil_r. by apply writes_bind; apply writes_VarInt.
Qed.

(** ** Reading *)

Definition with_serializeLength (n : Z) (p : PacketCryptProof) : PacketCryptProof :=
  mkPcp (pcp_Nonce p) (Announcements p) (Signatures p) (ContentProof p) (AnnProof p) (pcp_Version p) n.

Lemma len_entry t payload : len (entry t payload) = VarIntSerializeSize t + VarIntSerializeSize (len payload) + len payload.
Proof. unfold entry. len_lia. Qed.

Lemma varint_size_bound v : 1 <= VarIntSerializeSize v <= 9.
Proof. unfold VarIntSerializeSize. repeat case_match; lia. Qed.

(** A round of the loop on an entry that is read in full. *)
Lemma pcp_loop_entry f t payload p h p' h' total rest :
  0 < t < 2 ^ 64 -> len payload < 2 ^ 62 -> reads (read_pcp_entry t (len payload) h p) payload (p', h') ->
  0 <= total -> total + len (entry t payload) < 2 ^ 63 ->
  read_pcp_loop (S f) p h total (entry t payload ++ rest) = read_pcp_loop f p' h' (total + len (entry t payload)) rest.
Proof.
  intros Ht Hl Hr Hto Hsum. pose proof (len_nonneg payload). rewrite len_entry in *. unfold entry. rewrite <- !app_assoc. cbn [read_pcp_loop].
  rewrite (bind_Ret _ _ _ t _ (reads_VarInt t ltac:(lia) _)). rewrite (bind_Ret _ _ _ (len payload) _ (reads_VarInt (len payload) ltac:(lia) _)).
  cbv zeta. rewrite (proj2 (Z.eqb_neq t endType)) by (unfold endType; lia). rewrite (bind_Ret _ _ _ (p', h') rest (Hr rest)).
  rewrite (int64_small (len payload)), int64_small by (pose proof (varint_size_bound t); pose proof (varint_size_bound (len payload)); lia). done.
Qed.

Lemma pcp_loop_end f p total rest :
  0 <= total < 2 ^ 62 ->
  read_pcp_loop (S f) p true total (entry endType [] ++ rest) = (Ret (with_serializeLength (total + 2) p), rest).
Proof.
  intros Ht. unfold entry. rewrite <- !app_assoc. cbn [read_pcp_loop].
  rewrite (bind_Ret _ _ _ endType _ (reads_VarInt endType ltac:(done) _)). rewrite (bind_Ret _ _ _ 0 _ (reads_VarInt 0 ltac:(lia) _)).
  cbv zeta. change (int64 (total + _)) with (int64 (total + 2)). rewrite int64_small by lia. done.
Qed.

Lemma reads_try {A} (m : Rd A) b a : reads m b a -> reads (try_read m) b (Some a).
Proof. intros H rest. unfold try_read. by rewrite H. Qed.

Lemma reads_make_and_read b : len b < 2 ^ 63 -> reads (make_and_read (len b)) b b.
Proof. intros Hb. unfold make_and_read. rewrite (proj2 (Z.leb_gt (2 ^ 63) (len b))) by lia. apply reads_ReadFull. Qed.

Lemma reads_anns l : Forall (fun a => len a = PcAnnSerializeSize) l ->
  reads (read_n (length l) (ReadFull PcAnnSerializeSize)) (concat l) l.
Proof.
  induction 1 as [|a l Ha Hl IH]; [apply reads_ret|]. cbn [length read_n concat]. rewrite <- Ha at 1.
  eapply reads_bind; [apply reads_ReadFull|]. eapply reads_bind_last; [exact IH|apply reads_ret].
Qed.

Lemma reads_pcp_entry p p0 h : pcp_wf p ->
  reads (read_pcp_entry pcpType (4 + 1024 * 4 + len (AnnProof p)) h p0)
    (le_split 4 (pcp_Nonce p) ++ concat (Announcements p) ++ AnnProof p)
    (mkPcp (pcp_Nonce p) (Announcements p) (Signatures p0) (ContentProof p0) (AnnProof p) (pcp_Version p0) (serializeLength p0), true).
Proof.
  intros [Hn Hc Ha Hp _ _ _]. unfold read_pcp_entry. cbn [Z.eqb pcpType Pos.eqb].
  rewrite (proj2 (Z.leb_gt (4 + 1024 * 4 + len (AnnProof p)) (1024 * 4 + 4))), (proj2 (Z.ltb_ge 131072 (4 + 1024 * 4 + len (AnnProof p)))) by lia.
  eapply reads_bind; [apply reads_try, (reads_UintN 4); lia|].
  eapply reads_bind; [rewrite <- Hc; by apply reads_anns|].
  replace (4 + 1024 * 4 + len (AnnProof p) - 1024 * 4 - 4) with (len (AnnProof p)) by lia.
  eapply reads_bind_last; [apply reads_make_and_read; lia|]. apply reads_ret.
Qed.

Lemma reads_sigs anns sigs rem : sigs_match anns sigs -> len (sig_payload sigs) <= rem ->
  reads (read_sigs anns (repeat None (length anns)) rem) (sig_payload sigs) (sigs, rem - len (sig_payload sigs)).
Proof.
  unfold sigs_match, sig_payload. intros H. revert rem. induction H as [|a s anns sigs Hs H IH]; intros rem Hr.
  { cbn. rewrite Z.sub_0_r. apply reads_ret. }
  cbn [length repeat read_sigs map concat] in *. rewrite len_app in *. destruct (HasSigningKey a); cbn [negb].
  - destruct Hs as (x & -> & Hx). simpl default in *. rewrite <- Hx. eapply reads_bind; [apply reads_ReadFull|]. cbv zeta.
    pose proof (len_nonneg (concat (map (default []) sigs))). rewrite (proj2 (Z.ltb_ge (rem - len x) 0)) by lia.
    eapply reads_bind_last; [apply IH; lia|]. cbv beta iota. rewrite Z.sub_add_distr. apply reads_ret.
  - subst s. simpl default in *. change (len []) with 0 in *. rewrite Z.add_0_l in *. eapply reads_bind_last; [apply IH; lia|]. apply reads_ret.
Qed.

Lemma no_sigs p : pcp_wf p -> sig_len (Signatures p) <= 0 -> Signatures p = repeat None 4.
Proof.
  intros [_ Hc _ _ [|Hs] _ _] Hl; [done|]. rewrite sig_len_payload in Hl. rewrite <- Hc. clear Hc.
  unfold sigs_match, sig_payload in *. induction Hs as [|a s anns sigs H Hs IH]; [done|]. cbn [map concat length repeat] in *.
  rewrite len_app in Hl. pose proof (len_nonneg (concat (map (default []) sigs))). pose proof (len_nonneg (default [] s)).
  rewrite IH by lia. f_equal. destruct (HasSigningKey a); [|done]. destruct H as (x & -> & Hx). simpl in *. lia.
Qed.

(** ** The loop ends *)

(** A reader that only moves forward. *)
Abbreviation advances m := (inverts m (fun _ _ => True)).

Lemma advances_bind {A B} (m : Rd A) (f : A -> Rd B) : advances m -> (forall a, advances (f a)) -> advances (m ≫= f).
Proof. intros Hm Hf. by eapply (inverts_bind _ _ _ (fun _ _ _ => True)). Qed.

Lemma advances_ret {A} (a : A) : advances (mret a).
Proof. by apply inverts_ret. Qed.

Lemma advances_if {A} (c : bool) (m1 m2 : Rd A) : advances m1 -> advances m2 -> advances (if c then m1 else m2).
Proof. by destruct c. Qed.

Lemma advances_ReadFull n : advances (ReadFull n).
Proof.
  intros r a rest. unfold ReadFull. destruct (Z.ltb_spec (len r) n); intros [= <- <-].
  exists (take (Z.to_nat n) r). by rewrite take_drop.
Qed.

Lemma advances_VarInt : advances ReadVarInt.
Proof. eapply inverts_mono; [apply inverts_VarInt|done]. Qed.

Lemma advances_panic {A} : advances (lift Panic : Rd A).
Proof. intros r a rest H. done. Qed.

Lemma advances_throw {A} (e : wireerr) : advances (mthrow e : Rd A).
Proof. apply inverts_throw. Qed.

Lemma advances_try {A} (m : Rd A) : (forall r e rest, m r = (Throw e, rest) -> exists b, r = b ++ rest) -> advances m -> advances (try_read m).
Proof.
  intros Ht Hm r a rest. unfold try_read. destruct (m r) as [[x|e|] r'] eqn:E; intros [= <- <-].
  - destruct (Hm _ _ _ E) as (b & ? & _). by exists b.
  - destruct (Ht _ _ _ E) as (b & ?). by exists b.
Qed.

Create HintDb advances.
#[local] Hint Resolve advances_ret advances_if advances_ReadFull advances_VarInt advances_panic advances_throw : advances.

Lemma advances_read_n {A} (m : Rd A) n : advances m -> advances (read_n n m).
Proof.
  intros Hm. induction n as [|n IH]; cbn [read_n]; [apply advances_ret|].
  apply advances_bind; [done|intros a]. apply advances_bind; [done|intros l]. apply advances_ret.
Qed.

Lemma advances_read_sigs anns sigs rem : advances (read_sigs anns sigs rem).
Proof.
  revert sigs rem. induction anns as [|a anns IH]; intros [|s sigs] rem; cbn [read_sigs]; try apply advances_ret.
  apply advances_if.
  - apply advances_bind; [apply IH|intros [? ?]]. apply advances_ret.
  - apply advances_bind; [apply advances_ReadFull|intros b]. cbv zeta. apply advances_if; [apply advances_throw|].
    apply advances_bind; [apply IH|intros [? ?]]. apply advances_ret.
Qed.

Lemma advances_make_and_read n : advances (make_and_read n).
Proof. unfold make_and_read. eauto with advances. Qed.

Lemma advances_nonce : advances (try_read Uint32).
Proof.
  apply advances_try; [|apply advances_bind; [apply advances_ReadFull|intros; apply advances_ret]].
  intros r e rest. unfold Uint32, mbind, St_bind, ReadFull. destruct (Z.ltb_spec (len r) 4); [|done].
  intros [= <- <-]. exists r. by rewrite app_nil_r.
Qed.

Lemma advances_entry t l h p : advances (read_pcp_entry t l h p).
Proof.
  unfold read_pcp_entry. repeat apply advances_if; try apply advances_throw.
  - apply advances_bind; [apply advances_nonce|intros n]. apply advances_bind; [apply advances_read_n, advances_ReadFull|intros anns].
    apply advances_bind; [apply advances_make_and_read|intros b; apply advances_ret].
  - apply advances_bind; [apply advances_read_sigs|intros [sigs rem]]. eauto with advances.
  - apply advances_bind; [apply advances_make_and_read|intros b; apply advances_ret].
  - apply advances_bind; [apply advances_VarInt|intros v]. eauto with advances.
  - apply advances_bind; [apply advances_make_and_read|intros b; apply advances_ret].
Qed.

(** The length of the stream bounds the number of rounds: more fuel changes nothing. *)
Lemma read_pcp_loop_fuel f1 f2 p h total r : (length r < f1)%nat -> (length r < f2)%nat ->
  read_pcp_loop f1 p h total r = read_pcp_loop f2 p h total r.
Proof.
  revert f2 p h total r. induction f1 as [|f1 IH]; intros [|f2] p h total r H1 H2; try lia.
  cbn [read_pcp_loop]. unfold mbind, St_bind. destruct (ReadVarInt r) as [[t| |] r1] eqn:E1; try done.
  destruct (inverts_VarInt _ _ _ E1) as (b & -> & -> & _). destruct (ReadVarInt r1) as [[l| |] r2] eqn:E2; try done.
  destruct (advances_VarInt _ _ _ E2) as (b & -> & _). cbv zeta. destruct (t =? endType); [done|].
  destruct (read_pcp_entry t l h p r2) as [[[p' h']| |] r3] eqn:E3; try done.
  destruct (advances_entry _ _ _ _ _ _ _ E3) as (b3 & -> & _). rewrite !length_app in *.
  assert (0 < length (varint t))%nat; [|apply IH; lia]. pose proof (len_varint t) as Hv. pose proof (varint_size_bound t). unfold len in Hv. lia.
Qed.

(** ** The whole proof *)

(** The loop with the fuel that [readPacketCryptProof] gives it. *)
Definition pcp_loop (p : PacketCryptProof) (h : bool) (total : Z) : Rd PacketCryptProof := fun r =>
  read_pcp_loop (S (length r)) p h total r.

Lemma pcp_loop_step t payload p h p' h' total rest :
  0 < t < 2 ^ 64 -> len payload < 2 ^ 62 -> reads (read_pcp_entry t (len payload) h p) payload (p', h') ->
  0 <= total -> total + len (entry t payload) < 2 ^ 63 ->
  pcp_loop p h total (entry t payload ++ rest) = pcp_loop p' h' (total + len (entry t payload)) rest.
Proof.
  intros. unfold pcp_loop. rewrite (pcp_loop_entry _ _ _ _ _ p' h') by done. apply read_pcp_loop_fuel; [|lia].
  rewrite length_app. pose proof (len_entry t payload) as Hl. pose proof (varint_size_bound t). pose proof (varint_size_bound (len payload)).
  pose proof (len_nonneg payload). unfold len in *. lia.
Qed.

Lemma sig_step p p0 total rest : pcp_wf p -> Announcements p0 = Announcements p -> Signatures p0 = repeat None 4 ->
  0 <= total < 2 ^ 62 ->
  pcp_loop p0 true total (sig_entry p ++ rest) =
    pcp_loop (mkPcp (pcp_Nonce p0) (Announcements p0) (Signatures p) (ContentProof p0) (AnnProof p0) (pcp_Version p0) (serializeLength p0))
      true (total + len (sig_entry p)) rest.
Proof.
  intros Hwf Ea Es Ht. unfold sig_entry. pose proof (sig_payload_le p Hwf) as Hl. destruct (Z.ltb_spec 0 (sig_len (Signatures p))) as [Hs|Hs].
  - apply pcp_loop_step; [done|lia| |lia|rewrite len_entry; pose proof (varint_size_bound (len (sig_payload (Signatures p)))); unfold VarIntSerializeSize at 1; simpl; lia].
    unfold read_pcp_entry. cbn [Z.eqb signaturesType pcpType Pos.eqb negb]. rewrite Ea, Es. rewrite sig_len_payload in Hs.
    destruct (pwf_sigs _ Hwf) as [E|Hm]; [rewrite E in Hs; vm_compute in Hs; done|].
    rewrite int64_small by lia. rewrite <- (pwf_count _ Hwf). eapply reads_bind_last; [by apply reads_sigs|]. cbv beta iota.
    rewrite Z.sub_diag. apply reads_ret.
  - cbn [app]. change (len []) with 0. rewrite Z.add_0_r, (no_sigs p Hwf Hs). rewrite <- Es. by destruct p0.
Qed.

Lemma content_step p p0 total rest : pcp_wf p -> ContentProof p0 = None -> 0 <= total < 2 ^ 62 ->
  pcp_loop p0 true total (content_entry p ++ rest) =
    pcp_loop (mkPcp (pcp_Nonce p0) (Announcements p0) (Signatures p0) (ContentProof p) (AnnProof p0) (pcp_Version p0) (serializeLength p0))
      true (total + len (content_entry p)) rest.
Proof.
  intros Hwf Ec Ht. unfold content_entry. pose proof (pwf_content _ Hwf) as Hc. destruct (ContentProof p) as [cp|].
  - apply pcp_loop_step; [done|lia| |lia|rewrite len_entry; pose proof (varint_size_bound (len cp)); unfold VarIntSerializeSize at 1; simpl; lia].
    unfold read_pcp_entry. cbn [Z.eqb signaturesType pcpType contentProofsType Pos.eqb negb].
    eapply reads_bind_last; [apply reads_make_and_read; lia|]. apply reads_ret.
  - cbn [app]. change (len []) with 0. rewrite Z.add_0_r. rewrite <- Ec. by destruct p0.
Qed.

Lemma version_step p p0 total rest : pcp_wf p -> pcp_Version p0 = 0 -> 0 <= total < 2 ^ 62 + 2 ^ 61 ->
  pcp_loop p0 true total (version_entry p ++ rest) =
    pcp_loop (mkPcp (pcp_Nonce p0) (Announcements p0) (Signatures p0) (ContentProof p0) (AnnProof p0) (pcp_Version p) (serializeLength p0))
      true (total + len (version_entry p)) rest.
Proof.
  intros Hwf Ev Ht. unfold version_entry. pose proof (pwf_version _ Hwf) as Hv. destruct (Z.ltb_spec 0 (pcp_Version p)) as [Hs|Hs].
  - pose proof (varint_size_bound (pcp_Version p)).
    assert (VarIntSerializeSize (VarIntSerializeSize (pcp_Version p)) = 1) as E1 by (unfold VarIntSerializeSize at 1; case_match; lia).
    apply pcp_loop_step; rewrite ?len_entry, ?len_varint, ?E1; [done|lia| |lia|unfold VarIntSerializeSize at 1; simpl; lia].
    unfold read_pcp_entry. cbn [Z.eqb signaturesType pcpType contentProofsType versionType Pos.eqb negb].
    eapply reads_bind_last; [apply reads_VarInt; lia|]. cbv beta. rewrite (int64_small (VarIntSerializeSize _)), Z.eqb_refl by lia.
    rewrite int64_small by lia. apply reads_ret.
  - cbn [app]. change (len []) with 0. rewrite Z.add_0_r. replace (pcp_Version p) with (pcp_Version p0) by lia. by destruct p0.
Qed.

Lemma reads_pcp p : pcp_wf p -> reads (readPacketCryptProof empty_pcp) (pcp_bytes p) (with_serializeLength (len (pcp_bytes p)) p).
Proof.
  intros Hwf rest. change (readPacketCryptProof empty_pcp) with (pcp_loop empty_pcp false 0).
  pose proof (sig_payload_le p Hwf) as Hsl. pose proof (pwf_proof _ Hwf) as Hp. pose proof (pwf_content _ Hwf) as Hcp.
  assert (len (pcp_entry p) <= 2 ^ 20) as B1.
  { unfold pcp_entry. rewrite len_entry, pcp_payload_len by done.
    pose proof (varint_size_bound pcpType). pose proof (varint_size_bound (4 + 1024 * 4 + len (AnnProof p))). lia. }
  assert (len (sig_entry p) <= 2 ^ 10) as B2.
  { unfold sig_entry. destruct (0 <? _); [|change (len []) with 0; lia]. rewrite len_entry. pose proof (varint_size_bound signaturesType).
    pose proof (varint_size_bound (len (sig_payload (Signatures p)))). lia. }
  assert (len (content_entry p) <= 2 ^ 61 + 18) as B3.
  { unfold content_entry. destruct (ContentProof p) as [b|]; [|change (len []) with 0; lia]. rewrite len_entry. pose proof (varint_size_bound contentProofsType).
    pose proof (varint_size_bound (len b)). lia. }
  assert (len (version_entry p) <= 27) as B4.
  { unfold version_entry. destruct (0 <? _); [|change (len []) with 0; lia]. rewrite len_entry, len_varint.
    pose proof (varint_size_bound (pcp_Version p)). pose proof (varint_size_bound versionType). pose proof (varint_size_bound (VarIntSerializeSize (pcp_Version p))). lia. }
  pose proof (len_nonneg (pcp_entry p)). pose proof (len_nonneg (sig_entry p)). pose proof (len_nonneg (content_entry p)).
  pose proof (len_nonneg (version_entry p)). unfold pcp_bytes. rewrite <- !app_assoc. unfold pcp_entry at 1.
  rewrite (pcp_loop_step pcpType _ _ _ (mkPcp (pcp_Nonce p) (Announcements p) (repeat None 4) None (AnnProof p) 0 0) true 0 _ ltac:(done));
    [|rewrite pcp_payload_len by done; lia|rewrite pcp_payload_len by done; by apply (reads_pcp_entry p empty_pcp false)|lia|fold (pcp_entry p); lia].
  fold (pcp_entry p). rewrite (sig_step p) by (done || lia). rewrite (content_step p) by (done || lia). rewrite (version_step p) by (done || lia).
  unfold pcp_loop. rewrite pcp_loop_end by lia. unfold with_serializeLength. rewrite !len_app.
  change (len (entry endType [])) with 2. rewrite Z.add_0_l, !Z.add_assoc. done.
Qed.

(** The entry of a content proof that is empty but not nil is written and not counted. *)
Definition uncounted (p : PacketCryptProof) : Z := match ContentProof p with Some [] => 2 | _ => 0 end.

Lemma size_pcp p : pcp_wf p -> Pcp_SerializeSize p + uncounted p = len (pcp_bytes p).
Proof.
  intros Hwf. pose proof (pwf_version _ Hwf) as Hv. pose proof (pwf_content _ Hwf) as Hc. pose proof (pwf_proof _ Hwf) as Hp.
  pose proof (sig_payload_le p Hwf) as Hs. unfold Pcp_SerializeSize, pcp_bytes. rewrite !len_app. cbv zeta.
  assert (len (pcp_entry p) = VarIntSerializeSize pcpType + VarIntSerializeSize (uint64 (1024 * 4 + 4 + len (AnnProof p))) + (1024 * 4 + 4 + len (AnnProof p))) as ->.
  { unfold pcp_entry. rewrite len_entry, pcp_payload_len by done. rewrite uwrap_small by lia. do 3 f_equal; lia. }
  unfold sig_entry, content_entry, version_entry. rewrite sig_len_payload. pose proof (len_nonneg (sig_payload (Signatures p))).
  assert (len (match ContentProof p with Some cp => entry contentProofsType cp | None => [] end) =
    if 0 <? len (default [] (ContentProof p)) then VarIntSerializeSize contentProofsType + VarIntSerializeSize (uint64 (len (default [] (ContentProof p)))) + len (default [] (ContentProof p)) else uncounted p) as ->.
  { unfold uncounted. destruct (ContentProof p) as [[|c cp]|]; [done| |done]. change (default [] (Some (c :: cp))) with (c :: cp). pose proof (len_nonneg cp).
    assert (0 < len (c :: cp)) by len_lia. rewrite (proj2 (Z.ltb_lt 0 (len (c :: cp)))), len_entry, uwrap_small by lia. done. }
  assert (0 < len (default [] (ContentProof p)) -> uncounted p = 0) as Hunc by (unfold uncounted; by destruct (ContentProof p) as [[|]|]).
  change (len (entry endType [])) with (VarIntSerializeSize endType + VarIntSerializeSize 0).
  assert (len (if 0 <? pcp_Version p then entry versionType (varint (pcp_Version p)) else []) =
    if 0 <? pcp_Version p then VarIntSerializeSize versionType + VarIntSerializeSize (VarIntSerializeSize (uint64 (pcp_Version p))) + VarIntSerializeSize (uint64 (pcp_Version p)) else 0) as ->.
  { destruct (0 <? _); [|done]. rewrite len_entry, len_varint, uwrap_small by lia. done. }
  rewrite (uwrap_small 64 (len (sig_payload _))) by lia.
  destruct (0 <? len (sig_payload _)); [rewrite len_entry|change (len []) with 0];
    destruct (0 <? pcp_Version p), (Z.ltb_spec 0 (len (default [] (ContentProof p)))); rewrite ?Hunc by done; lia.
Qed.

Lemma Pcp_size_pos p : 0 < Pcp_SerializeSize p.
Proof.
  unfold Pcp_SerializeSize. cbv zeta. pose proof (len_nonneg (AnnProof p)). pose proof (len_nonneg (default [] (ContentProof p))).
  rewrite !sig_len_payload. pose proof (len_nonneg (sig_payload (Signatures p))).
  pose proof (varint_size_bound pcpType). pose proof (varint_size_bound versionType). pose proof (varint_size_bound signaturesType).
  pose proof (varint_size_bound contentProofsType). pose proof (varint_size_bound endType). pose proof (varint_size_bound 0).
  repeat match goal with |- context [VarIntSerializeSize (?f ?x)] => pose proof (varint_size_bound (f x)); generalize dependent (VarIntSerializeSize (f x)); intros end.
  repeat case_match; lia.
Qed.

(** * Blocks *)

Section blocks.
Context `{GlobalConf}.

Definition pow_pcp : bool := bool_decide (ProofOfWorkAlgorithm gConf = PowPacketCrypt).

(** A block that carries a proof exactly on a network with that proof of work, whose
    transactions have inputs and are not announced as EPTF. *)
Record block_wf (blk : MsgBlock) : Prop := {
  bwf_header : header_wf (mb_Header blk);
  bwf_pcp : if pow_pcp then exists p, mb_Pcp blk = Some p /\ pcp_wf p else mb_Pcp blk = None;
  bwf_count : len (mb_Transactions blk) <= maxTxPerBlock;
  bwf_txs : Forall (fun tx => tx_wf tx /\ tx_TxIn tx <> [] /\ uint32 (tx_Version tx) <> EptfMagic) (mb_Transactions blk)
}.

Definition tx_bytes (tx : MsgTx) : bytes := if HasWitness tx then witness_bytes tx else base_bytes tx.

(** What a reader makes of a block: nil witnesses are normalized and the size of the
    proof is recorded. *)
Definition normal_block (blk : MsgBlock) : MsgBlock :=
  mkBlock (mb_Header blk)
    (match mb_Pcp blk with Some p => Some (with_serializeLength (Pcp_SerializeSize p + uncounted p) p) | None => None end)
    (map normal_tx (mb_Transactions blk)).

Definition block_uncounted (blk : MsgBlock) : Z := match mb_Pcp blk with Some p => uncounted p | None => 0 end.

Definition proof_bytes (blk : MsgBlock) : bytes := match mb_Pcp blk with Some p => pcp_bytes p | None => [] end.

Definition block_bytes (blk : MsgBlock) : bytes :=
  header_bytes (mb_Header blk) ++ proof_bytes blk ++ varint (len (mb_Transactions blk)) ++ concat (map tx_bytes (mb_Transactions blk)).

Lemma with_pcp_witness : with_pcp WitnessEncoding = pow_pcp.
Proof. done. Qed.

Lemma writes_tx tx : tx_wf tx -> writes (BtcEncode tx WitnessEncoding) (tx_bytes tx).
Proof. intros Hwf. exact (writes_BtcEncode_plain tx WitnessEncoding Hwf ltac:(by right)). Qed.

Lemma reads_tx tx : tx_wf tx -> tx_TxIn tx <> [] -> uint32 (tx_Version tx) <> EptfMagic ->
  reads (BtcDecode (NewMsgTx 0) WitnessEncoding) (tx_bytes tx) (normal_tx tx).
Proof.
  intros Hwf Hi Hm. unfold tx_bytes, normal_tx. destruct (HasWitness tx).
  - by apply (reads_wit tx (NewMsgTx 0)).
  - apply (reads_base tx (NewMsgTx 0)); [done|done|by left].
Qed.

Lemma writes_block blk : block_wf blk -> writes (MsgBlock_Serialize blk) (block_bytes blk).
Proof.
  intros [Hh Hp Hc Ht]. unfold MsgBlock_Serialize, MsgBlock_BtcEncode, block_bytes, proof_bytes. rewrite with_pcp_witness.
  apply writes_bind; [apply writes_header|]. apply writes_bind; [|apply writes_bind].
  - destruct pow_pcp; [destruct Hp as (p & -> & Hp); by apply writes_pcp|]. rewrite Hp. apply writes_ret.
  - by apply (writes_count _ maxTxPerBlock).
  - apply writes_for_each. eapply Forall_impl; [|exact Ht]. intros tx (Hw & _). by apply writes_tx.
Qed.

Lemma reads_block blk h0 txs0 : block_wf blk -> reads (MsgBlock_Deserialize (mkBlock h0 None txs0)) (block_bytes blk) (normal_block blk).
Proof.
  intros [Hh Hp Hc Ht]. unfold MsgBlock_Deserialize, MsgBlock_BtcDecode, block_bytes, proof_bytes, normal_block. rewrite with_pcp_witness.
  pose proof (len_nonneg (mb_Transactions blk)). assert (maxTxPerBlock = 400001) as E by done.
  eapply reads_bind; [by apply reads_header|]. eapply (reads_bind _ _ _ _ (mb_Pcp (normal_block blk))).
  { unfold normal_block. cbn [mb_Pcp]. destruct pow_pcp; [|rewrite Hp; apply reads_ret]. destruct Hp as (p & -> & Hp).
    eapply reads_bind_last; [by apply reads_pcp|]. rewrite <- size_pcp by done. apply reads_ret. }
  eapply reads_bind; [apply reads_VarInt; lia|]. rewrite (proj2 (Z.ltb_ge maxTxPerBlock (len (mb_Transactions blk)))) by lia.
  eapply reads_bind_last; [|apply reads_ret]. unfold len. rewrite Nat2Z.id. clear -Ht.
  induction Ht as [|tx txs (Hw & Hi & Hm) Ht IH]; [apply reads_ret|]. cbn [length read_n map concat].
  eapply reads_bind; [by apply reads_tx|]. eapply reads_bind_last; [exact IH|apply reads_ret].
Qed.

Lemma size_block blk : block_wf blk -> MsgBlock_SerializeSize blk + block_uncounted blk = len (block_bytes blk).
Proof.
  intros [Hh Hp Hc Ht]. unfold MsgBlock_SerializeSize, block_size, block_bytes, proof_bytes, block_uncounted. fold pow_pcp. rewrite !len_app, len_header by done.
  rewrite (foldl_add_concat _ tx_bytes).
  - cbv zeta. rewrite (size_count _ _ Hc) by done. destruct pow_pcp.
    + destruct Hp as (p & -> & Hp). rewrite <- (size_pcp p Hp). lia.
    + rewrite Hp. change (len []) with 0. lia.
  - eapply Forall_impl; [|exact Ht]. intros tx (Hw & _). by apply size_full.
Qed.

(** ** The place of each transaction *)

Fixpoint locs_from (off : Z) (txs : list MsgTx) : list TxLoc :=
  match txs with [] => [] | tx :: txs' => mkTxLoc off (len (tx_bytes tx)) :: locs_from (off + len (tx_bytes tx)) txs' end.

Lemma read_located_all full txs rest :
  Forall (fun tx => tx_wf tx /\ tx_TxIn tx <> [] /\ uint32 (tx_Version tx) <> EptfMagic) txs ->
  read_n (length txs) (read_located full) (concat (map tx_bytes txs) ++ rest) =
    (Ret (zip (map normal_tx txs) (locs_from (full - len (concat (map tx_bytes txs) ++ rest)) txs)), rest).
Proof.
  induction 1 as [|tx txs (Hw & Hi & Hm) Ht IH]; [done|]. cbn [length read_n map concat locs_from zip zip_with]. rewrite <- app_assoc.
  set (tail := concat (map tx_bytes txs) ++ rest) in *.
  rewrite (bind_Ret _ _ _ (normal_tx tx, mkTxLoc (full - len (tx_bytes tx ++ tail)) (len (tx_bytes tx))) tail).
  - rewrite (bind_Ret _ _ _ _ _ IH). replace (full - len (tx_bytes tx ++ tail) + len (tx_bytes tx)) with (full - len tail) by (rewrite len_app; lia). done.
  - unfold read_located, left_len. rewrite bind_gets, (bind_Ret _ _ _ (normal_tx tx) tail) by (by apply reads_tx).
    rewrite bind_gets.
    replace (full - len tail - (full - len (tx_bytes tx ++ tail))) with (len (tx_bytes tx)) by (rewrite len_app; lia). done.
Qed.

Lemma locs_from_length off txs : length (locs_from off txs) = length txs.
Proof. revert off. induction txs as [|tx txs IH]; intros off; [done|]. cbn [locs_from length]. by rewrite IH. Qed.

Lemma locs_from_slices txs pre : Forall tx_wf txs ->
  Forall2 (fun tx loc => exists x, Serialize tx [] = (Ret (), x) /\ slice (pre ++ concat (map tx_bytes txs)) (TxStart loc) (TxStart loc + TxLen loc) = Some x)
    txs (locs_from (len pre) txs).
Proof.
  intros Ht. revert pre. induction Ht as [|tx txs Hw Ht IH]; intros pre; cbn [locs_from map concat]; constructor.
  - exists (tx_bytes tx). split; [exact (writes_tx tx Hw [])|]. cbn [TxStart TxLen]. by rewrite (slice_seam pre (tx_bytes tx)) by len_lia.
  - specialize (IH (pre ++ tx_bytes tx)). rewrite <- app_assoc, len_app in IH. exact IH.
Qed.

Lemma locates blk msg : block_wf blk ->
  DeserializeTxLoc msg (block_bytes blk) =
    (Ret (mkBlock (mb_Header blk) (mb_Pcp msg) (map normal_tx (mb_Transactions blk)),
          locs_from (len (block_bytes blk) - len (concat (map tx_bytes (mb_Transactions blk)))) (mb_Transactions blk)), []).
Proof.
  intros [Hh Hp Hc Ht]. unfold DeserializeTxLoc, left_len. rewrite bind_gets. fold pow_pcp. set (full := len (block_bytes blk)).
  unfold block_bytes. rewrite (bind_Ret _ _ _ (mb_Header blk) _ (reads_header _ Hh _)).
  pose proof (len_nonneg (mb_Transactions blk)). assert (maxTxPerBlock = 400001) as E by done.
  rewrite (bind_Ret _ _ _ () (varint (len (mb_Transactions blk)) ++ concat (map tx_bytes (mb_Transactions blk)))).
  2:{ unfold proof_bytes. destruct pow_pcp; [|by rewrite Hp]. destruct Hp as (p & -> & Hp). by rewrite (bind_Ret _ _ _ _ _ (reads_pcp p Hp _)). }
  rewrite (bind_Ret _ _ _ _ _ (reads_VarInt (len (mb_Transactions blk)) ltac:(lia) _)).
  rewrite (proj2 (Z.ltb_ge maxTxPerBlock (len (mb_Transactions blk)))) by lia. unfold len at 1. rewrite Nat2Z.id.
  rewrite <- (app_nil_r (concat _)) at 1. rewrite (bind_Ret _ _ _ _ _ (read_located_all full _ [] Ht)). rewrite app_nil_r.
  cbv [mret St_ret]. do 3 f_equal.
  - f_equal. apply fst_zip. rewrite locs_from_length, length_map. lia.
  - apply snd_zip. rewrite locs_from_length, length_map. lia.
Qed.

(** The proof that is read back is in standard form, unless it has the uncounted entry. *)
Lemma normal_standard blk p : mb_Pcp (normal_block blk) = Some p -> IsStandard p = (block_uncounted blk =? 0).
Proof.
  unfold normal_block, block_uncounted. cbn [mb_Pcp]. destruct (mb_Pcp blk) as [q|]; [|done]. intros [= <-]. unfold IsStandard. cbn [serializeLength with_serializeLength].
  change (Pcp_SerializeSize (with_serializeLength (Pcp_SerializeSize q + uncounted q) q)) with (Pcp_SerializeSize q).
  assert (0 < Pcp_SerializeSize q) as Hpos by apply Pcp_size_pos.
  assert (0 <= uncounted q) as Hu by (unfold uncounted; by destruct (ContentProof q) as [[|]|]).
  destruct (Z.eqb_spec (Pcp_SerializeSize q + uncounted q) 0); [lia|].
  destruct (Z.eqb_spec (Pcp_SerializeSize q + uncounted q) (Pcp_SerializeSize q)), (Z.eqb_spec (uncounted q) 0); lia || done.
Qed.

End blocks.

(** C21: a block whose transactions have inputs and are not announced as EPTF is read back
    from its serialization, with the PacketCrypt proof where the network has one, whatever
    follows it in the stream, and the locator finds in it the bytes of every transaction.
    The serialization has the announced size, except for a proof with a content proof that
    is empty but not nil: then it is two bytes longer, and the proof that is read back is
    the only kind which [IsStandard] refuses. *)
Theorem block_roundtrip `{GlobalConf} (blk : MsgBlock) (h0 : BlockHeader) (txs0 : list MsgTx) (Hwf : block_wf blk) :
  exists b, MsgBlock_Serialize blk [] = (Ret (), b) /\
    len b = MsgBlock_SerializeSize blk + block_uncounted blk /\
    (forall rest, MsgBlock_Deserialize (mkBlock h0 None txs0) (b ++ rest) = (Ret (normal_block blk), rest)) /\
    (forall p, mb_Pcp (normal_block blk) = Some p -> IsStandard p = (block_uncounted blk =? 0)) /\
    exists locs, DeserializeTxLoc (mkBlock h0 None txs0) b = (Ret (mkBlock (mb_Header blk) None (map normal_tx (mb_Transactions blk)), locs), []) /\
      Forall2 (fun tx loc => exists x, Serialize tx [] = (Ret (), x) /\ slice b (TxStart loc) (TxStart loc + TxLen loc) = Some x)
        (mb_Transactions blk) locs.
Proof.
  exists (block_bytes blk). split; [exact (writes_block blk Hwf [])|]. split; [symmetry; by apply size_block|].
  split; [intros rest; by apply reads_block|]. split; [by apply normal_standard|]. eexists. split; [exact (locates blk _ Hwf)|].
  set (pre := header_bytes (mb_Header blk) ++ proof_bytes blk ++ varint (len (mb_Transactions blk))).
  assert (block_bytes blk = pre ++ concat (map tx_bytes (mb_Transactions blk))) as E by (unfold block_bytes, pre; by rewrite <- !app_assoc).
  rewrite E, len_app, Z.add_simpl_r. apply locs_from_slices. eapply Forall_impl; [|exact (bwf_txs _ Hwf)]. by intros tx [? _].
Qed.

(** A block with one transaction on the PKT network: the first announcement is signed. *)
Definition sample_pcp : PacketCryptProof :=
  mkPcp 7 (repeat Byte.x01 1024 :: repeat (repeat Byte.x00 1024) 3) (Some (repeat Byte.x02 64) :: repeat None 3)
    (Some [Byte.x09]) [Byte.x05; Byte.x06] 1 0.
Definition sample_block : MsgBlock :=
  mkBlock (mkHeader 0x20000000 (repeat Byte.x0a 32) (repeat Byte.x0b 32) 1600000000 0x1e0fffff 42) (Some sample_pcp) [sample_tx].

Lemma sample_pcp_wf : pcp_wf sample_pcp.
Proof.
  constructor; try (vm_compute; repeat split; congruence).
  - repeat constructor.
  - right. repeat constructor. exists (repeat Byte.x02 64). done.
Qed.

Lemma block_roundtrip_witness :
  let _ : GlobalConf := PktDefaults in
  exists b, MsgBlock_Serialize sample_block [] = (Ret (), b) /\ len b = 4329.
Proof.
  intros G. destruct (block_roundtrip sample_block (mb_Header sample_block) []) as (b & E & Hl & _).
  - constructor; [constructor; vm_compute; repeat split; congruence| |vm_compute; congruence|].
    + exists sample_pcp. split; [done|]. apply sample_pcp_wf.
    + constructor; [|done]. split; [apply sample_tx_wf|done].
  - exists b. split; [exact E|]. rewrite Hl. vm_compute. reflexivity.
Defined.

(** A proof entry whose announced length is no int makes the reader panic: the length
    is not compared with what is left before the buffer is made. *)
Lemma pcp_oversized_panics rest : exists r, readPacketCryptProof empty_pcp (varint 5 ++ varint (2 ^ 63) ++ rest) = (Panic, r).
Proof.
  unfold readPacketCryptProof. cbn [read_pcp_loop].
  rewrite (bind_Ret _ _ _ 5 _ (reads_VarInt 5 ltac:(lia) _)). rewrite (bind_Ret _ _ _ (2 ^ 63) _ (reads_VarInt (2 ^ 63) ltac:(lia) _)).
  exists rest. reflexivity.
Qed.

(** A nil and an empty content proof are written differently but counted alike. *)
Lemma pcp_size_mismatch :
  let p := mkPcp 7 (repeat (repeat Byte.x00 1024) 4) (repeat None 4) (Some []) [Byte.x05] 0 0 in
  exists b, writePacketCryptProof p [] = (Ret (), b) /\ len b = Pcp_SerializeSize p + 2.
Proof. eexists. split; vm_compute; reflexivity. Qed.
