(* ===== verification/MoneySupply.v ===== *)
(** The money of the PKT network: [PktCalcTotalMoney] is the sum of the subsidies of
    the blocks, and it stays below the limit on amounts. *)

From S2P Require Import Prelude ChainParams.

#[local] Instance pkt : GlobalConf := PktDefaults.

Definition base_subsidy : Z := 4166 * 0x40000000.

(** The money issued by the blocks below a height, block by block. *)
Fixpoint issued (n : nat) : Z :=
  match n with O => 0 | S n' => issued n' + pktCalcBlockSubsidy (pktPeriodForBlock (Z.of_nat n')) end.

(** The subsidies of the first [n] periods, one block each. *)
Fixpoint period_sum (n : nat) : Z :=
  match n with O => 0 | S n' => period_sum n' + pktCalcBlockSubsidy (Z.of_nat n') end.

Lemma subsidy_value p : 0 <= p ->
  pktCalcBlockSubsidy p = 9 ^ p * base_subsidy / 10 ^ p /\ 0 <= pktCalcBlockSubsidy p <= base_subsidy.
Proof.
  intros Hp. unfold pktCalcBlockSubsidy. rewrite Z.max_r by lia. change (int64 (4166 * SatoshiPerBitcoin)) with base_subsidy. cbv zeta.
  assert (0 < 10 ^ p) by (apply Z.pow_pos_nonneg; lia). assert (0 < 9 ^ p) by (apply Z.pow_pos_nonneg; lia).
  assert (9 ^ p <= 10 ^ p) by (apply Z.pow_le_mono_l; lia).
  assert (0 <= 9 ^ p * base_subsidy / 10 ^ p <= base_subsidy) as Hb.
  { split; [apply Z.div_pos; unfold base_subsidy; lia|]. apply Z.div_le_upper_bound; [lia|]. unfold base_subsidy. nia. }
  rewrite int64_small by (unfold base_subsidy in *; lia). done.
Qed.

Lemma period_sum_bound n : 0 <= period_sum n /\
  period_sum n * 10 ^ Z.of_nat n <= 10 * base_subsidy * (10 ^ Z.of_nat n - 9 ^ Z.of_nat n).
Proof.
  induction n as [|n [IH0 IH]]; [done|]. cbn [period_sum]. destruct (subsidy_value (Z.of_nat n) ltac:(lia)) as [E Hs].
  split; [lia|]. rewrite Nat2Z.inj_succ, !Z.pow_succ_r by lia.
  assert (0 < 10 ^ Z.of_nat n) as Hp by (apply Z.pow_pos_nonneg; lia).
  pose proof (Z.mul_div_le (9 ^ Z.of_nat n * base_subsidy) (10 ^ Z.of_nat n) Hp) as Hd. rewrite <- E in Hd.
  set (s := pktCalcBlockSubsidy (Z.of_nat n)) in *. clearbody s. set (x := 10 ^ Z.of_nat n) in *. set (y := 9 ^ Z.of_nat n) in *. clearbody x y.
  unfold base_subsidy in *. lia.
Qed.

Lemma period_sum_limit n : 0 <= period_sum n <= 10 * base_subsidy.
Proof.
  destruct (period_sum_bound n) as [H0 H]. split; [done|].
  assert (0 < 10 ^ Z.of_nat n) by (apply Z.pow_pos_nonneg; lia). assert (0 < 9 ^ Z.of_nat n) by (apply Z.pow_pos_nonneg; lia).
  unfold base_subsidy in *. nia.
Qed.

Lemma period_sum_next n : period_sum n + pktCalcBlockSubsidy (Z.of_nat n) <= 10 * base_subsidy.
Proof. exact (proj2 (period_sum_limit (S n))). Qed.

(** No addition of the loop wraps. *)
Lemma total_loop_spec n i : total_loop n (Z.of_nat i) (pktBlocksPerPeriod * period_sum i) = pktBlocksPerPeriod * period_sum (i + n).
Proof.
  revert i. induction n as [|n IH]; intros i; cbn [total_loop]; [by rewrite Nat.add_0_r|].
  destruct (subsidy_value (Z.of_nat i) ltac:(lia)) as [_ Hs]. pose proof (period_sum_next i) as Hn. pose proof (period_sum_limit i) as Hl.
  unfold pktBlocksPerPeriod, base_subsidy in *. rewrite (int64_small (_ * _)), int64_small by lia.
  replace (Z.of_nat i + 1) with (Z.of_nat (S i)) by lia.
  replace (144000 * period_sum i + pktCalcBlockSubsidy (Z.of_nat i) * 144000) with (144000 * period_sum (S i)) by (cbn [period_sum]; lia).
  rewrite IH. f_equal. f_equal. lia.
Qed.

Lemma issued_spec n : let p := Z.of_nat n / pktBlocksPerPeriod in
  issued n = pktBlocksPerPeriod * period_sum (Z.to_nat p) + (Z.of_nat n mod pktBlocksPerPeriod) * pktCalcBlockSubsidy p.
Proof.
  induction n as [|n IH]; [done|]. cbv zeta in *. cbn [issued]. rewrite IH. unfold pktPeriodForBlock. rewrite Z.quot_div_nonneg by (unfold pktBlocksPerPeriod; lia).
  unfold pktBlocksPerPeriod in *. set (p := Z.of_nat n / 144000). set (r := Z.of_nat n mod 144000).
  assert (Z.of_nat n = 144000 * p + r /\ 0 <= r < 144000 /\ 0 <= p) as (En & Hr & Hp) by (unfold p, r; lia). clearbody p r. clear IH.
  destruct (decide (r = 143999)) as [->|Hne].
  - assert (Z.of_nat (S n) / 144000 = p + 1 /\ Z.of_nat (S n) mod 144000 = 0) as [-> ->] by lia.
    replace (Z.to_nat (p + 1)) with (S (Z.to_nat p)) by lia. cbn [period_sum]. rewrite Z2Nat.id by lia. lia.
  - assert (Z.of_nat (S n) / 144000 = p /\ Z.of_nat (S n) mod 144000 = r + 1) as [-> ->] by lia. lia.
Qed.

Lemma issued_bound n : 0 <= issued n <= MaxUnitsI64.
Proof.
  rewrite issued_spec. cbv zeta. unfold pktBlocksPerPeriod. set (p := Z.of_nat n / 144000). set (r := Z.of_nat n mod 144000).
  assert (0 <= r < 144000 /\ 0 <= p) as [Hr Hp] by (unfold p, r; lia). clearbody p r. destruct (subsidy_value p Hp) as [_ Hs].
  pose proof (period_sum_next (Z.to_nat p)) as Hn. rewrite Z2Nat.id in Hn by lia. pose proof (period_sum_limit (Z.to_nat p)) as Hl.
  change MaxUnitsI64 with (0x40000000 * 6000000000). unfold base_subsidy in *. set (s := pktCalcBlockSubsidy p) in *. set (t := period_sum (Z.to_nat p)) in *. clearbody s t. nia.
Qed.

(** C38: the total money of the PKT network at a height is the sum of the subsidies of
    all blocks below it; the computation in 64 bits never wraps, and the total never
    exceeds the largest amount that a transaction may carry. *)
Theorem total_money_issued (height : Z) :
  0 <= height < 2 ^ 31 ->
  PktCalcTotalMoney height = issued (Z.to_nat height) /\ 0 <= PktCalcTotalMoney height <= MaxUnitsI64.
Proof.
  intros Hh. pose proof (issued_spec (Z.to_nat height)) as Ei. cbv zeta in Ei. rewrite Z2Nat.id in Ei by lia.
  unfold PktCalcTotalMoney, pktPeriodForBlock. rewrite Z.quot_div_nonneg by (unfold pktBlocksPerPeriod; lia). cbv zeta.
  pose proof (total_loop_spec (Z.to_nat (height / pktBlocksPerPeriod)) 0) as Et. cbn [period_sum Nat.add] in Et.
  rewrite Z.mul_0_r in Et. change (Z.of_nat 0) with 0 in Et. rewrite Et, Ei. clear Et Ei.
  unfold pktBlocksPerPeriod in *. set (p := height / 144000). set (r := height mod 144000).
  assert (height = 144000 * p + r /\ 0 <= r < 144000 /\ 0 <= p < 15000) as (En & Hr & Hp) by (unfold p, r; lia). clearbody p r.
  rewrite (int32_small (p * 144000)), (int32_small (height - _)) by lia. replace (height - p * 144000) with r by lia.
  destruct (subsidy_value p ltac:(lia)) as [_ Hs]. pose proof (period_sum_next (Z.to_nat p)) as Hn. rewrite Z2Nat.id in Hn by lia.
  pose proof (period_sum_limit (Z.to_nat p)) as Hl. change MaxUnitsI64 with (0x40000000 * 6000000000). unfold base_subsidy in *.
  set (s := pktCalcBlockSubsidy p) in *. set (t := period_sum (Z.to_nat p)) in *. clearbody s t.
  assert (0 <= s * r <= s * 144000) by nia. rewrite (int64_small (s * r)), int64_small by lia. lia.
Qed.

(** [total_money_issued] after the first two periods. *)
Lemma total_money_issued_witness : 0 <= 300000 < 2 ^ 31 /\ 0 <= PktCalcTotalMoney 300000 <= MaxUnitsI64.
Proof. split; [lia|]. exact (proj2 (total_money_issued 300000 ltac:(lia))). Defined.
