(* ===== verification/Compress.v ===== *)
(** The compact encodings of the chain database (src/blockchain/compress.go):
    variable-length quantities, scripts of the standard forms, amounts and
    transaction outputs.  The writers fill a slice that the caller has allocated;
    the theorems give their equivalence with encoders that return the bytes, and
    the round trips. *)

From S2P Require Import Prelude Opcode Sha Wire Btcec BtcecProps Prime FieldOps PubKey.

(** * Writing into a slice *)

(** The writers get a slice and return the number of bytes they have written;
    they have no error, but a slice that is too short makes them panic. *)
Abbreviation Tgt := (St Empty_set bytes).

(** [target[i] = b]. *)
Definition store (i : Z) (b : byte) : Tgt () := fun target =>
  if (0 <=? i) && (i <? len target) then (Ret (), <[Z.to_nat i := b]> target) else (Panic, target).

(** [copy(target[lo:hi], src)]. *)
Definition copy_into (lo hi : Z) (src : bytes) : Tgt () := fun target =>
  if (0 <=? lo) && (lo <=? hi) && (hi <=? len target)
  then let src := take (Z.to_nat (hi - lo)) src in
       (Ret (), take (Z.to_nat lo) target ++ src ++ drop (Z.to_nat lo + length src) target)
  else (Panic, target).

(** A writer called on [target[off:]], which shares its bytes with [target]. *)
Definition on_tail {A} (off : Z) (m : Tgt A) : Tgt A := fun target =>
  if (0 <=? off) && (off <=? len target)
  then let '(r, t) := m (drop (Z.to_nat off) target) in (r, take (Z.to_nat off) target ++ t)
  else (Panic, target).

(** * Variable-length quantities *)

(** The three loops shift seven bits out of a 64-bit number in every round; ten
    rounds are enough. *)
Definition vlq_rounds : nat := 10.

Fixpoint serializeSizeVLQ_loop (fuel : nat) (n size : Z) : Z :=
  match fuel with
  | O => size
  | S fuel' => if 0x7f <? n then serializeSizeVLQ_loop fuel' (uint64 ((n >>> 7) - 1)) (size + 1) else size
  end.

Definition serializeSizeVLQ (n : Z) : Z := serializeSizeVLQ_loop vlq_rounds n 1.

Fixpoint putVLQ_loop (fuel : nat) (offset n : Z) : Tgt Z :=
  match fuel with
  | O => lift Panic
  | S fuel' =>
    let highBitMask := if offset =? 0 then 0x00 else 0x80 in
    store offset (to_byte ((n &&& 0x7f) ||| highBitMask));;
    if n <=? 0x7f then mret offset
    else putVLQ_loop fuel' (offset + 1) (uint64 ((n >>> 7) - 1))
  end.

(** [for i, j := 0, offset; i < j; i, j = i+1, j-1]: a swap per round. *)
Fixpoint reverse_loop (fuel : nat) (i j : Z) : Tgt () :=
  match fuel with
  | O => mret ()
  | S fuel' =>
    if i <? j then
      target ← gets id;
      ti ← lift (or_panic (index target i));
      tj ← lift (or_panic (index target j));
      store i tj;; store j ti;; reverse_loop fuel' (i + 1) (j - 1)
    else mret ()
  end.

Definition putVLQ (n : Z) : Tgt Z :=
  offset ← putVLQ_loop vlq_rounds 0 n;
  reverse_loop vlq_rounds 0 offset;;
  mret (offset + 1).

Fixpoint deserializeVLQ_loop (serialized : bytes) (n size : Z) : Z * Z :=
  match serialized with
  | [] => (n, size)
  | val :: serialized' =>
    let size := size + 1 in
    let n := uint64 (n <<< 7) ||| (u8 val &&& 0x7f) in
    if negb (u8 val &&& 0x80 =? 0x80) then (n, size)
    else deserializeVLQ_loop serialized' (uint64 (n + 1)) size
  end.

Definition deserializeVLQ (serialized : bytes) : Z * Z := deserializeVLQ_loop serialized 0 0.

(** * Scripts *)

Definition cstPayToPubKeyHash : Z := 0.
Definition cstPayToScriptHash : Z := 1.
Definition cstPayToPubKeyComp2 : Z := 2.
Definition cstPayToPubKeyComp3 : Z := 3.
Definition cstPayToPubKeyUncomp4 : Z := 4.
Definition cstPayToPubKeyUncomp5 : Z := 5.
Definition numSpecialScripts : Z := 6.

(** [script[i] == b], evaluated after a check of the length. *)
Definition byte_is (script : bytes) (i : Z) (b : byte) : bool :=
  match index script i with Some x => bool_decide (x = b) | None => false end.

(** The three recognisers return a flag and the data; here [None] is [false]. *)
Definition isPubKeyHash (script : bytes) : option bytes :=
  if (len script =? 25) && byte_is script 0 OP_DUP && byte_is script 1 OP_HASH160 &&
     byte_is script 2 OP_DATA_20 && byte_is script 23 OP_EQUALVERIFY && byte_is script 24 OP_CHECKSIG
  then slice script 3 23 else None.

Definition isScriptHash (script : bytes) : option bytes :=
  if (len script =? 23) && byte_is script 0 OP_HASH160 && byte_is script 1 OP_DATA_20 &&
     byte_is script 22 OP_EQUAL
  then slice script 2 22 else None.

Definition valid_key (serializedPubKey : option bytes) : option bytes :=
  key ← serializedPubKey; if succeeds (ParsePubKey key) then Some key else None.

Definition isPubKey (script : bytes) : option bytes :=
  let compressed :=
    if (len script =? 35) && byte_is script 0 OP_DATA_33 && byte_is script 34 OP_CHECKSIG &&
       (byte_is script 1 Byte.x02 || byte_is script 1 Byte.x03)
    then valid_key (slice script 1 34) else None in
  match compressed with
  | Some key => Some key
  | None =>
    if (len script =? 67) && byte_is script 0 OP_DATA_65 && byte_is script 66 OP_CHECKSIG &&
       byte_is script 1 Byte.x04
    then valid_key (slice script 1 66) else None
  end.

Definition compressedScriptSize (pkScript : bytes) : Z :=
  if isPubKeyHash pkScript is Some _ then 21
  else if isScriptHash pkScript is Some _ then 21
  else if isPubKey pkScript is Some _ then 33
  else serializeSizeVLQ (uint64 (len pkScript + numSpecialScripts)) + len pkScript.

Definition decodeCompressedScriptSize (serialized : bytes) : Z :=
  let '(scriptSize, bytesRead) := deserializeVLQ serialized in
  if bytesRead =? 0 then 0
  else if scriptSize =? cstPayToPubKeyHash then 21
  else if scriptSize =? cstPayToScriptHash then 21
  else if (scriptSize =? cstPayToPubKeyComp2) || (scriptSize =? cstPayToPubKeyComp3) ||
          (scriptSize =? cstPayToPubKeyUncomp4) || (scriptSize =? cstPayToPubKeyUncomp5) then 33
  else int64 (uint64 (uint64 (scriptSize - numSpecialScripts) + bytesRead)).

(** The general form: the length, shifted past the special cases, and the script. *)
Definition put_general (pkScript : bytes) : Tgt Z :=
  let encodedSize := uint64 (len pkScript + numSpecialScripts) in
  vlqSizeLen ← putVLQ encodedSize;
  target ← gets id;
  copy_into vlqSizeLen (len target) pkScript;;
  mret (vlqSizeLen + len pkScript).

Definition putCompressedScript (pkScript : bytes) : Tgt Z :=
  match isPubKeyHash pkScript with
  | Some hash => store 0 (to_byte cstPayToPubKeyHash);; copy_into 1 21 hash;; mret 21
  | None =>
  match isScriptHash pkScript with
  | Some hash => store 0 (to_byte cstPayToScriptHash);; copy_into 1 21 hash;; mret 21
  | None =>
  match isPubKey pkScript with
  | Some serializedPubKey =>
    pubKeyFormat ← lift (or_panic (index serializedPubKey 0));
    if (u8 pubKeyFormat =? 0x02) || (u8 pubKeyFormat =? 0x03) then
      store 0 pubKeyFormat;;
      x ← lift (or_panic (slice serializedPubKey 1 33));
      copy_into 1 33 x;; mret 33
    else if u8 pubKeyFormat =? 0x04 then
      y0 ← lift (or_panic (index serializedPubKey 64));
      store 0 (to_byte (u8 pubKeyFormat ||| (u8 y0 &&& 0x01)));;
      x ← lift (or_panic (slice serializedPubKey 1 33));
      copy_into 1 33 x;; mret 33
    else put_general pkScript
  | None => put_general pkScript
  end end end.

(** A script that starts as [make([]byte, n)] and is then filled. *)
Definition make (n : Z) : option bytes := if n <? 0 then None else Some (repeat Byte.x00 (Z.to_nat n)).

Definition decompressScript (compressedPkScript : bytes) : outcome Empty_set bytes :=
  if len compressedPkScript =? 0 then mret [] else
  let '(encodedScriptSize, bytesRead) := deserializeVLQ compressedPkScript in
  if encodedScriptSize =? cstPayToPubKeyHash then
    hash ← or_panic (slice compressedPkScript bytesRead (bytesRead + 20));
    mret ([OP_DUP; OP_HASH160; OP_DATA_20] ++ hash ++ [OP_EQUALVERIFY; OP_CHECKSIG])
  else if encodedScriptSize =? cstPayToScriptHash then
    hash ← or_panic (slice compressedPkScript bytesRead (bytesRead + 20));
    mret ([OP_HASH160; OP_DATA_20] ++ hash ++ [OP_EQUAL])
  else if (encodedScriptSize =? cstPayToPubKeyComp2) || (encodedScriptSize =? cstPayToPubKeyComp3) then
    x ← or_panic (slice compressedPkScript bytesRead (bytesRead + 32));
    mret ([OP_DATA_33; to_byte encodedScriptSize] ++ x ++ [OP_CHECKSIG])
  else if (encodedScriptSize =? cstPayToPubKeyUncomp4) || (encodedScriptSize =? cstPayToPubKeyUncomp5) then
    tl ← or_panic (slice_from compressedPkScript 1);
    let x := take 32 (tl ++ repeat Byte.x00 32) in
    let compressedKey := to_byte (encodedScriptSize - 2) :: x in
    match ParsePubKey compressedKey with
    | Ret key => mret ([OP_DATA_65] ++ SerializeUncompressed key ++ [OP_CHECKSIG])
    | Throw _ => mret []
    | Panic => Panic
    end
  else
    let scriptSize := int64 (uint64 (encodedScriptSize - numSpecialScripts)) in
    _ ← or_panic (make scriptSize);
    or_panic (slice compressedPkScript bytesRead (int64 (bytesRead + scriptSize))).

(** * Amounts *)

(** The largest power of ten, at most nine, that divides the amount. *)
Fixpoint strip_zeros (fuel : nat) (amount exponent : Z) : Z * Z :=
  match fuel with
  | O => (amount, exponent)
  | S fuel' =>
    if (amount mod 10 =? 0) && (exponent <? 9) then strip_zeros fuel' (amount / 10) (exponent + 1)
    else (amount, exponent)
  end.

Definition compressTxOutAmount (amount : Z) : Z :=
  if amount =? 0 then 0 else
  let '(amount, exponent) := strip_zeros 9 amount 0 in
  if exponent <? 9 then
    let lastDigit := amount mod 10 in
    let amount := amount / 10 in
    uint64 (1 + 10 * (9 * amount + lastDigit - 1) + exponent)
  else uint64 (10 + 10 * (amount - 1)).

Fixpoint apply_exponent (exponent : nat) (n : Z) : Z :=
  match exponent with O => n | S e => apply_exponent e (uint64 (n * 10)) end.

Definition decompressTxOutAmount (amount : Z) : Z :=
  if amount =? 0 then 0 else
  let amount := uint64 (amount - 1) in
  let exponent := amount mod 10 in
  let amount := amount / 10 in
  let n :=
    if exponent <? 9 then
      let lastDigit := amount mod 9 + 1 in
      let amount := amount / 9 in
      uint64 (amount * 10 + lastDigit)
    else uint64 (amount + 1) in
  apply_exponent (Z.to_nat exponent) n.

(** * Transaction outputs *)

Definition compressedTxOutSize (amount : Z) (pkScript : bytes) : Z :=
  serializeSizeVLQ (compressTxOutAmount amount) + compressedScriptSize pkScript.

Definition putCompressedTxOut (amount : Z) (pkScript : bytes) : Tgt Z :=
  offset ← putVLQ (compressTxOutAmount amount);
  n ← on_tail offset (putCompressedScript pkScript);
  mret (offset + n).

(** The errors of the database readers. *)
Inductive chainioerr : Type :=
| ErrDeserialize
| ErrAssert
| ErrCorruption.

#[global] Instance chainioerr_eq_dec : EqDecision chainioerr.
Proof. solve_decision. Defined.

(** A call that has no error of its own. *)
Definition no_error {E A} (m : outcome Empty_set A) : outcome E A :=
  match m with Ret a => Ret a | Throw e => match e with end | Panic => Panic end.

(** The amount, the script and the number of bytes read. *)
Definition decodeCompressedTxOut (serialized : bytes) : outcome chainioerr (Z * bytes * Z) :=
  let '(compressedAmount, bytesRead) := deserializeVLQ serialized in
  if len serialized <=? bytesRead then mthrow ErrDeserialize else
  rest ← or_panic (slice_from serialized bytesRead);
  let scriptSize := decodeCompressedScriptSize rest in
  if len rest <? scriptSize then mthrow ErrDeserialize else
  let amount := decompressTxOutAmount compressedAmount in
  sc ← or_panic (slice serialized bytesRead (bytesRead + scriptSize));
  script ← no_error (decompressScript sc);
  mret (amount, script, bytesRead + scriptSize).

(** * The encoding of a quantity *)

(** The bytes of a quantity: seven bits in the last one, with the high bit clear,
    and one less than the rest in the ones before. *)
Fixpoint vlq_hi (fuel : nat) (n : Z) : bytes :=
  match fuel with
  | O => []
  | S fuel' => (if n <=? 0x7f then [] else vlq_hi fuel' ((n >>> 7) - 1)) ++ [to_byte ((n &&& 0x7f) ||| 0x80)]
  end.

Definition vlq (n : Z) : bytes := (if n <=? 0x7f then [] else vlq_hi 9 ((n >>> 7) - 1)) ++ [to_byte (n &&& 0x7f)].

(** [m] writes [b] at the start of any slice that has room for it. *)
Definition writes (m : Tgt Z) (b : bytes) : Prop :=
  forall target, len b <= len target -> m target = (Ret (len b), b ++ drop (length b) target).

Lemma shifted n : 0x7f < n < 2 ^ 64 -> uint64 ((n >>> 7) - 1) = (n >>> 7) - 1 /\ (n >>> 7) - 1 = n / 128 - 1.
Proof. intros Hn. rewrite Z.shiftr_div_pow2 by lia. change (2 ^ 7) with 128. split; [|done]. apply uwrap_small. lia. Qed.

Lemma shifted_bound n f : 0x7f < n < 2 ^ (7 * Z.of_nat (S f)) -> 0 <= n / 128 - 1 < 2 ^ (7 * Z.of_nat f).
Proof.
  intros Hn. replace (7 * Z.of_nat (S f)) with (7 + 7 * Z.of_nat f) in Hn by lia. rewrite Z.pow_add_r in Hn by lia.
  change (2 ^ 7) with 128 in Hn. split; [lia|]. assert (n / 128 < 2 ^ (7 * Z.of_nat f)); [|lia].
  apply Z.div_lt_upper_bound; lia.
Qed.

Lemma store_spec a x b y : store (len a) y (a ++ x :: b) = (Ret (), a ++ y :: b).
Proof.
  unfold store. rewrite len_app, len_cons. pose proof (len_nonneg a). pose proof (len_nonneg b).
  rewrite (proj2 (Z.leb_le _ _)), (proj2 (Z.ltb_lt _ _)) by lia. cbn [andb]. do 2 f_equal. unfold len. rewrite Nat2Z.id.
  rewrite insert_app_r_alt by lia. by rewrite Nat.sub_diag.
Qed.

Lemma serializeSizeVLQ_loop_spec fuel n size :
  0 <= n < 2 ^ (7 * Z.of_nat (S fuel)) -> n < 2 ^ 64 ->
  serializeSizeVLQ_loop (S fuel) n size = size - 1 + len (vlq_hi (S fuel) n).
Proof.
  revert n size. induction fuel as [|fuel IH]; intros n size Hn H64; cbn [serializeSizeVLQ_loop vlq_hi]; rewrite Z.ltb_antisym.
  - rewrite (proj2 (Z.leb_le n 0x7f)) by (change (2 ^ (7 * Z.of_nat 1)) with 128 in Hn; lia). cbn [negb]. len_lia.
  - destruct (Z.leb_spec n 0x7f); cbn [negb]; [len_lia|].
    destruct (shifted n) as [-> E]; [lia|]. rewrite E. change (_ <=? 0x7f) with (n / 128 - 1 <=? 0x7f).
    pose proof (IH (n / 128 - 1) (size + 1)) as IH'. cbn [serializeSizeVLQ_loop vlq_hi] in IH'. rewrite IH'; [len_lia|apply shifted_bound; lia|].
    assert (n / 128 <= n) by (apply Z.div_le_upper_bound; lia). lia.
Qed.

Lemma len_vlq n : len (vlq n) = len (vlq_hi 10 n).
Proof. unfold vlq. cbn [vlq_hi]. len_lia. Qed.

Lemma serializeSizeVLQ_spec n : 0 <= n < 2 ^ 64 -> serializeSizeVLQ n = len (vlq n).
Proof.
  intros Hn. unfold serializeSizeVLQ, vlq_rounds. rewrite (serializeSizeVLQ_loop_spec 9), len_vlq; [lia| |lia].
  change (2 ^ (7 * Z.of_nat 10)) with (2 ^ 70). lia.
Qed.

Lemma vlq_length n : 1 <= len (vlq n) <= 10.
Proof.
  rewrite len_vlq. assert (forall f m, 1 <= len (vlq_hi (S f) m) <= Z.of_nat (S f)) as H; [|apply (H 9%nat)].
  induction f as [|f IH]; intros m; cbn [vlq_hi]; destruct (m <=? 0x7f); [len_lia..|].
  specialize (IH ((m >>> 7) - 1)). cbn [vlq_hi] in IH. len_lia.
Qed.

(** ** Writing *)

Lemma vlq_hi_S fuel n :
  vlq_hi (S fuel) n = (if n <=? 0x7f then [] else vlq_hi fuel ((n >>> 7) - 1)) ++ [to_byte ((n &&& 0x7f) ||| 0x80)].
Proof. done. Qed.

Lemma putVLQ_loop_S fuel a x b n :
  putVLQ_loop (S fuel) (len a) n (a ++ x :: b) =
    (let a := a ++ [to_byte ((n &&& 0x7f) ||| (if len a =? 0 then 0x00 else 0x80))] in
     if n <=? 0x7f then (Ret (len a - 1), a ++ b)
     else putVLQ_loop fuel (len a) (uint64 ((n >>> 7) - 1)) (a ++ b)).
Proof.
  cbn [putVLQ_loop]. rewrite (bind_Ret _ _ _ _ _ (store_spec a x b _)). cbv zeta. rewrite <- app_assoc. cbn [app].
  rewrite len_app. change (len [_]) with 1. destruct (n <=? 0x7f); [|done]. cbv [mret St_ret]. do 2 f_equal. lia.
Qed.

Lemma putVLQ_loop_spec fuel n a b :
  0 <= n < 2 ^ (7 * Z.of_nat fuel) -> n < 2 ^ 64 -> a <> [] -> fuel <> O -> len (vlq_hi fuel n) <= len b ->
  putVLQ_loop fuel (len a) n (a ++ b) =
    (Ret (len a + len (vlq_hi fuel n) - 1), a ++ rev (vlq_hi fuel n) ++ drop (length (vlq_hi fuel n)) b).
Proof.
  revert n a b. induction fuel as [|fuel IH]; intros n a b Hn H64 Ha Hf Hb; [done|]. clear Hf.
  assert (0 < len a) as Hla by (destruct a; [done|len_lia]). rewrite vlq_hi_S in *.
  destruct b as [|x b]; [exfalso; destruct (n <=? 0x7f); len_lia|]. rewrite putVLQ_loop_S. cbv zeta.
  rewrite (proj2 (Z.eqb_neq (len a) 0)) by lia. destruct (Z.leb_spec n 0x7f) as [Hs|Hs].
  { rewrite <- !app_assoc. cbn. f_equal. f_equal. len_lia. }
  destruct (shifted n) as [-> E]; [lia|]. rewrite E in *. set (m := n / 128 - 1) in *. pose proof (shifted_bound n fuel ltac:(lia)) as Hm.
  rewrite IH; [|lia| |by destruct a| |len_lia].
  2: { assert (n / 128 <= n) by (apply Z.div_le_upper_bound; lia). lia. }
  2: { intros ->. change (2 ^ (7 * Z.of_nat 0)) with 1 in Hm. change (2 ^ (7 * Z.of_nat 1)) with 128 in Hn. lia. }
  f_equal; [f_equal; len_lia|]. rewrite rev_app_distr, <- !app_assoc. cbn [rev app]. do 3 f_equal.
  rewrite (length_app _ [_]). cbn [length]. by rewrite Nat.add_1_r.
Qed.

(** Swapping from both ends reverses. *)
Lemma reverse_loop_spec fuel a m b i j :
  i = len a -> j = len a + len m - 1 -> (length m <= 2 * fuel + 1)%nat ->
  reverse_loop fuel i j (a ++ m ++ b) = (Ret (), a ++ rev m ++ b).
Proof.
  revert a m b i j. induction fuel as [|fuel IH]; intros a m b i j -> -> Hl.
  { destruct m as [|x [|y m]]; [done|done|cbn in Hl; lia]. }
  cbn [reverse_loop]. destruct (Z.ltb_spec (len a) (len a + len m - 1)) as [Hlt|Hge].
  - destruct m as [|x m]; [len_lia|]. destruct (snoc_inv m) as (m' & y & ->); [intros ->; len_lia|].
    rewrite bind_gets. unfold id. cbn [app].
    assert (index (a ++ x :: (m' ++ [y]) ++ b) (len a) = Some x) as E1 by (rewrite index_app_r by lia; by rewrite Z.sub_diag).
    assert (index (a ++ x :: (m' ++ [y]) ++ b) (len a + len (x :: m' ++ [y]) - 1) = Some y) as E2.
    { rewrite index_app_r by len_lia. replace (x :: (m' ++ [y]) ++ b) with ((x :: m') ++ y :: b) by (cbn; by rewrite <- app_assoc).
      replace (len a + len (x :: m' ++ [y]) - 1 - len a) with (len (x :: m')) by len_lia.
      rewrite index_app_r by lia. by rewrite Z.sub_diag. }
    rewrite E1, E2. cbn [or_panic]. rewrite !bind_lift_Ret.
    rewrite (bind_Ret _ _ _ _ _ (store_spec a x _ y)).
    assert (store (len a + len (x :: m' ++ [y]) - 1) x (a ++ y :: (m' ++ [y]) ++ b) = (Ret (), a ++ y :: m' ++ x :: b)) as Es.
    { pose proof (store_spec (a ++ y :: m') y b x) as Es. rewrite <- !app_assoc in *. cbn [app] in *.
      replace (len a + len (x :: m' ++ [y]) - 1) with (len (a ++ y :: m')) by len_lia. exact Es. }
    rewrite (bind_Ret _ _ _ _ _ Es).
    replace (a ++ y :: m' ++ x :: b) with ((a ++ [y]) ++ m' ++ (x :: b)) by (by rewrite <- app_assoc).
    rewrite IH; [|len_lia..|cbn in Hl; rewrite length_app in Hl; cbn in Hl; lia].
    rewrite <- app_assoc. cbn [rev]. rewrite rev_app_distr. cbn [rev app]. by rewrite <- app_assoc.
  - destruct m as [|x [|y m]]; [done|done|exfalso; len_lia].
Qed.

Lemma putVLQ_writes n : 0 <= n < 2 ^ 64 -> writes (putVLQ n) (vlq n).
Proof.
  intros Hn target Ht. pose proof (vlq_length n) as Hvl. unfold putVLQ.
  assert (putVLQ_loop vlq_rounds 0 n target = (Ret (len (vlq n) - 1), rev (vlq n) ++ drop (length (vlq n)) target)) as E.
  { destruct target as [|x target]; [len_lia|]. unfold vlq_rounds.
    change 0 with (len (@nil byte)) at 1. change (x :: target) with ([] ++ x :: target) at 1. rewrite putVLQ_loop_S. cbv zeta.
    change (len (@nil byte) =? 0) with true. cbv iota. rewrite Z.lor_0_r. unfold vlq in *.
    destruct (Z.leb_spec n 0x7f) as [Hs|Hs]; [done|]. destruct (shifted n) as [-> E]; [lia|]. rewrite E in *.
    rewrite (putVLQ_loop_spec 9); [|change (2 ^ (7 * Z.of_nat 9)) with (2 ^ 63); lia|lia|done|done|len_lia].
    f_equal; [f_equal; len_lia|]. rewrite rev_app_distr, (length_app _ [_]). cbn [length rev app]. by rewrite Nat.add_1_r. }
  rewrite (bind_Ret _ _ _ _ _ E).
  assert (reverse_loop vlq_rounds 0 (len (vlq n) - 1) (rev (vlq n) ++ drop (length (vlq n)) target) =
    (Ret (), vlq n ++ drop (length (vlq n)) target)) as Er.
  { pose proof (reverse_loop_spec vlq_rounds [] (rev (vlq n)) (drop (length (vlq n)) target) 0 (len (vlq n) - 1)) as H.
    cbn [app] in H. rewrite rev_involutive in H. apply H; [done| |].
    - unfold len. rewrite length_rev. change (length (@nil byte)) with O. lia.
    - rewrite length_rev. unfold vlq_rounds, len in *. lia. }
  rewrite (bind_Ret _ _ _ _ _ Er). cbv [mret St_ret]. do 2 f_equal. lia.
Qed.

(** ** Reading *)

Lemma land_127_byte low : 0 <= low < 128 -> u8 (to_byte low) &&& 0x7f = low /\ u8 (to_byte low) &&& 0x80 = 0 /\
  u8 (to_byte (low ||| 0x80)) &&& 0x7f = low /\ u8 (to_byte (low ||| 0x80)) &&& 0x80 = 0x80.
Proof.
  intros Hl. rewrite lor_128_byte by done. rewrite !u8_to_byte by lia. rewrite !land_127, !land_128_byte by lia.
  rewrite (proj2 (Z.ltb_lt low 128)), (proj2 (Z.ltb_ge (low + 128) 128)) by lia. split_and!; lia.
Qed.

Lemma vlq_accumulate a low : 0 <= a -> 0 <= low < 128 -> a * 128 + low < 2 ^ 64 -> uint64 (a <<< 7) ||| low = a * 128 + low.
Proof.
  intros Ha Hl H. rewrite Z.shiftl_mul_pow2 by lia. change (2 ^ 7) with 128. rewrite uwrap_small by lia.
  rewrite Z.lor_comm. change 128 with (2 ^ 7). rewrite lor_add_pow2 by lia. lia.
Qed.

Lemma vlq_read_last low rest a size :
  0 <= a -> 0 <= low < 128 -> a * 128 + low < 2 ^ 64 ->
  deserializeVLQ_loop (to_byte low :: rest) a size = (a * 128 + low, size + 1).
Proof.
  intros Ha Hl H. cbn [deserializeVLQ_loop]. destruct (land_127_byte low Hl) as (-> & -> & _). by rewrite vlq_accumulate.
Qed.

Lemma vlq_read_more low rest a size :
  0 <= a -> 0 <= low < 128 -> a * 128 + low + 1 < 2 ^ 64 ->
  deserializeVLQ_loop (to_byte (low ||| 0x80) :: rest) a size = deserializeVLQ_loop rest (a * 128 + low + 1) (size + 1).
Proof.
  intros Ha Hl H. cbn [deserializeVLQ_loop]. destruct (land_127_byte low Hl) as (_ & _ & -> & ->).
  rewrite vlq_accumulate by lia. change (0x80 =? 0x80) with true. cbn [negb]. by rewrite uwrap_small by lia.
Qed.

Lemma vlq_read_hi fuel m rest size :
  0 <= m < 2 ^ (7 * Z.of_nat fuel) -> m + 1 < 2 ^ 64 -> fuel <> O ->
  deserializeVLQ_loop (vlq_hi fuel m ++ rest) 0 size = deserializeVLQ_loop rest (m + 1) (size + len (vlq_hi fuel m)).
Proof.
  revert m rest size. induction fuel as [|fuel IH]; intros m rest size Hm H64 Hf; [done|]. rewrite vlq_hi_S, land_127.
  pose proof (Z.mod_pos_bound m 128 ltac:(lia)) as Hlow. pose proof (Z.div_mod m 128 ltac:(lia)) as Hdm.
  destruct (Z.leb_spec m 0x7f) as [Hs|Hs].
  - cbn [app]. rewrite vlq_read_more by lia. rewrite Z.mod_small by lia. f_equal.
  - rewrite (proj2 (shifted m ltac:(lia))). pose proof (shifted_bound m fuel ltac:(lia)) as Hb.
    rewrite <- app_assoc, IH; [|lia|lia|intros ->; change (2 ^ (7 * Z.of_nat 0)) with 1 in Hb; change (2 ^ (7 * Z.of_nat 1)) with 128 in Hm; lia].
    cbn [app]. rewrite vlq_read_more by lia. f_equal; [lia|len_lia].
Qed.

Lemma deserializeVLQ_vlq n rest : 0 <= n < 2 ^ 64 -> deserializeVLQ (vlq n ++ rest) = (n, len (vlq n)).
Proof.
  intros Hn. unfold deserializeVLQ, vlq. rewrite land_127.
  pose proof (Z.mod_pos_bound n 128 ltac:(lia)) as Hlow. pose proof (Z.div_mod n 128 ltac:(lia)) as Hdm.
  destruct (Z.leb_spec n 0x7f) as [Hs|Hs].
  - cbn [app]. rewrite vlq_read_last by lia. rewrite Z.mod_small by lia. done.
  - rewrite (proj2 (shifted n ltac:(lia))). rewrite <- app_assoc, vlq_read_hi; [|change (2 ^ (7 * Z.of_nat 9)) with (2 ^ 63); lia|lia|done].
    cbn [app]. rewrite vlq_read_last by lia. f_equal; [lia|len_lia].
Qed.

(** ** Uniqueness *)

Lemma vlq_hi_fuel f g n : 0 <= n < 2 ^ (7 * Z.of_nat f) -> f <> O -> (f <= g)%nat -> vlq_hi g n = vlq_hi f n.
Proof.
  revert g n. induction f as [|f IH]; intros g n Hn Hf Hg; [done|]. destruct g as [|g]; [lia|]. rewrite !vlq_hi_S.
  destruct (Z.leb_spec n 0x7f) as [Hs|Hs]; [done|]. f_equal. rewrite Z.shiftr_div_pow2 by lia. change (2 ^ 7) with 128.
  pose proof (shifted_bound n f ltac:(lia)) as Hb. apply IH; [lia| |lia].
  intros ->. change (2 ^ (7 * Z.of_nat 0)) with 1 in Hb. change (2 ^ (7 * Z.of_nat 1)) with 128 in Hn. lia.
Qed.

Lemma high_byte b : 128 <= u8 b -> exists low, 0 <= low < 128 /\ b = to_byte (low ||| 0x80).
Proof.
  intros Hb. pose proof (u8_range b). exists (u8 b - 128). split; [lia|]. rewrite lor_128_byte by lia.
  apply u8_inj. rewrite u8_to_byte by lia. lia.
Qed.

Lemma unshift m low : 0 <= low < 128 -> (((m + 1) * 128 + low) >>> 7) - 1 = m /\ ((m + 1) * 128 + low) &&& 0x7f = low.
Proof. intros Hl. rewrite land_127, Z.shiftr_div_pow2 by lia. change (2 ^ 7) with 128. lia. Qed.

Lemma vlq_hi_complete hs : Forall (fun b => 128 <= u8 b) hs -> (length hs <= 8)%nat -> hs <> [] ->
  exists m, 0 <= m /\ 127 * (m + 1) <= 128 * (2 ^ (7 * Z.of_nat (length hs)) - 1) /\ hs = vlq_hi 9 m.
Proof.
  induction hs as [|b hs IH] using rev_ind; [done|]. intros Hh Hl _. rewrite length_app in Hl. cbn [length] in Hl.
  apply Forall_app in Hh as [Hh Hb]. inversion Hb as [|? ? Hb' _]; subst. destruct (high_byte b Hb') as (low & Hlow & ->).
  rewrite length_app. cbn [length].
  replace (7 * Z.of_nat (length hs + 1)) with (7 + 7 * Z.of_nat (length hs)) by lia. rewrite Z.pow_add_r by lia. change (2 ^ 7) with 128.
  destruct hs as [|h0 hs0].
  - exists low. split; [lia|]. split; [change (2 ^ (7 * Z.of_nat (length (@nil byte)))) with 1; lia|]. rewrite vlq_hi_S, (proj2 (Z.leb_le low 0x7f)) by lia.
    rewrite land_127, Z.mod_small by lia. done.
  - destruct IH as (m & Hm0 & Hm & E); [done|lia|done|]. set (k := length (h0 :: hs0)) in *.
    assert (2 ^ (7 * Z.of_nat k) <= 2 ^ 49) by (apply Z.pow_le_mono_r; lia).
    exists ((m + 1) * 128 + low). split; [lia|]. split; [lia|]. rewrite E, (vlq_hi_S 8 ((m + 1) * 128 + low)), (proj2 (Z.leb_gt ((m + 1) * 128 + low) 0x7f)) by lia.
    destruct (unshift m low Hlow) as [-> ->].
    rewrite (vlq_hi_fuel 8 9 m); [reflexivity|change (2 ^ (7 * Z.of_nat 8)) with (2 ^ 56); lia|done|lia].
Qed.

Lemma vlq_complete hs b : Forall (fun b => 128 <= u8 b) hs -> (length hs <= 8)%nat -> u8 b < 128 ->
  exists n, 0 <= n < 2 ^ 64 /\ hs ++ [b] = vlq n.
Proof.
  intros Hh Hl Hb. pose proof (u8_range b). unfold vlq. destruct (decide (hs = [])) as [->|Hne].
  - exists (u8 b). split; [lia|]. rewrite (proj2 (Z.leb_le _ _)) by lia. rewrite land_127, Z.mod_small by lia.
    cbn [app]. f_equal. apply u8_inj. by rewrite u8_to_byte by lia.
  - destruct (vlq_hi_complete hs Hh Hl Hne) as (m & Hm0 & Hm & ->). clear Hne Hh.
    assert (2 ^ (7 * Z.of_nat (length (vlq_hi 9 m))) <= 2 ^ 56) by (apply Z.pow_le_mono_r; lia).
    exists ((m + 1) * 128 + u8 b). split; [lia|].
    rewrite (proj2 (Z.leb_gt ((m + 1) * 128 + u8 b) 0x7f)) by lia.
    destruct (unshift m (u8 b) ltac:(lia)) as [-> ->]. by rewrite byte.of_Z_unsigned.
Qed.
