(* ===== verification/CompressProps.v ===== *)
(** Correctness of the compressed scripts, amounts and outputs of Compress.v: the
    writers fill exactly the bytes of the size functions, and the readers give back
    the script, the amount and the number of bytes. *)

From S2P Require Import Prelude Opcode Sha Wire Btcec BtcecProps Prime FieldOps PubKey Compress.

(** * Scripts of the standard forms *)

Lemma byte_is_true s i b : byte_is s i b = true -> index s i = Some b.
Proof. unfold byte_is. destruct (index s i) as [x|]; [|done]. by intros ->%bool_decide_eq_true. Qed.

(** A list with known first and last bytes, split around the middle. *)
Lemma split_middle (s : bytes) (n k : nat) : (n + k <= length s)%nat ->
  s = take n s ++ take k (drop n s) ++ drop (n + k) s.
Proof. intros _. by rewrite <- drop_drop, take_drop, take_drop. Qed.

Lemma take_index (s : bytes) (n : nat) b : index s (Z.of_nat n) = Some b -> take (S n) s = take n s ++ [b].
Proof. unfold index. rewrite (proj2 (Z.leb_le _ _)) by lia. rewrite Nat2Z.id. by apply take_S_r. Qed.

Lemma drop_index (s : bytes) (n : nat) b : index s (Z.of_nat n) = Some b -> drop n s = b :: drop (S n) s.
Proof. unfold index. rewrite (proj2 (Z.leb_le _ _)) by lia. rewrite Nat2Z.id. intros H. by apply drop_S. Qed.

Lemma slice_Some {A} (s : list A) lo hi l :
  slice s lo hi = Some l -> l = take (Z.to_nat (hi - lo)) (drop (Z.to_nat lo) s) /\ len l = hi - lo /\ 0 <= lo <= hi /\ hi <= len s.
Proof.
  unfold slice. destruct (Z.leb_spec 0 lo), (Z.leb_spec lo hi), (Z.leb_spec hi (len s)); cbn [andb]; try done.
  intros [= <-]. split; [done|]. split; [|lia]. unfold len in *. rewrite length_take, length_drop. lia.
Qed.

Ltac script_bytes :=
  repeat match goal with
  | H : (_ && _) = true |- _ => apply andb_true_iff in H as [H ?]
  | H : byte_is _ _ _ = true |- _ => apply byte_is_true in H
  | H : (len _ =? _) = true |- _ => apply Z.eqb_eq in H
  end.

Lemma isPubKeyHash_shape s h : isPubKeyHash s = Some h ->
  s = [OP_DUP; OP_HASH160; OP_DATA_20] ++ h ++ [OP_EQUALVERIFY; OP_CHECKSIG] /\ len h = 20.
Proof.
  unfold isPubKeyHash. destruct (_ && _) eqn:E; [|done]. intros Hs. script_bytes. apply slice_Some in Hs as (-> & Hl & _).
  split; [|done]. change (Z.to_nat 3) with 3%nat. change (Z.to_nat (23 - 3)) with 20%nat.
  rewrite (split_middle s 3 20) at 1 by (unfold len in *; lia). f_equal; [|f_equal].
  - rewrite (take_index s 2 OP_DATA_20), (take_index s 1 OP_HASH160), (take_index s 0 OP_DUP) by done. done.
  - rewrite (drop_index s (3 + 20) OP_EQUALVERIFY) by done. change (S (3 + 20)) with 24%nat. rewrite (drop_index s 24 OP_CHECKSIG) by done.
    rewrite drop_ge by (unfold len in *; lia). done.
Qed.

Lemma isScriptHash_shape s h : isScriptHash s = Some h -> s = [OP_HASH160; OP_DATA_20] ++ h ++ [OP_EQUAL] /\ len h = 20.
Proof.
  unfold isScriptHash. destruct (_ && _) eqn:E; [|done]. intros Hs. script_bytes. apply slice_Some in Hs as (-> & Hl & _).
  split; [|done]. change (Z.to_nat 2) with 2%nat. change (Z.to_nat (22 - 2)) with 20%nat.
  rewrite (split_middle s 2 20) at 1 by (unfold len in *; lia). f_equal; [|f_equal].
  - rewrite (take_index s 1 OP_DATA_20), (take_index s 0 OP_HASH160) by done. done.
  - rewrite (drop_index s (2 + 20) OP_EQUAL) by done. rewrite drop_ge by (unfold len in *; lia). done.
Qed.

Lemma pay_to_key_shape s n b key : len s = n + 2 -> 0 <= n -> index s 0 = Some b -> index s (n + 1) = Some OP_CHECKSIG ->
  valid_key (slice s 1 (n + 1)) = Some key -> s = b :: key ++ [OP_CHECKSIG] /\ len key = n /\ succeeds (ParsePubKey key) = true.
Proof.
  intros Ls Hn H0 H1 Hk. unfold valid_key in Hk. destruct (slice s 1 (n + 1)) as [k|] eqn:Es; [|done]. cbn in Hk.
  destruct (succeeds (ParsePubKey k)) eqn:Ek; [|done]. injection Hk as ->. apply slice_Some in Es as (E & Hl & _).
  split; [|split; [lia|done]]. rewrite (split_middle s 1 (Z.to_nat n)) at 1 by (unfold len in *; lia).
  rewrite (take_index s 0 b) by done. cbn [take app]. f_equal. rewrite E. replace (n + 1 - 1) with n by lia. f_equal.
  rewrite (drop_index s (1 + Z.to_nat n) OP_CHECKSIG) by (rewrite <- H1; f_equal; lia).
  rewrite drop_ge by (unfold len in *; lia). done.
Qed.

(** The two key forms: a compressed key, or the uncompressed key of a point. *)
Lemma isPubKey_shape s key : isPubKey s = Some key ->
  (exists b0 xb, s = OP_DATA_33 :: key ++ [OP_CHECKSIG] /\ key = b0 :: xb /\ len xb = 32 /\ (u8 b0 = 2 \/ u8 b0 = 3)) \/
  (exists p, s = OP_DATA_65 :: key ++ [OP_CHECKSIG] /\ on_curve p /\ key = SerializeUncompressed p).
Proof.
  unfold isPubKey. destruct (if _ && _ then valid_key (slice s 1 34) else None) as [k|] eqn:Ec.
  - intros [= ->]. left. destruct (_ && _) eqn:E in Ec; [|done]. apply andb_true_iff in E as [E Eb]. script_bytes.
    destruct (pay_to_key_shape s 33 OP_DATA_33 key) as (-> & Lk & _); [lia|lia|done|done|done|].
    destruct key as [|b0 xb]; [len_lia|]. exists b0, xb. split; [done|]. split; [done|]. split; [len_lia|].
    apply orb_true_iff in Eb as [Eb|Eb]; apply byte_is_true in Eb; injection Eb as ->; [by left|by right].
  - clear Ec. destruct (_ && _) eqn:E; [|done]. intros Hk. script_bytes. right.
    destruct (pay_to_key_shape s 65 OP_DATA_65 key) as (-> & Lk & Hp); [lia|lia|done|done|done|].
    destruct key as [|b0 k]; [len_lia|]. match goal with H : index _ 1 = Some _ |- _ => injection H as -> end.
    assert (Byte.x04 :: k = Byte.x04 :: take 32 k ++ drop 32 k) as Ek by (by rewrite take_drop). rewrite Ek in Hp |- *.
    destruct (ParsePubKey (Byte.x04 :: take 32 k ++ drop 32 k)) as [p| |] eqn:Epk; [|done..].
    pose proof (full_shape Byte.x04 (take 32 k) (drop 32 k) p) as (Hc & Ex & Ey & _).
    { rewrite len_cons in Lk. unfold len in *. rewrite length_take. lia. }
    { rewrite len_cons in Lk. unfold len in *. rewrite length_drop. lia. }
    { done. }
    exists p. split; [done|]. split; [done|]. rewrite Ex, Ey. by destruct (serialized p Hc) as (-> & _).
Qed.

(** * The bytes of a compressed script *)

Definition key_code (key : bytes) : bytes :=
  match key with
  | b0 :: k =>
    if u8 b0 =? 4 then to_byte (4 ||| (match index key 64 with Some y0 => u8 y0 &&& 1 | None => 0 end)) :: take 32 k
    else key
  | [] => []
  end.

Definition script_code (s : bytes) : bytes :=
  match isPubKeyHash s, isScriptHash s, isPubKey s with
  | Some h, _, _ => Byte.x00 :: h
  | None, Some h, _ => Byte.x01 :: h
  | None, None, Some key => key_code key
  | None, None, None => vlq (len s + 6) ++ s
  end.

Lemma copy_into_spec a t lo hi src : lo = len a -> len src <= hi - lo -> hi <= len a + len t ->
  copy_into lo hi src (a ++ t) = (Ret (), a ++ src ++ drop (length src) t).
Proof.
  intros -> Hs Ht. unfold copy_into. rewrite len_app. pose proof (len_nonneg a). pose proof (len_nonneg src).
  rewrite (proj2 (Z.leb_le 0 _)), (proj2 (Z.leb_le (len a) hi)), (proj2 (Z.leb_le hi _)) by lia. cbn [andb].
  rewrite (take_ge src) by (unfold len in *; lia). unfold len. rewrite Nat2Z.id, take_app_length.
  do 3 f_equal. rewrite drop_app_ge by lia. f_equal. lia.
Qed.

(** A one-byte tag followed by data. *)
Lemma writes_tagged b d n : n = 1 + len d ->
  writes (store 0 b;; copy_into 1 n d;; mret n) (b :: d).
Proof.
  intros -> target Ht. destruct target as [|x t]; [len_lia|].
  rewrite (bind_Ret _ _ _ _ _ (store_spec [] x t b)).
  assert (copy_into 1 (1 + len d) d ([b] ++ t) = (Ret (), [b] ++ d ++ drop (length d) t)) as Ec
    by (apply copy_into_spec; [done|lia|revert Ht; rewrite !len_cons; change (len (@nil byte)) with 0; lia]).
  change ([] ++ b :: t) with ([b] ++ t). rewrite (bind_Ret _ _ _ _ _ Ec). by rewrite len_cons.
Qed.

Lemma writes_lift {A} m (a : A) f b : m = Ret a -> writes (f a) b -> writes (lift m ≫= f) b.
Proof. intros -> Hf target Ht. rewrite bind_lift_Ret. by apply Hf. Qed.

(** The tag and the x coordinate of a serialized key. *)
Lemma writes_key b b0 xb rest : len xb = 32 ->
  writes (store 0 b;; x ← lift (or_panic (slice (b0 :: xb ++ rest) 1 33)); copy_into 1 33 x;; mret 33) (b :: xb).
Proof.
  intros Lx. assert (slice (b0 :: xb ++ rest) 1 33 = Some xb) as ->
    by (change (b0 :: xb ++ rest) with ([b0] ++ xb ++ rest); apply slice_seam; [done|by rewrite Lx]).
  intros target Ht. rewrite <- (writes_tagged b xb 33 ltac:(lia) target Ht). done.
Qed.

Lemma writes_general s : len s + 6 < 2 ^ 64 -> writes (put_general s) (vlq (len s + 6) ++ s).
Proof.
  intros Hs target Ht. unfold put_general, numSpecialScripts. pose proof (len_nonneg s). rewrite uwrap_small by lia.
  rewrite len_app in Ht. pose proof (len_nonneg (vlq (len s + 6))).
  rewrite (bind_Ret _ _ _ _ _ (putVLQ_writes (len s + 6) ltac:(lia) target ltac:(lia))), bind_gets. unfold id.
  assert (len (drop (length (vlq (len s + 6))) target) = len target - len (vlq (len s + 6))) as Ld
    by (unfold len in *; rewrite length_drop; lia).
  assert (copy_into (len (vlq (len s + 6))) (len (vlq (len s + 6) ++ drop (length (vlq (len s + 6))) target)) s
    (vlq (len s + 6) ++ drop (length (vlq (len s + 6))) target) =
    (Ret (), vlq (len s + 6) ++ s ++ drop (length s) (drop (length (vlq (len s + 6))) target))) as Ec
    by (apply copy_into_spec; [done|rewrite len_app; lia|rewrite len_app; lia]).
  rewrite (bind_Ret _ _ _ _ _ Ec). cbv [mret St_ret]. rewrite len_app, <- app_assoc, length_app, drop_drop. done.
Qed.

Lemma key_code_point p : on_curve p ->
  key_code (SerializeUncompressed p) = to_byte (4 + Z.b2z (Z.odd (pk_Y p))) :: be_split 32 (pk_X p).
Proof.
  intros Hc. destruct (serialized p Hc) as (-> & _). pose proof (len_be_split 32 (pk_X p)) as Lx. pose proof (len_be_split 32 (pk_Y p)) as Ly.
  assert (be_combine (be_split 32 (pk_Y p)) = pk_Y p) as Ey.
  { apply be_combine_split. destruct Hc as (_ & Hy & _). pose proof curve_P_bound. change (256 ^ Z.of_nat 32) with (2 ^ 256). lia. }
  set (xb := be_split 32 (pk_X p)) in *. set (yb := be_split 32 (pk_Y p)) in *. clearbody xb yb.
  destruct (snoc_inv yb) as (y & y0 & ->); [by intros ->|].
  cbn [key_code]. change (u8 (to_byte 4) =? 4) with true. cbv iota.
  assert (index (to_byte 4 :: xb ++ y ++ [y0]) 64 = Some y0) as ->.
  { rewrite app_assoc, app_comm_cons. replace 64 with (len (to_byte 4 :: xb ++ y)) by len_lia. apply index_snoc. }
  rewrite take_app_le, take_ge by (unfold len in *; lia).
  assert (u8 y0 &&& 1 = Z.b2z (Z.odd (pk_Y p))) as ->; [|by destruct (Z.odd (pk_Y p))].
  rewrite <- Ey. unfold be_combine. rewrite rev_app_distr. cbn [rev app]. rewrite le_combine_cons.
  change 256 with (2 * 128). rewrite <- Z.mul_assoc, Z.odd_add_mul_2.
  change 1 with (Z.ones 1) at 1. rewrite Z.land_ones by lia. change (2 ^ 1) with 2. rewrite Zmod_odd. by destruct (Z.odd (u8 y0)).
Qed.


Lemma key_code_compressed b0 xb : u8 b0 = 2 \/ u8 b0 = 3 -> key_code (b0 :: xb) = b0 :: xb.
Proof. intros Hb. cbn [key_code]. by destruct Hb as [-> | ->]. Qed.

Lemma putCompressedScript_writes s : len s + 6 < 2 ^ 64 -> writes (putCompressedScript s) (script_code s).
Proof.
  intros Hs. unfold putCompressedScript, script_code.
  destruct (isPubKeyHash s) as [h|] eqn:E1; [apply writes_tagged; by rewrite (proj2 (isPubKeyHash_shape s h E1))|].
  destruct (isScriptHash s) as [h|] eqn:E2; [apply writes_tagged; by rewrite (proj2 (isScriptHash_shape s h E2))|].
  destruct (isPubKey s) as [key|] eqn:E3; [|by apply writes_general].
  destruct (isPubKey_shape s key E3) as [(b0 & xb & _ & -> & Lx & Hb)|(p & _ & Hc & ->)].
  - rewrite (key_code_compressed b0 xb Hb).
    apply (writes_lift _ b0); [done|].
    assert ((u8 b0 =? 2) || (u8 b0 =? 3) = true) as -> by (by destruct Hb as [-> | ->]).
    pose proof (writes_key b0 b0 xb [] Lx) as Hw. rewrite app_nil_r in Hw. exact Hw.
  - pose proof (key_code_point p Hc) as Ek. destruct (serialized p Hc) as (Es & _). rewrite Es in *.
    set (xb := be_split 32 (pk_X p)) in *. set (yb := be_split 32 (pk_Y p)) in *.
    assert (len xb = 32 /\ len yb = 32) as [Lx Ly] by (unfold xb, yb; by rewrite !len_be_split). clearbody xb yb.
    rewrite Ek. apply (writes_lift _ (to_byte 4)); [done|]. change (u8 (to_byte 4)) with 4. cbn [Z.eqb orb].
    destruct (index_is_Some (to_byte 4 :: xb ++ yb) 64) as [y0 Ey]; [len_lia|]. rewrite Ey.
    apply (writes_lift _ y0); [done|]. cbn [key_code] in Ek. change (u8 (to_byte 4) =? 4) with true in Ek. cbv iota in Ek.
    rewrite Ey in Ek. injection Ek as -> _. by apply writes_key.
Qed.

(** ** Sizes and reading *)

Lemma compressedScriptSize_spec s : len s + 6 < 2 ^ 64 -> compressedScriptSize s = len (script_code s).
Proof.
  intros Hs. unfold compressedScriptSize, script_code, numSpecialScripts. pose proof (len_nonneg s).
  destruct (isPubKeyHash s) as [h|] eqn:E1; [rewrite len_cons; by rewrite (proj2 (isPubKeyHash_shape s h E1))|].
  destruct (isScriptHash s) as [h|] eqn:E2; [rewrite len_cons; by rewrite (proj2 (isScriptHash_shape s h E2))|].
  destruct (isPubKey s) as [key|] eqn:E3.
  - destruct (isPubKey_shape s key E3) as [(b0 & xb & _ & -> & Lx & Hb)|(p & _ & Hc & ->)].
    + by rewrite (key_code_compressed b0 xb Hb), len_cons, Lx.
    + rewrite (key_code_point p Hc), len_cons, len_be_split. done.
  - rewrite uwrap_small by lia. rewrite serializeSizeVLQ_spec by lia. by rewrite len_app.
Qed.

(** What the readers see of the code: the tag or the size, then the data. *)
Lemma read_tag b rest : u8 b < 128 -> deserializeVLQ (b :: rest) = (u8 b, 1).
Proof.
  intros Hb. pose proof (u8_range b). unfold deserializeVLQ. rewrite <- (byte.of_Z_unsigned b) at 1.
  rewrite vlq_read_last by lia. f_equal.
Qed.

Lemma key_tag odd : u8 (to_byte (4 + Z.b2z odd)) = 4 + Z.b2z odd.
Proof. by destruct odd. Qed.

Lemma decodeCompressedScriptSize_code s rest : len s + 16 < 2 ^ 63 ->
  decodeCompressedScriptSize (script_code s ++ rest) = len (script_code s).
Proof.
  intros Hs. unfold script_code. pose proof (len_nonneg s).
  destruct (isPubKeyHash s) as [h|] eqn:E1.
  { cbn [app]. unfold decodeCompressedScriptSize. rewrite read_tag by done. rewrite len_cons, (proj2 (isPubKeyHash_shape s h E1)). done. }
  destruct (isScriptHash s) as [h|] eqn:E2.
  { cbn [app]. unfold decodeCompressedScriptSize. rewrite read_tag by done. rewrite len_cons, (proj2 (isScriptHash_shape s h E2)). done. }
  destruct (isPubKey s) as [key|] eqn:E3.
  - destruct (isPubKey_shape s key E3) as [(b0 & xb & _ & -> & Lx & Hb)|(p & _ & Hc & ->)].
    + rewrite (key_code_compressed b0 xb Hb).
      cbn [app]. unfold decodeCompressedScriptSize. rewrite read_tag by lia. rewrite len_cons, Lx. by destruct Hb as [-> | ->].
    + rewrite (key_code_point p Hc). cbn [app]. unfold decodeCompressedScriptSize.
      rewrite read_tag, key_tag, len_cons, len_be_split by (rewrite key_tag; destruct (Z.odd _); done). by destruct (Z.odd _).
  - rewrite <- app_assoc. unfold decodeCompressedScriptSize. rewrite deserializeVLQ_vlq by lia. pose proof (vlq_length (len s + 6)).
    unfold cstPayToPubKeyHash, cstPayToScriptHash, cstPayToPubKeyComp2, cstPayToPubKeyComp3, cstPayToPubKeyUncomp4, cstPayToPubKeyUncomp5, numSpecialScripts.
    rewrite (proj2 (Z.eqb_neq (len (vlq (len s + 6))) 0)) by lia.
    rewrite !(proj2 (Z.eqb_neq (len s + 6) _)) by lia. cbn [orb]. replace (len s + 6 - 6) with (len s) by lia.
    rewrite (uwrap_small 64 (len s)), uwrap_small, int64_small, len_app by lia. lia.
Qed.

Lemma decompress_hash b h : len h = 20 -> u8 b = 0 \/ u8 b = 1 ->
  decompressScript (b :: h) = Ret (if u8 b =? 0 then [OP_DUP; OP_HASH160; OP_DATA_20] ++ h ++ [OP_EQUALVERIFY; OP_CHECKSIG]
                                   else [OP_HASH160; OP_DATA_20] ++ h ++ [OP_EQUAL]).
Proof.
  intros Lh Hb. unfold decompressScript. rewrite len_cons, Lh, read_tag by lia.
  assert (slice (b :: h) 1 (1 + 20) = Some h) as -> by
    (change (b :: h) with ([b] ++ h); rewrite <- (app_nil_r h) at 1; apply slice_seam; [done|by rewrite Lh]).
  by destruct Hb as [-> | ->].
Qed.

Lemma decompress_compressed_key b0 xb : len xb = 32 -> u8 b0 = 2 \/ u8 b0 = 3 ->
  decompressScript (b0 :: xb) = Ret (OP_DATA_33 :: (b0 :: xb) ++ [OP_CHECKSIG]).
Proof.
  intros Lx Hb. unfold decompressScript. rewrite len_cons, Lx, read_tag by lia.
  assert (slice (b0 :: xb) 1 (1 + 32) = Some xb) as -> by
    (change (b0 :: xb) with ([b0] ++ xb); rewrite <- (app_nil_r xb) at 1; apply slice_seam; [done|by rewrite Lx]).
  rewrite byte.of_Z_unsigned. by destruct Hb as [-> | ->].
Qed.

Lemma decompress_point p : on_curve p ->
  decompressScript (to_byte (4 + Z.b2z (Z.odd (pk_Y p))) :: be_split 32 (pk_X p)) =
    Ret (OP_DATA_65 :: SerializeUncompressed p ++ [OP_CHECKSIG]).
Proof.
  intros Hc. pose proof (parse_serialized_compressed p Hc) as Hp. destruct (serialized p Hc) as (_ & _ & Es). rewrite Es in Hp. clear Es.
  pose proof (len_be_split 32 (pk_X p)) as Lx. set (xb := be_split 32 (pk_X p)) in *. clearbody xb.
  unfold decompressScript. rewrite read_tag, len_cons, Lx, key_tag by (rewrite key_tag; by destruct (Z.odd _)).
  change (to_byte (4 + Z.b2z (Z.odd (pk_Y p))) :: xb) with ([to_byte (4 + Z.b2z (Z.odd (pk_Y p)))] ++ xb).
  rewrite (slice_from_app [to_byte (4 + Z.b2z (Z.odd (pk_Y p)))] xb) by done. cbn [or_panic mbind outcome_bind].
  rewrite take_app_le, take_ge by (unfold len in *; lia).
  replace (4 + Z.b2z (Z.odd (pk_Y p)) - 2) with (2 + Z.b2z (Z.odd (pk_Y p))) by lia. rewrite Hp. by destruct (Z.odd _).
Qed.

Lemma decompress_general s : len s + 16 < 2 ^ 63 -> decompressScript (vlq (len s + 6) ++ s) = Ret s.
Proof.
  intros Hs. pose proof (len_nonneg s). pose proof (vlq_length (len s + 6)) as Hv. unfold decompressScript.
  rewrite (proj2 (Z.eqb_neq (len (vlq (len s + 6) ++ s)) 0)) by (rewrite len_app; lia). rewrite deserializeVLQ_vlq by lia.
  unfold cstPayToPubKeyHash, cstPayToScriptHash, cstPayToPubKeyComp2, cstPayToPubKeyComp3, cstPayToPubKeyUncomp4, cstPayToPubKeyUncomp5, numSpecialScripts.
  rewrite !(proj2 (Z.eqb_neq (len s + 6) _)) by lia. cbn [orb]. replace (len s + 6 - 6) with (len s) by lia.
  rewrite (uwrap_small 64 (len s)), (int64_small (len s)), int64_small by lia. unfold make. rewrite (proj2 (Z.ltb_ge (len s) 0)) by lia.
  pose proof (slice_seam (vlq (len s + 6)) s [] _ _ eq_refl eq_refl) as Es. rewrite app_nil_r in Es.
  cbn [or_panic mbind outcome_bind]. by rewrite Es.
Qed.

Lemma decompressScript_code s : len s + 16 < 2 ^ 63 -> decompressScript (script_code s) = Ret s.
Proof.
  intros Hs. unfold script_code.
  destruct (isPubKeyHash s) as [h|] eqn:E1; [destruct (isPubKeyHash_shape s h E1) as [-> Lh]; apply decompress_hash; [done|by left]|].
  destruct (isScriptHash s) as [h|] eqn:E2; [destruct (isScriptHash_shape s h E2) as [-> Lh]; apply decompress_hash; [done|by right]|].
  destruct (isPubKey s) as [key|] eqn:E3; [|by apply decompress_general].
  destruct (isPubKey_shape s key E3) as [(b0 & xb & -> & -> & Lx & Hb)|(p & -> & Hc & ->)].
  - rewrite (key_code_compressed b0 xb Hb). by apply decompress_compressed_key.
  - rewrite (key_code_point p Hc). by apply decompress_point.
Qed.

(** * Amounts *)

Lemma strip_zeros_spec fuel a e : 0 < a -> 0 <= e -> e + Z.of_nat fuel = 9 ->
  let '(a', e') := strip_zeros fuel a e in 0 < a' /\ e <= e' <= 9 /\ a = a' * 10 ^ (e' - e) /\ (e' < 9 -> a' mod 10 <> 0).
Proof.
  revert a e. induction fuel as [|fuel IH]; intros a e Ha He Hf; cbn [strip_zeros].
  { split; [done|]. split; [lia|]. replace (e - e) with 0 by lia. split; [lia|lia]. }
  destruct (Z.eqb_spec (a mod 10) 0) as [Hm|Hm]; cbn [andb].
  - rewrite (proj2 (Z.ltb_lt e 9)) by lia. specialize (IH (a / 10) (e + 1)). destruct (strip_zeros fuel (a / 10) (e + 1)) as [a' e'].
    destruct IH as (Ha' & He' & E & Hd); [lia|lia|lia|]. split; [done|]. split; [lia|]. split; [|done].
    replace (e' - e) with (1 + (e' - (e + 1))) by lia. rewrite Z.pow_add_r by lia. rewrite Z.mul_assoc, (Z.mul_comm a'), <- Z.mul_assoc, <- E. lia.
  - split; [done|]. split; [lia|]. replace (e - e) with 0 by lia. split; [lia|done].
Qed.

Lemma apply_exponent_spec k n : 0 <= n -> n * 10 ^ Z.of_nat k < 2 ^ 64 -> apply_exponent k n = n * 10 ^ Z.of_nat k.
Proof.
  revert n. induction k as [|k IH]; intros n Hn Hk; cbn [apply_exponent]; [lia|].
  rewrite Nat2Z.inj_succ, Z.pow_succ_r in Hk |- * by lia. pose proof (Z.pow_pos_nonneg 10 (Z.of_nat k)).
  rewrite uwrap_small by nia. rewrite IH; [lia|lia|lia].
Qed.

Lemma decompress_small q r e : 0 <= q -> 1 <= r <= 9 -> 0 <= e < 9 ->
  (10 * q + r) * 10 ^ e < 2 ^ 64 -> 1 + 10 * (9 * q + r - 1) + e < 2 ^ 64 ->
  decompressTxOutAmount (1 + 10 * (9 * q + r - 1) + e) = (10 * q + r) * 10 ^ e.
Proof.
  intros Hq Hr He Hv Hc. unfold decompressTxOutAmount. rewrite (proj2 (Z.eqb_neq (1 + 10 * (9 * q + r - 1) + e) 0)) by lia.
  replace (1 + 10 * (9 * q + r - 1) + e - 1) with (e + (9 * q + r - 1) * 10) by lia. rewrite uwrap_small by lia. cbv zeta.
  rewrite Z.mod_add, Z.div_add, (Z.mod_small e 10), (Z.div_small e 10) by lia. rewrite (proj2 (Z.ltb_lt e 9)) by lia. rewrite Z.add_0_l.
  replace (9 * q + r - 1) with (r - 1 + q * 9) by lia. rewrite Z.mod_add, Z.div_add, (Z.mod_small (r - 1) 9), (Z.div_small (r - 1) 9) by lia.
  pose proof (Z.pow_pos_nonneg 10 e ltac:(lia) ltac:(lia)).
  replace ((0 + q) * 10 + (r - 1 + 1)) with (10 * q + r) by lia. rewrite uwrap_small by nia.
  rewrite apply_exponent_spec by (rewrite ?Z2Nat.id; lia). by rewrite Z2Nat.id by lia.
Qed.

Lemma decompress_large d : 1 <= d -> d * 10 ^ 9 < 2 ^ 64 -> decompressTxOutAmount (10 + 10 * (d - 1)) = d * 10 ^ 9.
Proof.
  intros Hd Hv. unfold decompressTxOutAmount. rewrite (proj2 (Z.eqb_neq (10 + 10 * (d - 1)) 0)) by lia.
  replace (10 + 10 * (d - 1) - 1) with (9 + (d - 1) * 10) by lia. rewrite uwrap_small by lia. cbv zeta.
  rewrite Z.mod_add, Z.div_add by lia. change (9 mod 10) with 9. change (9 / 10) with 0. change (9 <? 9) with false. cbv iota.
  rewrite uwrap_small by lia. rewrite apply_exponent_spec; change (Z.of_nat (Z.to_nat 9)) with 9; lia.
Qed.

(** What comes back of a stored amount. *)
Definition reread (a : Z) : Z := decompressTxOutAmount (compressTxOutAmount a).

(** Amounts below a ninth of the range of 64 bits survive the compression, which
    does not exceed 64 bits. *)
Lemma amount_roundtrip a : 0 <= a -> 9 * a < 2 ^ 64 -> reread a = a /\ 0 <= compressTxOutAmount a < 2 ^ 64.
Proof.
  intros Ha Hlim. unfold reread, compressTxOutAmount. destruct (Z.eqb_spec a 0) as [->|Hne]; [done|].
  pose proof (strip_zeros_spec 9 a 0 ltac:(lia) ltac:(lia) eq_refl) as Hs. destruct (strip_zeros 9 a 0) as [d e].
  destruct Hs as (Hd & He & E & Hlast). rewrite Z.sub_0_r in E. destruct (Z.ltb_spec e 9) as [H9|H9].
  - specialize (Hlast H9). cbv zeta. set (q := d / 10). set (r := d mod 10). assert (d = 10 * q + r /\ 1 <= r <= 9 /\ 0 <= q) as (Ed & Hr & Hq) by (unfold q, r; lia).
    clearbody q r. subst d. assert (1 + 10 * (9 * q + r - 1) + e <= 9 * a) as Hc.
    { destruct (decide (e = 0)) as [->|]; [rewrite E; lia|]. assert (10 ^ 1 <= 10 ^ e) by (apply Z.pow_le_mono_r; lia). nia. }
    rewrite uwrap_small by lia. rewrite decompress_small by lia. lia.
  - assert (e = 9) as -> by lia. rewrite uwrap_small by lia. rewrite decompress_large by lia. lia.
Qed.

(** Beyond, the multiplication wraps and another amount comes back, also for an
    amount that the rules of the network allow. *)
Lemma amount_overflow : let a := 3 * 10 ^ 18 + 1 in
  a <= 0x40000000 * 6000000000 /\ reread a <> a.
Proof. split; [vm_compute; discriminate|]. intros E. vm_compute in E. discriminate E. Qed.

(** * Outputs *)

(** The bytes of a compressed output. *)
Definition txout_code (amount : Z) (pkScript : bytes) : bytes := vlq (compressTxOutAmount amount) ++ script_code pkScript.

Lemma writes_tail off m b1 b2 : off = len b1 -> writes m b2 ->
  forall target, len b1 + len b2 <= len target ->
  on_tail off m (b1 ++ drop (length b1) target) = (Ret (len b2), (b1 ++ b2) ++ drop (length (b1 ++ b2)) target).
Proof.
  intros -> Hm target Ht. unfold on_tail. pose proof (len_nonneg b1). pose proof (len_nonneg b2).
  rewrite len_app. assert (len (drop (length b1) target) = len target - len b1) as Ld by (unfold len in *; rewrite length_drop; lia).
  rewrite (proj2 (Z.leb_le 0 _)), (proj2 (Z.leb_le (len b1) _)) by lia. cbn [andb]. unfold len at 1 2. rewrite Nat2Z.id, drop_app_length, take_app_length.
  rewrite Hm by lia. by rewrite <- app_assoc, length_app, drop_drop.
Qed.

(** Two writers one after the other. *)
Lemma writes_seq m1 m2 b1 b2 : writes m1 b1 -> writes m2 b2 ->
  writes (off ← m1; n ← on_tail off m2; mret (off + n)) (b1 ++ b2).
Proof.
  intros H1 H2 target Ht. rewrite len_app in Ht. pose proof (len_nonneg b2).
  rewrite (bind_Ret _ _ _ _ _ (H1 target ltac:(lia))), (bind_Ret _ _ _ _ _ (writes_tail _ _ _ _ eq_refl H2 target Ht)).
  cbv [mret St_ret]. by rewrite len_app.
Qed.

Lemma amount_code_range a : 0 <= compressTxOutAmount a < 2 ^ 64.
Proof.
  unfold compressTxOutAmount. destruct (a =? 0); [done|]. destruct (strip_zeros 9 a 0) as [d e].
  destruct (e <? 9); apply uwrap_range; lia.
Qed.

Lemma putCompressedTxOut_writes a s : len s + 6 < 2 ^ 64 -> writes (putCompressedTxOut a s) (txout_code a s).
Proof. intros Hs. apply writes_seq; [apply putVLQ_writes, amount_code_range|by apply putCompressedScript_writes]. Qed.

Lemma compressedTxOutSize_spec a s : len s + 6 < 2 ^ 64 -> compressedTxOutSize a s = len (txout_code a s).
Proof.
  intros Hs. unfold compressedTxOutSize, txout_code. rewrite serializeSizeVLQ_spec by apply amount_code_range.
  by rewrite compressedScriptSize_spec, len_app.
Qed.

Lemma script_code_nonempty s : len s + 6 < 2 ^ 64 -> 0 < len (script_code s).
Proof.
  intros Hs. rewrite <- compressedScriptSize_spec by done. unfold compressedScriptSize, numSpecialScripts. pose proof (len_nonneg s).
  rewrite uwrap_small by lia. rewrite serializeSizeVLQ_spec by lia. pose proof (vlq_length (len s + 6)).
  destruct (isPubKeyHash s); [lia|]. destruct (isScriptHash s); [lia|]. destruct (isPubKey s); lia.
Qed.

Lemma decodeCompressedTxOut_code a s rest : len s + 16 < 2 ^ 63 ->
  decodeCompressedTxOut (txout_code a s ++ rest) = Ret (reread a, s, len (txout_code a s)).
Proof.
  intros Hs. pose proof (amount_code_range a) as Hr. pose proof (script_code_nonempty s ltac:(lia)) as Hne.
  unfold decodeCompressedTxOut, txout_code. rewrite <- app_assoc, deserializeVLQ_vlq by done.
  pose proof (len_nonneg rest). rewrite !len_app, (proj2 (Z.leb_gt (_ + _) _)) by lia. rewrite slice_from_app by done.
  cbn [or_panic mbind outcome_bind]. rewrite decodeCompressedScriptSize_code by done.
  rewrite len_app, (proj2 (Z.ltb_ge (len (script_code s) + len rest) _)) by lia. rewrite slice_seam by done.
  cbn [or_panic mbind outcome_bind]. by rewrite decompressScript_code by done.
Qed.
