(* ===== verification/RuleErr.v ===== *)
(** The errors of block and transaction validation: the rule error codes of
    src/wire/ruleerror/error.go, and the other errors the validation code returns. *)

From S2P Require Import Prelude Compress.

Inductive ruleerr : Type :=
| ErrDuplicateBlock
| ErrBlockTooBig
| ErrBlockWeightTooHigh
| ErrBlockVersionTooOld
| ErrTimeTooOld
| ErrTimeTooNew
| ErrDifficultyTooLow
| ErrUnexpectedDifficulty
| ErrHighHash
| ErrBadMerkleRoot
| ErrBadCheckpoint
| ErrForkTooOld
| ErrCheckpointTimeTooOld
| ErrNoTransactions
| ErrNoTxInputs
| ErrNoTxOutputs
| ErrTxTooBig
| ErrNegativeTxOutValue
| ErrOversizeTxOutValue
| ErrOversizeTxOutSum
| ErrDuplicateTxInputs
| ErrNullPrevOut
| ErrMissingTxOut
| ErrUnfinalizedTx
| ErrDuplicateTx
| ErrOverwriteTx
| ErrImmatureSpend
| ErrSpendTooHigh
| ErrBadFees
| ErrTooManySigOps
| ErrFirstTxNotCoinbase
| ErrMultipleCoinbases
| ErrBadCoinbaseScriptLen
| ErrBadCoinbaseValue
| ErrMissingCoinbaseHeight
| ErrBadCoinbaseHeight
| ErrBadCoinbaseNetworkSteward
| ErrScriptMalformed
| ErrScriptValidation
| ErrUnexpectedWitness
| ErrInvalidWitnessCommitment
| ErrWitnessCommitmentMismatch
| ErrPreviousBlockUnknown
| ErrInvalidAncestorBlock
| ErrPrevBlockNotBest
| ErrBadPow
| ErrPowCannotVerify
| ErrNetworkStewardOldSpend
| ErrTxExistsInMempool
| ErrTxExistsInChain
(** [AssertError], [DeploymentError], an error of the chain database, any other. *)
| AssertError
| DeploymentError (id : Z)
| DbError (e : chainioerr)
| OtherError.

#[global] Instance ruleerr_eq_dec : EqDecision ruleerr.
Proof. solve_decision. Defined.
