(* ===== verification/TxRules.v ===== *)
(** The context-free rules for transactions (src/blockchain/validate.go): coinbases,
    lock times, sanity, signature operation counts and the height in the coinbase. *)

From stdpp Require Import gmap.
From S2P Require Import Prelude Params Opcode Sha Wire MsgTx SigHash ScriptUtil ChainParams Block RuleErr.

#[global] Instance OutPoint_countable : Countable OutPoint.
Proof.
  refine (inj_countable' (fun o => (op_Hash o, op_Index o)) (fun p => mkOutPoint p.1 p.2) _). by intros [].
Defined.

Definition MinCoinbaseScriptLen : Z := 2.
Definition MaxCoinbaseScriptLen : Z := 100.
Definition serializedHeightVersion : Z := 2.

(** src/blockchain/weight.go *)
Definition MaxBlockWeight : Z := 4000000.
Definition MaxBlockBaseSize : Z := 1000000.
Definition MaxBlockSigOpsCost : Z := 80000.
Definition WitnessScaleFactor : Z := 4.

Definition MaxUint32 : Z := 2 ^ 32 - 1.
Definition zeroHash : bytes := repeat Byte.x00 32.

Definition isNullOutpoint (outpoint : OutPoint) : bool :=
  (op_Index outpoint =? MaxUint32) && bytes_eqb (op_Hash outpoint) zeroHash.

Definition ShouldHaveSerializedBlockHeight (header : BlockHeader) : bool := serializedHeightVersion <=? bh_Version header.

Definition IsCoinBaseTx (msgTx : MsgTx) : bool :=
  match tx_TxIn msgTx with
  | [txIn] =>
    let prevOut := ti_PreviousOutPoint txIn in
    negb (negb (op_Index prevOut =? MaxUint32) || negb (bytes_eqb (op_Hash prevOut) zeroHash))
  | _ => false
  end.

Definition IsCoinBase (tx : MsgTx) : bool := IsCoinBaseTx tx.

(** [blockTime] in seconds. *)
Definition IsFinalizedTransaction (msgTx : MsgTx) (blockHeight blockTime : Z) : bool :=
  let lockTime := tx_LockTime msgTx in
  if lockTime =? 0 then true else
  let blockTimeOrHeight := if lockTime <? LockTimeThreshold then blockHeight else blockTime in
  if lockTime <? blockTimeOrHeight then true
  else forallb (fun txIn => ti_Sequence txIn =? MaxUint32) (tx_TxIn msgTx).

(** The loop over the outputs: the total. *)
Fixpoint check_outputs `{GlobalConf} (outs : list TxOut) (totalSatoshi : Z) : outcome ruleerr Z :=
  match outs with
  | [] => mret totalSatoshi
  | txOut :: outs' =>
    let satoshi := to_Value txOut in
    if satoshi <? 0 then mthrow ErrNegativeTxOutValue else
    if MaxUnitsI64 <? satoshi then mthrow ErrOversizeTxOutValue else
    let totalSatoshi := int64 (totalSatoshi + satoshi) in
    if totalSatoshi <? 0 then mthrow ErrOversizeTxOutSum else
    if MaxUnitsI64 <? totalSatoshi then mthrow ErrOversizeTxOutSum else
    check_outputs outs' totalSatoshi
  end.

Fixpoint check_duplicate_inputs (ins : list TxIn) (existingTxOut : gset OutPoint) : outcome ruleerr () :=
  match ins with
  | [] => mret ()
  | txIn :: ins' =>
    if decide (ti_PreviousOutPoint txIn ∈ existingTxOut) then mthrow ErrDuplicateTxInputs
    else check_duplicate_inputs ins' ({[ti_PreviousOutPoint txIn]} ∪ existingTxOut)
  end.

Definition CheckTransactionSanity `{GlobalConf} (msgTx : MsgTx) : outcome ruleerr () :=
  if len (tx_TxIn msgTx) =? 0 then mthrow ErrNoTxInputs else
  if len (tx_TxOut msgTx) =? 0 then mthrow ErrNoTxOutputs else
  if MaxBlockBaseSize <? SerializeSizeStripped msgTx then mthrow ErrTxTooBig else
  check_outputs (tx_TxOut msgTx) 0;;
  check_duplicate_inputs (tx_TxIn msgTx) ∅;;
  if IsCoinBase msgTx then
    txIn ← or_panic (index (tx_TxIn msgTx) 0);
    let slen := len (ti_SignatureScript txIn) in
    if (slen <? MinCoinbaseScriptLen) || (MaxCoinbaseScriptLen <? slen) then mthrow ErrBadCoinbaseScriptLen else mret ()
  else if existsb (fun txIn => isNullOutpoint (ti_PreviousOutPoint txIn)) (tx_TxIn msgTx) then mthrow ErrNullPrevOut
  else mret ().

(** The counts are ints; a script of a block has far fewer operations than an int holds. *)
Definition CountSigOps (msgTx : MsgTx) : Z :=
  let totalSigOps := foldl (fun n txIn => n + GetSigOpCount (ti_SignatureScript txIn)) 0 (tx_TxIn msgTx) in
  foldl (fun n txOut => n + GetSigOpCount (to_PkScript txOut)) totalSigOps (tx_TxOut msgTx).

(** The first bytes of a slice in an array of eight zero bytes. *)
Definition ExtractCoinbaseHeight (coinbaseTx : MsgTx) : outcome ruleerr Z :=
  txIn ← or_panic (index (tx_TxIn coinbaseTx) 0);
  let sigScript := ti_SignatureScript txIn in
  match sigScript with
  | [] => mthrow ErrMissingCoinbaseHeight
  | b0 :: rest =>
    let op := u8 b0 in
    if op =? u8 OP_0 then mret 0 else
    if (u8 OP_1 <=? op) && (op <=? u8 OP_16) then mret (int32 (op - (u8 OP_1 - 1))) else
    let serializedLen := op in
    if len rest <? serializedLen then mthrow ErrMissingCoinbaseHeight else
    serialized ← or_panic (slice sigScript 1 (serializedLen + 1));
    let serializedHeightBytes := take 8 (serialized ++ repeat Byte.x00 8) in
    mret (int32 (le_combine serializedHeightBytes))
  end.

Definition ExtractBlockHeight (msg : MsgBlock) : outcome ruleerr Z :=
  match mb_Transactions msg with
  | [] => mthrow OtherError
  | tx :: _ => ExtractCoinbaseHeight tx
  end.

Definition checkSerializedHeight (coinbaseTx : MsgTx) (wantHeight : Z) : outcome ruleerr () :=
  serializedHeight ← ExtractCoinbaseHeight coinbaseTx;
  if negb (serializedHeight =? wantHeight) then mthrow ErrBadCoinbaseHeight else mret ().

(** * What the rules guarantee *)

Lemma IsCoinBase_spec tx : IsCoinBase tx = true <->
  exists ti, tx_TxIn tx = [ti] /\ ti_PreviousOutPoint ti = mkOutPoint zeroHash MaxUint32.
Proof.
  unfold IsCoinBase, IsCoinBaseTx. destruct (tx_TxIn tx) as [|ti [|ti' l]]; [split; [done|by intros (? & ? & _)]| |split; [done|by intros (? & ? & _)]].
  rewrite negb_orb, !negb_involutive, andb_true_iff, Z.eqb_eq. unfold bytes_eqb. rewrite bool_decide_eq_true.
  split.
  - intros [Hi Hh]. exists ti. split; [done|]. destruct (ti_PreviousOutPoint ti). simpl in *. by subst.
  - intros (x & [= <-] & E). by rewrite E.
Qed.

Section sanity.
Context `{GlobalConf}.

Definition out_total (outs : list TxOut) : Z := foldr (fun o n => to_Value o + n) 0 outs.

Lemma check_outputs_spec outs total r : 0 <= total <= MaxUnitsI64 -> MaxUnitsI64 < 2 ^ 63 ->
  check_outputs outs total = Ret r ->
  r = total + out_total outs /\ 0 <= r <= MaxUnitsI64 /\ Forall (fun o => 0 <= to_Value o <= MaxUnitsI64) outs.
Proof.
  revert total. induction outs as [|o outs IH]; intros total Ht Hm; cbn [check_outputs out_total foldr].
  { intros [= <-]. split; [lia|]. split; [lia|constructor]. }
  cbv zeta. destruct (Z.ltb_spec (to_Value o) 0); [done|]. destruct (Z.ltb_spec MaxUnitsI64 (to_Value o)); [done|].
  destruct (Z.ltb_spec (int64 (total + to_Value o)) 0); [done|]. destruct (Z.ltb_spec MaxUnitsI64 (int64 (total + to_Value o))); [done|].
  intros E. assert (int64 (total + to_Value o) = total + to_Value o) as Ei.
  { destruct (Z.lt_ge_cases (total + to_Value o) (2 ^ 63)); [apply int64_small; lia|].
    exfalso. revert H2. unfold swrap. change (64 - 1) with 63.
    replace (total + to_Value o + 2 ^ 63) with ((total + to_Value o - 2 ^ 63) + 1 * 2 ^ 64) by lia.
    rewrite Z.mod_add, Z.mod_small by lia. lia. }
  rewrite Ei in *. apply IH in E as (-> & Hr & HF); [|lia|done]. fold (out_total outs) in *. split; [lia|]. split; [lia|]. by constructor.
Qed.

Lemma check_duplicate_inputs_spec ins seen : check_duplicate_inputs ins seen = Ret () ->
  NoDup (map ti_PreviousOutPoint ins) /\ Forall (fun ti => ti_PreviousOutPoint ti ∉ seen) ins.
Proof.
  revert seen. induction ins as [|ti ins IH]; intros seen; cbn [check_duplicate_inputs map]; [by repeat constructor|].
  destruct (decide _) as [|Hn]; [done|]. intros (HN & HF)%IH. split.
  - constructor; [|done]. rewrite list_elem_of_fmap. intros (t & E & Ht). rewrite Forall_forall in HF. apply (HF t); [by apply list_elem_of_In|set_solver].
  - constructor; [done|]. eapply Forall_impl; [|exact HF]. set_solver.
Qed.

End sanity.
