(* ===== verification/Merkle.v ===== *)
(** Merkle trees of a block and the witness commitment (src/blockchain/merkle.go):
    the linear tree store against a reference root, the authentication path of a
    transaction, and the commitment check. *)

From stdpp Require Import sets.
From S2P Require Import Prelude Opcode Sha Wire MsgTx ScriptUtil ChainParams Block RuleErr TxRules.

Definition CoinbaseWitnessDataLen : Z := 32.
Definition CoinbaseWitnessPkScriptLength : Z := 38.
Definition WitnessMagicBytes : bytes := [OP_RETURN; OP_DATA_36; Byte.xaa; Byte.x21; Byte.xa9; Byte.xed].

(** The code takes the integer part of [math.Log2].  Below 2^32, and so for the number of
    transactions of any block, the logarithm of a number that is no power of two is
    further below the next integer than the rounding of [math.Log2] reaches, and the
    integer part is exact.  Larger numbers are not considered. *)
Definition nextPowerOfTwo (n : Z) : Z :=
  if n &&& (n - 1) =? 0 then n else 1 <<< (Z.log2 n + 1).

Definition HashMerkleBranches (left right : bytes) : bytes := DoubleHashB (left ++ right).

Abbreviation slots := (list (option bytes)).

(** [merkles[i] = x]. *)
Definition set_slot (merkles : slots) (i : Z) (x : option bytes) : option slots :=
  if (0 <=? i) && (i <? len merkles) then Some (<[Z.to_nat i := x]> merkles) else None.

Definition leaf (witness : bool) (i : nat) (tx : MsgTx) : bytes :=
  if witness then match i with O => zeroHash | S _ => WitnessHash tx end else TxHash tx.

Fixpoint fill_leaves (witness : bool) (i : nat) (txs : list MsgTx) (merkles : slots) : outcome Empty_set slots :=
  match txs with
  | [] => mret merkles
  | tx :: txs' =>
    merkles ← or_panic (set_slot merkles (Z.of_nat i) (Some (leaf witness i tx)));
    fill_leaves witness (S i) txs' merkles
  end.

(** [for i := 0; i < arraySize-1; i += 2]. *)
Fixpoint merkle_loop (fuel : nat) (arraySize i offset : Z) (merkles : slots) : outcome Empty_set slots :=
  match fuel with
  | O => mret merkles
  | S fuel' =>
    if i <? arraySize - 1 then
      left ← or_panic (index merkles i);
      parent ← (match left with
                | None => mret None
                | Some l =>
                  right ← or_panic (index merkles (i + 1));
                  mret (match right with
                        | None => Some (HashMerkleBranches l l)
                        | Some r => Some (HashMerkleBranches l r)
                        end)
                end);
      merkles ← or_panic (set_slot merkles offset parent);
      merkle_loop fuel' arraySize (i + 2) (offset + 1) merkles
    else mret merkles
  end.

Definition BuildMerkleTreeStore (transactions : list MsgTx) (witness : bool) : outcome Empty_set slots :=
  let nextPoT := nextPowerOfTwo (len transactions) in
  let arraySize := nextPoT * 2 - 1 in
  merkles ← (if arraySize <? 0 then Panic else mret (repeat None (Z.to_nat arraySize)));
  merkles ← fill_leaves witness 0 transactions merkles;
  merkle_loop (Z.to_nat arraySize) arraySize 0 nextPoT merkles.

(** [bits.TrailingZeros32]. *)
Fixpoint trailing_zeros (fuel : nat) (x : Z) : nat :=
  match fuel with
  | O => O
  | S fuel' => if Z.odd x then O else S (trailing_zeros fuel' (x >>> 1))
  end.

Fixpoint branch_loop (o : nat) (ino idx : Z) (tree : slots) : outcome Empty_set slots :=
  match o with
  | O => mret []
  | S o' =>
    x ← or_panic (index tree (idx + Z.lxor ino 1));
    rest ← branch_loop o' (ino >>> 1) (idx + (1 <<< Z.of_nat o)) tree;
    mret (x :: rest)
  end.

Definition GetMerkleBranch (txIndex : Z) (tree : slots) : outcome Empty_set slots :=
  if len tree <? 2 then mret [] else
  let depth := trailing_zeros 32 (uint32 (Z.quot (len tree + 1) 2)) in
  branch_loop depth txIndex 0 tree.

(** The scan from the last output down. *)
Definition is_commitment (txOut : TxOut) : bool :=
  (CoinbaseWitnessPkScriptLength <=? len (to_PkScript txOut)) && bytes_prefixb WitnessMagicBytes (to_PkScript txOut).

Definition ExtractWitnessCommitment (tx : MsgTx) : outcome ruleerr (option bytes) :=
  if negb (IsCoinBase tx) then mret None else
  match filter (fun o => is_commitment o = true) (rev (tx_TxOut tx)) with
  | [] => mret None
  | o :: _ =>
    c ← or_panic (slice (to_PkScript o) (len WitnessMagicBytes) CoinbaseWitnessPkScriptLength);
    mret (Some c)
  end.

Definition no_err {A} (m : outcome Empty_set A) : outcome ruleerr A :=
  match m with Ret a => Ret a | Throw e => match e with end | Panic => Panic end.

(** [copy] into an array of zeros. *)
Definition preimage (root nonce : bytes) : bytes := take 64 (take 32 (root ++ repeat Byte.x00 32) ++ nonce ++ repeat Byte.x00 32).

Definition ValidateWitnessCommitment (txs : list MsgTx) : outcome ruleerr () :=
  if len txs =? 0 then mthrow ErrNoTransactions else
  coinbaseTx ← or_panic (index txs 0);
  match tx_TxIn coinbaseTx with
  | [] => mthrow ErrNoTxInputs
  | txIn :: _ =>
    c ← ExtractWitnessCommitment coinbaseTx;
    match c with
    | None => if existsb HasWitness txs then mthrow ErrUnexpectedWitness else mret ()
    | Some witnessCommitment =>
      let coinbaseWitness := witness txIn in
      match coinbaseWitness with
      | [witnessNonce] =>
        if negb (len witnessNonce =? CoinbaseWitnessDataLen) then mthrow ErrInvalidWitnessCommitment else
        witnessMerkleTree ← no_err (BuildMerkleTreeStore txs true);
        root ← or_panic (index witnessMerkleTree (len witnessMerkleTree - 1));
        witnessMerkleRoot ← or_panic root;
        let computedCommitment := DoubleHashB (preimage witnessMerkleRoot witnessNonce) in
        if negb (bytes_eqb computedCommitment witnessCommitment) then mthrow ErrWitnessCommitmentMismatch else mret ()
      | _ => mthrow ErrInvalidWitnessCommitment
      end
    end
  end.

(** * The reference tree *)

(** Induction two elements at a time. *)
Lemma pairs_ind {A} (P : list A -> Prop) :
  P [] -> (forall a, P [a]) -> (forall a b l, P l -> P (a :: b :: l)) -> forall l, P l.
Proof. intros H0 H1 H2. fix IH 1. intros [|a [|b l]]; [done|done|]. apply H2, IH. Qed.

(** One level up: adjacent hashes are combined, an odd one with itself. *)
Fixpoint level_up (l : list bytes) : list bytes :=
  match l with
  | a :: b :: l' => HashMerkleBranches a b :: level_up l'
  | [a] => [HashMerkleBranches a a]
  | [] => []
  end.

(** The root after at most [d] levels. *)
Fixpoint merkle_root (d : nat) (l : list bytes) : option bytes :=
  match d with
  | O => head l
  | S d' => merkle_root d' (level_up l)
  end.

(** ** The store is the levels one after the other *)

Definition combine (a b : option bytes) : option bytes :=
  match a with None => None | Some l => Some (HashMerkleBranches l (default l b)) end.

Fixpoint pair_up (l : slots) : slots :=
  match l with
  | a :: b :: l' => combine a b :: pair_up l'
  | _ => []
  end.

Fixpoint levels (d : nat) (l : slots) : slots :=
  match d with O => l | S d' => l ++ levels d' (pair_up l) end.

Definition padded (d : nat) (l : list bytes) : slots := map Some l ++ repeat None (2 ^ d - length l).

Lemma pair_up_length l m : length l = (2 * m)%nat -> length (pair_up l) = m.
Proof. revert l. induction m as [|m IH]; intros [|a [|b l]] Hl; cbn [length pair_up] in *; try lia. rewrite IH; lia. Qed.

Lemma set_slot_app (a c : slots) x y : set_slot (a ++ x :: c) (len a) y = Some (a ++ y :: c).
Proof.
  unfold set_slot. rewrite (proj2 (Z.leb_le 0 (len a))), (proj2 (Z.ltb_lt (len a) (len (a ++ x :: c)))) by len_lia. cbn [andb].
  f_equal. unfold len. rewrite Nat2Z.id. rewrite insert_app_r_alt by lia. by rewrite Nat.sub_diag.
Qed.

Lemma index_at {A} (a c : list A) x : index (a ++ x :: c) (len a) = Some x.
Proof. rewrite index_app_r, Z.sub_diag by lia. apply index_cons_0. Qed.

(** One round takes two slots and fills the next free one. *)
Lemma merkle_round f n pre a b mid x rest :
  len pre < n - 1 ->
  merkle_loop (S f) n (len pre) (len (pre ++ a :: b :: mid)) (pre ++ a :: b :: mid ++ x :: rest) =
  merkle_loop f n (len (pre ++ [a; b])) (len (pre ++ [a; b] ++ mid ++ [combine a b])) (pre ++ [a; b] ++ (mid ++ [combine a b]) ++ rest).
Proof.
  intros Hn. cbn [merkle_loop]. rewrite (proj2 (Z.ltb_lt (len pre) (n - 1))) by lia.
  rewrite index_at. cbn [or_panic mbind outcome_bind].
  replace (len pre + 1) with (len (pre ++ [a])) by len_lia.
  replace (index (pre ++ a :: b :: mid ++ x :: rest) (len (pre ++ [a]))) with (Some b) by (rewrite <- (index_at (pre ++ [a]) (mid ++ x :: rest) b), <- app_assoc; done).
  assert (forall p, set_slot (pre ++ a :: b :: mid ++ x :: rest) (len (pre ++ a :: b :: mid)) p = Some (pre ++ a :: b :: mid ++ p :: rest)) as Hs.
  { intros p. replace (pre ++ a :: b :: mid ++ x :: rest) with ((pre ++ a :: b :: mid) ++ x :: rest) by (by rewrite <- app_assoc).
    rewrite set_slot_app, <- app_assoc. done. }
  assert (len pre + 2 = len (pre ++ [a; b])) as -> by len_lia.
  assert (len (pre ++ a :: b :: mid) + 1 = len (pre ++ [a; b] ++ mid ++ [combine a b])) as -> by len_lia.
  assert (forall p, pre ++ a :: b :: mid ++ p :: rest = pre ++ [a; b] ++ (mid ++ [p]) ++ rest) as Ha by (intros; by rewrite <- (app_assoc mid)).
  destruct a as [l|]; [destruct b as [r|]|]; cbn [or_panic mbind outcome_bind mret outcome_ret combine default]; rewrite Hs; cbn [or_panic mbind outcome_bind]; by rewrite Ha.
Qed.

(** A whole level. *)
Lemma merkle_level m : forall f n pre l mid free rest,
  length l = (2 * m)%nat -> length free = m -> len pre + Z.of_nat (2 * m) <= n ->
  merkle_loop (m + f) n (len pre) (len (pre ++ l ++ mid)) (pre ++ l ++ mid ++ free ++ rest) =
  merkle_loop f n (len (pre ++ l)) (len (pre ++ l ++ mid ++ pair_up l)) (pre ++ l ++ mid ++ pair_up l ++ rest).
Proof.
  induction m as [|m IH]; intros f n pre l mid free rest Hl Hf Hn.
  { destruct l; [|simpl in Hl; lia]. destruct free; [|simpl in Hf; lia]. cbn [pair_up Nat.add app]. by rewrite !app_nil_r. }
  destruct l as [|a [|b l]]; cbn [length] in Hl; [lia..|]. destruct free as [|x free]; [done|]. cbn [length] in Hf.
  cbn [Nat.add]. change (pre ++ (a :: b :: l) ++ mid ++ (x :: free) ++ rest) with (pre ++ a :: b :: (l ++ mid ++ x :: free ++ rest)).
  rewrite (app_assoc l mid). change (pre ++ (a :: b :: l) ++ mid) with (pre ++ a :: b :: (l ++ mid)).
  rewrite merkle_round by lia.
  specialize (IH f n (pre ++ [a; b]) l (mid ++ [combine a b]) free rest). rewrite <- !app_assoc in IH |- *. rewrite IH by (try lia; len_lia).
  cbn [pair_up app]. rewrite <- !app_assoc. done.
Qed.

Lemma merkle_loop_done f n i off m : n - 1 <= i -> merkle_loop f n i off m = Ret m.
Proof. intros H. destruct f; [done|]. cbn [merkle_loop]. by rewrite (proj2 (Z.ltb_ge i (n - 1))) by lia. Qed.

(** All levels: the store of [2 ^ d] leaves. *)
Lemma merkle_levels d : forall f pre l rest n,
  length l = (2 ^ d)%nat -> len rest = 2 ^ Z.of_nat d - 1 -> n = len (pre ++ l ++ rest) -> (2 ^ d <= f)%nat ->
  merkle_loop f n (len pre) (len (pre ++ l)) (pre ++ l ++ rest) = Ret (pre ++ levels d l).
Proof.
  induction d as [|d IH]; intros f pre l rest n Hl Hr Hn Hf.
  { assert (rest = []) as -> by (apply len_0; simpl in Hr; lia). rewrite app_nil_r in *. cbn [levels].
    apply merkle_loop_done. subst n. cbn in Hl. unfold len. rewrite length_app, Hl. lia. }
  assert (2 ^ Z.of_nat (S d) = 2 * 2 ^ Z.of_nat d) as E2 by (rewrite Nat2Z.inj_succ, Z.pow_succ_r; lia).
  assert (Z.of_nat (2 ^ d) = 2 ^ Z.of_nat d) as Ez by (rewrite Nat2Z.inj_pow; done).
  cbn [Nat.pow] in *. assert (0 < 2 ^ Z.of_nat d) by (apply Z.pow_pos_nonneg; lia).
  set (m := (2 ^ d)%nat) in *. assert (Hlen : length rest = (m + (m - 1))%nat) by (unfold len in Hr; lia).
  rewrite <- (take_drop m rest) at 1. replace f with (m + (f - m))%nat by lia.
  pose proof (merkle_level m (f - m) n pre l [] (take m rest) (drop m rest)) as HL. cbn [app] in HL. rewrite app_nil_r in HL. rewrite HL; clear HL.
  2: lia. 2: rewrite length_take; lia. 2:{ subst n. rewrite !len_app. unfold len. lia. }
  cbn [levels]. rewrite !app_assoc. rewrite <- (app_assoc (pre ++ l) (pair_up l)). apply IH.
  - apply pair_up_length. lia.
  - unfold len. rewrite length_drop. lia.
  - subst n. rewrite !len_app. unfold len. rewrite (pair_up_length l m), length_drop by lia. lia.
  - lia.
Qed.

Lemma pair_up_padded d l : (length l <= 2 ^ S d)%nat -> pair_up (padded (S d) l) = padded d (level_up l).
Proof.
  unfold padded. replace (2 ^ S d)%nat with (2 ^ d + 2 ^ d)%nat by (simpl; lia). remember (2 ^ d)%nat as m eqn:Em. clear Em d. revert m.
  assert (forall k m, k = (m + m)%nat -> pair_up (repeat None k) = repeat None m) as Hrep.
  { intros k m. revert k. induction m as [|m IH]; intros k ->; [done|]. rewrite Nat.add_succ_r. cbn [Nat.add repeat pair_up combine]. by rewrite IH. }
  revert l. fix IH 1. intros [|a [|b l]] m Hl; cbn [length map app level_up] in *.
  - rewrite Nat.sub_0_r. rewrite (Hrep _ m) by lia. by rewrite Nat.sub_0_r.
  - destruct m as [|m]; [lia|]. replace (S m + S m - 1)%nat with (S (m + m)) by lia. cbn [repeat pair_up combine default].
    rewrite (Hrep _ m) by lia. simpl. by rewrite Nat.sub_0_r.
  - destruct m as [|m]; [lia|]. replace (S m + S m - S (S (length l)))%nat with (m + m - length l)%nat by lia. cbn [pair_up combine default].
    rewrite IH by lia. cbn [map app length]. done.
Qed.

Lemma level_up_length l : length (level_up l) = ((length l + 1) / 2)%nat.
Proof.
  revert l. fix IH 1. intros [|a [|b l]]; [done|done|]. cbn [level_up length]. rewrite IH.
  replace (S (S (length l)) + 1)%nat with (length l + 1 + 1 * 2)%nat by lia. rewrite Nat.div_add by lia. lia.
Qed.

Lemma level_up_bound d l : (0 < length l <= 2 ^ S d)%nat -> (0 < length (level_up l) <= 2 ^ d)%nat.
Proof.
  intros Hl. rewrite level_up_length. cbn [Nat.pow] in Hl. split; [apply Nat.div_str_pos; lia|]. apply Nat.lt_succ_r, Nat.Div0.div_lt_upper_bound; lia.
Qed.

Lemma levels_root d l : (0 < length l <= 2 ^ d)%nat -> exists t, levels d (padded d l) = t ++ [merkle_root d l].
Proof.
  revert l. induction d as [|d IH]; intros l Hl.
  - destruct l as [|a [|b l]]; cbn in Hl; [lia|by exists []|lia].
  - cbn [levels merkle_root]. rewrite pair_up_padded by lia. destruct (IH (level_up l)) as [t ->]; [by apply level_up_bound|].
    eexists. by rewrite app_assoc.
Qed.

(** ** The code builds the store *)

Lemma nextPowerOfTwo_spec n : 0 < n -> exists d, nextPowerOfTwo n = 2 ^ Z.of_nat d /\ n <= 2 ^ Z.of_nat d /\ (forall e, 0 <= e -> n <= 2 ^ e -> Z.of_nat d <= e).
Proof.
  intros Hn. unfold nextPowerOfTwo. destruct (Z.log2_spec n Hn) as [Hlo Hhi]. pose proof (Z.log2_nonneg n).
  set (k := Z.log2 n) in *. clearbody k. rewrite Z.pow_succ_r in Hhi by done.
  assert (n &&& (n - 1) = 0 <-> n = 2 ^ k) as Hp.
  { split.
    - intros E. destruct (Z.eq_dec n (2 ^ k)) as [|Hne]; [done|]. exfalso.
      assert (Z.testbit (n &&& (n - 1)) k = true) as Ht; [|by rewrite E, Z.testbit_0_l in Ht].
      rewrite Z.land_spec. assert (forall x, 2 ^ k <= x < 2 * 2 ^ k -> Z.testbit x k = true) as Hb.
      { intros x Hx. rewrite Z.testbit_true by done. replace (x / 2 ^ k) with 1; [done|]. apply Z.div_unique with (x - 2 ^ k); lia. }
      rewrite !Hb by lia. done.
    - intros En. rewrite En. clear En Hlo Hhi Hn n. apply Z.bits_inj'. intros i Hi. rewrite Z.land_spec, Z.testbit_0_l.
      destruct (Z.eq_dec i k) as [->|Hik].
      + replace (2 ^ k - 1) with (Z.ones k) by (rewrite Z.ones_equiv; lia). rewrite Z.ones_spec_high by lia. apply andb_false_r.
      + rewrite Z.pow2_bits_false by lia. done. }
  destruct (Z.eqb_spec (n &&& (n - 1)) 0) as [E|E].
  - apply Hp in E. exists (Z.to_nat k). rewrite Z2Nat.id by done. split; [done|]. split; [lia|].
    intros e He Hle. rewrite E in Hle. by apply Z.pow_le_mono_r_iff in Hle.
  - exists (Z.to_nat (k + 1)). rewrite Z2Nat.id by lia. rewrite Z.shiftl_mul_pow2, Z.mul_1_l by lia. split; [done|].
    rewrite Z.pow_add_r by lia. split; [lia|]. intros e He Hle.
    assert (2 ^ k < 2 ^ e) as Hlt by (assert (n <> 2 ^ k) by tauto; lia). apply Z.pow_lt_mono_r_iff in Hlt; lia.
Qed.

Definition leaves (witness : bool) (txs : list MsgTx) : list bytes := imap (leaf witness) txs.

Lemma fill_leaves_spec w txs : forall i pre free rest, length pre = i -> length free = length txs ->
  fill_leaves w i txs (pre ++ free ++ rest) = Ret (pre ++ map Some (imap (fun k => leaf w (i + k)) txs) ++ rest).
Proof.
  induction txs as [|tx txs IH]; intros i pre free rest Hi Hf.
  { destruct free; [done|simpl in Hf; lia]. }
  destruct free as [|x free]; [simpl in Hf; lia|]. cbn [length] in Hf. cbn [fill_leaves app imap map].
  replace (Z.of_nat i) with (len pre) by (unfold len; lia). rewrite set_slot_app. cbn [or_panic mbind outcome_bind].
  specialize (IH (S i) (pre ++ [Some (leaf w i tx)]) free rest). rewrite <- !app_assoc in IH. cbn [app] in IH. rewrite IH; [|rewrite length_app; simpl; lia|lia].
  rewrite Nat.add_0_r. do 5 f_equal. apply imap_ext. intros k y _. simpl. by rewrite Nat.add_succ_r.
Qed.

Lemma length_leaves w txs : length (leaves w txs) = length txs.
Proof. apply length_imap. Qed.

(** The store is the levels of the tree over the hashes of the transactions. *)
Lemma tree_store_spec w txs : txs <> [] -> exists d, (length txs <= 2 ^ d)%nat /\ len txs <= 2 ^ Z.of_nat d /\
  (forall e, 0 <= e -> len txs <= 2 ^ e -> Z.of_nat d <= e) /\
  BuildMerkleTreeStore txs w = Ret (levels d (padded d (leaves w txs))).
Proof.
  intros Hne. assert (0 < len txs) as Hlen. { destruct txs; [done|len_lia]. }
  destruct (nextPowerOfTwo_spec (len txs) Hlen) as (d & Ep & Hle & Hmin). exists d.
  assert (Z.of_nat (2 ^ d) = 2 ^ Z.of_nat d) as Ez by (rewrite Nat2Z.inj_pow; done).
  assert (length txs <= 2 ^ d)%nat as Hle' by (unfold len in Hle; lia). split; [done|]. split; [done|]. split; [done|].
  unfold BuildMerkleTreeStore. rewrite Ep. cbv zeta. assert (0 < 2 ^ Z.of_nat d) by lia. rewrite (proj2 (Z.ltb_ge (2 ^ Z.of_nat d * 2 - 1) 0)) by lia.
  cbn [mbind outcome_bind mret outcome_ret]. set (n := 2 ^ Z.of_nat d * 2 - 1).
  assert (repeat (@None bytes) (Z.to_nat n) = [] ++ repeat None (length txs) ++ (repeat None (2 ^ d - length txs) ++ repeat None (2 ^ d - 1))) as ->.
  { cbn [app]. rewrite <- !repeat_app. f_equal. lia. }
  rewrite fill_leaves_spec; [|done|by rewrite repeat_length]. cbn [app mbind outcome_bind]. change (fun k => leaf w (0 + k)) with (leaf w). fold (leaves w txs).
  rewrite app_assoc. pose proof (length_leaves w txs) as HL.
  assert (length (map Some (leaves w txs) ++ repeat None (2 ^ d - length txs)) = (2 ^ d)%nat) as Hpl by (rewrite length_app, length_map, repeat_length; lia).
  pose proof (merkle_levels d (Z.to_nat n) [] (map Some (leaves w txs) ++ repeat None (2 ^ d - length txs)) (repeat None (2 ^ d - 1)) n) as HM.
  cbn [app] in HM. change (len []) with 0 in HM. 
  assert (len (map Some (leaves w txs) ++ repeat None (2 ^ d - length txs)) = 2 ^ Z.of_nat d) as Hpz by (unfold len; by rewrite Hpl).
  rewrite Hpz in HM. unfold padded. rewrite HL. apply HM; [done| | |].
  - unfold len. rewrite repeat_length. lia.
  - rewrite len_app. unfold len. rewrite Hpl, repeat_length. lia.
  - lia.
Qed.

(** ** Authentication paths *)

(** The root that a path proves for a hash at an index; where the sibling is missing
    the hash is its own sibling. *)
Fixpoint verify (i : Z) (h : bytes) (branch : slots) : bytes :=
  match branch with
  | [] => h
  | s :: branch' =>
    verify (i >>> 1) (if Z.odd i then HashMerkleBranches (default h s) h else HashMerkleBranches h (default h s)) branch'
  end.

Definition sibling (i : nat) : nat := if Nat.odd i then (i - 1)%nat else (i + 1)%nat.

Lemma lxor_sibling i : Z.lxor (Z.of_nat i) 1 = Z.of_nat (sibling i).
Proof.
  assert (forall k, Z.lxor (2 * k) 1 = 2 * k + 1) as He.
  { intros k. apply Z.bits_inj'. intros n Hn. rewrite Z.lxor_spec. destruct (Z.eq_dec n 0) as [->|].
    - rewrite Z.testbit_even_0, Z.testbit_odd_0. done.
    - replace n with (Z.succ (n - 1)) by lia. rewrite Z.testbit_even_succ, Z.testbit_odd_succ by lia.
      rewrite (Z.bits_above_log2 1) by (simpl; lia). apply xorb_false_r. }
  assert (forall k, Z.lxor (2 * k + 1) 1 = 2 * k) as Ho by (intros k; by rewrite <- He, Z.lxor_assoc, Z.lxor_nilpotent, Z.lxor_0_r).
  unfold sibling. destruct (Nat.odd i) eqn:E.
  - apply Nat.odd_spec in E as [k ->]. replace (Z.of_nat (2 * k + 1)) with (2 * Z.of_nat k + 1) by lia. rewrite Ho. lia.
  - assert (Nat.even i = true) as E' by (rewrite <- Nat.negb_odd, E; done). apply Nat.even_spec in E' as [k ->].
    replace (Z.of_nat (2 * k)) with (2 * Z.of_nat k) by lia. rewrite He. lia.
Qed.

Lemma level_up_lookup hs : forall i h, hs !! i = Some h ->
  level_up hs !! (i / 2)%nat = Some (if Nat.odd i then HashMerkleBranches (default h (hs !! sibling i)) h else HashMerkleBranches h (default h (hs !! sibling i))).
Proof.
  revert hs. fix IH 1. intros [|a [|b hs]] i h; [done| |].
  - destruct i as [|i]; [|done]. by intros [= <-].
  - destruct i as [|[|i]]; [by intros [= <-]|by intros [= <-]|].
    change ((a :: b :: hs) !! S (S i)) with (hs !! i). intros Hi.
    replace (S (S i) / 2)%nat with (S (i / 2)) by (replace (S (S i)) with (i + 1 * 2)%nat by lia; rewrite Nat.div_add by lia; lia).
    change (level_up (a :: b :: hs) !! S (i / 2)%nat) with (level_up hs !! (i / 2)%nat). rewrite (IH hs i h Hi). unfold sibling. change (Nat.odd (S (S i))) with (Nat.odd i).
    destruct (Nat.odd i) eqn:Ho; [|done]. destruct i as [|i]; [done|].
    replace (S (S (S i)) - 1)%nat with (S (S i)) by lia. by replace (S i - 1)%nat with i by lia.
Qed.

Fixpoint path (d i : nat) (l : slots) : slots :=
  match d with O => [] | S d' => default None (l !! sibling i) :: path d' (i / 2) (pair_up l) end.

Lemma padded_length d l : (length l <= 2 ^ d)%nat -> length (padded d l) = (2 ^ d)%nat.
Proof. intros Hl. unfold padded. rewrite length_app, length_map, repeat_length. lia. Qed.

Lemma padded_lookup d l i : (i < 2 ^ d)%nat -> default None (padded d l !! i) = l !! i.
Proof.
  intros Hi. unfold padded. destruct (decide (i < length l)%nat).
  - rewrite lookup_app_l by (rewrite length_map; lia). rewrite list_lookup_fmap. by destruct (l !! i).
  - rewrite lookup_app_r by (rewrite length_map; lia). rewrite length_map, (lookup_ge_None_2 l i) by lia.
    destruct (repeat None _ !! _) eqn:E; [|done]. apply list_elem_of_lookup_2, list_elem_of_In, repeat_spec in E. by subst.
Qed.

Lemma sibling_bound d i : (i < 2 ^ S d)%nat -> (sibling i < 2 ^ S d)%nat.
Proof.
  intros Hi. unfold sibling. destruct (Nat.odd i) eqn:E; [lia|].
  assert (Nat.even i = true) as E' by (rewrite <- Nat.negb_odd, E; done). apply Nat.even_spec in E' as [k ->].
  cbn [Nat.pow] in *. lia.
Qed.

Lemma verify_path d : forall hs i h, (length hs <= 2 ^ d)%nat -> hs !! i = Some h ->
  Some (verify (Z.of_nat i) h (path d i (padded d hs))) = merkle_root d hs.
Proof.
  induction d as [|d IH]; intros hs i h Hl Hi.
  - destruct hs as [|a [|b hs]]; cbn in Hl; [done| |lia]. destruct i; [|done]. by injection Hi as ->.
  - pose proof (lookup_lt_Some _ _ _ Hi) as Hlt. cbn [path verify merkle_root].
    rewrite pair_up_padded, padded_lookup by (try apply sibling_bound; lia).
    replace (Z.of_nat i >>> 1) with (Z.of_nat (i / 2)) by (rewrite Z.shiftr_div_pow2, Nat2Z.inj_div by lia; done).
    replace (Z.odd (Z.of_nat i)) with (Nat.odd i).
    + apply IH; [|by apply level_up_lookup]. apply level_up_bound. lia.
    + destruct (Nat.odd i) eqn:E.
      * apply Nat.odd_spec in E as [k ->]. symmetry. apply Z.odd_spec. exists (Z.of_nat k). lia.
      * symmetry. rewrite <- Z.negb_even. apply negb_false_iff, Z.even_spec.
        assert (Nat.even i = true) as E' by (rewrite <- Nat.negb_odd, E; done). apply Nat.even_spec in E' as [k ->]. exists (Z.of_nat k). lia.
Qed.

Lemma branch_loop_spec d : forall i l pre, length l = (2 ^ d)%nat -> (i < 2 ^ d)%nat ->
  branch_loop d (Z.of_nat i) (len pre) (pre ++ levels d l) = Ret (path d i l).
Proof.
  induction d as [|d IH]; intros i l pre Hl Hi; [done|]. cbn [branch_loop levels path]. rewrite lxor_sibling.
  pose proof (sibling_bound d i Hi) as Hs. destruct (lookup_lt_is_Some_2 l (sibling i)) as [x Hx]; [lia|].
  assert (index (pre ++ l ++ levels d (pair_up l)) (len pre + Z.of_nat (sibling i)) = Some x) as ->.
  { rewrite index_app_r by lia. replace (len pre + Z.of_nat (sibling i) - len pre) with (Z.of_nat (sibling i)) by lia.
    rewrite index_app_l by (unfold len; lia). unfold index. rewrite (proj2 (Z.leb_le 0 (Z.of_nat (sibling i)))) by lia. by rewrite Nat2Z.id. }
  cbn [or_panic mbind outcome_bind].
  replace (Z.of_nat i >>> 1) with (Z.of_nat (i / 2)) by (rewrite Z.shiftr_div_pow2, Nat2Z.inj_div by lia; done).
  replace (len pre + (1 <<< Z.of_nat (S d))) with (len (pre ++ l)).
  2:{ rewrite len_app, Z.shiftl_mul_pow2, Z.mul_1_l by lia. unfold len at 2. rewrite Hl, Nat2Z.inj_pow. done. }
  rewrite app_assoc, IH; [|apply pair_up_length; cbn [Nat.pow] in Hl; lia|].
  - rewrite Hx. done.
  - cbn [Nat.pow] in Hi. apply Nat.Div0.div_lt_upper_bound. lia.
Qed.

Lemma levels_length d : forall l, length l = (2 ^ d)%nat -> len (levels d l) + 1 = 2 * 2 ^ Z.of_nat d.
Proof.
  induction d as [|d IH]; intros l Hl; cbn [levels].
  - unfold len. rewrite Hl. done.
  - cbn [Nat.pow] in Hl. rewrite len_app, <- Z.add_assoc, IH by (apply pair_up_length; lia). unfold len. rewrite Hl.
    rewrite Nat2Z.inj_succ, Z.pow_succ_r by lia. assert (Z.of_nat (2 ^ d) = 2 ^ Z.of_nat d) by (rewrite Nat2Z.inj_pow; done). lia.
Qed.

Lemma trailing_zeros_pow f d : (d < f)%nat -> trailing_zeros f (2 ^ Z.of_nat d) = d.
Proof.
  revert d. induction f as [|f IH]; intros d Hd; [lia|]. cbn [trailing_zeros]. destruct d as [|d]; [done|].
  rewrite Nat2Z.inj_succ, Z.pow_succ_r, Z.odd_mul by lia. cbn [Z.odd andb]. rewrite Z.shiftr_div_pow2 by lia.
  change (2 ^ 1) with 2. rewrite Z.mul_comm, Z.div_mul by lia. rewrite IH; lia.
Qed.

Lemma GetMerkleBranch_spec d l i : length l = (2 ^ d)%nat -> (i < 2 ^ d)%nat -> (d < 32)%nat ->
  GetMerkleBranch (Z.of_nat i) (levels d l) = Ret (path d i l).
Proof.
  intros Hl Hi Hd. unfold GetMerkleBranch. pose proof (levels_length d l Hl) as HL. destruct d as [|d].
  { rewrite (proj2 (Z.ltb_lt (len (levels 0 l)) 2)); [done|]. change (2 ^ Z.of_nat 0) with 1 in HL. lia. }
  pose proof (Z.pow_pos_nonneg 2 (Z.of_nat d) ltac:(lia) ltac:(lia)).
  assert (2 * 2 ^ Z.of_nat (S d) >= 4) by (rewrite Nat2Z.inj_succ, Z.pow_succ_r by lia; lia).
  rewrite (proj2 (Z.ltb_ge (len (levels (S d) l)) 2)) by lia. cbv zeta. rewrite HL.
  rewrite Z.quot_div_nonneg, Z.mul_comm, Z.div_mul by lia. rewrite uwrap_small.
  - rewrite trailing_zeros_pow by lia. exact (branch_loop_spec (S d) i l [] Hl Hi).
  - split; [lia|]. apply Z.pow_lt_mono_r; lia.
Qed.

(** C27: for a block with transactions the tree store is built without a panic, its
    last entry is the root of the tree over the hashes of the transactions, where an
    odd hash is combined with itself, and the branch of every transaction proves the
    root. *)
Theorem merkle_tree (txs : list MsgTx) (w : bool) (Hne : txs <> []) (Hlen : len txs < 2 ^ 31) :
  exists d tree root,
    BuildMerkleTreeStore txs w = Ret tree /\ len tree = 2 * 2 ^ Z.of_nat d - 1 /\ len txs <= 2 ^ Z.of_nat d /\
    index tree (len tree - 1) = Some (Some root) /\ merkle_root d (leaves w txs) = Some root /\
    forall i h, leaves w txs !! i = Some h ->
      exists branch, GetMerkleBranch (Z.of_nat i) tree = Ret branch /\ length branch = d /\ verify (Z.of_nat i) h branch = root.
Proof.
  destruct (tree_store_spec w txs Hne) as (d & Hle & Hlez & Hmin & E). pose proof (length_leaves w txs) as HL.
  assert (0 < length (leaves w txs) <= 2 ^ d)%nat as Hb by (split; [rewrite HL; destruct txs; [done|simpl; lia]|lia]).
  pose proof (Hmin 31 ltac:(lia) ltac:(lia)) as Hd.
  assert (exists h0, leaves w txs !! 0%nat = Some h0) as [h0 Hh0] by (apply lookup_lt_is_Some_2; lia).
  pose proof (verify_path d _ _ _ (proj2 Hb) Hh0) as Hv0.
  exists d, (levels d (padded d (leaves w txs))), (verify (Z.of_nat 0) h0 (path d 0 (padded d (leaves w txs)))). split; [done|].
  pose proof (padded_length d (leaves w txs) (proj2 Hb)) as HP. pose proof (levels_length d _ HP).
  split; [lia|]. split; [done|]. destruct (levels_root d _ Hb) as [t Et]. split; [rewrite Et, index_last; by rewrite Hv0|]. split; [done|].
  intros i h Hi. pose proof (lookup_lt_Some _ _ _ Hi). eexists. split; [apply GetMerkleBranch_spec; [done|lia|lia]|].
  split; [|pose proof (verify_path d _ _ _ (proj2 Hb) Hi); congruence].
  clear. generalize (padded d (leaves w txs)). revert i. induction d as [|d IH]; intros i l; [done|]. cbn [path length]. by rewrite IH.
Qed.

Lemma merkle_tree_witness :
  let tx := mkMsgTx 1 [] [] 0 [] in
  exists d tree root, BuildMerkleTreeStore [tx; tx; tx] false = Ret tree /\ index tree (len tree - 1) = Some (Some root) /\
    merkle_root d (leaves false [tx; tx; tx]) = Some root.
Proof.
  intros tx. destruct (merkle_tree [tx; tx; tx] false) as (d & tree & root & H1 & _ & _ & H2 & H3 & _); [done|vm_compute; reflexivity|].
  by exists d, tree, root.
Defined.

(** ** The root binds the transactions *)

(** The strings that are hashed on the way to the root. *)
Fixpoint pair_inputs (l : list bytes) : list bytes :=
  match l with
  | a :: b :: l' => (a ++ b) :: pair_inputs l'
  | [a] => [a ++ a]
  | [] => []
  end.

Fixpoint preimages (d : nat) (l : list bytes) : list bytes :=
  match d with O => [] | S d' => pair_inputs l ++ preimages d' (level_up l) end.

Lemma level_up_inputs l : level_up l = map DoubleHashB (pair_inputs l).
Proof. induction l as [|a|a b l IH] using pairs_ind; [done|done|]. cbn [level_up pair_inputs map]. by rewrite IH. Qed.

Definition no_collision (l : list bytes) : Prop := forall x y, x ∈ l -> y ∈ l -> DoubleHashB x = DoubleHashB y -> x = y.

Lemma pair_inputs_elem l x : x ∈ pair_inputs l -> exists a b, x = a ++ b /\ a ∈ l /\ b ∈ l.
Proof.
  induction l as [|a|a b l IH] using pairs_ind; cbn [pair_inputs]; rewrite ?elem_of_cons, ?elem_of_nil.
  - done.
  - intros [->|[]]. exists a, a. set_solver.
  - intros [->|Hx]; [exists a, b; set_solver|]. destruct (IH Hx) as (p & q & -> & ? & ?). exists p, q. set_solver.
Qed.

Lemma app_inj_hash (a b c d : bytes) : length a = length c -> a ++ b = c ++ d -> a = c /\ b = d.
Proof. apply app_inj_1. Qed.

Lemma pair_inputs_NoDup l : Forall (fun h => length h = 32%nat) l -> NoDup l -> NoDup (pair_inputs l).
Proof.
  induction l as [|a|a b l IH] using pairs_ind; intros HF HN; cbn [pair_inputs]; [constructor|constructor; [by apply not_elem_of_nil|constructor]|].
  apply Forall_cons_iff in HF as [Ha HF]. apply Forall_cons_iff in HF as [Hb HF]. apply list.NoDup_cons in HN as [Na HN]. apply list.NoDup_cons in HN as [Nb HN].
  constructor; [|by apply IH]. intros (p & q & E & Hp & Hq)%pair_inputs_elem. rewrite Forall_forall in HF.
  apply app_inj_hash in E as [-> ->]; [|rewrite Ha; symmetry; apply HF; by apply list_elem_of_In]. set_solver.
Qed.

Lemma pair_inputs_inj l1 l2 : Forall (fun h => length h = 32%nat) l1 -> Forall (fun h => length h = 32%nat) l2 -> NoDup l1 -> NoDup l2 ->
  pair_inputs l1 = pair_inputs l2 -> l1 = l2.
Proof.
  revert l2. induction l1 as [|a|a b l1 IH] using pairs_ind; intros [|c [|d l2]] H1 H2 N1 N2 E; cbn [pair_inputs] in E; try done;
    repeat match goal with H : Forall _ (_ :: _) |- _ => apply Forall_cons_iff in H as [? H] end.
  - injection E as E. apply app_inj_hash in E as [-> _]; [done|congruence].
  - injection E as E E'. apply app_inj_hash in E as [-> ->]; [|congruence]. exfalso. apply list.NoDup_cons in N2 as [N2 _]. set_solver.
  - injection E as E E'. apply app_inj_hash in E as [-> ->]; [|congruence]. exfalso. apply list.NoDup_cons in N1 as [N1 _]. set_solver.
  - injection E as E E'. apply app_inj_hash in E as [-> ->]; [|congruence]. apply list.NoDup_cons in N1 as [_ N1], N2 as [_ N2].
    apply list.NoDup_cons in N1 as [_ N1], N2 as [_ N2]. f_equal. f_equal. by apply IH.
Qed.

Lemma map_inj_on {A B} (f : A -> B) xs ys :
  (forall x y, x ∈ xs ++ ys -> y ∈ xs ++ ys -> f x = f y -> x = y) -> map f xs = map f ys -> xs = ys.
Proof.
  revert ys. induction xs as [|x xs IH]; intros [|y ys] Hc E; try done. cbn [map] in E. injection E as E1 E2.
  rewrite (Hc x y) by (done || set_solver). f_equal. apply IH; [|done]. intros a b Ha Hb. apply Hc; set_solver.
Qed.

Lemma NoDup_map_on {A B} (f : A -> B) xs : (forall x y, x ∈ xs -> y ∈ xs -> f x = f y -> x = y) -> NoDup xs -> NoDup (map f xs).
Proof.
  intros Hc HN. induction HN as [|x xs Hx HN IH]; [constructor|]. cbn [map]. constructor.
  - rewrite list_elem_of_fmap. intros (y & E & Hy). apply Hx. rewrite (Hc x y) by (done || set_solver). done.
  - apply IH. intros a b Ha Hb. apply Hc; set_solver.
Qed.

Lemma length_sha256 b : length (sha256 b) = 32%nat.
Proof. pose proof (len_sha256 b) as H. unfold len in H. lia. Qed.

Lemma level_up_32 l : Forall (fun h => length h = 32%nat) (level_up l).
Proof. rewrite level_up_inputs. apply Forall_map, Forall_true. intros x. apply length_sha256. Qed.

(** Without duplicates and collisions the root determines the leaves of a tree of
    a given height. *)
Lemma merkle_root_inj d : forall l1 l2,
  Forall (fun h => length h = 32%nat) l1 -> Forall (fun h => length h = 32%nat) l2 -> NoDup l1 -> NoDup l2 ->
  (0 < length l1 <= 2 ^ d)%nat -> (0 < length l2 <= 2 ^ d)%nat -> no_collision (preimages d l1 ++ preimages d l2) ->
  merkle_root d l1 = merkle_root d l2 -> l1 = l2.
Proof.
  induction d as [|d IH]; intros l1 l2 H1 H2 N1 N2 B1 B2 Hc E.
  - destruct l1 as [|a [|a' l1]]; [cbn in B1; lia| |cbn in B1; lia]. destruct l2 as [|b [|b' l2]]; [cbn in B2; lia| |cbn in B2; lia].
    by injection E as ->.
  - cbn [merkle_root preimages] in *. apply pair_inputs_inj; [exact H1|exact H2|exact N1|exact N2|]. apply (map_inj_on DoubleHashB).
    { intros x y Hx Hy. apply Hc; set_solver. }
    rewrite <- !level_up_inputs. apply IH; try apply level_up_32; try by apply level_up_bound.
    + rewrite level_up_inputs. apply (NoDup_map_on DoubleHashB); [intros x y Hx Hy; apply Hc; set_solver|by apply pair_inputs_NoDup].
    + rewrite level_up_inputs. apply (NoDup_map_on DoubleHashB); [intros x y Hx Hy; apply Hc; set_solver|by apply pair_inputs_NoDup].
    + intros x y Hx Hy. apply Hc; set_solver.
    + exact E.
Qed.

(** Duplicates break this: a repeated last leaf does not change the root. *)
Lemma merkle_root_ambiguous a b c : merkle_root 2 [a; b; c] = merkle_root 2 [a; b; c; c].
Proof. reflexivity. Qed.
