(* ===== verification/Difficulty.v ===== *)
(** Proof-of-work targets (src/blockchain/difficulty.go): the compact representation
    of a target, the work of a block, and the value of a hash. *)

From S2P Require Import Prelude Sha Btcec BtcecProps.

Definition oneLsh256 : Z := 1 <<< 256.

(** The bytes are reversed in a copy and read as a big-endian number. *)
Definition HashToBig (hash : bytes) : Z := bigSetBytes (rev hash).

Definition CompactToBig (compact : Z) : Z :=
  let mantissa := compact &&& 0x007fffff in
  let isNegative := negb (compact &&& 0x00800000 =? 0) in
  let exponent := compact >>> 24 in
  let bn :=
    if exponent <=? 3 then mantissa >>> (8 * (3 - exponent))
    else mantissa <<< (8 * (exponent - 3)) in
  if isNegative then - bn else bn.

(** [Bits()[0]] is the lowest word of the absolute value; [Rsh] of a negative number
    rounds down. *)
Definition BigToCompact (n : Z) : Z :=
  if Z.sgn n =? 0 then 0 else
  let exponent := len (bigBytes n) in
  let mantissa :=
    if exponent <=? 3 then uint32 (uint32 (uint64 (Z.abs n)) <<< (8 * (3 - exponent)))
    else uint32 (uint64 (Z.abs (n >>> (8 * (exponent - 3))))) in
  let '(mantissa, exponent) :=
    if negb (mantissa &&& 0x00800000 =? 0) then (mantissa >>> 8, exponent + 1) else (mantissa, exponent) in
  let compact := uint32 (exponent <<< 24) ||| mantissa in
  if Z.sgn n <? 0 then compact ||| 0x00800000 else compact.

Definition CalcWork (bits : Z) : Z :=
  let difficultyNum := CompactToBig bits in
  if Z.sgn difficultyNum <=? 0 then 0 else
  let denominator := difficultyNum + 1 in
  oneLsh256 / denominator.

(** * The compact representation *)

(** The parts of a compact number without a sign. *)
Lemma CompactToBig_parts e m : 0 <= e < 256 -> 0 <= m < 2 ^ 23 ->
  CompactToBig (e * 2 ^ 24 + m) = if e <=? 3 then m >>> (8 * (3 - e)) else m <<< (8 * (e - 3)).
Proof.
  intros He Hm. unfold CompactToBig.
  change 0x007fffff with (Z.ones 23). rewrite Z.land_ones by lia.
  replace ((e * 2 ^ 24 + m) mod 2 ^ 23) with m by (rewrite Z.add_comm; replace (e * 2 ^ 24) with (2 * e * 2 ^ 23) by lia; rewrite Z.mod_add, Z.mod_small; lia).
  replace ((e * 2 ^ 24 + m) &&& 0x00800000) with 0.
  - cbn [Z.eqb negb]. rewrite Z.shiftr_div_pow2 by lia. replace ((e * 2 ^ 24 + m) / 2 ^ 24) with e; [done|].
    rewrite Z.add_comm, Z.div_add, Z.div_small by lia. lia.
  - symmetry. apply Z.bits_inj'. intros n Hn. rewrite Z.land_spec, Z.testbit_0_l. change 0x00800000 with (2 ^ 23).
    destruct (Z.eq_dec n 23) as [->|]; [|rewrite (Z.pow2_bits_false 23 n), andb_false_r by lia; done].
    replace (e * 2 ^ 24 + m) with (m + (2 * e) * 2 ^ 23) by lia.
    rewrite Z.testbit_eqb by lia. rewrite Z.div_add, Z.div_small by lia. rewrite Z.add_0_l, Z.mul_comm, Z.mod_mul by lia. done.
Qed.

(** The length in bytes bounds a number. *)
Lemma bigBytes_len n : 0 < n -> let e := len (bigBytes n) in 1 <= e /\ 256 ^ (e - 1) <= n < 256 ^ e.
Proof.
  intros Hn. destruct (bigBytes_spec n Hn) as (b0 & l & -> & _ & _ & Hr). cbv zeta. rewrite len_cons.
  replace (1 + len l - 1) with (len l) by lia. split; [len_lia|done].
Qed.

Lemma land_bit23 m : 0 <= m < 2 ^ 24 -> (m &&& 0x00800000 =? 0) = (m <? 2 ^ 23).
Proof.
  intros Hm. change 0x00800000 with (2 ^ 23). destruct (Z.ltb_spec m (2 ^ 23)) as [H|H].
  - apply Z.eqb_eq. apply Z.bits_inj'. intros n Hn. rewrite Z.land_spec, Z.testbit_0_l.
    destruct (Z.eq_dec n 23) as [->|]; [|rewrite (Z.pow2_bits_false 23 n), andb_false_r by lia; done].
    rewrite (pow2_bits_above m 23) by lia. done.
  - apply Z.eqb_neq. intros E. assert (Z.testbit (m &&& 2 ^ 23) 23 = true) as Ht; [|by rewrite E, Z.testbit_0_l in Ht].
    rewrite Z.land_spec, Z.pow2_bits_true, andb_true_r by lia. rewrite Z.testbit_true by lia.
    replace (m / 2 ^ 23) with 1; [done|]. apply Z.div_unique with (m - 2 ^ 23); lia.
Qed.

Lemma compact_assemble e m : 0 <= e < 256 -> 0 <= m < 2 ^ 24 -> uint32 (e <<< 24) ||| m = e * 2 ^ 24 + m.
Proof.
  intros He Hm. rewrite Z.shiftl_mul_pow2 by lia. rewrite uwrap_small by lia. rewrite Z.lor_comm, lor_add_pow2 by lia. lia.
Qed.

(** The exponent and the mantissa of a number: the mantissa has 16 to 23 bits. *)
Definition compact_of (n e m : Z) : Prop :=
  2 ^ 15 <= m < 2 ^ 23 /\ if e <=? 3 then m = n * 256 ^ (3 - e) else m = n / 256 ^ (e - 3).

Lemma BigToCompact_of n : 0 < n < 256 ^ 250 -> exists e m, BigToCompact n = e * 2 ^ 24 + m /\ 1 <= e <= 251 /\ compact_of n e m.
Proof.
  intros Hn. destruct (bigBytes_len n ltac:(lia)) as [He Hb]. unfold BigToCompact. rewrite Z.sgn_pos by lia. cbn [Z.eqb Z.ltb Z.compare].
  set (e := len (bigBytes n)) in *. assert (e <= 250) as He2.
  { destruct (Z.le_gt_cases e 250); [done|]. pose proof (Z.pow_le_mono_r 256 250 (e - 1) ltac:(lia) ltac:(lia)). lia. }
  clearbody e. cbv zeta.
  assert (exists m, (if e <=? 3 then uint32 (uint32 (uint64 (Z.abs n)) <<< (8 * (3 - e))) else uint32 (uint64 (Z.abs (n >>> (8 * (e - 3)))))) = m /\
    2 ^ 16 <= m < 2 ^ 24 /\ if e <=? 3 then m = n * 256 ^ (3 - e) else m = n / 256 ^ (e - 3)) as (m & -> & Hm & Em).
  { destruct (Z.leb_spec e 3) as [H3|H3].
    - exists (n * 256 ^ (3 - e)). assert (2 ^ 16 <= n * 256 ^ (3 - e) < 2 ^ 24) as Hr.
      { assert (256 ^ e * 256 ^ (3 - e) = 2 ^ 24) by (rewrite <- Z.pow_add_r by lia; by replace (e + (3 - e)) with 3 by lia).
        assert (256 ^ (e - 1) * 256 ^ (3 - e) = 2 ^ 16) by (rewrite <- Z.pow_add_r by lia; by replace (e - 1 + (3 - e)) with 2 by lia).
        pose proof (Z.pow_pos_nonneg 256 (3 - e) ltac:(lia) ltac:(lia)). nia. }
      pose proof (Z.pow_le_mono_r 256 e 3 ltac:(lia) ltac:(lia)). rewrite Z.abs_eq, (uwrap_small 64 n), (uwrap_small 32 n) by lia.
      rewrite Z.shiftl_mul_pow2 by lia. rewrite Z.pow_mul_r by lia. change (2 ^ 8) with 256. rewrite uwrap_small by lia. done.
    - exists (n / 256 ^ (e - 3)). rewrite Z.shiftr_div_pow2 by lia. rewrite Z.pow_mul_r by lia. change (2 ^ 8) with 256.
      pose proof (Z.pow_pos_nonneg 256 (e - 3) ltac:(lia) ltac:(lia)) as Hp.
      assert (256 ^ e = 2 ^ 24 * 256 ^ (e - 3)) by (change (2 ^ 24) with (256 ^ 3); rewrite <- Z.pow_add_r by lia; f_equal; lia).
      assert (256 ^ (e - 1) = 2 ^ 16 * 256 ^ (e - 3)) by (change (2 ^ 16) with (256 ^ 2); rewrite <- Z.pow_add_r by lia; f_equal; lia).
      assert (2 ^ 16 <= n / 256 ^ (e - 3) < 2 ^ 24) as Hr by (split; [apply Z.div_le_lower_bound; lia|apply Z.div_lt_upper_bound; lia]).
      rewrite Z.abs_eq, (uwrap_small 64), (uwrap_small 32) by lia. done. }
  rewrite land_bit23 by lia. destruct (Z.ltb_spec m (2 ^ 23)) as [Hlt|Hge]; cbn [negb].
  - exists e, m. rewrite compact_assemble by lia. repeat split; [lia|lia|lia|lia|done].
  - exists (e + 1), (m / 256). rewrite Z.shiftr_div_pow2 by lia. change (2 ^ 8) with 256. rewrite compact_assemble by lia.
    split; [done|]. split; [lia|]. split; [lia|]. clear Hn Hb. destruct (Z.leb_spec e 3) as [H3|H3].
    + destruct (Z.leb_spec (e + 1) 3) as [H4|H4].
      * rewrite Em. replace (3 - e) with (3 - (e + 1) + 1) by lia. rewrite Z.pow_add_r, Z.pow_1_r, Z.mul_assoc, Z.div_mul by lia. done.
      * assert (e = 3) as -> by lia. rewrite Em. change (256 ^ (3 - 3)) with 1. by rewrite Z.mul_1_r.
    + rewrite (proj2 (Z.leb_gt (e + 1) 3)) by lia. rewrite Em. replace (e + 1 - 3) with (e - 3 + 1) by lia.
      pose proof (Z.pow_pos_nonneg 256 (e - 3) ltac:(lia) ltac:(lia)). rewrite Z.pow_add_r, Z.pow_1_r, Z.div_div by lia. done.
Qed.

(** The value of an exponent and a mantissa, scaled to an integer. *)
Lemma compact_of_bounds n e m : 1 <= e -> compact_of n e m -> 2 ^ 15 * 256 ^ e <= n * 256 ^ 3 < 2 ^ 23 * 256 ^ e.
Proof.
  intros He [Hm Em]. destruct (Z.leb_spec e 3) as [H3|H3].
  - assert (256 ^ 3 = 256 ^ (3 - e) * 256 ^ e) as -> by (rewrite <- Z.pow_add_r by lia; f_equal; lia).
    rewrite Z.mul_assoc, <- Em. pose proof (Z.pow_pos_nonneg 256 e ltac:(lia) ltac:(lia)). nia.
  - assert (256 ^ e = 256 ^ (e - 3) * 256 ^ 3) as -> by (rewrite <- Z.pow_add_r by lia; f_equal; lia).
    pose proof (Z.pow_pos_nonneg 256 (e - 3) ltac:(lia) ltac:(lia)). set (q := 256 ^ (e - 3)) in *.
    pose proof (Z.div_mod n q ltac:(lia)). pose proof (Z.mod_pos_bound n q ltac:(lia)). rewrite Em in Hm. nia.
Qed.

Lemma CompactToBig_of n e m : 1 <= e <= 251 -> compact_of n e m ->
  CompactToBig (e * 2 ^ 24 + m) = if e <=? 3 then n else m * 256 ^ (e - 3).
Proof.
  intros He [Hm Em]. rewrite CompactToBig_parts by lia. destruct (Z.leb_spec e 3).
  - rewrite Z.shiftr_div_pow2, Z.pow_mul_r by lia. change (2 ^ 8) with 256. pose proof (Z.pow_pos_nonneg 256 (3 - e) ltac:(lia) ltac:(lia)).
    rewrite Em, Z.div_mul by lia. done.
  - rewrite Z.shiftl_mul_pow2, Z.pow_mul_r by lia. done.
Qed.

(** Rounding down to the precision of the mantissa. *)
Lemma CompactToBig_round n e m : 1 <= e <= 251 -> 0 < n -> compact_of n e m ->
  let v := CompactToBig (e * 2 ^ 24 + m) in 0 < v <= n /\ (n - v) * 2 ^ 15 < n /\ compact_of v e m.
Proof.
  intros He Hn Hc. rewrite (CompactToBig_of n) by done. cbv zeta. destruct Hc as [Hm Em]. unfold compact_of. destruct (Z.leb_spec e 3) as [H3|H3].
  - repeat split; lia.
  - pose proof (Z.pow_pos_nonneg 256 (e - 3) ltac:(lia) ltac:(lia)). set (q := 256 ^ (e - 3)) in *.
    pose proof (Z.div_mod n q ltac:(lia)). pose proof (Z.mod_pos_bound n q ltac:(lia)). rewrite <- Em in *.
    assert (0 < m * q) by nia. assert (q * 2 ^ 15 <= m * q) by nia. repeat split; try lia. by rewrite Z.div_mul by lia.
Qed.

Lemma compact_of_exp_mono n n' e e' m m' : n <= n' -> 1 <= e -> 1 <= e' -> compact_of n e m -> compact_of n' e' m' -> e <= e'.
Proof.
  intros Hn He He' H H'. destruct (Z.le_gt_cases e e') as [|Hlt]; [done|]. exfalso.
  pose proof (compact_of_bounds _ _ _ He H). pose proof (compact_of_bounds _ _ _ He' H').
  pose proof (Z.pow_le_mono_r 256 (e' + 1) e ltac:(lia) ltac:(lia)) as Hp. rewrite Z.pow_add_r in Hp by lia. lia.
Qed.

Lemma compact_of_unique n e e' m m' : 1 <= e -> 1 <= e' -> compact_of n e m -> compact_of n e' m' -> e = e' /\ m = m'.
Proof.
  intros He He' H H'. assert (e = e') as ->.
  { apply Z.le_antisymm; [by apply (compact_of_exp_mono n n e e' m m')|by apply (compact_of_exp_mono n n e' e m' m)]. }
  split; [done|]. destruct H as [_ Hm], H' as [_ Hm']. destruct (e' <=? 3); congruence.
Qed.

Lemma compact_mono n n' e e' m m' : 0 < n <= n' -> 1 <= e <= 251 -> 1 <= e' <= 251 -> compact_of n e m -> compact_of n' e' m' ->
  CompactToBig (e * 2 ^ 24 + m) <= CompactToBig (e' * 2 ^ 24 + m').
Proof.
  intros Hn He He' H H'. pose proof (compact_of_exp_mono n n' e e' m m' ltac:(lia) ltac:(lia) ltac:(lia) H H') as Hle.
  destruct (CompactToBig_round n e m He ltac:(lia) H) as (_ & _ & H1). destruct (CompactToBig_round n' e' m' He' ltac:(lia) H') as (_ & _ & H2).
  set (v := CompactToBig (e * 2 ^ 24 + m)) in *. set (v' := CompactToBig (e' * 2 ^ 24 + m')) in *.
  destruct (Z.eq_dec e e') as [<-|Hne].
  - unfold v, v'. rewrite (CompactToBig_of n), (CompactToBig_of n') by done. destruct H as [_ Hm], H' as [_ Hm']. destruct (Z.leb_spec e 3); [lia|].
    apply Z.mul_le_mono_nonneg_r; [apply Z.pow_nonneg; lia|]. rewrite Hm, Hm'. apply Z.div_le_mono; [apply Z.pow_pos_nonneg; lia|lia].
  - pose proof (compact_of_bounds v e m ltac:(lia) H1). pose proof (compact_of_bounds v' e' m' ltac:(lia) H2).
    pose proof (Z.pow_le_mono_r 256 (e + 1) e' ltac:(lia) ltac:(lia)) as Hp. rewrite Z.pow_add_r in Hp by lia. lia.
Qed.

(** C30: the compact form of a positive number is the number rounded down to a
    mantissa of at least sixteen bits: it is at most the number, off by less than one
    part in 2^15, has the same compact form, and keeps the order of numbers. *)
Theorem compact_bits (n : Z) (Hn : 0 < n < 256 ^ 250) :
  let v := CompactToBig (BigToCompact n) in
  0 < v <= n /\ (n - v) * 2 ^ 15 < n /\ BigToCompact v = BigToCompact n /\
  forall n', n <= n' < 256 ^ 250 -> v <= CompactToBig (BigToCompact n').
Proof.
  destruct (BigToCompact_of n Hn) as (e & m & E & He & Hc). cbv zeta. rewrite E.
  destruct (CompactToBig_round n e m He ltac:(lia) Hc) as (Hv & Hp & Hc'). split; [done|]. split; [done|]. split.
  - destruct (BigToCompact_of (CompactToBig (e * 2 ^ 24 + m)) ltac:(lia)) as (e' & m' & -> & He' & H').
    destruct (compact_of_unique _ e e' m m' ltac:(lia) ltac:(lia) Hc' H') as [<- <-]. done.
  - intros n' Hn'. destruct (BigToCompact_of n' ltac:(lia)) as (e' & m' & -> & He' & H').
    apply (compact_mono n n'); [lia|done|done|done|done].
Qed.

Lemma compact_bits_witness : 0 < 0x00ffffff01 < 256 ^ 250 /\ CompactToBig (BigToCompact 0x00ffffff01) = 0xffff0000 /\
  BigToCompact 0xffff0000 = BigToCompact 0x00ffffff01.
Proof.
  split; [lia|]. split; [reflexivity|]. destruct (compact_bits 0x00ffffff01 ltac:(lia)) as (_ & _ & H & _). exact H.
Defined.

(** Rounding a negative number down can carry out of the mantissa, and the number is lost. *)
Lemma negative_compact_lost : CompactToBig (BigToCompact (- 0xffffff01)) = 0.
Proof. reflexivity. Qed.

(** * Work *)

(** The work is 2^256 divided by one more than the target, rounded down. *)
Lemma CalcWork_spec bits : 0 < CompactToBig bits ->
  CalcWork bits * (CompactToBig bits + 1) <= 2 ^ 256 < (CalcWork bits + 1) * (CompactToBig bits + 1).
Proof.
  intros Ht. unfold CalcWork. rewrite Z.sgn_pos by done. cbn [Z.leb Z.compare]. change oneLsh256 with (2 ^ 256).
  set (t := CompactToBig bits + 1). pose proof (Z.div_mod (2 ^ 256) t ltac:(lia)). pose proof (Z.mod_pos_bound (2 ^ 256) t ltac:(lia)). lia.
Qed.

Lemma CalcWork_nonneg bits : 0 <= CalcWork bits.
Proof.
  unfold CalcWork. destruct (Z.leb_spec (Z.sgn (CompactToBig bits)) 0) as [H|H]; [done|].
  assert (0 < CompactToBig bits) by lia. apply Z.div_pos; [done|lia].
Qed.

Lemma CalcWork_antitone b1 b2 : 0 < CompactToBig b1 <= CompactToBig b2 -> CalcWork b2 <= CalcWork b1.
Proof.
  intros H. unfold CalcWork. rewrite !Z.sgn_pos by lia. cbn [Z.leb Z.compare]. apply Z.div_le_compat_l; [done|lia].
Qed.

(** A target below 2^256 always has some work. *)
Lemma CalcWork_pos bits : 0 < CompactToBig bits < 2 ^ 256 -> 0 < CalcWork bits.
Proof. intros H. pose proof (CalcWork_spec bits ltac:(lia)). nia. Qed.
