(* ===== verification/BlockIndex.v ===== *)
(** The tree of known blocks (src/blockchain/blockindex.go), the linear view of one of
    its branches (src/blockchain/chainview.go) and the difficulty rules that walk a
    branch (src/blockchain/difficulty.go).

    A node is its immutable part: the header fields and the node before it.  Node
    pointers are compared in the code; the index holds one node for each hash, and the
    model compares nodes as values.  The status, which changes, is kept by the index. *)

From stdpp Require Import gmap sorting.
From S2P Require Import Prelude Sha Wire MsgTx SigHash ChainParams Block RuleErr Difficulty.

(** * Status *)

Definition statusDataStored : Z := 1.
Definition statusValid : Z := 2.
Definition statusValidateFailed : Z := 4.
Definition statusInvalidAncestor : Z := 8.
Definition statusNone : Z := 0.

Definition KnownValid (status : Z) : bool := negb (status &&& statusValid =? 0).
Definition KnownInvalid (status : Z) : bool := negb (status &&& (statusValidateFailed ||| statusInvalidAncestor) =? 0).

(** * Nodes *)

#[warnings="-register-all"]
Inductive blockNode : Type := mkNode {
  parent : option blockNode;
  n_hash : bytes;
  workSum : Z;
  height : Z;
  n_version : Z;
  n_bits : Z;
  n_nonce : Z;
  n_timestamp : Z;
  n_merkleRoot : bytes
}.

#[global] Instance blockNode_eq_dec : EqDecision blockNode.
Proof.
  unfold EqDecision. fix IH 1.
  intros [p1 h1 w1 e1 v1 b1 n1 t1 m1] [p2 h2 w2 e2 v2 b2 n2 t2 m2].
  destruct (decide ((h1, w1, e1, v1, b1, n1, t1, m1) = (h2, w2, e2, v2, b2, n2, t2, m2))) as [E|E]; [|right; congruence].
  destruct p1 as [p1|], p2 as [p2|]; [|right; congruence|right; congruence|left; congruence].
  destruct (IH p1 p2) as [Ep|Ep]; [left; congruence|right; congruence].
Defined.

Definition newBlockNode (blockHeader : BlockHeader) (parent : option blockNode) : blockNode :=
  let work := CalcWork (bh_Bits blockHeader) in
  mkNode parent (BlockHash blockHeader)
    (match parent with Some p => workSum p + work | None => work end)
    (match parent with Some p => int32 (height p + 1) | None => 0 end)
    (bh_Version blockHeader) (bh_Bits blockHeader) (bh_Nonce blockHeader) (bh_Timestamp blockHeader) (bh_MerkleRoot blockHeader).

Definition node_Header (node : blockNode) : BlockHeader :=
  let prevHash := match parent node with Some p => n_hash p | None => repeat Byte.x00 32 end in
  mkHeader (n_version node) prevHash (n_merkleRoot node) (n_timestamp node) (n_bits node) (n_nonce node).

(** [for ; n != nil && n.height != height; n = n.parent]. *)
Fixpoint walk_to (n : blockNode) (h : Z) : option blockNode :=
  if height n =? h then Some n else match parent n with None => None | Some p => walk_to p h end.

Definition Ancestor (node : blockNode) (h : Z) : option blockNode :=
  if (h <? 0) || (height node <? h) then None else walk_to node h.

Definition RelativeAncestor (node : blockNode) (distance : Z) : option blockNode := Ancestor node (int32 (height node - distance)).

Fixpoint past_timestamps (n : nat) (iterNode : blockNode) : list Z :=
  match n with
  | O => []
  | S n' => n_timestamp iterNode :: match parent iterNode with None => [] | Some p => past_timestamps n' p end
  end.

(** The timestamps are sorted; which algorithm does it cannot be told from the result. *)
Definition CalcPastMedianTime `{GlobalConf} (node : blockNode) : outcome ruleerr Z :=
  let timestamps := merge_sort Z.le (past_timestamps (Z.to_nat (MedianTimeBlocks gConf)) node) in
  or_panic (index timestamps (Z.quot (len timestamps) 2)).

(** * The index *)

Record blockIndex : Type := mkIndex {
  bi_index : gmap bytes blockNode;
  bi_status : gmap bytes Z;
  bi_dirty : gset bytes
}.

Definition newBlockIndex : blockIndex := mkIndex ∅ ∅ ∅.

Definition HaveBlock (bi : blockIndex) (hash : bytes) : bool := bool_decide (is_Some (bi_index bi !! hash)).
Definition LookupNode (bi : blockIndex) (hash : bytes) : option blockNode := bi_index bi !! hash.

Definition addNode (node : blockNode) (bi : blockIndex) : blockIndex :=
  mkIndex (<[n_hash node := node]> (bi_index bi)) (bi_status bi) (bi_dirty bi).

Definition mark_dirty (hash : bytes) (bi : blockIndex) : blockIndex :=
  mkIndex (bi_index bi) (bi_status bi) ({[hash]} ∪ bi_dirty bi).

Definition AddNode (node : blockNode) (bi : blockIndex) : blockIndex := mark_dirty (n_hash node) (addNode node bi).

Definition NodeStatus (bi : blockIndex) (node : blockNode) : Z := default statusNone (bi_status bi !! n_hash node).

Definition SetStatusFlags (node : blockNode) (flags : Z) (bi : blockIndex) : blockIndex :=
  mark_dirty (n_hash node)
    (mkIndex (bi_index bi) (<[n_hash node := NodeStatus bi node ||| flags]> (bi_status bi)) (bi_dirty bi)).

(** * The chain view *)

(** The nodes of a branch by height; the slice may hold nil pointers. *)
Abbreviation chainView := (list (option blockNode)).

Definition tip (c : chainView) : option blockNode := match index c (len c - 1) with Some n => n | None => None end.
Definition genesis (c : chainView) : option blockNode := match index c 0 with Some n => n | None => None end.
Definition cv_height (c : chainView) : Z := int32 (len c - 1).

(** [for node != nil && c.nodes[node.height] != node]. *)
Fixpoint set_nodes (node : blockNode) (c : chainView) : outcome ruleerr chainView :=
  old ← or_panic (index c (height node));
  if decide (old = Some node) then mret c else
  let c := <[Z.to_nat (height node) := Some node]> c in
  match parent node with
  | None => mret c
  | Some p => set_nodes p c
  end.

(** The capacity decides whether the slice is copied or resliced; the first [needed]
    entries are the same in both cases, and the ones behind the old length are nil. *)
Definition setTip (node : option blockNode) (c : chainView) : outcome ruleerr chainView :=
  match node with
  | None => mret []
  | Some node =>
    let needed := int32 (height node + 1) in
    c ← (if needed <? 0 then Panic else mret (take (Z.to_nat needed) c ++ replicate (Z.to_nat (needed - len c)) None));
    set_nodes node c
  end.

Definition nodeByHeight (c : chainView) (h : Z) : option blockNode :=
  if (h <? 0) || (int32 (len c) <=? h) then None else match index c h with Some n => n | None => None end.

Definition cv_Equals (c other : chainView) : bool := (len c =? len other) && bool_decide (tip c = tip other).

Definition contains (c : chainView) (node : blockNode) : bool := bool_decide (nodeByHeight c (height node) = Some node).

Definition next (c : chainView) (node : option blockNode) : option blockNode :=
  match node with
  | None => None
  | Some n => if negb (contains c n) then None else nodeByHeight c (int32 (height n + 1))
  end.

(** [for node != nil && !c.contains(node)]. *)
Fixpoint find_loop (c : chainView) (node : blockNode) : option blockNode :=
  if contains c node then Some node else match parent node with None => None | Some p => find_loop c p end.

Definition findFork (c : chainView) (node : option blockNode) : option blockNode :=
  match node with
  | None => None
  | Some n =>
    let chainHeight := cv_height c in
    match (if chainHeight <? height n then Ancestor n chainHeight else Some n) with
    | None => None
    | Some n => find_loop c n
    end
  end.

(** [fastLog2Floor]: five rounds of a binary search for the top bit. *)
Fixpoint log2_loop (masks : list Z) (rv exponent n : Z) : Z :=
  match masks with
  | [] => rv
  | m :: masks' =>
    if negb (n &&& m =? 0) then log2_loop masks' (uwrap 8 (rv + exponent)) (exponent >>> 1) (n >>> exponent)
    else log2_loop masks' rv (exponent >>> 1) n
  end.

Definition log2FloorMasks : list Z := [0xffff0000; 0xff00; 0xf0; 0xc; 0x2].
Definition fastLog2Floor (n : Z) : Z := log2_loop log2FloorMasks 0 16 n.

(** The hashes of the locator; the fuel is the number of nodes below and with [node].
    A nil node ends the loop. *)
Fixpoint locator_loop (fuel : nat) (c : chainView) (node : option blockNode) (step : Z) (locator : list bytes) :
    outcome ruleerr (list bytes) :=
  match fuel with
  | O => mret locator
  | S fuel' =>
    match node with
    | None => mret locator
    | Some n =>
      let locator := locator ++ [n_hash n] in
      if height n =? 0 then mret locator else
      let h := int32 (height n - step) in
      let h := if h <? 0 then 0 else h in
      node' ← (if contains c n then or_panic (index c h) else mret (Ancestor n h));
      let step := if 10 <? len locator then int32 (step * 2) else step in
      locator_loop fuel' c node' step locator
    end
  end.

(** The capacity [maxEntries] that the code reserves for the locator. *)
Definition maxEntries (node : blockNode) : Z :=
  if height node <=? 12 then uwrap 8 (uwrap 8 (height node) + 1)
  else uwrap 8 (12 + fastLog2Floor (uint32 (uint32 (height node) - 10))).

Definition blockLocator (c : chainView) (node : option blockNode) : outcome ruleerr (list bytes) :=
  match (match node with None => tip c | Some n => Some n end) with
  | None => mret []
  | Some n => locator_loop (Z.to_nat (height n + 1)) c (Some n) 1 []
  end.

(** * The required difficulty *)

(** The fields of the chain instance that [New] computes from the parameters, in
    seconds and blocks. *)
Section retarget.
Context `{GlobalConf} (chainParams : Params).

Definition secs (d : Z) : Z := Z.quot d Second.
Definition targetTimespan : Z := secs (TargetTimespan chainParams).
Definition minRetargetTimespan : Z := Z.quot targetTimespan (RetargetAdjustmentFactor chainParams).
Definition maxRetargetTimespan : Z := int64 (targetTimespan * RetargetAdjustmentFactor chainParams).
Definition blocksPerRetarget : Z := int32 (Z.quot targetTimespan (secs (TargetTimePerBlock chainParams))).

(** [for durationVal > 0 && newTarget < PowLimit]; the fuel counts the rounds that the
    duration allows. *)
Fixpoint ease_loop (fuel : nat) (durationVal newTarget : Z) : Z :=
  match fuel with
  | O => newTarget
  | S fuel' =>
    if (0 <? durationVal) && (newTarget <? PowLimit chainParams) then
      ease_loop fuel' (int64 (durationVal - maxRetargetTimespan)) (newTarget * RetargetAdjustmentFactor chainParams)
    else newTarget
  end.

Definition calcEasiestDifficulty (bits duration : Z) : Z :=
  let durationVal := secs duration in
  if ReduceMinDifficulty chainParams && (secs (MinDiffReductionTime chainParams) <? durationVal) then PowLimitBits chainParams else
  let newTarget := ease_loop (Z.to_nat durationVal) durationVal (CompactToBig bits) in
  let newTarget := if PowLimit chainParams <? newTarget then PowLimit chainParams else newTarget in
  BigToCompact newTarget.

Fixpoint findPrevTestNetDifficulty (iterNode : blockNode) : Z :=
  if negb (Z.rem (height iterNode) blocksPerRetarget =? 0) && (n_bits iterNode =? PowLimitBits chainParams) then
    match parent iterNode with None => PowLimitBits chainParams | Some p => findPrevTestNetDifficulty p end
  else n_bits iterNode.

Definition computeNextTarget (timespanSeconds currentDiff : Z) : Z :=
  let adjustedTimespan :=
    if timespanSeconds <? minRetargetTimespan then minRetargetTimespan
    else if maxRetargetTimespan <? timespanSeconds then maxRetargetTimespan else timespanSeconds in
  let oldTarget := CompactToBig currentDiff in
  let newTarget := oldTarget * adjustedTimespan / targetTimespan in
  let newTarget := if PowLimit chainParams <? newTarget then PowLimit chainParams else newTarget in
  BigToCompact newTarget.

(** A zero number of blocks or a zero timespan makes the divisions panic; no network
    has them. *)
Definition calcNextRequiredDifficulty (lastNode : option blockNode) (newBlockTime : Z) : outcome ruleerr Z :=
  match lastNode with
  | None => mret (PowLimitBits chainParams)
  | Some lastNode =>
    if negb (Z.rem (int32 (height lastNode + 1)) blocksPerRetarget =? 0) then
      if ReduceMinDifficulty chainParams || ((HDCoinType chainParams =? 390) && (height lastNode <? 50000)) then
        let allowMinTime := int64 (n_timestamp lastNode + secs (MinDiffReductionTime chainParams)) in
        if allowMinTime <? newBlockTime then mret (PowLimitBits chainParams)
        else mret (findPrevTestNetDifficulty lastNode)
      else mret (n_bits lastNode)
    else
      match RelativeAncestor lastNode (int32 (blocksPerRetarget - 1)) with
      | None => mthrow AssertError
      | Some firstNode =>
        let actualTimespan := int64 (n_timestamp lastNode - n_timestamp firstNode) in
        mret (computeNextTarget actualTimespan (n_bits lastNode))
      end
  end.
End retarget.
