(* ===== verification/ChainView.v ===== *)
(** Correctness of the chain view: after any change of the tip the view is the list of
    the ancestors of the tip by height, membership and forks are decided as for that
    list, and block locators have the documented shape and exactly the reserved length. *)

From stdpp Require Import gmap sorting.
From S2P Require Import Prelude Sha Wire MsgTx SigHash ChainParams Block RuleErr Difficulty BlockIndex.

(** * Branches *)

(** Induction along the parents. *)
Lemma node_ind (P : blockNode -> Prop) :
  (forall n, match parent n with None => True | Some p => P p end -> P n) -> forall n, P n.
Proof.
  intros H. fix IH 1. intros [[p|] h w e v b nn t m]; apply H; [exact (IH p)|exact I].
Qed.

(** The branch of a node, from the genesis block. *)
Fixpoint chain (n : blockNode) : list blockNode := match parent n with None => [] | Some p => chain p end ++ [n].

(** Heights count the ancestors and fit the 32-bit field with its successor. *)
Fixpoint node_wf (n : blockNode) : Prop :=
  height n < 2 ^ 31 - 1 /\ match parent n with None => height n = 0 | Some p => height n = height p + 1 /\ node_wf p end.

Lemma chain_step n : chain n = match parent n with None => [] | Some p => chain p end ++ [n].
Proof. by destruct n. Qed.

Lemma node_wf_step n : node_wf n <-> height n < 2 ^ 31 - 1 /\ match parent n with None => height n = 0 | Some p => height n = height p + 1 /\ node_wf p end.
Proof. by destruct n. Qed.

Lemma chain_len n : node_wf n -> len (chain n) = height n + 1.
Proof.
  induction n as [n IH] using node_ind. rewrite chain_step, node_wf_step, len_app. intros [_ H].
  destruct (parent n) as [p|]; [destruct H as [-> H]; rewrite (IH H); len_lia|]. rewrite H. done.
Qed.

Lemma height_nonneg n : node_wf n -> 0 <= height n < 2 ^ 31 - 1.
Proof. intros H. pose proof (chain_len n H) as E. rewrite chain_step, len_app in E. apply node_wf_step in H as [H _]. len_lia. Qed.

Lemma chain_length n : node_wf n -> length (chain n) = S (Z.to_nat (height n)).
Proof. intros H. pose proof (chain_len n H). pose proof (height_nonneg n H). unfold len in *. lia. Qed.

(** The entry of a branch at a height is a node of that height, and its branch is the
    lower part. *)
Lemma chain_lookup n i m : node_wf n -> chain n !! i = Some m -> height m = Z.of_nat i /\ node_wf m /\ chain m = take (S i) (chain n).
Proof.
  revert i. induction n as [n IH] using node_ind. intros i Hwf Hi. pose proof (chain_length n Hwf) as Hl. pose proof (height_nonneg n Hwf) as Hn.
  pose proof Hwf as Hwf'. apply node_wf_step in Hwf as [_ H]. pose proof (lookup_lt_Some _ _ _ Hi) as Hlt. rewrite chain_step in Hi.
  destruct (parent n) as [p|] eqn:Ep.
  - destruct H as [Eh Hp]. pose proof (chain_length p Hp) as Hlp. pose proof (height_nonneg p Hp). apply lookup_app_Some in Hi as [Hi|[Hge Hi]].
    + destruct (IH i Hp Hi) as (? & ? & ->). split; [done|]. split; [done|]. rewrite (chain_step n), Ep.
      rewrite take_app_le; [done|]. apply lookup_lt_Some in Hi. lia.
    + apply list_lookup_singleton_Some in Hi as [Hz <-]. split; [lia|]. split; [done|]. rewrite take_ge; [done|lia].
  - destruct i; [|done]. injection Hi as <-. split; [lia|]. split; [done|]. rewrite take_ge; [done|lia].
Qed.

Lemma chain_self n : node_wf n -> chain n !! Z.to_nat (height n) = Some n.
Proof.
  intros H. pose proof (chain_length n H) as Hl. rewrite chain_step in *. rewrite length_app in Hl. simpl in Hl.
  rewrite lookup_app_r by lia. replace (Z.to_nat (height n) - _)%nat with 0%nat by lia. done.
Qed.

Lemma elem_of_chain n m : node_wf n -> m ∈ chain n <-> 0 <= height m /\ chain n !! Z.to_nat (height m) = Some m.
Proof.
  intros Hwf. split; [|intros [_ H]; by eapply list_elem_of_lookup_2]. intros [i Hi]%list_elem_of_lookup.
  destruct (chain_lookup n i m Hwf Hi) as (E & _). rewrite E, Nat2Z.id. split; [lia|done].
Qed.

Lemma walk_to_spec n h : node_wf n -> 0 <= h <= height n -> walk_to n h = chain n !! Z.to_nat h.
Proof.
  induction n as [n IH] using node_ind. intros Hwf Hh. pose proof (chain_length n Hwf) as Hl. pose proof (chain_self n Hwf) as Hs.
  assert (walk_to n h = if height n =? h then Some n else match parent n with None => None | Some p => walk_to p h end) as -> by (by destruct n).
  destruct (Z.eqb_spec (height n) h) as [<-|Hne]; [by rewrite Hs|]. rewrite chain_step. apply node_wf_step in Hwf as [_ H].
  destruct (parent n) as [p|]; [|lia]. destruct H as [E Hp]. rewrite IH by (try lia; done). pose proof (chain_length p Hp).
  rewrite lookup_app_l; [done|]. lia.
Qed.

Lemma Ancestor_spec n h : node_wf n -> 0 <= h -> Ancestor n h = chain n !! Z.to_nat h.
Proof.
  intros Hwf Hh. unfold Ancestor. destruct (Z.ltb_spec h 0); [lia|]. destruct (Z.ltb_spec (height n) h); cbn [orb].
  - symmetry. apply lookup_ge_None_2. rewrite chain_length by done. pose proof (height_nonneg n Hwf). lia.
  - by apply walk_to_spec.
Qed.

Lemma Ancestor_negative n h : h < 0 -> Ancestor n h = None.
Proof. intros H. unfold Ancestor. by destruct (Z.ltb_spec h 0); [|lia]. Qed.

Lemma parent_chain n p : parent n = Some p -> chain n = chain p ++ [n].
Proof. intros E. by rewrite chain_step, E. Qed.

(** A node is at most as high as the branch it is in. *)
Lemma elem_of_chain_height n m : node_wf n -> m ∈ chain n -> 0 <= height m <= height n.
Proof.
  intros Hwf Hm. apply elem_of_chain in Hm as [H0 Hm]; [|done]. apply lookup_lt_Some in Hm. rewrite chain_length in Hm by done.
  pose proof (height_nonneg n Hwf). lia.
Qed.

Lemma elem_of_chain_trans n m k : node_wf n -> m ∈ chain n -> k ∈ chain m -> k ∈ chain n.
Proof.
  intros Hwf [i Hi]%list_elem_of_lookup Hk. destruct (chain_lookup n i m Hwf Hi) as (_ & _ & E). rewrite E in Hk.
  by eapply elem_of_take in Hk as (j & Hk & _); eapply list_elem_of_lookup_2.
Qed.

(** * The view *)

Definition view_of (t : blockNode) : chainView := map Some (chain t).

Inductive view_ok : chainView -> list blockNode -> Prop :=
| view_empty : view_ok [] []
| view_tip t : node_wf t -> view_ok (view_of t) (chain t).

Lemma view_of_lookup t i : view_of t !! i = Some <$> (chain t !! i).
Proof. unfold view_of. by rewrite list_lookup_fmap. Qed.

Lemma len_view t : node_wf t -> len (view_of t) = height t + 1.
Proof. intros H. unfold view_of, len. rewrite length_map. by apply chain_len. Qed.

(** The loop of [setTip]: below the node the slice still holds an old branch. *)
Lemma set_nodes_spec n old : node_wf n -> (old = [] \/ exists t, node_wf t /\ old = chain t) ->
  forall c, height n < len c -> (forall i, (i <= Z.to_nat (height n))%nat -> c !! i = Some (old !! i)) ->
  set_nodes n c = Ret (map Some (chain n) ++ drop (S (Z.to_nat (height n))) c).
Proof.
  intros Hwf Hold. induction n as [n IH] using node_ind. intros c Hc Hbelow. pose proof (height_nonneg n Hwf) as Hn.
  assert (forall c, set_nodes n c = (o ← or_panic (index c (height n)); if decide (o = Some n) then mret c else
    let c := <[Z.to_nat (height n) := Some n]> c in match parent n with None => mret c | Some p => set_nodes p c end)) as -> by (by destruct n).
  rewrite index_nat by lia. rewrite Hbelow by lia. cbn [or_panic mbind outcome_bind].
  destruct (decide _) as [E|E].
  - destruct Hold as [->|(t & Ht & ->)]; [done|]. destruct (chain_lookup _ _ _ Ht E) as (_ & _ & En).
    cbv [mret outcome_ret]. f_equal. rewrite <- (take_drop (S (Z.to_nat (height n))) c) at 1. f_equal. rewrite En. apply list_eq. intros i.
    rewrite list_lookup_fmap. destruct (decide (i < S (Z.to_nat (height n)))%nat).
    + rewrite !lookup_take_lt by lia. rewrite Hbelow by lia. apply lookup_lt_Some in E.
      destruct (lookup_lt_is_Some_2 (chain t) i) as [x Hx]; [lia|]. by rewrite Hx.
    + rewrite !lookup_take_ge by lia. done.
  - cbv zeta. pose proof Hwf as Hwf'. apply node_wf_step in Hwf as [_ H].
    assert (Z.to_nat (height n) < length c)%nat by (unfold len in Hc; lia). rewrite (chain_step n).
    destruct (parent n) as [p|] eqn:Ep.
    + destruct H as [Eh Hp]. pose proof (height_nonneg p Hp). rewrite (IH Hp).
      * f_equal. rewrite map_app, <- app_assoc. f_equal. cbn [map app]. replace (S (Z.to_nat (height p))) with (Z.to_nat (height n)) by lia.
        rewrite drop_insert_ge by lia. rewrite Nat.sub_diag. destruct (drop (Z.to_nat (height n)) c) as [|x l] eqn:Ed.
        { apply (f_equal length) in Ed. rewrite length_drop in Ed. simpl in Ed. lia. }
        cbn. f_equal. apply (f_equal (drop 1)) in Ed. rewrite drop_drop in Ed. replace (Z.to_nat (height n) + 1)%nat with (S (Z.to_nat (height n))) in Ed by lia. done.
      * len_lia.
      * intros i Hi. rewrite list_lookup_insert_ne by lia. apply Hbelow. lia.
    + rewrite H in *. destruct c as [|x c]; [simpl in *; lia|]. done.
Qed.

Lemma setTip_ok n c l : view_ok c l -> node_wf n -> setTip (Some n) c = Ret (view_of n).
Proof.
  intros Hv Hwf. pose proof (height_nonneg n Hwf) as Hn. unfold setTip. cbv zeta. rewrite int32_small by lia.
  rewrite (proj2 (Z.ltb_ge (height n + 1) 0)) by lia. cbn [mbind outcome_bind mret outcome_ret].
  set (c' := take _ c ++ _). assert (len c' = height n + 1) as Hl.
  { unfold c', len. rewrite length_app, length_take, length_replicate. lia. }
  assert (length c' = S (Z.to_nat (height n))) as Hl' by (unfold len in Hl; lia).
  rewrite (set_nodes_spec n l Hwf).
  - rewrite drop_ge by lia. rewrite app_nil_r. done.
  - destruct Hv as [|t Ht]; [by left|right; by exists t].
  - lia.
  - intros i Hi. unfold c'. assert (c !! i = Some <$> l !! i) as Ec by (destruct Hv; [done|apply view_of_lookup]).
    destruct (decide (i < length c)%nat) as [Hlt|Hge].
    + rewrite lookup_app_l by (rewrite length_take; lia). rewrite lookup_take_lt by lia. rewrite Ec.
      destruct (l !! i) eqn:El; [done|]. apply lookup_ge_None_1 in Ec. lia.
    + rewrite lookup_app_r by (rewrite length_take; lia). rewrite lookup_ge_None_2 in Ec by lia.
      destruct (l !! i) eqn:El; [done|]. rewrite length_take. apply lookup_replicate_2. unfold len. lia.
Qed.

(** ** Queries *)

Lemma tip_view t : node_wf t -> tip (view_of t) = Some t.
Proof.
  intros Hwf. pose proof (height_nonneg t Hwf). unfold tip. rewrite len_view, index_nat by (done || lia).
  replace (height t + 1 - 1) with (height t) by lia. by rewrite view_of_lookup, chain_self.
Qed.

Lemma nodeByHeight_view c l h : view_ok c l -> nodeByHeight c h = if h <? 0 then None else l !! Z.to_nat h.
Proof.
  intros Hv. unfold nodeByHeight. destruct (Z.ltb_spec h 0); [done|]. cbn [orb]. destruct Hv as [|t Ht].
  - destruct (int32 (len []) <=? h); [done|]. by rewrite index_nat by lia.
  - pose proof (height_nonneg t Ht). rewrite len_view, int32_small by (done || lia). destruct (Z.leb_spec (height t + 1) h).
    + symmetry. apply lookup_ge_None_2. rewrite chain_length by done. lia.
    + rewrite index_nat, view_of_lookup by lia. by destruct (chain t !! Z.to_nat h).
Qed.

Lemma contains_view c l n : view_ok c l -> 0 <= height n -> contains c n = true <-> n ∈ l.
Proof.
  intros Hv Hn. unfold contains. rewrite bool_decide_eq_true, (nodeByHeight_view c l) by done.
  rewrite (proj2 (Z.ltb_ge (height n) 0)) by done. destruct Hv as [|t Ht]; [|rewrite elem_of_chain by done; tauto].
  split; [done|]. by intros ?%elem_of_nil.
Qed.

Lemma next_view t n m : node_wf t -> n ∈ chain t -> next (view_of t) (Some n) = Some m <-> m ∈ chain t /\ parent m = Some n.
Proof.
  intros Ht Hn. unfold next. pose proof (elem_of_chain_height t n Ht Hn) as Hh. pose proof (height_nonneg t Ht).
  rewrite (proj2 (contains_view _ _ n (view_tip t Ht) ltac:(lia)) Hn). cbn [negb]. rewrite int32_small by lia.
  rewrite (nodeByHeight_view _ _ _ (view_tip t Ht)), (proj2 (Z.ltb_ge (height n + 1) 0)) by lia.
  apply elem_of_chain in Hn as [_ Hn]; [|done]. replace (Z.to_nat (height n + 1)) with (S (Z.to_nat (height n))) by lia. split.
  - intros Hm. destruct (chain_lookup t _ m Ht Hm) as (Eh & Hwm & Ec). split; [by eapply list_elem_of_lookup_2|].
    apply node_wf_step in Hwm as Hwm'. destruct Hwm' as [_ Hp]. rewrite chain_step in Ec. destruct (parent m) as [p|]; [|lia].
    destruct Hp as [_ Hp]. rewrite (take_S_r _ _ _ Hm) in Ec. apply app_inj_2 in Ec as [Ec _]; [|done].
    f_equal. pose proof (chain_self p Hp) as Hs. rewrite Ec, lookup_take_lt in Hs; [|].
    + pose proof (f_equal length Ec) as El. rewrite chain_length, length_take in El by done. apply lookup_lt_Some in Hm.
      replace (Z.to_nat (height p)) with (Z.to_nat (height n)) in Hs by lia. congruence.
    + pose proof (f_equal length Ec) as El. rewrite chain_length, length_take in El by done. apply lookup_lt_Some in Hm. lia.
  - intros [Hm Ep]. apply elem_of_chain in Hm as [Hm0 Hm]; [|done]. destruct (chain_lookup t _ m Ht Hm) as (_ & Hwm & _).
    apply node_wf_step in Hwm as [_ Hwm]. rewrite Ep in Hwm. destruct Hwm as [E _]. rewrite <- Hm. f_equal. lia.
Qed.

(** The first node on the way down that the view has. *)
Lemma find_loop_spec c l n : view_ok c l -> node_wf n ->
  match find_loop c n with
  | None => forall m, m ∈ chain n -> m ∉ l
  | Some f => f ∈ chain n /\ f ∈ l /\ forall m, m ∈ chain n -> m ∈ l -> height m <= height f
  end.
Proof.
  intros Hv. induction n as [n IH] using node_ind. intros Hwf. pose proof (height_nonneg n Hwf) as Hn.
  assert (find_loop c n = if contains c n then Some n else match parent n with None => None | Some p => find_loop c p end) as -> by (by destruct n).
  assert (forall m, m ∈ chain n <-> m = n \/ match parent n with None => False | Some p => m ∈ chain p end) as Hin.
  { intros m. rewrite chain_step, elem_of_app, list_elem_of_singleton. destruct (parent n); [tauto|]. rewrite elem_of_nil. tauto. }
  destruct (contains c n) eqn:Ec.
  - apply (contains_view c l) in Ec; [|done|lia]. split; [rewrite Hin; by left|]. split; [done|]. intros m Hm _.
    by apply (elem_of_chain_height n m).
  - assert (n ∉ l) as Hnl by (rewrite <- (contains_view c l n); [congruence|done|lia]).
    apply node_wf_step in Hwf as [_ Hp]. destruct (parent n) as [p|].
    + destruct Hp as [_ Hp]. specialize (IH Hp). destruct (find_loop c p) as [f|].
      * destruct IH as (H1 & H2 & H3). split; [rewrite Hin; by right|]. split; [done|]. intros m Hm Hml. apply Hin in Hm as [->|Hm]; [done|by apply H3].
      * intros m Hm. apply Hin in Hm as [->|Hm]; [done|by apply IH].
    + intros m Hm. apply Hin in Hm as [->|[]]. done.
Qed.

Lemma findFork_view c l n : view_ok c l -> node_wf n ->
  match findFork c (Some n) with
  | None => forall m, m ∈ chain n -> m ∉ l
  | Some f => f ∈ chain n /\ f ∈ l /\ forall m, m ∈ chain n -> m ∈ l -> height m <= height f
  end.
Proof.
  intros Hv Hwf. pose proof (height_nonneg n Hwf) as Hn. unfold findFork. cbv zeta. destruct Hv as [|t Ht].
  { change (cv_height []) with (-1). rewrite (proj2 (Z.ltb_lt (-1) (height n))), Ancestor_negative by lia. intros m _. apply not_elem_of_nil. }
  pose proof (height_nonneg t Ht). unfold cv_height. rewrite len_view, int32_small by (done || lia). replace (height t + 1 - 1) with (height t) by lia.
  destruct (Z.ltb_spec (height t) (height n)); [|by apply find_loop_spec, Hwf; constructor].
  rewrite Ancestor_spec by (done || lia). destruct (chain n !! Z.to_nat (height t)) as [a|] eqn:Ea.
  2:{ apply lookup_ge_None_1 in Ea. rewrite chain_length in Ea by done. lia. }
  destruct (chain_lookup n _ a Hwf Ea) as (Eh & Hwa & Ec). rewrite Z2Nat.id in Eh by lia.
  assert (forall m, m ∈ chain n -> m ∈ chain t -> m ∈ chain a) as Hsub.
  { intros m Hm Hmt. apply (elem_of_chain_height t m Ht) in Hmt. apply elem_of_chain in Hm as [_ Hm]; [|done].
    rewrite Ec. apply elem_of_take. exists (Z.to_nat (height m)). split; [done|]. lia. }
  pose proof (find_loop_spec _ _ a (view_tip t Ht) Hwa) as Hf. destruct (find_loop _ a) as [f|].
  - destruct Hf as (H1 & H2 & H3). split; [by eapply elem_of_chain_trans; [|eapply list_elem_of_lookup_2|]|]. split; [done|].
    intros m Hm Hml. apply H3; auto.
  - intros m Hm Hml. by apply (Hf m); [apply Hsub|].
Qed.

(** ** Histories *)

Fixpoint set_tips (tips : list blockNode) (c : chainView) : outcome ruleerr chainView :=
  match tips with
  | [] => mret c
  | t :: tips' => c ← setTip (Some t) c; set_tips tips' c
  end.

Lemma set_tips_ok tips c l : view_ok c l -> Forall node_wf tips -> exists c' l', set_tips tips c = Ret c' /\ view_ok c' l'.
Proof.
  intros Hv H. revert c l Hv. induction H as [|t tips Ht H IH]; intros c l Hv; [by exists c, l|].
  cbn [set_tips]. rewrite (setTip_ok t c l Hv Ht). cbn [mbind outcome_bind]. by apply (IH _ (chain t)); constructor.
Qed.

Lemma set_tips_snoc tips t c : set_tips (tips ++ [t]) c = (c ← set_tips tips c; setTip (Some t) c).
Proof.
  revert c. induction tips as [|x tips IH]; intros c; cbn [app set_tips].
  - cbn [mbind outcome_bind mret outcome_ret]. by destruct (setTip (Some t) c).
  - unfold mbind, outcome_bind. destruct (setTip (Some x) c); [apply IH|done|done].
Qed.

(** C19: whatever tips a chain view has had, reorganizations to any branch included, it
    shows the branch of its last tip: the tip, the node at every height, the members,
    and for any node the highest block that the view has in common with its branch. *)
Theorem chain_view_history (tips : list blockNode) (t n : blockNode) (Htips : Forall node_wf tips) (Ht : node_wf t) (Hn : node_wf n) :
  exists c, set_tips (tips ++ [t]) [] = Ret c /\ tip c = Some t /\ cv_height c = height t /\
    (forall h, nodeByHeight c h = Ancestor t h) /\ (contains c n = true <-> n ∈ chain t) /\
    match findFork c (Some n) with
    | None => forall m, m ∈ chain n -> m ∉ chain t
    | Some f => f ∈ chain n /\ f ∈ chain t /\ forall m, m ∈ chain n -> m ∈ chain t -> height m <= height f
    end.
Proof.
  destruct (set_tips_ok tips [] [] view_empty Htips) as (c0 & l0 & E & Hv). exists (view_of t). pose proof (height_nonneg t Ht).
  split; [rewrite set_tips_snoc, E; exact (setTip_ok t c0 l0 Hv Ht)|]. split; [by apply tip_view|].
  split; [unfold cv_height; rewrite len_view, int32_small by (done || lia); lia|]. split.
  { intros h. rewrite (nodeByHeight_view _ _ _ (view_tip t Ht)). destruct (Z.ltb_spec h 0); [by rewrite Ancestor_negative|by rewrite Ancestor_spec]. }
  split; [apply contains_view; [by constructor|pose proof (height_nonneg n Hn); lia]|]. apply findFork_view; [by constructor|done].
Qed.

(** Two branches of three blocks over one genesis block. *)
Definition demo_node (p : option blockNode) (tag : byte) (h : Z) : blockNode := mkNode p [tag] 0 h 0 0 0 0 [].
Definition demo_genesis : blockNode := demo_node None Byte.x00 0.
Definition demo_a : blockNode := demo_node (Some (demo_node (Some demo_genesis) Byte.x01 1)) Byte.x02 2.
Definition demo_b : blockNode := demo_node (Some (demo_node (Some demo_genesis) Byte.x03 1)) Byte.x04 2.

Lemma chain_view_history_witness :
  exists c, set_tips ([demo_a] ++ [demo_b]) [] = Ret c /\ tip c = Some demo_b /\ contains c demo_a = false /\
    findFork c (Some demo_a) = Some demo_genesis.
Proof.
  destruct (chain_view_history [demo_a] demo_b demo_a) as (c & E & Ht & _); [repeat constructor|vm_compute; repeat split; lia|vm_compute; repeat split; lia|].
  exists c. split; [exact E|]. split; [exact Ht|]. vm_compute in E. injection E as <-. split; reflexivity.
Defined.

(** * Block locators *)

(** [fastLog2Floor] is the logarithm. *)
Lemma log2_mask n e : 0 < e -> 0 <= n < 2 ^ (2 * e) -> (n &&& (Z.ones e <<< e) =? 0) = (n <? 2 ^ e).
Proof.
  intros He Hn. assert (n &&& (Z.ones e <<< e) = (n >>> e) <<< e) as ->.
  { apply Z.bits_inj'. intros i Hi. rewrite Z.land_spec, !Z.shiftl_spec by lia. destruct (Z.lt_ge_cases i e).
    - rewrite !(Z.testbit_neg_r _ (i - e)) by lia. apply andb_false_r.
    - rewrite Z.shiftr_spec by lia. replace (i - e + e) with i by lia. destruct (Z.lt_ge_cases (i - e) e).
      + rewrite Z.ones_spec_low by lia. apply andb_true_r.
      + rewrite (pow2_bits_above n (2 * e) i) by lia. done. }
  rewrite Z.shiftl_mul_pow2, Z.shiftr_div_pow2 by lia. pose proof (Z.pow_pos_nonneg 2 e ltac:(lia) ltac:(lia)).
  destruct (Z.ltb_spec n (2 ^ e)).
  - rewrite Z.div_small by lia. done.
  - apply Z.eqb_neq. assert (1 <= n / 2 ^ e) by (apply Z.div_le_lower_bound; lia). nia.
Qed.

Lemma log2_loop_step e masks rv n : 0 < e -> 0 < n < 2 ^ (2 * e) -> 0 <= rv -> rv + 2 * e <= 32 ->
  (forall rv' n', 0 < n' < 2 ^ e -> 0 <= rv' -> rv' + e <= 32 -> log2_loop masks rv' (e >>> 1) n' = rv' + Z.log2 n') ->
  log2_loop ((Z.ones e <<< e) :: masks) rv e n = rv + Z.log2 n.
Proof.
  intros He Hn Hrv Hsum IH. cbn [log2_loop]. rewrite log2_mask by lia. pose proof (Z.pow_pos_nonneg 2 e ltac:(lia) ltac:(lia)).
  destruct (Z.ltb_spec n (2 ^ e)); cbn [negb]; [apply IH; lia|].
  assert (2 ^ (2 * e) = 2 ^ e * 2 ^ e) as E2 by (replace (2 * e) with (e + e) by lia; apply Z.pow_add_r; lia).
  rewrite uwrap_small by lia. rewrite IH.
  - rewrite Z.log2_shiftr by lia. assert (e <= Z.log2 n) by (apply Z.log2_le_pow2; lia). lia.
  - rewrite Z.shiftr_div_pow2 by lia. split; [apply Z.div_str_pos; lia|apply Z.div_lt_upper_bound; lia].
  - lia.
  - lia.
Qed.

Lemma fastLog2Floor_spec n : 0 < n < 2 ^ 32 -> fastLog2Floor n = Z.log2 n.
Proof.
  intros Hn. change (Z.log2 n) with (0 + Z.log2 n). unfold fastLog2Floor, log2FloorMasks.
  apply (log2_loop_step 16); [lia|lia|lia|lia|]. intros r1 n1 H1 Hr1 Hs1.
  apply (log2_loop_step 8); [lia|lia|lia|lia|]. intros r2 n2 H2 Hr2 Hs2.
  apply (log2_loop_step 4); [lia|lia|lia|lia|]. intros r3 n3 H3 Hr3 Hs3.
  apply (log2_loop_step 2); [lia|lia|lia|lia|]. intros r4 n4 H4 Hr4 Hs4.
  apply (log2_loop_step 1); [lia|lia|lia|lia|]. intros r5 n5 H5 Hr5 Hs5.
  cbn [log2_loop]. replace n5 with 1 by lia. simpl. lia.
Qed.

(** The height of the entry with index [j] of a locator for a node of height [H], the
    step taken after it, and the index of the genesis block. *)
Definition loc_height (H j : Z) : Z := Z.max 0 (if j <=? 11 then H - j else H - 9 - 2 ^ (j - 10)).
Definition loc_step (j : Z) : Z := if j <=? 10 then 1 else 2 ^ (j - 10).
Definition loc_last (H : Z) : Z := if H <=? 11 then H else 11 + Z.log2 (H - 10).

Lemma loc_height_next H j : 0 <= j -> 0 <= H -> loc_height H (j + 1) = Z.max 0 (loc_height H j - loc_step j).
Proof.
  intros Hj HH. unfold loc_height, loc_step. destruct (Z.leb_spec j 10).
  - rewrite (proj2 (Z.leb_le (j + 1) 11)), (proj2 (Z.leb_le j 11)) by lia. lia.
  - rewrite (proj2 (Z.leb_gt (j + 1) 11)) by lia. replace (j + 1 - 10) with (j - 10 + 1) by lia. rewrite Z.pow_add_r by lia.
    destruct (Z.leb_spec j 11); [assert (j = 11) as -> by lia; change (2 ^ (11 - 10)) with 2; lia|lia].
Qed.

Lemma loc_height_last H j : 0 <= H -> 0 <= j -> loc_height H j = 0 <-> loc_last H <= j.
Proof.
  intros HH Hj. unfold loc_height, loc_last. destruct (Z.leb_spec j 11).
  - destruct (Z.leb_spec H 11); [lia|]. pose proof (Z.log2_nonneg (H - 10)). destruct (Z.eq_dec j 11) as [->|]; [|lia].
    assert (Z.log2 (H - 10) >= 1); [|lia]. destruct (Z.eq_dec H 12) as [->|]; [done|]. pose proof (Z.log2_le_mono 2 (H - 10) ltac:(lia)). change (Z.log2 2) with 1 in *. lia.
  - destruct (Z.leb_spec H 11).
    + assert (2 ^ (j - 10) >= 2); [|lia]. pose proof (Z.pow_le_mono_r 2 1 (j - 10) ltac:(lia) ltac:(lia)). change (2 ^ 1) with 2 in *. lia.
    + pose proof (Z.log2_spec (H - 10) ltac:(lia)) as [Hlo Hhi]. pose proof (Z.log2_nonneg (H - 10)). set (k := Z.log2 (H - 10)) in *. split.
      * intros E. destruct (Z.le_gt_cases (11 + k) j) as [|Hlt]; [done|]. exfalso.
        pose proof (Z.pow_le_mono_r 2 (j - 10) k ltac:(lia) ltac:(lia)). lia.
      * intros Hle. pose proof (Z.pow_le_mono_r 2 (Z.succ k) (j - 10) ltac:(lia) ltac:(lia)). lia.
Qed.

Lemma loc_height_range H j : 0 <= H -> 0 <= j -> 0 <= loc_height H j <= H.
Proof.
  intros HH Hj. unfold loc_height. destruct (Z.leb_spec j 11); [lia|]. pose proof (Z.pow_nonneg 2 (j - 10) ltac:(lia)). lia.
Qed.

Lemma loc_step_small H j : 0 <= j -> H < 2 ^ 31 - 1 -> j < loc_last H -> 1 <= loc_step j < 2 ^ 31.
Proof.
  intros Hj HH Hl. unfold loc_step, loc_last in *. destruct (Z.leb_spec j 10); [lia|]. destruct (Z.leb_spec H 11); [lia|].
  pose proof (Z.log2_spec (H - 10) ltac:(lia)) as [Hlo _]. pose proof (Z.pow_le_mono_r 2 (j - 10) (Z.log2 (H - 10)) ltac:(lia) ltac:(lia)).
  pose proof (Z.pow_pos_nonneg 2 (j - 10) ltac:(lia) ltac:(lia)). lia.
Qed.

Definition hash_at (n : blockNode) (h : Z) : bytes := default [] (n_hash <$> chain n !! Z.to_nat h).

(** Below a node of both branches the branches agree. *)
Lemma chain_lookup_below n m h : node_wf n -> m ∈ chain n -> 0 <= h <= height m -> chain m !! Z.to_nat h = chain n !! Z.to_nat h.
Proof.
  intros Hwf Hm Hh. apply elem_of_chain in Hm as [H0 Hm]; [|done]. destruct (chain_lookup n _ m Hwf Hm) as (_ & _ & ->).
  rewrite lookup_take_lt by lia. done.
Qed.

Lemma locator_loop_spec c l n : view_ok c l -> node_wf n ->
  forall k fuel j m step locator, loc_last (height n) = j + Z.of_nat k -> (k < fuel)%nat -> 0 <= j -> len locator = j ->
  m ∈ chain n -> height m = loc_height (height n) j -> (0 < Z.of_nat k -> step = loc_step j) ->
  locator_loop fuel c (Some m) step locator =
    Ret (locator ++ map (fun i => hash_at n (loc_height (height n) (j + Z.of_nat i))) (seq 0 (S k))).
Proof.
  intros Hv Hwf. pose proof (height_nonneg n Hwf) as Hn. set (H := height n) in *.
  induction k as [|k IH]; intros [|fuel] j m step locator Hl Hf Hj Hloc Hm Eh Hstep; try lia; cbn [locator_loop].
  all: assert (n_hash m = hash_at n (loc_height H (j + Z.of_nat 0))) as Em.
  1, 3: unfold hash_at; rewrite Z.add_0_r, <- Eh; apply elem_of_chain in Hm as [_ ->]; done.
  - rewrite Eh, (proj2 (loc_height_last H j ltac:(lia) Hj)) by lia. cbn [Z.eqb seq map]. by rewrite Em.
  - assert (loc_height H j <> 0) as Hnz by (intros E; apply (loc_height_last H j) in E; lia).
    rewrite Eh, (proj2 (Z.eqb_neq _ 0)) by done. pose proof (loc_height_range H j ltac:(lia) Hj) as Hr.
    pose proof (loc_step_small H j Hj ltac:(lia) ltac:(lia)) as Hs. rewrite Hstep by lia. cbv zeta. rewrite (int32_small (loc_height H j - loc_step j)) by lia.
    assert ((if loc_height H j - loc_step j <? 0 then 0 else loc_height H j - loc_step j) = loc_height H (j + 1)) as ->.
    { rewrite loc_height_next by lia. destruct (Z.ltb_spec (loc_height H j - loc_step j) 0); lia. }
    pose proof (loc_height_range H (j + 1) ltac:(lia) ltac:(lia)) as Hr'.
    assert (loc_height H (j + 1) <= height m) as Hle by (rewrite Eh, loc_height_next by lia; lia).
    destruct (lookup_lt_is_Some_2 (chain n) (Z.to_nat (loc_height H (j + 1)))) as [m' Hm']; [rewrite chain_length by done; lia|].
    assert ((if contains c m then or_panic (index c (loc_height H (j + 1))) else mret (Ancestor m (loc_height H (j + 1)))) = Ret (Some m')) as ->.
    { assert (node_wf m) as Hwm by (apply elem_of_chain in Hm as [_ Hm]; [|done]; by destruct (chain_lookup n _ m Hwf Hm) as (_ & ? & _)).
      destruct (contains c m) eqn:Ec.
      - apply (contains_view c l) in Ec; [|done|lia]. destruct Hv as [|t Ht]; [by apply elem_of_nil in Ec|].
        rewrite index_nat, view_of_lookup by lia. rewrite <- (chain_lookup_below t m), (chain_lookup_below n m) by (done || lia). by rewrite Hm'.
      - rewrite Ancestor_spec by (done || lia). rewrite (chain_lookup_below n m) by (done || lia). by rewrite Hm'. }
    cbn [mbind outcome_bind]. rewrite (IH fuel (j + 1) m').
    + rewrite <- app_assoc. change (seq 0 (S (S k))) with (0%nat :: seq 1 (S k)). cbn [map app]. rewrite Em, <- seq_shift, map_map.
      rewrite (map_ext (fun i => hash_at n (loc_height H (j + 1 + Z.of_nat i))) (fun i => hash_at n (loc_height H (j + Z.of_nat (S i))))); [done|].
      intros i. do 2 f_equal. lia.
    + lia.
    + lia.
    + lia.
    + len_lia.
    + by eapply list_elem_of_lookup_2.
    + destruct (chain_lookup n _ m' Hwf Hm') as (-> & _). rewrite Z2Nat.id by lia. done.
    + intros Hk. rewrite len_app. change (len [n_hash m]) with 1. rewrite Hloc. unfold loc_step in *.
      pose proof (loc_step_small H (j + 1) ltac:(lia) ltac:(lia) ltac:(lia)) as Hs'. unfold loc_step in Hs'.
      destruct (Z.ltb_spec 10 (j + 1)); [|by rewrite (proj2 (Z.leb_le j 10)), (proj2 (Z.leb_le (j + 1) 10)) by lia].
      rewrite (proj2 (Z.leb_gt (j + 1) 10)) in * by lia. destruct (Z.leb_spec j 10).
      * assert (j = 10) as -> by lia. done.
      * replace (j + 1 - 10) with (j - 10 + 1) in * by lia. rewrite Z.pow_add_r in * by lia. change (2 ^ 1) with 2 in *. rewrite int32_small by lia. done.
Qed.

(** C29: the block locator of a node is the hashes of its branch at the heights that go
    down one by one eleven times and then in steps that double, ends with the genesis
    block, is the same whether or not the node is in the view, and has exactly the
    number of entries that the code reserves. *)
Theorem block_locator (t n : blockNode) (Ht : node_wf t) (Hn : node_wf n) :
  exists loc, blockLocator (view_of t) (Some n) = Ret loc /\ len loc = maxEntries n /\
    loc = map (fun j => hash_at n (loc_height (height n) (Z.of_nat j))) (seq 0 (length loc)) /\
    loc_height (height n) 0 = height n /\ loc_height (height n) (len loc - 1) = 0 /\
    forall j, 0 <= j < len loc - 1 -> loc_height (height n) (j + 1) = Z.max 0 (loc_height (height n) j - loc_step j).
Proof.
  pose proof (height_nonneg n Hn) as Hh. set (H := height n) in *.
  assert (0 <= loc_last H <= H) as Hl.
  { unfold loc_last. destruct (Z.leb_spec H 11); [lia|]. pose proof (Z.log2_nonneg (H - 10)).
    pose proof (Z.log2_lt_lin (H - 10) ltac:(lia)). lia. }
  exists (map (fun j => hash_at n (loc_height H (Z.of_nat j))) (seq 0 (S (Z.to_nat (loc_last H))))).
  rewrite length_map, length_seq. assert (len (map (fun j => hash_at n (loc_height H (Z.of_nat j))) (seq 0 (S (Z.to_nat (loc_last H))))) = loc_last H + 1) as Elen.
  { unfold len. rewrite length_map, length_seq. lia. }
  split; [|split; [|split; [done|split; [|split]]]].
  - unfold blockLocator. rewrite (locator_loop_spec _ _ n (view_tip t Ht) Hn (Z.to_nat (loc_last H)) _ 0);
      [done|fold H; lia|fold H; lia|lia|done|by eapply list_elem_of_lookup_2, chain_self| |done].
    unfold loc_height. simpl. fold H. lia.
  - rewrite Elen. unfold maxEntries, loc_last. fold H. destruct (Z.leb_spec H 12).
    + rewrite (uwrap_small 8 H), uwrap_small by lia. destruct (Z.leb_spec H 11); [lia|]. assert (H = 12) as -> by lia. done.
    + rewrite (proj2 (Z.leb_gt H 11)) by lia. rewrite (uwrap_small 32 H), (uwrap_small 32 (H - 10)) by lia. rewrite fastLog2Floor_spec by lia.
      pose proof (Z.log2_nonneg (H - 10)). pose proof (proj1 (Z.log2_lt_pow2 (H - 10) 31 ltac:(lia)) ltac:(lia)). rewrite uwrap_small by lia. lia.
  - unfold loc_height. simpl. lia.
  - rewrite Elen. apply loc_height_last; lia.
  - intros j Hj. apply loc_height_next; lia.
Qed.

Lemma block_locator_witness : exists loc, blockLocator (view_of demo_b) (Some demo_a) = Ret loc /\ len loc = 3.
Proof.
  destruct (block_locator demo_b demo_a) as (loc & E & Hl & _); [vm_compute; repeat split; lia..|]. exists loc. split; [exact E|]. rewrite Hl. reflexivity.
Defined.
