(* ===== verification/ThresholdState.v ===== *)
(** Soft-fork deployment (BIP0009): the threshold state machine with its caches
    (src/blockchain/thresholdstate.go) and the version bits that drive it
    (src/blockchain/versionbits.go). *)

From stdpp Require Import gmap sorting.
From S2P Require Import Prelude Sha Wire MsgTx SigHash ChainParams Block RuleErr Difficulty BlockIndex.

Inductive ThresholdState : Type :=
| ThresholdDefined
| ThresholdStarted
| ThresholdLockedIn
| ThresholdActive
| ThresholdFailed.

#[global] Instance ThresholdState_eq_dec : EqDecision ThresholdState.
Proof. solve_decision. Defined.

(** * Caches *)

Abbreviation thresholdStateCache := (gmap bytes ThresholdState).

(** The caches of the chain instance: one for each deployment and one for each bit. *)
Record caches : Type := mkCaches {
  deploymentCaches : list thresholdStateCache;
  warningCaches : list thresholdStateCache;
  unknownRulesWarned : bool;
  unknownVersionsWarned : bool
}.

Abbreviation Chain := (St ruleerr caches).

(** A pointer to one of the caches. *)
Inductive cacheRef : Type := DeploymentCache (id : nat) | WarningCache (bit : nat).

#[global] Instance cacheRef_eq_dec : EqDecision cacheRef.
Proof. solve_decision. Defined.

Definition cache_at (r : cacheRef) (s : caches) : thresholdStateCache :=
  match r with
  | DeploymentCache id => default ∅ (deploymentCaches s !! id)
  | WarningCache bit => default ∅ (warningCaches s !! bit)
  end.

Definition set_cache (r : cacheRef) (c : thresholdStateCache) (s : caches) : caches :=
  match r with
  | DeploymentCache id => mkCaches (<[id := c]> (deploymentCaches s)) (warningCaches s) (unknownRulesWarned s) (unknownVersionsWarned s)
  | WarningCache bit => mkCaches (deploymentCaches s) (<[bit := c]> (warningCaches s)) (unknownRulesWarned s) (unknownVersionsWarned s)
  end.

Definition cache_Lookup (r : cacheRef) (hash : bytes) : Chain (option ThresholdState) := gets (fun s => cache_at r s !! hash).
Definition cache_Update (r : cacheRef) (hash : bytes) (state : ThresholdState) : Chain () :=
  modify (fun s => set_cache r (<[hash := state]> (cache_at r s)) s).

Definition newThresholdCaches (numCaches : nat) : list thresholdStateCache := repeat ∅ numCaches.

(** * The state machine *)

(** The interface of a condition checker; a nil node makes a condition panic. *)
Record thresholdConditionChecker : Type := mkChecker {
  BeginTime : Z;
  EndTime : Z;
  Condition : blockNode -> Chain bool
}.

Section threshold.
Context `{GlobalConf} (chainParams : Params).

Definition confirmationWindow : Z := int32 (MinerConfirmationWindow chainParams).

(** The median time of a node as the unsigned number that is compared. *)
Definition median_time (node : blockNode) : outcome ruleerr Z :=
  medianTime ← CalcPastMedianTime node;
  mret (uint64 medianTime).

(** The walk back to a node whose state is known; the fuel counts the windows. *)
Fixpoint gather (fuel : nat) (checker : thresholdConditionChecker) (cache : cacheRef)
    (prevNode : option blockNode) (neededStates : list blockNode) : Chain (option blockNode * list blockNode) :=
  match fuel, prevNode with
  | O, _ | _, None => mret (prevNode, neededStates)
  | S fuel', Some node =>
    found ← cache_Lookup cache (n_hash node);
    match found with
    | Some _ => mret (Some node, neededStates)
    | None =>
      medianTime ← lift (median_time node);
      if medianTime <? BeginTime checker then
        cache_Update cache (n_hash node) ThresholdDefined;;
        mret (Some node, neededStates)
      else gather fuel' checker cache (RelativeAncestor node confirmationWindow) (neededStates ++ [node])
    end
  end.

Fixpoint count_loop (n : nat) (checker : thresholdConditionChecker) (countNode : option blockNode) (count : Z) : Chain Z :=
  match n with
  | O => mret count
  | S n' =>
    node ← lift (or_panic countNode);
    condition ← Condition checker node;
    count_loop n' checker (parent node) (if condition : bool then uint32 (count + 1) else count)
  end.

Definition transition (checker : thresholdConditionChecker) (node : blockNode) (state : ThresholdState) : Chain ThresholdState :=
  match state with
  | ThresholdDefined =>
    medianTimeUnix ← lift (median_time node);
    if EndTime checker <=? medianTimeUnix then mret ThresholdFailed
    else if BeginTime checker <=? medianTimeUnix then mret ThresholdStarted
    else mret state
  | ThresholdStarted =>
    medianTime ← lift (median_time node);
    if EndTime checker <=? medianTime then mret ThresholdFailed else
    count ← count_loop (Z.to_nat confirmationWindow) checker (Some node) 0;
    if RuleChangeActivationThreshold chainParams <=? count then mret ThresholdLockedIn else mret state
  | ThresholdLockedIn => mret ThresholdActive
  | ThresholdActive => mret ThresholdActive
  | ThresholdFailed => mret ThresholdFailed
  end.

(** The nodes from the oldest to the newest. *)
Fixpoint advance (nodes : list blockNode) (checker : thresholdConditionChecker) (cache : cacheRef) (state : ThresholdState) :
    Chain ThresholdState :=
  match nodes with
  | [] => mret state
  | node :: nodes' =>
    state ← transition checker node state;
    cache_Update cache (n_hash node) state;;
    advance nodes' checker cache state
  end.

Definition thresholdState (prevNode : option blockNode) (checker : thresholdConditionChecker) (cache : cacheRef) : Chain ThresholdState :=
  if (BeginTime checker =? MaxInt64) && (EndTime checker =? MaxInt64) then mret ThresholdActive else
  match prevNode with
  | None => mret ThresholdDefined
  | Some node =>
    if int32 (height node + 1) <? confirmationWindow then mret ThresholdDefined else
    if confirmationWindow =? 0 then lift Panic else
    let prevNode := Ancestor node (int32 (height node - Z.rem (int32 (height node + 1)) confirmationWindow)) in
    '(prevNode, neededStates) ← gather (S (Z.to_nat (height node + 1))) checker cache prevNode [];
    state ← (match prevNode with
             | None => mret ThresholdDefined
             | Some known =>
               found ← cache_Lookup cache (n_hash known);
               match found with Some state => mret state | None => mthrow AssertError end
             end);
    advance (rev neededStates) checker cache state
  end.

(** * Version bits *)

Definition vbLegacyBlockVersion : Z := 4.
Definition vbTopBits : Z := 0x20000000.
Definition vbTopMask : Z := 0xe0000000.
Definition vbNumBits : Z := 29.
Definition unknownVerNumToCheck : Z := 100.
Definition unknownVerWarnNum : Z := Z.quot unknownVerNumToCheck 2.

Definition deployment_condition (deployment : ConsensusDeployment) (node : blockNode) : bool :=
  let conditionMask := uint32 (1 <<< BitNumber deployment) in
  let version := uint32 (n_version node) in
  (version &&& vbTopMask =? vbTopBits) && negb (version &&& conditionMask =? 0).

Definition deploymentChecker (deployment : ConsensusDeployment) : thresholdConditionChecker :=
  mkChecker (StartTime deployment) (ExpireTime deployment) (fun node => mret (deployment_condition deployment node)).

Fixpoint version_loop (deployments : list ConsensusDeployment) (id : nat) (prevNode : option blockNode) (expectedVersion : Z) : Chain Z :=
  match deployments with
  | [] => mret expectedVersion
  | deployment :: deployments' =>
    state ← thresholdState prevNode (deploymentChecker deployment) (DeploymentCache id);
    version_loop deployments' (S id) prevNode
      (if bool_decide (state = ThresholdStarted \/ state = ThresholdLockedIn)
       then expectedVersion ||| uint32 (1 <<< BitNumber deployment) else expectedVersion)
  end.

Definition calcNextBlockVersion (prevNode : option blockNode) : Chain Z :=
  expectedVersion ← version_loop (Deployments chainParams) 0 prevNode vbTopBits;
  mret (int32 expectedVersion).

Definition bitConditionChecker (bit : Z) : thresholdConditionChecker :=
  mkChecker 0 (2 ^ 64 - 1) (fun node =>
    let conditionMask := uint32 (1 <<< bit) in
    let version := uint32 (n_version node) in
    if negb (version &&& vbTopMask =? vbTopBits) then mret false else
    if version &&& conditionMask =? 0 then mret false else
    expectedVersion ← calcNextBlockVersion (parent node);
    mret (uint32 expectedVersion &&& conditionMask =? 0)).

(** The bound of the check admits the number of deployments itself, for which the
    array is indexed out of range. *)
Definition deploymentState (prevNode : option blockNode) (deploymentID : Z) : Chain ThresholdState :=
  if uint32 (len (Deployments chainParams)) <? deploymentID then mthrow (DeploymentError deploymentID) else
  deployment ← lift (or_panic (index (Deployments chainParams) deploymentID));
  thresholdState prevNode (deploymentChecker deployment) (DeploymentCache (Z.to_nat deploymentID)).

Fixpoint rule_loop (fuel : nat) (bit : Z) (node : blockNode) : Chain () :=
  match fuel with
  | O => mret ()
  | S fuel' =>
    state ← thresholdState (parent node) (bitConditionChecker bit) (WarningCache (Z.to_nat bit));
    (match state with
     | ThresholdActive =>
       modify (fun s => mkCaches (deploymentCaches s) (warningCaches s) true (unknownVersionsWarned s))
     | _ => mret ()
     end);;
    rule_loop fuel' (bit + 1) node
  end.

(** The log messages are left out. *)
Definition warnUnknownRuleActivations (node : blockNode) : Chain () := rule_loop (Z.to_nat vbNumBits) 0 node.

Fixpoint upgraded_loop (n : nat) (node : option blockNode) (numUpgraded : Z) : Chain Z :=
  match n, node with
  | O, _ | _, None => mret numUpgraded
  | S n', Some node =>
    expectedVersion ← calcNextBlockVersion (parent node);
    upgraded_loop n' (parent node)
      (if (vbLegacyBlockVersion <? expectedVersion) && negb (int32 (Z.ldiff (n_version node) expectedVersion) =? 0)
       then numUpgraded + 1 else numUpgraded)
  end.

Definition warnUnknownVersions (node : blockNode) : Chain () :=
  warned ← gets unknownVersionsWarned;
  if warned : bool then mret () else
  numUpgraded ← upgraded_loop (Z.to_nat unknownVerNumToCheck) (Some node) 0;
  if unknownVerWarnNum <? numUpgraded
  then modify (fun s => mkCaches (deploymentCaches s) (warningCaches s) (unknownRulesWarned s) true)
  else mret ().

Fixpoint init_warnings (fuel : nat) (bit : Z) (prevNode : option blockNode) : Chain () :=
  match fuel with
  | O => mret ()
  | S fuel' =>
    thresholdState prevNode (bitConditionChecker bit) (WarningCache (Z.to_nat bit));;
    init_warnings fuel' (bit + 1) prevNode
  end.

Fixpoint init_deployments (deployments : list ConsensusDeployment) (id : nat) (prevNode : option blockNode) : Chain () :=
  match deployments with
  | [] => mret ()
  | deployment :: deployments' =>
    thresholdState prevNode (deploymentChecker deployment) (DeploymentCache id);;
    init_deployments deployments' (S id) prevNode
  end.

(** [isCurrent] is whether the chain believes to be in sync. *)
Definition initThresholdCaches (bestNode : option blockNode) (isCurrent : bool) : Chain () :=
  node ← lift (or_panic bestNode);
  let prevNode := parent node in
  init_warnings (Z.to_nat vbNumBits) 0 prevNode;;
  init_deployments (Deployments chainParams) 0 prevNode;;
  if isCurrent then warnUnknownVersions node;; warnUnknownRuleActivations node else mret ().
End threshold.
