(* ===== verification/ThresholdProps.v ===== *)
(** The median time of a block: it is characterized by the number of earlier times, and
    it never goes back on a branch that obeys the time rule. *)

From stdpp Require Import gmap sorting.
From S2P Require Import Prelude Sha Wire MsgTx SigHash ChainParams Block RuleErr Difficulty BlockIndex ChainView ThresholdState.

(** * Medians *)

(** In a sorted list the entry with index [k] is at least [m] exactly when at most [k]
    entries are below [m]. *)
Definition below (m : Z) (l : list Z) : nat := length (filter (fun y => y < m) l).

Lemma below_perm m l l' : l ≡ₚ l' -> below m l = below m l'.
Proof. intros H. unfold below. by rewrite H. Qed.

Lemma below_cons m x l : below m (x :: l) = ((if decide (x < m)%Z then 1 else 0) + below m l)%nat.
Proof. unfold below. rewrite filter_cons. by destruct (decide (x < m)). Qed.

Lemma below_0 m l : Forall (fun y => m <= y) l -> below m l = 0%nat.
Proof. induction 1 as [|y l Hy Hl IH]; [done|]. rewrite below_cons, IH. by destruct (decide (y < m)); [lia|]. Qed.

Lemma below_app m l l' : below m (l ++ l') = (below m l + below m l')%nat.
Proof. induction l as [|x l IH]; [done|]. cbn [app]. rewrite !below_cons, IH. lia. Qed.

Lemma sorted_lookup_below m l k x : StronglySorted Z.le l -> l !! k = Some x -> m <= x <-> (below m l <= k)%nat.
Proof.
  intros HS. revert k. induction HS as [|y l HS IH HF]; intros k Hk; [done|]. rewrite below_cons. destruct k as [|k].
  - injection Hk as ->. destruct (decide (x < m)); [lia|]. split; [intros _|lia]. rewrite below_0; [lia|].
    eapply Forall_impl; [|exact HF]. simpl. lia.
  - simpl in Hk. specialize (IH k Hk). assert (y <= x) by (rewrite Forall_forall in HF; apply HF; by eapply list_elem_of_In, list_elem_of_lookup_2).
    destruct (decide (y < m)); [lia|]. split; [intros|lia]. apply IH in H0. lia.
Qed.

Lemma merge_sort_sorted l : StronglySorted Z.le (merge_sort Z.le l).
Proof. apply (StronglySorted_merge_sort Z.le). Qed.

Lemma merge_sort_perm (l : list Z) : merge_sort Z.le l ≡ₚ l.
Proof. apply merge_sort_Permutation. Qed.

Section median.
Context `{GlobalConf} (Hblocks : 0 < MedianTimeBlocks gConf).

Definition window_times (n : blockNode) : list Z := past_timestamps (Z.to_nat (MedianTimeBlocks gConf)) n.

Definition mtp (n : blockNode) : Z := match CalcPastMedianTime n with Ret m => m | _ => 0 end.

Lemma past_timestamps_prefix k p : past_timestamps k p = take k (past_timestamps (S k) p).
Proof.
  revert p. induction k as [|k IH]; intros p; [done|]. cbn [past_timestamps]. destruct (parent p) as [q|]; [|by destruct k].
  rewrite firstn_cons. f_equal. rewrite IH at 1. done.
Qed.

Lemma past_timestamps_length k n : (length (past_timestamps k n) <= k)%nat.
Proof. revert n. induction k as [|k IH]; intros n; cbn [past_timestamps length]; [lia|]. destruct (parent n) as [p|]; [pose proof (IH p)|simpl]; lia. Qed.

Lemma window_times_pos n : (0 < length (window_times n))%nat.
Proof. unfold window_times. destruct (Z.to_nat _) eqn:E; [lia|]. simpl. lia. Qed.

(** The median exists, and is characterized by the number of smaller times. *)
Lemma CalcPastMedianTime_ok n : CalcPastMedianTime n = Ret (mtp n) /\ forall v, v <= mtp n <-> (below v (window_times n) <= length (window_times n) / 2)%nat.
Proof.
  unfold mtp, CalcPastMedianTime. fold (window_times n). cbv zeta. pose proof (window_times_pos n) as Hp. pose proof (merge_sort_perm (window_times n)) as HP.
  pose proof (Permutation_length HP) as HL. unfold index. rewrite Z.quot_div_nonneg by len_lia. rewrite (proj2 (Z.leb_le 0 (len _ / 2))) by (apply Z.div_pos; len_lia).
  replace (Z.to_nat (len (merge_sort Z.le (window_times n)) / 2)) with (length (window_times n) / 2)%nat.
  2:{ unfold len. rewrite HL. change 2 with (Z.of_nat 2). rewrite <- Nat2Z.inj_div. lia. }
  destruct (lookup_lt_is_Some_2 (merge_sort Z.le (window_times n)) (length (window_times n) / 2)) as [x Hx]; [rewrite HL; apply Nat.div_lt; lia|].
  rewrite Hx. cbn [or_panic]. split; [done|]. intros v. rewrite (sorted_lookup_below v _ _ x (merge_sort_sorted _) Hx). by rewrite (below_perm v _ _ HP).
Qed.

Lemma below_take v k l : (below v (take k l) <= below v l)%nat.
Proof. rewrite <- (take_drop k l) at 2. rewrite below_app. lia. Qed.

(** The time rule keeps the median from going back. *)
Lemma mtp_monotone n p : parent n = Some p -> mtp p < n_timestamp n -> mtp p <= mtp n.
Proof.
  intros Ep Ht. apply (proj2 (CalcPastMedianTime_ok n)). pose proof (proj1 (proj2 (CalcPastMedianTime_ok p) (mtp p)) ltac:(lia)) as Hb.
  assert (exists k, Z.to_nat (MedianTimeBlocks gConf) = S k) as [k Ek] by (destruct (Z.to_nat (MedianTimeBlocks gConf)) eqn:E; [lia|by eexists]).
  assert (window_times n = n_timestamp n :: take k (window_times p)) as ->.
  { unfold window_times. rewrite Ek. cbn [past_timestamps]. rewrite Ep. f_equal. apply past_timestamps_prefix. }
  rewrite below_cons. destruct (decide (n_timestamp n < mtp p)); [lia|]. pose proof (below_take (mtp p) k (window_times p)).
  pose proof (past_timestamps_length (S k) p) as Hl. rewrite <- Ek in Hl. fold (window_times p) in Hl. cbn [length]. rewrite length_take. rewrite Ek in Hl.
  assert (length (window_times p) / 2 <= S (k `min` length (window_times p)) / 2)%nat; [|lia]. apply Nat.Div0.div_le_mono. lia.
Qed.

(** A branch whose blocks are newer than the median of their ancestors. *)
Fixpoint times_ok (n : blockNode) : Prop :=
  match parent n with None => True | Some p => mtp p < n_timestamp n /\ times_ok p end.

Lemma times_ok_step n : times_ok n <-> match parent n with None => True | Some p => mtp p < n_timestamp n /\ times_ok p end.
Proof. by destruct n. Qed.

Lemma mtp_chain n m : times_ok n -> m ∈ chain n -> mtp m <= mtp n /\ times_ok m.
Proof.
  induction n as [n IH] using node_ind. intros Ht Hm. rewrite chain_step, elem_of_app, list_elem_of_singleton in Hm.
  destruct Hm as [Hm| ->]; [|split; [lia|done]]. apply times_ok_step in Ht. destruct (parent n) as [p|] eqn:Ep; [|by apply elem_of_nil in Hm].
  destruct Ht as [Ht Hp]. destruct (IH Hp Hm) as [Hle ?]. split; [|done]. pose proof (mtp_monotone n p Ep Ht). lia.
Qed.
End median.
