(* ===== verification/Deployments.v ===== *)
(** The deployment states against BIP0009.  A reference machine computes the state of a
    rule from a branch alone, one step for each confirmation window; the routines of
    thresholdstate.go and versionbits.go, which walk back to a cached state, share their
    caches between branches and stop early for rules that have not begun, return what
    the machine returns and never panic. *)

From stdpp Require Import gmap sorting.
From S2P Require Import Prelude Sha Wire MsgTx SigHash ChainParams Block RuleErr Difficulty BlockIndex ChainView ThresholdState ThresholdProps.

(** * The reference machine *)

Record rule : Type := mkRule { r_begin : Z; r_end : Z; r_signals : blockNode -> bool }.

Section reference.
Context `{GlobalConf} (chainParams : Params).

Definition window : nat := Z.to_nat (confirmationWindow chainParams).

(** The last node of the [k]-th window of a branch, counted from one. *)
Definition boundary (n : blockNode) (k : nat) : option blockNode :=
  match k with O => None | S _ => chain n !! (k * window - 1)%nat end.

Definition last_nodes (count : nat) (l : list blockNode) : list blockNode := drop (length l - count) l.

Definition signalling (ru : rule) (count : nat) (l : list blockNode) : Z := len (filter (fun m => r_signals ru m = true) (last_nodes count l)).

Definition bip9_step (ru : rule) (b : blockNode) (st : ThresholdState) : ThresholdState :=
  match st with
  | ThresholdDefined => if r_end ru <=? mtp b then ThresholdFailed else if r_begin ru <=? mtp b then ThresholdStarted else ThresholdDefined
  | ThresholdStarted =>
    if r_end ru <=? mtp b then ThresholdFailed
    else if RuleChangeActivationThreshold chainParams <=? signalling ru window (chain b) then ThresholdLockedIn else ThresholdStarted
  | ThresholdLockedIn => ThresholdActive
  | ThresholdActive => ThresholdActive
  | ThresholdFailed => ThresholdFailed
  end.

Fixpoint period_state (ru : rule) (n : blockNode) (k : nat) : ThresholdState :=
  match k with
  | O => ThresholdDefined
  | S k' => match boundary n k with None => ThresholdDefined | Some b => bip9_step ru b (period_state ru n k') end
  end.

Definition periods (n : blockNode) : nat := (length (chain n) / window)%nat.

(** The state for the block after [prev]. *)
Definition bip9 (ru : rule) (prev : option blockNode) : ThresholdState :=
  if (r_begin ru =? MaxInt64) && (r_end ru =? MaxInt64) then ThresholdActive else
  match prev with None => ThresholdDefined | Some n => period_state ru n (periods n) end.

Definition deployment_rule (d : ConsensusDeployment) : rule := mkRule (StartTime d) (ExpireTime d) (deployment_condition d).

Definition version_bits (prev : option blockNode) : Z :=
  foldl (fun v d => if bool_decide (bip9 (deployment_rule d) prev = ThresholdStarted \/ bip9 (deployment_rule d) prev = ThresholdLockedIn)
                    then v ||| uint32 (1 <<< BitNumber d) else v) vbTopBits (Deployments chainParams).

(** A block signals for an unknown rule with a bit that no known rule asks for. *)
Definition bit_rule (bit : Z) : rule := mkRule 0 (2 ^ 64 - 1) (fun node =>
  (uint32 (n_version node) &&& vbTopMask =? vbTopBits) && negb (uint32 (n_version node) &&& uint32 (1 <<< bit) =? 0)
  && (uint32 (int32 (version_bits (parent node))) &&& uint32 (1 <<< bit) =? 0)).

Definition rule_of (r : cacheRef) : option rule :=
  match r with
  | DeploymentCache id => deployment_rule <$> (Deployments chainParams !! id)
  | WarningCache bit => if decide (Z.of_nat bit < vbNumBits) then Some (bit_rule (Z.of_nat bit)) else None
  end.
End reference.

(** * The known blocks *)

Section known.
Context `{GlobalConf} (Hblocks : 0 < MedianTimeBlocks gConf).

Definition known (bi : blockIndex) (n : blockNode) : Prop := LookupNode bi (n_hash n) = Some n.

(** Every block of the index is on top of a block of the index and is newer than the
    median of its ancestors, as the header rules demand. *)
Definition node_placed (bi : blockIndex) (h : bytes) (n : blockNode) : Prop :=
  n_hash n = h /\ height n < 2 ^ 31 - 1 /\ 0 <= n_timestamp n < 2 ^ 63 /\
  match parent n with None => height n = 0 | Some p => height n = height p + 1 /\ mtp p < n_timestamp n /\ known bi p end.

Definition index_ok (bi : blockIndex) : Prop := map_Forall (node_placed bi) (bi_index bi).

Lemma known_placed bi n : index_ok bi -> known bi n -> node_placed bi (n_hash n) n.
Proof. intros Hbi Hn. by apply Hbi. Qed.

Lemma known_ok bi n : index_ok bi -> known bi n -> node_wf n /\ times_ok n /\ (forall m, m ∈ chain n -> known bi m).
Proof.
  intros Hbi. induction n as [n IH] using node_ind. intros Hn. destruct (known_placed bi n Hbi Hn) as (_ & Hh & _ & Hp).
  rewrite node_wf_step, times_ok_step. destruct (parent n) as [p|] eqn:Ep.
  - destruct Hp as (Eh & Ht & Hk). destruct (IH Hk) as (? & ? & Hc). split; [done|]. split; [done|].
    intros m Hm. rewrite chain_step, Ep, elem_of_app, list_elem_of_singleton in Hm. destruct Hm as [Hm| ->]; [by apply Hc|done].
  - split; [done|]. split; [done|]. intros m Hm. rewrite chain_step, Ep in Hm. by apply list_elem_of_singleton in Hm as ->.
Qed.

Lemma known_mtp bi n : index_ok bi -> known bi n -> 0 <= mtp n < 2 ^ 63.
Proof.
  intros Hbi Hn. assert (forall k m, known bi m -> Forall (fun t => 0 <= t < 2 ^ 63) (past_timestamps k m)) as Hts.
  { induction k as [|k IH]; intros m Hm; [constructor|]. cbn [past_timestamps]. destruct (known_placed bi m Hbi Hm) as (_ & _ & Ht & Hp).
    constructor; [done|]. destruct (parent m) as [p|]; [|constructor]. apply IH, Hp. }
  specialize (Hts (Z.to_nat (MedianTimeBlocks gConf)) n Hn). fold (window_times n) in Hts. destruct (CalcPastMedianTime_ok Hblocks n) as [_ Hm]. split.
  - apply Hm. rewrite below_0; [lia|]. eapply Forall_impl; [|exact Hts]. simpl. lia.
  - destruct (Z.lt_ge_cases (mtp n) (2 ^ 63)) as [|Hge]; [done|]. apply Hm in Hge. pose proof (window_times_pos Hblocks n) as Hpos.
    assert (below (2 ^ 63) (window_times n) = length (window_times n)) as E; [|rewrite E in Hge; pose proof (Nat.div_lt (length (window_times n)) 2); lia].
    clear -Hts. induction Hts as [|t l Ht _ IH]; [done|]. rewrite below_cons, IH. by destruct (decide (t < 2 ^ 63)); [|lia].
Qed.

(** Adding a block keeps the index in order. *)
Lemma AddNode_index_ok bi n :
  index_ok bi -> bi_index bi !! n_hash n = None -> node_placed bi (n_hash n) n -> index_ok (AddNode n bi) /\ (forall m, known bi m -> known (AddNode n bi) m).
Proof.
  intros Hbi Hnew Hn. assert (forall m, known bi m -> known (AddNode n bi) m) as Hmono.
  { intros m Hm. unfold known, LookupNode in *. cbn. rewrite lookup_insert_ne; [done|]. intros E. rewrite <- E in Hm. congruence. }
  assert (forall h m, node_placed bi h m -> node_placed (AddNode n bi) h m) as Hpl.
  { intros h m (? & ? & ? & Hp). do 3 (split; [done|]). destruct (parent m); [|done]. destruct Hp as (? & ? & ?). auto. }
  split; [|done]. unfold index_ok. cbn. apply map_Forall_insert_2; [by apply Hpl|]. intros h m Hm. by apply Hpl, Hbi.
Qed.
End known.

(** * The cached computation *)

Section cached.
Context `{GlobalConf} (Hblocks : 0 < MedianTimeBlocks gConf) (chainParams : Params) (bi : blockIndex).
Abbreviation W := (confirmationWindow chainParams).
Abbreviation window := (window chainParams).
Abbreviation boundary := (boundary chainParams).
Abbreviation period_state := (period_state chainParams).
Abbreviation known := (known bi).
Context (HW : 0 < W) (Hbi : index_ok bi).
Context (Hdep : Forall (fun d => StartTime d <= ExpireTime d) (Deployments chainParams)).

(** Whatever the caches hold for a boundary is its state. *)
Definition coherent (s : caches) : Prop :=
  length (deploymentCaches s) = length (Deployments chainParams) /\ length (warningCaches s) = Z.to_nat vbNumBits /\
  forall r ru b k st, rule_of chainParams r = Some ru -> known b -> length (chain b) = (S k * window)%nat ->
    cache_at r s !! n_hash b = Some st -> st = period_state ru b (S k).

Definition gives {A} (m : Chain A) (a : A) : Prop :=
  forall s, coherent s -> wp m (fun x s' => x = a /\ coherent s') (fun _ _ => False) s.

Lemma run_gives_ret {A} (a : A) : gives (mret a) a.
Proof. intros s Hs. by apply wp_ret. Qed.

Lemma run_gives_bind {A B} (m : Chain A) (f : A -> Chain B) a b : gives m a -> gives (f a) b -> gives (m ≫= f) b.
Proof. intros Hm Hf s Hs. apply wp_bind. eapply wp_mono; [by apply Hm| |done]. intros x s' [-> Hs']. by apply Hf. Qed.

Lemma gives_run {A} (m : Chain A) a s : gives m a -> coherent s -> exists s', m s = (Ret a, s') /\ coherent s'.
Proof. intros Hm Hs. specialize (Hm s Hs). unfold wp in Hm. destruct (m s) as [[] s']; [|done..]. destruct Hm as [-> ?]. by exists s'. Qed.

Lemma gives_median b : known b -> gives (lift (median_time b)) (mtp b).
Proof.
  intros Hb s Hs. apply wp_lift. unfold median_time. rewrite (proj1 (CalcPastMedianTime_ok Hblocks b)). cbn. split; [|done].
  pose proof (known_mtp Hblocks bi b Hbi Hb). apply uwrap_small. lia.
Qed.

Lemma window_pos : (0 < window)%nat.
Proof. unfold Deployments.window. lia. Qed.

Lemma known_chain n : known n -> node_wf n /\ times_ok n /\ (forall m, m ∈ chain n -> known m).
Proof. by apply known_ok. Qed.

Lemma boundary_lookup n k : known n -> (S k * window <= length (chain n))%nat ->
  exists b, boundary n (S k) = Some b /\ known b /\ length (chain b) = (S k * window)%nat /\ chain b = take (S k * window) (chain n).
Proof.
  intros Hn Hk. pose proof window_pos. destruct (known_chain n Hn) as (Hwf & _ & Hc).
  destruct (lookup_lt_is_Some_2 (chain n) (S k * window - 1)) as [b Hb]; [lia|]. exists b.
  destruct (chain_lookup n _ b Hwf Hb) as (_ & _ & E). replace (S (S k * window - 1)) with (S k * window)%nat in E by lia.
  split; [done|]. split; [by eapply Hc, list_elem_of_lookup_2|]. split; [|done]. rewrite E, length_take. lia.
Qed.

Lemma boundary_prefix n b j : (j * window <= length (chain b))%nat -> chain b = take (length (chain b)) (chain n) -> boundary b j = boundary n j.
Proof.
  intros Hj E. destruct j as [|j]; [done|]. pose proof window_pos. unfold Deployments.boundary. rewrite E. rewrite lookup_take_lt by lia. done.
Qed.

Lemma period_prefix ru n b j : (j * window <= length (chain b))%nat -> chain b = take (length (chain b)) (chain n) -> period_state ru b j = period_state ru n j.
Proof.
  intros Hj E. induction j as [|j IH]; [done|]. cbn [Deployments.period_state]. rewrite (boundary_prefix n b (S j) Hj E).
  rewrite IH by lia. done.
Qed.

Lemma take_full {A} (l : list A) : l = take (length l) l.
Proof. by rewrite firstn_all. Qed.

Lemma boundary_self b k : known b -> length (chain b) = (S k * window)%nat -> boundary b (S k) = Some b.
Proof.
  intros Hb Hl. destruct (known_chain b Hb) as (Hwf & _ & _). unfold Deployments.boundary. pose proof (chain_self b Hwf) as Hs.
  rewrite (chain_length b Hwf) in Hl. rewrite <- Hs. f_equal. lia.
Qed.

(** Before the begin of a rule every boundary is in the first state. *)
Lemma early_defined ru b k : known b -> length (chain b) = (S k * window)%nat -> r_begin ru <= r_end ru -> mtp b < r_begin ru ->
  period_state ru b (S k) = ThresholdDefined.
Proof.
  intros Hb Hl Hru Hm. revert b Hb Hl Hm. induction k as [|k IH]; intros b Hb Hl Hm; cbn [Deployments.period_state]; rewrite (boundary_self b _ Hb Hl).
  - cbn [Deployments.period_state bip9_step]. rewrite (proj2 (Z.leb_gt (r_end ru) (mtp b))), (proj2 (Z.leb_gt (r_begin ru) (mtp b))) by lia. done.
  - destruct (boundary_lookup b k Hb) as (c & Hc & Hkc & Hlc & Ec); [lia|]. destruct (known_chain b Hb) as (Hwf & Ht & Hch).
    assert (c ∈ chain b) as Hin by (apply list_elem_of_lookup_2 with (i := (S k * window - 1)%nat), Hc).
    destruct (mtp_chain Hblocks b c Ht Hin) as [Hle _].
    assert (period_state ru b (S k) = ThresholdDefined) as E.
    { rewrite <- (period_prefix ru b c (S k)); [|lia|rewrite Hlc; done]. apply IH; [done..|lia]. }
    cbn [Deployments.period_state] in E. rewrite E. cbn [bip9_step].
    rewrite (proj2 (Z.leb_gt (r_end ru) (mtp b))), (proj2 (Z.leb_gt (r_begin ru) (mtp b))) by lia. done.
Qed.

(** ** The caches *)

Lemma cache_in_range r ru s : coherent s -> rule_of chainParams r = Some ru ->
  match r with DeploymentCache id => (id < length (deploymentCaches s))%nat | WarningCache bit => (bit < length (warningCaches s))%nat end.
Proof.
  intros (Hd & Hw & _) Hr. destruct r as [id|bit]; cbn in Hr.
  - destruct (Deployments chainParams !! id) eqn:E; [|done]. apply lookup_lt_Some in E. lia.
  - destruct (decide _) as [Hb|]; [|done]. change vbNumBits with 29 in *. lia.
Qed.

Lemma cache_at_set r ru s c r' : coherent s -> rule_of chainParams r = Some ru ->
  cache_at r' (set_cache r c s) = if decide (r = r') then c else cache_at r' s.
Proof.
  intros Hs Hr. pose proof (cache_in_range r ru s Hs Hr). destruct r as [i|i], r' as [j|j]; cbn; destruct (decide _) as [E|E]; try done.
  all: first [injection E as <-; by rewrite list_lookup_insert_eq | rewrite list_lookup_insert_ne by congruence; done].
Qed.

Lemma gives_update r ru b k : rule_of chainParams r = Some ru -> known b -> length (chain b) = (S k * window)%nat ->
  forall s, coherent s -> coherent (set_cache r (<[n_hash b := period_state ru b (S k)]> (cache_at r s)) s).
Proof.
  intros Hr Hb Hl s Hs. pose proof Hs as (Hd & Hw & Hc). split; [destruct r; cbn; rewrite ?length_insert; done|].
  split; [destruct r; cbn; rewrite ?length_insert; done|]. intros r' ru' b' k' st Hr' Hb' Hl' Hlook.
  rewrite (cache_at_set r ru s _ r' Hs Hr) in Hlook. destruct (decide _) as [E|E]; [|by eapply Hc].
  subst r'. rewrite Hr in Hr'. injection Hr' as <-.
  destruct (decide (n_hash b = n_hash b')) as [Eh|Eh].
  - rewrite Eh, lookup_insert_eq in Hlook. injection Hlook as <-. unfold Deployments.known in *. rewrite Eh in Hb. rewrite Hb in Hb'. injection Hb' as <-.
    rewrite Hl in Hl'. pose proof window_pos. assert (k = k') as -> by nia. done.
  - rewrite lookup_insert_ne in Hlook by done. by eapply Hc.
Qed.

(** ** One step *)

Record implements (checker : thresholdConditionChecker) (ru : rule) : Prop := {
  imp_begin : BeginTime checker = r_begin ru;
  imp_end : EndTime checker = r_end ru;
  imp_condition : forall b, known b -> gives (Condition checker b) (r_signals ru b)
}.

Definition ochain (o : option blockNode) : list blockNode := match o with Some n => chain n | None => [] end.

Lemma signalling_snoc ru n l b :
  signalling ru (S n) (l ++ [b]) = signalling ru n l + (if r_signals ru b then 1 else 0).
Proof.
  unfold signalling, last_nodes. rewrite length_app. cbn [length]. replace (length l + 1 - S n)%nat with (length l - n)%nat by lia.
  rewrite drop_app_le by lia. rewrite list.filter_app, len_app, filter_cons, filter_nil. destruct (r_signals ru b); cbn; done.
Qed.

Lemma signalling_0 ru l : signalling ru 0 l = 0.
Proof. unfold signalling, last_nodes. rewrite Nat.sub_0_r, drop_all. done. Qed.

Lemma count_loop_ok checker ru (Hc : implements checker ru) n o c : (match o with Some b => known b | None => True end) -> (n <= length (ochain o))%nat ->
  0 <= c -> c + Z.of_nat n < 2 ^ 32 -> gives (count_loop n checker o c) (c + signalling ru n (ochain o)).
Proof.
  revert o c. induction n as [|n IH]; intros o c Hb Hn H0 Hmax.
  { cbn [count_loop]. rewrite signalling_0, Z.add_0_r. apply run_gives_ret. }
  destruct o as [b|]; [|simpl in Hn; lia]. cbn [count_loop ochain or_panic] in *. eapply run_gives_bind; [by apply (run_gives_ret b)|].
  eapply run_gives_bind; [by apply Hc|]. rewrite chain_step, length_app in Hn. cbn [length] in Hn. rewrite chain_step, signalling_snoc.
  destruct (known_chain b Hb) as (_ & _ & Hk). rewrite chain_step in Hk.
  replace (c + (_ + _)) with ((if r_signals ru b then uint32 (c + 1) else c) + signalling ru n (ochain (parent b))).
  - apply IH.
    + destruct (parent b) as [p|]; [|done]. apply Hk. rewrite elem_of_app. left. rewrite chain_step, elem_of_app, list_elem_of_singleton. by right.
    + unfold ochain. lia.
    + destruct (r_signals ru b); [|lia]. rewrite (uwrap_small 32 (c + 1)); lia.
    + destruct (r_signals ru b); [rewrite (uwrap_small 32 (c + 1)); lia|lia].
  - unfold ochain. destruct (r_signals ru b); [rewrite (uwrap_small 32 (c + 1)); lia|lia].
Qed.

Lemma transition_ok checker ru (Hc : implements checker ru) b st : known b -> (window <= length (chain b))%nat ->
  gives (transition chainParams checker b st) (bip9_step chainParams ru b st).
Proof.
  intros Hb Hl. destruct st; cbn [transition bip9_step]; try apply run_gives_ret.
  - eapply run_gives_bind; [by apply gives_median|]. rewrite (imp_end _ _ Hc), (imp_begin _ _ Hc). repeat case_match; apply run_gives_ret.
  - eapply run_gives_bind; [by apply gives_median|]. rewrite (imp_end _ _ Hc). case_match; [apply run_gives_ret|].
    eapply run_gives_bind; [apply (count_loop_ok checker ru Hc); [done|done|lia|]|].
    { pose proof (swrap_range 32 (MinerConfirmationWindow chainParams)). unfold confirmationWindow, int32 in *. lia. }
    rewrite Z.add_0_l. fold window. cbn [ochain]. case_match; apply run_gives_ret.
Qed.
(** ** The walk *)

(** The boundaries after the [j]-th up to the [k]-th. *)
Definition bnodes (n : blockNode) (j k : nat) : list blockNode := omap (boundary n) (seq (S j) (k - j)).

Lemma bnodes_snoc n j k b : (j <= k)%nat -> boundary n (S k) = Some b -> bnodes n j (S k) = bnodes n j k ++ [b].
Proof.
  intros Hj Hb. unfold bnodes. replace (S k - j)%nat with (k - j + 1)%nat by lia. rewrite seq_app, omap_app. f_equal.
  cbn [seq]. replace (S j + (k - j))%nat with (S k) by lia. cbn [omap list_omap]. by rewrite Hb.
Qed.

Lemma bnodes_cons n j k b : (j < k)%nat -> boundary n (S j) = Some b -> bnodes n j k = b :: bnodes n (S j) k.
Proof.
  intros Hj Hb. unfold bnodes. replace (k - j)%nat with (S (k - S j)) by lia. cbn [seq omap list_omap]. by rewrite Hb.
Qed.

Lemma RelativeAncestor_boundary n k b : known n -> boundary n (S k) = Some b -> RelativeAncestor b W = boundary n k.
Proof.
  intros Hn Hb. pose proof window_pos. destruct (known_chain n Hn) as (Hwf & _ & Hk). unfold Deployments.boundary in Hb.
  destruct (chain_lookup n _ b Hwf Hb) as (Eh & Hwb & E). pose proof (height_nonneg b Hwb). pose proof (height_nonneg n Hwf).
  assert (Z.of_nat window = W) as EW by (unfold Deployments.window; lia).
  assert (height b = Z.of_nat (S k) * W - 1) as Ehb by nia. unfold RelativeAncestor.
  pose proof (swrap_range 32 (MinerConfirmationWindow chainParams)) as Hr. fold (confirmationWindow chainParams) in Hr. change (swrap 32 (MinerConfirmationWindow chainParams)) with W in Hr.
  rewrite (int32_small (height b - W)) by lia. destruct k as [|k].
  - unfold Ancestor. rewrite (proj2 (Z.ltb_lt (height b - W) 0)) by lia. done.
  - rewrite Ancestor_spec by (try done; nia). cbn [Deployments.boundary]. rewrite E. rewrite lookup_take_lt by nia. f_equal. nia.
Qed.

Context (checker : thresholdConditionChecker) (r : cacheRef) (ru : rule).
Context (Hchk : implements checker ru) (Hr : rule_of chainParams r = Some ru) (Hru : r_begin ru <= r_end ru).

Lemma gather_ok n (Hn : known n) k : (k * window <= length (chain n))%nat -> forall fuel acc s, (k < fuel)%nat -> coherent s ->
  wp (gather chainParams fuel checker r (boundary n k) acc) (fun res s' => coherent s' /\ exists j, (j <= k)%nat /\
      res = (boundary n j, acc ++ rev (bnodes n j k)) /\
      match boundary n j with Some b => cache_at r s' !! n_hash b = Some (period_state ru n j) | None => j = 0%nat end)
    (fun _ _ => False) s.
Proof.
  induction k as [|k IH]; intros Hk fuel acc s Hf Hs; (destruct fuel as [|fuel]; [lia|]).
  { cbn. split; [done|]. exists 0%nat. by rewrite app_nil_r. }
  destruct (boundary_lookup n k Hn Hk) as (b & Hb & Hkb & Hlb & Eb). rewrite Hb.
  assert (period_state ru b (S k) = period_state ru n (S k)) as Ep by (apply period_prefix; rewrite Hlb; done).
  cbn [gather]. apply wp_bind. unfold cache_Lookup. apply wp_gets. destruct (cache_at r s !! n_hash b) as [st|] eqn:Elook.
  - apply wp_ret. split; [done|]. exists (S k). split; [lia|]. unfold bnodes. rewrite Nat.sub_diag. cbn [seq omap list_omap rev]. rewrite app_nil_r, Hb.
    split; [done|]. rewrite Elook. f_equal. rewrite <- Ep. destruct Hs as (_ & _ & Hc). by eapply Hc.
  - apply wp_bind. eapply wp_mono; [by apply (gives_median b Hkb)| |done]. intros x s' [-> Hs']. rewrite (imp_begin _ _ Hchk).
    destruct (Z.ltb_spec (mtp b) (r_begin ru)) as [Hlt|Hge].
    + apply wp_bind. unfold cache_Update. apply wp_modify. apply wp_ret. rewrite <- (early_defined ru b k Hkb Hlb Hru Hlt).
      split; [by apply gives_update|]. exists (S k). split; [lia|]. unfold bnodes. rewrite Nat.sub_diag. cbn [seq omap list_omap rev]. rewrite app_nil_r, Hb.
      split; [done|]. rewrite (cache_at_set r ru s' _ r Hs' Hr), decide_True by done. rewrite lookup_insert_eq. by f_equal.
    + rewrite (RelativeAncestor_boundary n k b Hn Hb). eapply wp_mono; [apply IH; [lia|lia|exact Hs']| |done].
      intros res s'' (Hs'' & j & Hj & -> & Hl). split; [done|]. exists j. split; [lia|]. split; [|done].
      rewrite (bnodes_snoc n j k b Hj Hb), rev_app_distr. cbn [rev app]. by rewrite <- app_assoc.
Qed.

Lemma advance_ok n (Hn : known n) k d : forall j, (j + d = k)%nat -> (k * window <= length (chain n))%nat ->
  gives (advance chainParams (bnodes n j k) checker r (period_state ru n j)) (period_state ru n k).
Proof.
  induction d as [|d IH]; intros j Hj Hk.
  { replace j with k by lia. unfold bnodes. rewrite Nat.sub_diag. apply run_gives_ret. }
  pose proof window_pos. destruct (boundary_lookup n j Hn) as (b & Hb & Hkb & Hlb & Eb); [nia|].
  rewrite (bnodes_cons n j k b) by (try lia; done). cbn [advance].
  assert (bip9_step chainParams ru b (period_state ru n j) = period_state ru n (S j)) as Es by (cbn [Deployments.period_state]; by rewrite Hb).
  eapply run_gives_bind; [apply (transition_ok checker ru Hchk); [done|nia]|]. rewrite Es. apply (run_gives_bind _ _ ()); [|apply IH; lia].
  intros s Hs. unfold cache_Update. apply wp_modify. split; [done|].
  rewrite <- (period_prefix ru n b (S j)) by (rewrite Hlb; done). by apply gives_update.
Qed.

Definition oknown (o : option blockNode) : Prop := match o with Some n => known n | None => True end.

Lemma thresholdState_ok prev : oknown prev -> gives (thresholdState chainParams prev checker r) (bip9 chainParams ru prev).
Proof.
  intros Hn. unfold thresholdState, bip9. rewrite (imp_begin _ _ Hchk), (imp_end _ _ Hchk). destruct (_ && _); [apply run_gives_ret|].
  destruct prev as [n|]; [|apply run_gives_ret]. cbn in Hn. destruct (known_chain n Hn) as (Hwf & _ & _). pose proof (height_nonneg n Hwf) as Hh.
  pose proof (chain_length n Hwf) as Hl. assert (Z.of_nat window = W) as EW by (unfold Deployments.window; lia). pose proof window_pos as Hwp.
  rewrite (int32_small (height n + 1)) by lia. unfold periods. fold window.
  destruct (Z.ltb_spec (height n + 1) W) as [Hlt|Hge]; [rewrite Nat.div_small by lia; apply run_gives_ret|].
  rewrite (proj2 (Z.eqb_neq W 0)) by lia. set (k := (length (chain n) / window)%nat).
  assert (k * window <= length (chain n))%nat as Hk by (rewrite Nat.mul_comm; apply Nat.Div0.mul_div_le).
  pose proof (Nat.div_mod (length (chain n)) window ltac:(lia)) as Hdm. fold k in Hdm.
  pose proof (Nat.mod_upper_bound (length (chain n)) window ltac:(lia)) as Hmod.
  assert (exists k', k = S k') as [k' Ek] by (destruct k; [nia|by eexists]).
  assert (Ancestor n (int32 (height n - Z.rem (height n + 1) W)) = boundary n k) as ->.
  { rewrite Z.rem_mod_nonneg by lia. replace ((height n + 1) mod W) with (Z.of_nat (length (chain n) mod window)).
    2:{ rewrite Nat2Z.inj_mod, EW. f_equal. lia. }
    rewrite int32_small by nia. rewrite Ancestor_spec by (try done; nia). rewrite Ek. unfold Deployments.boundary. rewrite <- Ek. f_equal. nia. }
  cbv zeta. intros s Hs. apply wp_bind. eapply wp_mono; [apply (gather_ok n Hn k Hk); [nia|done]| |done].
  intros res s' (Hs' & j & Hj & -> & Hm). rewrite app_nil_l, rev_involutive. apply wp_bind.
  apply wp_mono with (Q := fun st s'' => st = period_state ru n j /\ coherent s'') (X := fun _ _ => False); [|intros st s'' [-> Hs'']|done].
  - destruct (boundary n j) as [b|]; [|subst j; by apply wp_ret]. apply wp_bind. unfold cache_Lookup. apply wp_gets. rewrite Hm. by apply wp_ret.
  - apply (advance_ok n Hn k (k - j)); [lia|done|done].
Qed.
End cached.

(** * The known rules and the unknown ones *)

Section deployed.
Context `{GlobalConf} (Hblocks : 0 < MedianTimeBlocks gConf) (chainParams : Params) (bi : blockIndex).
Context (HW : 0 < confirmationWindow chainParams) (Hbi : index_ok bi).
Context (Hdep : Forall (fun d => StartTime d <= ExpireTime d) (Deployments chainParams)).
Abbreviation gives := (gives chainParams bi).

Lemma deployment_ok id d prev : Deployments chainParams !! id = Some d -> oknown bi prev ->
  gives (thresholdState chainParams prev (deploymentChecker d) (DeploymentCache id)) (bip9 chainParams (deployment_rule d) prev).
Proof.
  intros Hd. apply thresholdState_ok; [done..| | |].
  - split; [done..|]. intros b _. apply run_gives_ret.
  - cbn. by rewrite Hd.
  - rewrite Forall_forall in Hdep. apply Hdep. by eapply list_elem_of_In, list_elem_of_lookup_2.
Qed.

Lemma version_loop_ok ds id prev v : (forall i, ds !! i = Deployments chainParams !! (id + i)%nat) -> oknown bi prev ->
  gives (version_loop chainParams ds id prev v)
    (foldl (fun v d => if bool_decide (bip9 chainParams (deployment_rule d) prev = ThresholdStarted \/ bip9 chainParams (deployment_rule d) prev = ThresholdLockedIn)
                       then v ||| uint32 (1 <<< BitNumber d) else v) v ds).
Proof.
  intros Hds Hp. revert id v Hds. induction ds as [|d ds IH]; intros id v Hds; [apply run_gives_ret|]. cbn [version_loop foldl].
  eapply run_gives_bind; [apply (deployment_ok id d); [|done]|].
  - pose proof (Hds 0%nat) as E. rewrite Nat.add_0_r in E. by rewrite <- E.
  - apply IH. intros i. pose proof (Hds (S i)) as E. etrans; [exact E|]. f_equal. lia.
Qed.

Lemma calcNextBlockVersion_ok prev : oknown bi prev -> gives (calcNextBlockVersion chainParams prev) (int32 (version_bits chainParams prev)).
Proof. intros Hp. eapply run_gives_bind; [by apply (version_loop_ok (Deployments chainParams) 0)|]. apply run_gives_ret. Qed.

Lemma bit_ok bit prev : (Z.of_nat bit < vbNumBits) -> oknown bi prev ->
  gives (thresholdState chainParams prev (bitConditionChecker chainParams (Z.of_nat bit)) (WarningCache bit)) (bip9 chainParams (bit_rule chainParams (Z.of_nat bit)) prev).
Proof.
  intros Hb. apply thresholdState_ok; [done..| | |cbn; lia].
  - split; [done..|]. intros b Hk. cbn [Condition bitConditionChecker bit_rule r_signals]. cbv zeta.
    destruct (_ =? vbTopBits); cbn [negb andb]; [|apply run_gives_ret]. destruct (_ =? 0); cbn [negb andb]; [apply run_gives_ret|].
    eapply run_gives_bind; [apply calcNextBlockVersion_ok|apply run_gives_ret]. destruct (known_placed bi b Hbi Hk) as (_ & _ & _ & Hp).
    destruct (parent b); [apply Hp|done].
  - cbn. by rewrite decide_True.
Qed.

Lemma init_warnings_ok fuel bit prev : (bit + fuel <= Z.to_nat vbNumBits)%nat -> oknown bi prev -> gives (init_warnings chainParams fuel (Z.of_nat bit) prev) ().
Proof.
  intros Hf Hp. revert bit Hf. induction fuel as [|fuel IH]; intros bit Hf; [apply run_gives_ret|]. cbn [init_warnings]. rewrite Nat2Z.id.
  eapply run_gives_bind; [apply bit_ok; [change vbNumBits with 29 in *; lia|done]|]. replace (Z.of_nat bit + 1) with (Z.of_nat (S bit)) by lia. apply IH. lia.
Qed.

Lemma init_deployments_ok ds id prev : (forall i, ds !! i = Deployments chainParams !! (id + i)%nat) -> oknown bi prev -> gives (init_deployments chainParams ds id prev) ().
Proof.
  intros Hds Hp. revert id Hds. induction ds as [|d ds IH]; intros id Hds; [apply run_gives_ret|]. cbn [init_deployments].
  eapply run_gives_bind; [apply (deployment_ok id d); [|done]|].
  - pose proof (Hds 0%nat) as E. rewrite Nat.add_0_r in E. by rewrite <- E.
  - apply IH. intros i. pose proof (Hds (S i)) as E. etrans; [exact E|]. f_equal. lia.
Qed.

(** The flags of the warnings do not touch the caches. *)
Lemma gives_flags r v : gives (modify (fun s => mkCaches (deploymentCaches s) (warningCaches s) (r s) (v s))) ().
Proof. intros s (Hd & Hw & Hc). apply wp_modify. split; [done|]. split; [done|]. split; [done|]. intros [id|bit]; [apply (Hc (DeploymentCache id))|apply (Hc (WarningCache bit))]. Qed.

Lemma known_parent n : known bi n -> oknown bi (parent n).
Proof. intros Hn. destruct (known_placed bi n Hbi Hn) as (_ & _ & _ & Hp). destruct (parent n); [apply Hp|done]. Qed.

Lemma rule_loop_ok fuel bit n : (bit + fuel <= Z.to_nat vbNumBits)%nat -> known bi n -> gives (rule_loop chainParams fuel (Z.of_nat bit) n) ().
Proof.
  intros Hf Hn. revert bit Hf. induction fuel as [|fuel IH]; intros bit Hf; [apply run_gives_ret|]. cbn [rule_loop]. rewrite Nat2Z.id.
  eapply run_gives_bind; [apply bit_ok; [change vbNumBits with 29 in *; lia|by apply known_parent]|].
  apply (run_gives_bind _ _ _ _ ()); [case_match; try apply run_gives_ret; apply gives_flags|].
  replace (Z.of_nat bit + 1) with (Z.of_nat (S bit)) by lia. apply IH. lia.
Qed.

Lemma upgraded_loop_ok k o c : oknown bi o -> exists c', gives (upgraded_loop chainParams k o c) c'.
Proof.
  revert o c. induction k as [|k IH]; intros o c Ho; [eexists; apply run_gives_ret|]. destruct o as [n|]; [|eexists; apply run_gives_ret].
  cbn [upgraded_loop]. pose proof (known_parent n Ho) as Hp. edestruct (IH (parent n)) as [c' Hc']; [done|].
  exists c'. eapply run_gives_bind; [by apply calcNextBlockVersion_ok|exact Hc'].
Qed.

Lemma initThresholdCaches_ok n isCurrent s : known bi n -> coherent chainParams bi s ->
  wp (initThresholdCaches chainParams (Some n) isCurrent) (fun _ s' => coherent chainParams bi s') (fun _ _ => False) s.
Proof.
  intros Hn Hs. pose proof (known_parent n Hn) as Hp. unfold initThresholdCaches. cbn [or_panic].
  assert (forall A (m : Chain A) a, gives m a -> forall s, coherent chainParams bi s -> wp m (fun _ s' => coherent chainParams bi s') (fun _ _ => False) s) as Hdrop.
  { intros A m a Hm s0 Hs0. eapply wp_mono; [by apply Hm| |done]. by intros x s' [_ ?]. }
  apply wp_bind, wp_lift. cbn [or_panic]. apply wp_bind. eapply wp_mono; [eapply Hdrop; [exact (init_warnings_ok (Z.to_nat vbNumBits) 0 (parent n) (le_n _) Hp)|done]| |done]. intros [] s1 Hs1.
  apply wp_bind. eapply wp_mono; [eapply Hdrop; [exact (init_deployments_ok (Deployments chainParams) 0 (parent n) (fun _ => eq_refl) Hp)|done]| |done]. intros [] s2 Hs2.
  destruct isCurrent; [|by apply wp_ret]. apply wp_bind. eapply wp_mono with (Q := fun _ s' => coherent chainParams bi s') (X := fun _ _ => False); [| |done].
  - unfold warnUnknownVersions. apply wp_bind, wp_gets. case_match; [by apply wp_ret|]. destruct (upgraded_loop_ok (Z.to_nat unknownVerNumToCheck) (Some n) 0 Hn) as [c Hc].
    apply wp_bind. eapply wp_mono; [by apply Hc| |done]. intros x s3 [-> Hs3]. case_match; [eapply Hdrop; [apply gives_flags|done]|by apply wp_ret].
  - intros [] s3 Hs3. eapply Hdrop; [exact (rule_loop_ok (Z.to_nat vbNumBits) 0 n (le_n _) Hn)|done].
Qed.

(** Fresh caches are coherent. *)
Lemma new_caches_coherent r v :
  coherent chainParams bi (mkCaches (newThresholdCaches (length (Deployments chainParams))) (newThresholdCaches (Z.to_nat vbNumBits)) r v).
Proof.
  unfold newThresholdCaches. split; [apply repeat_length|]. split; [apply repeat_length|]. intros rf ru b k st _ _ _ Hl.
  assert (cache_at rf (mkCaches (repeat ∅ (length (Deployments chainParams))) (repeat ∅ (Z.to_nat vbNumBits)) r v) = ∅) as E.
  { assert (forall (n i : nat), default ∅ (repeat (∅ : thresholdStateCache) n !! i) = ∅) as Hrep; [|by destruct rf; apply Hrep].
    intros n i. destruct (repeat ∅ n !! i) as [c|] eqn:Ec; [|done]. apply list_elem_of_lookup_2, list_elem_of_In, repeat_spec in Ec. by subst. }
  rewrite E in Hl. by rewrite lookup_empty in Hl.
Qed.
End deployed.

(** * Progress *)

Section progress.
Context `{GlobalConf} (Hblocks : 0 < MedianTimeBlocks gConf) (chainParams : Params) (bi : blockIndex).
Context (HW : 0 < confirmationWindow chainParams) (Hbi : index_ok bi).
Abbreviation window := (window chainParams).
Abbreviation period_state := (period_state chainParams).

Lemma period_step ru m k : known bi m -> (S k <= periods chainParams m)%nat ->
  exists b, boundary chainParams m (S k) = Some b /\ period_state ru m (S k) = bip9_step chainParams ru b (period_state ru m k).
Proof.
  intros Hm Hk. destruct (boundary_lookup chainParams bi HW Hbi m k Hm) as (b & Hb & _).
  - unfold periods in Hk. pose proof (Nat.Div0.mul_div_le (length (chain m)) window). nia.
  - exists b. cbn [Deployments.period_state]. by rewrite Hb.
Qed.

Lemma final_stays ru m j k st : known bi m -> (st = ThresholdActive \/ st = ThresholdFailed) -> (j <= k <= periods chainParams m)%nat ->
  period_state ru m j = st -> period_state ru m k = st.
Proof.
  intros Hm Hst [Hjk Hk] Hj. induction k as [|k IH]; [by replace j with 0%nat in Hj by lia|].
  destruct (decide (j = S k)) as [->|]; [done|]. destruct (period_step ru m k Hm Hk) as (b & _ & ->).
  rewrite IH by lia. by destruct Hst as [-> | ->].
Qed.

Lemma locked_activates ru m j k : known bi m -> (j < k <= periods chainParams m)%nat -> period_state ru m j = ThresholdLockedIn -> period_state ru m k = ThresholdActive.
Proof.
  intros Hm Hk Hj. apply (final_stays ru m (S j)); [done|by left|lia|]. destruct (period_step ru m j Hm) as (b & _ & ->); [lia|]. by rewrite Hj.
Qed.

Lemma expired_decides ru m k b : known bi m -> boundary chainParams m (S k) = Some b -> r_end ru <= mtp b -> (S k <= periods chainParams m)%nat ->
  period_state ru m (S k) = ThresholdActive \/ period_state ru m (S k) = ThresholdFailed.
Proof.
  intros Hm Hb He Hk. destruct (period_step ru m k Hm Hk) as (b' & Hb' & ->). rewrite Hb in Hb'. injection Hb' as <-.
  unfold bip9_step. destruct (period_state ru m k); rewrite ?(proj2 (Z.leb_le (r_end ru) (mtp b)) He); auto.
Qed.

Lemma ancestor_prefix m n : known bi m -> n ∈ chain m -> known bi n /\ chain n = take (length (chain n)) (chain m) /\ length (chain n) = S (Z.to_nat (height n)).
Proof.
  intros Hm [i Hi]%list_elem_of_lookup. destruct (known_ok bi m Hbi Hm) as (Hwf & _ & Hk). destruct (chain_lookup m i n Hwf Hi) as (_ & Hn & E).
  assert (n ∈ chain m) as Hin by by eapply list_elem_of_lookup_2. split; [by apply Hk|]. split; [|by apply chain_length].
  rewrite E, length_take. apply lookup_lt_Some in Hi. replace (S i `min` length (chain m))%nat with (S i) by lia. done.
Qed.

Lemma periods_ancestor m n : known bi m -> n ∈ chain m -> (periods chainParams n <= periods chainParams m)%nat /\
  forall ru, period_state ru m (periods chainParams n) = period_state ru n (periods chainParams n).
Proof.
  intros Hm Hin. destruct (ancestor_prefix m n Hm Hin) as (Hn & E & _). split.
  - unfold periods. apply Nat.Div0.div_le_mono. rewrite E, length_take. lia.
  - intros ru. symmetry. apply period_prefix; [done| |done]. unfold periods. rewrite Nat.mul_comm. apply Nat.Div0.mul_div_le.
Qed.

Lemma periods_later m n : known bi m -> n ∈ chain m -> confirmationWindow chainParams <= height m - height n -> (periods chainParams n < periods chainParams m)%nat.
Proof.
  intros Hm Hin Hd. destruct (ancestor_prefix m n Hm Hin) as (Hn & E & Hl). destruct (known_ok bi m Hbi Hm) as (Hwf & _ & _).
  destruct (known_ok bi n Hbi Hn) as (Hwn & _ & _). pose proof (chain_length m Hwf). pose proof (height_nonneg m Hwf). pose proof (height_nonneg n Hwn).
  unfold periods. assert ((length (chain n) + 1 * window) / window <= length (chain m) / window)%nat as Hle by (apply Nat.Div0.div_le_mono; unfold Deployments.window; lia).
  rewrite Nat.div_add in Hle by (unfold Deployments.window; lia). lia.
Qed.

Lemma expired_later ru m n : known bi m -> n ∈ chain m -> confirmationWindow chainParams <= height m - height n -> r_end ru <= mtp n ->
  period_state ru m (periods chainParams m) = ThresholdActive \/ period_state ru m (periods chainParams m) = ThresholdFailed.
Proof.
  intros Hm Hin Hd He. pose proof (periods_later m n Hm Hin Hd) as Hlt. destruct (ancestor_prefix m n Hm Hin) as (Hn & E & Hl).
  set (k := periods chainParams n) in *. assert (0 < window)%nat as Hwp by (unfold Deployments.window; lia).
  destruct (period_step ru m k Hm Hlt) as (b & Hb & _). destruct (known_ok bi m Hbi Hm) as (Hwf & Ht & Hk).
  assert (b ∈ chain m) as Hbin by (eapply list_elem_of_lookup_2, Hb). assert (n ∈ chain b) as Hnb.
  { destruct (chain_lookup m _ b Hwf Hb) as (_ & _ & Eb). rewrite Eb. destruct (known_ok bi n Hbi Hn) as (Hwn & _ & _).
    pose proof (chain_self n Hwn) as Hs. rewrite E in Hs. apply lookup_take_Some in Hs as [Hs _].
    apply list_elem_of_lookup_2 with (i := Z.to_nat (height n)). rewrite lookup_take_lt; [done|].
    pose proof (Nat.div_mod (length (chain n)) window ltac:(lia)) as Hdm. pose proof (Nat.mod_upper_bound (length (chain n)) window ltac:(lia)).
    fold (periods chainParams n) in Hdm. fold k in Hdm. nia. }
  destruct (mtp_chain Hblocks b n) as [Hle _]; [|done|]. { by apply (mtp_chain Hblocks m b). }
  destruct (expired_decides ru m k b Hm Hb ltac:(lia) Hlt) as [Hs|Hs]; [left|right]; eapply final_stays; eauto; lia.
Qed.
End progress.

(** * The claims *)

Lemma deploymentState_index `{GlobalConf} chainParams prev id d : len (Deployments chainParams) < 2 ^ 32 -> Deployments chainParams !! id = Some d ->
  deploymentState chainParams prev (Z.of_nat id) = thresholdState chainParams prev (deploymentChecker d) (DeploymentCache id).
Proof.
  intros Hl Hd. pose proof (lookup_lt_Some _ _ _ Hd) as Hlt. unfold deploymentState. rewrite (uwrap_small 32 (len _)) by len_lia.
  rewrite (proj2 (Z.ltb_ge (len (Deployments chainParams)) (Z.of_nat id))) by (unfold len; lia). rewrite index_nat by lia. rewrite Nat2Z.id, Hd. done.
Qed.

(** The number one past the last deployment passes the bound check and then indexes the
    table out of range. *)
Lemma deploymentState_bound `{GlobalConf} chainParams prev s : len (Deployments chainParams) < 2 ^ 32 ->
  deploymentState chainParams prev (len (Deployments chainParams)) s = (Panic, s).
Proof.
  intros Hl. unfold deploymentState. rewrite (uwrap_small 32 (len _)) by len_lia. rewrite Z.ltb_irrefl. rewrite index_nat by len_lia.
  unfold len. rewrite Nat2Z.id. rewrite lookup_ge_None_2 by done. done.
Qed.

(** C13: The cached deployment states are those of BIP0009.  Over an index whose blocks
    obey the time rule, with caches that are coherent (fresh ones are), [deploymentState]
    and [calcNextBlockVersion] return for every block and on every branch exactly what
    the reference machine computes from that branch, [initThresholdCaches] succeeds, and
    the caches, which all branches share, stay coherent; nothing panics and the internal
    assertion error never occurs. *)
Theorem deployment_states `{GlobalConf} chainParams bi n s :
  0 < MedianTimeBlocks gConf -> 0 < confirmationWindow chainParams -> len (Deployments chainParams) < 2 ^ 32 ->
  Forall (fun d => StartTime d <= ExpireTime d) (Deployments chainParams) ->
  index_ok bi -> known bi n -> coherent chainParams bi s ->
  (forall id d, Deployments chainParams !! id = Some d -> exists s',
     deploymentState chainParams (Some n) (Z.of_nat id) s = (Ret (bip9 chainParams (deployment_rule d) (Some n)), s') /\ coherent chainParams bi s') /\
  (exists s', calcNextBlockVersion chainParams (Some n) s = (Ret (int32 (version_bits chainParams (Some n))), s') /\ coherent chainParams bi s') /\
  (forall isCurrent, exists s', initThresholdCaches chainParams (Some n) isCurrent s = (Ret (), s') /\ coherent chainParams bi s') /\
  (forall r v, coherent chainParams bi (mkCaches (newThresholdCaches (length (Deployments chainParams))) (newThresholdCaches (Z.to_nat vbNumBits)) r v)).
Proof.
  intros Hb HW Hl Hd Hbi Hn Hs. split; [|split; [|split]].
  - intros id d Hid. rewrite (deploymentState_index chainParams (Some n) id d Hl Hid). by apply gives_run; [apply deployment_ok|].
  - by apply gives_run; [apply calcNextBlockVersion_ok|].
  - intros c. pose proof (initThresholdCaches_ok Hb chainParams bi HW Hbi Hd n c s Hn Hs) as Hw. unfold wp in Hw.
    destruct (initThresholdCaches chainParams (Some n) c s) as [[[]| |] s']; [|done..]. by exists s'.
  - apply new_caches_coherent.
Qed.

(** C26: Every deployment is decided.  For a block [m] on top of a block [n], whatever
    branches were asked about before: a deployment that was active or failed after [n] is
    so after [m]; one that was locked in after [n] is active once a confirmation window
    lies between the two; and once the median time of [n] has reached the expiry of the
    deployment, one window later it is active or failed. *)
Theorem deployment_progress `{GlobalConf} chainParams bi n m id d st s s' s1 :
  0 < MedianTimeBlocks gConf -> 0 < confirmationWindow chainParams -> len (Deployments chainParams) < 2 ^ 32 ->
  Forall (fun d => StartTime d <= ExpireTime d) (Deployments chainParams) -> Deployments chainParams !! id = Some d ->
  index_ok bi -> known bi m -> n ∈ chain m -> coherent chainParams bi s -> coherent chainParams bi s1 ->
  deploymentState chainParams (Some n) (Z.of_nat id) s = (Ret st, s') ->
  exists st1 s1', deploymentState chainParams (Some m) (Z.of_nat id) s1 = (Ret st1, s1') /\
    (st = ThresholdActive \/ st = ThresholdFailed -> st1 = st) /\
    (confirmationWindow chainParams <= height m - height n ->
       (st = ThresholdLockedIn -> st1 = ThresholdActive) /\
       (ExpireTime d <= mtp n -> st1 = ThresholdActive \/ st1 = ThresholdFailed)).
Proof.
  intros Hb HW Hl Hd Hid Hbi Hm Hin Hs Hs1. destruct (ancestor_prefix bi Hbi m n Hm Hin) as (Hn & _).
  rewrite !(deploymentState_index chainParams _ id d Hl Hid). intros Hrun.
  destruct (gives_run chainParams bi _ _ s (deployment_ok Hb chainParams bi HW Hbi Hd id d (Some n) Hid Hn) Hs) as (s2 & E & _).
  rewrite E in Hrun. injection Hrun as <- _.
  destruct (gives_run chainParams bi _ _ s1 (deployment_ok Hb chainParams bi HW Hbi Hd id d (Some m) Hid Hm) Hs1) as (s3 & E1 & _).
  exists (bip9 chainParams (deployment_rule d) (Some m)), s3. split; [done|]. unfold bip9. destruct (_ && _); [naive_solver|].
  destruct (periods_ancestor chainParams bi HW Hbi m n Hm Hin) as [Hle Hpre]. rewrite <- Hpre. split; [|intros Hw; split].
  - intros Hst. by apply (final_stays chainParams bi HW Hbi _ m (periods chainParams n)).
  - intros Hst. apply (locked_activates chainParams bi HW Hbi _ m (periods chainParams n)); [done| |done].
    split; [by apply (periods_later chainParams bi)|done].
  - intros He. by apply (expired_later Hb chainParams bi HW Hbi _ m n).
Qed.

(** * A chain that locks in a rule *)

Definition demo_params : Params :=
  let p := PktMainNetParams in
  mkParams (GlobalConfOf p) (InitialNetworkSteward p) (GenesisHash p) (PowLimit p) (PowLimitBits p) (BIP0034Height p) (BIP0065Height p) (BIP0066Height p)
    (CoinbaseMaturity p) (SubsidyReductionInterval p) (TargetTimespan p) (TargetTimePerBlock p) (RetargetAdjustmentFactor p) (ReduceMinDifficulty p)
    (MinDiffReductionTime p) (Checkpoints p) 1 2 [mkDeployment 5 0 1000] (HDCoinType p).

(** Blocks that signal with bit 5, with windows of two blocks. *)
Fixpoint demo_node (k : nat) : blockNode :=
  mkNode (match k with O => None | S k' => Some (demo_node k') end) [to_byte (Z.of_nat k)] 0 (Z.of_nat k) 0x20000020 0 0 (100 + Z.of_nat k) [].

Definition demo_index : blockIndex := foldr AddNode newBlockIndex (map demo_node (seq 0 8)).

Definition demo_caches : caches := mkCaches (newThresholdCaches 1) (newThresholdCaches (Z.to_nat vbNumBits)) false false.

#[local] Instance demo_conf : GlobalConf := PktDefaults.

#[local] Instance node_placed_dec bi h n : Decision (node_placed bi h n).
Proof. unfold node_placed, known. destruct (parent n); apply _. Defined.

Lemma demo_index_ok : index_ok demo_index.
Proof. apply map_Forall_to_list. apply (bool_decide_unpack _). vm_compute. exact I. Qed.

Lemma demo_coherent : coherent demo_params demo_index demo_caches.
Proof. apply (new_caches_coherent demo_params demo_index). Qed.

Lemma deployment_states_witness : exists s', deploymentState demo_params (Some (demo_node 3)) 0 demo_caches = (Ret ThresholdLockedIn, s') /\ coherent demo_params demo_index s'.
Proof.
  destruct (deployment_states demo_params demo_index (demo_node 3) demo_caches) as [Hd _]; [reflexivity|reflexivity|reflexivity|repeat constructor; vm_compute; discriminate|exact demo_index_ok|vm_compute; reflexivity|exact demo_coherent|].
  destruct (Hd 0%nat (mkDeployment 5 0 1000) eq_refl) as (s' & E & Hs). exists s'. split; [|exact Hs]. etransitivity; [exact E|vm_compute; reflexivity].
Defined.

Lemma demo_run : exists s', deploymentState demo_params (Some (demo_node 3)) 0 demo_caches = (Ret ThresholdLockedIn, s').
Proof.
  assert (fst (deploymentState demo_params (Some (demo_node 3)) 0 demo_caches) = Ret ThresholdLockedIn) as E by (vm_compute; reflexivity).
  destruct (deploymentState demo_params (Some (demo_node 3)) 0 demo_caches) as [o s']. exists s'. by rewrite <- E.
Qed.

Lemma deployment_progress_witness : exists s', deploymentState demo_params (Some (demo_node 7)) 0 demo_caches = (Ret ThresholdActive, s').
Proof.
  destruct demo_run as [s0 E0].
  destruct (deployment_progress demo_params demo_index (demo_node 3) (demo_node 7) 0 (mkDeployment 5 0 1000) ThresholdLockedIn demo_caches s0 demo_caches) as (st & s' & E & _ & Hw);
    [reflexivity|reflexivity|reflexivity|repeat constructor; vm_compute; discriminate|reflexivity|exact demo_index_ok|vm_compute; reflexivity| |exact demo_coherent|exact demo_coherent|exact E0|].
  - apply (bool_decide_unpack _). vm_compute. exact I.
  - exists s'. destruct (Hw ltac:(vm_compute; discriminate)) as [Hl _]. rewrite (Hl eq_refl) in E. exact E.
Defined.
