(* ===== verification/ChainIO.v ===== *)
(** The records of the chain database: unspent outputs with their flags
    (src/blockchain/utxoviewpoint.go) and the serialization of outputs, of the spend
    journal, of the block index and of the best chain state
    (src/blockchain/chainio.go). *)

From S2P Require Import Prelude Sha Wire MsgTx Btcec ChainParams Compress.

(** * Unspent outputs *)

Definition tfCoinBase : Z := 1.
Definition tfSpent : Z := 2.
Definition tfModified : Z := 4.
Definition tfNetworkSteward : Z := 8.

Record UtxoEntry : Type := mkUtxo {
  ue_amount : Z;
  ue_pkScript : bytes;
  ue_blockHeight : Z;
  packedFlags : Z
}.

#[global] Instance UtxoEntry_eq_dec : EqDecision UtxoEntry.
Proof. solve_decision. Defined.

Definition set_flags (fl : Z) (entry : UtxoEntry) : UtxoEntry :=
  mkUtxo (ue_amount entry) (ue_pkScript entry) (ue_blockHeight entry) fl.

Definition isNetworkSteward (entry : UtxoEntry) : bool := packedFlags entry &&& tfNetworkSteward =? tfNetworkSteward.
Definition isModified (entry : UtxoEntry) : bool := packedFlags entry &&& tfModified =? tfModified.
Definition ue_IsCoinBase (entry : UtxoEntry) : bool := packedFlags entry &&& tfCoinBase =? tfCoinBase.
Definition IsSpent (entry : UtxoEntry) : bool := packedFlags entry &&& tfSpent =? tfSpent.

Definition Spend (entry : UtxoEntry) : UtxoEntry :=
  if IsSpent entry then entry else set_flags (packedFlags entry ||| (tfSpent ||| tfModified)) entry.

Definition dirtyGuessIsNetworkStewardPayment `{GlobalConf} (entry : UtxoEntry) : UtxoEntry :=
  if negb HasNetworkSteward then entry else
  if negb (packedFlags entry ||| tfCoinBase =? tfCoinBase) then entry else
  let subsidy := pktCalcBlockSubsidy (pktPeriodForBlock (ue_blockHeight entry)) in
  let tax := PktCalcNetworkStewardPayout subsidy in
  if ue_amount entry =? tax then set_flags (packedFlags entry ||| tfNetworkSteward) entry else entry.

(** * The spend journal *)

Record SpentTxOut : Type := mkStxo {
  st_Amount : Z;
  st_PkScript : bytes;
  st_Height : Z;
  st_IsCoinBase : bool
}.

#[global] Instance SpentTxOut_eq_dec : EqDecision SpentTxOut.
Proof. solve_decision. Defined.

Definition header_code (height : Z) (isCoinBase : bool) : Z :=
  let headerCode := uint64 (uint64 height <<< 1) in
  if isCoinBase then headerCode ||| 0x01 else headerCode.

Definition spentTxOutHeaderCode (stxo : SpentTxOut) : Z := header_code (st_Height stxo) (st_IsCoinBase stxo).

Definition spentTxOutSerializeSize (stxo : SpentTxOut) : Z :=
  let size := serializeSizeVLQ (spentTxOutHeaderCode stxo) in
  let size := if 0 <? st_Height stxo then size + serializeSizeVLQ 0 else size in
  size + compressedTxOutSize (uint64 (st_Amount stxo)) (st_PkScript stxo).

Definition putSpentTxOut (stxo : SpentTxOut) : Tgt Z :=
  let headerCode := spentTxOutHeaderCode stxo in
  offset ← putVLQ headerCode;
  offset ← (if 0 <? st_Height stxo then n ← on_tail offset (putVLQ 0); mret (offset + n) else mret offset);
  n ← on_tail offset (putCompressedTxOut (uint64 (st_Amount stxo)) (st_PkScript stxo));
  mret (offset + n).

(** The reserved field after a header with a height. *)
Definition skip_reserved (serialized : bytes) (height offset : Z) : outcome chainioerr Z :=
  if 0 <? height then
    rest ← or_panic (slice_from serialized offset);
    let '(_, bytesRead) := deserializeVLQ rest in
    let offset := offset + bytesRead in
    if len serialized <=? offset then mthrow ErrDeserialize else mret offset
  else mret offset.

(** The decoded output and the number of bytes read. *)
Definition decodeSpentTxOut (serialized : bytes) : outcome chainioerr (SpentTxOut * Z) :=
  if len serialized =? 0 then mthrow ErrDeserialize else
  let '(code, offset) := deserializeVLQ serialized in
  if len serialized <=? offset then mthrow ErrDeserialize else
  let isCoinBase := negb (code &&& 0x01 =? 0) in
  let height := int32 (code >>> 1) in
  offset ← skip_reserved serialized height offset;
  rest ← or_panic (slice_from serialized offset);
  '(amount, pkScript, bytesRead) ← decodeCompressedTxOut rest;
  mret (mkStxo (int64 amount) pkScript height isCoinBase, offset + bytesRead).

(** The loops over the transactions and their inputs, backwards: one journal entry
    for each of the [n] inputs, the last input first. *)
Fixpoint journal_loop (n : nat) (serialized : bytes) (offset : Z) (stxos : list SpentTxOut) :
    outcome chainioerr (list SpentTxOut) :=
  match n with
  | O => mret stxos
  | S n' =>
    rest ← or_panic (slice_from serialized offset);
    '(stxo, k) ← decodeSpentTxOut rest;
    journal_loop n' serialized (offset + k) (stxo :: stxos)
  end.

Definition count_inputs (txns : list MsgTx) : Z := foldr (fun tx n => len (tx_TxIn tx) + n) 0 txns.

Definition deserializeSpendJournalEntry (serialized : bytes) (txns : list MsgTx) : outcome chainioerr (list SpentTxOut) :=
  let numStxos := count_inputs txns in
  if len serialized =? 0 then
    if negb (numStxos =? 0) then mthrow ErrAssert else mret []
  else journal_loop (Z.to_nat numStxos) serialized 0 [].

Fixpoint put_journal (stxos_rev : list SpentTxOut) (offset : Z) : Tgt () :=
  match stxos_rev with
  | [] => mret ()
  | stxo :: rest => n ← on_tail offset (putSpentTxOut stxo); put_journal rest (offset + n)
  end.

(** A writer on a new slice of the given size. *)
Definition serialize_into {A} (size : Z) (m : Tgt A) : outcome Empty_set bytes :=
  buf ← or_panic (make size);
  match m buf with
  | (Ret _, serialized) => Ret serialized
  | (Throw e, _) => Throw e
  | (Panic, _) => Panic
  end.

Definition serializeSpendJournalEntry (stxos : list SpentTxOut) : outcome Empty_set bytes :=
  if len stxos =? 0 then mret [] else
  let size := foldl (fun size stxo => size + spentTxOutSerializeSize stxo) 0 stxos in
  serialize_into size (put_journal (rev stxos) 0).

(** * The set of unspent outputs *)

Definition outpointKey (outpoint : OutPoint) : outcome Empty_set bytes :=
  let idx := op_Index outpoint in
  serialize_into (32 + serializeSizeVLQ idx) (copy_into 0 (32 + serializeSizeVLQ idx) (op_Hash outpoint);; on_tail 32 (putVLQ idx)).

Definition utxoEntryHeaderCode (entry : UtxoEntry) : outcome chainioerr Z :=
  if IsSpent entry then mthrow ErrAssert else
  mret (header_code (ue_blockHeight entry) (ue_IsCoinBase entry)).

Definition serializeUtxoEntry (entry : UtxoEntry) : outcome chainioerr bytes :=
  if IsSpent entry then mret [] else
  headerCode ← utxoEntryHeaderCode entry;
  let size := serializeSizeVLQ headerCode + compressedTxOutSize (uint64 (ue_amount entry)) (ue_pkScript entry) in
  no_error (serialize_into size
    (offset ← putVLQ headerCode;
     n ← on_tail offset (putCompressedTxOut (uint64 (ue_amount entry)) (ue_pkScript entry));
     mret (offset + n))).

Definition deserializeUtxoEntry `{GlobalConf} (serialized : bytes) : outcome chainioerr UtxoEntry :=
  let '(code, offset) := deserializeVLQ serialized in
  if len serialized <=? offset then mthrow ErrDeserialize else
  let isCoinBase := negb (code &&& 0x01 =? 0) in
  let blockHeight := int32 (code >>> 1) in
  rest ← or_panic (slice_from serialized offset);
  '(amount, pkScript, _) ← decodeCompressedTxOut rest;
  let entry := mkUtxo (int64 amount) pkScript blockHeight 0 in
  mret (if isCoinBase then dirtyGuessIsNetworkStewardPayment (set_flags (packedFlags entry ||| tfCoinBase) entry) else entry).

(** * The block index and the best chain state *)

Definition blockIndexKey (blockHash : bytes) (blockHeight : Z) : bytes :=
  be_split 4 blockHeight ++ take 32 (blockHash ++ repeat Byte.x00 32).

Record bestChainState : Type := mkBest {
  bc_hash : bytes;
  bc_height : Z;
  bc_totalTxns : Z;
  bc_workSum : Z
}.

(** The hash is a [32]byte; the work sum is a natural number. *)
Definition serializeBestChainState (state : bestChainState) : bytes :=
  let workSumBytes := bigBytes (bc_workSum state) in
  let workSumBytesLen := uint32 (len workSumBytes) in
  bc_hash state ++ le_split 4 (bc_height state) ++ le_split 8 (bc_totalTxns state) ++ le_split 4 workSumBytesLen ++ workSumBytes.

Definition deserializeBestChainState (serializedData : bytes) : outcome chainioerr bestChainState :=
  if len serializedData <? 32 + 16 then mthrow ErrCorruption else
  hash ← or_panic (slice serializedData 0 32);
  height ← or_panic (slice serializedData 32 36);
  totalTxns ← or_panic (slice serializedData 36 44);
  workLen ← or_panic (slice serializedData 44 48);
  let workSumBytesLen := le_combine workLen in
  rest ← or_panic (slice_from serializedData 48);
  if uint32 (len rest) <? workSumBytesLen then mthrow ErrCorruption else
  workSumBytes ← or_panic (slice serializedData 48 (uint32 (48 + workSumBytesLen)));
  mret (mkBest hash (le_combine height) (le_combine totalTxns) (bigSetBytes workSumBytes)).
