(* ===== verification/ChainIOProps.v ===== *)
(** Round trips of the records of the chain database (ChainIO.v). *)

From S2P Require Import Prelude Sha Wire MsgTx Btcec BtcecProps FieldOps ChainParams Compress CompressProps ChainIO.

(** * Header codes *)

Lemma header_code_spec h b : 0 <= h < 2 ^ 31 ->
  let c := header_code h b in 0 <= c < 2 ^ 32 /\ negb (c &&& 0x01 =? 0) = b /\ int32 (c >>> 1) = h.
Proof.
  intros Hh. assert (header_code h b = Z.b2z b + h * 2 ^ 1) as ->.
  { unfold header_code. rewrite (uwrap_small 64 h), Z.shiftl_mul_pow2, uwrap_small by lia. destruct b; cbn [Z.b2z]; [|lia].
    rewrite Z.lor_comm. by rewrite (lor_add_pow2 1 h 1) by lia. }
  change (2 ^ 1) with 2. cbv zeta. split; [destruct b; cbn [Z.b2z]; lia|]. split.
  - change 0x01 with (Z.ones 1). rewrite Z.land_ones by lia. change (2 ^ 1) with 2. rewrite Z.mod_add by lia. by destruct b.
  - rewrite Z.shiftr_div_pow2 by lia. change (2 ^ 1) with 2. rewrite Z.div_add by lia.
    replace (Z.b2z b / 2) with 0 by (by destruct b). apply int32_small. lia.
Qed.

(** * Spent outputs *)

(** Amounts and scripts in the ranges of their Go types, *)
Definition output_fits (amount : Z) (pkScript : bytes) : Prop := 0 <= amount < 2 ^ 63 /\ len pkScript + 16 < 2 ^ 63.

(** and those whose amount survives the compression.  Amounts below 2^64/9 do
    ([small_storable]); no rule of the network keeps larger ones, up to the largest amount
    of the PKT network, out of a block. *)
Definition storable (amount : Z) : Prop := reread amount = amount.
Definition output_ok (amount : Z) (pkScript : bytes) : Prop := output_fits amount pkScript /\ storable amount.

Lemma small_storable a : 0 <= a -> 9 * a < 2 ^ 64 -> storable a.
Proof. intros. by apply amount_roundtrip. Qed.

Definition stxo_fits (s : SpentTxOut) : Prop := output_fits (st_Amount s) (st_PkScript s) /\ 0 <= st_Height s < 2 ^ 31.
Definition stxo_ok (s : SpentTxOut) : Prop := output_ok (st_Amount s) (st_PkScript s) /\ 0 <= st_Height s < 2 ^ 31.

Lemma stxo_ok_fits s : stxo_ok s -> stxo_fits s.
Proof. by intros [[? _] ?]. Qed.

Lemma stxos_ok_fit l : Forall stxo_ok l -> Forall stxo_fits l.
Proof. intros Hl. eapply Forall_impl; [exact stxo_ok_fits|exact Hl]. Qed.

(** What comes back of a spent output. *)
Definition reread_stxo (s : SpentTxOut) : SpentTxOut :=
  mkStxo (int64 (reread (st_Amount s))) (st_PkScript s) (st_Height s) (st_IsCoinBase s).

Lemma reread_stxo_ok s : stxo_ok s -> reread_stxo s = s.
Proof. intros [[[Ha _] Hr] _]. unfold reread_stxo, storable in *. rewrite Hr, int64_small by lia. by destruct s. Qed.

Lemma reread_stxos_ok l : Forall stxo_ok l -> map reread_stxo l = l.
Proof. induction 1 as [|s l Hs Hl IH]; [done|]. cbn [map]. by rewrite IH, (reread_stxo_ok s Hs). Qed.

Definition stxo_code (s : SpentTxOut) : bytes :=
  vlq (spentTxOutHeaderCode s) ++ (if 0 <? st_Height s then vlq 0 else []) ++ txout_code (st_Amount s) (st_PkScript s).

Lemma writes_opt (b : bool) off m c target : off = len c -> writes m (vlq 0) -> len c + len (if b then vlq 0 else []) <= len target ->
  (if b then n ← on_tail off m; mret (off + n) else mret off) (c ++ drop (length c) target) =
    (Ret (len (c ++ if b then vlq 0 else [])), (c ++ if b then vlq 0 else []) ++ drop (length (c ++ if b then vlq 0 else [])) target).
Proof.
  intros -> Hm Ht. destruct b.
  - rewrite (bind_Ret _ _ _ _ _ (writes_tail _ _ _ _ eq_refl Hm target Ht)). cbv [mret St_ret]. by rewrite len_app.
  - by rewrite app_nil_r.
Qed.

Lemma putSpentTxOut_writes s : stxo_fits s -> writes (putSpentTxOut s) (stxo_code s).
Proof.
  intros [[Ha Hs] Hh] target Ht. unfold putSpentTxOut, stxo_code in *. rewrite !len_app in Ht.
  destruct (header_code_spec (st_Height s) (st_IsCoinBase s) Hh) as (Hc & _). fold (spentTxOutHeaderCode s) in Hc.
  pose proof (len_nonneg (txout_code (st_Amount s) (st_PkScript s))).
  pose proof (len_nonneg (if 0 <? st_Height s then vlq 0 else [])).
  rewrite (bind_Ret _ _ _ _ _ (putVLQ_writes (spentTxOutHeaderCode s) ltac:(lia) target ltac:(lia))).
  rewrite (bind_Ret _ _ _ _ _ (writes_opt (0 <? st_Height s) _ (putVLQ 0) (vlq (spentTxOutHeaderCode s)) target eq_refl
    (putVLQ_writes 0 ltac:(lia)) ltac:(lia))).
  rewrite (uwrap_small 64 (st_Amount s)) by lia. set (c := vlq (spentTxOutHeaderCode s) ++ _).
  rewrite (bind_Ret _ _ _ _ _ (writes_tail (len c) _ c _ eq_refl (putCompressedTxOut_writes (st_Amount s) (st_PkScript s) ltac:(lia)) target
    ltac:(unfold c; rewrite len_app; lia))).
  cbv [mret St_ret]. rewrite (app_assoc (vlq (spentTxOutHeaderCode s))). fold c. by rewrite (len_app c).
Qed.

Lemma spentTxOutSerializeSize_spec s : stxo_fits s -> spentTxOutSerializeSize s = len (stxo_code s).
Proof.
  intros [[Ha Hs] Hh]. unfold spentTxOutSerializeSize, stxo_code.
  destruct (header_code_spec (st_Height s) (st_IsCoinBase s) Hh) as (Hc & _). fold (spentTxOutHeaderCode s) in Hc.
  rewrite (serializeSizeVLQ_spec (spentTxOutHeaderCode s)), (serializeSizeVLQ_spec 0), (uwrap_small 64 (st_Amount s)) by lia. rewrite compressedTxOutSize_spec by lia. rewrite !len_app.
  destruct (0 <? st_Height s); [lia|]. change (len []) with 0. lia.
Qed.

Lemma txout_code_nonempty a s : len s + 16 < 2 ^ 63 -> 0 < len (txout_code a s).
Proof.
  intros Hs. unfold txout_code. rewrite len_app. pose proof (len_nonneg (vlq (compressTxOutAmount a))).
  pose proof (script_code_nonempty s ltac:(lia)). lia.
Qed.

Lemma skip_reserved_spec h c t : 0 < len t ->
  skip_reserved (c ++ (if 0 <? h then vlq 0 else []) ++ t) h (len c) = Ret (len (c ++ if 0 <? h then vlq 0 else [])).
Proof.
  intros Ht. unfold skip_reserved. destruct (0 <? h); [|by rewrite app_nil_r]. rewrite slice_from_app by done.
  cbn [or_panic mbind outcome_bind]. rewrite deserializeVLQ_vlq by lia. cbv zeta. rewrite !len_app, (proj2 (Z.leb_gt _ _)) by lia. done.
Qed.

Lemma decodeSpentTxOut_code s rest : stxo_fits s -> decodeSpentTxOut (stxo_code s ++ rest) = Ret (reread_stxo s, len (stxo_code s)).
Proof.
  intros [[Ha Hs] Hh]. unfold decodeSpentTxOut, stxo_code.
  destruct (header_code_spec (st_Height s) (st_IsCoinBase s) Hh) as (Hc & Hcb & Hht). fold (spentTxOutHeaderCode s) in *.
  pose proof (txout_code_nonempty (st_Amount s) (st_PkScript s) Hs). pose proof (vlq_length (spentTxOutHeaderCode s)). pose proof (len_nonneg rest).
  rewrite <- !app_assoc.
  assert (len (vlq (spentTxOutHeaderCode s)) < len (vlq (spentTxOutHeaderCode s) ++
    (if 0 <? st_Height s then vlq 0 else []) ++ txout_code (st_Amount s) (st_PkScript s) ++ rest)) as Hlen
    by (rewrite !len_app; pose proof (len_nonneg (if 0 <? st_Height s then vlq 0 else [])); lia).
  rewrite (proj2 (Z.eqb_neq (len (_ ++ _)) 0)) by lia. rewrite deserializeVLQ_vlq by lia.
  rewrite (proj2 (Z.leb_gt (len (_ ++ _)) _)) by lia. rewrite Hcb, Hht, skip_reserved_spec by (rewrite len_app; lia).
  cbn [mbind outcome_bind]. rewrite app_assoc, slice_from_app by done. cbn [or_panic mbind outcome_bind].
  rewrite decodeCompressedTxOut_code by done. cbn [mbind outcome_bind].
  by rewrite (app_assoc (vlq (spentTxOutHeaderCode s))), (len_app (_ ++ _) (txout_code _ _)).
Qed.

(** * The journal of a block *)

Definition journal_code (l : list SpentTxOut) : bytes := concat (map stxo_code l).

Lemma put_journal_spec l c target : Forall stxo_fits l -> len c + len (journal_code l) <= len target ->
  put_journal l (len c) (c ++ drop (length c) target) =
    (Ret (), (c ++ journal_code l) ++ drop (length (c ++ journal_code l)) target).
Proof.
  revert c. induction l as [|s l IH]; intros c Hl Ht; [by rewrite app_nil_r|]. inversion Hl as [|? ? Hs Hl']; subst.
  cbn [put_journal journal_code map concat] in *. rewrite len_app in Ht. fold (journal_code l) in *. pose proof (len_nonneg (journal_code l)).
  rewrite (bind_Ret _ _ _ _ _ (writes_tail _ _ c _ eq_refl (putSpentTxOut_writes s Hs) target ltac:(lia))).
  rewrite <- len_app, IH by (done || rewrite len_app; lia). by rewrite (app_assoc c).
Qed.

Lemma journal_size l : Forall stxo_fits l -> forall z,
  foldl (fun size stxo => size + spentTxOutSerializeSize stxo) z l = z + len (journal_code l).
Proof.
  induction 1 as [|s l Hs Hl IH]; intros z; cbn [foldl]; [by rewrite Z.add_0_r|]. rewrite IH, spentTxOutSerializeSize_spec by done.
  cbn [journal_code map concat]. rewrite len_app. fold (journal_code l). lia.
Qed.

Lemma journal_code_rev l : len (journal_code (rev l)) = len (journal_code l).
Proof.
  unfold journal_code. induction l as [|s l IH]; [done|]. cbn [rev map concat]. rewrite map_app, concat_app, !len_app, IH. cbn [map concat].
  rewrite app_nil_r. lia.
Qed.

Lemma serialize_into_spec {A} size (m : Tgt A) b a :
  size = len b -> (forall target, len b <= len target -> m target = (Ret a, b ++ drop (length b) target)) -> serialize_into size m = Ret b.
Proof.
  intros -> Hm. unfold serialize_into, make. pose proof (len_nonneg b). rewrite (proj2 (Z.ltb_ge _ _)) by lia. cbn [or_panic mbind outcome_bind].
  assert (length (repeat Byte.x00 (Z.to_nat (len b))) = length b) as Hl by (rewrite repeat_length; unfold len; lia).
  rewrite Hm by (unfold len in *; lia). rewrite drop_ge by lia. by rewrite app_nil_r.
Qed.

Lemma serializeSpendJournalEntry_spec l : Forall stxo_fits l -> serializeSpendJournalEntry l = Ret (journal_code (rev l)).
Proof.
  intros Hl. unfold serializeSpendJournalEntry. destruct (Z.eqb_spec (len l) 0) as [E|E]; [by apply len_0 in E as ->|].
  apply (serialize_into_spec _ _ _ ()).
  - rewrite (journal_size l Hl), journal_code_rev. lia.
  - intros target Ht. apply (put_journal_spec (rev l) [] target); [by apply Forall_rev|exact Ht].
Qed.

Lemma journal_loop_spec l c acc : Forall stxo_fits l ->
  journal_loop (length l) (c ++ journal_code l) (len c) acc = Ret (rev (map reread_stxo l) ++ acc).
Proof.
  revert c acc. induction l as [|s l IH]; intros c acc Hl; [done|]. inversion Hl as [|? ? Hs Hl']; subst.
  cbn [journal_loop length journal_code map concat]. fold (journal_code l). rewrite slice_from_app by done. cbn [or_panic mbind outcome_bind].
  rewrite (decodeSpentTxOut_code s _ Hs). cbn [mbind outcome_bind]. rewrite <- len_app, app_assoc, IH by done.
  cbn [map rev]. by rewrite <- app_assoc.
Qed.

Lemma stxo_code_nonempty s : 0 < len (stxo_code s).
Proof.
  unfold stxo_code. rewrite !len_app. pose proof (vlq_length (spentTxOutHeaderCode s)).
  pose proof (len_nonneg (if 0 <? st_Height s then vlq 0 else [])). pose proof (len_nonneg (txout_code (st_Amount s) (st_PkScript s))). lia.
Qed.

Lemma deserializeSpendJournalEntry_spec l txns : Forall stxo_fits l -> count_inputs txns = len l ->
  deserializeSpendJournalEntry (journal_code (rev l)) txns = Ret (map reread_stxo l).
Proof.
  intros Hl Hn. unfold deserializeSpendJournalEntry. rewrite Hn. destruct l as [|s l]; [done|].
  rewrite journal_code_rev. cbn [journal_code map concat]. rewrite len_app. pose proof (stxo_code_nonempty s).
  pose proof (len_nonneg (concat (map stxo_code l))). rewrite (proj2 (Z.eqb_neq _ _)) by lia.
  pose proof (journal_loop_spec (rev (s :: l)) [] [] ltac:(by apply Forall_rev)) as Hj.
  rewrite length_rev, map_rev, rev_involutive, app_nil_r in Hj. unfold len. rewrite Nat2Z.id. exact Hj.
Qed.

Lemma serialize_journal_ok l : Forall stxo_ok l -> serializeSpendJournalEntry l = Ret (journal_code (rev l)).
Proof. intros Hl. by apply serializeSpendJournalEntry_spec, stxos_ok_fit. Qed.

Lemma deserialize_journal_ok l txns : Forall stxo_ok l -> count_inputs txns = len l ->
  deserializeSpendJournalEntry (journal_code (rev l)) txns = Ret l.
Proof. intros Hl Hn. rewrite deserializeSpendJournalEntry_spec by (done || by apply stxos_ok_fit). by rewrite reread_stxos_ok. Qed.

(** * Unspent outputs *)

Definition utxo_fits (e : UtxoEntry) : Prop := output_fits (ue_amount e) (ue_pkScript e) /\ 0 <= ue_blockHeight e < 2 ^ 31.
Definition utxo_ok (e : UtxoEntry) : Prop := output_ok (ue_amount e) (ue_pkScript e) /\ 0 <= ue_blockHeight e < 2 ^ 31.

(** What is stored of an unspent output: all but the flags other than the coinbase
    flag; the payment to the network steward is recognised anew. *)
Definition stored `{GlobalConf} (e : UtxoEntry) : UtxoEntry :=
  if ue_IsCoinBase e then dirtyGuessIsNetworkStewardPayment (set_flags tfCoinBase e) else set_flags 0 e.

Definition reread_utxo (e : UtxoEntry) : UtxoEntry :=
  mkUtxo (int64 (reread (ue_amount e))) (ue_pkScript e) (ue_blockHeight e) (packedFlags e).

Lemma reread_utxo_ok e : utxo_ok e -> reread_utxo e = e.
Proof. intros [[[Ha _] Hr] _]. unfold reread_utxo, storable in *. rewrite Hr, int64_small by lia. by destruct e. Qed.

Lemma utxo_reread `{GlobalConf} e : utxo_fits e -> IsSpent e = false ->
  exists b, serializeUtxoEntry e = Ret b /\ deserializeUtxoEntry b = Ret (stored (reread_utxo e)).
Proof.
  intros [[Ha Hs] Hh] Hsp. set (c := header_code (ue_blockHeight e) (ue_IsCoinBase e)).
  destruct (header_code_spec (ue_blockHeight e) (ue_IsCoinBase e) Hh) as (Hc & Hcb & Hht). fold c in Hc, Hcb, Hht.
  exists (vlq c ++ txout_code (ue_amount e) (ue_pkScript e)). split.
  - unfold serializeUtxoEntry, utxoEntryHeaderCode. rewrite Hsp. cbn [mbind outcome_bind mret outcome_ret]. fold c.
    rewrite (uwrap_small 64 (ue_amount e)) by lia.
    rewrite (serialize_into_spec _ _ (vlq c ++ txout_code (ue_amount e) (ue_pkScript e)) (len (vlq c ++ txout_code (ue_amount e) (ue_pkScript e)))); [done| |].
    + rewrite serializeSizeVLQ_spec, compressedTxOutSize_spec by lia. by rewrite len_app.
    + exact (writes_seq _ _ _ _ (putVLQ_writes c ltac:(lia)) (putCompressedTxOut_writes (ue_amount e) (ue_pkScript e) ltac:(lia))).
  - pose proof (txout_code_nonempty (ue_amount e) (ue_pkScript e) Hs). unfold deserializeUtxoEntry. rewrite deserializeVLQ_vlq by lia.
    rewrite len_app, (proj2 (Z.leb_gt _ _)) by lia. rewrite slice_from_app by done. cbn [or_panic mbind outcome_bind].
    rewrite <- (app_nil_r (txout_code _ _)), decodeCompressedTxOut_code by done. cbn [mbind outcome_bind]. cbv zeta.
    rewrite Hcb, Hht by lia. unfold stored. change (ue_IsCoinBase (reread_utxo e)) with (ue_IsCoinBase e). by destruct (ue_IsCoinBase e).
Qed.

Lemma utxo_roundtrip `{GlobalConf} e : utxo_ok e -> IsSpent e = false ->
  exists b, serializeUtxoEntry e = Ret b /\ deserializeUtxoEntry b = Ret (stored e).
Proof.
  intros He Hs. pose proof (reread_utxo_ok e He) as Er. destruct (utxo_reread e) as (b & Hb & Hd); [by destruct He as [[? _] ?]|done|].
  rewrite Er in Hd. by exists b.
Qed.

(** * Keys and the best chain state *)

Lemma outpointKey_spec o : len (op_Hash o) = 32 -> 0 <= op_Index o < 2 ^ 32 -> outpointKey o = Ret (op_Hash o ++ vlq (op_Index o)).
Proof.
  intros Lh Hi. unfold outpointKey. apply (serialize_into_spec _ _ _ (len (vlq (op_Index o)))).
  - rewrite serializeSizeVLQ_spec, len_app by lia. lia.
  - intros target Ht. rewrite len_app in Ht. rewrite serializeSizeVLQ_spec by lia. pose proof (len_nonneg (vlq (op_Index o))).
    assert (copy_into 0 (32 + len (vlq (op_Index o))) (op_Hash o) target = (Ret (), op_Hash o ++ drop (length (op_Hash o)) target)) as Ec
      by (exact (copy_into_spec [] target 0 (32 + len (vlq (op_Index o))) (op_Hash o) eq_refl ltac:(lia) ltac:(change (len []) with 0; lia))).
    rewrite (bind_Ret _ _ _ _ _ Ec). exact (writes_tail 32 _ (op_Hash o) _ (eq_sym Lh) (putVLQ_writes (op_Index o) ltac:(lia)) target Ht).
Qed.

Lemma vlq_inj m n : 0 <= m < 2 ^ 64 -> 0 <= n < 2 ^ 64 -> vlq m = vlq n -> m = n.
Proof.
  intros Hm Hn E. pose proof (deserializeVLQ_vlq m [] Hm) as E1. rewrite E, (deserializeVLQ_vlq n [] Hn) in E1. by injection E1.
Qed.

Lemma best_state_roundtrip st :
  len (bc_hash st) = 32 -> 0 <= bc_height st < 2 ^ 32 -> 0 <= bc_totalTxns st < 2 ^ 64 -> 0 <= bc_workSum st < 2 ^ 256 ->
  deserializeBestChainState (serializeBestChainState st) = Ret st.
Proof.
  intros Lh Hh Ht Hw. destruct st as [h ht tt w]. cbn [bc_hash bc_height bc_totalTxns bc_workSum] in *.
  destruct (bigBytes_value w Hw) as [Ew Lw]. unfold serializeBestChainState, deserializeBestChainState. cbn [bc_hash bc_height bc_totalTxns bc_workSum].
  pose proof (len_nonneg (bigBytes w)). rewrite (uwrap_small 32 (len (bigBytes w))) by lia.
  set (wl := le_split 4 (len (bigBytes w))). set (a := le_split 4 ht). set (b := le_split 8 tt).
  assert (len a = 4 /\ len b = 8 /\ len wl = 4) as (La & Lb & Ll) by (unfold a, b, wl; rewrite !len_le_split; done).
  rewrite (proj2 (Z.ltb_ge _ _)) by (rewrite !len_app; lia).
  change (slice ?l 0 32) with (slice_to l 32). rewrite (slice_to_app h) by lia. cbn [or_panic mbind outcome_bind].
  rewrite (slice_seam h a (b ++ wl ++ bigBytes w) 32 36) by lia. cbn [or_panic mbind outcome_bind].
  rewrite (app_assoc h a), (slice_seam (h ++ a) b (wl ++ bigBytes w) 36 44) by (rewrite len_app; lia). cbn [or_panic mbind outcome_bind].
  rewrite (app_assoc (h ++ a) b), (slice_seam ((h ++ a) ++ b) wl (bigBytes w) 44 48) by (rewrite !len_app; lia). cbn [or_panic mbind outcome_bind].
  assert (le_combine wl = len (bigBytes w)) as -> by (unfold wl; rewrite le_combine_split; apply Z.mod_small; lia).
  rewrite (app_assoc ((h ++ a) ++ b) wl), (slice_from_app (((h ++ a) ++ b) ++ wl)) by (rewrite !len_app; lia). cbn [or_panic mbind outcome_bind].
  rewrite !(uwrap_small 32), (proj2 (Z.ltb_ge _ _)) by lia.
  pose proof (slice_seam (((h ++ a) ++ b) ++ wl) (bigBytes w) [] 48 (48 + len (bigBytes w))) as Es. rewrite app_nil_r in Es.
  rewrite Es by (rewrite !len_app; lia). cbn [or_panic mbind outcome_bind]. unfold bigSetBytes. rewrite Ew. unfold a, b.
  by rewrite !le_combine_split, !Z.mod_small by lia.
Qed.

(** * Main results *)

(** Bytes that end where a quantity ends. *)
Definition terminated (e : bytes) : Prop := exists hs b, e = hs ++ [b] /\ Forall (fun h => 128 <= u8 h) hs /\ u8 b < 128.

(** Variable-length quantities.  [putVLQ] writes a 64-bit number into any slice
    with room for the [serializeSizeVLQ] bytes, touches nothing after them, and
    [deserializeVLQ] reads the number and its size back whatever follows; and no
    other sequence of at most nine bytes is read as that number. *)
Theorem vlq_encoding (n : Z) (target rest : bytes) :
  0 <= n < 2 ^ 64 -> serializeSizeVLQ n <= len target ->
  exists e, putVLQ n target = (Ret (len e), e ++ drop (length e) target) /\ serializeSizeVLQ n = len e /\
    deserializeVLQ (e ++ rest) = (n, len e) /\
    forall e', terminated e' -> len e' <= 9 -> deserializeVLQ (e' ++ rest) = (n, len e') -> e' = e.
Proof.
  intros Hn Ht. rewrite serializeSizeVLQ_spec in Ht |- * by done. exists (vlq n). split; [by apply putVLQ_writes|]. split; [done|].
  split; [by apply deserializeVLQ_vlq|]. intros e' (hs & b & -> & Hh & Hb) Hl Hd. rewrite len_app in Hl.
  destruct (vlq_complete hs b Hh) as (m & Hm & Em); [unfold len in Hl; cbn [length] in Hl; lia|done|].
  rewrite Em in *. rewrite (deserializeVLQ_vlq m rest Hm) in Hd. by injection Hd as ->.
Qed.

(** [vlq_encoding] for a two-byte quantity. *)
Lemma vlq_encoding_witness :
  0 <= 16511 < 2 ^ 64 /\ serializeSizeVLQ 16511 <= len (repeat Byte.x00 4) /\
  exists e, putVLQ 16511 (repeat Byte.x00 4) = (Ret (len e), e ++ drop (length e) (repeat Byte.x00 4)).
Proof.
  split; [lia|]. split; [vm_compute; discriminate|].
  destruct (vlq_encoding 16511 (repeat Byte.x00 4) [] ltac:(lia) ltac:(vm_compute; discriminate)) as (e & He & _). exists e. exact He.
Defined.

(** C39: the records of the chain database.  The spend journal of a block is read back,
    given the transactions that spend the outputs, and so is an unspent output (the flag of
    the network steward is computed anew, the flags of the view are dropped); scripts,
    heights and coinbase flags come back as they were.  An amount comes back as what
    decompression makes of its compression: the same amount if it is below 2^64/9, while
    for larger ones, which the rules of the PKT network allow, the compression can exceed
    64 bits.  The best chain state is read back exactly, and different outpoints have
    different keys. *)
Theorem chain_records_roundtrip `{GlobalConf} (stxos : list SpentTxOut) (txns : list MsgTx) (e : UtxoEntry)
    (st : bestChainState) (o1 o2 : OutPoint) :
  Forall stxo_fits stxos -> count_inputs txns = len stxos -> utxo_fits e -> IsSpent e = false ->
  len (bc_hash st) = 32 -> 0 <= bc_height st < 2 ^ 32 -> 0 <= bc_totalTxns st < 2 ^ 64 -> 0 <= bc_workSum st < 2 ^ 256 ->
  len (op_Hash o1) = 32 -> len (op_Hash o2) = 32 -> 0 <= op_Index o1 < 2 ^ 32 -> 0 <= op_Index o2 < 2 ^ 32 ->
  (exists b, serializeSpendJournalEntry stxos = Ret b /\ deserializeSpendJournalEntry b txns = Ret (map reread_stxo stxos)) /\
  (exists b, serializeUtxoEntry e = Ret b /\ deserializeUtxoEntry b = Ret (stored (reread_utxo e))) /\
  (Forall (fun s => 9 * st_Amount s < 2 ^ 64) stxos -> map reread_stxo stxos = stxos) /\
  (9 * ue_amount e < 2 ^ 64 -> reread_utxo e = e) /\
  deserializeBestChainState (serializeBestChainState st) = Ret st /\
  (outpointKey o1 = outpointKey o2 -> o1 = o2).
Proof.
  intros Hj Hn He Hs H1 H2 H3 H4 L1 L2 I1 I2. split.
  { exists (journal_code (rev stxos)). split; [by apply serializeSpendJournalEntry_spec|by apply deserializeSpendJournalEntry_spec]. }
  split; [by apply utxo_reread|]. split.
  { intros Hsm. apply reread_stxos_ok, Forall_forall. intros s Hin. rewrite Forall_forall in Hj, Hsm. destruct (Hj s Hin) as [Ho Hh].
    split; [|done]. split; [done|]. apply small_storable; [apply Ho|by apply Hsm]. }
  split. { intros Hsm. destruct He as [Ho Hh]. apply reread_utxo_ok. split; [|done]. split; [done|]. apply small_storable; [apply Ho|done]. }
  split; [by apply best_state_roundtrip|].
  rewrite !outpointKey_spec by done. intros E. injection E as E. destruct o1 as [h1 i1], o2 as [h2 i2]. cbn [op_Hash op_Index] in *.
  apply app_inj_1 in E as [-> E]; [|unfold len in *; lia]. f_equal. apply vlq_inj; [lia|lia|exact E].
Qed.

(** [chain_records_roundtrip] for a journal of one output. *)
Lemma chain_records_roundtrip_witness :
  let s := mkStxo 5000000000 [Byte.x51] 9 true in
  exists b, serializeSpendJournalEntry [s] = Ret b /\
    deserializeSpendJournalEntry b [mkMsgTx 1 [mkTxIn (mkOutPoint [] 0) [] None 0] [] 0 []] = Ret (map reread_stxo [s]).
Proof.
  set (s := mkStxo 5000000000 [Byte.x51] 9 true). set (tx := mkMsgTx 1 [mkTxIn (mkOutPoint [] 0) [] None 0] [] 0 []).
  set (o := mkOutPoint (repeat Byte.x00 32) 3).
  assert (stxo_fits s) as Hs by (split; [split|]; vm_compute; split || reflexivity || discriminate; discriminate || reflexivity).
  refine (proj1 (chain_records_roundtrip (H := PktDefaults) [s] [tx] (mkUtxo 7 [Byte.x51] 9 tfCoinBase) (mkBest (repeat Byte.x00 32) 5 6 7) o o
    (Forall_cons_2 _ _ _ Hs (Forall_nil_2 _)) eq_refl _ eq_refl eq_refl _ _ _ eq_refl eq_refl _ _));
  unfold utxo_fits, output_fits, o; cbn [ue_amount ue_pkScript ue_blockHeight bc_height bc_totalTxns bc_workSum op_Index]; change (len [Byte.x51]) with 1; lia.
Defined.

(** The encodings are not ordered as the numbers are when their lengths differ. *)
Lemma vlq_unordered : (exists r, vlq 16511 = Byte.xff :: r) /\ (exists r, vlq 16512 = Byte.x80 :: r).
Proof. split; eexists; vm_compute; reflexivity. Qed.
