(* ===== verification/MapSum.v ===== *)
(** Sums over finite maps: how the sum of the weights changes when a map is changed at
    some keys. *)

From stdpp Require Import gmap.
From S2P Require Import Prelude.

Section total.
Context `{Countable K} {A : Type} (w : A -> Z).
Implicit Types (m : gmap K A).

Definition total (m : gmap K A) : Z := map_fold (fun _ x acc => w x + acc) 0 m.
Definition weight (x : option A) : Z := match x with Some x => w x | None => 0 end.

Lemma total_empty : total ∅ = 0.
Proof. done. Qed.

Lemma total_insert m k x : m !! k = None -> total (<[k := x]> m) = w x + total m.
Proof. intros Hk. unfold total. rewrite (map_fold_insert_L (fun _ x acc => w x + acc)); [done|intros; lia|done]. Qed.

Lemma total_delete m k : total m = weight (m !! k) + total (delete k m).
Proof.
  destruct (m !! k) as [x|] eqn:E; cbn [weight].
  - rewrite <- (insert_delete_id m k x E) at 1. apply total_insert, lookup_delete_eq.
  - by rewrite delete_id.
Qed.

Lemma total_update m k x : total (<[k := x]> m) = total m + w x - weight (m !! k).
Proof. rewrite <- insert_delete_eq, total_insert by apply lookup_delete_eq. rewrite (total_delete m k). lia. Qed.

Lemma total_nonneg m : map_Forall (fun _ x => 0 <= w x) m -> 0 <= total m.
Proof.
  induction m as [|k x m Hk IH] using map_ind; intros Hm; [done|]. rewrite total_insert by done.
  apply map_Forall_insert in Hm as [Hx Hm]; [|done]. specialize (IH Hm). lia.
Qed.

(** Maps that agree away from the keys [ks]. *)
Lemma total_diff (ks : list K) m m' : NoDup ks -> (forall k, k ∉ ks -> m' !! k = m !! k) ->
  total m' - total m = foldr (fun k acc => weight (m' !! k) - weight (m !! k) + acc) 0 ks.
Proof.
  intros Hnd. revert m m'. induction ks as [|k ks IH]; intros m m' Hag; cbn [foldr].
  { assert (m' = m) as -> by (apply map_eq; intros k; apply Hag, not_elem_of_nil). lia. }
  apply list.NoDup_cons in Hnd as [Hk Hnd]. rewrite (total_delete m k), (total_delete m' k).
  assert (total (delete k m') - total (delete k m) = foldr (fun k acc => weight (m' !! k) - weight (m !! k) + acc) 0 ks) as <-; [|lia].
  rewrite (IH Hnd).
  - clear -Hk. induction ks as [|k' ks IH]; [done|]. rewrite not_elem_of_cons in Hk. cbn [foldr]. rewrite !lookup_delete_ne by tauto. rewrite IH by tauto. done.
  - intros k' Hk'. destruct (decide (k = k')) as [<-|]; [by rewrite !lookup_delete_eq|]. rewrite !lookup_delete_ne by done. apply Hag. rewrite not_elem_of_cons. split; congruence.
Qed.
End total.

Lemma total_mono `{Countable K} {A} (w w' : A -> Z) (m : gmap K A) : map_Forall (fun _ x => w x <= w' x) m -> total w m <= total w' m.
Proof.
  induction m as [|k x m Hk IH] using map_ind; intros Hm; [done|]. rewrite !total_insert by done.
  apply map_Forall_insert in Hm as [Hx Hm]; [|done]. specialize (IH Hm). lia.
Qed.
