(* ===== verification/UtxoView.v ===== *)
(** The set of unspent outputs: the view that blocks are connected to and disconnected
    from (src/blockchain/utxoviewpoint.go) and its storage in the buckets of the chain
    database (src/blockchain/chainio.go). *)

From stdpp Require Import gmap.
From S2P Require Import Prelude Params Opcode Sha Wire MsgTx SigHash ScriptUtil ChainParams Block MoneySupply Compress RuleErr TxRules ChainIO.

(** * Blocks with a height *)

(** [btcutil.Block]; the hashes it memoizes are those of the message. *)
Record BtcBlock : Type := mkBtcBlock { b_MsgBlock : MsgBlock; b_Height : Z }.

Definition b_Transactions (block : BtcBlock) : list MsgTx := mb_Transactions (b_MsgBlock block).
Definition b_Hash (block : BtcBlock) : bytes := MsgBlock_BlockHash (b_MsgBlock block).

Definition MinTxOutputWeight : Z := WitnessScaleFactor * MinTxOutPayload.
Definition MaxOutputsPerBlock : Z := Z.quot MaxBlockWeight MinTxOutputWeight.

(** * Buckets *)

(** A bucket of the database maps keys to values; [Get] returns nil for a missing key. *)
Abbreviation Bucket := (gmap bytes bytes).

(** The order of keys. *)
Fixpoint bytes_leb (a b : bytes) : bool :=
  match a, b with
  | [], _ => true
  | _ :: _, [] => false
  | x :: a', y :: b' => if u8 x <? u8 y then true else if u8 y <? u8 x then false else bytes_leb a' b'
  end.

(** [Cursor.Seek]: the pair with the smallest key that is not below the given one. *)
Definition Seek (bucket : Bucket) (seek : bytes) : option (bytes * bytes) :=
  map_fold (fun k v best =>
    if negb (bytes_leb seek k) then best else
    match best with
    | Some (k', _) => if bytes_leb k' k then best else Some (k, v)
    | None => Some (k, v)
    end) None bucket.

(** The error of a record, in the errors of validation. *)
Definition db_err {A} (m : outcome chainioerr A) : outcome ruleerr A :=
  match m with Ret a => Ret a | Throw ErrDeserialize => Throw (DbError ErrCorruption) | Throw ErrAssert => Throw AssertError | Throw e => Throw (DbError e) | Panic => Panic end.

Definition raw_err {A} (m : outcome chainioerr A) : outcome ruleerr A :=
  match m with Ret a => Ret a | Throw ErrAssert => Throw AssertError | Throw e => Throw (DbError e) | Panic => Panic end.

Section utxo.
Context `{GlobalConf}.

Definition dbFetchUtxoEntryByHash (utxoBucket : Bucket) (hash : bytes) : outcome ruleerr (option UtxoEntry) :=
  key ← no_error (outpointKey (mkOutPoint hash 0));
  match Seek utxoBucket key with
  | None => mret None
  | Some (cursorKey, value) =>
    if len cursorKey <? HashSize then mret None else
    prefix ← or_panic (slice cursorKey 0 HashSize);
    if negb (bytes_eqb hash prefix) then mret None else
    entry ← raw_err (deserializeUtxoEntry value);
    mret (Some entry)
  end.

Definition dbFetchUtxoEntry (utxoBucket : Bucket) (outpoint : OutPoint) : outcome ruleerr (option UtxoEntry) :=
  key ← no_error (outpointKey outpoint);
  match utxoBucket !! key with
  | None => mret None
  | Some serializedUtxo =>
    if len serializedUtxo =? 0 then mthrow AssertError else
    entry ← db_err (deserializeUtxoEntry serializedUtxo);
    mret (Some entry)
  end.

(** * The view *)

(** An outpoint of the map may have a nil entry. *)
Record UtxoViewpoint : Type := mkView { entries : gmap OutPoint (option UtxoEntry); bestHash : bytes }.

Definition NewUtxoViewpoint : UtxoViewpoint := mkView ∅ zeroHash.

Definition LookupEntry (view : UtxoViewpoint) (outpoint : OutPoint) : option UtxoEntry :=
  match entries view !! outpoint with Some entry => entry | None => None end.

Definition set_entry (outpoint : OutPoint) (entry : option UtxoEntry) (view : UtxoViewpoint) : UtxoViewpoint :=
  mkView (<[outpoint := entry]> (entries view)) (bestHash view).

Definition SetBestHash (hash : bytes) (view : UtxoViewpoint) : UtxoViewpoint := mkView (entries view) hash.

Definition RemoveEntry (outpoint : OutPoint) (view : UtxoViewpoint) : UtxoViewpoint :=
  mkView (delete outpoint (entries view)) (bestHash view).

(** A new or restored output; [entry.packedFlags = tfModified]. *)
Definition fresh_entry (amount : Z) (pkScript : bytes) (blockHeight : Z) (isCoinBase : bool) : UtxoEntry :=
  dirtyGuessIsNetworkStewardPayment
    (mkUtxo amount pkScript blockHeight (if isCoinBase then tfModified ||| tfCoinBase else tfModified)).

Definition addTxOut (outpoint : OutPoint) (txOut : TxOut) (isCoinBase : bool) (blockHeight : Z) (view : UtxoViewpoint) : UtxoViewpoint :=
  if IsUnspendable (to_PkScript txOut) then view else
  set_entry outpoint (Some (fresh_entry (to_Value txOut) (to_PkScript txOut) blockHeight isCoinBase)) view.

Definition AddTxOut (tx : MsgTx) (txOutIdx : Z) (blockHeight : Z) (view : UtxoViewpoint) : outcome ruleerr UtxoViewpoint :=
  if uint32 (len (tx_TxOut tx)) <=? txOutIdx then mret view else
  txOut ← or_panic (index (tx_TxOut tx) txOutIdx);
  mret (addTxOut (mkOutPoint (TxHash tx) txOutIdx) txOut (IsCoinBase tx) blockHeight view).

Fixpoint add_outs (hash : bytes) (txOutIdx : Z) (outs : list TxOut) (isCoinBase : bool) (blockHeight : Z) (view : UtxoViewpoint) : UtxoViewpoint :=
  match outs with
  | [] => view
  | txOut :: outs' =>
    add_outs hash (txOutIdx + 1) outs' isCoinBase blockHeight
      (addTxOut (mkOutPoint hash (uint32 txOutIdx)) txOut isCoinBase blockHeight view)
  end.

Definition AddTxOuts (tx : MsgTx) (blockHeight : Z) (view : UtxoViewpoint) : UtxoViewpoint :=
  add_outs (TxHash tx) 0 (tx_TxOut tx) (IsCoinBase tx) blockHeight view.

(** * Connecting *)

Abbreviation View := (St ruleerr UtxoViewpoint).

Definition stxo_of (entry : UtxoEntry) : SpentTxOut :=
  mkStxo (ue_amount entry) (ue_pkScript entry) (ue_blockHeight entry) (ue_IsCoinBase entry).

(** [stxos] is [None] when no details are asked for. *)
Fixpoint spend_loop (ins : list TxIn) (stxos : option (list SpentTxOut)) : View (option (list SpentTxOut)) :=
  match ins with
  | [] => mret stxos
  | txIn :: ins' =>
    entry ← gets (fun view => LookupEntry view (ti_PreviousOutPoint txIn));
    match entry with
    | None => mthrow AssertError
    | Some entry =>
      modify (set_entry (ti_PreviousOutPoint txIn) (Some (Spend entry)));;
      spend_loop ins' ((fun l => l ++ [stxo_of entry]) <$> stxos)
    end
  end.

Definition connectTransaction (tx : MsgTx) (blockHeight : Z) (stxos : option (list SpentTxOut)) : View (option (list SpentTxOut)) :=
  if IsCoinBase tx then modify (AddTxOuts tx blockHeight);; mret stxos else
  stxos ← spend_loop (tx_TxIn tx) stxos;
  modify (AddTxOuts tx blockHeight);;
  mret stxos.

Fixpoint connect_loop (txs : list MsgTx) (blockHeight : Z) (stxos : option (list SpentTxOut)) : View (option (list SpentTxOut)) :=
  match txs with
  | [] => mret stxos
  | tx :: txs' =>
    stxos ← connectTransaction tx blockHeight stxos;
    connect_loop txs' blockHeight stxos
  end.

Definition connectTransactions (block : BtcBlock) (stxos : option (list SpentTxOut)) : View (option (list SpentTxOut)) :=
  stxos ← connect_loop (b_Transactions block) (b_Height block) stxos;
  modify (SetBestHash (b_Hash block));;
  mret stxos.
(** * Disconnecting *)

(** The loop over the indexes below [MaxOutputsPerBlock]. *)
Fixpoint find_entry (n : nat) (hash : bytes) (idx : Z) (view : UtxoViewpoint) : option UtxoEntry :=
  match n with
  | O => None
  | S n' =>
    match LookupEntry view (mkOutPoint hash idx) with
    | Some entry => Some entry
    | None => find_entry n' hash (idx + 1) view
    end
  end.

Definition fetchEntryByHash (db : Bucket) (hash : bytes) : View (option UtxoEntry) :=
  entry ← gets (find_entry (Z.to_nat MaxOutputsPerBlock) hash 0);
  match entry with
  | Some entry => mret (Some entry)
  | None => lift (dbFetchUtxoEntryByHash db hash)
  end.

Definition countSpentOutputs (block : BtcBlock) : outcome ruleerr Z :=
  txs ← or_panic (slice_from (b_Transactions block) 1);
  mret (count_inputs txs).

(** The outputs of a transaction are marked as spent. *)
Fixpoint unadd_outs (hash : bytes) (txOutIdx : Z) (outs : list TxOut) (flags : Z) (blockHeight : Z) (view : UtxoViewpoint) : UtxoViewpoint :=
  match outs with
  | [] => view
  | txOut :: outs' =>
    unadd_outs hash (txOutIdx + 1) outs' flags blockHeight
      (if IsUnspendable (to_PkScript txOut) then view else
       let prevOut := mkOutPoint hash (uint32 txOutIdx) in
       let entry := match LookupEntry view prevOut with
                    | Some entry => entry
                    | None => dirtyGuessIsNetworkStewardPayment (mkUtxo (to_Value txOut) (to_PkScript txOut) blockHeight flags)
                    end in
       set_entry prevOut (Some (Spend entry)) view)
  end.

(** A spent output is created anew from the journal; a record of the old format, without
    the height, is completed from another output and the completed record is kept. *)
Definition restore (db : Bucket) (txHash : bytes) (originOut : OutPoint) (stxo : SpentTxOut) : View SpentTxOut :=
  modify (fun view => match LookupEntry view originOut with Some _ => view | None => set_entry originOut (Some (mkUtxo 0 [] 0 0)) view end);;
  stxo ← (if st_Height stxo =? 0 then
            utxo ← fetchEntryByHash db txHash;
            match utxo with
            | None => mthrow AssertError
            | Some utxo => mret (mkStxo (st_Amount stxo) (st_PkScript stxo) (ue_blockHeight utxo) (ue_IsCoinBase utxo))
            end
          else mret stxo);
  modify (set_entry originOut (Some (fresh_entry (st_Amount stxo) (st_PkScript stxo) (st_Height stxo) (st_IsCoinBase stxo))));;
  mret stxo.

(** [ins] is the inputs from the last to the first. *)
Fixpoint unspend_loop (db : Bucket) (txHash : bytes) (ins : list TxIn) (stxos : list SpentTxOut) (stxoIdx : Z) : View (list SpentTxOut * Z) :=
  match ins with
  | [] => mret (stxos, stxoIdx)
  | txIn :: ins' =>
    stxo ← lift (or_panic (index stxos stxoIdx));
    stxo ← restore db txHash (ti_PreviousOutPoint txIn) stxo;
    unspend_loop db txHash ins' (<[Z.to_nat stxoIdx := stxo]> stxos) (stxoIdx - 1)
  end.

(** [txs] is the transactions from the one with index [len txs - 1] to the first. *)
Fixpoint disconnect_loop (db : Bucket) (txs : list MsgTx) (blockHeight : Z) (stxos : list SpentTxOut) (stxoIdx : Z) : View (list SpentTxOut) :=
  match txs with
  | [] => mret stxos
  | tx :: txs' =>
    let isCoinBase := len txs' =? 0 in
    let flags := if isCoinBase then tfCoinBase else 0 in
    modify (unadd_outs (TxHash tx) 0 (tx_TxOut tx) flags blockHeight);;
    if isCoinBase then disconnect_loop db txs' blockHeight stxos stxoIdx else
    '(stxos, stxoIdx) ← unspend_loop db (TxHash tx) (rev (tx_TxIn tx)) stxos stxoIdx;
    disconnect_loop db txs' blockHeight stxos stxoIdx
  end.

(** The records, which the caller shares, are returned as the call leaves them. *)
Definition disconnectTransactions (db : Bucket) (block : BtcBlock) (stxos : list SpentTxOut) : View (list SpentTxOut) :=
  numSpent ← lift (countSpentOutputs block);
  if negb (len stxos =? numSpent) then mthrow AssertError else
  stxos ← disconnect_loop db (rev (b_Transactions block)) (b_Height block) stxos (len stxos - 1);
  modify (SetBestHash (bh_PrevBlock (mb_Header (b_MsgBlock block))));;
  mret stxos.

(** * Loading and storing *)

(** The spend journal; a missing record is read as an empty one. *)
Definition dbPutSpendJournalEntry (blockHash : bytes) (stxos : list SpentTxOut) (spendBucket : Bucket) : outcome ruleerr Bucket :=
  serialized ← no_error (serializeSpendJournalEntry stxos);
  mret (<[blockHash := serialized]> spendBucket).

Definition dbFetchSpendJournalEntry (spendBucket : Bucket) (block : BtcBlock) : outcome ruleerr (list SpentTxOut) :=
  let serialized := default [] (spendBucket !! b_Hash block) in
  blockTxns ← or_panic (slice_from (b_Transactions block) 1);
  db_err (deserializeSpendJournalEntry serialized blockTxns).

Definition dbRemoveSpendJournalEntry (blockHash : bytes) (spendBucket : Bucket) : Bucket := delete blockHash spendBucket.

Definition commit (view : UtxoViewpoint) : UtxoViewpoint :=
  mkView (omap (fun entry => match entry with
                             | None => None
                             | Some e => if isModified e && IsSpent e then None
                                         else Some (Some (set_flags (Z.lxor (packedFlags e) tfModified) e))
                             end) (entries view)) (bestHash view).

(** The set of outpoints is visited in any order; [order] is the one of this run. *)
Fixpoint fetchUtxosMain (db : Bucket) (order : list OutPoint) : View () :=
  match order with
  | [] => mret ()
  | outpoint :: order' =>
    entry ← lift (dbFetchUtxoEntry db outpoint);
    modify (set_entry outpoint entry);;
    fetchUtxosMain db order'
  end.

Definition fetchUtxos (db : Bucket) (order : list OutPoint) : View () :=
  needed ← gets (fun view => filter (fun outpoint => entries view !! outpoint = None) order);
  fetchUtxosMain db needed.

(** [txInFlight]: the last position of each hash. *)
Definition txInFlight (transactions : list MsgTx) : gmap bytes Z :=
  foldl (fun m p => <[TxHash p.2 := Z.of_nat p.1]> m) ∅ (zip (seq 0 (length transactions)) transactions).

Fixpoint input_loop (inFlight : gmap bytes Z) (transactions : list MsgTx) (blockHeight : Z) (i : Z) (ins : list TxIn) (needed : gset OutPoint) : View (gset OutPoint) :=
  match ins with
  | [] => mret needed
  | txIn :: ins' =>
    let originOut := ti_PreviousOutPoint txIn in
    found ← gets (fun view => bool_decide (is_Some (entries view !! originOut)));
    match inFlight !! op_Hash originOut with
    | Some inFlightIndex =>
      if inFlightIndex <=? i then
        originTx ← lift (or_panic (index transactions inFlightIndex));
        modify (AddTxOuts originTx blockHeight);;
        input_loop inFlight transactions blockHeight i ins' needed
      else input_loop inFlight transactions blockHeight i ins' (if found : bool then needed else {[originOut]} ∪ needed)
    | None => input_loop inFlight transactions blockHeight i ins' (if found : bool then needed else {[originOut]} ∪ needed)
    end
  end.

Fixpoint collect_loop (inFlight : gmap bytes Z) (transactions : list MsgTx) (blockHeight : Z) (i : Z) (txs : list MsgTx) (needed : gset OutPoint) : View (gset OutPoint) :=
  match txs with
  | [] => mret needed
  | tx :: txs' =>
    needed ← input_loop inFlight transactions blockHeight i (tx_TxIn tx) needed;
    collect_loop inFlight transactions blockHeight (i + 1) txs' needed
  end.

Definition fetchInputUtxos (db : Bucket) (block : BtcBlock) : View () :=
  let transactions := b_Transactions block in
  txs ← lift (or_panic (slice_from transactions 1));
  needed ← collect_loop (txInFlight transactions) transactions (b_Height block) 0 txs ∅;
  fetchUtxosMain db (elements needed).

(** The view for a transaction: its own outputs and the ones it spends. *)
Definition FetchUtxoView (db : Bucket) (tx : MsgTx) : outcome ruleerr UtxoViewpoint :=
  let own := map (fun i => mkOutPoint (TxHash tx) (uint32 (Z.of_nat i))) (seq 0 (length (tx_TxOut tx))) in
  let spent := if IsCoinBase tx then [] else map ti_PreviousOutPoint (tx_TxIn tx) in
  match fetchUtxosMain db (elements (list_to_set (own ++ spent) : gset OutPoint)) NewUtxoViewpoint with
  | (Ret _, view) => Ret view
  | (Throw e, _) => Throw e
  | (Panic, _) => Panic
  end.

(** The map is visited in any order; [order] is the one of this run. *)
Fixpoint put_view (order : list (OutPoint * option UtxoEntry)) (utxoBucket : Bucket) : outcome ruleerr Bucket :=
  match order with
  | [] => mret utxoBucket
  | (outpoint, entry) :: order' =>
    match entry with
    | None => put_view order' utxoBucket
    | Some entry =>
      if negb (isModified entry) then put_view order' utxoBucket else
      if IsSpent entry then
        key ← no_error (outpointKey outpoint);
        put_view order' (delete key utxoBucket)
      else
        serialized ← raw_err (serializeUtxoEntry entry);
        key ← no_error (outpointKey outpoint);
        put_view order' (<[key := serialized]> utxoBucket)
    end
  end.

Definition dbPutUtxoView (view : UtxoViewpoint) (utxoBucket : Bucket) : outcome ruleerr Bucket :=
  put_view (map_to_list (entries view)) utxoBucket.
End utxo.
