(* ===== verification/UtxoProps.v ===== *)
(** The set of unspent outputs as a finite map of coins: connecting a block to the view
    and storing the view takes the database from one set to the next, and disconnecting
    the block with the spend journal takes it back. *)

From stdpp Require Import gmap.
From S2P Require Import Prelude Params Opcode Sha Wire MsgTx SigHash ScriptUtil ChainParams Block MoneySupply Compress CompressProps RuleErr TxRules ChainIO ChainIOProps UtxoView.

(** * Coins *)

(** An unspent output: the amount, script, height and coinbase flag that the journal
    keeps. *)
Abbreviation coin := SpentTxOut.
Abbreviation coins := (gmap OutPoint coin).

Definition coin_of (e : UtxoEntry) : option coin := if IsSpent e then None else Some (stxo_of e).

Lemma flag_bit x k : 0 <= k -> (x &&& 2 ^ k =? 2 ^ k) = Z.testbit x k.
Proof.
  intros Hk. destruct (Z.testbit x k) eqn:E.
  - apply Z.eqb_eq. apply Z.bits_inj'. intros i Hi. rewrite Z.land_spec, Z.pow2_bits_eqb by lia. destruct (Z.eqb_spec k i) as [<-|]; [by rewrite E|by rewrite andb_false_r].
  - apply Z.eqb_neq. intros H. apply (f_equal (fun z => Z.testbit z k)) in H. rewrite Z.land_spec, Z.pow2_bits_true, E in H by lia. done.
Qed.

Lemma IsSpent_bit e : IsSpent e = Z.testbit (packedFlags e) 1.
Proof. exact (flag_bit (packedFlags e) 1 ltac:(lia)). Qed.
Lemma isModified_bit e : isModified e = Z.testbit (packedFlags e) 2.
Proof. exact (flag_bit (packedFlags e) 2 ltac:(lia)). Qed.
Lemma IsCoinBase_bit e : ue_IsCoinBase e = Z.testbit (packedFlags e) 0.
Proof. exact (flag_bit (packedFlags e) 0 ltac:(lia)). Qed.

Lemma Spend_spec e : IsSpent (Spend e) = true /\ coin_of (Spend e) = None /\ (isModified (Spend e) = true \/ IsSpent e = true /\ Spend e = e).
Proof.
  unfold coin_of, Spend. destruct (IsSpent e) eqn:Es; [rewrite Es; auto|].
  assert (IsSpent (set_flags (packedFlags e ||| (tfSpent ||| tfModified)) e) = true) as ->.
  { rewrite IsSpent_bit. cbn [set_flags packedFlags]. rewrite Z.lor_spec. apply orb_true_r. }
  split; [done|]. split; [done|]. left. rewrite isModified_bit. cbn [set_flags packedFlags]. rewrite Z.lor_spec. apply orb_true_r.
Qed.

Section steward.
Context `{GlobalConf}.

(** The guess about the network steward never marks an output that is marked modified:
    the test joins the flags with [|] where it should mask them with [&]. *)
Lemma fresh_entry_spec a s h c : fresh_entry a s h c = mkUtxo a s h (if c then tfModified ||| tfCoinBase else tfModified).
Proof. unfold fresh_entry, dirtyGuessIsNetworkStewardPayment. destruct (negb HasNetworkSteward); [done|]. by destruct c. Qed.

Lemma fresh_entry_coin a s h c : coin_of (fresh_entry a s h c) = Some (mkStxo a s h c) /\ isModified (fresh_entry a s h c) = true.
Proof. rewrite fresh_entry_spec. by destruct c. Qed.

(** The same output is a payment to the steward once it was stored and loaded. *)
Lemma steward_flag_lost a s h : HasNetworkSteward = true -> a = PktCalcNetworkStewardPayout (pktCalcBlockSubsidy (pktPeriodForBlock h)) ->
  isNetworkSteward (fresh_entry a s h true) = false /\ isNetworkSteward (stored (fresh_entry a s h true)) = true.
Proof.
  intros Hst ->. rewrite fresh_entry_spec. split; [done|]. unfold stored. change (ue_IsCoinBase _) with true. cbv iota.
  unfold dirtyGuessIsNetworkStewardPayment. rewrite Hst. cbn [negb set_flags packedFlags ue_amount ue_blockHeight].
  change (tfCoinBase ||| tfCoinBase =? tfCoinBase) with true. cbn [negb]. rewrite (Z.eqb_refl (PktCalcNetworkStewardPayout _)). done.
Qed.

Lemma dirtyGuess_coin e : stxo_of (dirtyGuessIsNetworkStewardPayment e) = stxo_of e /\ IsSpent (dirtyGuessIsNetworkStewardPayment e) = IsSpent e /\
  isModified (dirtyGuessIsNetworkStewardPayment e) = isModified e.
Proof.
  unfold dirtyGuessIsNetworkStewardPayment. destruct (negb HasNetworkSteward); [done|]. destruct (negb _); [done|]. destruct (_ =? _); [|done].
  unfold stxo_of. rewrite !IsCoinBase_bit, !IsSpent_bit, !isModified_bit. cbn [set_flags packedFlags ue_amount ue_pkScript ue_blockHeight].
  rewrite !Z.lor_spec. change tfNetworkSteward with 8. cbn [Z.testbit]. rewrite !orb_false_r. done.
Qed.

(** The entry that is loaded for a coin. *)
Definition loaded_entry (c : coin) : UtxoEntry := stored (mkUtxo (st_Amount c) (st_PkScript c) (st_Height c) (if st_IsCoinBase c then tfCoinBase else 0)).

Lemma stored_coin e : stored e = loaded_entry (stxo_of e).
Proof. unfold loaded_entry, stored, stxo_of. cbn [st_IsCoinBase]. by destruct (ue_IsCoinBase e). Qed.

Lemma loaded_entry_spec c : coin_of (loaded_entry c) = Some c /\ isModified (loaded_entry c) = false.
Proof.
  unfold loaded_entry, stored, coin_of. destruct c as [a s h [|]]; cbn [st_IsCoinBase].
  - change (ue_IsCoinBase _) with true. cbv iota. set (e := set_flags _ _). destruct (dirtyGuess_coin e) as (-> & -> & ->). done.
  - done.
Qed.
End steward.

(** * The reference *)

#[local] Opaque TxHash.

Fixpoint created_from (hash : bytes) (idx : Z) (outs : list TxOut) (isCoinBase : bool) (height : Z) : list (OutPoint * coin) :=
  match outs with
  | [] => []
  | out :: outs' =>
    (if IsUnspendable (to_PkScript out) then [] else [(mkOutPoint hash (uint32 idx), mkStxo (to_Value out) (to_PkScript out) height isCoinBase)])
    ++ created_from hash (idx + 1) outs' isCoinBase height
  end.

Definition created (tx : MsgTx) (height : Z) : list (OutPoint * coin) := created_from (TxHash tx) 0 (tx_TxOut tx) (IsCoinBase tx) height.

Definition spends (tx : MsgTx) : list OutPoint := if IsCoinBase tx then [] else map ti_PreviousOutPoint (tx_TxIn tx).

Definition put_coins (l : list (OutPoint * coin)) (C : coins) : coins := foldl (fun C p => <[p.1 := p.2]> C) C l.
Definition take_coins (l : list OutPoint) (C : coins) : coins := foldl (fun C o => delete o C) C l.

Definition apply_tx (height : Z) (C : coins) (tx : MsgTx) : coins := put_coins (created tx height) (take_coins (spends tx) C).
Definition apply_txs (height : Z) (txs : list MsgTx) (C : coins) : coins := foldl (apply_tx height) C txs.

(** What the journal records of the transactions. *)
Fixpoint txs_journal (height : Z) (txs : list MsgTx) (C : coins) : list coin :=
  match txs with
  | [] => []
  | tx :: txs' => omap (fun o => C !! o) (spends tx) ++ txs_journal height txs' (apply_tx height C tx)
  end.

Definition op_ok (o : OutPoint) : Prop := len (op_Hash o) = 32 /\ 0 <= op_Index o < 2 ^ 32.

(** The transactions spend coins that are there, each once.  The height is not zero:
    the outputs of the first block cannot be spent, and zero marks a record of the old
    format. *)
Fixpoint txs_valid (height : Z) (C : coins) (txs : list MsgTx) : Prop :=
  match txs with
  | [] => True
  | tx :: txs' =>
    (NoDup (spends tx) /\ forall o, o ∈ spends tx -> op_ok o /\ exists c, C !! o = Some c /\ st_Height c <> 0) /\
    txs_valid height (apply_tx height C tx) txs'
  end.

(** A block that applies to the coins [D]: the first transaction alone is a coinbase, the
    transactions are different, no output of a transaction with the same hash is unspent,
    every input spends an unspent output, and every created output survives its storage
    ([stxo_ok]).  The last is not a rule of the network: an amount of 2^64/9 or more may
    be read back as another one. *)
Record applies (D : coins) (block : BtcBlock) : Prop := {
  ap_coinbase : exists tx txs, b_Transactions block = tx :: txs /\ IsCoinBase tx = true /\ Forall (fun tx => IsCoinBase tx = false) txs;
  ap_different : NoDup (map TxHash (b_Transactions block));
  ap_fresh : forall o, op_Hash o ∈ map TxHash (b_Transactions block) -> D !! o = None;
  ap_valid : txs_valid (b_Height block) D (b_Transactions block);
  ap_outputs : Forall (fun tx => Forall (fun p => stxo_ok p.2) (created tx (b_Height block))) (b_Transactions block)
}.

Lemma lookup_take_coins l C o : take_coins l C !! o = if decide (o ∈ l) then None else C !! o.
Proof.
  revert C. induction l as [|p l IH]; intros C; [done|]. cbn [take_coins foldl]. fold (take_coins l (delete p C)). rewrite IH.
  destruct (decide (o ∈ l)), (decide (o ∈ p :: l)) as [Hin|Hin]; rewrite ?elem_of_cons in Hin; try done; [naive_solver| |].
  - destruct Hin as [-> |]; [|done]. by rewrite lookup_delete_eq.
  - rewrite lookup_delete_ne; naive_solver.
Qed.

Lemma lookup_put_coins_ne l C o : o ∉ l.*1 -> put_coins l C !! o = C !! o.
Proof.
  revert C. induction l as [|p l IH]; intros C Ho; [done|]. cbn [fmap list_fmap] in Ho. rewrite not_elem_of_cons in Ho. destruct Ho as [Hne Ho].
  cbn [put_coins foldl]. fold (put_coins l (<[p.1:=p.2]> C)). rewrite IH by done. by rewrite lookup_insert_ne.
Qed.

Lemma lookup_put_coins_Some l C o c : put_coins l C !! o = Some c -> (o, c) ∈ l \/ C !! o = Some c.
Proof.
  revert C. induction l as [|p l IH]; intros C Ho; [by right|]. cbn [put_coins foldl] in Ho. fold (put_coins l (<[p.1:=p.2]> C)) in Ho.
  rewrite elem_of_cons. destruct (IH _ Ho) as [|Hi]; [auto|]. apply lookup_insert_Some in Hi as [[<- <-]|[_ Hi]]; [left; left; by destruct p|by right].
Qed.

Lemma lookup_put_coins_is_Some l C o : o ∈ l.*1 -> is_Some (put_coins l C !! o).
Proof.
  revert C. induction l as [|p l IH]; intros C Ho; [by apply elem_of_nil in Ho|]. cbn [put_coins foldl]. fold (put_coins l (<[p.1:=p.2]> C)).
  destruct (decide (o ∈ l.*1)) as [Hin|Hin]; [by apply IH|]. cbn [fmap list_fmap] in Ho. rewrite elem_of_cons in Ho. destruct Ho as [-> |]; [|done].
  rewrite lookup_put_coins_ne by done. rewrite lookup_insert_eq. by eexists.
Qed.

Lemma created_from_hash hash idx outs cb h p : p ∈ created_from hash idx outs cb h -> op_Hash p.1 = hash /\ 0 <= op_Index p.1 < 2 ^ 32.
Proof.
  revert idx. induction outs as [|out outs IH]; intros idx Hp; cbn [created_from] in Hp; [by apply elem_of_nil in Hp|].
  rewrite elem_of_app in Hp. destruct Hp as [Hp|Hp]; [|by eapply IH]. destruct (IsUnspendable _); [by apply elem_of_nil in Hp|].
  apply list_elem_of_singleton in Hp as ->. cbn [fst op_Hash op_Index]. split; [done|]. apply uwrap_range. lia.
Qed.

Lemma created_stxo_ok tx h : 0 <= h < 2 ^ 31 -> Forall (fun out => output_ok (to_Value out) (to_PkScript out)) (tx_TxOut tx) ->
  Forall (fun p => stxo_ok p.2) (created tx h).
Proof.
  intros Hh Hout. unfold created. generalize 0. induction Hout as [|out outs Ho _ IH]; intros idx; cbn [created_from]; [constructor|].
  apply Forall_app. split; [|apply IH]. destruct (IsUnspendable _); [apply List.Forall_nil|]. apply List.Forall_cons; [by split|apply List.Forall_nil].
Qed.

Lemma len_TxHash tx : len (TxHash tx) = 32.
Proof. apply len_DoubleHashB. Qed.

Lemma created_ok tx h o : o ∈ (created tx h).*1 -> op_Hash o = TxHash tx /\ op_ok o.
Proof.
  intros (p & -> & Hp)%list_elem_of_fmap. destruct (created_from_hash _ _ _ _ _ _ Hp) as [E ?]. split; [done|]. split; [|done]. by rewrite E, len_TxHash.
Qed.

(** * The view over a database *)

(** What the view may hold for an output whose coin is [d] in the database and [c] in
    the set that the view stands for; [p] exempts outputs of the block at hand that were
    entered into the view ahead of time. *)
Definition at_ok (d : option coin) (p : Prop) (x : option (option UtxoEntry)) (c : option coin) : Prop :=
  match x with
  | None => ~ p -> c = d
  | Some None => d = None /\ (~ p -> c = None)
  | Some (Some e) => (isModified e = false -> d = coin_of e) /\ (~ p -> c = coin_of e)
  end.

Record rep (D : coins) (P : OutPoint -> Prop) (v : UtxoViewpoint) (C : coins) : Prop := {
  rep_keys : forall o x, entries v !! o = Some x -> op_ok o;
  rep_at : forall o, op_ok o -> at_ok (D !! o) (P o) (entries v !! o) (C !! o)
}.

(** The database holds the coins [D]. *)
Definition db_rep `{GlobalConf} (db : Bucket) (D : coins) : Prop :=
  (forall o, op_ok o -> dbFetchUtxoEntry db o = Ret (loaded_entry <$> D !! o)) /\ (forall o c, D !! o = Some c -> op_ok o /\ stxo_ok c).

Section rep.
Context `{GlobalConf} (D : coins).
Implicit Types (P : OutPoint -> Prop) (v : UtxoViewpoint) (C : coins).

Lemma rep_new : rep D (fun _ => False) NewUtxoViewpoint D.
Proof. split; cbn [NewUtxoViewpoint entries]; intros o; [intros x|]; rewrite lookup_empty; done. Qed.

Lemma rep_weaken P P' v C : (forall o, P o -> P' o) -> rep D P v C -> rep D P' v C.
Proof.
  intros HP [Hk Ha]. split; [done|]. intros o Ho. specialize (Ha o Ho). specialize (HP o). unfold at_ok in *.
  destruct (entries v !! o) as [[e|]|]; tauto.
Qed.

Lemma rep_set P P' v C C' o e : rep D P v C -> op_ok o -> (isModified e = false -> D !! o = coin_of e) ->
  (forall o', o' <> o -> P o' -> P' o') -> (forall o', o' <> o -> C' !! o' = C !! o') -> (~ P' o -> C' !! o = coin_of e) ->
  rep D P' (set_entry o (Some e) v) C'.
Proof.
  intros [Hk Ha] Ho Hm HP Hother Hat. split; cbn [set_entry entries].
  - intros o' x Hx. apply lookup_insert_Some in Hx as [[<- _]|[_ Hx]]; [done|by eapply Hk].
  - intros o' Ho'. destruct (decide (o = o')) as [<-|Hne]; [rewrite lookup_insert_eq; done|]. rewrite lookup_insert_ne by done.
    rewrite Hother by done. specialize (Ha o' Ho'). specialize (HP o' ltac:(done)). unfold at_ok in *.
    destruct (entries v !! o') as [[x|]|]; tauto.
Qed.

(** Entering a new output. *)
Lemma rep_fresh P P' v C o a s h cb : rep D P v C -> op_ok o -> (forall o', o' <> o -> P o' -> P' o') ->
  rep D P' (set_entry o (Some (fresh_entry a s h cb)) v) (<[o := mkStxo a s h cb]> C).
Proof.
  intros Hrep Ho HP. destruct (fresh_entry_coin a s h cb) as [Ec Em]. eapply rep_set; [done|done|by rewrite Em|done| |].
  - intros o' Hne. by rewrite lookup_insert_ne.
  - intros _. by rewrite lookup_insert_eq, Ec.
Qed.

(** Spending an entry. *)
Lemma rep_spend P P' v C o e : rep D P v C -> LookupEntry v o = Some e -> (forall o', o' <> o -> P o' -> P' o') ->
  rep D P' (set_entry o (Some (Spend e)) v) (delete o C).
Proof.
  intros Hrep He HP. destruct (Spend_spec e) as (_ & Ec & Hm). unfold LookupEntry in He.
  destruct (entries v !! o) as [x|] eqn:Ex; [|done]. subst x. pose proof (rep_keys _ _ _ _ Hrep o _ Ex) as Ho.
  eapply rep_set; [done|done| |done| |].
  - intros Hf. destruct Hm as [Hm|[_ Hm]]; [congruence|]. rewrite Hm in *. pose proof (rep_at _ _ _ _ Hrep o Ho) as Ha. rewrite Ex in Ha. by apply Ha.
  - intros o' Hne. by rewrite lookup_delete_ne.
  - intros _. by rewrite lookup_delete_eq, Ec.
Qed.

Lemma add_outs_rep hash outs cb h P : len hash = 32 -> forall idx v C,
  rep D (fun o => P o \/ o ∈ (created_from hash idx outs cb h).*1) v C ->
  rep D P (add_outs hash idx outs cb h v) (put_coins (created_from hash idx outs cb h) C).
Proof.
  intros Hh. induction outs as [|out outs IH]; intros idx v C Hrep; cbn [created_from add_outs] in *.
  - eapply rep_weaken; [|done]. intros o [?|Ho]; [done|by apply elem_of_nil in Ho].
  - unfold addTxOut. destruct (IsUnspendable (to_PkScript out)); [by apply IH|]. cbn [app put_coins foldl]. apply IH.
    eapply rep_fresh; [done|split; [done|apply uwrap_range; lia]|]. intros o' Hne [?|Ho]; [by left|]. right.
    cbn [app fmap list_fmap] in Ho. rewrite elem_of_cons in Ho. cbn [fst] in Ho. tauto.
Qed.

Lemma AddTxOuts_rep tx h P v C : rep D (fun o => P o \/ o ∈ (created tx h).*1) v C ->
  rep D P (AddTxOuts tx h v) (put_coins (created tx h) C).
Proof. apply add_outs_rep, len_TxHash. Qed.

Lemma unadd_outs_rep hash outs cb h flags P : len hash = 32 -> flags = 0 \/ flags = tfCoinBase -> forall idx v C,
  rep D (fun o => P o \/ o ∈ (created_from hash idx outs cb h).*1) v C ->
  rep D P (unadd_outs hash idx outs flags h v) (take_coins (created_from hash idx outs cb h).*1 C).
Proof.
  intros Hh Hf. induction outs as [|out outs IH]; intros idx v C Hrep; cbn [created_from unadd_outs] in *.
  - eapply rep_weaken; [|done]. intros o [?|Ho]; [done|by apply elem_of_nil in Ho].
  - destruct (IsUnspendable (to_PkScript out)); [by apply IH|]. cbn [app fmap list_fmap take_coins foldl fst]. apply IH. cbv zeta.
    assert (forall o', o' <> mkOutPoint hash (uint32 idx) ->
      P o' \/ o' ∈ ((mkOutPoint hash (uint32 idx), mkStxo (to_Value out) (to_PkScript out) h cb) :: created_from hash (idx + 1) outs cb h).*1 ->
      P o' \/ o' ∈ (created_from hash (idx + 1) outs cb h).*1) as HP.
    { intros o' Hne [?|Ho]; [by left|]. cbn [fmap list_fmap fst] in Ho. rewrite elem_of_cons in Ho. cbn [fst] in Ho. tauto. }
    destruct (LookupEntry v _) as [e|] eqn:El; [by eapply rep_spend|].
    set (e := dirtyGuessIsNetworkStewardPayment _). destruct (Spend_spec e) as (_ & Ec & Hm).
    assert (IsSpent e = false) as Es by (unfold e; destruct (dirtyGuess_coin (mkUtxo (to_Value out) (to_PkScript out) h flags)) as (_ & -> & _); by destruct Hf as [-> | ->]).
    eapply rep_set; [done|split; [done|apply uwrap_range; lia]| |done| |].
    + intros Hfm. destruct Hm as [Hm|[Hm _]]; congruence.
    + intros o' Hne. by rewrite lookup_delete_ne.
    + intros _. by rewrite lookup_delete_eq, Ec.
Qed.
End rep.

(** * Connecting *)

Definition grows (v v' : UtxoViewpoint) : Prop := forall o, is_Some (entries v !! o) -> is_Some (entries v' !! o).

Lemma grows_refl v : grows v v.
Proof. by intros o Ho. Qed.
Lemma grows_trans v1 v2 v3 : grows v1 v2 -> grows v2 v3 -> grows v1 v3.
Proof. intros H1 H2 o Ho. by apply H2, H1. Qed.
Lemma grows_set o x v : grows v (set_entry o x v).
Proof. intros o' Ho'. cbn [set_entry entries]. apply lookup_insert_is_Some'. by right. Qed.

(** The outputs of the transactions that are still to be connected. *)
Definition pending (height : Z) (txs : list MsgTx) (o : OutPoint) : Prop := exists tx, tx ∈ txs /\ o ∈ (created tx height).*1.

Lemma pending_hash h txs o : pending h txs o -> op_Hash o ∈ map TxHash txs.
Proof. intros (tx & Hin & Ho). apply created_ok in Ho as [-> _]. apply list_elem_of_fmap. by exists tx. Qed.

Section connect.
Context `{GlobalConf} (D : coins).

Lemma add_outs_grows hash idx outs cb h v : grows v (add_outs hash idx outs cb h v).
Proof.
  revert idx v. induction outs as [|out outs IH]; intros idx v; [apply grows_refl|]. cbn [add_outs]. eapply grows_trans; [|apply IH].
  unfold addTxOut. destruct (IsUnspendable _); [apply grows_refl|apply grows_set].
Qed.

Lemma omap_delete (C : coins) o (l : list OutPoint) : o ∉ l -> omap (fun o' => delete o C !! o') l = omap (fun o' => C !! o') l.
Proof.
  induction l as [|o' l IH]; intros Ho; [done|]. rewrite not_elem_of_cons in Ho. cbn [omap list_omap]. rewrite lookup_delete_ne by tauto.
  destruct (C !! o'); [f_equal|]; apply IH; tauto.
Qed.

Lemma spend_loop_rep P ins : NoDup (map ti_PreviousOutPoint ins) -> forall j v C, rep D P v C ->
  (forall o, o ∈ map ti_PreviousOutPoint ins -> is_Some (C !! o) /\ is_Some (entries v !! o) /\ ~ P o) ->
  exists v', spend_loop ins (Some j) v = (Ret (Some (j ++ omap (fun o => C !! o) (map ti_PreviousOutPoint ins))), v') /\
    rep D P v' (take_coins (map ti_PreviousOutPoint ins) C) /\ grows v v'.
Proof.
  induction ins as [|txIn ins IH]; intros Hnd j v C Hrep Hins; cbn [map] in *.
  { exists v. cbn [spend_loop omap list_omap]. rewrite app_nil_r. split; [done|]. split; [done|apply grows_refl]. }
  apply list.NoDup_cons in Hnd as [Hnotin Hnd]. set (o := ti_PreviousOutPoint txIn) in *.
  destruct (Hins o) as ([c Hc] & [x Hx] & HP); [apply elem_of_cons; by left|].
  pose proof (rep_at _ _ _ _ Hrep o (rep_keys _ _ _ _ Hrep o x Hx)) as Ha. rewrite Hx in Ha.
  destruct x as [e|]; [|destruct Ha as [_ Ha]; rewrite (Ha HP) in Hc; done]. destruct Ha as [_ Ha]. specialize (Ha HP). rewrite Hc in Ha.
  assert (LookupEntry v o = Some e) as Hl by (unfold LookupEntry; by rewrite Hx).
  pose proof (rep_spend D P P v C o e Hrep Hl ltac:(done)) as Hrep'.
  destruct (IH Hnd (j ++ [stxo_of e]) (set_entry o (Some (Spend e)) v) (delete o C) Hrep') as (v' & E & Hr & Hg).
  - intros o' Ho'. assert (o' <> o) as Hne by congruence. destruct (Hins o') as (? & ? & ?); [apply elem_of_cons; by right|].
    rewrite lookup_delete_ne by done. cbn [set_entry entries]. rewrite lookup_insert_ne by done. done.
  - exists v'. split; [|split; [exact Hr|eapply grows_trans; [apply grows_set|exact Hg]]].
    cbn [spend_loop]. fold o. rewrite bind_gets, Hl. cbn [mbind St_bind modify fmap option_fmap option_map].
    etransitivity; [exact E|]. do 3 f_equal. cbn [omap list_omap]. unfold coin_of in Ha. destruct (IsSpent e); [done|].
    injection Ha as ->. rewrite Hc. rewrite <- app_assoc. cbn [app]. do 2 f_equal. by apply omap_delete.
Qed.

Lemma connectTransaction_rep P tx h j v C : rep D (fun o => P o \/ o ∈ (created tx h).*1) v C -> NoDup (spends tx) ->
  (forall o, o ∈ spends tx -> is_Some (C !! o) /\ is_Some (entries v !! o) /\ ~ (P o \/ o ∈ (created tx h).*1)) ->
  exists v', connectTransaction tx h (Some j) v = (Ret (Some (j ++ omap (fun o => C !! o) (spends tx))), v') /\
    rep D P v' (apply_tx h C tx) /\ grows v v'.
Proof.
  intros Hrep Hnd Hins. unfold connectTransaction, apply_tx. unfold spends in *. destruct (IsCoinBase tx) eqn:Ecb.
  - exists (AddTxOuts tx h v). cbn [omap list_omap take_coins foldl]. rewrite app_nil_r. split; [done|].
    split; [by apply AddTxOuts_rep|apply add_outs_grows].
  - destruct (spend_loop_rep _ (tx_TxIn tx) Hnd j v C Hrep Hins) as (v' & E & Hr & Hg). exists (AddTxOuts tx h v').
    rewrite (bind_Ret _ _ _ _ _ E). split; [done|]. split; [by apply AddTxOuts_rep|].
    eapply grows_trans; [exact Hg|apply add_outs_grows].
Qed.

(** The coins after a transaction, away from its hash. *)
Lemma apply_tx_other h C tx o : op_Hash o <> TxHash tx -> C !! o = None -> apply_tx h C tx !! o = None.
Proof.
  intros Hne Ho. unfold apply_tx. rewrite lookup_put_coins_ne; [|intros [E _]%created_ok; done]. rewrite lookup_take_coins.
  by destruct (decide _).
Qed.

Lemma connect_loop_rep h txs : NoDup (map TxHash txs) -> forall j v C, rep D (pending h txs) v C ->
  (forall o, op_Hash o ∈ map TxHash txs -> C !! o = None) -> txs_valid h C txs ->
  (forall tx o, tx ∈ txs -> o ∈ spends tx -> is_Some (D !! o) -> is_Some (entries v !! o)) ->
  exists v', connect_loop txs h (Some j) v = (Ret (Some (j ++ txs_journal h txs C)), v') /\ rep D (fun _ => False) v' (apply_txs h txs C).
Proof.
  induction txs as [|tx txs IH]; intros Hnd j v C Hrep Hfresh Hval Hcov.
  { exists v. cbn [connect_loop txs_journal]. rewrite app_nil_r. split; [done|]. eapply rep_weaken; [|exact Hrep]. intros o (tx & Htx & _). by apply elem_of_nil in Htx. }
  cbn [map] in Hnd. apply list.NoDup_cons in Hnd as [Hnotin Hnd]. destruct Hval as [[Hsp Hins] Hval].
  destruct (connectTransaction_rep (pending h txs) tx h j v C) as (v' & E & Hr & Hg).
  - eapply rep_weaken; [|exact Hrep]. intros o (tx' & Htx' & Ho). apply elem_of_cons in Htx' as [-> |]; [by right|left; by exists tx'].
  - done.
  - intros o Ho. destruct (Hins o Ho) as [Hok (c & Hc & _)]. assert (~ pending h (tx :: txs) o) as Hnp.
    { intros Hp%pending_hash. rewrite (Hfresh o Hp) in Hc. done. }
    split; [by eexists|]. split.
    + destruct (entries v !! o) as [x|] eqn:Ex; [by eexists|]. rewrite <- Ex. apply (Hcov tx o); [apply elem_of_cons; by left|done|].
      pose proof (rep_at _ _ _ _ Hrep o Hok) as Ha. rewrite Ex in Ha. rewrite <- (Ha Hnp), Hc. by eexists.
    + intros [(tx' & Ht & Hx)|Hx]; apply Hnp; [exists tx'|exists tx]; (split; [|done]); apply elem_of_cons; [by right|by left].
  - destruct (IH Hnd (j ++ omap (fun o => C !! o) (spends tx)) v' (apply_tx h C tx) Hr) as (v'' & E' & Hr').
    + intros o Ho. apply apply_tx_other; [intros Eh; rewrite Eh in Ho; done|]. apply Hfresh. cbn [map]. apply elem_of_cons. by right.
    + done.
    + intros tx' o Ht Ho Hd. apply Hg, (Hcov tx' o); [apply elem_of_cons; by right|done|done].
    + exists v''. split; [|exact Hr']. cbn [connect_loop txs_journal]. rewrite (bind_Ret _ _ _ _ _ E). rewrite app_assoc. exact E'.
Qed.
End connect.

(** * Loading *)

Lemma txInFlight_from txs : forall k (m : gmap bytes Z) h,
  let r := foldl (fun m p => <[TxHash p.2 := Z.of_nat p.1]> m) m (zip (seq k (length txs)) txs) in
  (forall i, r !! h = Some i -> m !! h = Some i \/ exists j tx, txs !! j = Some tx /\ TxHash tx = h /\ i = Z.of_nat (k + j)) /\
  (r !! h = None -> m !! h = None /\ h ∉ map TxHash txs).
Proof.
  induction txs as [|tx txs IH]; intros k m h; cbn [length seq zip zip_with foldl map fst snd].
  { split; [by left|]. intros Hn. split; [done|apply not_elem_of_nil]. }
  destruct (IH (S k) (<[TxHash tx := Z.of_nat k]> m) h) as [H1 H2]. split.
  - intros i Hi. destruct (H1 i Hi) as [Hm|(j & tx' & Hj & Eh & ->)].
    + apply lookup_insert_Some in Hm as [[Eh <-]|[_ Hm]]; [right; exists 0%nat, tx|by left]. split; [done|]. split; [done|]. f_equal. lia.
    + right. exists (S j), tx'. split; [done|]. split; [done|]. f_equal. lia.
  - intros Hn. destruct (H2 Hn) as [Hm Hh]. apply lookup_insert_None in Hm as [Hm Hne]. split; [done|]. rewrite not_elem_of_cons. split; [congruence|done].
Qed.

Lemma txInFlight_Some txs h i : txInFlight txs !! h = Some i -> exists tx, index txs i = Some tx /\ tx ∈ txs.
Proof.
  intros Hi. destruct (txInFlight_from txs 0 ∅ h) as [H1 _]. destruct (H1 i Hi) as [Hm|(j & tx & Hj & _ & ->)]; [by rewrite lookup_empty in Hm|].
  exists tx. split; [|by eapply list_elem_of_lookup_2]. unfold index. rewrite (proj2 (Z.leb_le 0 _)) by lia. by rewrite Nat2Z.id.
Qed.

Lemma txInFlight_None txs h : txInFlight txs !! h = None -> h ∉ map TxHash txs.
Proof. intros Hn. by destruct (txInFlight_from txs 0 ∅ h) as [_ H2]; apply H2. Qed.

Section fetch.
Context `{GlobalConf} (db : Bucket) (D : coins) (Hdb : db_rep db D).

Lemma rep_ext P v C C' : (forall o, ~ P o -> C' !! o = C !! o) -> rep D P v C -> rep D P v C'.
Proof.
  intros HC [Hk Ha]. split; [done|]. intros o Ho. specialize (Ha o Ho). specialize (HC o). unfold at_ok in *.
  destruct (entries v !! o) as [[e|]|]; [|intuition congruence|intuition congruence]. destruct Ha as [H1 H2]. split; [done|]. intros Hn. by rewrite HC, H2.
Qed.

Lemma rep_load P v C o : rep D P v C -> op_ok o -> entries v !! o = None \/ P o -> rep D P (set_entry o (loaded_entry <$> D !! o) v) C.
Proof.
  intros Hrep Ho Hcase. split; cbn [set_entry entries].
  - intros o' x Hx. apply lookup_insert_Some in Hx as [[<- _]|[_ Hx]]; [done|by eapply Hrep].
  - intros o' Ho'. destruct (decide (o = o')) as [<-|Hne]; [|rewrite lookup_insert_ne by done; by apply Hrep].
    rewrite lookup_insert_eq. assert (~ P o -> C !! o = D !! o) as HC.
    { intros HP. destruct Hcase as [Hn|]; [|done]. pose proof (rep_at _ _ _ _ Hrep o Ho) as Ha. rewrite Hn in Ha. by apply Ha. }
    destruct (D !! o) as [c|]; cbn [fmap option_fmap option_map at_ok]; [|done]. by destruct (loaded_entry_spec c) as [-> _].
Qed.

Lemma fetchUtxosMain_rep P order v C : rep D P v C -> (forall o, o ∈ order -> op_ok o /\ (entries v !! o = None \/ P o)) -> NoDup order ->
  exists v', fetchUtxosMain db order v = (Ret (), v') /\ rep D P v' C /\ grows v v' /\ (forall o, o ∈ order -> is_Some (entries v' !! o)).
Proof.
  revert v. induction order as [|o order IH]; intros v Hrep Hall Hnd.
  { exists v. split; [done|]. split; [done|]. split; [apply grows_refl|]. intros o Ho. by apply elem_of_nil in Ho. }
  apply list.NoDup_cons in Hnd as [Hnotin Hnd]. destruct (Hall o) as [Hok Hcase]; [apply elem_of_cons; by left|].
  cbn [fetchUtxosMain]. rewrite (proj1 Hdb o Hok), bind_lift_Ret.
  destruct (IH (set_entry o (loaded_entry <$> D !! o) v)) as (v' & E & Hr & Hg & Hall').
  - by apply rep_load.
  - intros o' Ho'. destruct (Hall o') as [Hok' Hcase']; [apply elem_of_cons; by right|]. split; [done|]. cbn [set_entry entries].
    rewrite lookup_insert_ne by congruence. done.
  - done.
  - exists v'. split; [exact E|]. split; [done|]. split; [eapply grows_trans; [apply grows_set|done]|].
    intros o' Ho'. apply elem_of_cons in Ho' as [-> |]; [|by apply Hall']. apply Hg. cbn [set_entry entries]. rewrite lookup_insert_eq. by eexists.
Qed.

Context (txs : list MsgTx) (h : Z).
Abbreviation P := (pending h txs).

Lemma AddTxOuts_ahead tx v C : tx ∈ txs -> rep D P v C -> rep D P (AddTxOuts tx h v) C.
Proof.
  intros Htx Hrep. apply (rep_ext P _ (put_coins (created tx h) C)).
  - intros o Ho. rewrite lookup_put_coins_ne; [done|]. intros Hin. apply Ho. by exists tx.
  - apply AddTxOuts_rep. eapply rep_weaken; [|exact Hrep]. by left.
Qed.

Lemma add_outs_keeps hash idx outs cb v o : o ∉ (created_from hash idx outs cb h).*1 -> entries (add_outs hash idx outs cb h v) !! o = entries v !! o.
Proof.
  revert idx v. induction outs as [|out outs IH]; intros idx v Ho; [done|]. cbn [add_outs created_from] in *. rewrite fmap_app, not_elem_of_app in Ho.
  destruct Ho as [Ho1 Ho2]. rewrite IH by done. unfold addTxOut. destruct (IsUnspendable _); [done|]. cbn [set_entry entries].
  rewrite lookup_insert_ne; [done|]. intros <-. apply Ho1. by apply list_elem_of_singleton.
Qed.

(** What has been collected so far. *)
Definition collected (v : UtxoViewpoint) (needed : gset OutPoint) : Prop :=
  forall o, o ∈ needed -> op_ok o /\ (entries v !! o = None \/ P o).

Definition covers (v : UtxoViewpoint) (needed : gset OutPoint) (o : OutPoint) : Prop :=
  is_Some (entries v !! o) \/ o ∈ needed \/ op_Hash o ∈ map TxHash txs.

Lemma input_loop_rep i ins : (forall txIn, txIn ∈ ins -> op_ok (ti_PreviousOutPoint txIn)) -> forall v C needed, rep D P v C -> collected v needed ->
  exists v' needed', input_loop (txInFlight txs) txs h i ins needed v = (Ret needed', v') /\ rep D P v' C /\ collected v' needed' /\ grows v v' /\
    needed ⊆ needed' /\ forall txIn, txIn ∈ ins -> covers v' needed' (ti_PreviousOutPoint txIn).
Proof.
  induction ins as [|txIn ins IH]; intros Hok v C needed Hrep Hcol.
  { exists v, needed. split; [done|]. do 2 (split; [done|]). split; [apply grows_refl|]. split; [done|]. intros t Ht. by apply elem_of_nil in Ht. }
  assert (forall txIn', txIn' ∈ ins -> op_ok (ti_PreviousOutPoint txIn')) as Hok' by (intros t Ht; apply Hok, elem_of_cons; by right).
  assert (op_ok (ti_PreviousOutPoint txIn)) as Hoko by (apply Hok, elem_of_cons; by left).
  cbn [input_loop]. rewrite bind_gets. set (o := ti_PreviousOutPoint txIn) in *.
  set (needed1 := if bool_decide (is_Some (entries v !! o)) then needed else {[o]} ∪ needed).
  assert (collected v needed1 /\ needed ⊆ needed1 /\ covers v needed1 o) as (Hc1 & Hsub & Hcov1).
  { unfold needed1. destruct (bool_decide_reflect (is_Some (entries v !! o))) as [Hs|Hn]; [split; [done|]; split; [done|by left]|]. split; [|split; [set_solver|right; left; set_solver]].
    intros o' [->%elem_of_singleton|Ho']%elem_of_union; [|by apply Hcol]. split; [done|]. left. by apply eq_None_not_Some. }
  assert (exists v' needed', input_loop (txInFlight txs) txs h i ins needed1 v = (Ret needed', v') /\ rep D P v' C /\ collected v' needed' /\ grows v v' /\
    needed ⊆ needed' /\ forall t, t ∈ txIn :: ins -> covers v' needed' (ti_PreviousOutPoint t)) as Hrest.
  { destruct (IH Hok' v C needed1 Hrep Hc1) as (v' & n' & E & Hr & Hc & Hg & Hs & Hcov). exists v', n'. do 3 (split; [done|]). split; [done|]. split; [set_solver|].
    intros t [-> |Ht]%elem_of_cons; [|by apply Hcov]. destruct Hcov1 as [Hi|[Hi|Hi]]; [left; by apply Hg|right; left; by apply Hs|by right; right]. }
  destruct (txInFlight txs !! op_Hash o) as [k|] eqn:Ek; [|exact Hrest]. destruct (k <=? i); [|exact Hrest].
  destruct (txInFlight_Some _ _ _ Ek) as (tx & Ei & Htx). rewrite Ei. cbn [or_panic]. rewrite bind_lift_Ret.
  destruct (IH Hok' (AddTxOuts tx h v) C needed) as (v' & n' & E & Hr & Hc & Hg & Hs & Hcov).
  - by apply AddTxOuts_ahead.
  - intros o' Ho'. destruct (Hcol o' Ho') as [? [Hn|?]]; [|by split; [|right]]. split; [done|]. destruct (decide (o' ∈ (created tx h).*1)) as [Hin|Hnin]; [right; by exists tx|].
    left. unfold AddTxOuts. by rewrite add_outs_keeps.
  - exists v', n'. split; [exact E|]. do 2 (split; [done|]). split; [eapply grows_trans; [apply add_outs_grows|done]|]. split; [done|].
    intros t [-> |Ht]%elem_of_cons; [|by apply Hcov]. right; right. fold o. destruct (decide (op_Hash o ∈ map TxHash txs)) as [|Hn]; [done|].
    destruct (txInFlight_from txs 0 ∅ (op_Hash o)) as [H1 _]. destruct (H1 k Ek) as [Hm|(j & tx' & Hj & Eh & _)]; [by rewrite lookup_empty in Hm|].
    rewrite <- Eh. apply list_elem_of_fmap. exists tx'. split; [done|by eapply list_elem_of_lookup_2].
Qed.
End fetch.
