(* ===== verification/UtxoSet.v ===== *)
(** Connecting and disconnecting whole blocks: the view is loaded from the database,
    the block is connected or disconnected, and the view is stored. *)

From stdpp Require Import gmap.
From S2P Require Import Prelude Params Opcode Sha Wire MsgTx SigHash ScriptUtil ChainParams Block MoneySupply Compress CompressProps RuleErr TxRules ChainIO ChainIOProps UtxoView UtxoProps.

#[local] Opaque TxHash.

(** * Loading the inputs of a block *)

Section load.
Context `{GlobalConf} (db : Bucket) (D : coins) (Hdb : db_rep db D).

Definition inputs_ok (txs : list MsgTx) : Prop := forall tx txIn, tx ∈ txs -> txIn ∈ tx_TxIn tx -> op_ok (ti_PreviousOutPoint txIn).

Lemma collect_loop_rep txs h l : inputs_ok l -> forall i v C needed, rep D (pending h txs) v C -> collected txs h v needed ->
  exists v' needed', collect_loop (txInFlight txs) txs h i l needed v = (Ret needed', v') /\ rep D (pending h txs) v' C /\ collected txs h v' needed' /\ grows v v' /\
    needed ⊆ needed' /\ forall tx txIn, tx ∈ l -> txIn ∈ tx_TxIn tx -> covers txs v' needed' (ti_PreviousOutPoint txIn).
Proof.
  induction l as [|tx l IH]; intros Hok i v C needed Hrep Hcol.
  { exists v, needed. split; [done|]. do 2 (split; [done|]). split; [apply grows_refl|]. split; [done|]. intros t x Ht. by apply elem_of_nil in Ht. }
  destruct (input_loop_rep db D Hdb txs h i (tx_TxIn tx)) with (v := v) (C := C) (needed := needed) as (v1 & n1 & E1 & Hr1 & Hc1 & Hg1 & Hs1 & Hcov1);
    [intros x Hx; apply (Hok tx); [apply elem_of_cons; by left|done]|done|done|].
  destruct (IH ltac:(intros t x Ht; apply (Hok t); apply elem_of_cons; by right) (i + 1) v1 C n1 Hr1 Hc1) as (v2 & n2 & E2 & Hr2 & Hc2 & Hg2 & Hs2 & Hcov2).
  exists v2, n2. cbn [collect_loop]. rewrite (bind_Ret _ _ _ _ _ E1). split; [exact E2|]. do 2 (split; [done|]). split; [by eapply grows_trans|]. split; [by transitivity n1|].
  intros t x [-> |Ht]%elem_of_cons Hx; [|by eapply Hcov2]. destruct (Hcov1 x Hx) as [Hi|[Hi|Hi]]; [left; by apply Hg2|right; left; by apply Hs2|by right; right].
Qed.

Lemma fetchInputUtxos_rep block tx txs v C : b_Transactions block = tx :: txs -> inputs_ok txs -> rep D (fun _ => False) v C ->
  exists v', fetchInputUtxos db block v = (Ret (), v') /\ rep D (pending (b_Height block) (tx :: txs)) v' C /\ grows v v' /\
    (forall t txIn, t ∈ txs -> txIn ∈ tx_TxIn t -> is_Some (entries v' !! ti_PreviousOutPoint txIn) \/ op_Hash (ti_PreviousOutPoint txIn) ∈ map TxHash (tx :: txs)).
Proof.
  intros Htxs Hok Hrep. unfold fetchInputUtxos. rewrite Htxs. replace (slice_from (tx :: txs) 1) with (Some txs).
  2:{ symmetry. exact (slice_from_app [tx] txs 1 eq_refl). }
  cbn [or_panic]. rewrite bind_lift_Ret.
  destruct (collect_loop_rep (tx :: txs) (b_Height block) txs Hok 0 v C ∅) as (v1 & n1 & E1 & Hr1 & Hc1 & Hg1 & _ & Hcov).
  - eapply rep_weaken; [|exact Hrep]. done.
  - intros o Ho. by apply elem_of_empty in Ho.
  - rewrite (bind_Ret _ _ _ _ _ E1). destruct (fetchUtxosMain_rep db D Hdb (pending (b_Height block) (tx :: txs)) (elements n1) v1 C Hr1) as (v2 & E2 & Hr2 & Hg2 & Hall).
    + intros o Ho. by apply Hc1, elem_of_elements.
    + apply NoDup_elements.
    + exists v2. split; [exact E2|]. split; [done|]. split; [by eapply grows_trans|]. intros t x Ht Hx. destruct (Hcov t x Ht Hx) as [Hi|[Hi|Hi]]; [left; by apply Hg2| |by right].
      left. by apply Hall, elem_of_elements.
Qed.
End load.

(** * Disconnecting *)

Section disconnect.
Context `{GlobalConf} (db : Bucket) (D : coins).

Lemma restore_rep P v C hash o c : rep D P v C -> op_ok o -> st_Height c <> 0 ->
  exists v', restore db hash o c v = (Ret c, v') /\ rep D P v' (<[o := c]> C).
Proof.
  intros Hrep Ho Hh. unfold restore. rewrite (proj2 (Z.eqb_neq _ _) Hh).
  exists (set_entry o (Some (fresh_entry (st_Amount c) (st_PkScript c) (st_Height c) (st_IsCoinBase c))) v). split.
  - unfold mbind, St_bind, modify, mret, St_ret. cbv beta iota. destruct (LookupEntry v o); [done|]. f_equal. unfold set_entry. cbn [entries bestHash]. by rewrite insert_insert_eq.
  - destruct c as [a s h cb]. cbn [st_Amount st_PkScript st_Height st_IsCoinBase]. by eapply rep_fresh.
Qed.

Lemma unspend_loop_rep P hash ins_r cs_r : Forall2 (fun txIn c => op_ok (ti_PreviousOutPoint txIn) /\ st_Height c <> 0) ins_r cs_r -> forall A tail v C, rep D P v C ->
  exists v', unspend_loop db hash ins_r (A ++ rev cs_r ++ tail) (len A + len cs_r - 1) v = (Ret (A ++ rev cs_r ++ tail, len A - 1), v') /\
    rep D P v' (put_coins (zip (map ti_PreviousOutPoint ins_r) cs_r) C).
Proof.
  induction 1 as [|txIn c ins_r cs_r [Ho Hh] _ IH]; intros A tail v C Hrep.
  { exists v. split; [|done]. replace (len A + len [] - 1) with (len A - 1) by len_lia. done. }
  cbn [unspend_loop rev map zip zip_with put_coins foldl fst snd].
  assert (len (A ++ rev cs_r) = len A + len (c :: cs_r) - 1) as El by (rewrite len_app; unfold len; rewrite length_rev; cbn [length]; lia).
  rewrite <- El, <- app_assoc. cbn [app]. rewrite (app_assoc A (rev cs_r)).
  assert (index ((A ++ rev cs_r) ++ c :: tail) (len (A ++ rev cs_r)) = Some c) as ->.
  { rewrite index_app_r, Z.sub_diag by lia. done. }
  cbn [or_panic]. rewrite bind_lift_Ret. destruct (restore_rep P v C hash (ti_PreviousOutPoint txIn) c Hrep Ho Hh) as (v1 & E1 & Hr1).
  rewrite (bind_Ret _ _ _ _ _ E1). destruct (IH A (c :: tail) v1 _ Hr1) as (v2 & E2 & Hr2). exists v2. split; [|exact Hr2].
  rewrite list_insert_id by (unfold len; rewrite Nat2Z.id, lookup_app_r, Nat.sub_diag by lia; done).
  rewrite <- (app_assoc A (rev cs_r)). rewrite El. replace (len A + len (c :: cs_r) - 1 - 1) with (len A + len cs_r - 1) by len_lia. exact E2.
Qed.

Lemma journal_lookup (C : coins) os : (forall o, o ∈ os -> is_Some (C !! o)) ->
  length (omap (fun o => C !! o) os) = length os /\ forall o c, (o, c) ∈ zip os (omap (fun o => C !! o) os) -> C !! o = Some c.
Proof.
  induction os as [|o os IH]; intros Hos; [split; [done|]; intros o c Ho; by apply elem_of_nil in Ho|]. cbn [omap list_omap].
  destruct (Hos o) as [c Hc]; [apply elem_of_cons; by left|]. rewrite Hc. destruct IH as [Hl Hz]; [intros o' Ho'; apply Hos, elem_of_cons; by right|].
  split; [cbn [length]; by rewrite Hl|]. intros o' c' [E|Hin]%elem_of_cons; [by injection E as -> ->|by apply Hz].
Qed.

Lemma zip_rev {A B} (l : list A) (k : list B) : length l = length k -> zip (rev l) (rev k) = rev (zip l k).
Proof.
  revert k. induction l as [|x l IH]; intros [|y k] Hl; try done. cbn [length] in Hl. injection Hl as Hl. cbn [rev zip zip_with].
  rewrite zip_with_app by (by rewrite !length_rev). f_equal. by apply IH.
Qed.

(** Undoing one transaction on the coins. *)
Lemma unapply_tx h C tx : (forall o, op_Hash o = TxHash tx -> C !! o = None) -> (forall o, o ∈ spends tx -> is_Some (C !! o)) ->
  put_coins (rev (zip (spends tx) (omap (fun o => C !! o) (spends tx)))) (take_coins (created tx h).*1 (apply_tx h C tx)) = C.
Proof.
  intros Hfresh Hsp. destruct (journal_lookup C (spends tx) Hsp) as [Hl Hz]. set (l := rev (zip (spends tx) (omap (fun o => C !! o) (spends tx)))).
  assert (forall o, o ∈ l.*1 <-> o ∈ spends tx) as Hkeys.
  { intros o. unfold l. change (fst <$> rev ?x) with (map fst (rev x)). rewrite map_rev, list_elem_of_In, <- in_rev, <- list_elem_of_In.
    change (map fst ?x) with (x.*1). rewrite fst_zip by lia. done. }
  apply map_eq. intros o. destruct (decide (o ∈ spends tx)) as [Hin|Hin].
  - destruct (lookup_put_coins_is_Some l (take_coins (created tx h).*1 (apply_tx h C tx)) o) as [c Hc]; [by apply Hkeys|]. rewrite Hc.
    apply lookup_put_coins_Some in Hc as [Hc|Hc].
    + symmetry. apply Hz. unfold l in Hc. by rewrite list_elem_of_In, <- in_rev, <- list_elem_of_In in Hc.
    + rewrite lookup_take_coins in Hc. destruct (decide _) as [|Hnc]; [done|]. unfold apply_tx in Hc. rewrite lookup_put_coins_ne, lookup_take_coins in Hc by done.
      by rewrite decide_True in Hc.
  - rewrite lookup_put_coins_ne by (by rewrite Hkeys). rewrite lookup_take_coins. destruct (decide _) as [Hc|Hc].
    + symmetry. apply Hfresh. by apply created_ok in Hc as [-> _].
    + unfold apply_tx. rewrite lookup_put_coins_ne, lookup_take_coins by done. by rewrite decide_False.
Qed.
End disconnect.

(** * The whole block *)

Section undo.
Context `{GlobalConf} (db : Bucket) (D : coins) (h : Z).

Lemma apply_txs_other txs C o : op_Hash o ∉ map TxHash txs -> C !! o = None -> apply_txs h txs C !! o = None.
Proof.
  revert C. induction txs as [|tx txs IH]; intros C Ho Hn; [done|]. cbn [map] in Ho. rewrite not_elem_of_cons in Ho. cbn [apply_txs foldl].
  apply IH; [tauto|]. apply apply_tx_other; tauto.
Qed.

Lemma apply_txs_app txs txs' C : apply_txs h (txs ++ txs') C = apply_txs h txs' (apply_txs h txs C).
Proof. unfold apply_txs. by rewrite foldl_app. Qed.

Lemma txs_journal_app txs txs' C : txs_journal h (txs ++ txs') C = txs_journal h txs C ++ txs_journal h txs' (apply_txs h txs C).
Proof. revert C. induction txs as [|tx txs IH]; intros C; [done|]. cbn [app txs_journal apply_txs foldl]. by rewrite IH, <- app_assoc. Qed.

Lemma txs_valid_app txs txs' C : txs_valid h C (txs ++ txs') <-> txs_valid h C txs /\ txs_valid h (apply_txs h txs C) txs'.
Proof. revert C. induction txs as [|tx txs IH]; intros C; cbn [app txs_valid apply_txs foldl]; [tauto|]. rewrite IH. unfold apply_txs. tauto. Qed.

Lemma pending_snoc txs tx o : pending h (txs ++ [tx]) o -> pending h txs o \/ o ∈ (created tx h).*1.
Proof. intros (t & [Ht|Ht]%elem_of_app & Ho); [left; by exists t|right]. by apply list_elem_of_singleton in Ht as ->. Qed.

Lemma Forall2_rev' {A B} (R : A -> B -> Prop) l k : Forall2 R l k -> Forall2 R (rev l) (rev k).
Proof. induction 1; cbn [rev]; [constructor|]. apply Forall2_app; [done|]. by repeat constructor. Qed.

(** The inputs of one transaction are restored from the end of the journal. *)
Lemma unspend_tx_rep P tx C A tail v : let cs := omap (fun o => C !! o) (spends tx) in
  IsCoinBase tx = false -> (forall o, o ∈ spends tx -> op_ok o /\ exists c, C !! o = Some c /\ st_Height c <> 0) -> (forall o, op_Hash o = TxHash tx -> C !! o = None) ->
  rep D P v (take_coins (created tx h).*1 (apply_tx h C tx)) ->
  exists v', unspend_loop db (TxHash tx) (rev (tx_TxIn tx)) (A ++ cs ++ tail) (len (A ++ cs) - 1) v = (Ret (A ++ cs ++ tail, len A - 1), v') /\ rep D P v' C.
Proof.
  intros cs Hncb Hins Hf Hrep. assert (forall o, o ∈ spends tx -> is_Some (C !! o)) as Hs by (intros o Ho; destruct (Hins o Ho) as (_ & c & Hc & _); by eexists).
  pose proof (unapply_tx h C tx Hf Hs) as Hun. fold cs in Hun. destruct (journal_lookup C (spends tx) Hs) as [Hlen Hz]. fold cs in Hlen, Hz.
  assert (spends tx = map ti_PreviousOutPoint (tx_TxIn tx)) as Esp by (unfold spends; by rewrite Hncb). rewrite Esp in *.
  destruct (unspend_loop_rep db D P (TxHash tx) (rev (tx_TxIn tx)) (rev cs)) with (A := A) (tail := tail)
    (v := v) (C := take_coins (created tx h).*1 (apply_tx h C tx)) as (v2 & E2 & Hr2); [|exact Hrep|].
  - apply Forall2_rev', Forall2_same_length_lookup_2; [by rewrite Hlen, length_map|]. intros i txIn c Hi Hc.
    assert (map ti_PreviousOutPoint (tx_TxIn tx) !! i = Some (ti_PreviousOutPoint txIn)) as Hmi by (change (map ?f ?l) with (f <$> l); by rewrite list_lookup_fmap, Hi).
    destruct (Hins (ti_PreviousOutPoint txIn)) as [Hop (c' & Hc' & Hh)]; [by eapply list_elem_of_lookup_2|]. split; [done|].
    rewrite (Hz (ti_PreviousOutPoint txIn) c) in Hc'; [by injection Hc' as ->|].
    apply list_elem_of_lookup_2 with (i := i). apply lookup_zip_with_Some. by exists (ti_PreviousOutPoint txIn), c.
  - rewrite map_rev, zip_rev in Hr2 by done. rewrite Hun in Hr2. exists v2. split; [|exact Hr2]. rewrite rev_involutive in E2.
    replace (len (A ++ cs) - 1) with (len A + len (rev cs) - 1) by (rewrite len_app; unfold len; rewrite length_rev; lia). exact E2.
Qed.

(** The first transaction is the coinbase, and no other is. *)
Definition coinbase_first (txs : list MsgTx) : Prop :=
  match txs with [] => True | tx :: txs' => IsCoinBase tx = true /\ Forall (fun tx => IsCoinBase tx = false) txs' end.

Lemma disconnect_loop_rep txs C : coinbase_first txs -> NoDup (map TxHash txs) -> (forall o, op_Hash o ∈ map TxHash txs -> C !! o = None) -> txs_valid h C txs ->
  forall tail v, rep D (pending h txs) v (apply_txs h txs C) ->
  exists v', disconnect_loop db (rev txs) h (txs_journal h txs C ++ tail) (len (txs_journal h txs C) - 1) v = (Ret (txs_journal h txs C ++ tail), v') /\
    rep D (fun _ => False) v' C.
Proof.
  induction txs as [|tx txs IH] using rev_ind; intros Hcb Hnd Hfresh Hval tail v Hrep.
  { exists v. split; [done|]. eapply rep_weaken; [|exact Hrep]. intros o (t & Ht & _). by apply elem_of_nil in Ht. }
  rewrite map_app in Hnd, Hfresh. apply list.NoDup_app in Hnd as (Hnd & Hdisj & _). apply txs_valid_app in Hval as [Hval [[Hsp Hins] _]].
  rewrite apply_txs_app in Hrep. cbn [apply_txs foldl] in Hrep. set (C1 := apply_txs h txs C) in *.
  assert (TxHash tx ∉ map TxHash txs) as Hnew by (intros Hin; apply (Hdisj _ Hin); cbn [map]; by apply list_elem_of_singleton).
  assert (forall o, op_Hash o = TxHash tx -> C1 !! o = None) as Hf1.
  { intros o Ho. apply apply_txs_other; [by rewrite Ho|]. apply Hfresh. rewrite elem_of_app, Ho. right. cbn [map]. by apply list_elem_of_singleton. }
  assert (forall o, o ∈ spends tx -> is_Some (C1 !! o)) as Hs1 by (intros o Ho; destruct (Hins o Ho) as (_ & c & Hc & _); by eexists).
  rewrite rev_app_distr. cbn [rev app disconnect_loop]. rewrite txs_journal_app. cbn [txs_journal]. rewrite app_nil_r. fold C1.
  set (cs := omap (fun o => C1 !! o) (spends tx)). set (fl := if len (rev txs) =? 0 then tfCoinBase else 0).
  assert (rep D (pending h txs) (unadd_outs (TxHash tx) 0 (tx_TxOut tx) fl h v) (take_coins (created tx h).*1 (apply_tx h C1 tx))) as Hr1.
  { apply unadd_outs_rep; [apply len_TxHash|unfold fl; destruct (_ =? 0); auto|]. eapply rep_weaken; [|exact Hrep]. apply pending_snoc. }
  assert (forall v', rep D (pending h txs) v' C1 -> exists v'', disconnect_loop db (rev txs) h ((txs_journal h txs C ++ cs) ++ tail) (len (txs_journal h txs C) - 1) v' =
    (Ret ((txs_journal h txs C ++ cs) ++ tail), v'') /\ rep D (fun _ => False) v'' C) as Hrest.
  { intros v' Hv'. rewrite <- !app_assoc. apply IH; [|done| |done|done].
    - destruct txs as [|t0 txs]; [done|]. destruct Hcb as [? Hcb]. split; [done|]. by apply Forall_app in Hcb as [Hcb _].
    - intros o Ho. apply Hfresh. rewrite elem_of_app. by left. }
  pose proof (unapply_tx h C1 tx Hf1 Hs1) as Hun. fold cs in Hun.
  destruct (Z.eqb_spec (len (rev txs)) 0) as [E0|E0].
  - apply len_0 in E0. apply (f_equal (@rev _)) in E0. rewrite rev_involutive in E0. subst txs. destruct Hcb as [Hcb _].
    assert (spends tx = []) as Esp by (unfold spends; by rewrite Hcb). unfold cs in *. rewrite Esp in *. cbn [omap list_omap zip zip_with rev put_coins foldl] in Hun.
    rewrite Hun in Hr1. cbn [txs_journal app] in *. destruct (Hrest _ Hr1) as (v'' & E & Hr). exists v''. split; [exact E|exact Hr].
  - assert (IsCoinBase tx = false) as Hncb.
    { destruct txs as [|t0 txs]; [done|]. destruct Hcb as [_ Hcb]. by apply Forall_app in Hcb as [_ Hcb]; inversion Hcb. }
    destruct (unspend_tx_rep (pending h txs) tx C1 (txs_journal h txs C) tail _ Hncb Hins Hf1 Hr1) as (v2 & E2 & Hr2). fold cs in E2.
    destruct (Hrest v2 Hr2) as (v3 & E3 & Hr3). exists v3. split; [|exact Hr3].
    rewrite <- (app_assoc _ cs tail). erewrite (bind_Ret (modify _)) by reflexivity. fold fl. rewrite (bind_Ret _ _ _ _ _ E2). rewrite (app_assoc _ cs tail). exact E3.
Qed.
End undo.

(** * Storing the view *)

Section store.
Context `{GlobalConf}.

Lemma fetch_delete db o o' : op_ok o -> op_ok o' -> exists key, outpointKey o = Ret key /\
  dbFetchUtxoEntry (delete key db) o' = if decide (o = o') then Ret None else dbFetchUtxoEntry db o'.
Proof.
  intros [Hl Hi] [Hl' Hi']. exists (op_Hash o ++ vlq (op_Index o)). split; [by apply outpointKey_spec|]. unfold dbFetchUtxoEntry.
  rewrite outpointKey_spec by done. cbn [no_error mbind outcome_bind]. destruct (decide (o = o')) as [<-|Hne]; [by rewrite lookup_delete_eq|].
  rewrite lookup_delete_ne; [done|]. intros E. apply Hne. destruct o as [h i], o' as [h' i']. cbn [op_Hash op_Index] in *.
  apply app_inj_1 in E as [-> E]; [|unfold len in *; lia]. by apply vlq_inj in E as ->; [|lia..].
Qed.

Lemma fetch_insert db o o' e : op_ok o -> op_ok o' -> utxo_ok e -> IsSpent e = false -> exists key b, outpointKey o = Ret key /\ serializeUtxoEntry e = Ret b /\
  dbFetchUtxoEntry (<[key := b]> db) o' = if decide (o = o') then Ret (Some (stored e)) else dbFetchUtxoEntry db o'.
Proof.
  intros [Hl Hi] [Hl' Hi'] He Hs. destruct (utxo_roundtrip e He Hs) as (b & Es & Ed). exists (op_Hash o ++ vlq (op_Index o)), b. split; [by apply outpointKey_spec|].
  split; [done|]. unfold dbFetchUtxoEntry. rewrite outpointKey_spec by done. cbn [no_error mbind outcome_bind]. destruct (decide (o = o')) as [<-|Hne].
  - rewrite lookup_insert_eq. destruct b as [|x b]; [done|]. rewrite (proj2 (Z.eqb_neq (len (x :: b)) 0)) by len_lia. by rewrite Ed.
  - rewrite lookup_insert_ne; [done|]. intros E. apply Hne. destruct o as [h i], o' as [h' i']. cbn [op_Hash op_Index] in *.
    apply app_inj_1 in E as [-> E]; [|unfold len in *; lia]. by apply vlq_inj in E as ->; [|lia..].
Qed.

(** What is stored for an output, by the order in which the map is visited. *)
Definition stored_as (old : outcome ruleerr (option UtxoEntry)) (x : option (option UtxoEntry)) : outcome ruleerr (option UtxoEntry) :=
  match x with
  | Some (Some e) => if isModified e then Ret (if IsSpent e then None else Some (stored e)) else old
  | _ => old
  end.

Lemma put_view_spec order : NoDup order.*1 -> (forall o x, (o, x) ∈ order -> op_ok o /\ forall e, x = Some e -> IsSpent e = false -> isModified e = true -> utxo_ok e) ->
  forall db, exists db', put_view order db = Ret db' /\ forall o x, op_ok o -> (if decide (o ∈ order.*1) then (o, x) ∈ order else x = None) ->
    dbFetchUtxoEntry db' o = stored_as (dbFetchUtxoEntry db o) (Some x).
Proof.
  induction order as [|[o x] order IH]; intros Hnd Hall db.
  { exists db. split; [done|]. intros o x _ Hx. rewrite decide_False in Hx by apply not_elem_of_nil. by subst x. }
  cbn [fmap list_fmap fst] in Hnd. apply list.NoDup_cons in Hnd as [Hnotin Hnd]. destruct (Hall o x) as [Ho Hx]; [apply elem_of_cons; by left|].
  specialize (IH Hnd ltac:(intros o' x' Hin; apply Hall, elem_of_cons; by right)).
  assert (exists db1, put_view ((o, x) :: order) db = put_view order db1 /\ forall o', op_ok o' ->
    dbFetchUtxoEntry db1 o' = if decide (o = o') then stored_as (dbFetchUtxoEntry db o) (Some x) else dbFetchUtxoEntry db o') as (db1 & E1 & Hf).
  { cbn [put_view stored_as]. assert (forall o', dbFetchUtxoEntry db o' = if decide (o = o') then dbFetchUtxoEntry db o else dbFetchUtxoEntry db o') as Hsame by (intros o'; by destruct (decide (o = o')) as [<-|]).
    destruct x as [e|]; [|exists db; split; [done|auto]]. destruct (isModified e) eqn:Em; cbn [negb]; [|exists db; split; [done|auto]].
    destruct (IsSpent e) eqn:Es.
    - exists (delete (op_Hash o ++ vlq (op_Index o)) db). rewrite outpointKey_spec by apply Ho. split; [done|]. intros o' Ho'.
      destruct (fetch_delete db o o' Ho Ho') as (key & Ek & Hk). rewrite outpointKey_spec in Ek by apply Ho. injection Ek as <-. done.
    - destruct (utxo_roundtrip e (Hx e eq_refl Es Em) Es) as (b & Eb & _). exists (<[op_Hash o ++ vlq (op_Index o) := b]> db).
      rewrite outpointKey_spec by apply Ho. rewrite Eb. split; [done|]. intros o' Ho'.
      destruct (fetch_insert db o o' e Ho Ho' (Hx e eq_refl Es Em) Es) as (key & b' & Ek & Eb' & Hk). rewrite outpointKey_spec in Ek by apply Ho. injection Ek as <-.
      rewrite Eb in Eb'. injection Eb' as <-. done. }
  destruct (IH db1) as (db' & E' & Hf'). exists db'. split; [by rewrite E1|]. intros o' x' Ho' Hin.
  destruct (decide (o = o')) as [<-|Hne].
  - rewrite (Hf' o None Ho), (Hf o Ho), decide_True by (try done; by rewrite decide_False). cbn [stored_as]. f_equal. f_equal.
    rewrite decide_True in Hin by (cbn [fmap list_fmap]; apply elem_of_cons; by left). apply elem_of_cons in Hin as [E|Hin]; [by injection E as ->|].
    exfalso. apply Hnotin. apply list_elem_of_fmap. by exists (o, x').
  - assert (if decide (o' ∈ order.*1) then (o', x') ∈ order else x' = None) as Hin'.
    { cbn [fmap list_fmap fst] in Hin. destruct (decide (o' ∈ order.*1)) as [Hi|Hi].
      - rewrite decide_True in Hin by (apply elem_of_cons; by right). apply elem_of_cons in Hin as [E|]; [congruence|done].
      - rewrite decide_False in Hin; [done|]. rewrite not_elem_of_cons. split; [congruence|done]. }
    rewrite (Hf' o' x' Ho' Hin'), (Hf o' Ho'), decide_False by done. done.
Qed.

Lemma dbPutUtxoView_rep db D v C : db_rep db D -> rep D (fun _ => False) v C -> (forall o c, C !! o = Some c -> op_ok o /\ stxo_ok c) ->
  exists db', dbPutUtxoView v db = Ret db' /\ db_rep db' C.
Proof.
  intros [Hdb _] Hrep HC. destruct (put_view_spec (map_to_list (entries v))) with (db := db) as (db' & E & Hf).
  - apply NoDup_fst_map_to_list.
  - intros o x Hin%elem_of_map_to_list. pose proof (rep_keys _ _ _ _ Hrep o x Hin) as Ho. split; [done|]. intros e -> Hs _.
    pose proof (rep_at _ _ _ _ Hrep o Ho) as Ha. rewrite Hin in Ha. destruct Ha as [_ Ha]. specialize (Ha id). unfold coin_of in Ha. rewrite Hs in Ha.
    destruct (HC o _ Ha) as [_ Hok]. exact Hok.
  - exists db'. split; [exact E|]. split; [|exact HC]. intros o Ho. pose proof (rep_at _ _ _ _ Hrep o Ho) as Ha.
    destruct (entries v !! o) as [x|] eqn:Ex.
    + rewrite (Hf o x Ho), Hdb; [|done|].
      2:{ apply elem_of_map_to_list in Ex. rewrite decide_True; [done|]. apply list_elem_of_fmap. by exists (o, x). }
      destruct x as [e|]; cbn [stored_as at_ok] in *; [|destruct Ha as [-> Hc]; by rewrite Hc by auto]. destruct Ha as [Hm Hc]. rewrite Hc by (intros []).
      destruct (isModified e); [|by rewrite Hm]. unfold coin_of. destruct (IsSpent e); [done|]. cbn [fmap option_fmap option_map]. by rewrite stored_coin.
    + rewrite (Hf o None Ho), Hdb; [cbn [stored_as at_ok] in *; rewrite Ha; [done|intros []]|done|]. rewrite decide_False; [done|].
      intros ([o' x] & -> & Hin)%list_elem_of_fmap. apply elem_of_map_to_list in Hin. cbn [fst] in Ex. congruence.
Qed.

(** After the commit the view agrees with the stored set. *)
Lemma commit_rep D v C : rep D (fun _ => False) v C -> rep C (fun _ => False) (commit v) C.
Proof.
  intros Hrep. split; cbn [commit entries].
  - intros o x Hx. apply lookup_omap_Some in Hx as (y & _ & Hy). by eapply Hrep.
  - intros o Ho. pose proof (rep_at _ _ _ _ Hrep o Ho) as Ha. rewrite lookup_omap. destruct (entries v !! o) as [[e|]|]; cbn [mbind option_bind at_ok] in *; [|done..].
    destruct (isModified e && IsSpent e) eqn:E; cbn [at_ok]; [done|]. destruct Ha as [_ Ha]. rewrite Ha by (intros []).
    assert (coin_of (set_flags (Z.lxor (packedFlags e) tfModified) e) = coin_of e) as ->; [|done].
    unfold coin_of, stxo_of. rewrite !IsSpent_bit, !IsCoinBase_bit. cbn [set_flags packedFlags ue_amount ue_pkScript ue_blockHeight]. rewrite !Z.lxor_spec.
    change tfModified with 4. cbn [Z.testbit]. by rewrite !xorb_false_r.
Qed.
End store.

(** * Connecting and disconnecting a block *)

Section block.
Context `{GlobalConf} (h : Z).

Definition coins_ok (C : coins) : Prop := forall o c, C !! o = Some c -> op_ok o /\ stxo_ok c.

Lemma apply_tx_ok C tx : coins_ok C -> Forall (fun p => stxo_ok p.2) (created tx h) -> coins_ok (apply_tx h C tx).
Proof.
  intros HC Hcr o c Hc. unfold apply_tx in Hc. apply lookup_put_coins_Some in Hc as [Hin|Hc].
  - split; [|rewrite Forall_forall in Hcr; apply (Hcr (o, c)); by apply list_elem_of_In]. apply (created_ok tx h). apply list_elem_of_fmap. by exists (o, c).
  - rewrite lookup_take_coins in Hc. destruct (decide _); [done|]. by apply HC.
Qed.

Lemma apply_txs_ok txs C : coins_ok C -> Forall (fun tx => Forall (fun p => stxo_ok p.2) (created tx h)) txs -> coins_ok (apply_txs h txs C).
Proof. intros HC Hcr. revert C HC. induction Hcr as [|tx txs Htx _ IH]; intros C HC; [done|]. cbn [apply_txs foldl]. by apply IH, apply_tx_ok. Qed.

Lemma txs_journal_ok txs C : coins_ok C -> Forall (fun tx => Forall (fun p => stxo_ok p.2) (created tx h)) txs -> Forall stxo_ok (txs_journal h txs C).
Proof.
  intros HC Hcr. revert C HC. induction Hcr as [|tx txs Htx _ IH]; intros C HC; [constructor|]. cbn [txs_journal]. apply Forall_app. split; [|by apply IH, apply_tx_ok].
  apply Forall_forall. intros c (o & _ & Ho)%list_elem_of_In%list_elem_of_omap. by apply (HC o).
Qed.

Lemma txs_journal_len txs C : txs_valid h C txs -> Forall (fun tx => IsCoinBase tx = false) txs -> len (txs_journal h txs C) = count_inputs txs.
Proof.
  intros Hv Hcb. revert C Hv. induction Hcb as [|tx txs Htx _ IH]; intros C Hv; [done|]. destruct Hv as [[_ Hins] Hv]. cbn [txs_journal count_inputs foldr]. rewrite len_app.
  rewrite (IH _ Hv). f_equal. unfold len. rewrite (proj1 (journal_lookup C (spends tx) ltac:(intros o Ho; destruct (Hins o Ho) as (_ & c & Hc & _); by eexists))).
  unfold spends. rewrite Htx. by rewrite length_map.
Qed.

Lemma txs_valid_inputs txs C : txs_valid h C txs -> Forall (fun tx => IsCoinBase tx = false) txs -> inputs_ok txs.
Proof.
  intros Hv Hcb tx txIn Htx Hin. revert C Hv. induction Hcb as [|t txs Ht _ IH]; intros C Hv; [by apply elem_of_nil in Htx|]. destruct Hv as [[_ Hins] Hv].
  apply elem_of_cons in Htx as [-> |Htx]; [|by eapply IH]. apply Hins. unfold spends. rewrite Ht. apply list_elem_of_fmap. by exists txIn.
Qed.

End block.

Section run.
Context `{GlobalConf}.

Lemma connectTransactions_run D block v C : applies C block -> rep D (pending (b_Height block) (b_Transactions block)) v C ->
  (forall tx o, tx ∈ b_Transactions block -> o ∈ spends tx -> is_Some (D !! o) -> is_Some (entries v !! o)) ->
  exists v', connectTransactions block (Some []) v = (Ret (Some (txs_journal (b_Height block) (b_Transactions block) C)), v') /\
    rep D (fun _ => False) v' (apply_txs (b_Height block) (b_Transactions block) C) /\ bestHash v' = b_Hash block.
Proof.
  intros Hap Hrep Hcov. destruct (connect_loop_rep D (b_Height block) (b_Transactions block) (ap_different _ _ Hap) [] v C Hrep (ap_fresh _ _ Hap) (ap_valid _ _ Hap) Hcov) as (v1 & E1 & Hr1).
  exists (SetBestHash (b_Hash block) v1). unfold connectTransactions. rewrite (bind_Ret _ _ _ _ _ E1). split; [done|]. split; [|done]. by destruct Hr1.
Qed.

Lemma disconnectTransactions_run db D block v C : applies C block -> rep D (pending (b_Height block) (b_Transactions block)) v (apply_txs (b_Height block) (b_Transactions block) C) ->
  let stxos := txs_journal (b_Height block) (b_Transactions block) C in
  exists v', disconnectTransactions db block stxos v = (Ret stxos, v') /\ rep D (fun _ => False) v' C /\ bestHash v' = bh_PrevBlock (mb_Header (b_MsgBlock block)).
Proof.
  intros Hap Hrep stxos. destruct (ap_coinbase _ _ Hap) as (tx & txs & Etxs & Htx & Htxs).
  destruct (disconnect_loop_rep db D (b_Height block) (b_Transactions block) C) with (tail := @nil coin) (v := v) as (v1 & E1 & Hr1);
    [rewrite Etxs; done|apply Hap|apply Hap|apply Hap|done|]. rewrite app_nil_r in E1. fold stxos in E1.
  exists (SetBestHash (bh_PrevBlock (mb_Header (b_MsgBlock block))) v1). split; [|split; [by destruct Hr1|done]].
  assert (len stxos = count_inputs txs) as El.
  { unfold stxos. pose proof (ap_valid _ _ Hap) as Hv. rewrite Etxs in *. destruct Hv as [_ Hv]. cbn [txs_journal]. unfold spends at 1. rewrite Htx. cbn [omap list_omap app]. by apply txs_journal_len. }
  assert (countSpentOutputs block = Ret (count_inputs txs)) as Ec by (unfold countSpentOutputs; rewrite Etxs; rewrite (slice_from_app [tx] txs 1 eq_refl : slice_from (tx :: txs) 1 = Some txs); done).
  unfold disconnectTransactions. rewrite Ec, bind_lift_Ret, El, Z.eqb_refl. cbn [negb]. rewrite <- El. by rewrite (bind_Ret _ _ _ _ _ E1).
Qed.
End run.

(** C8: the set of unspent outputs.  Let the database hold the coins [D], and let the block
    apply to them: one coinbase, different transactions without unspent outputs of the same
    hash, inputs that spend unspent outputs, and created amounts that are storable, that
    is, come back from the compression of the database (as all below 2^64/9 do).  Then
    loading its inputs, connecting it and storing the view leave the database with exactly
    the coins of the reference ([D] without those the transactions spend and with those
    they create, in their order), and the journal written for the block is read back.  Loading, disconnecting and storing with that
    journal leave exactly [D] again.  No step fails or panics, and the view names the
    block and then the one before it. *)
Theorem utxo_set_history `{GlobalConf} db journal (D : coins) block :
  db_rep db D -> applies D block ->
  exists v1 v2 db1 stxos journal1,
    fetchInputUtxos db block NewUtxoViewpoint = (Ret (), v1) /\
    connectTransactions block (Some []) v1 = (Ret (Some stxos), v2) /\ bestHash v2 = b_Hash block /\
    dbPutUtxoView v2 db = Ret db1 /\ db_rep db1 (apply_txs (b_Height block) (b_Transactions block) D) /\
    dbPutSpendJournalEntry (b_Hash block) stxos journal = Ret journal1 /\ dbFetchSpendJournalEntry journal1 block = Ret stxos /\
    exists v3 v4 db2,
      fetchInputUtxos db1 block NewUtxoViewpoint = (Ret (), v3) /\
      disconnectTransactions db1 block stxos v3 = (Ret stxos, v4) /\ bestHash v4 = bh_PrevBlock (mb_Header (b_MsgBlock block)) /\
      dbPutUtxoView v4 db1 = Ret db2 /\ db_rep db2 D.
Proof.
  intros Hdb Hap. destruct (ap_coinbase _ _ Hap) as (tx & txs & Etxs & Htx & Htxs). pose proof (ap_valid _ _ Hap) as Hval. rewrite Etxs in Hval.
  pose proof (txs_valid_inputs _ _ _ (proj2 Hval) Htxs) as Hin. destruct (fetchInputUtxos_rep db D Hdb block tx txs NewUtxoViewpoint D Etxs Hin (rep_new D)) as (v1 & E1 & Hr1 & _ & Hcov1).
  rewrite <- Etxs in Hr1. destruct (connectTransactions_run D block v1 D Hap Hr1) as (v2 & E2 & Hr2 & Hb2).
  { intros t o Ht Ho [c Hc]. rewrite Etxs in Ht. unfold spends in Ho. destruct (IsCoinBase t) eqn:Ecb; [by apply elem_of_nil in Ho|].
    apply elem_of_cons in Ht as [-> |Ht]; [congruence|]. apply list_elem_of_fmap in Ho as (txIn & -> & Hi). destruct (Hcov1 t txIn Ht Hi) as [|Hh]; [done|].
    rewrite <- Etxs in Hh. rewrite (ap_fresh _ _ Hap _ Hh) in Hc. done. }
  set (stxos := txs_journal (b_Height block) (b_Transactions block) D) in *.
  pose proof (apply_txs_ok (b_Height block) (b_Transactions block) D (proj2 Hdb) (ap_outputs _ _ Hap)) as HC.
  destruct (dbPutUtxoView_rep db D v2 _ Hdb Hr2 HC) as (db1 & E3 & Hdb1).
  pose proof (txs_journal_ok (b_Height block) (b_Transactions block) D (proj2 Hdb) (ap_outputs _ _ Hap)) as Hj. fold stxos in Hj.
  destruct (fetchInputUtxos_rep db1 _ Hdb1 block tx txs NewUtxoViewpoint _ Etxs Hin (rep_new _)) as (v3 & E4 & Hr3 & _ & _). rewrite <- Etxs in Hr3.
  destruct (disconnectTransactions_run db1 _ block v3 D Hap Hr3) as (v4 & E5 & Hr4 & Hb4). fold stxos in E5.
  destruct (dbPutUtxoView_rep db1 _ v4 D Hdb1 Hr4 (proj2 Hdb)) as (db2 & E6 & Hdb2).
  exists v1, v2, db1, stxos, (<[b_Hash block := journal_code (rev stxos)]> journal). do 5 (split; [done|]).
  split; [unfold dbPutSpendJournalEntry; by rewrite serialize_journal_ok|]. split.
  - unfold dbFetchSpendJournalEntry. rewrite lookup_insert_eq, Etxs. simpl default. replace (slice_from (tx :: txs) 1) with (Some txs) by (symmetry; exact (slice_from_app [tx] txs 1 eq_refl)).
    cbn [or_panic mbind outcome_bind]. cbv zeta. rewrite deserialize_journal_ok; [done|done|]. symmetry. unfold stxos. rewrite Etxs. cbn [txs_journal]. unfold spends at 1. rewrite Htx.
    cbn [omap list_omap app]. apply txs_journal_len; [apply Hval|exact Htxs].
  - exists v3, v4, db2. done.
Qed.

(** * A block that spends an output *)

#[local] Transparent TxHash.

Definition demo_out : OutPoint := mkOutPoint (repeat Byte.x01 32) 0.
Definition demo_coins : coins := {[demo_out := mkStxo 5000 [Byte.x51] 1 false]}.
Definition demo_coinbase : MsgTx := mkMsgTx 1 [mkTxIn (mkOutPoint zeroHash MaxUint32) [] None 0] [mkTxOut 50 [Byte.x51]] 0 [].
Definition demo_spend : MsgTx := mkMsgTx 1 [mkTxIn demo_out [] None 0] [mkTxOut 4000 [Byte.x51]; mkTxOut 0 [Byte.x6a]] 0 [].
Definition demo_block : BtcBlock := mkBtcBlock (mkBlock (mkHeader 1 zeroHash zeroHash 0 0 0) None [demo_coinbase; demo_spend]) 7.

#[local] Instance demo_conf : GlobalConf := PktDefaults.

Lemma demo_stxo a h cb : 0 <= a < 10000 -> 0 <= h < 100 -> stxo_ok (mkStxo a [Byte.x51] h cb).
Proof.
  intros Ha Hh. unfold stxo_ok, output_ok, output_fits. cbn [st_Amount st_PkScript st_Height]. change (len [Byte.x51]) with 1.
  split; [|lia]. split; [lia|]. apply small_storable; lia.
Qed.

Lemma demo_db : exists db, db_rep db demo_coins.
Proof.
  assert (db_rep ∅ ∅) as H0.
  { split; [|intros o c Hc; by rewrite lookup_empty in Hc]. intros o [Hl Hi]. unfold dbFetchUtxoEntry. rewrite outpointKey_spec by done.
    cbn [no_error mbind outcome_bind]. by rewrite !lookup_empty. }
  assert (op_ok demo_out) as Ho by (split; [reflexivity|vm_compute; split; congruence]).
  destruct (dbPutUtxoView_rep ∅ ∅ (set_entry demo_out (Some (fresh_entry 5000 [Byte.x51] 1 false)) NewUtxoViewpoint) demo_coins H0) as (db & _ & Hdb); [| |by exists db].
  - unfold demo_coins. rewrite <- insert_empty. eapply (rep_fresh ∅ (fun _ => False)); [apply rep_new|done|done].
  - intros o c Hc. unfold demo_coins in Hc. apply lookup_singleton_Some in Hc as [<- <-]. split; [done|]. apply demo_stxo; lia.
Qed.

Lemma demo_applies : applies demo_coins demo_block.
Proof.
  split.
  - exists demo_coinbase, [demo_spend]. split; [reflexivity|]. split; [reflexivity|]. by repeat constructor.
  - apply (bool_decide_unpack _). vm_compute. exact I.
  - intros o Ho. unfold demo_coins. apply lookup_singleton_None. intros <-. revert Ho. apply (bool_decide_unpack (demo_out.(op_Hash) ∉ _)). vm_compute. exact I.
  - cbn [demo_block b_Transactions b_MsgBlock mb_Transactions b_Height txs_valid]. split; [|split; [|exact I]].
    + split; [constructor|]. intros o Ho. by apply elem_of_nil in Ho.
    + split; [apply (bool_decide_unpack _); vm_compute; exact I|]. intros o ->%list_elem_of_singleton. split; [split; [reflexivity|vm_compute; split; congruence]|].
      exists (mkStxo 5000 [Byte.x51] 1 false). split; [vm_compute; reflexivity|done].
  - cbn [demo_block b_Transactions b_MsgBlock mb_Transactions b_Height].
    do 2 (apply List.Forall_cons; [apply created_stxo_ok; [lia|repeat (apply List.Forall_cons || apply List.Forall_nil); vm_compute; intuition congruence]|]). apply List.Forall_nil.
Qed.

Lemma utxo_set_history_witness : exists db v1 v2 db1 stxos,
  db_rep db demo_coins /\ connectTransactions demo_block (Some []) v1 = (Ret (Some stxos), v2) /\ dbPutUtxoView v2 db = Ret db1 /\
  db_rep db1 (apply_txs 7 [demo_coinbase; demo_spend] demo_coins).
Proof.
  destruct demo_db as [db Hdb]. destruct (utxo_set_history db ∅ demo_coins demo_block Hdb demo_applies) as (v1 & v2 & db1 & stxos & _ & _ & E & _ & Ep & Hdb1 & _).
  exists db, v1, v2, db1, stxos. split; [exact Hdb|]. split; [exact E|]. split; [exact Ep|exact Hdb1].
Defined.
