(* ===== verification/Election.v ===== *)
(** The election of the network steward (src/blockchain/election.go): every unspent output
    may vote with its amount for a steward and against one; the steward is replaced when
    more than half of the money is against it. *)

From stdpp Require Import gmap.
From S2P Require Import Prelude Params Opcode Sha Wire MsgTx SigHash ScriptUtil ChainParams Block MoneySupply Compress RuleErr TxRules ChainIO UtxoView.

Record ElectionState : Type := mkElection { es_NetworkSteward : bytes; es_Disapproval : Z }.

#[global] Instance ElectionState_eq_dec : EqDecision ElectionState.
Proof. solve_decision. Defined.

(** The election state of a block in the database; the disapproval is signed. *)
Definition serializeElectionState (state : ElectionState) : bytes :=
  le_split 8 (uint64 (es_Disapproval state)) ++ es_NetworkSteward state.

Definition deserializeElectionState (serialized : bytes) : outcome ruleerr ElectionState :=
  if len serialized <? 8 then mthrow (DbError ErrCorruption) else
  d ← or_panic (slice serialized 0 8);
  steward ← or_panic (slice_from serialized 8);
  mret (mkElection steward (int64 (le_combine d))).

(** * Ballots *)

(** The votes of a script; the code of txscript never fails here. *)
Definition votes (pkScript : bytes) : outcome ruleerr (option bytes * option bytes) :=
  match ElectionGetVotesForAgainst pkScript with Ret v => Ret v | Throw _ => Throw OtherError | Panic => Panic end.

Definition electionIsVoteAgainst (pkScript networkSteward : bytes) : outcome ruleerr bool :=
  '(_, va) ← votes pkScript;
  mret (match va with Some va => bytes_eqb va networkSteward | None => false end).

Record electionCandidate : Type := mkCandidate { approval : Z; disapproval : Z; cand_key : bytes }.

(** The map is keyed by arrays of 80 bytes. *)
Abbreviation election := (gmap bytes electionCandidate).

(** [var arr [80]byte; copy(arr[:], key)]. *)
Definition array80 (key : bytes) : bytes := take 80 (key ++ repeat Byte.x00 80).

Definition candidate (elect : election) (key : bytes) : electionCandidate :=
  match elect !! array80 key with Some x => x | None => mkCandidate 0 0 key end.

Definition castBallot (pkScript : bytes) (value : Z) (elect : election) : outcome ruleerr election :=
  '(vfor, vagainst) ← votes pkScript;
  let elect := match vfor with
               | Some key => let x := candidate elect key in <[array80 key := mkCandidate (int64 (approval x + value)) (disapproval x) (cand_key x)]> elect
               | None => elect
               end in
  let elect := match vagainst with
               | Some key => let x := candidate elect key in <[array80 key := mkCandidate (approval x) (int64 (disapproval x + value)) (cand_key x)]> elect
               | None => elect
               end in
  mret elect.

(** * The tally *)

(** The running disapproval, over the entries of the view. *)
Fixpoint disapproval_loop (entries : list (option UtxoEntry)) (networkSteward : bytes) (d : Z) : outcome ruleerr Z :=
  match entries with
  | [] => mret d
  | None :: entries' => disapproval_loop entries' networkSteward d
  | Some e :: entries' =>
    if negb (isModified e) then disapproval_loop entries' networkSteward d else
    against ← electionIsVoteAgainst (ue_pkScript e) networkSteward;
    disapproval_loop entries' networkSteward
      (if against : bool then (if IsSpent e then int64 (d - ue_amount e) else int64 (d + ue_amount e)) else d)
  end.

Fixpoint db_ballots `{GlobalConf} (values : list bytes) (elect : election) : outcome ruleerr election :=
  match values with
  | [] => mret elect
  | utxoBytes :: values' =>
    utxo ← raw_err (deserializeUtxoEntry utxoBytes);
    elect ← castBallot (ue_pkScript utxo) (ue_amount utxo) elect;
    db_ballots values' elect
  end.

Fixpoint view_ballots (entries : list (option UtxoEntry)) (elect : election) : outcome ruleerr election :=
  match entries with
  | [] => mret elect
  | None :: entries' => view_ballots entries' elect
  | Some e :: entries' =>
    if negb (isModified e) then view_ballots entries' elect else
    elect ← castBallot (ue_pkScript e) (if IsSpent e then int64 (- ue_amount e) else ue_amount e) elect;
    view_ballots entries' elect
  end.

(** The winner, its approval and its disapproval so far. *)
Definition count_candidate (best : bytes * Z * Z) (cand : electionCandidate) : bytes * Z * Z :=
  let '(winner, appr, disappr) := best in
  if appr <? approval cand then (cand_key cand, approval cand, disapproval cand) else (winner, appr, disappr).

(** The order in which Go visits the candidates is a parameter. *)
Definition electionProcessBlock `{GlobalConf} (range : election -> list electionCandidate) (tipState : ElectionState)
    (utxoBucket : Bucket) (view : UtxoViewpoint) (blockHeight : Z) : outcome ruleerr ElectionState :=
  let viewEntries := (map_to_list (entries view)).*2 in
  d ← disapproval_loop viewEntries (es_NetworkSteward tipState) (es_Disapproval tipState);
  if (0 <? len (es_NetworkSteward tipState)) && (d <=? Z.quot (PktCalcTotalMoney blockHeight) 2)
  then mret (mkElection (es_NetworkSteward tipState) d)
  else
    elect ← db_ballots (map_to_list utxoBucket).*2 ∅;
    elect ← view_ballots viewEntries elect;
    let '(winner, _, d) := foldl count_candidate (es_NetworkSteward tipState, 0, d) (range elect) in
    mret (mkElection winner d).
