(* ===== verification/ElectionProps.v ===== *)
(** Correctness of the election: the running tally of the votes against the steward
    follows the amount that is against it in the set of unspent outputs, but for outputs
    that a block creates and spends, and a full election is won by a candidate with the
    highest approval. *)

From stdpp Require Import gmap.
From S2P Require Import Prelude Params Opcode Sha Wire MsgTx SigHash ScriptUtil ChainParams Block MoneySupply Compress CompressProps RuleErr TxRules ChainIO ChainIOProps MapSum UtxoView UtxoProps UtxoSet Election.

(** * Ballots *)

Definition ballot (s : bytes) : option bytes * option bytes := match ElectionGetVotesForAgainst s with Ret v => v | _ => (None, None) end.

Lemma votes_ballot s : votes s = Ret (ballot s) /\ forall v, (ballot s).1 = Some v \/ (ballot s).2 = Some v -> 1 <= len v <= 79.
Proof. destruct (ElectionGetVotes_spec s) as (f & a & E & _ & Hb). unfold votes, ballot. rewrite E. done. Qed.

Lemma int64_add x y : int64 (int64 x + y) = int64 (x + y).
Proof.
  unfold swrap. f_equal. replace ((x + 2 ^ (64 - 1)) mod 2 ^ 64 - 2 ^ (64 - 1) + y + 2 ^ (64 - 1)) with ((x + 2 ^ (64 - 1)) mod 2 ^ 64 + y) by lia.
  rewrite Z.add_mod_idemp_l by lia. f_equal. lia.
Qed.

Lemma int64_idem x : int64 (int64 x) = int64 x.
Proof. pose proof (int64_add x 0) as E. by rewrite !Z.add_0_r in E. Qed.

(** * The running tally *)

Definition against (steward : bytes) (s : bytes) (a : Z) : Z :=
  match (ballot s).2 with Some v => if bytes_eqb v steward then a else 0 | None => 0 end.

Definition coin_against (steward : bytes) (c : coin) : Z := against steward (st_PkScript c) (st_Amount c).

(** What an entry of the view adds. *)
Definition entry_delta (steward : bytes) (x : option UtxoEntry) : Z :=
  match x with
  | Some e => if isModified e then (if IsSpent e then - against steward (ue_pkScript e) (ue_amount e) else against steward (ue_pkScript e) (ue_amount e)) else 0
  | None => 0
  end.

Lemma disapproval_loop_spec l steward d : disapproval_loop l steward (int64 d) = Ret (int64 (d + foldr (fun x acc => entry_delta steward x + acc) 0 l)).
Proof.
  revert d. induction l as [|[e|] l IH]; intros d; cbn [disapproval_loop foldr entry_delta]; [by rewrite Z.add_0_r| |by rewrite IH].
  destruct (isModified e); cbn [negb]; [|by rewrite IH]. unfold electionIsVoteAgainst. rewrite (proj1 (votes_ballot _)). unfold against.
  destruct (ballot (ue_pkScript e)) as [f [v|]]; cbn [mbind outcome_bind mret outcome_ret snd].
  - destruct (bytes_eqb v steward).
    + destruct (IsSpent e); [rewrite <- Z.add_opp_r|]; rewrite int64_add, IH; do 2 f_equal; lia.
    + rewrite IH. do 2 f_equal. destruct (IsSpent e); lia.
  - rewrite IH. do 2 f_equal. destruct (IsSpent e); lia.
Qed.

(** Sets of outputs as the code has them: the outpoints are well formed and no amount is
    negative. *)
Definition coins_fit (C : coins) : Prop := forall o c, C !! o = Some c -> op_ok o /\ 0 <= st_Amount c.

Definition sum_of {A} (f : A -> Z) (l : list A) : Z := foldr (fun x acc => f x + acc) 0 l.

Lemma sum_of_app {A} (f : A -> Z) l l' : sum_of f (l ++ l') = sum_of f l + sum_of f l'.
Proof. unfold sum_of. induction l as [|x l IH]; cbn [app foldr]; lia. Qed.

(** By how much the tally misses the change of the set of unspent outputs at an output:
    the code takes off what is spent even if it was never added, and it adds what is
    unspent even if it was added before. *)
Definition entry_miscount (steward : bytes) (D : coins) (p : OutPoint * option UtxoEntry) : Z :=
  match p.2 with
  | Some e => if isModified e then weight (coin_against steward) (D !! p.1) - (if IsSpent e then against steward (ue_pkScript e) (ue_amount e) else 0) else 0
  | None => 0
  end.

Definition miscount (steward : bytes) (D : coins) (v : UtxoViewpoint) : Z := sum_of (entry_miscount steward D) (map_to_list (entries v)).

(** The amount against the steward in outputs that are new and spent in the view. *)
Definition entry_transient (steward : bytes) (D : coins) (p : OutPoint * option UtxoEntry) : Z :=
  match p.2, D !! p.1 with
  | Some e, None => if isModified e && IsSpent e then against steward (ue_pkScript e) (ue_amount e) else 0
  | _, _ => 0
  end.

Definition transient_against (steward : bytes) (D : coins) (v : UtxoViewpoint) : Z := sum_of (entry_transient steward D) (map_to_list (entries v)).

(** What the view changes of the outputs in [D] is that it spends them. *)
Definition spends_only (D : coins) (v : UtxoViewpoint) : Prop :=
  forall o e c, entries v !! o = Some (Some e) -> isModified e = true -> D !! o = Some c -> IsSpent e = true /\ c = stxo_of e.

Lemma miscount_transient steward D v : spends_only D v -> miscount steward D v = - transient_against steward D v.
Proof.
  intros Hv. unfold miscount, transient_against. assert (forall p, p ∈ map_to_list (entries v) -> entries v !! p.1 = Some p.2) as Hl
    by (intros [o x] Hp; by apply elem_of_map_to_list in Hp).
  induction (map_to_list (entries v)) as [|[o x] l IH]; [done|]. unfold sum_of in *. cbn [foldr]. rewrite IH by (intros p Hp; apply Hl, elem_of_cons; by right).
  pose proof (Hl (o, x) ltac:(apply elem_of_cons; by left)) as Hx. cbn [fst snd] in Hx. unfold entry_miscount, entry_transient. cbn [fst snd].
  destruct x as [e|]; [|lia]. specialize (Hv o e). destruct (isModified e); [|destruct (D !! o); cbn; lia]. destruct (D !! o) as [c|]; cbn [andb weight].
  - destruct (Hv c Hx eq_refl eq_refl) as [-> ->]. unfold coin_against, stxo_of. cbn. lia.
  - destruct (IsSpent e); lia.
Qed.

Lemma foldr_delta steward D C v (l : list (OutPoint * option UtxoEntry)) : rep D (fun _ => False) v C ->
  (forall p, p ∈ l -> entries v !! p.1 = Some p.2) ->
  foldr (fun x acc => entry_delta steward x + acc) 0 l.*2 =
  foldr (fun k acc => weight (coin_against steward) (C !! k) - weight (coin_against steward) (D !! k) + acc) 0 l.*1 + sum_of (entry_miscount steward D) l.
Proof.
  intros Hrep. unfold sum_of. induction l as [|[o x] l IH]; intros Hl; [done|]. cbn [fmap list_fmap foldr fst snd].
  rewrite IH by (intros p Hp; apply Hl, elem_of_cons; by right).
  pose proof (Hl (o, x) ltac:(apply elem_of_cons; by left)) as Hx. cbn [fst snd] in Hx.
  pose proof (rep_at _ _ _ _ Hrep o (rep_keys _ _ _ _ Hrep o x Hx)) as Ha. rewrite Hx in Ha. unfold entry_miscount. cbn [fst snd].
  destruct x as [e|]; cbn [at_ok entry_delta] in *; [|destruct Ha as [-> ->]; [lia|intros []]]. destruct Ha as [Hm Hc]. rewrite Hc by (intros []).
  destruct (isModified e) eqn:Em; [|rewrite Hm by done; lia]. unfold coin_of. destruct (IsSpent e); cbn [weight]; [lia|]. change (coin_against steward (stxo_of e)) with (against steward (ue_pkScript e) (ue_amount e)). lia.
Qed.

(** The tally follows the set of unspent outputs, but for the outputs it miscounts. *)
Lemma tally_coins steward D C v d : rep D (fun _ => False) v C -> coins_fit C -> coins_fit D ->
  disapproval_loop (map_to_list (entries v)).*2 steward (int64 d) =
    Ret (int64 (d + (total (coin_against steward) C - total (coin_against steward) D) + miscount steward D v)).
Proof.
  intros Hrep HC HD. rewrite disapproval_loop_spec, (foldr_delta _ D C v) by (done || intros [o x] Hp; by apply elem_of_map_to_list in Hp).
  rewrite (total_diff (coin_against steward) (map_to_list (entries v)).*1 D C); [unfold miscount; do 2 f_equal; lia| |].
  - apply NoDup_fst_map_to_list.
  - intros o Ho. assert (entries v !! o = None) as En.
    { destruct (entries v !! o) as [x|] eqn:E; [|done]. exfalso. apply Ho. apply list_elem_of_fmap. exists (o, x). split; [done|]. by apply elem_of_map_to_list. }
    destruct (C !! o) as [c|] eqn:EC.
    + pose proof (rep_at _ _ _ _ Hrep o (proj1 (HC o c EC))) as Ha. rewrite En, EC in Ha. apply Ha. intros [].
    + destruct (D !! o) as [c|] eqn:ED; [|done]. pose proof (rep_at _ _ _ _ Hrep o (proj1 (HD o c ED))) as Ha. rewrite En, EC, ED in Ha. apply Ha. intros [].
Qed.

(** * A full election *)

(** The amounts for and against a key, in a list of ballots. *)
Definition for_key (k : bytes) (b : bytes * Z) : Z := match (ballot b.1).1 with Some v => if decide (array80 v = k) then b.2 else 0 | None => 0 end.
Definition against_key (k : bytes) (b : bytes * Z) : Z := match (ballot b.1).2 with Some v => if decide (array80 v = k) then b.2 else 0 | None => 0 end.

(** The map holds the sums [f] and [g], up to the wrap-around of the counters. *)
Definition holds (elect : election) (f g : bytes -> Z) : Prop :=
  forall k, match elect !! k with
            | Some x => approval x = int64 (f k) /\ disapproval x = int64 (g k) /\ array80 (cand_key x) = k
            | None => f k = 0 /\ g k = 0
            end.

Lemma candidate_holds elect f g key : holds elect f g ->
  approval (candidate elect key) = int64 (f (array80 key)) /\ disapproval (candidate elect key) = int64 (g (array80 key)) /\ array80 (cand_key (candidate elect key)) = array80 key.
Proof. intros Hh. specialize (Hh (array80 key)). unfold candidate. destruct (elect !! array80 key) as [x|]; [done|]. destruct Hh as [-> ->]. done. Qed.

Lemma castBallot_holds elect f g s a : holds elect f g -> exists elect', castBallot s a elect = Ret elect' /\
  holds elect' (fun k => f k + for_key k (s, a)) (fun k => g k + against_key k (s, a)).
Proof.
  intros Hh. unfold castBallot. rewrite (proj1 (votes_ballot s)). unfold for_key, against_key. cbn [fst snd]. destruct (ballot s) as [vf va]. cbn [mbind outcome_bind fst snd].
  set (e1 := match vf with Some _ => _ | None => elect end).
  assert (holds e1 (fun k => f k + match vf with Some v => if decide (array80 v = k) then a else 0 | None => 0 end) g) as H1.
  { unfold e1. destruct vf as [key|]; [|intros k; specialize (Hh k); rewrite Z.add_0_r; done]. intros k. destruct (candidate_holds elect f g key Hh) as (Ea & Ed & Ek).
    destruct (decide (array80 key = k)) as [<-|Hne].
    - rewrite lookup_insert_eq. cbn [approval disapproval cand_key]. rewrite Ea, int64_add. done.
    - rewrite lookup_insert_ne by done. specialize (Hh k). rewrite Z.add_0_r. done. }
  eexists. split; [reflexivity|]. destruct va as [key|]; [|intros k; specialize (H1 k); rewrite Z.add_0_r; done]. intros k. destruct (candidate_holds e1 _ g key H1) as (Ea & Ed & Ek).
  destruct (decide (array80 key = k)) as [<-|Hne].
  - rewrite lookup_insert_eq. cbn [approval disapproval cand_key]. rewrite Ed, int64_add. done.
  - rewrite lookup_insert_ne by done. specialize (H1 k). rewrite Z.add_0_r. done.
Qed.

Definition db_ballot (e : UtxoEntry) : bytes * Z := (ue_pkScript e, ue_amount e).
Definition view_ballot (x : option UtxoEntry) : list (bytes * Z) :=
  match x with Some e => if isModified e then [(ue_pkScript e, if IsSpent e then int64 (- ue_amount e) else ue_amount e)] else [] | None => [] end.

Lemma holds_ext elect f g f' g' : (forall k, f k = f' k) -> (forall k, g k = g' k) -> holds elect f g -> holds elect f' g'.
Proof. intros Hf Hg Hh k. specialize (Hh k). by rewrite <- Hf, <- Hg. Qed.

Lemma db_ballots_holds `{GlobalConf} values es : Forall2 (fun b e => deserializeUtxoEntry b = Ret e) values es -> forall elect f g, holds elect f g ->
  exists elect', db_ballots values elect = Ret elect' /\
    holds elect' (fun k => f k + sum_of (for_key k) (map db_ballot es)) (fun k => g k + sum_of (against_key k) (map db_ballot es)).
Proof.
  induction 1 as [|b e values es Hb _ IH]; intros elect f g Hh.
  { exists elect. split; [done|]. eapply holds_ext; [| |exact Hh]; intros k; cbn; lia. }
  cbn [db_ballots]. rewrite Hb. cbn [raw_err mbind outcome_bind]. destruct (castBallot_holds elect f g (ue_pkScript e) (ue_amount e) Hh) as (e1 & E1 & H1). rewrite E1.
  destruct (IH e1 _ _ H1) as (e2 & E2 & H2). exists e2. split; [exact E2|]. eapply holds_ext; [| |exact H2]; intros k; unfold sum_of; cbn [map foldr]; change (ue_pkScript e, ue_amount e) with (db_ballot e); lia.
Qed.

Lemma view_ballots_holds l : forall elect f g, holds elect f g -> exists elect', view_ballots l elect = Ret elect' /\
  holds elect' (fun k => f k + sum_of (for_key k) (concat (map view_ballot l))) (fun k => g k + sum_of (against_key k) (concat (map view_ballot l))).
Proof.
  induction l as [|x l IH]; intros elect f g Hh.
  { exists elect. split; [done|]. eapply holds_ext; [| |exact Hh]; intros k; cbn; lia. }
  cbn [map concat]. destruct x as [e|]; cbn [view_ballots view_ballot app]; [|by apply IH]. destruct (isModified e); cbn [negb app]; [|by apply IH].
  set (a := if IsSpent e then _ else _). destruct (castBallot_holds elect f g (ue_pkScript e) a Hh) as (e1 & E1 & H1). rewrite E1. cbn [mbind outcome_bind].
  destruct (IH e1 _ _ H1) as (e2 & E2 & H2). exists e2. split; [exact E2|]. eapply holds_ext; [| |exact H2]; intros k; cbn [sum_of foldr]; unfold sum_of; lia.
Qed.

Lemma count_candidates l : forall w a d, let '(w', a', d') := foldl count_candidate (w, a, d) l in
  a <= a' /\ Forall (fun c => approval c <= a') l /\
  ((w', a', d') = (w, a, d) \/ exists c, c ∈ l /\ a < approval c /\ (w', a', d') = (cand_key c, approval c, disapproval c)).
Proof.
  induction l as [|c l IH]; intros w a d; cbn [foldl]; [split; [lia|]; split; [constructor|by left]|]. unfold count_candidate at 2.
  destruct (Z.ltb_spec a (approval c)) as [Hlt|Hge].
  - specialize (IH (cand_key c) (approval c) (disapproval c)). destruct (foldl count_candidate _ l) as [[w' a'] d']. destruct IH as (Hle & Hall & Hcase).
    split; [lia|]. split; [by constructor|]. right. destruct Hcase as [E|(c' & Hin & Hlt' & E)].
    + exists c. rewrite E. split; [apply elem_of_cons; by left|done].
    + exists c'. split; [apply elem_of_cons; by right|]. split; [lia|done].
  - specialize (IH w a d). destruct (foldl count_candidate _ l) as [[w' a'] d']. destruct IH as (Hle & Hall & Hcase).
    split; [lia|]. split; [constructor; [lia|done]|]. destruct Hcase as [E|(c' & Hin & Hlt' & E)]; [by left|right]. exists c'. split; [apply elem_of_cons; by right|done].
Qed.

Lemma against_range steward C : coins_fit C -> total st_Amount C < 2 ^ 63 -> 0 <= total (coin_against steward) C < 2 ^ 63.
Proof.
  intros HC Ht. assert (forall o c, C !! o = Some c -> 0 <= coin_against steward c <= st_Amount c) as Hc.
  { intros o c Ho. destruct (HC o c Ho) as [_ Ha]. unfold coin_against, against. destruct (ballot _) as [? [v|]]; cbn [snd]; [destruct (bytes_eqb v steward)|]; lia. }
  split; [apply total_nonneg; intros o c Ho; by apply (Hc o)|]. eapply Z.le_lt_trans; [|exact Ht]. apply total_mono. intros o c Ho. by apply (Hc o).
Qed.

(** C14: The election of the network steward.  Let [D] be the unspent outputs before the
    block and [C] those after it, their amounts not negative, and let the entries of the
    database be readable.  The tally after
    the block is the old one plus the change of the amount against the steward, up to
    what the code miscounts; if the block only spends outputs of [D] and creates new ones,
    it is too low by exactly the amount against the steward in outputs that the block
    both creates and spends, so with no such outputs an exact tally stays exact.  The
    steward stays while the tally is not more than half of the money; otherwise, counting
    the ballots of the database and of the view, either no candidate has any approval and
    the steward stays with its tally, or the new steward is a candidate with the highest
    approval, and the new tally is the amount against it.  The code never fails. *)
Theorem election_result `{GlobalConf} range tipState db us (D C : coins) v height :
  (forall elect, range elect ≡ₚ (map_to_list elect).*2) -> Forall2 (fun b e => deserializeUtxoEntry b = Ret e) (map_to_list db).*2 us ->
  rep D (fun _ => False) v C -> coins_fit C -> coins_fit D -> -2 ^ 63 <= es_Disapproval tipState < 2 ^ 63 ->
  let steward := es_NetworkSteward tipState in
  let tally := int64 (es_Disapproval tipState + (total (coin_against steward) C - total (coin_against steward) D) + miscount steward D v) in
  let ballots := map db_ballot us ++ concat (map view_ballot (map_to_list (entries v)).*2) in
  let approval_of k := int64 (sum_of (for_key k) ballots) in
  (spends_only D v -> miscount steward D v = - transient_against steward D v) /\
  (es_Disapproval tipState = total (coin_against steward) D -> miscount steward D v = 0 -> total st_Amount C < 2 ^ 63 -> tally = total (coin_against steward) C) /\
  exists es, electionProcessBlock range tipState db v height = Ret es /\
    if (0 <? len steward) && (tally <=? Z.quot (PktCalcTotalMoney height) 2)
    then es = mkElection steward tally
    else (forall k, approval_of k <= 0) /\ es = mkElection steward tally \/
         let winner := array80 (es_NetworkSteward es) in
         0 < approval_of winner /\ (forall k, approval_of k <= approval_of winner) /\ es_Disapproval es = int64 (sum_of (against_key winner) ballots).
Proof.
  intros Hrange Hus Hrep HC HD Hd st tally ballots approval_of. split; [apply miscount_transient|]. split.
  { intros Ed E0 HtC. pose proof (against_range st C HC HtC). unfold tally. rewrite Ed, E0, int64_small by lia. lia. }
  unfold electionProcessBlock. fold st. pose proof (tally_coins st D C v (es_Disapproval tipState) Hrep HC HD) as Ht. fold tally in Ht.
  rewrite (int64_small (es_Disapproval tipState)) in Ht by lia. rewrite Ht. cbn [mbind outcome_bind].
  destruct ((0 <? len st) && _); [by eexists|].
  destruct (db_ballots_holds _ us Hus ∅ (fun _ => 0) (fun _ => 0)) as (e1 & E1 & H1); [intros k; by rewrite lookup_empty|]. rewrite E1. cbn [mbind outcome_bind].
  destruct (view_ballots_holds (map_to_list (entries v)).*2 e1 _ _ H1) as (e2 & E2 & H2). rewrite E2. cbn [mbind outcome_bind].
  assert (holds e2 (fun k => sum_of (for_key k) ballots) (fun k => sum_of (against_key k) ballots)) as Hh.
  { eapply holds_ext; [| |exact H2]; intros k; unfold ballots; rewrite sum_of_app; lia. }
  pose proof (count_candidates (range e2) st 0 tally) as Hcount. destruct (foldl count_candidate (st, 0, tally) (range e2)) as [[w a] d]. destruct Hcount as (Ha & Hall & Hcase).
  exists (mkElection w d). split; [done|]. cbn [es_NetworkSteward es_Disapproval].
  assert (forall k, approval_of k <= a) as Hmax.
  { intros k. specialize (Hh k). unfold approval_of. destruct (e2 !! k) as [x|] eqn:Ek; [|destruct Hh as [-> _]; exact Ha]. destruct Hh as [<- _].
    rewrite Forall_forall in Hall. apply Hall, list_elem_of_In. rewrite Hrange. apply list_elem_of_fmap. exists (k, x). split; [done|]. by apply elem_of_map_to_list. }
  destruct Hcase as [E|(c & Hin & Hlt & E)]; injection E as -> -> ->; [by left|right].
  rewrite Hrange in Hin. apply list_elem_of_fmap in Hin as ([k c'] & -> & Hin). apply elem_of_map_to_list in Hin. cbn [snd] in *.
  specialize (Hh k). rewrite Hin in Hh. destruct Hh as (Ea & Ed & <-). unfold approval_of in *. rewrite <- Ea, <- Ed. done.
Qed.

(** * Examples *)

#[local] Instance demo_conf : GlobalConf := PktDefaults.

(** A vote for the steward [170] and against nobody. *)
Definition demo_vote : bytes := [Byte.x01; Byte.xaa; Byte.x00; OP_VOTE].
Definition demo_range (elect : election) : list electionCandidate := (map_to_list elect).*2.
Definition demo_view : UtxoViewpoint := set_entry demo_out (Some (fresh_entry 1000 demo_vote 5 false)) NewUtxoViewpoint.

Lemma demo_view_rep : rep ∅ (fun _ => False) demo_view {[demo_out := mkStxo 1000 demo_vote 5 false]}.
Proof. rewrite <- insert_empty. apply (rep_fresh ∅ (fun _ => False)); [apply rep_new|split; [reflexivity|vm_compute; split; congruence]|done]. Qed.

Lemma election_result_witness : exists es, electionProcessBlock demo_range (mkElection [] 0) ∅ demo_view 100 = Ret es /\ es_NetworkSteward es = [Byte.xaa].
Proof.
  destruct (election_result demo_range (mkElection [] 0) ∅ [] ∅ {[demo_out := mkStxo 1000 demo_vote 5 false]} demo_view 100) as (_ & _ & es & E & _).
  - reflexivity.
  - constructor.
  - exact demo_view_rep.
  - intros o c Ho. apply lookup_singleton_Some in Ho as [<- <-]. split; [split; [reflexivity|vm_compute; split; congruence]|]. vm_compute. intuition congruence.
  - intros o c Ho. by rewrite lookup_empty in Ho.
  - vm_compute. split; congruence.
  - exists es. split; [exact E|]. vm_compute in E. injection E as <-. reflexivity.
Defined.

(** A vote against the steward in an output that a block creates and spends is taken off
    the tally although it was never added to it. *)
Lemma transient_vote_subtracted :
  let e := Spend (fresh_entry 1000 [Byte.x00; Byte.x01; Byte.xaa; OP_VOTE] 5 false) in
  let view := set_entry demo_out (Some e) NewUtxoViewpoint in
  electionProcessBlock demo_range (mkElection [Byte.xaa] 0) ∅ view 100 = Ret (mkElection [Byte.xaa] (-1000)) /\ rep ∅ (fun _ => False) view ∅.
Proof.
  split; [vm_compute; reflexivity|]. eapply (rep_set ∅ (fun _ => False) _ _ ∅); [apply rep_new|split; [reflexivity|vm_compute; split; congruence]|done|done|done|done].
Qed.

(** Between candidates with the same approval the order of the map decides. *)
Lemma election_tie :
  let o := mkOutPoint (repeat Byte.x01 32) 1 in
  let view := set_entry o (Some (fresh_entry 1000 [Byte.x01; Byte.xbb; Byte.x00; OP_VOTE] 5 false)) demo_view in
  electionProcessBlock demo_range (mkElection [] 0) ∅ view 100 <> electionProcessBlock (fun e => rev (demo_range e)) (mkElection [] 0) ∅ view 100.
Proof. vm_compute. congruence. Qed.

(** Keys that differ in trailing zeros are one candidate. *)
Lemma array80_padding key : len key < 80 -> array80 (key ++ [Byte.x00]) = array80 key.
Proof.
  intros Hl. unfold array80. apply list_eq. intros i. destruct (decide (i < 80)%nat) as [Hi|Hi]; [|by rewrite !lookup_take_ge by lia].
  rewrite !lookup_take_lt by done. change (repeat Byte.x00 80) with (replicate 80 Byte.x00). unfold len in Hl.
  destruct (decide (i < length key)%nat) as [Hk|Hk].
  - rewrite <- app_assoc, !lookup_app_l by lia. done.
  - rewrite <- app_assoc. rewrite (lookup_app_r key ([Byte.x00] ++ _)), (lookup_app_r key (replicate 80 _)) by lia. change ([Byte.x00] ++ replicate 80 Byte.x00) with (replicate 81 Byte.x00). transitivity (Some Byte.x00); [|symmetry]; apply lookup_replicate_2; lia.
Qed.

(** The stored election state is read back. *)
Lemma election_state_roundtrip es : -2 ^ 63 <= es_Disapproval es < 2 ^ 63 -> deserializeElectionState (serializeElectionState es) = Ret es.
Proof.
  intros Hd. unfold deserializeElectionState, serializeElectionState. assert (len (le_split 8 (uint64 (es_Disapproval es))) = 8) as El by apply len_le_split.
  rewrite (proj2 (Z.ltb_ge _ 8)) by (rewrite len_app, El; pose proof (len_nonneg (es_NetworkSteward es)); lia).
  pose proof (slice_seam [] (le_split 8 (uint64 (es_Disapproval es))) (es_NetworkSteward es) 0 8 eq_refl ltac:(by rewrite El)) as Es. cbn [app] in Es. rewrite Es. cbn [or_panic mbind outcome_bind].
  rewrite (slice_from_app _ _ 8 (eq_sym El)). cbn [or_panic mbind outcome_bind]. rewrite le_combine_split. destruct es as [s d]. cbn [es_NetworkSteward es_Disapproval mret outcome_ret] in *.
  do 2 f_equal. unfold uwrap, swrap in *. rewrite Z.mod_mod by lia. rewrite Z.add_mod_idemp_l by lia. rewrite Z.mod_small by lia. lia.
Qed.
