(* ===== verification/Validate.v ===== *)
(** The rules for blocks that do not need the chain (src/blockchain/validate.go), the
    weights and the cost of signature operations (src/blockchain/weight.go), and the rules
    for the inputs of a transaction. *)

From stdpp Require Import gmap.
From S2P Require Import Prelude TxScriptErr Params Opcode Sha Wire MsgTx SigHash ScriptUtil ChainParams Block MoneySupply Compress RuleErr TxRules Merkle Difficulty BlockIndex ChainIO UtxoView.

(** [BehaviorFlags]. *)
Definition BFFastAdd : Z := 1.
Definition BFNoPoWCheck : Z := 2.
Definition BFNone : Z := 0.

(** * Weights *)

Section weights.
Context `{GlobalConf}.

Definition GetBlockWeight (msgBlock : MsgBlock) : Z :=
  let baseSize := MsgBlock_SerializeSizeStripped msgBlock in
  let totalSize := MsgBlock_SerializeSize msgBlock in
  int64 (baseSize * (WitnessScaleFactor - 1) + totalSize).

Definition GetTransactionWeight (msgTx : MsgTx) : Z :=
  let baseSize := SerializeSizeStripped msgTx in
  let totalSize := SerializeSize msgTx in
  int64 (baseSize * (WitnessScaleFactor - 1) + totalSize).
End weights.

(** * Signature operations *)

(** [utxo == nil || utxo.IsSpent()]. *)
Definition available (view : UtxoViewpoint) (outpoint : OutPoint) : option UtxoEntry :=
  match LookupEntry view outpoint with
  | Some utxo => if IsSpent utxo then None else Some utxo
  | None => None
  end.

Fixpoint p2sh_loop (ins : list TxIn) (utxoView : UtxoViewpoint) (totalSigOps : Z) : outcome ruleerr Z :=
  match ins with
  | [] => mret totalSigOps
  | txIn :: ins' =>
    match available utxoView (ti_PreviousOutPoint txIn) with
    | None => mthrow ErrMissingTxOut
    | Some utxo =>
      let pkScript := ue_pkScript utxo in
      if negb (IsPayToScriptHash pkScript) then p2sh_loop ins' utxoView totalSigOps else
      let numSigOps := GetPreciseSigOpCount (ti_SignatureScript txIn) pkScript true in
      let lastSigOps := totalSigOps in
      let totalSigOps := int64 (totalSigOps + numSigOps) in
      if totalSigOps <? lastSigOps then mthrow ErrTooManySigOps else p2sh_loop ins' utxoView totalSigOps
    end
  end.

Definition CountP2SHSigOps (tx : MsgTx) (isCoinBaseTx : bool) (utxoView : UtxoViewpoint) : outcome ruleerr Z :=
  if isCoinBaseTx then mret 0 else p2sh_loop (tx_TxIn tx) utxoView 0.

(** A call into txscript that returns no error; the codes of scripts are not rule errors. *)
Definition script_call {A} (m : outcome scripterr A) : outcome ruleerr A :=
  match m with Ret a => Ret a | Throw _ => Throw OtherError | Panic => Panic end.

Fixpoint witness_loop (ins : list TxIn) (utxoView : UtxoViewpoint) (numSigOps : Z) : outcome ruleerr Z :=
  match ins with
  | [] => mret numSigOps
  | txIn :: ins' =>
    match available utxoView (ti_PreviousOutPoint txIn) with
    | None => mthrow ErrMissingTxOut
    | Some utxo =>
      n ← script_call (GetWitnessSigOpCount (ti_SignatureScript txIn) (ue_pkScript utxo) (witness txIn));
      witness_loop ins' utxoView (int64 (numSigOps + n))
    end
  end.

(** An error of [CountP2SHSigOps] makes the cost zero. *)
Definition GetSigOpCost (tx : MsgTx) (isCoinBaseTx : bool) (utxoView : UtxoViewpoint) (bip16 segWit : bool) : outcome ruleerr Z :=
  let numSigOps := int64 (CountSigOps tx * WitnessScaleFactor) in
  p2sh ← (if bip16 then match CountP2SHSigOps tx isCoinBaseTx utxoView with
                        | Ret n => mret (Some (int64 (n * WitnessScaleFactor)))
                        | Throw _ => mret None
                        | Panic => Panic
                        end
          else mret (Some 0));
  match p2sh with
  | None => mret 0
  | Some n =>
    let numSigOps := int64 (numSigOps + n) in
    if segWit && negb isCoinBaseTx then witness_loop (tx_TxIn tx) utxoView numSigOps else mret numSigOps
  end.

(** * Headers *)

Section sanity.
Context `{GlobalConf}.

Definition checkProofOfWork (header : BlockHeader) (powLimit flags : Z) : outcome ruleerr () :=
  let target := CompactToBig (bh_Bits header) in
  if target <=? 0 then mthrow ErrUnexpectedDifficulty else
  if powLimit <? target then mthrow ErrUnexpectedDifficulty else
  if negb (flags &&& BFNoPoWCheck =? BFNoPoWCheck) && (target <? HashToBig (BlockHash header)) then mthrow ErrHighHash else
  mret ().

Definition ShaCheckProofOfWork (block : BtcBlock) (powLimit : Z) : outcome ruleerr () :=
  checkProofOfWork (mb_Header (b_MsgBlock block)) powLimit BFNone.

(** [adjustedTime] is what the time source says; times are in seconds, so the check of
    their precision always passes. *)
Definition checkBlockHeaderSanity (header : BlockHeader) (powLimit adjustedTime flags : Z) : outcome ruleerr () :=
  let flags := if bool_decide (ProofOfWorkAlgorithm gConf = PowPacketCrypt) then flags ||| BFNoPoWCheck else flags in
  checkProofOfWork header powLimit flags;;
  let maxTimestamp := adjustedTime + MaxTimeOffset gConf in
  if maxTimestamp <? bh_Timestamp header then mthrow ErrTimeTooNew else mret ().

(** * Blocks *)

Fixpoint sane_transactions (txs : list MsgTx) : outcome ruleerr () :=
  match txs with
  | [] => mret ()
  | tx :: txs' => CheckTransactionSanity tx;; sane_transactions txs'
  end.

Fixpoint check_duplicates (txs : list MsgTx) (existingTxHashes : gset bytes) : outcome ruleerr () :=
  match txs with
  | [] => mret ()
  | tx :: txs' =>
    let hash := TxHash tx in
    if decide (hash ∈ existingTxHashes) then mthrow ErrDuplicateTx else check_duplicates txs' ({[hash]} ∪ existingTxHashes)
  end.

Fixpoint check_sigops (txs : list MsgTx) (totalSigOps : Z) : outcome ruleerr () :=
  match txs with
  | [] => mret ()
  | tx :: txs' =>
    let lastSigOps := totalSigOps in
    let totalSigOps := int64 (totalSigOps + CountSigOps tx * WitnessScaleFactor) in
    if (totalSigOps <? lastSigOps) || (MaxBlockSigOpsCost <? totalSigOps) then mthrow ErrTooManySigOps else check_sigops txs' totalSigOps
  end.

(** [header.MerkleRoot.IsEqual(merkles[len(merkles)-1])]; two nil pointers would be equal,
    and the field is not a pointer. *)
Definition checkBlockSanity (block : BtcBlock) (powLimit adjustedTime flags : Z) : outcome ruleerr () :=
  let msgBlock := b_MsgBlock block in
  let header := mb_Header msgBlock in
  checkBlockHeaderSanity header powLimit adjustedTime flags;;
  let numTx := len (mb_Transactions msgBlock) in
  if numTx =? 0 then mthrow ErrNoTransactions else
  if MaxBlockBaseSize <? numTx then mthrow ErrBlockTooBig else
  if MaxBlockBaseSize <? MsgBlock_SerializeSizeStripped msgBlock then mthrow ErrBlockTooBig else
  let transactions := b_Transactions block in
  first ← or_panic (index transactions 0);
  if negb (IsCoinBase first) then mthrow ErrFirstTxNotCoinbase else
  others ← or_panic (slice_from transactions 1);
  if existsb IsCoinBase others then mthrow ErrMultipleCoinbases else
  sane_transactions transactions;;
  merkles ← no_error (BuildMerkleTreeStore transactions false);
  calculatedMerkleRoot ← or_panic (index merkles (len merkles - 1));
  if negb (bool_decide (calculatedMerkleRoot = Some (bh_MerkleRoot header))) then mthrow ErrBadMerkleRoot else
  check_duplicates transactions ∅;;
  check_sigops transactions 0.

Definition CheckBlockSanity (block : BtcBlock) (powLimit adjustedTime : Z) : outcome ruleerr () :=
  checkBlockSanity block powLimit adjustedTime BFNone.

(** * Inputs *)

Definition check_maturity (utxo : UtxoEntry) (txHeight : Z) (chainParams : Params) : outcome ruleerr () :=
  if negb (ue_IsCoinBase utxo) then mret () else
  let originHeight := ue_blockHeight utxo in
  let blocksSincePrev := int32 (txHeight - originHeight) in
  let coinbaseMaturity := int32 (CoinbaseMaturity chainParams) in
  if blocksSincePrev <? coinbaseMaturity then mthrow ErrImmatureSpend else
  if HasNetworkSteward && isNetworkSteward utxo && (129600 <? blocksSincePrev) then mthrow ErrNetworkStewardOldSpend else
  mret ().

Fixpoint input_amounts (ins : list TxIn) (txHeight : Z) (utxoView : UtxoViewpoint) (chainParams : Params) (totalSatoshiIn : Z) : outcome ruleerr Z :=
  match ins with
  | [] => mret totalSatoshiIn
  | txIn :: ins' =>
    match available utxoView (ti_PreviousOutPoint txIn) with
    | None => mthrow ErrMissingTxOut
    | Some utxo =>
      check_maturity utxo txHeight chainParams;;
      let originTxSatoshi := ue_amount utxo in
      if originTxSatoshi <? 0 then mthrow ErrNegativeTxOutValue else
      if MaxUnitsI64 <? originTxSatoshi then mthrow ErrOversizeTxOutValue else
      let lastSatoshiIn := totalSatoshiIn in
      let totalSatoshiIn := int64 (totalSatoshiIn + originTxSatoshi) in
      if (totalSatoshiIn <? lastSatoshiIn) || (MaxUnitsI64 <? totalSatoshiIn) then mthrow ErrOversizeTxOutSum else
      input_amounts ins' txHeight utxoView chainParams totalSatoshiIn
    end
  end.

(** The sum of the outputs of a transaction. *)
Definition output_amount (outs : list TxOut) : Z := foldl (fun total txOut => int64 (total + to_Value txOut)) 0 outs.

Definition CheckTransactionInputs (tx : MsgTx) (txHeight : Z) (utxoView : UtxoViewpoint) (chainParams : Params) : outcome ruleerr Z :=
  if IsCoinBase tx then mret 0 else
  totalSatoshiIn ← input_amounts (tx_TxIn tx) txHeight utxoView chainParams 0;
  let totalSatoshiOut := output_amount (tx_TxOut tx) in
  if totalSatoshiIn <? totalSatoshiOut then mthrow ErrSpendTooHigh else
  mret (int64 (totalSatoshiIn - totalSatoshiOut)).
End sanity.
