(* ===== verification/Sane.v ===== *)
(** What a block that passes [checkBlockSanity] looks like: a single coinbase at the
    front, different transactions, amounts in range, and a header that commits to the
    transactions. *)

From stdpp Require Import gmap.
From S2P Require Import Prelude Params Opcode Sha Wire MsgTx SigHash ScriptUtil ChainParams Block Compress RuleErr TxRules Merkle Difficulty BlockIndex ChainIO UtxoView Validate.

Lemma outcome_bind_inv {E A B} (m : outcome E A) (f : A -> outcome E B) b : (m ≫= f) = Ret b -> exists a, m = Ret a /\ f a = Ret b.
Proof. destruct m; [eauto|done..]. Qed.

(** The branches of a check: an error is not a result. *)
Ltac checked H := repeat (first [progress cbv zeta in H | match type of H with
  | (if ?c then mthrow _ else _) = Ret _ => let E := fresh "E" in destruct c eqn:E; [done|]
  | (if ?c then Throw _ else _) = Ret _ => let E := fresh "E" in destruct c eqn:E; [done|]
  | (_ ≫= _) = Ret _ => let a := fresh "r" in let Ha := fresh "Hr" in apply outcome_bind_inv in H as (a & Ha & H)
  end]).

#[local] Opaque TxHash.

#[local] Opaque HashMerkleBranches.

Section sane.
Context `{GlobalConf} (Hmax : MaxUnitsI64 < 2 ^ 63).

Lemma int64_wraps x : 0 <= x < 2 ^ 64 -> int64 x = x \/ int64 x < 0.
Proof. intros Hx. unfold int64, swrap. destruct (Z.lt_ge_cases x (2 ^ 63)); [left|right]; lia. Qed.

Lemma int64_add_checked a b : 0 <= a < 2 ^ 63 -> 0 <= b < 2 ^ 63 -> 0 <= int64 (a + b) -> int64 (a + b) = a + b.
Proof. intros Ha Hb Hc. destruct (int64_wraps (a + b) ltac:(lia)); lia. Qed.

Definition in_range (v : Z) : Prop := 0 <= v <= MaxUnitsI64.

Lemma values_nonneg outs : Forall (fun o => in_range (to_Value o)) outs -> 0 <= out_total outs.
Proof. unfold in_range. induction 1 as [|o outs Ho _ IH]; cbn [out_total foldr]; [lia|]. fold (out_total outs). lia. Qed.

(** Without the checks the sum is the same. *)
Lemma output_amount_spec outs : Forall (fun o => in_range (to_Value o)) outs -> out_total outs <= MaxUnitsI64 -> output_amount outs = out_total outs.
Proof.
  unfold output_amount. intros Hall Hb. replace (out_total outs) with (0 + out_total outs) in * by lia. revert Hb. assert (0 <= 0) as H0 by lia. revert H0. generalize 0 at 2 3 4 5 as t.
  induction Hall as [|o outs Ho Hall IH]; intros t Ht Hb; cbn [foldl out_total foldr] in *; [lia|]. fold (out_total outs) in *. pose proof (values_nonneg outs Hall) as Hn.
  unfold in_range in *. rewrite (int64_small (t + to_Value o)) by lia. rewrite IH; lia.
Qed.

Lemma check_duplicates_spec txs : forall seen, check_duplicates txs seen = Ret () ->
  NoDup (map TxHash txs) /\ forall tx, tx ∈ txs -> TxHash tx ∉ seen.
Proof.
  induction txs as [|t txs IH]; intros seen Hr; cbn [check_duplicates map] in *.
  { split; [constructor|]. intros tx Hi. by apply elem_of_nil in Hi. }
  cbv zeta in Hr. destruct (decide _) as [|Hn]; [done|]. apply IH in Hr as [Hnd Hs]. split.
  - apply list.NoDup_cons. split; [|done]. intros (x & E & Hx)%list_elem_of_fmap. apply (Hs x Hx). rewrite <- E. apply elem_of_union. left. by apply elem_of_singleton.
  - intros x [-> |Hx]%elem_of_cons; [done|]. specialize (Hs x Hx). intros Hin. apply Hs, elem_of_union. by right.
Qed.

Record sane_tx (tx : MsgTx) : Prop := {
  st_outs : Forall (fun o => in_range (to_Value o)) (tx_TxOut tx);
  st_sum : in_range (out_total (tx_TxOut tx));
  st_nonempty : tx_TxIn tx <> [] /\ tx_TxOut tx <> [];
  st_ins : NoDup (map ti_PreviousOutPoint (tx_TxIn tx));
  st_null : IsCoinBase tx = false -> Forall (fun txIn => isNullOutpoint (ti_PreviousOutPoint txIn) = false) (tx_TxIn tx)
}.

Lemma CheckTransactionSanity_spec tx : 0 <= MaxUnitsI64 -> CheckTransactionSanity tx = Ret () -> sane_tx tx.
Proof.
  intros H0 Hs. unfold CheckTransactionSanity in Hs. checked Hs. apply check_outputs_spec in Hr as (-> & Hb & Hall); [|lia|done].
  destruct r0. apply check_duplicate_inputs_spec in Hr0 as [Hnd _]. split; [done|by rewrite Z.add_0_l in Hb| |done|].
  - split; intros E'; rewrite E' in *; discriminate.
  - intros Hc. rewrite Hc in Hs. destruct (existsb _ _) eqn:Ex; [done|]. apply Forall_forall. intros x Hx.
    destruct (isNullOutpoint _) eqn:En; [|done]. rewrite <- Ex. symmetry. apply existsb_exists. eauto.
Qed.

Lemma sane_transactions_spec txs : 0 <= MaxUnitsI64 -> sane_transactions txs = Ret () -> Forall sane_tx txs.
Proof.
  intros H0. induction txs as [|tx txs IH]; intros Hs; cbn [sane_transactions] in *; [constructor|]. checked Hs. destruct r.
  constructor; [by apply CheckTransactionSanity_spec|by apply IH].
Qed.

(** The number of levels of the tree over the transactions. *)
Definition tree_height (txs : list MsgTx) : nat := Z.to_nat (Z.log2_up (len txs)).

Lemma tree_height_spec txs d : len txs <= 2 ^ Z.of_nat d -> (forall e, 0 <= e -> len txs <= 2 ^ e -> Z.of_nat d <= e) -> txs <> [] -> d = tree_height txs.
Proof.
  intros Hle Hmin Hne. assert (0 < len txs) as Hpos by (destruct txs; [done|len_lia]). unfold tree_height.
  assert (Z.of_nat d = Z.log2_up (len txs)); [|lia]. apply Z.le_antisymm.
  - apply Hmin; [apply Z.log2_up_nonneg|]. destruct (Z.eq_dec (len txs) 1) as [-> |]; [done|]. apply Z.log2_up_spec. lia.
  - apply Z.log2_up_le_pow2; [lia|done].
Qed.

(** The block as the checks leave it. *)
Record sane_block (block : BtcBlock) (powLimit adjustedTime : Z) : Prop := {
  sb_target : 0 < CompactToBig (bh_Bits (mb_Header (b_MsgBlock block))) <= powLimit;
  sb_time : bh_Timestamp (mb_Header (b_MsgBlock block)) <= adjustedTime + MaxTimeOffset gConf;
  sb_coinbase : exists tx txs, b_Transactions block = tx :: txs /\ IsCoinBase tx = true /\ Forall (fun tx => IsCoinBase tx = false) txs;
  sb_txs : Forall sane_tx (b_Transactions block);
  sb_different : NoDup (map TxHash (b_Transactions block));
  sb_size : MsgBlock_SerializeSizeStripped (b_MsgBlock block) <= MaxBlockBaseSize /\ len (b_Transactions block) <= MaxBlockBaseSize;
  sb_root : (length (b_Transactions block) <= 2 ^ tree_height (b_Transactions block))%nat /\
    merkle_root (tree_height (b_Transactions block)) (map TxHash (b_Transactions block)) = Some (bh_MerkleRoot (mb_Header (b_MsgBlock block)))
}.

Lemma leaves_hashes txs : leaves false txs = map TxHash txs.
Proof.
  unfold leaves. assert (forall f : nat -> MsgTx -> bytes, (forall i tx, f i tx = TxHash tx) -> imap f txs = map TxHash txs) as Hi.
  { induction txs as [|tx txs IH]; intros f Hf; [done|]. cbn [imap map]. rewrite Hf. f_equal. apply IH. intros i t. apply Hf. }
  apply Hi. done.
Qed.

Lemma checkBlockSanity_spec block powLimit adjustedTime flags : 0 <= MaxUnitsI64 ->
  checkBlockSanity block powLimit adjustedTime flags = Ret () -> sane_block block powLimit adjustedTime.
Proof.
  intros H0 Hs. unfold checkBlockSanity in Hs. checked Hs. unfold checkBlockHeaderSanity in Hr. checked Hr. unfold checkProofOfWork in Hr6. checked Hr6.
  rewrite Z.ltb_ge, Z.leb_gt, Z.eqb_neq, ?negb_false_iff in *. unfold b_Transactions in *.
  destruct (mb_Transactions (b_MsgBlock block)) as [|tx txs] eqn:Et; [done|]. injection Hr0 as <-.
  assert (slice_from (tx :: txs) 1 = Some txs) as Esl by exact (slice_from_app [tx] txs 1 eq_refl). rewrite Esl in Hr1. injection Hr1 as <-.
  destruct r2, r5. apply sane_transactions_spec in Hr2; [|done]. apply check_duplicates_spec in Hr5 as [Hnd _].
  destruct (tree_store_spec false (tx :: txs) ltac:(done)) as (d & Hle & Hlez & Hmin & Es). rewrite Es in Hr3. injection Hr3 as <-.
  pose proof (length_leaves false (tx :: txs)) as HL.
  destruct (levels_root d (leaves false (tx :: txs)) ltac:(rewrite HL; cbn [length] in *; lia)) as [t Er]. rewrite Er in Hr4.
  rewrite index_last in Hr4. injection Hr4 as <-. destruct (bool_decide_reflect (merkle_root d (leaves false (tx :: txs)) = Some (bh_MerkleRoot (mb_Header (b_MsgBlock block))))) as [Em|]; [|done].
  split; unfold b_Transactions; rewrite ?Et; try done.
  - exists tx, txs. split; [done|]. split; [done|]. apply Forall_forall. intros x Hx. destruct (IsCoinBase x) eqn:Ex; [|done].
    rewrite <- E3. symmetry. apply existsb_exists. eauto.
  - rewrite <- (tree_height_spec (tx :: txs) d) by done. rewrite <- leaves_hashes. done.
Qed.

(** * The header commits to the transactions *)

Definition stripped (tx : MsgTx) : bytes := buffer_of (SerializeNoWitness tx).

(** The strings that are hashed to compute the root. *)
Definition hashed (txs : list MsgTx) : list bytes := map stripped txs ++ preimages (tree_height txs) (map TxHash txs).

Lemma no_collision_sub l l' : no_collision l -> (forall x, x ∈ l' -> x ∈ l) -> no_collision l'.
Proof. intros Hc Hl x y Hx Hy. apply Hc; by apply Hl. Qed.

(** The root of a taller tree: the leaves of the lower one are inner nodes of it. *)
Lemma merkle_root_taller k d : forall l1 l2,
  Forall (fun h => length h = 32%nat) l1 -> Forall (fun h => length h = 32%nat) l2 -> NoDup l1 -> NoDup l2 ->
  (0 < length l1 <= 2 ^ d)%nat -> (0 < length l2 <= 2 ^ (S k + d))%nat -> no_collision (preimages d l1 ++ preimages (S k + d) l2) ->
  merkle_root d l1 = merkle_root (S k + d) l2 ->
  exists l, l1 = map DoubleHashB (pair_inputs l) /\ Forall (fun h => length h = 32%nat) l /\ forall x, x ∈ pair_inputs l -> x ∈ preimages (S k + d) l2.
Proof.
  induction k as [|k IH]; intros l1 l2 H1 H2 N1 N2 B1 B2 Hc E.
  all: assert (NoDup (level_up l2)) as N2' by (rewrite level_up_inputs; apply (NoDup_map_on DoubleHashB);
    [apply (no_collision_sub _ _ Hc); intros x; cbn [Nat.add preimages]; rewrite !elem_of_app; tauto|by apply pair_inputs_NoDup]).
  - exists l2. rewrite <- level_up_inputs. split; [|split; [done|intros x Hx; cbn [Nat.add preimages]; apply elem_of_app; by left]].
    apply (merkle_root_inj d); [done|apply level_up_32|done|done|done|by apply level_up_bound| |exact E].
    apply (no_collision_sub _ _ Hc). intros x. cbn [Nat.add preimages]. rewrite !elem_of_app. tauto.
  - destruct (IH l1 (level_up l2)) as (l & El & Hl & Hx); [done|apply level_up_32|done|done|done|by apply level_up_bound| |exact E|].
    { apply (no_collision_sub _ _ Hc). intros x. change (S (S k) + d)%nat with (S (S k + d)). cbn [preimages]. rewrite !elem_of_app. tauto. }
    exists l. split; [done|]. split; [done|]. intros x Hi. change (S (S k) + d)%nat with (S (S k + d)). cbn [preimages]. apply elem_of_app. right. by apply Hx.
Qed.

Lemma pair_inputs_64 l : Forall (fun h => length h = 32%nat) l -> Forall (fun x => len x = 64) (pair_inputs l).
Proof.
  intros Hl. apply Forall_forall. intros x Hx. apply list_elem_of_In, pair_inputs_elem in Hx as (a & b & -> & Ha & Hb). rewrite Forall_forall in Hl.
  apply list_elem_of_In in Ha, Hb. unfold len. rewrite length_app, (Hl a Ha), (Hl b Hb). done.
Qed.

Lemma hashes_32 txs : Forall (fun h => length h = 32%nat) (map TxHash txs).
Proof. apply List.Forall_map, Forall_forall. intros x _. apply length_sha256. Qed.

Lemma hashes_stripped txs : map TxHash txs = map DoubleHashB (map stripped txs).
Proof. by rewrite map_map. Qed.

(** Blocks with trees of different heights and the same root. *)
Lemma lower_tree block block' powLimit powLimit' time time' : sane_block block powLimit time -> sane_block block' powLimit' time' ->
  bh_MerkleRoot (mb_Header (b_MsgBlock block)) = bh_MerkleRoot (mb_Header (b_MsgBlock block')) ->
  no_collision (hashed (b_Transactions block) ++ hashed (b_Transactions block')) -> (tree_height (b_Transactions block) < tree_height (b_Transactions block'))%nat ->
  Forall (fun tx => len (stripped tx) = 64) (b_Transactions block).
Proof.
  intros Hs Hs' Hroot Hcol Hlt. destruct (sb_root _ _ _ Hs) as [Hl Hr]. destruct (sb_root _ _ _ Hs') as [Hl' Hr'].
  destruct (sb_coinbase _ _ _ Hs) as (c & l0 & Et & _). destruct (sb_coinbase _ _ _ Hs') as (c' & l0' & Et' & _).
  assert (0 < length (b_Transactions block))%nat as Hn by (rewrite Et; cbn; lia). assert (0 < length (b_Transactions block'))%nat as Hn' by (rewrite Et'; cbn; lia).
  set (k := (tree_height (b_Transactions block') - tree_height (b_Transactions block) - 1)%nat). set (d := tree_height (b_Transactions block)) in *.
  assert (tree_height (b_Transactions block') = (S k + d)%nat) as Ed by lia. unfold hashed in Hcol. fold d in Hcol. rewrite Ed in *.
  destruct (merkle_root_taller k d (map TxHash (b_Transactions block)) (map TxHash (b_Transactions block'))) as (l & El & H32 & Hin);
    [apply hashes_32|apply hashes_32|apply Hs|apply Hs'|rewrite length_map; lia|rewrite length_map; lia| |congruence|].
  { apply (no_collision_sub _ _ Hcol). intros x. rewrite !elem_of_app. tauto. }
  assert (map stripped (b_Transactions block) = pair_inputs l) as E.
  { apply (map_inj_on DoubleHashB); [|by rewrite <- hashes_stripped]. apply (no_collision_sub _ _ Hcol). intros x. rewrite !elem_of_app. intros [Hx|Hx]; [tauto|apply Hin in Hx; tauto]. }
  pose proof (pair_inputs_64 l H32) as H64. rewrite <- E in H64. rewrite Forall_forall in H64 |- *. intros tx Htx. apply H64, List.in_map, Htx.
Qed.

(** C17: a block that passes the checks has exactly one coinbase, at the front; its
    transactions are different, spend no output twice each and create amounts in range,
    which the sums do not overflow; its time and target are within the limits.  The
    header commits to the transactions up to their witness data: if no two of the strings
    that are hashed to compute the roots collide, another block that passes with the same
    root has the same transactions in the same order, or the tree of one of the blocks is
    lower than that of the other and each of its transactions is serialized to the 64
    bytes of an inner node. *)
Theorem block_sanity block powLimit time flags : 0 <= MaxUnitsI64 -> checkBlockSanity block powLimit time flags = Ret () ->
  let txs := b_Transactions block in
  sane_block block powLimit time /\
  forall block' powLimit' time' flags', checkBlockSanity block' powLimit' time' flags' = Ret () ->
    let txs' := b_Transactions block' in
    bh_MerkleRoot (mb_Header (b_MsgBlock block)) = bh_MerkleRoot (mb_Header (b_MsgBlock block')) -> no_collision (hashed txs ++ hashed txs') ->
    map stripped txs = map stripped txs' \/
    ((tree_height txs < tree_height txs')%nat /\ Forall (fun tx => len (stripped tx) = 64) txs) \/
    ((tree_height txs' < tree_height txs)%nat /\ Forall (fun tx => len (stripped tx) = 64) txs').
Proof.
  cbv zeta. intros H0 Hs. apply checkBlockSanity_spec in Hs; [|done]. split; [done|]. intros block' powLimit' time' flags' Hs' Hroot Hcol.
  apply checkBlockSanity_spec in Hs'; [|done]. destruct (Nat.lt_trichotomy (tree_height (b_Transactions block)) (tree_height (b_Transactions block'))) as [Hlt|[Hd|Hgt]].
  - right. left. split; [done|]. by eapply lower_tree.
  - left. apply (map_inj_on DoubleHashB); [apply (no_collision_sub _ _ Hcol); intros x; unfold hashed; rewrite !elem_of_app; tauto|]. rewrite <- !hashes_stripped.
    destruct (sb_root _ _ _ Hs) as [Hl Hr]. destruct (sb_root _ _ _ Hs') as [Hl' Hr']. unfold hashed in Hcol. rewrite <- Hd in *.
    destruct (sb_coinbase _ _ _ Hs) as (c & l & Et & _). destruct (sb_coinbase _ _ _ Hs') as (c' & l' & Et' & _).
    apply (merkle_root_inj (tree_height (b_Transactions block))); [apply hashes_32|apply hashes_32|apply (sb_different _ _ _ Hs)|apply (sb_different _ _ _ Hs')| | | |congruence];
      [rewrite length_map; rewrite Et at 1; cbn [length]; lia|rewrite length_map; rewrite Et' at 1; cbn [length]; lia|].
    apply (no_collision_sub _ _ Hcol). intros x. rewrite !elem_of_app. tauto.
  - right. right. split; [done|]. eapply (lower_tree block' block); [done|done|done| |done]. apply (no_collision_sub _ _ Hcol). intros x. rewrite !elem_of_app. tauto.
Qed.
End sane.

(** * An instance *)

#[local] Instance sane_conf : GlobalConf := PktDefaults.

Definition sane_coinbase : MsgTx := mkMsgTx 1 [mkTxIn (mkOutPoint zeroHash MaxUint32) [Byte.x51; Byte.x00] None 0] [mkTxOut 50 [Byte.x51]] 0 [].
Definition sane_spend : MsgTx := mkMsgTx 1 [mkTxIn (mkOutPoint (repeat Byte.x01 32) 0) [] None 0] [mkTxOut 4000 [Byte.x51]] 0 [].

Definition demo_header (root : bytes) (nonce : Z) : BlockHeader := mkHeader 1 zeroHash root 1000 0x1f00ffff nonce.

Definition sane_sample (nonce : Z) : BtcBlock :=
  mkBtcBlock (mkBlock (demo_header (HashMerkleBranches (TxHash sane_coinbase) (TxHash sane_spend)) nonce) None [sane_coinbase; sane_spend]) 7.

Lemma block_sanity_witness :
  checkBlockSanity (sane_sample 1) (PowLimit PktMainNetParams) 1000 BFNone = Ret () /\ sane_block (sane_sample 1) (PowLimit PktMainNetParams) 1000 /\
  map stripped (b_Transactions (sane_sample 1)) = map stripped (b_Transactions (sane_sample 2)).
Proof.
  assert (forall n, checkBlockSanity (sane_sample n) (PowLimit PktMainNetParams) 1000 BFNone = Ret ()) as Hs.
  { intros n. transitivity (checkBlockSanity (sane_sample 0) (PowLimit PktMainNetParams) 1000 BFNone); [done|]. vm_compute. reflexivity. }
  split; [apply Hs|]. assert (MaxUnitsI64 < 2 ^ 63) as Hmax by (vm_compute; reflexivity). assert (0 <= MaxUnitsI64) as H0 by (vm_compute; discriminate).
  destruct (block_sanity Hmax (sane_sample 1) (PowLimit PktMainNetParams) 1000 BFNone H0 (Hs 1)) as [Hsane Hcommit]. split; [exact Hsane|].
  destruct (Hcommit (sane_sample 2) (PowLimit PktMainNetParams) 1000 BFNone (Hs 2) eq_refl) as [E|[[Hlt _]|[Hlt _]]]; [|exact E|apply Nat.lt_irrefl in Hlt; destruct Hlt..].
  intros x y Hx Hy E. assert (forall z, z ∈ hashed [sane_coinbase; sane_spend] ++ hashed [sane_coinbase; sane_spend] ->
    z = stripped sane_coinbase \/ z = stripped sane_spend \/ z = TxHash sane_coinbase ++ TxHash sane_spend) as Hcases.
  { intros z [Hz|Hz]%elem_of_app; apply list_elem_of_In in Hz; destruct Hz as [<-|[<-|[<-|[]]]]; auto. }
  assert (bool_decide (NoDup (map DoubleHashB [stripped sane_coinbase; stripped sane_spend; TxHash sane_coinbase ++ TxHash sane_spend])) = true) as Hnd by (vm_compute; reflexivity).
  apply bool_decide_eq_true in Hnd. apply Hcases in Hx, Hy. clear Hcases. revert Hnd Hx Hy E. generalize (stripped sane_coinbase), (stripped sane_spend), (TxHash sane_coinbase ++ TxHash sane_spend).
  intros a b c Hnd Hx Hy E. cbn [map] in Hnd. apply list.NoDup_cons in Hnd as [Na Hnd]. apply list.NoDup_cons in Hnd as [Nb _]. rewrite elem_of_cons, list_elem_of_singleton in Na. rewrite !elem_of_cons in Nb.
  destruct Hx as [-> |[-> | ->]], Hy as [-> |[-> | ->]]; first [reflexivity|exfalso; tauto|exfalso; symmetry in E; tauto].
Defined.
