(* ===== verification/ChainState.v ===== *)
(** The chain instance and the rules that depend on it: checkpoints
    (src/blockchain/checkpoints.go), sequence locks (src/blockchain/chain.go), script
    checks (src/blockchain/scriptval.go), and the rules for connecting a block
    (src/blockchain/validate.go).

    Locks, notifications, logging and the optional indexes are left out. *)

From stdpp Require Import gmap.
From S2P Require Import Prelude TxScriptErr Params Opcode Sha Wire MsgTx SigHash ScriptUtil Btcec SigCache Engine Execute ChainParams Block MoneySupply Compress RuleErr TxRules Merkle Difficulty BlockIndex ThresholdState ChainIO UtxoView Election Validate.

(** * The state *)

Record BestState : Type := mkBestState {
  bs_Hash : bytes;
  bs_Height : Z;
  bs_Bits : Z;
  bs_BlockSize : Z;
  bs_BlockWeight : Z;
  bs_NumTxns : Z;
  bs_TotalTxns : Z;
  bs_MedianTime : Z;
  bs_Elect : ElectionState
}.

Definition newBestState (node : blockNode) (blockSize blockWeight numTxns totalTxns medianTime : Z) (elect : ElectionState) : BestState :=
  mkBestState (n_hash node) (height node) (n_bits node) blockSize blockWeight numTxns totalTxns medianTime elect.

(** The buckets of the database and the stored blocks by hash. *)
Record ChainDb : Type := mkDb {
  db_utxoSet : Bucket;
  db_spendJournal : Bucket;
  db_hashIndex : Bucket;
  db_heightIndex : Bucket;
  db_blockIndex : Bucket;
  db_election : Bucket;
  db_chainState : option bytes;
  db_blocks : Bucket
}.

Record orphanBlock : Type := mkOrphan { ob_block : BtcBlock; ob_expiration : Z }.

Record BlockChain : Type := mkChain {
  bc_index : blockIndex;
  bc_bestChain : chainView;
  bc_caches : caches;
  bc_snapshot : BestState;
  bc_nextCheckpoint : option Checkpoint;
  bc_checkpointNode : option blockNode;
  bc_db : ChainDb;
  bc_sigCache : option SigCache;
  bc_hashCache : option HashCache;
  bc_orphans : gmap bytes orphanBlock;
  bc_prevOrphans : gmap bytes (list orphanBlock);
  bc_oldestOrphan : option orphanBlock
}.

Definition set_index (x : blockIndex) (b : BlockChain) : BlockChain :=
  mkChain x (bc_bestChain b) (bc_caches b) (bc_snapshot b) (bc_nextCheckpoint b) (bc_checkpointNode b) (bc_db b) (bc_sigCache b) (bc_hashCache b) (bc_orphans b) (bc_prevOrphans b) (bc_oldestOrphan b).
Definition set_bestChain (x : chainView) (b : BlockChain) : BlockChain :=
  mkChain (bc_index b) x (bc_caches b) (bc_snapshot b) (bc_nextCheckpoint b) (bc_checkpointNode b) (bc_db b) (bc_sigCache b) (bc_hashCache b) (bc_orphans b) (bc_prevOrphans b) (bc_oldestOrphan b).
Definition set_caches (x : caches) (b : BlockChain) : BlockChain :=
  mkChain (bc_index b) (bc_bestChain b) x (bc_snapshot b) (bc_nextCheckpoint b) (bc_checkpointNode b) (bc_db b) (bc_sigCache b) (bc_hashCache b) (bc_orphans b) (bc_prevOrphans b) (bc_oldestOrphan b).
Definition set_snapshot (x : BestState) (b : BlockChain) : BlockChain :=
  mkChain (bc_index b) (bc_bestChain b) (bc_caches b) x (bc_nextCheckpoint b) (bc_checkpointNode b) (bc_db b) (bc_sigCache b) (bc_hashCache b) (bc_orphans b) (bc_prevOrphans b) (bc_oldestOrphan b).
Definition set_checkpoints (next : option Checkpoint) (node : option blockNode) (b : BlockChain) : BlockChain :=
  mkChain (bc_index b) (bc_bestChain b) (bc_caches b) (bc_snapshot b) next node (bc_db b) (bc_sigCache b) (bc_hashCache b) (bc_orphans b) (bc_prevOrphans b) (bc_oldestOrphan b).
Definition set_db (x : ChainDb) (b : BlockChain) : BlockChain :=
  mkChain (bc_index b) (bc_bestChain b) (bc_caches b) (bc_snapshot b) (bc_nextCheckpoint b) (bc_checkpointNode b) x (bc_sigCache b) (bc_hashCache b) (bc_orphans b) (bc_prevOrphans b) (bc_oldestOrphan b).
Definition set_script_caches (sigs : option SigCache) (hashes : option HashCache) (b : BlockChain) : BlockChain :=
  mkChain (bc_index b) (bc_bestChain b) (bc_caches b) (bc_snapshot b) (bc_nextCheckpoint b) (bc_checkpointNode b) (bc_db b) sigs hashes (bc_orphans b) (bc_prevOrphans b) (bc_oldestOrphan b).
Definition set_orphans (orphans : gmap bytes orphanBlock) (prev : gmap bytes (list orphanBlock)) (oldest : option orphanBlock) (b : BlockChain) : BlockChain :=
  mkChain (bc_index b) (bc_bestChain b) (bc_caches b) (bc_snapshot b) (bc_nextCheckpoint b) (bc_checkpointNode b) (bc_db b) (bc_sigCache b) (bc_hashCache b) orphans prev oldest.

Abbreviation BC := (St ruleerr BlockChain).
Abbreviation View := (St ruleerr UtxoViewpoint).

Definition on_caches {A} (m : Chain A) : BC A := on_field bc_caches set_caches m.

(** An operation on a view: the view after it is returned. *)
Definition on_view {A} (m : View A) (view : UtxoViewpoint) : BC (A * UtxoViewpoint) := fun b =>
  match m view with (Ret a, view') => (Ret (a, view'), b) | (Throw e, _) => (Throw e, b) | (Panic, _) => (Panic, b) end.

(** * Checkpoints *)

Section chain.
Context `{GlobalConf} `{Crypto} `{MapOrder}.
Context (chainParams : Params) (checkpoints : list Checkpoint) (range : election -> list electionCandidate).

Definition HasCheckpoints : bool := 0 <? len checkpoints.

Definition LatestCheckpoint : outcome ruleerr (option Checkpoint) :=
  if negb HasCheckpoints then mret None else
  c ← or_panic (index checkpoints (len checkpoints - 1));
  mret (Some c).

(** [checkpointsByHeight]: the last checkpoint for each height. *)
Definition checkpointsByHeight : gmap Z Checkpoint := foldl (fun m c => <[cp_Height c := c]> m) ∅ checkpoints.

Definition verifyCheckpoint (height : Z) (hash : bytes) : bool :=
  if negb HasCheckpoints then true else
  match checkpointsByHeight !! height with
  | None => true
  | Some checkpoint => bytes_eqb (cp_Hash checkpoint) hash
  end.

(** The loop from the last checkpoint to the first. *)
Fixpoint search_checkpoint (n : nat) : BC (option blockNode) :=
  match n with
  | O =>
    first ← lift (or_panic (index checkpoints 0));
    modify (fun b => set_checkpoints (Some first) (bc_checkpointNode b) b);;
    mret None
  | S i =>
    c ← lift (or_panic (index checkpoints (Z.of_nat i)));
    node ← gets (fun b => match LookupNode (bc_index b) (cp_Hash c) with
                          | Some node => if contains (bc_bestChain b) node then Some node else None
                          | None => None
                          end);
    match node with
    | None => search_checkpoint i
    | Some node =>
      modify (fun b => set_checkpoints (if Z.of_nat i <? len checkpoints - 1 then index checkpoints (Z.of_nat i + 1) else bc_nextCheckpoint b) (Some node) b);;
      mret (Some node)
    end
  end.

(** The index of the last checkpoint with the hash. *)
Fixpoint checkpoint_index (n : nat) (hash : bytes) : option nat :=
  match n with
  | O => None
  | S i => match index checkpoints (Z.of_nat i) with
           | Some c => if bytes_eqb (cp_Hash c) hash then Some i else checkpoint_index i hash
           | None => checkpoint_index i hash
           end
  end.

Definition findPreviousCheckpoint : BC (option blockNode) :=
  if negb HasCheckpoints then mret None else
  b ← gets id;
  match bc_checkpointNode b, bc_nextCheckpoint b with
  | None, None => search_checkpoint (length checkpoints)
  | node, None => mret node
  | node, Some next =>
    t ← lift (or_panic (tip (bc_bestChain b)));
    if height t <? cp_Height next then mret node else
    match LookupNode (bc_index b) (cp_Hash next) with
    | None => mthrow AssertError
    | Some checkpointNode =>
      let next' := match checkpoint_index (length checkpoints) (cp_Hash next) with
                   | Some i => if Z.of_nat i <? len checkpoints - 1 then index checkpoints (Z.of_nat i + 1) else None
                   | None => None
                   end in
      modify (set_checkpoints next' (Some checkpointNode));;
      mret (Some checkpointNode)
    end
  end.

(** * Sequence locks *)

Record SequenceLock : Type := mkSequenceLock { sl_Seconds : Z; sl_BlockHeight : Z }.

Definition SequenceLockActive (sequenceLock : SequenceLock) (blockHeight medianTimePast : Z) : bool :=
  negb ((medianTimePast <=? sl_Seconds sequenceLock) || (blockHeight <=? sl_BlockHeight sequenceLock)).

Fixpoint sequence_loop (node : blockNode) (ins : list TxIn) (utxoView : UtxoViewpoint) (nextHeight : Z) (lock : SequenceLock) :
    outcome ruleerr SequenceLock :=
  match ins with
  | [] => mret lock
  | txIn :: ins' =>
    match LookupEntry utxoView (ti_PreviousOutPoint txIn) with
    | None => mthrow ErrMissingTxOut
    | Some utxo =>
      let inputHeight := if ue_blockHeight utxo =? 0x7fffffff then nextHeight else ue_blockHeight utxo in
      let sequenceNum := ti_Sequence txIn in
      let relativeLock := sequenceNum &&& SequenceLockTimeMask in
      if sequenceNum &&& SequenceLockTimeDisabled =? SequenceLockTimeDisabled
      then sequence_loop node ins' utxoView nextHeight lock
      else if sequenceNum &&& SequenceLockTimeIsSeconds =? SequenceLockTimeIsSeconds then
        let prevInputHeight := Z.max 0 (int32 (inputHeight - 1)) in
        blockNode ← or_panic (Ancestor node prevInputHeight);
        medianTime ← CalcPastMedianTime blockNode;
        let timeLock := int64 (medianTime + int64 ((relativeLock <<< SequenceLockTimeGranularity) - 1)) in
        sequence_loop node ins' utxoView nextHeight (mkSequenceLock (Z.max timeLock (sl_Seconds lock)) (sl_BlockHeight lock))
      else
        let blockHeight := int32 (inputHeight + int32 (relativeLock - 1)) in
        sequence_loop node ins' utxoView nextHeight (mkSequenceLock (sl_Seconds lock) (Z.max blockHeight (sl_BlockHeight lock)))
    end
  end.

Definition calcSequenceLock (node : blockNode) (tx : MsgTx) (utxoView : UtxoViewpoint) (mempool : bool) : BC SequenceLock :=
  let sequenceLock := mkSequenceLock (-1) (-1) in
  csvSoftforkActive ←
    (if mempool then mret true else
     csvState ← on_caches (deploymentState chainParams (parent node) DeploymentCSV);
     mret (bool_decide (csvState = ThresholdActive)));
  let sequenceLockActive := (2 <=? tx_Version tx) && csvSoftforkActive in
  if negb sequenceLockActive || IsCoinBaseTx tx then mret sequenceLock else
  lift (sequence_loop node (tx_TxIn tx) utxoView (int32 (height node + 1)) sequenceLock).

Definition LockTimeToSequence (isSeconds : bool) (locktime : Z) : Z :=
  if negb isSeconds then locktime else SequenceLockTimeIsSeconds ||| (locktime >>> SequenceLockTimeGranularity).

(** * Scripts *)

Record txValidateItem : Type := mkItem {
  it_txInIndex : Z;
  it_txIn : TxIn;
  it_tx : MsgTx;
  it_sigHashes : option TxSigHashes
}.

(** What a worker does with an item: the error it sends, if any, and the signature
    cache after it. *)
Definition validate_item (utxoView : UtxoViewpoint) (flags : Z) (item : txValidateItem) : St ruleerr (option SigCache) () := fun sigCache =>
  match LookupEntry utxoView (ti_PreviousOutPoint (it_txIn item)) with
  | None => (Throw ErrMissingTxOut, sigCache)
  | Some utxo =>
    match NewEngine (ue_pkScript utxo) (it_tx item) (it_txInIndex item) flags sigCache (it_sigHashes item) (ue_amount utxo) with
    | Ret vm =>
      match Execute vm with
      | (Ret (), vm') => (Ret (), vm_sigCache vm')
      | (Throw _, vm') => (Throw ErrScriptValidation, vm_sigCache vm')
      | (Panic, vm') => (Panic, vm_sigCache vm')
      end
    | Throw _ => (Throw ErrScriptMalformed, sigCache)
    | Panic => (Panic, sigCache)
    end
  end.

(** [Validate] with a single worker, which takes the items in order; Validator.v relates
    it to the runs with any number of workers. *)
Fixpoint Validate (utxoView : UtxoViewpoint) (flags : Z) (items : list txValidateItem) : St ruleerr (option SigCache) () :=
  match items with
  | [] => mret ()
  | item :: items' => validate_item utxoView flags item;; Validate utxoView flags items'
  end.

(** The items of a transaction, without those that look like a coinbase's. *)
Fixpoint tx_items (tx : MsgTx) (cachedHashes : option TxSigHashes) (txInIdx : Z) (ins : list TxIn) : list txValidateItem :=
  match ins with
  | [] => []
  | txIn :: ins' =>
    if op_Index (ti_PreviousOutPoint txIn) =? MaxUint32 then tx_items tx cachedHashes (txInIdx + 1) ins'
    else mkItem txInIdx txIn tx cachedHashes :: tx_items tx cachedHashes (txInIdx + 1) ins'
  end.

Definition is_segwit (flags : Z) : bool := flags &&& ScriptVerifyWitness =? ScriptVerifyWitness.

(** A method on a nil cache panics. *)
Definition ValidateTransactionScripts (tx : MsgTx) (utxoView : UtxoViewpoint) (flags : Z) : St ruleerr (option SigCache * option HashCache) () :=
  '(_, hashCache) ← gets id;
  if is_segwit flags && HasWitness tx then
    h ← lift (or_panic hashCache);
    let h := if ContainsHashes (TxHash tx) h then h else AddSigHashes tx h in
    modify (fun s => (s.1, Some h));;
    on_field fst (fun c s => (c, s.2)) (Validate utxoView flags (tx_items tx (GetSigHashes (TxHash tx) h) 0 (tx_TxIn tx)))
  else on_field fst (fun c s => (c, s.2)) (Validate utxoView flags (tx_items tx None 0 (tx_TxIn tx))).

(** The partial hashes of one transaction of a block, and the cache after. *)
Definition partial_hashes (segwitActive : bool) (tx : MsgTx) (hashCache : option HashCache) : option TxSigHashes * option HashCache :=
  if segwitActive && HasWitness tx then
    match hashCache with
    | Some h => let h := if ContainsHashes (TxHash tx) h then h else AddSigHashes tx h in (GetSigHashes (TxHash tx) h, Some h)
    | None => (Some (NewTxSigHashes tx), None)
    end
  else (None, hashCache).

Fixpoint block_items (segwitActive : bool) (txs : list MsgTx) (hashCache : option HashCache) : list txValidateItem * option HashCache :=
  match txs with
  | [] => ([], hashCache)
  | tx :: txs' =>
    let '(cachedHashes, hashCache) := partial_hashes segwitActive tx hashCache in
    let '(items, hashCache) := block_items segwitActive txs' hashCache in
    (tx_items tx cachedHashes 0 (tx_TxIn tx) ++ items, hashCache)
  end.

Definition purge (segwitActive : bool) (txs : list MsgTx) (hashCache : option HashCache) : option HashCache :=
  if segwitActive
  then (fun h => foldl (fun h tx => if HasWitness tx then PurgeSigHashes (TxHash tx) h else h) h txs) <$> hashCache
  else hashCache.

Definition checkBlockScripts (block : BtcBlock) (utxoView : UtxoViewpoint) (scriptFlags : Z) : BC () :=
  let segwitActive := is_segwit scriptFlags in
  hashCache ← gets bc_hashCache;
  let '(items, hashCache) := block_items segwitActive (b_Transactions block) hashCache in
  modify (fun b => set_script_caches (bc_sigCache b) hashCache b);;
  on_field bc_sigCache (fun c b => set_script_caches c (bc_hashCache b) b) (Validate utxoView scriptFlags items);;
  modify (fun b => set_script_caches (bc_sigCache b) (purge segwitActive (b_Transactions block) (bc_hashCache b)) b).
End chain.
