(* ===== verification/Validator.v ===== *)
(** The goroutines of script validation (src/blockchain/scriptval.go).  [Validate] hands the
    items to a number of workers over an unbuffered channel and collects their results over
    another; a third channel is closed to stop the workers.  The scheduler may take the
    steps of the goroutines in any order: every order ends, no goroutine is left behind,
    and the result is that of checking the items one after the other. *)

From stdpp Require Import gmap relations.
From S2P Require Import Prelude TxScriptErr Params Opcode Sha Wire MsgTx SigHash ScriptUtil Btcec SigCache Engine Execute EngineProps Simulation CacheProps ChainParams Block Compress RuleErr TxRules Difficulty BlockIndex ThresholdState ChainIO UtxoView Election Validate ChainState.

(** What the goroutines need of the check of an item: with a sound cache it gives the
    verdict of the item and leaves the cache sound. *)
Class Checks {Item Cache : Type} (items : list Item) (check : Item -> Cache -> option ruleerr -> Cache -> Prop)
    (verdict : Item -> option ruleerr) (sound : Cache -> Prop) : Prop := {
  check_sound : forall item c r c', item ∈ items -> sound c -> check item c r c' -> r = verdict item /\ sound c';
  check_total : forall item c, item ∈ items -> sound c -> exists r c', check item c r c'
}.

(** * The goroutines *)

Section workers.
Context {Item Cache : Type}.

(** A worker waits for an item, checks it, offers the result, or has returned.  [None] is
    the result nil. *)
Inductive worker : Type := Idle | Busy (item : Item) | Sending (result : option ruleerr) | Exited.

(** The caller: the numbers of items sent and of results received, or the value it
    returned. *)
Inductive caller : Type := Sends (currentItem processedItems : nat) | Returned (result : option ruleerr).

Record vstate : Type := mkVstate {
  vs_caller : caller;
  vs_workers : list worker;
  vs_quit : bool;
  vs_cache : Cache
}.

Context (items : list Item) (check : Item -> Cache -> option ruleerr -> Cache -> Prop).

(** After its result was taken, or dropped because the quit channel is closed, a worker
    goes on after nil and returns after an error. *)
Definition after (result : option ruleerr) : worker := match result with None => Idle | Some _ => Exited end.

Definition received (cur pr : nat) (result : option ruleerr) : caller :=
  match result with None => Sends cur (S pr) | Some e => Returned (Some e) end.

Definition is_error (result : option ruleerr) : bool := match result with None => false | Some _ => true end.

Inductive step : vstate -> vstate -> Prop :=
| step_send cur pr ws q c k item :
    (pr < length items)%nat -> items !! cur = Some item -> ws !! k = Some Idle ->
    step (mkVstate (Sends cur pr) ws q c) (mkVstate (Sends (S cur) pr) (<[k := Busy item]> ws) q c)
| step_check m ws q c k item r c' :
    ws !! k = Some (Busy item) -> check item c r c' ->
    step (mkVstate m ws q c) (mkVstate m (<[k := Sending r]> ws) q c')
| step_result cur pr ws q c k r :
    (pr < length items)%nat -> ws !! k = Some (Sending r) ->
    step (mkVstate (Sends cur pr) ws q c) (mkVstate (received cur pr r) (<[k := after r]> ws) (q || is_error r) c)
| step_finish cur pr ws q c :
    (length items <= pr)%nat -> step (mkVstate (Sends cur pr) ws q c) (mkVstate (Returned None) ws true c)
| step_quit_idle m ws c k : ws !! k = Some Idle -> step (mkVstate m ws true c) (mkVstate m (<[k := Exited]> ws) true c)
| step_quit_sending m ws c k r : ws !! k = Some (Sending r) -> step (mkVstate m ws true c) (mkVstate m (<[k := after r]> ws) true c).

(** Three workers for each processor, but at least one and no more than items; nothing is
    started without items. *)
Definition maxGoRoutines (numCPU : nat) : nat := Nat.min (Nat.max 1 (3 * numCPU)) (length items).

Definition start (numCPU : nat) (c : Cache) : vstate :=
  match items with
  | [] => mkVstate (Returned None) [] false c
  | _ => mkVstate (Sends 0 0) (repeat Idle (maxGoRoutines numCPU)) false c
  end.

(** * Invariant *)

Context (verdict : Item -> option ruleerr) (sound : Cache -> Prop).
Context `{!Checks items check verdict sound}.

(** The verdicts that are on their way. *)
Definition flight (w : worker) : list (option ruleerr) :=
  match w with Busy item => [verdict item] | Sending r => [r] | _ => [] end.
Definition flights (ws : list worker) : list (option ruleerr) := concat (map flight ws).

Definition caller_inv (m : caller) (ws : list worker) (q : bool) : Prop :=
  match m with
  | Sends cur pr => (cur <= length items)%nat /\ q = false /\ ws <> [] /\ (Exited ∉ ws) /\
      map verdict (take cur items) ≡ₚ (repeat None pr ++ flights ws)
  | Returned r => (q = true \/ ws = []) /\
      match r with None => Forall (fun item => verdict item = None) items | Some e => exists item, item ∈ items /\ verdict item = Some e end
  end.

Definition inv (s : vstate) : Prop :=
  caller_inv (vs_caller s) (vs_workers s) (vs_quit s) /\ sound (vs_cache s) /\ (forall item, Busy item ∈ vs_workers s -> item ∈ items).

Lemma set_worker ws k w (w' : worker) : ws !! k = Some w -> exists l1 l2, ws = l1 ++ w :: l2 /\ <[k := w']> ws = l1 ++ w' :: l2.
Proof.
  intros Hk. exists (take k ws), (drop (S k) ws). split; [by rewrite take_drop_middle|].
  apply insert_take_drop. by eapply lookup_lt_Some.
Qed.

Lemma flights_mid l1 w l2 : flights (l1 ++ w :: l2) ≡ₚ (flight w ++ flights (l1 ++ l2)).
Proof. unfold flights. rewrite !map_app, !concat_app. cbn [map concat]. rewrite !app_assoc. apply Permutation_app_tail, Permutation_app_comm. Qed.

Lemma mid_elem {A} (x y z : A) l1 l2 : x ∈ l1 ++ y :: l2 -> x = y \/ x ∈ l1 ++ z :: l2.
Proof. rewrite !elem_of_app, !elem_of_cons. tauto. Qed.

Lemma inv_start numCPU c : sound c -> inv (start numCPU c).
Proof.
  intros Hc. unfold start, inv. destruct items as [|i l] eqn:Ei; cbn [vs_caller vs_workers vs_quit vs_cache caller_inv].
  { split; [split; [by right|rewrite Ei; constructor]|]. split; [done|]. intros x Hx. by apply elem_of_nil in Hx. }
  assert (maxGoRoutines numCPU <> 0%nat) as Hn by (unfold maxGoRoutines; rewrite Ei; cbn [length]; lia).
  assert (forall w, w ∈ repeat Idle (maxGoRoutines numCPU) -> w = Idle) as Hall by (intros w Hw; apply list_elem_of_In in Hw; by eapply repeat_spec).
  split; [|split; [done|intros x Hx; by apply Hall in Hx]]. split; [lia|]. split; [done|]. split; [by destruct (maxGoRoutines numCPU)|].
  split; [intros Hx; by apply Hall in Hx|]. cbn [take map repeat app]. induction (maxGoRoutines numCPU) as [|k IH]; [done|].
  destruct k; [done|]. apply IH; [done|]. intros w Hw. apply Hall. cbn [repeat]. apply elem_of_cons. by right.
Qed.

Lemma inv_step s s' : inv s -> step s s' -> inv s'.
Proof.
  intros (Hm & Hc & Hb) Hstep. destruct Hstep as [cur pr ws q c k item Hpr Hi Hk|m ws q c k item r c' Hk Hch|cur pr ws q c k r Hpr Hk|cur pr ws q c Hpr|m ws c k Hk|m ws c k r Hk];
    unfold inv; cbn [vs_caller vs_workers vs_quit vs_cache] in *.
  - destruct Hm as (Hcur & Hq & Hne & Hex & Hperm). destruct (set_worker ws k Idle (Busy item) Hk) as (l1 & l2 & -> & ->). pose proof (lookup_lt_Some _ _ _ Hi). split; [|split; [done|]].
    + split; [lia|]. split; [done|]. split; [by destruct l1|]. split; [intros [?|Hx]%(mid_elem _ _ Idle); done|].
      rewrite (take_S_r items cur item Hi), map_app. cbn [map]. rewrite Hperm, !flights_mid. cbn [flight app]. rewrite <- app_assoc, (Permutation_app_comm (flights _)). done.
    + intros x [Hx|Hx]%(mid_elem _ _ Idle); [|by apply Hb]. injection Hx as ->. by eapply list_elem_of_lookup_2.
  - destruct (check_sound item c r c') as [-> Hc']; [apply Hb; by eapply list_elem_of_lookup_2|done|done|]. destruct (set_worker ws k (Busy item) (Sending (verdict item)) Hk) as (l1 & l2 & -> & ->).
    split; [|split; [done|]].
    + destruct m as [cur pr|r]; cbn [caller_inv] in *; [|destruct Hm as [[Hq|Hn] ?]; [by split; [left|]|by destruct l1]].
      destruct Hm as (Hcur & Hq & Hne & Hex & Hperm). split; [lia|]. split; [done|]. split; [by destruct l1|]. split; [intros [?|Hx]%(mid_elem _ _ (Busy item)); done|].
      rewrite Hperm, !flights_mid. done.
    + intros x [Hx|Hx]%(mid_elem _ _ (Busy item)); [done|by apply Hb].
  - destruct Hm as (Hcur & Hq & Hne & Hex & Hperm). destruct (set_worker ws k (Sending r) (after r) Hk) as (l1 & l2 & -> & ->). split; [|split; [done|]].
    + destruct r as [e|]; cbn [received after is_error caller_inv].
      * split; [left; apply orb_true_r|]. assert (Some e ∈ map verdict (take cur items)) as Hin.
        { rewrite Hperm, flights_mid. cbn [flight]. rewrite !elem_of_app, list_elem_of_singleton. tauto. }
        apply list_elem_of_fmap in Hin as (x & Hx & Hin). exists x. split; [|done]. by eapply subseteq_take.
      * split; [lia|]. split; [by rewrite Hq|]. split; [by destruct l1|]. split; [intros [?|Hx]%(mid_elem _ _ (Sending None)); done|].
        rewrite Hperm, !flights_mid. cbn [flight app repeat]. by rewrite <- Permutation_middle.
    + intros x [Hx|Hx]%(mid_elem _ _ (Sending r)); [by destruct r|by apply Hb].
  - destruct Hm as (Hcur & Hq & Hne & Hex & Hperm). split; [|done]. split; [by left|].
    pose proof (Permutation_length Hperm) as Hlen. rewrite length_map, length_take, length_app, repeat_length in Hlen.
    assert (flights ws = [] /\ cur = length items) as [Ef ->] by (split; [apply nil_length_inv; lia|lia]). rewrite Ef, app_nil_r, firstn_all in Hperm.
    apply Forall_forall. intros x Hx. assert (verdict x ∈ repeat (None (A := ruleerr)) pr) as Hin by (rewrite <- Hperm; apply list_elem_of_fmap; exists x; split; [done|by apply list_elem_of_In]).
    apply list_elem_of_In in Hin. by apply repeat_spec in Hin.
  - destruct (set_worker ws k Idle Exited Hk) as (l1 & l2 & -> & ->). split; [|split; [done|intros x [Hx|Hx]%(mid_elem _ _ Idle); [done|by apply Hb]]].
    destruct m as [cur pr|r]; cbn [caller_inv] in *; [by destruct Hm as (_ & ? & _)|split; [by left|apply Hm]].
  - destruct (set_worker ws k (Sending r) (after r) Hk) as (l1 & l2 & -> & ->). split; [|split; [done|intros x [Hx|Hx]%(mid_elem _ _ (Sending r)); [by destruct r|by apply Hb]]].
    destruct m as [cur pr|r']; cbn [caller_inv] in *; [by destruct Hm as (_ & ? & _)|split; [by left|apply Hm]].
Qed.

Lemma inv_reachable s s' : inv s -> rtc step s s' -> inv s'.
Proof. intros Hi. induction 1 as [|s1 s2 s3 Hstep _ IH]; [done|]. by apply IH, (inv_step s1). Qed.

(** * Progress *)

Lemma worker_kind ws : (exists k item, ws !! k = Some (Busy item)) \/ (exists k r, ws !! k = Some (Sending r)) \/
  (exists k, ws !! k = Some Idle) /\ flights ws = [] \/ Forall (eq Exited) ws.
Proof.
  induction ws as [|w ws IH]; [right; right; right; constructor|]. destruct w as [|item|r|].
  - destruct IH as [(k & i & H)|[(k & r & H)|[[_ Hf]|Hall]]]; [left; by exists (S k), i|right; left; by exists (S k), r|right; right; left..]; (split; [by exists 0%nat|]); [done|].
    clear -Hall. induction Hall as [|w l <- _ IH]; [done|exact IH].
  - left. by exists 0%nat, item.
  - right. left. by exists 0%nat, r.
  - destruct IH as [(k & i & H)|[(k & r & H)|[[[k H] Hf]|Hall]]]; [left; by exists (S k), i|right; left; by exists (S k), r|right; right; left|right; right; right].
    + split; [by exists (S k)|done].
    + by constructor.
Qed.

(** A state without a step is one in which the call has returned and no worker is left. *)
Lemma inv_progress s : inv s -> (exists s', step s s') \/ exists r, vs_caller s = Returned r /\ Forall (eq Exited) (vs_workers s).
Proof.
  destruct s as [m ws q c]. intros (Hm & Hc & Hb). cbn [vs_caller vs_workers vs_quit vs_cache] in *.
  destruct (worker_kind ws) as [(k & item & Hk)|[(k & r & Hk)|[[[k Hk] Hf]|Hall]]].
  - left. destruct (check_total item c) as (r & c' & Hch); [apply Hb; by eapply list_elem_of_lookup_2|done|]. eexists. by eapply step_check.
  - left. destruct m as [cur pr|r']; cbn [caller_inv] in Hm.
    + destruct (Nat.lt_ge_cases pr (length items)); eexists; [by eapply step_result|by eapply step_finish].
    + destruct Hm as [[-> | ->] _]; [|done]. eexists. by eapply step_quit_sending.
  - left. destruct m as [cur pr|r']; cbn [caller_inv] in Hm.
    + destruct Hm as (Hcur & _ & _ & _ & Hperm). destruct (Nat.lt_ge_cases pr (length items)) as [Hlt|]; [|eexists; by eapply step_finish].
      apply Permutation_length in Hperm. rewrite Hf, length_map, length_take, length_app, repeat_length in Hperm. cbn [length] in Hperm.
      destruct (lookup_lt_is_Some_2 items cur) as [item Hi]; [lia|]. eexists. by eapply step_send.
    + destruct Hm as [[-> | ->] _]; [|done]. eexists. by eapply step_quit_idle.
  - destruct m as [cur pr|r]; cbn [caller_inv] in Hm; [|right; by exists r]. exfalso. destruct Hm as (_ & _ & Hne & Hex & _).
    destruct Hall as [|w ws <- _]; [done|]. apply Hex, elem_of_cons. by left.
Qed.

(** * Termination *)

Definition worker_weight (w : worker) : nat := match w with Idle => 1 | Busy _ => 4 | Sending _ => 3 | Exited => 0 end.
Definition weights (ws : list worker) : nat := list_sum (map worker_weight ws).
Definition caller_weight (m : caller) : nat := match m with Sends cur _ => 4 * (length items - cur) + 1 | Returned _ => 0 end.
Definition measure (s : vstate) : nat := caller_weight (vs_caller s) + weights (vs_workers s).

Lemma weights_set ws k w w' : ws !! k = Some w -> (weights (<[k := w']> ws) + worker_weight w = weights ws + worker_weight w')%nat.
Proof.
  intros Hk. destruct (set_worker ws k w w' Hk) as (l1 & l2 & -> & ->). unfold weights. rewrite !map_app, !list_sum_app. cbn [map list_sum foldr].
  unfold list_sum. lia.
Qed.

Lemma step_measure s s' : step s s' -> (measure s' < measure s)%nat.
Proof.
  intros Hstep. destruct Hstep as [cur pr ws q c k item Hpr Hi Hk|m ws q c k item r c' Hk Hch|cur pr ws q c k r Hpr Hk|cur pr ws q c Hpr|m ws c k Hk|m ws c k r Hk];
    unfold measure; cbn [vs_caller vs_workers caller_weight].
  - pose proof (lookup_lt_Some _ _ _ Hi). pose proof (weights_set ws k Idle (Busy item) Hk) as E. cbn [worker_weight] in E. lia.
  - pose proof (weights_set ws k (Busy item) (Sending r) Hk) as E. cbn [worker_weight] in E. lia.
  - pose proof (weights_set ws k (Sending r) (after r) Hk) as E. destruct r; cbn [worker_weight after received caller_weight] in *; lia.
  - lia.
  - pose proof (weights_set ws k Idle Exited Hk) as E. cbn [worker_weight] in E. lia.
  - pose proof (weights_set ws k (Sending r) (after r) Hk) as E. destruct r; cbn [worker_weight after] in *; lia.
Qed.

Lemma steps_bounded s s' k : nsteps step k s s' -> (k + measure s' <= measure s)%nat.
Proof. induction 1 as [|k s1 s2 s3 Hstep _ IH]; [lia|]. pose proof (step_measure _ _ Hstep). lia. Qed.

Lemma measure_start numCPU c : (measure (start numCPU c) <= 5 * length items + 1)%nat.
Proof.
  unfold start, measure. destruct items as [|i l] eqn:Ei; [cbn; lia|]. cbn [vs_caller vs_workers caller_weight].
  assert (weights (repeat Idle (maxGoRoutines numCPU)) = maxGoRoutines numCPU) as -> by (unfold weights; induction (maxGoRoutines numCPU) as [|k IH]; [done|cbn; f_equal; exact IH]).
  unfold maxGoRoutines. rewrite Ei. lia.
Qed.
End workers.

(** * Script validation *)

Section scripts.
Context `{Crypto} `{MapOrder} (view : UtxoViewpoint) (flags : Z).

Definition result_of (m : outcome ruleerr ()) : option (option ruleerr) :=
  match m with Ret _ => Some None | Throw e => Some (Some e) | Panic => None end.

(** A worker checks an item with the shared signature cache. *)
Definition item_check (item : txValidateItem) (c : option SigCache) (r : option ruleerr) (c' : option SigCache) : Prop :=
  result_of (validate_item view flags item c).1 = Some r /\ (validate_item view flags item c).2 = c'.

Definition item_verdict (item : txValidateItem) : option ruleerr := default None (result_of (validate_item view flags item None).1).

Definition item_ok (item : txValidateItem) : Prop := Forall (fun ti => len (witness ti) <= maxWitnessItemsPerInput) (tx_TxIn (it_tx item)).

(** With a sound cache an item gets the verdict it gets without one, and the cache stays
    sound. *)
Lemma validate_item_cached item c : cache_sound c ->
  (validate_item view flags item c).1 = (validate_item view flags item None).1 /\ cache_sound (validate_item view flags item c).2.
Proof.
  intros Hs. destruct c as [s|]; [|split; [done|]].
  - unfold validate_item. destruct (LookupEntry view _) as [utxo|]; [|done].
    pose proof (NewEngine_cache (ue_pkScript utxo) (it_tx item) (it_txInIndex item) flags s (it_sigHashes item) (ue_amount utxo)) as Hn.
    destruct (NewEngine _ _ _ _ (Some s) _ _) as [vm1|e1|], (NewEngine _ _ _ _ None _ _) as [vm2|e2|]; try done. destruct Hn as [Hc ->].
    pose proof (cached_Execute vm1 (set_sigCache None vm1)) as Hsim. specialize (Hsim ltac:(split; [by rewrite Hc|done])). unfold sim in Hsim.
    destruct (Execute vm1) as [[[]|e|] v1], (Execute (set_sigCache None vm1)) as [[[]|e'|] v2]; try done; cbn [fst snd]; split; try done.
    + by destruct Hsim as [_ []].
    + by destruct Hsim as [_ []].
    + by destruct Hsim.
  - unfold validate_item. destruct (LookupEntry view _) as [utxo|]; [|done].
    pose proof (NewEngine_cache (ue_pkScript utxo) (it_tx item) (it_txInIndex item) flags (NewSigCache 0) (it_sigHashes item) (ue_amount utxo)) as Hn.
    destruct (NewEngine _ _ _ _ None _ _) as [vm|e|]; [|done..]. destruct (NewEngine _ _ _ _ (Some _) _ _) as [vm1|e|]; [|done..]. destruct Hn as [_ ->].
    set (vm := set_sigCache None vm1). pose proof (cached_Execute vm vm ltac:(done)) as Hsim. unfold sim in Hsim.
    destruct (Execute vm) as [[[]|e|] v1]; cbn [snd]; [destruct Hsim as [_ []]|destruct Hsim as [_ []]|destruct Hsim]; done.
Qed.

Lemma validate_item_total item c : item_ok item -> exists r, result_of (validate_item view flags item c).1 = Some r.
Proof.
  intros Hok. unfold validate_item. destruct (LookupEntry view _) as [utxo|]; [|by eexists].
  pose proof (Execute_safe (ue_pkScript utxo) (it_tx item) (it_txInIndex item) flags c (it_sigHashes item) (ue_amount utxo) Hok) as He.
  destruct (NewEngine _ _ _ _ c _ _) as [vm|e|]; [|by eexists|done]. destruct He as [vm' [-> |[e ->]]]; by eexists.
Qed.

Lemma item_check_sound item c r c' : cache_sound c -> item_check item c r c' -> r = item_verdict item /\ cache_sound c'.
Proof.
  intros Hc [Hr <-]. destruct (validate_item_cached item c Hc) as [E Hs]. split; [|done]. unfold item_verdict. rewrite <- E, Hr. done.
Qed.

#[export] Instance item_checks items : Forall item_ok items -> Checks items item_check item_verdict cache_sound.
Proof.
  intros Hok. split; [intros item c r c' _; apply item_check_sound|]. intros item c Hin _. rewrite Forall_forall in Hok.
  destruct (validate_item_total item c (Hok item ltac:(by apply list_elem_of_In))) as [r Hr]. by exists r, (validate_item view flags item c).2.
Qed.

(** One worker that takes the items in order. *)
Lemma Validate_verdicts items : forall c, cache_sound c -> Forall item_ok items ->
  (Validate view flags items c).1 = Ret () <-> Forall (fun item => item_verdict item = None) items.
Proof.
  induction items as [|item items IH]; intros c Hc Hok; cbn [Validate]; [split; [constructor|done]|].
  pose proof (List.Forall_inv Hok) as Hi. pose proof (List.Forall_inv_tail Hok) as Hl. destruct (validate_item_cached item c Hc) as [E Hs].
  destruct (validate_item_total item None Hi) as [r Hr]. rewrite list.Forall_cons. unfold item_verdict at 1. rewrite Hr. cbn [default].
  unfold mbind, St_bind. destruct (validate_item view flags item c) as [[[]|e|] c']; cbn [fst snd] in *; rewrite <- E in Hr; cbn in Hr; [injection Hr as <-..|done].
  - rewrite IH by done. tauto.
  - split; [done|]. intros [? _]. done.
Qed.

(** C11: script validation with goroutines.  For any number of processors and any order in
    which the scheduler takes the steps of the goroutines: there are at most five steps for
    each item and one more, a state without a step is one in which the call has returned
    and every worker has returned, and the call returns nil exactly when checking the items
    one after the other succeeds; an error that it returns is the one of some item.  The
    shared signature cache holds only signatures that verify throughout. *)
Theorem parallel_validation (items : list txValidateItem) numCPU c s k :
  cache_sound c -> Forall item_ok items -> nsteps (step items item_check) k (start items numCPU c) s ->
  (k <= 5 * length items + 1)%nat /\
  ((exists s', step items item_check s s') \/ exists r, vs_caller s = Returned r /\ Forall (eq Exited) (vs_workers s)) /\
  (forall r, vs_caller s = Returned r ->
     (r = None <-> (Validate view flags items c).1 = Ret ()) /\
     (forall e, r = Some e -> exists item, item ∈ items /\ (validate_item view flags item None).1 = Throw e)) /\
  cache_sound (vs_cache s).
Proof.
  intros Hc Hok Hsteps. pose proof (item_checks items Hok). assert (inv items item_verdict cache_sound s) as Hinv.
  { apply (inv_reachable items item_check item_verdict cache_sound) with (start items numCPU c); [by apply (inv_start items item_check)|].
    apply rtc_nsteps. by exists k. }
  pose proof (steps_bounded items item_check _ _ _ Hsteps) as Hb. pose proof (measure_start items item_check item_verdict cache_sound numCPU c). split; [lia|]. split; [|split; [|apply Hinv]].
  - exact (inv_progress items item_check item_verdict cache_sound s Hinv).
  - intros r Hr. destruct Hinv as [Hm _]. rewrite Hr in Hm. destruct Hm as [_ Hm]. rewrite (Validate_verdicts items c Hc Hok). destruct r as [e|].
    + destruct Hm as (item & Hin & Hv). split.
      * split; [done|]. intros Hall. rewrite Forall_forall in Hall. rewrite (Hall item) in Hv by (by apply list_elem_of_In). done.
      * intros e' [= <-]. exists item. split; [done|]. unfold item_verdict in Hv. destruct (validate_item view flags item None) as [[[]|e'|] c']; cbn in *; congruence.
    + split; [done|]. intros e He. done.
Qed.
End scripts.

(** * An instance *)

#[local] Existing Instances sample_crypto map_to_list_order.

Definition sample_output : OutPoint := mkOutPoint (repeat Byte.x01 32) 0.
Definition sample_view : UtxoViewpoint := set_entry sample_output (Some (mkUtxo 5000 [Byte.x51] 1 0)) NewUtxoViewpoint.
Definition sample_spend : MsgTx := mkMsgTx 1 [mkTxIn sample_output [] None 0] [mkTxOut 4000 [Byte.x51]] 0 [].
Definition sample_items : list txValidateItem := tx_items sample_spend None 0 (tx_TxIn sample_spend).

Lemma parallel_validation_witness : exists s,
  nsteps (step sample_items (item_check sample_view 0)) 5 (start sample_items 4 None) s /\ vs_caller s = Returned None /\
  (Validate sample_view 0 sample_items None).1 = Ret ().
Proof.
  assert (nsteps (step sample_items (item_check sample_view 0)) 5 (start sample_items 4 None) (mkVstate (Returned None) [Exited] true None)) as Hs.
  { eapply nsteps_l; [apply (step_send _ _ 0 0 [Idle] false None 0 (mkItem 0 (mkTxIn sample_output [] None 0) sample_spend None)); [apply Nat.ltb_lt; reflexivity|reflexivity|reflexivity]|]. cbn [insert list_insert].
    eapply nsteps_l; [apply (step_check _ _ (Sends 1 0) _ false None 0 (mkItem 0 (mkTxIn sample_output [] None 0) sample_spend None) None None); [reflexivity|split; vm_compute; reflexivity]|]. cbn [insert list_insert].
    eapply nsteps_l; [apply (step_result _ _ 1 0 _ false None 0 None); [apply Nat.ltb_lt; reflexivity|reflexivity]|]. cbn [insert list_insert received after is_error orb].
    eapply nsteps_l; [apply (step_finish _ _ 1 1); apply Nat.leb_le; reflexivity|]. eapply nsteps_l; [apply (step_quit_idle _ _ (Returned None) _ None 0); reflexivity|]. apply nsteps_O. }
  eexists. split; [exact Hs|]. split; [reflexivity|].
  assert (Forall item_ok sample_items) as Hok by (apply List.Forall_cons; [apply List.Forall_cons; [vm_compute; congruence|apply List.Forall_nil]|apply List.Forall_nil]).
  destruct (parallel_validation sample_view 0 sample_items 4 None _ 5 I Hok Hs) as (_ & _ & Hr & _). apply (Hr None eq_refl). reflexivity.
Defined.
