(* ===== verification/Connect.v ===== *)
(** The rules for a block at its place in the chain (src/blockchain/validate.go): the
    header and the block against the previous block, and the connection of the block to
    a view of the unspent outputs. *)

From stdpp Require Import gmap.
From S2P Require Import Prelude TxScriptErr Params Opcode Sha Wire MsgTx SigHash ScriptUtil Btcec SigCache Engine Execute ChainParams Block MoneySupply Compress RuleErr TxRules Merkle Difficulty BlockIndex ThresholdState ChainIO UtxoView Election Validate ChainState.

Definition block91842Hash : bytes := newHashFromStr 0x00000000000a4d0a398161ffc163c503763b1f4360639393e0e4c8e300e0caec.
Definition block91880Hash : bytes := newHashFromStr 0x00000000000743f190a18c5577a3c2d2a1f610ae9601ac046a38084ccb7cd721.

Definition isBIP0030Node (node : blockNode) : bool :=
  ((height node =? 91842) && bytes_eqb (n_hash node) block91842Hash) ||
  ((height node =? 91880) && bytes_eqb (n_hash node) block91880Hash).

(** [params.Bip16Activation], in seconds. *)
Definition Bip16Activation : Z := 1333238400.

Section connect.
Context `{GlobalConf} `{Crypto} `{MapOrder}.
Context (chainParams : Params) (checkpoints : list Checkpoint) (range : election -> list electionCandidate).

(** * The position in the chain *)

Definition too_old_version (version blockHeight : Z) : bool :=
  ((version <? 2) && (BIP0034Height chainParams <=? blockHeight)) ||
  ((version <? 3) && (BIP0066Height chainParams <=? blockHeight)) ||
  ((version <? 4) && (BIP0065Height chainParams <=? blockHeight)).

Definition checkBlockHeaderContext (header : BlockHeader) (prevNode : blockNode) (flags : Z) : BC () :=
  let fastAdd := flags &&& BFFastAdd =? BFFastAdd in
  (if fastAdd then mret () else
   expectedDifficulty ← lift (calcNextRequiredDifficulty chainParams (Some prevNode) (bh_Timestamp header));
   if negb (bh_Bits header =? expectedDifficulty) then mthrow ErrUnexpectedDifficulty else
   medianTime ← lift (CalcPastMedianTime prevNode);
   if bh_Timestamp header <=? medianTime then mthrow ErrTimeTooOld else mret ());;
  let blockHeight := int32 (height prevNode + 1) in
  if negb (verifyCheckpoint checkpoints blockHeight (BlockHash header)) then mthrow ErrBadCheckpoint else
  checkpointNode ← findPreviousCheckpoint checkpoints;
  match checkpointNode with
  | Some c => if blockHeight <? height c then mthrow ErrForkTooOld else mret ()
  | None => mret ()
  end;;
  if too_old_version (bh_Version header) blockHeight then mthrow ErrBlockVersionTooOld else mret ().

Definition checkBlockContext (block : BtcBlock) (prevNode : blockNode) (flags : Z) : BC () :=
  let header := mb_Header (b_MsgBlock block) in
  checkBlockHeaderContext header prevNode flags;;
  if flags &&& BFFastAdd =? BFFastAdd then mret () else
  csvState ← on_caches (deploymentState chainParams (Some prevNode) DeploymentCSV);
  blockTime ← (if bool_decide (csvState = ThresholdActive) then lift (CalcPastMedianTime prevNode) else mret (bh_Timestamp header));
  let blockHeight := int32 (height prevNode + 1) in
  if negb (forallb (fun tx => IsFinalizedTransaction tx blockHeight blockTime) (b_Transactions block)) then mthrow ErrUnfinalizedTx else
  (if ShouldHaveSerializedBlockHeight header && (BIP0034Height chainParams <=? blockHeight) then
     coinbaseTx ← lift (or_panic (index (b_Transactions block) 0));
     lift (checkSerializedHeight coinbaseTx blockHeight)
   else mret ());;
  segwitState ← on_caches (deploymentState chainParams (Some prevNode) DeploymentSegwit);
  if bool_decide (segwitState = ThresholdActive) then
    lift (ValidateWitnessCommitment (b_Transactions block));;
    if MaxBlockWeight <? GetBlockWeight (b_MsgBlock block) then mthrow ErrBlockWeightTooHigh else mret ()
  else mret ().

(** * Connection *)

(** The outpoints of the transactions of a block. *)
Definition block_outpoints (txs : list MsgTx) : list OutPoint :=
  tx ← txs; imap (fun i _ => mkOutPoint (TxHash tx) (uint32 (Z.of_nat i))) (tx_TxOut tx).

Definition checkBIP0030 (db : Bucket) (block : BtcBlock) : View () :=
  let fetchSet := elements (list_to_set (C := gset OutPoint) (block_outpoints (b_Transactions block))) in
  fetchUtxos db fetchSet;;
  view ← gets id;
  if existsb (fun outpoint => match available view outpoint with Some _ => true | None => false end) fetchSet
  then mthrow ErrOverwriteTx else mret ().

(** The cost of the signature operations; the first transaction counts as the coinbase. *)
Fixpoint sigop_cost (txs : list MsgTx) (first : bool) (view : UtxoViewpoint) (enforceBIP0016 enforceSegWit : bool) (totalSigOpCost : Z) :
    outcome ruleerr Z :=
  match txs with
  | [] => mret totalSigOpCost
  | tx :: txs' =>
    cost ← GetSigOpCost tx first view enforceBIP0016 enforceSegWit;
    let total := int64 (totalSigOpCost + cost) in
    if (total <? totalSigOpCost) || (MaxBlockSigOpsCost <? total) then mthrow ErrTooManySigOps
    else sigop_cost txs' false view enforceBIP0016 enforceSegWit total
  end.

(** The fees, the transactions being connected to the view one after the other. *)
Fixpoint connect_txs (txs : list MsgTx) (blockHeight : Z) (totalFees : Z) (stxos : option (list SpentTxOut)) :
    View (Z * option (list SpentTxOut)) :=
  match txs with
  | [] => mret (totalFees, stxos)
  | tx :: txs' =>
    view ← gets id;
    txFee ← lift (CheckTransactionInputs tx blockHeight view chainParams);
    let total := int64 (totalFees + txFee) in
    if total <? totalFees then mthrow ErrBadFees else
    stxos ← connectTransaction tx blockHeight stxos;
    connect_txs txs' blockHeight total stxos
  end.

Definition pays_steward (steward : bytes) (expectedTax : Z) (outs : list TxOut) : bool :=
  existsb (fun txOut => bytes_eqb (to_PkScript txOut) steward && (to_Value txOut =? expectedTax)) outs.

(** The value of the coinbase and the payment to the network steward. *)
Definition check_coinbase (coinbase : MsgTx) (blockHeight totalFees : Z) (oldEs : ElectionState) : outcome ruleerr () :=
  let totalSatoshiOut := output_amount (tx_TxOut coinbase) in
  let subsidy := CalcBlockSubsidy blockHeight chainParams in
  let expectedSatoshiOut := int64 (subsidy + totalFees) in
  if expectedSatoshiOut <? totalSatoshiOut then mthrow ErrBadCoinbaseValue else
  if HasNetworkSteward && negb (pays_steward (es_NetworkSteward oldEs) (PktCalcNetworkStewardPayout subsidy) (tx_TxOut coinbase))
  then mthrow ErrBadCoinbaseNetworkSteward else mret ().

Fixpoint check_locks (node : blockNode) (txs : list MsgTx) (view : UtxoViewpoint) (medianTime : Z) : BC () :=
  match txs with
  | [] => mret ()
  | tx :: txs' =>
    sequenceLock ← calcSequenceLock chainParams node tx view false;
    if negb (SequenceLockActive sequenceLock (height node) medianTime) then mthrow ErrUnfinalizedTx
    else check_locks node txs' view medianTime
  end.

(** The flags of the scripts that do not depend on the deployments. *)
Definition base_flags (enforceBIP0016 : bool) (version blockHeight : Z) : Z :=
  (if enforceBIP0016 then ScriptBip16 else 0) |||
  ((if (3 <=? version) && (BIP0066Height chainParams <=? blockHeight) then ScriptVerifyDERSignatures else 0) |||
   (if (4 <=? version) && (BIP0065Height chainParams <=? blockHeight) then ScriptVerifyCheckLockTimeVerify else 0)).

(** The new election state, the view and the spent outputs; after an error the caller
    does not use the view again. *)
Definition checkConnectBlock (node : blockNode) (block : BtcBlock) (view : UtxoViewpoint) (stxos : option (list SpentTxOut)) :
    BC (ElectionState * UtxoViewpoint * option (list SpentTxOut)) :=
  if bytes_eqb (n_hash node) (GenesisHash chainParams) then mthrow ErrMissingTxOut else
  let header := mb_Header (b_MsgBlock block) in
  if negb (bytes_eqb (bestHash view) (bh_PrevBlock header)) then mthrow AssertError else
  db ← gets (fun b => db_utxoSet (bc_db b));
  '(_, view) ← on_view (if negb (isBIP0030Node node) && (height node <? BIP0034Height chainParams)
                        then checkBIP0030 db block else mret ()) view;
  '(_, view) ← on_view (fetchInputUtxos db block) view;
  let enforceBIP0016 := Bip16Activation <=? n_timestamp node in
  segwitState ← on_caches (deploymentState chainParams (parent node) DeploymentSegwit);
  let enforceSegWit := bool_decide (segwitState = ThresholdActive) in
  let transactions := b_Transactions block in
  _ ← lift (sigop_cost transactions true view enforceBIP0016 enforceSegWit 0);
  '((totalFees, stxos), view) ← on_view (connect_txs transactions (height node) 0 stxos) view;
  oldEs ← gets (fun b => bs_Elect (bc_snapshot b));
  newEs ← lift (electionProcessBlock range oldEs db view (height node));
  coinbase ← lift (or_panic (index transactions 0));
  lift (check_coinbase coinbase (height node) totalFees oldEs);;
  checkpoint ← lift (LatestCheckpoint checkpoints);
  let runScripts := match checkpoint with Some c => cp_Height c <? height node | None => true end in
  csvState ← on_caches (deploymentState chainParams (parent node) DeploymentCSV);
  let enforceCSV := bool_decide (csvState = ThresholdActive) in
  (if enforceCSV then
     p ← lift (or_panic (parent node));
     medianTime ← lift (CalcPastMedianTime p);
     check_locks node transactions view medianTime
   else mret ());;
  let scriptFlags := base_flags enforceBIP0016 (bh_Version header) (height node)
                     ||| (if enforceCSV then ScriptVerifyCheckSequenceVerify else 0)
                     ||| (if enforceSegWit then ScriptVerifyWitness ||| ScriptStrictMultiSig else 0) in
  (if runScripts then checkBlockScripts block view scriptFlags else mret ());;
  mret (newEs, SetBestHash (n_hash node) view, stxos).

(** [adjustedTime] is the time of the chain's time source. *)
Definition CheckConnectBlockTemplate (adjustedTime : Z) (block : BtcBlock) : BC () :=
  let flags := BFNoPoWCheck in
  t ← gets (fun b => tip (bc_bestChain b));
  t ← lift (or_panic t);
  let header := mb_Header (b_MsgBlock block) in
  if negb (bytes_eqb (n_hash t) (bh_PrevBlock header)) then mthrow ErrPrevBlockNotBest else
  lift (checkBlockSanity block (PowLimit chainParams) adjustedTime flags);;
  checkBlockContext block t flags;;
  _ ← checkConnectBlock (newBlockNode header (Some t)) block (SetBestHash (n_hash t) NewUtxoViewpoint) None;
  mret ().
End connect.
