(* ===== verification/Supply.v ===== *)
(** No money from nothing: a block that [checkConnectBlock] accepts on the tip of the
    chain spends only unspent outputs, each once, and the outputs unspent after it are
    worth at most the subsidy more than before. *)

From stdpp Require Import gmap.
From S2P Require Import Prelude TxScriptErr Params Opcode Sha Wire MsgTx SigHash ScriptUtil Btcec SigCache Engine Execute EngineProps ChainParams Block MoneySupply Compress CompressProps RuleErr TxRules Merkle Difficulty BlockIndex ThresholdState ChainIO ChainIOProps MapSum UtxoView UtxoProps UtxoSet Election Validate Sane ChainState Connect.

#[local] Opaque TxHash.

(** * Sums of coins *)

Definition money (C : coins) : Z := total st_Amount C.
Definition spent_sum (C : coins) (os : list OutPoint) : Z := foldr (fun o acc => weight st_Amount (C !! o) + acc) 0 os.
Definition created_sum (l : list (OutPoint * coin)) : Z := foldr (fun p acc => st_Amount p.2 + acc) 0 l.
Definition positive (C : coins) : Prop := forall o c, C !! o = Some c -> 0 <= st_Amount c.

Lemma money_take os : NoDup os -> forall C, money (take_coins os C) = money C - spent_sum C os.
Proof.
  unfold money. induction os as [|o os IH]; intros Hnd C; cbn [take_coins foldl spent_sum foldr]; [lia|].
  apply list.NoDup_cons in Hnd as [Hn Hnd]. fold (take_coins os (delete o C)) (spent_sum C os). rewrite IH by done.
  rewrite (total_delete st_Amount C o). assert (spent_sum (delete o C) os = spent_sum C os) as ->; [|lia].
  clear IH Hnd. induction os as [|p os IH]; cbn [spent_sum foldr]; [done|]. rewrite not_elem_of_cons in Hn. fold (spent_sum (delete o C) os) (spent_sum C os).
  rewrite IH by tauto. rewrite lookup_delete_ne by tauto. done.
Qed.

Lemma money_put l : Forall (fun p => 0 <= st_Amount p.2) l -> forall C, positive C -> money (put_coins l C) <= money C + created_sum l /\ positive (put_coins l C).
Proof.
  unfold money. induction 1 as [|p l Hp _ IH]; intros C HC; cbn [put_coins foldl created_sum foldr]; [split; [lia|done]|].
  fold (put_coins l (<[p.1 := p.2]> C)) (created_sum l). destruct (IH (<[p.1 := p.2]> C)) as [Hm Hpos].
  - intros o c [[<- <-]|[_ Ho]]%lookup_insert_Some; [done|by eapply HC].
  - split; [|done]. rewrite (total_update st_Amount C p.1) in Hm. destruct (C !! p.1) as [c|] eqn:E; cbn [weight] in Hm; [pose proof (HC _ _ E)|]; lia.
Qed.

Lemma positive_take os C : positive C -> positive (take_coins os C).
Proof. intros HC o c. rewrite lookup_take_coins. destruct (decide _); [done|]. apply HC. Qed.

Section supply.
Context `{GlobalConf} `{Crypto} `{MapOrder} (Hmax : MaxUnitsI64 < 2 ^ 63) (Hpos : 0 <= MaxUnitsI64).
Context (chainParams : Params) (checkpoints : list Checkpoint) (range : election -> list electionCandidate).

Lemma created_from_sum hash outs cb h : Forall (fun o => in_range (to_Value o)) outs -> forall idx,
  Forall (fun p => 0 <= st_Amount p.2) (created_from hash idx outs cb h) /\ created_sum (created_from hash idx outs cb h) <= out_total outs.
Proof.
  unfold in_range. induction 1 as [|out outs Ho _ IH]; intros idx; cbn [created_from out_total foldr]; [split; [constructor|cbn; lia]|]. fold (out_total outs).
  destruct (IH (idx + 1)) as [Hc1 Hc2]. destruct (IsUnspendable _); cbn [app created_sum foldr]; [split; [done|unfold created_sum in Hc2; lia]|].
  fold (created_sum (created_from hash (idx + 1) outs cb h)). cbn [snd st_Amount]. split; [constructor; [cbn; lia|done]|lia].
Qed.

Lemma apply_tx_money h C tx : sane_tx tx -> positive C -> NoDup (spends tx) ->
  money (apply_tx h C tx) <= money C - spent_sum C (spends tx) + out_total (tx_TxOut tx) /\ positive (apply_tx h C tx).
Proof.
  intros Hs HC Hnd. unfold apply_tx, created. destruct (created_from_sum (TxHash tx) (tx_TxOut tx) (IsCoinBase tx) h (st_outs _ Hs) 0) as [Hf Hsum].
  destruct (money_put _ Hf (take_coins (spends tx) C) (positive_take _ _ HC)) as [Hm Hp]. rewrite money_take in Hm by done. split; [lia|done].
Qed.

(** * The inputs of a transaction *)

Lemma input_amounts_spec ins h v : forall t r, in_range t -> input_amounts ins h v chainParams t = Ret r ->
  in_range r /\ (forall o, o ∈ map ti_PreviousOutPoint ins -> is_Some (available v o)) /\
  forall C : coins, (forall o e, o ∈ map ti_PreviousOutPoint ins -> available v o = Some e -> C !! o = Some (stxo_of e)) -> r = t + spent_sum C (map ti_PreviousOutPoint ins).
Proof.
  unfold in_range. induction ins as [|i ins IH]; intros t r Ht Hr; cbn [input_amounts map] in *.
  { injection Hr as <-. split; [done|]. split; [intros o Ho; by apply elem_of_nil in Ho|]. intros C _. cbn. lia. }
  destruct (available v (ti_PreviousOutPoint i)) as [e|] eqn:Ea; [|done]. checked Hr. apply orb_false_iff in E1 as [E1 E2]. rewrite Z.ltb_ge in *.
  assert (int64 (t + ue_amount e) = t + ue_amount e) as Ew by (apply int64_add_checked; lia). rewrite Ew in *.
  apply IH in Hr as (Hb & Hav & Hsum); [|lia]. split; [done|]. split.
  - intros o [-> |Ho]%elem_of_cons; [by rewrite Ea|by apply Hav].
  - intros C HC. cbn [spent_sum foldr]. rewrite (HC _ e ltac:(apply elem_of_cons; by left) Ea). cbn [weight stxo_of st_Amount].
    fold (spent_sum C (map ti_PreviousOutPoint ins)). rewrite (Hsum C); [lia|]. intros o e' Ho. apply HC, elem_of_cons. by right.
Qed.

Lemma available_coin D P v (C : coins) o e : rep D P v C -> ~ P o -> available v o = Some e -> C !! o = Some (stxo_of e) /\ is_Some (entries v !! o).
Proof.
  intros Hrep HP Ha. unfold available, LookupEntry in Ha. destruct (entries v !! o) as [[x|]|] eqn:Ex; [|done..]. destruct (IsSpent x) eqn:Es; [done|].
  injection Ha as ->. split; [|done]. pose proof (rep_at _ _ _ _ Hrep o (rep_keys _ _ _ _ Hrep o _ Ex)) as Hat. rewrite Ex in Hat.
  rewrite (proj2 Hat HP). unfold coin_of. by rewrite Es.
Qed.

(** What the fee is. *)
Definition coinbase_value (tx : MsgTx) : Z := if IsCoinBase tx then out_total (tx_TxOut tx) else 0.

Lemma CheckTransactionInputs_spec tx h D P v C fee : sane_tx tx -> rep D P v C -> (forall o, o ∈ spends tx -> is_Some (available v o) -> ~ P o) ->
  CheckTransactionInputs tx h v chainParams = Ret fee ->
  (forall o, o ∈ spends tx -> is_Some (C !! o) /\ is_Some (entries v !! o) /\ ~ P o) /\ in_range fee /\
  fee = spent_sum C (spends tx) - out_total (tx_TxOut tx) + coinbase_value tx.
Proof.
  intros Hs Hrep HP Hf. unfold CheckTransactionInputs, coinbase_value, spends in *. destruct (IsCoinBase tx).
  { injection Hf as <-. split; [intros o Ho; by apply elem_of_nil in Ho|]. unfold in_range. cbn. lia. }
  checked Hf. apply input_amounts_spec in Hr as (Hb & Hav & Hsum); [|unfold in_range; lia].
  rewrite Z.ltb_ge in E. pose proof (st_sum _ Hs) as Hv. unfold in_range in *. rewrite output_amount_spec in * by (try apply Hs; lia). rewrite int64_small in Hf by lia.
  injection Hf as <-. assert (forall o, o ∈ map ti_PreviousOutPoint (tx_TxIn tx) -> ~ P o) as HnP by (intros o Ho; apply HP; [done|by apply Hav]).
  split; [|split; [lia|]].
  - intros o Ho. destruct (Hav o Ho) as [e He]. destruct (available_coin _ _ _ _ _ _ Hrep (HnP o Ho) He) as [-> Hi]. split; [by eexists|]. split; [exact Hi|exact (HnP o Ho)].
  - rewrite (Hsum C); [lia|]. intros o e Ho He. by apply (available_coin _ _ _ _ _ _ Hrep (HnP o Ho) He).
Qed.

(** * References forward *)

(** The inputs that refer to the transaction itself or to one that comes after it. *)
Fixpoint forward_refs (txs : list MsgTx) : list OutPoint :=
  match txs with
  | [] => []
  | tx :: txs' => filter (fun o => op_Hash o ∈ map TxHash (tx :: txs')) (spends tx) ++ forward_refs txs'
  end.

(** The view knows nothing of them. *)
Definition no_forward (txs : list MsgTx) (v : UtxoViewpoint) : Prop := forall o, o ∈ forward_refs txs -> LookupEntry v o = None.

Lemma forward_refs_hash txs o : o ∈ forward_refs txs -> op_Hash o ∈ map TxHash txs.
Proof.
  induction txs as [|tx txs IH]; intros Ho; cbn [forward_refs] in Ho; [by apply elem_of_nil in Ho|]. apply elem_of_app in Ho as [Ho|Ho].
  - by apply list_elem_of_filter in Ho as [Ho _].
  - cbn [map]. apply elem_of_cons. right. by apply IH.
Qed.

Lemma add_outs_other hash idx outs cb h v o : op_Hash o <> hash -> LookupEntry (add_outs hash idx outs cb h v) o = LookupEntry v o.
Proof.
  intros Hne. revert idx v. induction outs as [|out outs IH]; intros idx v; cbn [add_outs]; [done|]. rewrite IH. unfold addTxOut.
  destruct (IsUnspendable _); [done|]. unfold LookupEntry, set_entry. cbn [entries]. rewrite lookup_insert_ne; [done|]. by intros <-.
Qed.

Lemma spend_loop_none ins o : forall j v r v', spend_loop ins j v = (Ret r, v') -> LookupEntry v o = None -> LookupEntry v' o = None.
Proof.
  induction ins as [|i ins IH]; intros j v r v' Hr Hn; cbn [spend_loop] in Hr; [by injection Hr as _ <-|]. rewrite bind_gets in Hr.
  destruct (LookupEntry v (ti_PreviousOutPoint i)) as [e|] eqn:Ei; [|done]. apply bind_Ret_inv in Hr as ([] & v1 & Hm & Hr). injection Hm as <-.
  eapply IH; [exact Hr|]. unfold LookupEntry, set_entry in *. cbn [entries]. rewrite lookup_insert_ne; [done|]. intros <-. rewrite Ei in Hn. done.
Qed.

Lemma connectTransaction_none tx h j v r v' o : connectTransaction tx h j v = (Ret r, v') -> op_Hash o <> TxHash tx -> LookupEntry v o = None -> LookupEntry v' o = None.
Proof.
  unfold connectTransaction. intros Hr Hne Hn. destruct (IsCoinBase tx).
  - apply bind_Ret_inv in Hr as ([] & v1 & Hm & Hr). injection Hm as <-. injection Hr as _ <-. unfold AddTxOuts. by rewrite add_outs_other.
  - apply bind_Ret_inv in Hr as (a & v1 & Hm & Hr). apply bind_Ret_inv in Hr as ([] & v2 & Hm2 & Hr). injection Hm2 as <-. injection Hr as _ <-.
    unfold AddTxOuts. rewrite add_outs_other by done. by eapply spend_loop_none.
Qed.

(** * All transactions of a block *)

Definition coinbase_values (txs : list MsgTx) : Z := foldr (fun tx acc => coinbase_value tx + acc) 0 txs.

(** The coins are older than the first block and the amounts are not negative. *)
Definition coins_sane (C : coins) : Prop := positive C /\ forall o c, C !! o = Some c -> op_ok o /\ st_Height c <> 0.

Lemma apply_tx_sane h C tx : h <> 0 -> sane_tx tx -> NoDup (spends tx) -> coins_sane C -> coins_sane (apply_tx h C tx).
Proof.
  intros Hh Hs Hnd [Hp Hn]. split; [by apply apply_tx_money|]. intros o c Hc. unfold apply_tx in Hc. apply lookup_put_coins_Some in Hc as [Hin|Hc].
  - split; [apply (created_ok tx h), list_elem_of_fmap; by exists (o, c)|]. unfold created in Hin. revert Hin. generalize 0 at 1.
    induction (tx_TxOut tx) as [|out outs IH]; intros idx Hin; cbn [created_from] in Hin; [by apply elem_of_nil in Hin|]. apply elem_of_app in Hin as [Hin|Hin]; [|by eapply IH].
    destruct (IsUnspendable _); [by apply elem_of_nil in Hin|]. apply list_elem_of_singleton in Hin. by injection Hin as _ ->.
  - rewrite lookup_take_coins in Hc. destruct (decide _); [done|]. by apply Hn in Hc.
Qed.

Lemma connect_txs_run D h txs : h <> 0 -> NoDup (map TxHash txs) -> Forall sane_tx txs -> forall fees j v C r v',
  rep D (pending h txs) v C -> (forall o, op_Hash o ∈ map TxHash txs -> C !! o = None) -> no_forward txs v -> coins_sane C -> 0 <= fees < 2 ^ 63 ->
  connect_txs chainParams txs h fees (Some j) v = (Ret r, v') ->
  txs_valid h C txs /\ r.2 = Some (j ++ txs_journal h txs C) /\ rep D (fun _ => False) v' (apply_txs h txs C) /\
  0 <= r.1 < 2 ^ 63 /\ money (apply_txs h txs C) <= money C - (r.1 - fees) + coinbase_values txs /\ coins_sane (apply_txs h txs C).
Proof.
  intros Hh Hnd Hsane. induction Hsane as [|tx txs Hs Hsane IH]; intros fees j v C r v' Hrep Hfresh Hfw HC Hfees Hr; cbn [connect_txs] in Hr.
  { injection Hr as <- <-. cbn [txs_journal apply_txs foldl coinbase_values foldr fst snd txs_valid]. rewrite app_nil_r. do 2 (split; [done|]).
    split; [|split; [done|split; [lia|done]]]. eapply rep_weaken; [|exact Hrep]. intros o (t & Ht & _). by apply elem_of_nil in Ht. }
  cbn [map] in Hnd. apply list.NoDup_cons in Hnd as [Hnotin Hnd]. rewrite bind_gets in Hr. apply bind_Ret_inv in Hr as (fee & v1 & Hfee & Hr).
  destruct (CheckTransactionInputs tx h (id v) chainParams) as [f| |] eqn:Ef; try done. injection Hfee as <- <-. cbv zeta in Hr.
  destruct (_ <? _) eqn:Ew; [done|]. apply bind_Ret_inv in Hr as (stx & v1 & Hcon & Hr). apply Z.ltb_ge in Ew.
  assert (forall o, o ∈ spends tx -> is_Some (available v o) -> ~ pending h (tx :: txs) o) as HnP.
  { intros o Ho [e He] Hp%pending_hash. assert (o ∈ forward_refs (tx :: txs)) as Hf by (cbn [forward_refs]; apply elem_of_app; left; by apply list_elem_of_filter).
    unfold available in He. by rewrite (Hfw o Hf) in He. }
  destruct (CheckTransactionInputs_spec tx h D _ v C f Hs Hrep HnP Ef) as (Hins & Hfr & Efee).
  assert (NoDup (spends tx)) as Hndi by (unfold spends; destruct (IsCoinBase tx); [constructor|apply Hs]).
  assert (forall o, o ∈ spends tx -> op_ok o /\ exists c, C !! o = Some c /\ st_Height c <> 0) as Hval.
  { intros o Ho. destruct (Hins o Ho) as [[c Hc] _]. destruct (proj2 HC o c Hc). eauto. }
  destruct (connectTransaction_rep D (pending h txs) tx h j v C) as (v2 & E2 & Hr2 & _); [|done| |].
  { eapply rep_weaken; [|exact Hrep]. intros o (t & [-> |Ht]%elem_of_cons & Ho); [by right|left; by exists t]. }
  { intros o Ho. destruct (Hins o Ho) as (? & ? & Hp). do 2 (split; [done|]). intros [(t & Ht & Hx)|Hx]; apply Hp; [exists t|exists tx]; (split; [|done]); apply elem_of_cons; [by right|by left]. }
  rewrite E2 in Hcon. injection Hcon as <- <-. unfold in_range in Hfr.
  assert (int64 (fees + f) = fees + f) as Ei by (apply int64_add_checked; lia).
  pose proof (swrap_range 64 (fees + f) ltac:(lia)) as Hrange. fold (int64 (fees + f)) in Hrange. rewrite Ei in *.
  apply (IH Hnd (fees + f) _ v2 (apply_tx h C tx)) in Hr as (Hv & Ej & Hrr & Hfin & Hm & Hcs).
  - cbn [txs_valid txs_journal apply_txs foldl]. split; [done|]. split; [by rewrite Ej, app_assoc|]. split; [done|]. split; [done|]. split; [|done].
    destruct (apply_tx_money h C tx Hs (proj1 HC) Hndi) as [Hm1 _]. cbn [coinbase_values foldr]. fold (coinbase_values txs). fold (apply_txs h txs (apply_tx h C tx)). lia.
  - done.
  - intros o Ho. apply apply_tx_other; [intros Eh; rewrite Eh in Ho; done|]. apply Hfresh. cbn [map]. apply elem_of_cons. by right.
  - intros o Ho. eapply connectTransaction_none; [exact E2| |apply Hfw; cbn [forward_refs]; apply elem_of_app; by right].
    intros Eh. apply Hnotin. rewrite <- Eh. by apply forward_refs_hash.
  - by apply apply_tx_sane.
  - lia.
Qed.

(** * Loading leaves forward references empty *)

Definition entered (l : list MsgTx) (v : UtxoViewpoint) : Prop := forall o, is_Some (entries v !! o) -> op_Hash o ∈ map TxHash l.

Lemma add_outs_entered hash idx outs cb h v o : is_Some (entries (add_outs hash idx outs cb h v) !! o) -> is_Some (entries v !! o) \/ op_Hash o = hash.
Proof.
  revert idx v. induction outs as [|out outs IH]; intros idx v Hs; cbn [add_outs] in Hs; [by left|]. apply IH in Hs as [Hs|]; [|by right]. unfold addTxOut in Hs.
  destruct (IsUnspendable _); [by left|]. cbn [set_entry entries] in Hs. apply lookup_insert_is_Some in Hs as [<-|[_ Hs]]; [by right|by left].
Qed.

Lemma split_hashes txs i h : NoDup (map TxHash txs) -> h ∈ map TxHash (take i txs) -> h ∈ map TxHash (drop i txs) -> False.
Proof. intros Hnd. rewrite <- (take_drop i txs), map_app in Hnd. apply list.NoDup_app in Hnd as (_ & Hd & _). intros H1' H2'. exact (Hd h H1' H2'). Qed.

Lemma input_loop_forward txs h i ins : NoDup (map TxHash txs) -> forall needed v r v', entered (take (S i) txs) v ->
  input_loop (txInFlight txs) txs h (Z.of_nat i) ins needed v = (Ret r, v') ->
  entered (take (S i) txs) v' /\ needed ⊆ r /\ forall txIn, txIn ∈ ins -> op_Hash (ti_PreviousOutPoint txIn) ∈ map TxHash (drop (S i) txs) -> ti_PreviousOutPoint txIn ∈ r.
Proof.
  intros Hnd. induction ins as [|x ins IH]; intros needed v r v' Hent Hr; cbn [input_loop] in Hr.
  { injection Hr as <- <-. split; [done|]. split; [done|]. intros t Ht. by apply elem_of_nil in Ht. }
  cbv zeta in Hr. rewrite bind_gets in Hr. set (o := ti_PreviousOutPoint x) in *.
  assert (forall n, input_loop (txInFlight txs) txs h (Z.of_nat i) ins (if bool_decide (is_Some (entries v !! o)) then n else {[o]} ∪ n) v = (Ret r, v') -> needed = n ->
    exists n1 v1, entered (take (S i) txs) v1 /\ needed ⊆ n1 /\ (op_Hash o ∈ map TxHash (drop (S i) txs) -> o ∈ n1) /\
      input_loop (txInFlight txs) txs h (Z.of_nat i) ins n1 v1 = (Ret r, v')) as Hmiss.
  { intros n Hr' <-. eexists _, v. split; [done|]. split; [|split; [|exact Hr']].
    - destruct (bool_decide _); [done|]. apply union_subseteq_r.
    - intros Hd. case_bool_decide as Hf; [|apply elem_of_union; left; by apply elem_of_singleton]. destruct (split_hashes txs (S i) (op_Hash o)); auto. }
  assert (exists n1 v1, entered (take (S i) txs) v1 /\ needed ⊆ n1 /\ (op_Hash o ∈ map TxHash (drop (S i) txs) -> o ∈ n1) /\
      input_loop (txInFlight txs) txs h (Z.of_nat i) ins n1 v1 = (Ret r, v')) as (n1 & v1 & Hent1 & Hsub1 & Ho1 & Hr1).
  { destruct (txInFlight txs !! op_Hash o) as [z|] eqn:Ez; [|by eapply Hmiss]. destruct (Z.leb_spec z (Z.of_nat i)); [|by eapply Hmiss].
    destruct (txInFlight_from txs 0 ∅ (op_Hash o)) as [Hsome _]. destruct (Hsome z Ez) as [Hm|(j & t & Hj & Eh & ->)]; [by rewrite lookup_empty in Hm|].
    assert (op_Hash o ∈ map TxHash (take (S i) txs)) as Htake by (apply list_elem_of_fmap; exists t; split; [done|]; apply list_elem_of_lookup; exists j; rewrite lookup_take_lt by lia; done).
    apply bind_Ret_inv in Hr as (t' & v1 & Ht & Hr). rewrite index_nat in Ht by lia. rewrite Nat2Z.id in Ht. cbn [Nat.add] in Ht. rewrite Hj in Ht. injection Ht as <- <-. apply bind_Ret_inv in Hr as ([] & v1 & Hm & Hr). injection Hm as <-.
    exists needed, (AddTxOuts t h v). split; [|split; [done|split; [|exact Hr]]].
    - intros p Hp. apply add_outs_entered in Hp as [Hp|Hp]; [by apply Hent|]. by rewrite Hp, Eh.
    - intros Hd. by destruct (split_hashes txs (S i) (op_Hash o)). }
  destruct (IH n1 v1 r v' Hent1 Hr1) as (Hent2 & Hsub2 & Hall). split; [done|]. split; [by transitivity n1|].
  intros y [-> |Hy]%elem_of_cons Hd; [apply Hsub2; by apply Ho1|by apply Hall].
Qed.

Lemma collect_loop_forward txs h l : NoDup (map TxHash txs) -> forall i pre needed v r v', txs = pre ++ l -> length pre = S i -> entered pre v ->
  collect_loop (txInFlight txs) txs h (Z.of_nat i) l needed v = (Ret r, v') -> needed ⊆ r /\ forall o, o ∈ forward_refs l -> o ∈ r.
Proof.
  intros Hnd. induction l as [|tx l IH]; intros i pre needed v r v' Htxs Hpre Hent Hr; cbn [collect_loop] in Hr.
  { injection Hr as <- <-. split; [done|]. intros o Ho. by apply elem_of_nil in Ho. }
  apply bind_Ret_inv in Hr as (n1 & v1 & Hin & Hr).
  assert (take (S i) txs = pre /\ drop (S i) txs = tx :: l) as [Etake Edrop] by (rewrite Htxs, <- Hpre, take_app_length, drop_app_length; done).
  apply input_loop_forward in Hin as (Hent1 & Hsub1 & Hall); [|done|by rewrite Etake]. rewrite Etake in Hent1. rewrite Edrop in Hall.
  replace (Z.of_nat i + 1) with (Z.of_nat (S i)) in Hr by lia. destruct (IH (S i) (pre ++ [tx]) n1 v1 r v') as [Hsub2 Hall2].
  - by rewrite <- app_assoc.
  - rewrite length_app. cbn [length]. lia.
  - intros o Ho. rewrite map_app. apply elem_of_app. left. by apply Hent1.
  - exact Hr.
  - split; [by transitivity n1|]. cbn [forward_refs]. intros o [Ho|Ho]%elem_of_app; [|by apply Hall2]. apply list_elem_of_filter in Ho as [Hh Ho].
    unfold spends in Ho. destruct (IsCoinBase tx); [by apply elem_of_nil in Ho|]. apply list_elem_of_fmap in Ho as (x & -> & Hx). by apply Hsub2, Hall.
Qed.

Lemma fetchUtxosMain_none db order o : dbFetchUtxoEntry db o = Ret None -> forall v v', fetchUtxosMain db order v = (Ret (), v') ->
  o ∈ order \/ LookupEntry v o = None -> LookupEntry v' o = None.
Proof.
  intros Hdb. induction order as [|p order IH]; intros v v' Hr Ho; cbn [fetchUtxosMain] in Hr.
  { injection Hr as <-. destruct Ho as [Ho|]; [by apply elem_of_nil in Ho|done]. }
  apply bind_Ret_inv in Hr as (e & v1 & He & Hr). destruct (dbFetchUtxoEntry db p) as [e'| |] eqn:Ee; try done. injection He as <- <-.
  apply bind_Ret_inv in Hr as ([] & v1 & Hm & Hr). injection Hm as <-. apply (IH _ _ Hr). unfold LookupEntry, set_entry. cbn [entries].
  destruct (decide (o = p)) as [-> |Hne]; [right; rewrite lookup_insert_eq; congruence|]. rewrite lookup_insert_ne by done.
  destruct Ho as [[->|Ho]%elem_of_cons|Ho]; [done|by left|by right].
Qed.

Lemma fetchInputUtxos_forward db D block tx txs hash v' : db_rep db D -> b_Transactions block = tx :: txs -> IsCoinBase tx = true -> NoDup (map TxHash (tx :: txs)) ->
  inputs_ok txs -> (forall o, op_Hash o ∈ map TxHash (tx :: txs) -> D !! o = None) ->
  fetchInputUtxos db block (SetBestHash hash NewUtxoViewpoint) = (Ret (), v') -> no_forward (tx :: txs) v'.
Proof.
  intros Hdb Htxs Hcb Hnd Hok Hfresh Hr o Ho. cbn [forward_refs] in Ho. unfold spends at 1 in Ho. rewrite Hcb in Ho. cbn [filter list_filter app] in Ho.
  unfold fetchInputUtxos in Hr. rewrite Htxs in Hr. assert (slice_from (tx :: txs) 1 = Some txs) as Esl by exact (slice_from_app [tx] txs 1 eq_refl). rewrite Esl in Hr.
  cbn [or_panic] in Hr. rewrite bind_lift_Ret in Hr. apply bind_Ret_inv in Hr as (n & v1 & Hc & Hr).
  assert (entered [tx] (SetBestHash hash NewUtxoViewpoint)) as Hent.
  { intros p Hp. cbn [SetBestHash NewUtxoViewpoint entries] in Hp. rewrite lookup_empty in Hp. by destruct Hp. }
  destruct (collect_loop_forward (tx :: txs) (b_Height block) txs Hnd 0 [tx] ∅ _ n v1 eq_refl eq_refl Hent Hc) as [_ Hall].
  eapply fetchUtxosMain_none; [|exact Hr|left; by apply elem_of_elements, Hall].
  rewrite (proj1 Hdb).
  - rewrite Hfresh; [done|]. cbn [map]. apply elem_of_cons. right. by apply forward_refs_hash.
  - clear -Ho Hok. induction txs as [|t txs IH]; cbn [forward_refs] in Ho; [by apply elem_of_nil in Ho|]. apply elem_of_app in Ho as [Ho|Ho].
    + apply list_elem_of_filter in Ho as [_ Ho]. unfold spends in Ho. destruct (IsCoinBase t); [by apply elem_of_nil in Ho|]. apply list_elem_of_fmap in Ho as (x & -> & Hx).
      apply (Hok t); [apply elem_of_cons; by left|done].
    + apply IH; [|done]. intros t' x Ht. apply Hok, elem_of_cons. by right.
Qed.

(** * The block *)

Lemma on_view_Ret {A} (m : St ruleerr UtxoViewpoint A) v b r b' : on_view m v b = (Ret r, b') -> m v = (Ret r.1, r.2) /\ b' = b.
Proof. unfold on_view. destruct (m v) as [[a| |] v']; intros E; try done. by injection E as <- <-. Qed.

Lemma lift_Ret {E S A} (m : outcome E A) (s : S) r s' : lift m s = (Ret r, s') -> m = Ret r /\ s' = s.
Proof. unfold lift. destruct m; intros Hm; try done. by injection Hm as -> ->. Qed.

Lemma CalcBlockSubsidy_range h : - 2 ^ 63 <= CalcBlockSubsidy h chainParams.
Proof.
  unfold CalcBlockSubsidy. destruct (cfg_HasNetworkSteward _).
  - unfold pktCalcBlockSubsidy. cbv zeta. pose proof (swrap_range 64 (9 ^ Z.max 0 (pktPeriodForBlock h) * int64 (4166 * SatoshiPerBitcoin) / 10 ^ Z.max 0 (pktPeriodForBlock h)) ltac:(lia)). unfold int64 at 1. lia.
  - unfold bitcoinCalcBlockSubsidy. cbv zeta. pose proof (swrap_range 64 (50 * SatoshiPerBitcoin) ltac:(lia)) as Hr. fold (int64 (50 * SatoshiPerBitcoin)) in Hr.
    destruct (_ =? 0); [lia|]. set (n := int64 (50 * SatoshiPerBitcoin)) in *. pose proof (uwrap_range 64 (Z.quot h (SubsidyReductionInterval chainParams)) ltac:(lia)) as Hk.
    fold (uint64 (Z.quot h (SubsidyReductionInterval chainParams))) in Hk. rewrite Z.shiftr_div_pow2 by lia.
    set (k := uint64 _) in *. pose proof (Z.pow_pos_nonneg 2 k ltac:(lia) ltac:(lia)) as Hk2.
    clearbody k n. generalize dependent (2 ^ k). intros p Hp. apply Z.div_le_lower_bound; [exact Hp|nia].
Qed.

Lemma int64_le x : - 2 ^ 63 <= x -> int64 x <= x.
Proof. intros Hx. unfold int64, swrap. destruct (Z.lt_ge_cases x (2 ^ 63)); lia. Qed.

Lemma check_coinbase_spec tx h fees es : sane_tx tx -> 0 <= fees -> check_coinbase chainParams tx h fees es = Ret () ->
  out_total (tx_TxOut tx) <= CalcBlockSubsidy h chainParams + fees /\
  (HasNetworkSteward = true -> exists out, out ∈ tx_TxOut tx /\ to_PkScript out = es_NetworkSteward es /\ to_Value out = PktCalcNetworkStewardPayout (CalcBlockSubsidy h chainParams)).
Proof.
  intros Hs Hf Hc. unfold check_coinbase in Hc. checked Hc. pose proof (st_sum _ Hs) as Hv. unfold in_range in Hv.
  rewrite output_amount_spec in E by (try apply Hs; lia). apply Z.ltb_ge in E. pose proof (CalcBlockSubsidy_range h) as Hsub.
  set (subsidy := CalcBlockSubsidy h chainParams) in *. clearbody subsidy. pose proof (int64_le (subsidy + fees) ltac:(clear -Hsub Hf; lia)). split; [lia|]. intros Hst. rewrite Hst in E0. cbn [andb] in E0. apply negb_false_iff in E0.
  unfold pays_steward in E0. apply existsb_exists in E0 as (out & Hin & Ho). apply andb_true_iff in Ho as [Hp Ha]. exists out. split; [by apply list_elem_of_In|].
  split; [by apply bytes_eqb_eq|by apply Z.eqb_eq].
Qed.

Lemma coinbase_values_others txs : Forall (fun tx => IsCoinBase tx = false) txs -> coinbase_values txs = 0.
Proof. induction 1 as [|tx txs Htx _ IH]; [done|]. cbn [coinbase_values foldr]. unfold coinbase_value at 1. rewrite Htx. exact IH. Qed.

(** The parts of a successful run of [checkConnectBlock]. *)
Lemma checkConnectBlock_inv node block v stxos b es view stxos' b' : BIP0034Height chainParams <= height node ->
  checkConnectBlock chainParams checkpoints range node block v stxos b = (Ret (es, view, stxos'), b') ->
  exists v1 v2 fees coinbase txs oldEs,
    fetchInputUtxos (db_utxoSet (bc_db b)) block v = (Ret (), v1) /\ connect_txs chainParams (b_Transactions block) (height node) 0 stxos v1 = (Ret (fees, stxos'), v2) /\
    b_Transactions block = coinbase :: txs /\ check_coinbase chainParams coinbase (height node) fees oldEs = Ret () /\ view = SetBestHash (n_hash node) v2 /\
    oldEs = bs_Elect (bc_snapshot b) /\ electionProcessBlock range oldEs (db_utxoSet (bc_db b)) v2 (height node) = Ret es.
Proof.
  intros Hh Hr. unfold checkConnectBlock in Hr. destruct (bytes_eqb _ _) eqn:E1; [done|]. destruct (negb (bytes_eqb _ _)) eqn:E2; [done|].
  rewrite bind_gets in Hr. apply bind_Ret_inv in Hr as ([[] w] & b1 & Ho & Hr). apply on_view_Ret in Ho as [Ho ->]. cbn [fst snd] in Ho.
  rewrite (proj2 (Z.ltb_ge (height node) (BIP0034Height chainParams))) in Ho by lia. rewrite andb_false_r in Ho. injection Ho as <-.
  apply bind_Ret_inv in Hr as ([[] v1] & b1 & Ho & Hr). apply on_view_Ret in Ho as [Hfetch ->]. cbn [fst snd] in Hfetch.
  apply bind_Ret_inv in Hr as (seg & b1 & Hseg & Hr). apply bind_Ret_inv in Hr as (cost & b2 & Hcost & Hr). apply lift_Ret in Hcost as [_ ->].
  apply bind_Ret_inv in Hr as ([[fees st] v2] & b2 & Hcon & Hr). apply on_view_Ret in Hcon as [Hcon ->]. cbn [fst snd] in Hcon. rewrite bind_gets in Hr.
  apply bind_Ret_inv in Hr as (es' & b2 & Hel & Hr). apply lift_Ret in Hel as [Hel ->]. apply bind_Ret_inv in Hr as (cb & b2 & Hcb & Hr). apply lift_Ret in Hcb as [Hcb ->].
  apply bind_Ret_inv in Hr as ([] & b2 & Hcc & Hr). apply lift_Ret in Hcc as [Hcc ->]. do 4 apply bind_Ret_inv in Hr as (? & ? & _ & Hr). injection Hr as -> <- <- _.
  destruct (b_Transactions block) as [|tx txs] eqn:Et; [done|]. injection Hcb as <-.
  assert (bs_Elect (bc_snapshot b1) = bs_Elect (bc_snapshot b)) as Ees.
  { unfold on_caches, on_field in Hseg. destruct (deploymentState _ _ _ _) as [[] c]; try done. by injection Hseg as _ <-. }
  exists v1, v2, fees, tx, txs, (bs_Elect (bc_snapshot b)). rewrite Ees in *. done.
Qed.

(** What the theorems assume of the block besides the checks.  The outpoints, heights and
    scripts are in the ranges of their types, as decoding makes them.  Every created
    amount is [storable]: what the compression of the database makes of it is the amount
    again.  This holds below 2^64/9, and no check enforces it above.  The height is the
    one of the node, and no output of a transaction with the same hash is unspent (the
    check of BIP0030 is skipped because the coinbase contains the height). *)
Record fits (D : coins) (node : blockNode) (block : BtcBlock) : Prop := {
  ft_height : height node = b_Height block /\ 0 < b_Height block /\ BIP0034Height chainParams <= height node;
  ft_inputs : inputs_ok (b_Transactions block);
  ft_outputs : Forall (fun tx => Forall (fun p => stxo_ok p.2) (created tx (b_Height block))) (b_Transactions block);
  ft_fresh : forall o, op_Hash o ∈ map TxHash (b_Transactions block) -> D !! o = None
}.

Definition tip_view (block : BtcBlock) : UtxoViewpoint := SetBestHash (bh_PrevBlock (mb_Header (b_MsgBlock block))) NewUtxoViewpoint.

Definition pays_the_steward (steward : bytes) (subsidy : Z) (block : BtcBlock) : Prop :=
  exists tx txs out, b_Transactions block = tx :: txs /\ out ∈ tx_TxOut tx /\ to_PkScript out = steward /\ to_Value out = PktCalcNetworkStewardPayout subsidy.

Lemma accepted_run D b b' node block es view stxos powLimit time flags :
  db_rep (db_utxoSet (bc_db b)) D -> coins_sane D -> fits D node block -> checkBlockSanity block powLimit time flags = Ret () ->
  checkConnectBlock chainParams checkpoints range node block (tip_view block) (Some []) b = (Ret (es, view, stxos), b') ->
  let txs := b_Transactions block in let h := b_Height block in
  applies D block /\ stxos = Some (txs_journal h txs D) /\ rep D (fun _ => False) view (apply_txs h txs D) /\ bestHash view = n_hash node /\
  coins_sane (apply_txs h txs D) /\ money (apply_txs h txs D) <= money D + CalcBlockSubsidy h chainParams /\
  (HasNetworkSteward = true -> pays_the_steward (es_NetworkSteward (bs_Elect (bc_snapshot b))) (CalcBlockSubsidy h chainParams) block).
Proof.
  cbv zeta. intros Hdb HD [(Hh & Hh0 & H34) Hin Hout Hfresh] Hsane Hr. apply checkBlockSanity_spec in Hsane as [_ _ (cb & rest & Et & Hcb & Hrest) Hs Hnd _ _]; [|done|done].
  apply checkConnectBlock_inv in Hr as (v1 & v2 & fees & cb' & rest' & oldEs & Hfetch & Hcon & Et' & Hcc & -> & -> & _); [|done]. rewrite Et in Et'. injection Et' as <- <-.
  rewrite Hh in *. rewrite Et in *. assert (inputs_ok rest) as Hin' by (intros t x Ht; apply Hin, elem_of_cons; by right).
  destruct (fetchInputUtxos_rep (db_utxoSet (bc_db b)) D Hdb block cb rest (tip_view block) D Et Hin') as (v1' & E1 & Hr1 & _ & _).
  { destruct (rep_new D) as [Hk Ha]. split; [exact Hk|exact Ha]. }
  rewrite E1 in Hfetch. injection Hfetch as <-.
  assert (no_forward (cb :: rest) v1') as Hnf by (eapply fetchInputUtxos_forward; [exact Hdb|done|done|done|done|done|exact E1]).
  destruct (connect_txs_run D (b_Height block) (cb :: rest) ltac:(lia) Hnd Hs 0 [] v1' D _ v2 Hr1 Hfresh Hnf HD ltac:(lia) Hcon) as (Hval & Ej & Hrep & Hf & Hm & HC).
  cbn [fst snd app] in *. apply check_coinbase_spec in Hcc as [Hcv Hst]; [|by inversion Hs|lia].
  cbn [coinbase_values foldr] in Hm. fold (coinbase_values rest) in Hm. rewrite (coinbase_values_others rest Hrest) in Hm. unfold coinbase_value in Hm. rewrite Hcb in Hm.
  split; [split; rewrite ?Et; eauto|]. split; [done|]. split; [destruct Hrep as [Hk Ha]; split; [exact Hk|exact Ha]|]. split; [done|]. split; [done|]. split; [lia|].
  intros Hns. destruct (Hst Hns) as (out & Ho). exists cb, rest, out. done.
Qed.


(** * A whole chain *)

(** The database and the coins after a number of accepted blocks.  The chain state that a
    check sees is only constrained to have the database. *)
Inductive chain_history : nat -> Bucket -> coins -> Prop :=
| history_start db : db_rep db ∅ -> chain_history 0 db ∅
| history_block n D b b' node block es view stxos powLimit time flags db' :
    chain_history n (db_utxoSet (bc_db b)) D -> b_Height block = Z.of_nat n + 1 -> fits D node block ->
    checkBlockSanity block powLimit time flags = Ret () ->
    checkConnectBlock chainParams checkpoints range node block (tip_view block) (Some []) b = (Ret (es, view, stxos), b') ->
    dbPutUtxoView view (db_utxoSet (bc_db b)) = Ret db' ->
    chain_history (S n) db' (apply_txs (b_Height block) (b_Transactions block) D).

Fixpoint subsidies (n : nat) : Z :=
  match n with O => 0 | S n' => subsidies n' + CalcBlockSubsidy (Z.of_nat n) chainParams end.

Lemma history_run n db C : chain_history n db C -> db_rep db C /\ coins_sane C /\ money C <= subsidies n.
Proof.
  induction 1 as [db Hdb|n D b b' node block es view stxos powLimit time flags db' Hh (Hdb & Hc & Hm) Hn Hfit Hs Hr Hput].
  { split; [done|]. split; [|done]. split; intros o c Hoc; by rewrite lookup_empty in Hoc. }
  destruct (accepted_run _ _ _ _ _ _ _ _ _ _ _ Hdb Hc Hfit Hs Hr) as (Hap & _ & Hrep & _ & Hcs & Hm' & _).
  destruct (dbPutUtxoView_rep _ D view _ Hdb Hrep) as (db1 & E1 & Hdb1).
  { apply apply_txs_ok; [exact (proj2 Hdb)|apply Hap]. }
  rewrite E1 in Hput. injection Hput as <-. split; [done|]. split; [done|]. cbn [subsidies]. rewrite Hn in Hm' |- *. rewrite Nat2Z.inj_succ. unfold Z.succ. lia.
Qed.
End supply.

Section pkt_supply.
#[local] Existing Instance pkt.
Context `{Crypto} `{MapOrder} (checkpoints : list Checkpoint) (range : election -> list electionCandidate).

Lemma subsidies_issued n : subsidies PktMainNetParams n + pktCalcBlockSubsidy 0 = issued (S n).
Proof.
  induction n as [|n IH]; [done|]. cbn [subsidies]. change (issued (S (S n))) with (issued (S n) + pktCalcBlockSubsidy (pktPeriodForBlock (Z.of_nat (S n)))).
  rewrite <- IH. change (CalcBlockSubsidy (Z.of_nat (S n)) PktMainNetParams) with (pktCalcBlockSubsidy (pktPeriodForBlock (Z.of_nat (S n)))). lia.
Qed.

(** C1: whatever blocks the checks of the PKT network accept one after the other, as long as
    every amount they create is storable (its compressed form in the database
    decompresses to it, which holds below 2^64/9) and no unspent output has the hash of a new
    transaction, the database holds the set of unspent outputs, and these are worth no more
    than what the subsidies of the blocks issued, which never exceeds the largest amount. *)
Theorem money_supply n db C : chain_history PktMainNetParams checkpoints range n db C ->
  db_rep db C /\ money C <= issued (S n) - pktCalcBlockSubsidy 0 /\ money C <= MaxUnitsI64.
Proof.
  intros Hh. destruct (history_run ltac:(done) ltac:(done) _ _ _ n db C Hh) as (Hdb & _ & Hm). pose proof (subsidies_issued n) as Es. pose proof (issued_bound (S n)) as [_ Hb].
  pose proof (subsidy_value 0 ltac:(lia)) as [_ Hs0]. split; [done|]. split; lia.
Qed.
End pkt_supply.

(** * Instances *)

#[local] Existing Instances pkt sample_crypto map_to_list_order.

Definition no_chain (db : Bucket) (steward : bytes) : BlockChain :=
  mkChain newBlockIndex [] (mkCaches (newThresholdCaches 3) (newThresholdCaches 29) false false)
    (mkBestState zeroHash 0 0 0 0 0 0 0 (mkElection steward 0)) None None (mkDb db ∅ ∅ ∅ ∅ ∅ None ∅) None None ∅ ∅ None.

Definition a_steward : bytes := [Byte.x52].
Definition paying_coinbase (height : Z) : MsgTx :=
  mkMsgTx 1 [mkTxIn (mkOutPoint zeroHash MaxUint32) [to_byte height; Byte.x00] None 0]
    [mkTxOut (PktCalcNetworkStewardPayout (CalcBlockSubsidy height PktMainNetParams)) a_steward; mkTxOut 50 [Byte.x51]] 0 [].

Definition root_of (txs : list MsgTx) : bytes := default zeroHash (merkle_root (tree_height txs) (map TxHash txs)).

Definition block_at (height : Z) (txs : list MsgTx) : BtcBlock :=
  mkBtcBlock (mkBlock (mkHeader 1 zeroHash (root_of txs) 1600000000 0x1f00ffff 0) None txs) height.

Definition node_at (height : Z) : blockNode :=
  mkNode (Some (mkNode None zeroHash 0 (height - 1) 1 0x1f00ffff 0 1599999940 zeroHash)) (repeat Byte.x09 32) 0 height 1 0x1f00ffff 0 1600000000 zeroHash.

Definition a_bucket : Bucket :=
  match outpointKey demo_out, serializeUtxoEntry (mkUtxo 5000 [Byte.x51] 1 tfModified) with Ret key, Ret b => {[key := b]} | _, _ => ∅ end.

Definition any_order (elect : election) : list electionCandidate := (map_to_list elect).*2.


Definition is_Ret {E A} (m : outcome E A) : bool := match m with Ret _ => true | _ => false end.

Lemma inputs_check txs : forallb (fun tx => forallb (fun x => let o := ti_PreviousOutPoint x in
    (len (op_Hash o) =? 32) && ((0 <=? op_Index o) && (op_Index o <? 2 ^ 32))) (tx_TxIn tx)) txs = true -> inputs_ok txs.
Proof.
  intros Hc tx x Ht Hx. rewrite forallb_forall in Hc. apply list_elem_of_In in Ht, Hx. specialize (Hc tx Ht). rewrite forallb_forall in Hc. specialize (Hc x Hx).
  cbv zeta in Hc. rewrite !andb_true_iff, Z.eqb_eq, Z.leb_le, Z.ltb_lt in Hc. done.
Qed.


Lemma empty_db_rep (conf : GlobalConf) : @db_rep conf ∅ ∅.
Proof.
  split; [|intros o c Hc; by rewrite lookup_empty in Hc]. intros o [Hl Hi]. unfold dbFetchUtxoEntry. rewrite outpointKey_spec by done.
  cbn [no_error mbind outcome_bind]. by rewrite !lookup_empty.
Qed.

Lemma money_supply_witness : exists db C, chain_history PktMainNetParams [] any_order 1 db C /\ money C <= MaxUnitsI64.
Proof.
  set (block := block_at 1 [paying_coinbase 1]). set (b := no_chain ∅ a_steward).
  assert (is_Ret (checkConnectBlock PktMainNetParams [] any_order (node_at 1) block (tip_view block) (Some []) b).1 = true) as Hret by (vm_compute; reflexivity).
  destruct (checkConnectBlock PktMainNetParams [] any_order (node_at 1) block (tip_view block) (Some []) b) as [[[[es view] stxos]| |] b'] eqn:E; [|done..].
  assert (checkBlockSanity block (PowLimit PktMainNetParams) 1600000000 BFNone = Ret ()) as Hs by (vm_compute; reflexivity).
  assert (coins_sane ∅) as Hc by (split; intros o c Hoc; by rewrite lookup_empty in Hoc).
  assert (fits PktMainNetParams ∅ (node_at 1) block) as Hfit.
  { split; change (b_Transactions block) with [paying_coinbase 1]; change (b_Height block) with 1.
    - split; [reflexivity|]. split; [reflexivity|]. vm_compute. congruence.
    - apply inputs_check. vm_compute. reflexivity.
    - apply List.Forall_cons; [|apply List.Forall_nil]. apply created_stxo_ok; [vm_compute; split; congruence|].
      apply List.Forall_cons; [|apply List.Forall_cons; [|apply List.Forall_nil]]; (split; [split; [split|]; vm_compute; congruence|vm_compute; congruence]).
    - intros o _. apply lookup_empty. }
  destruct (accepted_run ltac:(done) ltac:(done) PktMainNetParams [] any_order ∅ b b' (node_at 1) block es view stxos _ _ _ (empty_db_rep pkt) Hc Hfit Hs E) as (Hap & _ & Hrep & _ & _ & _).
  destruct (dbPutUtxoView_rep ∅ ∅ view _ (empty_db_rep pkt) Hrep) as (db & Ep & Hdb).
  { apply apply_txs_ok; [exact (proj2 (empty_db_rep pkt))|apply Hap]. }
  assert (chain_history PktMainNetParams [] any_order 1 db (apply_txs (b_Height block) (b_Transactions block) ∅)) as Hh
    by (eapply (history_block _ _ _ 0 ∅ b); [exact (history_start _ _ _ ∅ (empty_db_rep pkt))|reflexivity|exact Hfit|exact Hs|exact E|exact Ep]).
  exists db, (apply_txs (b_Height block) (b_Transactions block) ∅). split; [exact Hh|]. exact (proj2 (proj2 (money_supply [] any_order 1 db _ Hh))).
Defined.

(** * A transaction before the one it spends *)

(** In a reorganization the view holds an entry, marked spent, for every output of the
    blocks it disconnected.  When such a transaction is in a block of the new branch, its
    outputs are entered into the view for a later transaction that spends them, and a
    transaction in front of it finds them too: the output is spent twice. *)
Definition parent_tx : MsgTx := mkMsgTx 1 [mkTxIn demo_out [] None 0] [mkTxOut 5000 [Byte.x51]] 0 [].
Definition child_tx (script : bytes) : MsgTx := mkMsgTx 1 [mkTxIn (mkOutPoint (TxHash parent_tx) 0) [] None 0] [mkTxOut 5000 script] 0 [].
Definition twice_txs : list MsgTx := [paying_coinbase 7; child_tx [Byte.x52]; parent_tx; child_tx [Byte.x53]].

Definition reorg_view : UtxoViewpoint :=
  SetBestHash zeroHash (set_entry (mkOutPoint (TxHash parent_tx) 0) (Some (Spend (fresh_entry 5000 [Byte.x51] 6 false))) NewUtxoViewpoint).

Lemma reorg_view_rep : rep demo_coins (fun _ => False) reorg_view demo_coins.
Proof.
  set (o := mkOutPoint (TxHash parent_tx) 0). unfold reorg_view. fold o. destruct (Spend_spec (fresh_entry 5000 [Byte.x51] 6 false)) as (_ & Ec & _).
  assert (demo_coins !! o = None) as Ho.
  { assert (bool_decide (demo_out = o) = false) as Hn by (vm_compute; reflexivity). apply bool_decide_eq_false in Hn. unfold demo_coins. by apply lookup_singleton_None. }
  assert (op_ok o) as Hok by (split; [apply len_TxHash|by split]).
  assert (isModified (Spend (fresh_entry 5000 [Byte.x51] 6 false)) = true) as Em by (vm_compute; reflexivity).
  generalize dependent (Spend (fresh_entry 5000 [Byte.x51] 6 false)). intros e Ec Em. clearbody o.
  assert (rep demo_coins (fun _ => False) (set_entry o (Some e) NewUtxoViewpoint) demo_coins) as Hr.
  { eapply (rep_set demo_coins (fun _ => False)); [apply rep_new|exact Hok|congruence|tauto|reflexivity|congruence]. }
  destruct Hr as [Hk Ha]. split; [exact Hk|exact Ha].
Qed.

(** The block is accepted, the journal has the output of the parent twice, and the outputs
    of both children are unspent. *)
Definition spent_twice (r : outcome ruleerr (ElectionState * UtxoViewpoint * option (list SpentTxOut))) : bool :=
  match r with
  | Ret (_, view, Some stxos) =>
    bool_decide (map st_Amount stxos = [5000; 5000; 5000]) &&
    forallb (fun script => match available view (mkOutPoint (TxHash (child_tx script)) 0) with Some e => ue_amount e =? 5000 | None => false end) [[Byte.x52]; [Byte.x53]]
  | _ => false
  end.

Lemma reorganization_double_spend :
  checkBlockSanity (block_at 7 twice_txs) (PowLimit PktMainNetParams) 1600000000 BFNone = Ret () /\
  rep demo_coins (fun _ => False) reorg_view demo_coins /\
  spent_twice (checkConnectBlock PktMainNetParams [] any_order (node_at 7) (block_at 7 twice_txs) reorg_view (Some []) (no_chain a_bucket a_steward)).1 = true.
Proof. split; [vm_compute; reflexivity|]. split; [apply reorg_view_rep|]. vm_compute. reflexivity. Qed.
