(* ===== verification/Orphans.v ===== *)
(** The pool of orphan blocks (src/blockchain/chain.go): blocks whose previous block is
    not known yet, by hash, with an index by the previous hash.

    The times are in nanoseconds.  [ticks] are the readings of the clock during a call
    and [visit] is the order in which Go visits the pool. *)

From stdpp Require Import gmap.
From S2P Require Import Prelude Sha Wire MsgTx Block RuleErr Difficulty BlockIndex ChainIO UtxoView ChainState.

Definition maxOrphanBlocks : Z := 100.
Definition Hour : Z := 3600000000000.

Definition prev_hash (block : BtcBlock) : bytes := bh_PrevBlock (mb_Header (b_MsgBlock block)).
Definition ob_hash (orphan : orphanBlock) : bytes := b_Hash (ob_block orphan).
Definition ob_prev (orphan : orphanBlock) : bytes := prev_hash (ob_block orphan).

Definition IsKnownOrphan (b : BlockChain) (hash : bytes) : bool := bool_decide (is_Some (bc_orphans b !! hash)).

(** The walk along the pool; [None] when it is still in the pool at the end of the fuel. *)
Fixpoint root_loop (fuel : nat) (orphans : gmap bytes orphanBlock) (orphanRoot prevHash : bytes) : option bytes :=
  match orphans !! prevHash with
  | None => Some orphanRoot
  | Some orphan =>
    match fuel with
    | O => None
    | S fuel' => root_loop fuel' orphans prevHash (ob_prev orphan)
    end
  end.

Definition GetOrphanRoot (b : BlockChain) (hash : bytes) : option bytes := root_loop (size (bc_orphans b)) (bc_orphans b) hash hash.

(** The loop with the adjusted index: the orphans with the hash are cut out of the slice. *)
Fixpoint cut_orphan (orphanHash : bytes) (orphans : list orphanBlock) : list orphanBlock :=
  match orphans with
  | [] => []
  | o :: orphans' => if bytes_eqb (ob_hash o) orphanHash then cut_orphan orphanHash orphans' else o :: cut_orphan orphanHash orphans'
  end.

Definition removeOrphanBlock (orphan : orphanBlock) : BC () :=
  modify (fun b =>
    let orphanHash := ob_hash orphan in
    let prevHash := ob_prev orphan in
    let orphans := cut_orphan orphanHash (default [] (bc_prevOrphans b !! prevHash)) in
    set_orphans (delete orphanHash (bc_orphans b))
      (if len orphans =? 0 then delete prevHash (bc_prevOrphans b) else <[prevHash := orphans]> (bc_prevOrphans b))
      (bc_oldestOrphan b) b).

Section pool.
Context (ticks : nat -> Z) (visit : gmap bytes orphanBlock -> list orphanBlock).

Definition older (orphan : orphanBlock) (oldest : option orphanBlock) : option orphanBlock :=
  match oldest with
  | None => Some orphan
  | Some o => if ob_expiration orphan <? ob_expiration o then Some orphan else oldest
  end.

Fixpoint expire_loop (i : nat) (order : list orphanBlock) : BC () :=
  match order with
  | [] => mret ()
  | oBlock :: order' =>
    (if ob_expiration oBlock <? ticks i then removeOrphanBlock oBlock
     else modify (fun b => set_orphans (bc_orphans b) (bc_prevOrphans b) (older oBlock (bc_oldestOrphan b)) b));;
    expire_loop (S i) order'
  end.

Definition insert_orphan (oBlock : orphanBlock) : BC () :=
  modify (fun b =>
    set_orphans (<[ob_hash oBlock := oBlock]> (bc_orphans b))
      (<[ob_prev oBlock := default [] (bc_prevOrphans b !! ob_prev oBlock) ++ [oBlock]]> (bc_prevOrphans b))
      (bc_oldestOrphan b) b).

Definition addOrphanBlock (block : BtcBlock) : BC () :=
  order ← gets (fun b => visit (bc_orphans b));
  expire_loop 0 order;;
  b ← gets id;
  (if maxOrphanBlocks <? Z.of_nat (size (bc_orphans b)) + 1 then
     oldest ← lift (or_panic (bc_oldestOrphan b));
     removeOrphanBlock oldest;;
     modify (fun b => set_orphans (bc_orphans b) (bc_prevOrphans b) None b)
   else mret ());;
  insert_orphan (mkOrphan block (ticks (length order) + Hour)).
End pool.
