(* ===== verification/OrphanProps.v ===== *)
(** What the pool of orphans guarantees: the index by previous hash is exactly the index
    of the pool, and the pool does not grow past one block more than its limit. *)

From stdpp Require Import gmap.
From S2P Require Import Prelude Sha Wire MsgTx Block RuleErr Difficulty BlockIndex ChainIO UtxoView ChainState Orphans.

#[local] Opaque b_Hash.

(** [prev_of] gives the previous hash of a block by its hash: for blocks whose hashes
    do not collide there is such a function. *)
Record pool_ok (prev_of : bytes -> bytes) (b : BlockChain) : Prop := {
  pool_keys : forall h o, bc_orphans b !! h = Some o -> ob_hash o = h /\ ob_prev o = prev_of h;
  pool_index : forall h l, bc_prevOrphans b !! h = Some l -> l <> [] /\ NoDup (map ob_hash l) /\
                 forall o, o ∈ l -> ob_prev o = h /\ bc_orphans b !! ob_hash o = Some o;
  pool_covered : forall h o, bc_orphans b !! h = Some o -> exists l, bc_prevOrphans b !! ob_prev o = Some l /\ o ∈ l;
  pool_oldest : forall o, bc_oldestOrphan b = Some o -> ob_prev o = prev_of (ob_hash o)
}.

(** When the pool is over its limit the next call finds its oldest block anew. *)
Definition pool_bounded (b : BlockChain) : Prop :=
  Z.of_nat (size (bc_orphans b)) <= maxOrphanBlocks \/
  (Z.of_nat (size (bc_orphans b)) = maxOrphanBlocks + 1 /\ bc_oldestOrphan b = None).

Section props.
Context (prev_of : bytes -> bytes).

Lemma elem_of_cut h l o : o ∈ cut_orphan h l <-> o ∈ l /\ ob_hash o <> h.
Proof.
  induction l as [|x l IH]; simpl; [rewrite elem_of_nil; tauto|].
  unfold bytes_eqb; case_bool_decide as E; rewrite ?elem_of_cons, ?IH; intuition congruence.
Qed.

Lemma cut_NoDup h l : NoDup (map ob_hash l) -> NoDup (map ob_hash (cut_orphan h l)).
Proof.
  induction l as [|x l IH]; simpl; [done|]. rewrite list.NoDup_cons. intros [Hx Hl].
  destruct (bytes_eqb _ _); [by apply IH|]. simpl. rewrite list.NoDup_cons. split; [|by apply IH].
  intros (o & Ho & Hin)%list_elem_of_fmap. apply elem_of_cut in Hin as [Hin _]. apply Hx. apply list_elem_of_fmap. eauto.
Qed.

Lemma cut_length h l : (length (cut_orphan h l) <= length l)%nat.
Proof. induction l as [|x l IH]; simpl; [done|]. destruct (bytes_eqb _ _); simpl; lia. Qed.

(** The pool after the removal of an orphan. *)
Definition removed (o : orphanBlock) (b : BlockChain) : BlockChain := snd (removeOrphanBlock o b).

Lemma removed_index o b h : bc_prevOrphans (removed o b) !! h =
  if decide (h = ob_prev o) then
    match cut_orphan (ob_hash o) (default [] (bc_prevOrphans b !! h)) with [] => None | l => Some l end
  else bc_prevOrphans b !! h.
Proof.
  unfold removed, removeOrphanBlock, modify. cbn [snd set_orphans bc_prevOrphans].
  destruct (decide (h = ob_prev o)) as [->|Hne].
  - destruct (cut_orphan _ _) as [|x l] eqn:E; [change (len (@nil orphanBlock) =? 0) with true; cbv iota; by rewrite lookup_delete_eq|].
    destruct (Z.eqb_spec (len (x :: l)) 0); [len_lia|]. by rewrite lookup_insert_eq.
  - destruct (_ =? 0); [by rewrite lookup_delete_ne|by rewrite lookup_insert_ne].
Qed.

Lemma removed_ok o b : pool_ok prev_of b -> ob_prev o = prev_of (ob_hash o) -> pool_ok prev_of (removed o b).
Proof.
  intros [Hk Hi Hc Ho] Hprev.
  assert (forall h x, bc_orphans (removed o b) !! h = Some x <-> bc_orphans b !! h = Some x /\ h <> ob_hash o) as Hl
    by (intros h x; unfold removed, removeOrphanBlock, modify; cbn [snd set_orphans bc_orphans]; rewrite lookup_delete_Some; intuition congruence).
  split.
  - intros h x [Hx _]%Hl. by apply Hk.
  - intros h l. rewrite removed_index. destruct (decide (h = ob_prev o)) as [->|Hne].
    + destruct (bc_prevOrphans b !! ob_prev o) as [l0|] eqn:E0; [|done].
      destruct (Hi _ _ E0) as (_ & Hnd & Hall). cbn [default from_option id].
      destruct (cut_orphan (ob_hash o) l0) as [|x l'] eqn:Ec; [done|]. intros [= <-].
      split; [done|]. rewrite <- Ec. split; [by apply cut_NoDup|]. intros y [Hy Hne]%elem_of_cut.
      destruct (Hall y Hy) as [H1 H2]. split; [done|]. by apply Hl.
    + intros El. destruct (Hi _ _ El) as (H1 & H2 & Hall). split; [done|]. split; [done|].
      intros y Hy. destruct (Hall y Hy) as [Hp Hx]. split; [done|]. apply Hl. split; [done|].
      intros E. apply Hne. destruct (Hk _ _ Hx) as [_ Hpy]. congruence.
  - intros h x [Hx Hne]%Hl. destruct (Hc _ _ Hx) as (l & El & Hin). destruct (Hk _ _ Hx) as [Eh Ep].
    rewrite removed_index. destruct (decide (ob_prev x = ob_prev o)) as [E|E]; [|by exists l].
    rewrite El. cbn [default from_option id].
    assert (x ∈ cut_orphan (ob_hash o) l) as Hc' by (apply elem_of_cut; split; [done|congruence]).
    destruct (cut_orphan _ _) as [|y l']; [by apply not_elem_of_nil in Hc'|by eexists].
  - intros x. apply Ho.
Qed.

Lemma removed_size o b : (size (bc_orphans (removed o b)) <= size (bc_orphans b))%nat.
Proof.
  unfold removed, removeOrphanBlock, modify. cbn [snd set_orphans bc_orphans].
  rewrite map_size_delete. destruct (bc_orphans b !! _); cbn; lia.
Qed.

Lemma removed_member o b : bc_orphans b !! ob_hash o = Some o ->
  S (size (bc_orphans (removed o b))) = size (bc_orphans b).
Proof.
  intros Ho. unfold removed, removeOrphanBlock, modify. cbn [snd set_orphans bc_orphans].
  rewrite map_size_delete_Some by eauto. assert (size (bc_orphans b) <> 0%nat); [|lia].
  intros E%map_size_empty_inv. rewrite E, lookup_empty in Ho. done.
Qed.

(** A call of [addOrphanBlock]. *)
Context (ticks : nat -> Z) (visit : gmap bytes orphanBlock -> list orphanBlock).
Context (Hvisit : forall m, visit m ≡ₚ (map_to_list m).*2).

Definition member (b : BlockChain) (o : orphanBlock) : Prop := bc_orphans b !! ob_hash o = Some o.

Lemma removed_member_other o x b : member b x -> ob_hash x <> ob_hash o -> member (removed o b) x.
Proof. intros Hx Hne. unfold member, removed, removeOrphanBlock, modify in *. cbn [snd set_orphans bc_orphans]. by rewrite lookup_delete_ne. Qed.

Lemma removed_lookup o b h x : bc_orphans (removed o b) !! h = Some x -> bc_orphans b !! h = Some x /\ h <> ob_hash o.
Proof. unfold removed, removeOrphanBlock, modify. cbn [snd set_orphans bc_orphans]. rewrite lookup_delete_Some. intuition congruence. Qed.

(** [fresh]: the oldest block was not known before the loop, so that it is in the pool. *)
Lemma expire_loop_spec (fresh : Prop) order : forall i b,
  pool_ok prev_of b -> (forall o, o ∈ order -> member b o) -> NoDup (map ob_hash order) ->
  (forall h o, bc_orphans b !! h = Some o -> h ∈ map ob_hash order \/ is_Some (bc_oldestOrphan b)) ->
  (fresh -> forall o, bc_oldestOrphan b = Some o -> member b o /\ ob_hash o ∉ map ob_hash order) ->
  exists b', expire_loop ticks i order b = (Ret (), b') /\ pool_ok prev_of b' /\
    (forall h o, bc_orphans b' !! h = Some o -> bc_orphans b !! h = Some o /\ is_Some (bc_oldestOrphan b')) /\
    (fresh -> forall o, bc_oldestOrphan b' = Some o -> member b' o).
Proof.
  induction order as [|x order IH]; intros i b Hok Hmem Hnd Hseen Hfresh; cbn [expire_loop map] in *.
  - exists b. split; [done|]. split; [done|]. split; [|intros F o Ho; by apply Hfresh].
    intros h o Ho. split; [done|]. destruct (Hseen _ _ Ho) as [Hin|]; [by apply not_elem_of_nil in Hin|done].
  - apply list.NoDup_cons in Hnd as [Hx Hnd].
    assert (member b x) as Hmx by (apply Hmem, list_elem_of_here).
    assert (ob_prev x = prev_of (ob_hash x)) as Hpx by (by apply (pool_keys _ _ Hok)).
    assert (forall o, o ∈ order -> ob_hash o <> ob_hash x) as Hother
      by (intros o Ho E; apply Hx; rewrite <- E; by apply list_elem_of_fmap_2).
    destruct (ob_expiration x <? ticks i).
    + destruct (IH (S i) (removed x b)) as (b' & Er & Hok' & Hl & Hf); [by apply removed_ok| |done| | |].
      * intros o Ho. apply removed_member_other; [apply Hmem; by right|by apply Hother].
      * intros h o [Ho Hne]%removed_lookup. destruct (Hseen _ _ Ho) as [[->|]%elem_of_cons|]; [done|by left|by right].
      * intros F o Ho. destruct (Hfresh F o Ho) as [Hm Hni]. rewrite not_elem_of_cons in Hni. destruct Hni.
        split; [by apply removed_member_other|done].
      * exists b'. split; [exact Er|]. split; [done|]. split; [|done]. intros h o Ho. destruct (Hl _ _ Ho) as [Hr ?].
        split; [exact (proj1 (removed_lookup _ _ _ _ Hr))|done].
    + set (b1 := set_orphans (bc_orphans b) (bc_prevOrphans b) (older x (bc_oldestOrphan b)) b).
      assert (is_Some (older x (bc_oldestOrphan b))) as Hsome
        by (unfold older; destruct (bc_oldestOrphan b); [destruct (_ <? _)|]; eauto).
      assert (forall o, older x (bc_oldestOrphan b) = Some o -> o = x \/ bc_oldestOrphan b = Some o) as Hold
        by (intros o; unfold older; destruct (bc_oldestOrphan b); [destruct (_ <? _)|]; intros [= ->]; auto).
      destruct (IH (S i) b1) as (b' & Er & Hok' & Hl & Hf); [| |done| | |].
      * destruct Hok as [Hk Hi Hc Ho]. split; [exact Hk|exact Hi|exact Hc|]. intros o [->|Eo]%Hold; [done|by apply Ho].
      * intros o Ho. apply Hmem. by right.
      * intros h o _. by right.
      * intros F o [->|Eo]%Hold; [done|]. destruct (Hfresh F o Eo) as [Hm Hni]. rewrite not_elem_of_cons in Hni. split; [exact Hm|tauto].
      * exists b'. split; [exact Er|]. done.
Qed.

(** The order of the visit. *)
Lemma visit_member b o : pool_ok prev_of b -> o ∈ visit (bc_orphans b) -> member b o.
Proof.
  intros Hok. rewrite Hvisit. intros ([h x] & -> & Hin)%list_elem_of_fmap. apply elem_of_map_to_list in Hin. cbn.
  unfold member. by rewrite (proj1 (pool_keys _ _ Hok _ _ Hin)).
Qed.

Lemma visit_hashes b : pool_ok prev_of b -> map ob_hash (visit (bc_orphans b)) ≡ₚ (map_to_list (bc_orphans b)).*1.
Proof.
  intros Hok. rewrite Hvisit. change (map ob_hash) with (fmap (M := list) ob_hash). rewrite <- list_fmap_compose.
  erewrite list_fmap_ext; [reflexivity|]. intros i [h x] Hi. cbn. apply (pool_keys _ _ Hok), elem_of_map_to_list. by eapply list_elem_of_lookup_2.
Qed.

Lemma visit_covers b h o : pool_ok prev_of b -> bc_orphans b !! h = Some o -> h ∈ map ob_hash (visit (bc_orphans b)).
Proof.
  intros Hok Ho. rewrite visit_hashes by done. apply list_elem_of_fmap. exists (h, o). split; [done|by apply elem_of_map_to_list].
Qed.

Definition inserted (o : orphanBlock) (b : BlockChain) : BlockChain := snd (insert_orphan o b).

Lemma inserted_ok o b : pool_ok prev_of b -> bc_orphans b !! ob_hash o = None -> ob_prev o = prev_of (ob_hash o) ->
  pool_ok prev_of (inserted o b).
Proof.
  intros [Hk Hi Hc Ho] Hnew Hp. unfold inserted, insert_orphan, modify. cbn [snd].
  assert (forall x, member b x -> ob_hash x <> ob_hash o) as Hne by (unfold member; intros x Hx E; congruence).
  split; cbn [set_orphans bc_orphans bc_prevOrphans bc_oldestOrphan].
  - intros h x [[<- <-]|[_ Hx]]%lookup_insert_Some; [done|by apply Hk].
  - intros h l [[<- <-]|[Hh Hl]]%lookup_insert_Some.
    + split; [by destruct (default [] _)|].
      destruct (bc_prevOrphans b !! ob_prev o) as [l0|] eqn:E0; cbn [default from_option id].
      * destruct (Hi _ _ E0) as (_ & Hnd & Hall). rewrite map_app, list.NoDup_app. split; [|].
        -- split; [done|]. split; [|apply NoDup_singleton]. intros y (x & -> & Hx)%list_elem_of_fmap.
           cbn. rewrite list_elem_of_singleton. by apply Hne, Hall.
        -- intros x [Hx| ->%list_elem_of_singleton]%elem_of_app; [|by rewrite lookup_insert_eq].
           destruct (Hall x Hx) as [H1 H2]. split; [done|]. rewrite lookup_insert_ne; [done|]. by apply not_eq_sym, Hne.
      * split; [apply NoDup_singleton|]. intros x ->%list_elem_of_singleton. by rewrite lookup_insert_eq.
    + destruct (Hi _ _ Hl) as (H1 & H2 & Hall). split; [done|]. split; [done|]. intros x Hx. destruct (Hall x Hx) as [H3 H4].
      split; [done|]. rewrite lookup_insert_ne; [done|]. by apply not_eq_sym, Hne.
  - intros h x [[<- <-]|[_ Hx]]%lookup_insert_Some.
    + eexists. split; [apply lookup_insert_eq|]. apply elem_of_app. right. by apply list_elem_of_singleton.
    + destruct (Hc _ _ Hx) as (l & El & Hin). destruct (decide (ob_prev x = ob_prev o)) as [E|E].
      * exists (l ++ [o]). rewrite E, lookup_insert_eq. rewrite <- E, El. split; [done|]. apply elem_of_app. by left.
      * exists l. by rewrite lookup_insert_ne.
  - exact Ho.
Qed.

Lemma inserted_size o b : bc_orphans b !! ob_hash o = None -> size (bc_orphans (inserted o b)) = S (size (bc_orphans b)).
Proof. intros Hnew. unfold inserted, insert_orphan, modify. cbn [snd set_orphans bc_orphans]. by rewrite map_size_insert_None. Qed.

Lemma size_pos b : (0 < size (bc_orphans b))%nat -> exists h o, bc_orphans b !! h = Some o.
Proof.
  intros Hs. destruct (map_choose (bc_orphans b)) as (h & o & Ho); [|by exists h, o].
  intros E. rewrite E, map_size_empty in Hs. lia.
Qed.

Lemma expired_size b b' :
  (forall h o, bc_orphans b' !! h = Some o -> bc_orphans b !! h = Some o /\ is_Some (bc_oldestOrphan b')) ->
  (size (bc_orphans b') <= size (bc_orphans b))%nat.
Proof. intros Hl. apply map_subseteq_size, map_subseteq_spec. intros h o Ho. by apply Hl. Qed.

(** The pool once there is room for a new block. *)
Definition room (b : BlockChain) : Prop :=
  Z.of_nat (size (bc_orphans b)) < maxOrphanBlocks \/
  (Z.of_nat (size (bc_orphans b)) <= maxOrphanBlocks /\ bc_oldestOrphan b = None).

Lemma evict_spec b b0 :
  pool_bounded b0 -> pool_ok prev_of b -> 
  (forall h o, bc_orphans b !! h = Some o -> bc_orphans b0 !! h = Some o /\ is_Some (bc_oldestOrphan b)) ->
  (bc_oldestOrphan b0 = None -> forall o, bc_oldestOrphan b = Some o -> member b o) ->
  exists b', (if maxOrphanBlocks <? Z.of_nat (size (bc_orphans b)) + 1 then
     oldest ← lift (or_panic (bc_oldestOrphan b));
     removeOrphanBlock oldest;;
     modify (fun b => set_orphans (bc_orphans b) (bc_prevOrphans b) None b)
   else mret ()) b = (Ret (), b') /\ pool_ok prev_of b' /\ room b' /\
   forall h o, bc_orphans b' !! h = Some o -> bc_orphans b0 !! h = Some o.
Proof.
  intros Hb Hok Hl Hf. pose proof (expired_size _ _ Hl) as Hs. unfold room.
  destruct (Z.ltb_spec maxOrphanBlocks (Z.of_nat (size (bc_orphans b)) + 1)) as [Hlt|Hge].
  - assert (exists o, bc_oldestOrphan b = Some o) as (o & Eo).
    { destruct (size_pos b) as (h & x & Hx); [unfold maxOrphanBlocks in *; lia|]. by destruct (Hl _ _ Hx) as [_ [o Ho]]; exists o. }
    rewrite Eo. exists (set_orphans (bc_orphans (removed o b)) (bc_prevOrphans (removed o b)) None (removed o b)). split; [reflexivity|].
    pose proof (removed_ok o b Hok (pool_oldest _ _ Hok _ Eo)) as [H1 H2 H3 H4].
    split; [split; [exact H1|exact H2|exact H3|done]|].
    cbn [set_orphans bc_orphans bc_oldestOrphan]. split.
    + right. split; [|done]. destruct Hb as [Hb|[Hb En]]; [pose proof (removed_size o b); lia|].
      pose proof (removed_member o b (Hf En o Eo)). lia.
    + intros h x Hx. apply Hl. exact (proj1 (removed_lookup _ _ _ _ Hx)).
  - exists b. split; [done|]. split; [done|]. split; [left; lia|]. intros h o Ho. by apply Hl.
Qed.

Lemma addOrphanBlock_spec block b :
  pool_ok prev_of b -> pool_bounded b -> bc_orphans b !! b_Hash block = None -> prev_hash block = prev_of (b_Hash block) ->
  exists b', addOrphanBlock ticks visit block b = (Ret (), b') /\ pool_ok prev_of b' /\ pool_bounded b' /\
    is_Some (bc_orphans b' !! b_Hash block).
Proof.
  intros Hok Hb Hnew Hp. unfold addOrphanBlock. rewrite bind_gets.
  destruct (expire_loop_spec (bc_oldestOrphan b = None) (visit (bc_orphans b)) 0 b) as (b1 & E1 & Hok1 & Hl1 & Hf1).
  - done.
  - intros o. by apply visit_member.
  - rewrite visit_hashes by done. apply NoDup_fst_map_to_list.
  - intros h o Ho. left. by eapply visit_covers.
  - intros F o Ho. congruence.
  - rewrite (bind_Ret _ _ _ _ _ E1), bind_gets. destruct (evict_spec b1 b Hb Hok1 Hl1 Hf1) as (b2 & E2 & Hok2 & Hr2 & Hl2).
    rewrite (bind_Ret _ _ _ _ _ E2). set (o := mkOrphan block _).
    assert (bc_orphans b2 !! ob_hash o = None) as Hn.
    { destruct (bc_orphans b2 !! ob_hash o) as [x|] eqn:Ex; [|done]. apply Hl2 in Ex. change (ob_hash o) with (b_Hash block) in Ex. congruence. }
    exists (inserted o b2). split; [reflexivity|]. split; [by apply inserted_ok|].
    split; [|unfold inserted, insert_orphan, modify; cbn [snd set_orphans bc_orphans]; exists o; apply lookup_insert_eq].
    pose proof (inserted_size o b2 Hn) as Hs. unfold pool_bounded. rewrite Hs. unfold room, maxOrphanBlocks in *.
    destruct Hr2 as [Hr|[Hr En]]; [left; lia|]. destruct (decide (size (bc_orphans b2) = 100%nat)) as [->|]; [right|left; lia].
    split; [done|exact En].
Qed.

(** * Over the limit *)

(** The oldest block is remembered from one call to the next, also when the block has
    left the pool in between. *)
Lemma expire_loop_idle order x : forall i b, bc_oldestOrphan b = Some x ->
  (forall o j, o ∈ order -> ticks j <= ob_expiration o) -> (forall o, o ∈ order -> ob_expiration x <= ob_expiration o) ->
  expire_loop ticks i order b = (Ret (), b).
Proof.
  induction order as [|o order IH]; intros i b Hx Hlive Hold; [done|]. cbn [expire_loop].
  destruct (Z.ltb_spec (ob_expiration o) (ticks i)) as [Hlt|_]; [specialize (Hlive o i (list_elem_of_here _ _)); lia|].
  rewrite (bind_Ret _ _ b () b).
  - apply IH; [done| |]; intros; [apply Hlive|apply Hold]; by right.
  - unfold modify. rewrite Hx. cbn [older]. destruct (Z.ltb_spec (ob_expiration o) (ob_expiration x)) as [Hlt|_]; [specialize (Hold o (list_elem_of_here _ _)); lia|].
    rewrite <- Hx. by destruct b.
Qed.

(** A full pool whose remembered oldest block is gone grows past its limit. *)
Lemma stale_oldest_overflow x block b :
  bc_oldestOrphan b = Some x -> bc_orphans b !! ob_hash x = None -> Z.of_nat (size (bc_orphans b)) = maxOrphanBlocks ->
  bc_orphans b !! b_Hash block = None ->
  (forall h o j, bc_orphans b !! h = Some o -> ticks j <= ob_expiration o) ->
  (forall h o, bc_orphans b !! h = Some o -> ob_expiration x <= ob_expiration o) ->
  exists b', addOrphanBlock ticks visit block b = (Ret (), b') /\ Z.of_nat (size (bc_orphans b')) = maxOrphanBlocks + 1.
Proof.
  intros Hx Hgone Hfull Hnew Hlive Hold.
  assert (forall o, o ∈ visit (bc_orphans b) -> exists h, bc_orphans b !! h = Some o) as Hin.
  { intros o. rewrite Hvisit. intros ([h y] & -> & Hy)%list_elem_of_fmap. apply elem_of_map_to_list in Hy. by exists h. }
  unfold addOrphanBlock. rewrite bind_gets.
  rewrite (bind_Ret _ _ b () b).
  2: { apply (expire_loop_idle _ x); [done| |]; intros o; [intros j|]; intros [h Ho]%Hin; [by eapply Hlive|by eapply Hold]. }
  rewrite bind_gets. unfold id. destruct (Z.ltb_spec maxOrphanBlocks (Z.of_nat (size (bc_orphans b)) + 1)); [|lia]. rewrite Hx.
  rewrite (bind_Ret _ _ b () (set_orphans (bc_orphans (removed x b)) (bc_prevOrphans (removed x b)) None (removed x b))) by done.
  eexists. split; [reflexivity|]. cbn [snd insert_orphan modify set_orphans bc_orphans removed removeOrphanBlock].
  rewrite delete_id by done. rewrite map_size_insert_None by done. lia.
Qed.
End props.
