(* ===== verification/ChainOps.v ===== *)
(** The operations that change the chain (src/blockchain/chain.go, accept.go,
    process.go) and the records they write (src/blockchain/chainio.go).

    The operations of the database on buckets do not fail; an update of the database is
    kept only when every step of it succeeds.  Locks, notifications, logging and the
    optional indexes are left out.  The blocks of the database are the serialized
    messages, without the bytes that [btcutil.Block] may keep from the network. *)

From stdpp Require Import gmap.
From S2P Require Import Prelude TxScriptErr Params Opcode Sha Wire MsgTx SigHash ScriptUtil Btcec SigCache Engine Execute ChainParams Block MoneySupply Compress RuleErr TxRules Merkle Difficulty BlockIndex ThresholdState ChainIO UtxoView Election Validate ChainState Connect Orphans.

(** [ruleerror.Err.Is]. *)
Definition IsRuleError (e : ruleerr) : bool :=
  match e with AssertError | DeploymentError _ | DbError _ | OtherError => false | _ => true end.

(** The error of a call as a value. *)
Definition attempt {A} (m : BC A) : BC (A + ruleerr) := fun b =>
  match m b with (Ret a, b') => (Ret (inl a), b') | (Throw e, b') => (Ret (inr e), b') | (Panic, b') => (Panic, b') end.

(** The errors of messages. *)
Definition wire_err {A} (m : outcome wireerr A) : outcome ruleerr A :=
  match m with Ret a => Ret a | Throw _ => Throw OtherError | Panic => Panic end.

(** * Records *)

Definition Update (f : ChainDb -> outcome ruleerr ChainDb) : BC () :=
  db ← gets bc_db;
  db ← lift (f db);
  modify (set_db db).

Definition serialized_height (h : Z) : bytes := le_split 4 (uint32 h).

Definition dbPutBlockIndex (hash : bytes) (h : Z) (db : ChainDb) : ChainDb :=
  mkDb (db_utxoSet db) (db_spendJournal db) (<[hash := serialized_height h]> (db_hashIndex db)) (<[serialized_height h := hash]> (db_heightIndex db))
    (db_blockIndex db) (db_election db) (db_chainState db) (db_blocks db).

Definition dbRemoveBlockIndex (hash : bytes) (h : Z) (db : ChainDb) : ChainDb :=
  mkDb (db_utxoSet db) (db_spendJournal db) (delete hash (db_hashIndex db)) (delete (serialized_height h) (db_heightIndex db))
    (db_blockIndex db) (db_election db) (db_chainState db) (db_blocks db).

(** [None] is [errNotInMainChain]. *)
Definition dbFetchHeightByHash (hash : bytes) (db : ChainDb) : outcome ruleerr (option Z) :=
  match db_hashIndex db !! hash with
  | None => mret None
  | Some serializedHeight =>
    s ← or_panic (slice serializedHeight 0 4);
    mret (Some (int32 (le_combine s)))
  end.

Definition dbPutBestState (snapshot : BestState) (workSum : Z) (db : ChainDb) : ChainDb :=
  mkDb (db_utxoSet db) (db_spendJournal db) (db_hashIndex db) (db_heightIndex db) (db_blockIndex db) (db_election db)
    (Some (serializeBestChainState (mkBest (bs_Hash snapshot) (uint32 (bs_Height snapshot)) (bs_TotalTxns snapshot) workSum))) (db_blocks db).

Definition dbPutElectionState (node : blockNode) (newEs : ElectionState) (db : ChainDb) : ChainDb :=
  mkDb (db_utxoSet db) (db_spendJournal db) (db_hashIndex db) (db_heightIndex db) (db_blockIndex db)
    (<[n_hash node := serializeElectionState newEs]> (db_election db)) (db_chainState db) (db_blocks db).

Definition dbFetchElectionStateByNode (node : blockNode) (db : ChainDb) : outcome ruleerr ElectionState :=
  deserializeElectionState (default [] (db_election db !! n_hash node)).

Definition put_utxoSet (x : Bucket) (db : ChainDb) : ChainDb :=
  mkDb x (db_spendJournal db) (db_hashIndex db) (db_heightIndex db) (db_blockIndex db) (db_election db) (db_chainState db) (db_blocks db).
Definition put_spendJournal (x : Bucket) (db : ChainDb) : ChainDb :=
  mkDb (db_utxoSet db) x (db_hashIndex db) (db_heightIndex db) (db_blockIndex db) (db_election db) (db_chainState db) (db_blocks db).
Definition put_blockIndex (x : Bucket) (db : ChainDb) : ChainDb :=
  mkDb (db_utxoSet db) (db_spendJournal db) (db_hashIndex db) (db_heightIndex db) x (db_election db) (db_chainState db) (db_blocks db).
Definition put_blocks (x : Bucket) (db : ChainDb) : ChainDb :=
  mkDb (db_utxoSet db) (db_spendJournal db) (db_hashIndex db) (db_heightIndex db) (db_blockIndex db) (db_election db) (db_chainState db) x.

Definition row_of (node : blockNode) (status : Z) : bytes := buffer_of (writeBlockHeader (node_Header node)) ++ [to_byte status].

Definition dbStoreBlockNode (node : blockNode) (status : Z) (db : ChainDb) : ChainDb :=
  put_blockIndex (<[blockIndexKey (n_hash node) (uint32 (height node)) := row_of node status]> (db_blockIndex db)) db.

Definition deserializeBlockRow (blockRow : bytes) : outcome ruleerr (BlockHeader * Z) :=
  match readBlockHeader blockRow with
  | (Ret header, status :: _) => Ret (header, u8 status)
  | (Ret _, []) | (Throw _, _) => Throw OtherError
  | (Panic, _) => Panic
  end.

(** The dirty nodes are nodes of the index. *)
Definition flushToDB : BC () :=
  bi ← gets bc_index;
  if len (elements (bi_dirty bi)) =? 0 then mret () else
  Update (fun db => mret (foldl (fun db hash => match LookupNode bi hash with
                                                | Some node => dbStoreBlockNode node (NodeStatus bi node) db
                                                | None => db
                                                end) db (elements (bi_dirty bi))));;
  modify (set_index (mkIndex (bi_index bi) (bi_status bi) ∅)).

Section ops.
Context `{GlobalConf} `{Crypto} `{MapOrder}.
Context (chainParams : Params) (checkpoints : list Checkpoint) (range : election -> list electionCandidate).
Context (adjustedTime : Z) (ticks : nat -> Z) (visit : gmap bytes orphanBlock -> list orphanBlock).
(** src/blockchain/packetcrypt, which is not modelled: whether the proof of the block
    with the height is valid for the hashes of the announcements' parents. *)
Context (ValidatePcBlock : MsgBlock -> Z -> list bytes -> bool).

Definition dbFetchBlockByNode (node : blockNode) (db : ChainDb) : outcome ruleerr BtcBlock :=
  match db_blocks db !! n_hash node with
  | None => mthrow OtherError
  | Some blockBytes =>
    block ← wire_err (fst (MsgBlock_Deserialize (mkBlock (mkHeader 0 zeroHash zeroHash 0 0 0) None []) blockBytes));
    mret (mkBtcBlock block (height node))
  end.

Definition dbStoreBlock (block : BtcBlock) (db : ChainDb) : outcome ruleerr ChainDb :=
  match db_blocks db !! b_Hash block with
  | Some _ => mret db
  | None =>
    match MsgBlock_Serialize (b_MsgBlock block) [] with
    | (Ret _, blockBytes) => mret (put_blocks (<[b_Hash block := blockBytes]> (db_blocks db)) db)
    | (Throw _, _) => mthrow OtherError
    | (Panic, _) => Panic
    end
  end.

Definition blockExists (hash : bytes) : BC bool :=
  b ← gets id;
  if HaveBlock (bc_index b) hash then mret true else
  match db_blocks (bc_db b) !! hash with
  | None => mret false
  | Some _ =>
    h ← lift (dbFetchHeightByHash hash (bc_db b));
    mret (match h with Some _ => true | None => false end)
  end.

Definition BlockChain_HaveBlock (hash : bytes) : BC bool :=
  found ← blockExists hash;
  b ← gets id;
  mret (found || IsKnownOrphan b hash).

Definition isCurrent : BC bool :=
  checkpoint ← lift (LatestCheckpoint checkpoints);
  t ← gets (fun b => tip (bc_bestChain b));
  t ← lift (or_panic t);
  if match checkpoint with Some c => height t <? cp_Height c | None => false end then mret false else
  let minus24Hours := int64 (adjustedTime - 24 * 3600) in
  mret (minus24Hours <=? n_timestamp t).

(** * Connecting and disconnecting a block *)

Definition set_tip (node : option blockNode) : BC () :=
  c ← gets bc_bestChain;
  c ← lift (setTip node c);
  modify (set_bestChain c).

(** The record of a block's place in the chain. *)
Definition put_connected (node : blockNode) (block : BtcBlock) (view : UtxoViewpoint) (stxos : list SpentTxOut) (newEs : ElectionState)
    (state : BestState) (db : ChainDb) : outcome ruleerr ChainDb :=
  let db := dbPutBestState state (workSum node) db in
  let db := dbPutElectionState node newEs db in
  let db := dbPutBlockIndex (b_Hash block) (height node) db in
  utxoSet ← dbPutUtxoView view (db_utxoSet db);
  let db := put_utxoSet utxoSet db in
  journal ← dbPutSpendJournalEntry (b_Hash block) stxos (db_spendJournal db);
  mret (put_spendJournal journal db).

(** The view is returned as the call leaves it. *)
Definition connectBlock (node : blockNode) (block : BtcBlock) (view : UtxoViewpoint) (stxos : list SpentTxOut) (newEs : ElectionState) : BC UtxoViewpoint :=
  t ← gets (fun b => tip (bc_bestChain b));
  t ← lift (or_panic t);
  if negb (bytes_eqb (bh_PrevBlock (mb_Header (b_MsgBlock block))) (n_hash t)) then mthrow AssertError else
  numSpent ← lift (countSpentOutputs block);
  if negb (len stxos =? numSpent) then mthrow AssertError else
  current ← isCurrent;
  (if current : bool then
     on_caches (warnUnknownRuleActivations chainParams node);;
     on_caches (warnUnknownVersions chainParams node)
   else mret ());;
  flushToDB;;
  curTotalTxns ← gets (fun b => bs_TotalTxns (bc_snapshot b));
  medianTime ← lift (CalcPastMedianTime node);
  let msg := b_MsgBlock block in
  let numTxns := len (mb_Transactions msg) in
  let state := newBestState node (uint64 (MsgBlock_SerializeSize msg)) (uint64 (GetBlockWeight msg)) numTxns
                 (uint64 (curTotalTxns + numTxns)) medianTime newEs in
  Update (put_connected node block view stxos newEs state);;
  set_tip (Some node);;
  modify (set_snapshot state);;
  mret (commit view).

Definition put_disconnected (node : blockNode) (block : BtcBlock) (view : UtxoViewpoint) (state : BestState) (db : ChainDb) : outcome ruleerr ChainDb :=
  let db := dbPutBestState state (workSum node) db in
  let db := dbRemoveBlockIndex (b_Hash block) (height node) db in
  utxoSet ← dbPutUtxoView view (db_utxoSet db);
  let db := put_utxoSet utxoSet db in
  _ ← dbFetchSpendJournalEntry (db_spendJournal db) block;
  mret (put_spendJournal (dbRemoveSpendJournalEntry (b_Hash block) (db_spendJournal db)) db).

Definition disconnectBlock (node : blockNode) (block : BtcBlock) (view : UtxoViewpoint) : BC UtxoViewpoint :=
  t ← gets (fun b => tip (bc_bestChain b));
  t ← lift (or_panic t);
  if negb (bytes_eqb (n_hash node) (n_hash t)) then mthrow AssertError else
  prevNode ← lift (or_panic (parent node));
  db ← gets bc_db;
  prevBlock ← lift (dbFetchBlockByNode prevNode db);
  prevEs ← lift (dbFetchElectionStateByNode prevNode db);
  flushToDB;;
  curTotalTxns ← gets (fun b => bs_TotalTxns (bc_snapshot b));
  medianTime ← lift (CalcPastMedianTime prevNode);
  let msg := b_MsgBlock prevBlock in
  let state := newBestState prevNode (uint64 (MsgBlock_SerializeSize msg)) (uint64 (GetBlockWeight msg)) (len (mb_Transactions msg))
                 (uint64 (curTotalTxns - len (b_Transactions block))) medianTime prevEs in
  Update (put_disconnected node block view state);;
  set_tip (parent node);;
  modify (set_snapshot state);;
  mret (commit view).

(** * Reorganization *)

(** [for n := node; n != nil && n != forkNode; n = n.parent]: the nodes from the fork
    on, and whether a node is known to be invalid. *)
Fixpoint attach_walk (bi : blockIndex) (forkNode : option blockNode) (n : blockNode) (attachNodes : list blockNode) : list blockNode * bool :=
  if decide (forkNode = Some n) then (attachNodes, false) else
  if KnownInvalid (NodeStatus bi n) then (attachNodes, true) else
  match parent n with
  | None => (n :: attachNodes, false)
  | Some p => attach_walk bi forkNode p (n :: attachNodes)
  end.

Fixpoint detach_walk (forkNode : option blockNode) (n : blockNode) : list blockNode :=
  if decide (forkNode = Some n) then [] else
  n :: match parent n with None => [] | Some p => detach_walk forkNode p end.

Definition set_flags_of (flags : Z) (nodes : list blockNode) : BC () :=
  modify (fun b => set_index (foldl (fun bi n => SetStatusFlags n flags bi) (bc_index b) nodes) b).

(** The nodes to detach and the nodes to attach. *)
Definition getReorganizeNodes (node : blockNode) : BC (list blockNode * list blockNode) :=
  p ← lift (or_panic (parent node));
  b ← gets id;
  if KnownInvalid (NodeStatus (bc_index b) p) then set_flags_of statusInvalidAncestor [node];; mret ([], []) else
  let forkNode := findFork (bc_bestChain b) (Some node) in
  let '(attachNodes, invalidChain) := attach_walk (bc_index b) forkNode node [] in
  if invalidChain : bool then set_flags_of statusInvalidAncestor attachNodes;; mret ([], []) else
  mret (match tip (bc_bestChain b) with Some t => detach_walk forkNode t | None => [] end, attachNodes).

(** The check of the blocks to detach: the blocks and the outputs they spent, and the
    view without them. *)
Fixpoint check_detach (nodes : list blockNode) (view : UtxoViewpoint) : BC (list (BtcBlock * list SpentTxOut) * UtxoViewpoint) :=
  match nodes with
  | [] => mret ([], view)
  | n :: nodes' =>
    db ← gets bc_db;
    block ← lift (dbFetchBlockByNode n db);
    if negb (bytes_eqb (n_hash n) (b_Hash block)) then mthrow AssertError else
    '(_, view) ← on_view (fetchInputUtxos (db_utxoSet db) block) view;
    stxos ← lift (dbFetchSpendJournalEntry (db_spendJournal db) block);
    '(stxos, view) ← on_view (disconnectTransactions (db_utxoSet db) block stxos) view;
    '(blocks, view) ← check_detach nodes' view;
    mret ((block, stxos) :: blocks, view)
  end.

(** The check of the blocks to attach. *)
Fixpoint check_attach (nodes : list blockNode) (view : UtxoViewpoint) : BC (list BtcBlock) :=
  match nodes with
  | [] => mret []
  | n :: nodes' =>
    db ← gets bc_db;
    block ← lift (dbFetchBlockByNode n db);
    bi ← gets bc_index;
    view ← (if KnownValid (NodeStatus bi n) then
              '(_, view) ← on_view (fetchInputUtxos (db_utxoSet db) block) view;
              '(_, view) ← on_view (connectTransactions block None) view;
              mret view
            else
              r ← attempt (checkConnectBlock chainParams checkpoints range n block view None);
              match r with
              | inl (_, view, _) => set_flags_of statusValid [n];; mret view
              | inr e =>
                (if IsRuleError e then set_flags_of statusValidateFailed [n];; set_flags_of statusInvalidAncestor nodes' else mret ());;
                mthrow e
              end);
    blocks ← check_attach nodes' view;
    mret (block :: blocks)
  end.

Fixpoint apply_detach (nodes : list blockNode) (blocks : list (BtcBlock * list SpentTxOut)) (view : UtxoViewpoint) : BC UtxoViewpoint :=
  match nodes with
  | [] => mret view
  | n :: nodes' =>
    match blocks with
    | [] => lift Panic
    | (block, stxos) :: blocks' =>
      db ← gets bc_db;
      '(_, view) ← on_view (fetchInputUtxos (db_utxoSet db) block) view;
      '(_, view) ← on_view (disconnectTransactions (db_utxoSet db) block stxos) view;
      view ← disconnectBlock n block view;
      apply_detach nodes' blocks' view
    end
  end.

Fixpoint apply_attach (nodes : list blockNode) (blocks : list BtcBlock) (view : UtxoViewpoint) : BC UtxoViewpoint :=
  match nodes with
  | [] => mret view
  | n :: nodes' =>
    match blocks with
    | [] => lift Panic
    | block :: blocks' =>
      db ← gets bc_db;
      '(_, view) ← on_view (fetchInputUtxos (db_utxoSet db) block) view;
      '(stxos, view) ← on_view (connectTransactions block (Some [])) view;
      tipState ← gets (fun b => bs_Elect (bc_snapshot b));
      esState ← lift (electionProcessBlock range tipState (db_utxoSet db) view (height n));
      view ← connectBlock n block view (default [] stxos) esState;
      apply_attach nodes' blocks' view
    end
  end.

Definition same_fork (detachNodes attachNodes : list blockNode) : outcome ruleerr bool :=
  match attachNodes, index detachNodes (len detachNodes - 1) with
  | firstAttachNode :: _, Some lastDetachNode =>
    p ← or_panic (parent firstAttachNode);
    q ← or_panic (parent lastDetachNode);
    mret (bytes_eqb (n_hash p) (n_hash q))
  | _, _ => mret true
  end.

(** The checks before anything is changed. *)
Definition check_reorganization (detachNodes attachNodes : list blockNode) : BC (list (BtcBlock * list SpentTxOut) * list BtcBlock) :=
  t ← gets (fun b => tip (bc_bestChain b));
  t ← lift (or_panic t);
  if match detachNodes with n :: _ => negb (bytes_eqb (n_hash n) (n_hash t)) | [] => false end then mthrow AssertError else
  same ← lift (same_fork detachNodes attachNodes);
  if negb same then mthrow AssertError else
  '(detachBlocks, view) ← check_detach detachNodes (SetBestHash (n_hash t) NewUtxoViewpoint);
  attachBlocks ← check_attach attachNodes view;
  mret (detachBlocks, attachBlocks).

Definition reorganizeChain (detachNodes attachNodes : list blockNode) : BC () :=
  if (len detachNodes =? 0) && (len attachNodes =? 0) then mret () else
  '(detachBlocks, attachBlocks) ← check_reorganization detachNodes attachNodes;
  t ← gets (fun b => tip (bc_bestChain b));
  t ← lift (or_panic t);
  view ← apply_detach detachNodes detachBlocks (SetBestHash (n_hash t) NewUtxoViewpoint);
  _ ← apply_attach attachNodes attachBlocks view;
  mret ().

(** * The best chain *)

(** An error of the flush is only logged. *)
Definition flushIndexState : BC () := _ ← attempt flushToDB; mret ().

(** The view, the spent outputs and the election state for a block that extends the
    chain. *)
Definition extension_view (node : blockNode) (block : BtcBlock) (fastAdd : bool) : BC (UtxoViewpoint * list SpentTxOut * ElectionState) :=
  let view := SetBestHash (prev_hash block) NewUtxoViewpoint in
  if fastAdd then
    db ← gets (fun b => db_utxoSet (bc_db b));
    '(_, view) ← on_view (fetchInputUtxos db block) view;
    '(stxos, view) ← on_view (connectTransactions block (Some [])) view;
    tipState ← gets (fun b => bs_Elect (bc_snapshot b));
    nextEs ← lift (electionProcessBlock range tipState db view (height node));
    mret (view, default [] stxos, nextEs)
  else
    r ← attempt (checkConnectBlock chainParams checkpoints range node block view (Some []));
    match r with
    | inl (nextEs, view, stxos) =>
      set_flags_of statusValid [node];; flushIndexState;;
      mret (view, default [] stxos, nextEs)
    | inr e =>
      (if IsRuleError e then set_flags_of statusValidateFailed [node];; flushIndexState else mret ());;
      mthrow e
    end.

Definition extend_chain (node : blockNode) (block : BtcBlock) (fastAdd : bool) : BC bool :=
  bi ← gets bc_index;
  _ ← lift (countSpentOutputs block);
  let fastAdd := fastAdd || KnownValid (NodeStatus bi node) in
  '(view, stxos, nextEs) ← extension_view node block fastAdd;
  r ← attempt (connectBlock node block view stxos nextEs);
  match r with
  | inr e =>
    (if IsRuleError e then set_flags_of statusValidateFailed [node] else mret ());;
    flushIndexState;;
    mthrow e
  | inl _ =>
    bi ← gets bc_index;
    (if fastAdd || negb (KnownValid (NodeStatus bi node)) then set_flags_of statusValid [node];; flushIndexState else mret ());;
    mret true
  end.

(** A fork that is not found makes the log message of a side chain panic. *)
Definition connectBestChain (node : blockNode) (block : BtcBlock) (flags : Z) : BC bool :=
  let fastAdd := flags &&& BFFastAdd =? BFFastAdd in
  b ← gets id;
  t ← lift (or_panic (tip (bc_bestChain b)));
  if bytes_eqb (prev_hash block) (n_hash t) then extend_chain node block fastAdd else
  if workSum node <=? workSum t then
    _ ← lift (or_panic (findFork (bc_bestChain b) (Some node)));
    mret false
  else
    '(detachNodes, attachNodes) ← getReorganizeNodes node;
    r ← attempt (reorganizeChain detachNodes attachNodes);
    flushIndexState;;
    match r with inl _ => mret true | inr e => mthrow e end.

(** * Accepting and processing a block *)

Definition BlockHeightUnknown : Z := -1.

Definition store_node (node : blockNode) (status : Z) (bi : blockIndex) : blockIndex :=
  AddNode node (mkIndex (bi_index bi) (<[n_hash node := status]> (bi_status bi)) (bi_dirty bi)).

Definition maybeAcceptBlock (block : BtcBlock) (flags : Z) : BC bool :=
  bi ← gets bc_index;
  match LookupNode bi (prev_hash block) with
  | None => mthrow ErrPreviousBlockUnknown
  | Some prevNode =>
    if KnownInvalid (NodeStatus bi prevNode) then mthrow ErrInvalidAncestorBlock else
    let blockHeight := int32 (height prevNode + 1) in
    if negb (b_Height block =? BlockHeightUnknown) && negb (b_Height block =? blockHeight) then mthrow ErrBadCoinbaseHeight else
    let block := mkBtcBlock (b_MsgBlock block) blockHeight in
    checkBlockContext chainParams checkpoints block prevNode flags;;
    Update (dbStoreBlock block);;
    let newNode := newBlockNode (mb_Header (b_MsgBlock block)) (Some prevNode) in
    modify (fun b => set_index (store_node newNode statusDataStored (bc_index b)) b);;
    flushToDB;;
    connectBestChain newNode block flags
  end.

(** The first hash of the queue is served until no orphan depends on it; an accepted
    or rejected orphan is put at the end of the queue.  The loop ends because every
    orphan is removed from the pool before it is processed; the fuel is a bound of the
    number of rounds, see [process_loop_enough]. *)
Fixpoint process_loop (fuel : nat) (processHashes : list bytes) (flags : Z) : BC () :=
  match processHashes with
  | [] => mret ()
  | processHash :: rest =>
    match fuel with
    | O => lift Panic
    | S fuel' =>
      orphans ← gets (fun b => default [] (bc_prevOrphans b !! processHash));
      match orphans with
      | [] => process_loop fuel' rest flags
      | orphan :: _ =>
        removeOrphanBlock orphan;;
        r ← attempt (maybeAcceptBlock (ob_block orphan) flags);
        match r with
        | inl _ => process_loop fuel' (processHashes ++ [ob_hash orphan]) flags
        | inr e => if IsRuleError e then process_loop fuel' (processHashes ++ [ob_hash orphan]) flags else mthrow e
        end
      end
    end
  end.

Definition processOrphans (hash : bytes) (flags : Z) : BC () :=
  b ← gets id;
  process_loop (2 * size (bc_orphans b) + 1) [hash] flags.

(** The walk to the ancestor with the height; errors carry only a text. *)
Definition BlockHashByHeightContextual (b : BlockChain) (h : Z) (context : bytes) : option bytes :=
  match LookupNode (bc_index b) context with
  | None => None
  | Some node => if height node <? h then None else n_hash <$> walk_to node h
  end.

Definition GetParentBlockHeight (p : bytes) : Z := le_combine (take 4 (drop 12 p)).

Fixpoint ann_parents (b : BlockChain) (prev : bytes) (h : Z) (anns : list bytes) : outcome ruleerr (list bytes) :=
  match anns with
  | [] => mret []
  | ann :: anns' =>
    let ph := GetParentBlockHeight ann in
    if uint32 h <? ph then mthrow ErrBadPow else
    match BlockHashByHeightContextual b (int32 ph) prev with
    | None => mthrow ErrPowCannotVerify
    | Some hash => hashes ← ann_parents b prev h anns'; mret (hash :: hashes)
    end
  end.

Definition pcCheckProofOfWork (b : BlockChain) (block : BtcBlock) : outcome ruleerr Z :=
  match mb_Pcp (b_MsgBlock block) with
  | None => mthrow ErrBadPow
  | Some pcp =>
    match b_Transactions block with
    | [] => mthrow OtherError
    | coinbase :: _ =>
      h ← ExtractCoinbaseHeight coinbase;
      if negb (IsPacketCryptAllowedVersion (pcp_Version pcp) h) then mthrow ErrBadPow else
      hashes ← ann_parents b (prev_hash block) h (Announcements pcp);
      if negb (ValidatePcBlock (b_MsgBlock block) h hashes) then mthrow ErrBadPow else mret h
    end
  end.

(** The block with the height that its proof is for. *)
Definition check_pow (block : BtcBlock) (flags : Z) (b : BlockChain) : outcome ruleerr BtcBlock :=
  if negb (bool_decide (ProofOfWorkAlgorithm gConf = PowPacketCrypt)) then mret block else
  if flags &&& BFNoPoWCheck =? BFNoPoWCheck then mret block else
  h ← pcCheckProofOfWork b block;
  mret (mkBtcBlock (b_MsgBlock block) h).

(** The block against the last checkpoint that the chain has passed. *)
Definition check_checkpoint (header : BlockHeader) (fastAdd : bool) : BC () :=
  checkpointNode ← findPreviousCheckpoint checkpoints;
  match checkpointNode with
  | None => mret ()
  | Some checkpointNode =>
    if bh_Timestamp header <? n_timestamp checkpointNode then mthrow ErrCheckpointTimeTooOld else
    if fastAdd then mret () else
    let duration := Z.max (- 2 ^ 63) (Z.min (2 ^ 63 - 1) ((bh_Timestamp header - n_timestamp checkpointNode) * Second)) in
    let requiredTarget := CompactToBig (calcEasiestDifficulty chainParams (n_bits checkpointNode) duration) in
    if requiredTarget <? CompactToBig (bh_Bits header) then mthrow ErrDifficultyTooLow else mret ()
  end.

(** Whether the block is on the main chain, whether it is an orphan, and the error;
    with an error of the proof of work the second flag is still meaningful. *)
Abbreviation result := (bool * bool * option ruleerr)%type.

Definition or_return {A} (m : BC A) (k : A -> BC result) : BC result :=
  r ← attempt m;
  match r with inl a => k a | inr e => mret (false, false, Some e) end.

(** A call is one step here.  The code gives up the chain lock while it sends a
    notification (in [connectBlock], [disconnectBlock], [reorganizeChain] and
    [maybeAcceptBlock]), so that a call of another goroutine can run in between; such
    interleavings are not modelled. *)
Definition ProcessBlock (block : BtcBlock) (flags : Z) : BC result :=
  let fastAdd := flags &&& BFFastAdd =? BFFastAdd in
  let header := mb_Header (b_MsgBlock block) in
  or_return (blockExists (b_Hash block)) (fun exists_ =>
  if exists_ : bool then mret (false, false, Some ErrDuplicateBlock) else
  b ← gets id;
  if IsKnownOrphan b (b_Hash block) then mret (false, false, Some ErrDuplicateBlock) else
  or_return (lift (checkBlockSanity block (PowLimit chainParams) adjustedTime flags)) (fun _ =>
  pow ← attempt (lift (check_pow block flags b));
  match pow with
  | inr e =>
    prevHashExists ← blockExists (prev_hash block);
    mret (false, negb prevHashExists, Some e)
  | inl block =>
    or_return (check_checkpoint header fastAdd) (fun _ =>
    or_return (blockExists (prev_hash block)) (fun prevHashExists =>
    if negb prevHashExists then
      addOrphanBlock ticks visit block;;
      mret (false, true, None)
    else
    or_return (maybeAcceptBlock block flags) (fun isMainChain =>
    or_return (processOrphans (b_Hash block) flags) (fun _ =>
    mret (isMainChain, false, None)))))
  end)).
End ops.
