(* ===== verification/Frame.v ===== *)
(** What the operations of the chain leave alone: the checks change only the statuses of
    nodes and the caches, and nothing but its own operations touches the pool of
    orphans. *)

From stdpp Require Import gmap.
From S2P Require Import Prelude TxScriptErr Params Opcode Sha Wire MsgTx SigHash ScriptUtil Btcec SigCache Engine Execute ChainParams Block MoneySupply Compress RuleErr TxRules Merkle Difficulty BlockIndex ThresholdState ChainIO UtxoView Election Validate ChainState Connect Orphans ChainOps.

(** [f] of the state is the same after the operation, whatever its outcome. *)
Definition keeps {X A} (f : BlockChain -> X) (m : BC A) : Prop := forall b, f (snd (m b)) = f b.

Section keeps.
Context {X : Type} (f : BlockChain -> X).

Lemma keeps_bind {A B} (m : BC A) (k : A -> BC B) : keeps f m -> (forall a, keeps f (k a)) -> keeps f (a ← m; k a).
Proof.
  intros Hm Hk b. specialize (Hm b). unfold mbind, St_bind. destruct (m b) as [[a|e|] b']; cbn in *; [|done|done].
  by rewrite (Hk a b').
Qed.

Lemma keeps_lift {A} (m : outcome ruleerr A) : keeps f (lift m).
Proof. done. Qed.

Lemma keeps_ret {A} (a : A) : keeps f (mret a).
Proof. done. Qed.

Lemma keeps_throw {A} (e : ruleerr) : keeps f (mthrow e : BC A).
Proof. done. Qed.

Lemma keeps_gets {A} (g : BlockChain -> A) : keeps f (gets g).
Proof. done. Qed.

Lemma keeps_modify (g : BlockChain -> BlockChain) : (forall b, f (g b) = f b) -> keeps f (modify g).
Proof. intros Hg b. apply Hg. Qed.

Lemma keeps_on_field {S A} (get : BlockChain -> S) (set : S -> BlockChain -> BlockChain) (m : St ruleerr S A) :
  (forall x b, f (set x b) = f b) -> keeps f (on_field get set m).
Proof. intros Hs b. unfold on_field. destruct (m (get b)) as [o x]. apply Hs. Qed.

Lemma keeps_on_view {A} (m : View A) view : keeps f (on_view m view).
Proof. intros b. unfold on_view. by destruct (m view) as [[a|e|] v]. Qed.

Lemma keeps_attempt {A} (m : BC A) : keeps f m -> keeps f (attempt m).
Proof. intros Hm b. specialize (Hm b). unfold attempt. by destruct (m b) as [[a|e|] b']. Qed.
End keeps.

Create HintDb keeps.
Create HintDb quiet.

(** Follows the structure of an operation. *)
Ltac keep :=
  repeat first
    [ progress intros
    | assumption
    | solve [auto with keeps]
    | simple apply keeps_ret
    | simple apply keeps_throw
    | simple apply keeps_lift
    | simple apply keeps_gets
    | simple apply keeps_on_view
    | simple apply keeps_bind
    | simple apply keeps_attempt
    | simple apply keeps_on_field; intros; solve [auto with quiet]
    | simple apply keeps_modify; intros; solve [auto with quiet]
    | case_match ].

(** [f] does not see the statuses of nodes and the caches. *)
Class Quiet {X} (f : BlockChain -> X) : Prop := {
  quiet_index : forall x b, bi_index x = bi_index (bc_index b) -> f (set_index x b) = f b;
  quiet_caches : forall x b, f (set_caches x b) = f b;
  quiet_checkpoints : forall x y b, f (set_checkpoints x y b) = f b;
  quiet_script : forall x y b, f (set_script_caches x y b) = f b
}.
#[export] Hint Resolve quiet_index quiet_caches quiet_checkpoints quiet_script : quiet.

Section checks.
Context `{GlobalConf} `{Crypto} `{MapOrder}.
Context (chainParams : Params) (checkpoints : list Checkpoint) (range : election -> list electionCandidate).
Context {X : Type} (f : BlockChain -> X) `{!Quiet f}.

Lemma search_checkpoint_keeps n : keeps f (search_checkpoint checkpoints n).
Proof. induction n as [|n IH]; cbn [search_checkpoint]; keep. Qed.

Lemma findPreviousCheckpoint_keeps : keeps f (findPreviousCheckpoint checkpoints).
Proof. pose proof search_checkpoint_keeps. unfold findPreviousCheckpoint. keep. all: auto. Qed.

Lemma on_caches_keeps {A} (m : Chain A) : keeps f (on_caches m).
Proof. unfold on_caches. keep. Qed.

Lemma set_flags_index flags nodes : forall bi, bi_index (foldl (fun bi n => SetStatusFlags n flags bi) bi nodes) = bi_index bi.
Proof. induction nodes as [|n nodes IH]; intros bi; [done|]. cbn [foldl]. by rewrite IH. Qed.

Lemma set_flags_of_keeps flags nodes : keeps f (set_flags_of flags nodes).
Proof. apply keeps_modify. intros b. by apply quiet_index, set_flags_index. Qed.
#[local] Hint Resolve findPreviousCheckpoint_keeps on_caches_keeps set_flags_of_keeps : keeps.

Lemma checkBlockContext_keeps block prevNode flags : keeps f (checkBlockContext chainParams checkpoints block prevNode flags).
Proof. unfold checkBlockContext, checkBlockHeaderContext. keep. Qed.

Lemma calcSequenceLock_keeps node tx view mempool : keeps f (calcSequenceLock chainParams node tx view mempool).
Proof. unfold calcSequenceLock. keep. Qed.
#[local] Hint Resolve calcSequenceLock_keeps : keeps.

Lemma check_locks_keeps node txs view medianTime : keeps f (check_locks chainParams node txs view medianTime).
Proof. induction txs as [|tx txs IH]; cbn [check_locks]; keep. Qed.

Lemma checkBlockScripts_keeps block view flags : keeps f (checkBlockScripts block view flags).
Proof. unfold checkBlockScripts. keep. Qed.
#[local] Hint Resolve check_locks_keeps checkBlockScripts_keeps : keeps.

Lemma checkConnectBlock_keeps node block view stxos : keeps f (checkConnectBlock chainParams checkpoints range node block view stxos).
Proof. unfold checkConnectBlock. keep. Qed.
#[local] Hint Resolve checkConnectBlock_keeps : keeps.

Lemma check_detach_keeps nodes : forall view, keeps f (check_detach nodes view).
Proof. induction nodes as [|n nodes IH]; cbn [check_detach]; keep. Qed.

Lemma check_attach_keeps nodes : forall view, keeps f (check_attach chainParams checkpoints range nodes view).
Proof. induction nodes as [|n nodes IH]; cbn [check_attach]; keep; apply IH. Qed.
#[local] Hint Resolve check_detach_keeps check_attach_keeps : keeps.

Lemma check_reorganization_keeps detachNodes attachNodes : keeps f (check_reorganization chainParams checkpoints range detachNodes attachNodes).
Proof. unfold check_reorganization. keep. Qed.

Lemma getReorganizeNodes_keeps node : keeps f (getReorganizeNodes node).
Proof. unfold getReorganizeNodes. keep. Qed.
End checks.
#[export] Hint Resolve findPreviousCheckpoint_keeps on_caches_keeps set_flags_of_keeps checkBlockContext_keeps checkConnectBlock_keeps
  check_reorganization_keeps getReorganizeNodes_keeps : keeps.

(** * The pool of orphans *)

Definition pool_of (b : BlockChain) : gmap bytes orphanBlock * gmap bytes (list orphanBlock) * option orphanBlock :=
  (bc_orphans b, bc_prevOrphans b, bc_oldestOrphan b).

#[export] Instance pool_quiet : Quiet pool_of.
Proof. by split. Qed.
#[export] Hint Resolve pool_quiet : keeps.

Section pool.
Context `{GlobalConf} `{Crypto} `{MapOrder}.
Context (chainParams : Params) (checkpoints : list Checkpoint) (range : election -> list electionCandidate) (adjustedTime : Z).

Lemma Update_pool g : keeps pool_of (Update g).
Proof. unfold Update. keep. Qed.
#[local] Hint Resolve Update_pool : keeps.

Lemma flushToDB_pool : keeps pool_of flushToDB.
Proof. unfold flushToDB. keep. Qed.

Lemma set_tip_pool node : keeps pool_of (set_tip node).
Proof. unfold set_tip. keep. Qed.

Lemma set_snapshot_pool state : keeps pool_of (modify (set_snapshot state)).
Proof. by apply keeps_modify. Qed.

Lemma blockExists_pool hash : keeps pool_of (blockExists hash).
Proof. unfold blockExists. keep. Qed.

Lemma isCurrent_pool : keeps pool_of (isCurrent checkpoints adjustedTime).
Proof. unfold isCurrent. keep. Qed.
#[local] Hint Resolve flushToDB_pool set_tip_pool set_snapshot_pool blockExists_pool isCurrent_pool : keeps.

Lemma connectBlock_pool node block view stxos newEs : keeps pool_of (connectBlock chainParams checkpoints adjustedTime node block view stxos newEs).
Proof. unfold connectBlock. keep. Qed.

Lemma disconnectBlock_pool node block view : keeps pool_of (disconnectBlock node block view).
Proof. unfold disconnectBlock. keep. Qed.
#[local] Hint Resolve connectBlock_pool disconnectBlock_pool : keeps.

Lemma apply_detach_pool nodes : forall blocks view, keeps pool_of (apply_detach nodes blocks view).
Proof. induction nodes as [|n nodes IH]; cbn [apply_detach]; keep. Qed.

Lemma apply_attach_pool nodes : forall blocks view, keeps pool_of (apply_attach chainParams checkpoints range adjustedTime nodes blocks view).
Proof. induction nodes as [|n nodes IH]; cbn [apply_attach]; keep. Qed.
#[local] Hint Resolve apply_detach_pool apply_attach_pool : keeps.

Lemma extend_chain_pool node block fastAdd : keeps pool_of (extend_chain chainParams checkpoints range adjustedTime node block fastAdd).
Proof. unfold extend_chain, extension_view, flushIndexState. keep. Qed.
#[local] Hint Resolve extend_chain_pool : keeps.

Lemma connectBestChain_pool node block flags : keeps pool_of (connectBestChain chainParams checkpoints range adjustedTime node block flags).
Proof. unfold connectBestChain, reorganizeChain, flushIndexState. keep. Qed.
#[local] Hint Resolve connectBestChain_pool : keeps.

Lemma maybeAcceptBlock_pool block flags : keeps pool_of (maybeAcceptBlock chainParams checkpoints range adjustedTime block flags).
Proof. unfold maybeAcceptBlock. keep. Qed.

Lemma check_checkpoint_pool header fastAdd : keeps pool_of (check_checkpoint chainParams checkpoints header fastAdd).
Proof. unfold check_checkpoint. keep. Qed.
End pool.
