(* ===== verification/Process.v ===== *)
(** The processing of blocks: the pool of orphans over any sequence of calls of
    [ProcessBlock] (src/blockchain/process.go). *)

From stdpp Require Import gmap.
From S2P Require Import Prelude TxScriptErr Params Opcode Sha Wire MsgTx SigHash ScriptUtil Btcec SigCache Engine Execute EngineProps ChainParams Block MoneySupply Compress RuleErr TxRules Merkle Difficulty BlockIndex ThresholdState ChainIO UtxoView Election Validate ChainState Sane Connect Supply Orphans OrphanProps ChainOps Frame.

#[local] Opaque b_Hash.

Section process.
Context `{GlobalConf} `{Crypto} `{MapOrder}.
Context (chainParams : Params) (checkpoints : list Checkpoint) (range : election -> list electionCandidate).
Context (adjustedTime : Z) (prev_of : bytes -> bytes).

#[local] Abbreviation accept := (maybeAcceptBlock chainParams checkpoints range adjustedTime).
#[local] Abbreviation process := (process_loop chainParams checkpoints range adjustedTime).

(** The invariant of the pool depends on the pool only. *)
Lemma pool_ok_same b b' : pool_of b' = pool_of b -> pool_ok prev_of b -> pool_ok prev_of b'.
Proof.
  unfold pool_of. intros [= E1 E2 E3] [Hk Hi Hc Ho].
  split; rewrite ?E1, ?E2, ?E3; [exact Hk|exact Hi|exact Hc|exact Ho].
Qed.

Lemma pool_bounded_same b b' : pool_of b' = pool_of b -> pool_bounded b -> pool_bounded b'.
Proof. unfold pool_of, pool_bounded. intros [= -> _ ->]. done. Qed.

(** The smaller pool has room when the larger one has. *)
Definition shrinks (b b' : BlockChain) : Prop :=
  (size (bc_orphans b') <= size (bc_orphans b))%nat /\ bc_oldestOrphan b' = bc_oldestOrphan b /\
  forall h, bc_prevOrphans b !! h = None -> bc_prevOrphans b' !! h = None.

Lemma shrinks_same b b' : pool_of b' = pool_of b -> shrinks b b'.
Proof. unfold pool_of, shrinks. intros [= -> -> ->]. done. Qed.

Lemma shrinks_trans b1 b2 b3 : shrinks b1 b2 -> shrinks b2 b3 -> shrinks b1 b3.
Proof. intros (? & ? & ?) (? & ? & ?). split; [lia|]. split; [congruence|]. auto. Qed.

Lemma shrinks_bounded b b' : shrinks b b' -> pool_bounded b -> pool_bounded b'.
Proof. intros (Hs & Ho & _) [Hb|[Hb Hn]]; unfold pool_bounded; rewrite Ho; [left|destruct (decide (size (bc_orphans b') = size (bc_orphans b))); [right|left]]; lia || (split; [lia|done]). Qed.

Lemma removed_shrinks o b : shrinks b (removed o b).
Proof.
  split; [apply removed_size|]. split; [done|]. intros h Hh. rewrite removed_index. case_decide; [|done].
  by rewrite Hh.
Qed.

(** A round of the loop that takes an orphan. *)
Lemma first_orphan b h o l : pool_ok prev_of b -> bc_prevOrphans b !! h = Some (o :: l) ->
  member b o /\ ob_prev o = prev_of (ob_hash o).
Proof.
  intros Hok El. destruct (pool_index _ _ Hok _ _ El) as (_ & _ & Hall).
  destruct (Hall o (list_elem_of_here _ _)) as [Hp Hm]. split; [done|]. by apply (pool_keys _ _ Hok).
Qed.

Lemma attempt_accept block flags b : 
  exists r b', attempt (accept block flags) b = (r, b') /\ pool_of b' = pool_of b /\ forall e, r <> Throw e.
Proof.
  pose proof (keeps_attempt pool_of _ (maybeAcceptBlock_pool chainParams checkpoints range adjustedTime block flags) b) as Hk.
  assert (forall e, fst (attempt (accept block flags) b) <> Throw e) as Hn by (intros e; unfold attempt; by destruct (accept block flags b) as [[]]).
  destruct (attempt (accept block flags) b) as [r b']. exists r, b'. done.
Qed.

(** More fuel than the rounds that the pool allows makes no difference. *)
Lemma process_loop_enough flags n : forall m hashes b, pool_ok prev_of b ->
  (2 * size (bc_orphans b) + length hashes <= n)%nat -> (n <= m)%nat ->
  process n hashes flags b = process m hashes flags b.
Proof.
  induction n as [|n IH]; intros m hashes b Hok Hn Hm.
  - destruct hashes; [by destruct m|cbn in Hn; lia].
  - destruct m as [|m]; [lia|]. destruct hashes as [|h hashes]; [done|]. cbn [process_loop length] in *.
    rewrite !bind_gets. destruct (bc_prevOrphans b !! h) as [[|o l]|] eqn:El; cbn [default from_option id]; [apply IH; [done|lia|lia]| |apply IH; [done|lia|lia]].
    destruct (first_orphan _ _ _ _ Hok El) as [Hmem Hp].
    rewrite !(bind_Ret (removeOrphanBlock o) _ b () (removed o b)) by done.
    pose proof (removed_member o b Hmem) as Hs. pose proof (removed_ok prev_of o b Hok Hp) as Hok1.
    destruct (attempt_accept (ob_block o) flags (removed o b)) as (r & b' & Ea & Ep & Hr).
    unfold mbind, St_bind. rewrite Ea. destruct r as [[x|e]|e|]; [|destruct (IsRuleError e); [|done]|done|done].
    all: assert (size (bc_orphans b') = size (bc_orphans (removed o b))) as Es by (unfold pool_of in Ep; congruence).
    all: apply IH; [by eapply pool_ok_same|rewrite ?length_app; cbn [length]; lia|lia].
Qed.

(** The loop only takes blocks out of the pool, and leaves no orphan of a hash that it
    has served. *)
Lemma process_loop_pool flags n : forall hashes b, pool_ok prev_of b -> (2 * size (bc_orphans b) + length hashes <= n)%nat ->
  let '(r, b') := process n hashes flags b in
  pool_ok prev_of b' /\ shrinks b b' /\ (r = Ret () -> forall h, h ∈ hashes -> bc_prevOrphans b' !! h = None).
Proof.
  induction n as [|n IH]; intros hashes b Hok Hn.
  - destruct hashes; [|cbn in Hn; lia]. split; [done|]. split; [by apply shrinks_same|]. intros _ h Hh. by apply not_elem_of_nil in Hh.
  - destruct hashes as [|h hashes].
    { split; [done|]. split; [by apply shrinks_same|]. intros _ x Hx. by apply not_elem_of_nil in Hx. }
    cbn [process_loop length] in *. rewrite bind_gets. destruct (bc_prevOrphans b !! h) as [[|o l]|] eqn:El; cbn [default from_option id].
    + by destruct (pool_index _ _ Hok _ _ El).
    + destruct (first_orphan _ _ _ _ Hok El) as [Hmem Hp].
      rewrite (bind_Ret (removeOrphanBlock o) _ b () (removed o b)) by done.
      pose proof (removed_member o b Hmem) as Hs. pose proof (removed_ok prev_of o b Hok Hp) as Hok1.
      destruct (attempt_accept (ob_block o) flags (removed o b)) as (r & b' & Ea & Ep & Hr).
      assert (pool_ok prev_of b') as Hok' by (by eapply pool_ok_same).
      assert (shrinks b b') as Hsh by (eapply shrinks_trans; [apply removed_shrinks|by apply shrinks_same]).
      assert (size (bc_orphans b') = size (bc_orphans (removed o b))) as Es by (unfold pool_of in Ep; congruence).
      assert (let '(r, b'') := process n ((h :: hashes) ++ [ob_hash o]) flags b' in
        pool_ok prev_of b'' /\ shrinks b b'' /\ (r = Ret () -> forall x, x ∈ h :: hashes -> bc_prevOrphans b'' !! x = None)) as Hrec.
      { specialize (IH ((h :: hashes) ++ [ob_hash o]) b' Hok'). destruct (process n _ flags b') as [r2 b2].
        destruct IH as (H2 & H3 & H4); [rewrite length_app; cbn [length]; lia|]. split; [done|]. split; [by eapply shrinks_trans|].
        intros Er x Hx. apply (H4 Er), elem_of_app. by left. }
      unfold mbind, St_bind. rewrite Ea. destruct r as [[x|e]|e|]; [exact Hrec|destruct (IsRuleError e); [exact Hrec|done]|done|done].
    + specialize (IH hashes b Hok). destruct (process n hashes flags b) as [r b']. destruct IH as (H2 & H3 & H4); [lia|].
      split; [done|]. split; [done|]. intros Er x [->|Hx]%elem_of_cons; [by apply H3|by apply H4].
Qed.

Lemma processOrphans_pool hash flags b : pool_ok prev_of b ->
  let '(r, b') := processOrphans chainParams checkpoints range adjustedTime hash flags b in
  pool_ok prev_of b' /\ shrinks b b' /\ (r = Ret () -> bc_prevOrphans b' !! hash = None).
Proof.
  intros Hok. unfold processOrphans. rewrite bind_gets.
  pose proof (process_loop_pool flags (2 * size (bc_orphans b) + 1) [hash] b Hok ltac:(cbn; lia)) as Hp.
  unfold id. destruct (process_loop _ _ _ _ _ _ _ b) as [r b']. destruct Hp as (H2 & H3 & H4). split; [done|]. split; [done|].
  intros Er. apply (H4 Er), list_elem_of_here.
Qed.

(** * A call of [ProcessBlock] *)

Context (ticks : nat -> Z) (visit : gmap bytes orphanBlock -> list orphanBlock) (ValidatePcBlock : MsgBlock -> Z -> list bytes -> bool).
Context (Hvisit : forall m, visit m ≡ₚ (map_to_list m).*2).

(** The pool is in order after the call; a block that is an orphan is in the pool and no
    block waits for one that was accepted. *)
Definition processed (hash : bytes) (res : outcome ruleerr (bool * bool * option ruleerr) * BlockChain) : Prop :=
  let '(r, b') := res in
  pool_ok prev_of b' /\ pool_bounded b' /\
  (forall main, r = Ret (main, false, None) -> bc_prevOrphans b' !! hash = None) /\
  (r = Ret (false, true, None) -> is_Some (bc_orphans b' !! hash)).

Definition pool_good (b : BlockChain) : Prop := pool_ok prev_of b /\ pool_bounded b.

Lemma pool_good_same b b' : pool_of b' = pool_of b -> pool_good b -> pool_good b'.
Proof. intros E [Hok Hb]. split; [by eapply pool_ok_same|by eapply pool_bounded_same]. Qed.

Lemma failed_processed hash main orphan e b : pool_good b -> processed hash (Ret (main, orphan, Some e), b).
Proof. intros [Hok Hb]. split; [done|]. split; [done|]. split; [intros ? [=]|intros [=]]. Qed.

Lemma or_return_processed {A} hash (m : BC A) k b : keeps pool_of m -> pool_good b ->
  (forall a b', pool_of b' = pool_of b -> processed hash (k a b')) -> processed hash (or_return m k b).
Proof.
  intros Hm Hb Hk. specialize (Hm b). unfold or_return, mbind, St_bind, attempt.
  destruct (m b) as [[a|e|] b']; cbn [snd] in Hm.
  - by apply Hk.
  - apply failed_processed. by eapply pool_good_same.
  - destruct (pool_good_same _ _ Hm Hb). split; [done|]. split; [done|]. split; [intros ? [=]|intros [=]].
Qed.

Lemma orphaned_processed block b : pool_good b -> bc_orphans b !! b_Hash block = None -> prev_hash block = prev_of (b_Hash block) ->
  processed (b_Hash block) ((addOrphanBlock ticks visit block;; mret (false, true, None)) b).
Proof.
  intros [Hok Hb] Hnew Hp. destruct (addOrphanBlock_spec prev_of ticks visit Hvisit block b Hok Hb Hnew Hp) as (b' & Ea & Hok' & Hb' & Hin).
  rewrite (bind_Ret _ _ _ _ _ Ea). split; [done|]. split; [done|]. split; [intros ? [=]|done].
Qed.

Lemma accepted_processed block flags main b : pool_good b ->
  processed (b_Hash block) (or_return (processOrphans chainParams checkpoints range adjustedTime (b_Hash block) flags) (fun _ => mret (main, false, None)) b).
Proof.
  intros [Hok Hb]. pose proof (processOrphans_pool (b_Hash block) flags b Hok) as Hp.
  unfold or_return, mbind, St_bind, attempt. destruct (processOrphans _ _ _ _ _ _ b) as [r b']. destruct Hp as (Hok' & Hs & Hn).
  pose proof (shrinks_bounded _ _ Hs Hb). destruct r as [[]|e|].
  - split; [done|]. split; [done|]. split; [intros ? _; by apply Hn|intros [=]].
  - by apply failed_processed.
  - split; [done|]. split; [done|]. split; [intros ? [=]|intros [=]].
Qed.

Lemma blockExists_ret hash b : fst (blockExists hash b) = Panic \/ exists x, blockExists hash b = (Ret x, b).
Proof.
  unfold blockExists. rewrite bind_gets. unfold id. destruct (HaveBlock _ _); [right; by exists true|].
  destruct (db_blocks _ !! _); [|right; by exists false]. unfold dbFetchHeightByHash, mbind, St_bind, outcome_bind, lift.
  destruct (db_hashIndex _ !! _) as [s|]; [|right; by exists false]. unfold or_panic. destruct (slice s 0 4); [right; by exists true|by left].
Qed.

Lemma ProcessBlock_processed block flags b : pool_good b -> prev_hash block = prev_of (b_Hash block) ->
  processed (b_Hash block) (ProcessBlock chainParams checkpoints range adjustedTime ticks visit ValidatePcBlock block flags b).
Proof.
  intros Hb Hp. unfold ProcessBlock. apply or_return_processed; [apply blockExists_pool|done|]. intros e1 b1 P1.
  pose proof (pool_good_same _ _ P1 Hb) as Hb1. destruct e1; [by apply failed_processed|].
  rewrite bind_gets. unfold id. destruct (IsKnownOrphan b1 (b_Hash block)) eqn:Ek; [by apply failed_processed|].
  assert (bc_orphans b1 !! b_Hash block = None) as Hnew by (unfold IsKnownOrphan in Ek; by apply bool_decide_eq_false, eq_None_not_Some in Ek).
  apply or_return_processed; [apply keeps_lift|done|]. intros _ b2 P2. pose proof (pool_good_same _ _ P2 Hb1) as Hb2.
  assert (bc_orphans b2 !! b_Hash block = None) as Hnew2 by (unfold pool_of in P2; congruence).
  assert (forall x, check_pow ValidatePcBlock block flags b1 = Ret x -> b_Hash x = b_Hash block /\ prev_hash x = prev_hash block) as Hpow.
  { unfold check_pow. intros x. destruct (negb _); [by intros [= <-]|]. destruct (_ =? _); [by intros [= <-]|].
    unfold mbind, outcome_bind. destruct (pcCheckProofOfWork _ _ _); intros [= <-]. done. }
  unfold mbind at 1, St_bind at 1, attempt at 1, lift at 1. destruct (check_pow ValidatePcBlock block flags b1) as [x|e|] eqn:Epow.
  - destruct (Hpow x eq_refl) as [Ehx Epx]. rewrite <- Ehx. apply or_return_processed; [apply check_checkpoint_pool|done|]. intros _ b3 P3.
    pose proof (pool_good_same _ _ P3 Hb2) as Hb3. apply or_return_processed; [apply blockExists_pool|done|]. intros found b4 P4.
    pose proof (pool_good_same _ _ P4 Hb3) as Hb4. destruct found; cbn [negb].
    + apply or_return_processed; [apply maybeAcceptBlock_pool|done|]. intros main b5 P5. apply accepted_processed. by eapply pool_good_same.
    + apply orphaned_processed; [done| |congruence]. rewrite Ehx. unfold pool_of in *. congruence.
  - destruct (blockExists_ret (prev_hash block) b2) as [Ex|[x Ex]].
    + unfold mbind, St_bind. pose proof (blockExists_pool (prev_hash block) b2) as Hk. destruct (blockExists _ b2) as [r b3]. cbn in Ex, Hk. subst r.
      destruct (pool_good_same _ _ Hk Hb2). split; [done|]. split; [done|]. split; [intros ? [=]|intros [=]].
    + rewrite (bind_Ret _ _ _ _ _ Ex). by apply failed_processed.
  - destruct Hb2. split; [done|]. split; [done|]. split; [intros ? [=]|intros [=]].
Qed.
End process.

(** * Any sequence of calls *)

Section calls.
Context `{GlobalConf} `{Crypto} `{MapOrder}.
Context (chainParams : Params) (checkpoints : list Checkpoint) (range : election -> list electionCandidate).
Context (ValidatePcBlock : MsgBlock -> Z -> list bytes -> bool).

(** A call: the block, the flags, the time, the clock and the order of the pool. *)
Record call : Type := mkCall {
  c_block : BtcBlock;
  c_flags : Z;
  c_time : Z;
  c_ticks : nat -> Z;
  c_visit : gmap bytes orphanBlock -> list orphanBlock
}.

Definition run_call (c : call) : BC (bool * bool * option ruleerr) :=
  ProcessBlock chainParams checkpoints range (c_time c) (c_ticks c) (c_visit c) ValidatePcBlock (c_block c) (c_flags c).

(** The state after the calls, whatever they return. *)
Definition run_calls (calls : list call) (b : BlockChain) : BlockChain := foldl (fun b c => snd (run_call c b)) b calls.

Definition call_ok (prev_of : bytes -> bytes) (c : call) : Prop :=
  prev_hash (c_block c) = prev_of (b_Hash (c_block c)) /\ forall m, c_visit c m ≡ₚ (map_to_list m).*2.

Lemma run_calls_good prev_of calls : forall b, pool_good prev_of b -> Forall (call_ok prev_of) calls -> pool_good prev_of (run_calls calls b).
Proof.
  induction calls as [|c calls IH]; intros b Hb Hc; [done|]. apply list.Forall_cons in Hc as [[Hp Hv] Hc]. cbn [run_calls foldl].
  apply IH; [|done]. pose proof (ProcessBlock_processed chainParams checkpoints range (c_time c) prev_of (c_ticks c) (c_visit c) ValidatePcBlock Hv (c_block c) (c_flags c) b Hb Hp) as Hr.
  unfold run_call, processed in *. destruct (ProcessBlock _ _ _ _ _ _ _ _ _ b) as [r b']. destruct Hr as (H1' & H2 & _). by split.
Qed.

Lemma empty_pool_good prev_of b : pool_of b = (∅, ∅, None) -> pool_good prev_of b.
Proof.
  unfold pool_of. intros [= E1 E2 E3]. split.
  - split; rewrite ?E1, ?E2, ?E3; done.
  - left. rewrite E1, map_size_empty. done.
Qed.

(** C9: the pool of orphans over any sequence of calls of [ProcessBlock] that starts with
    an empty pool, whatever the calls return: the pool never holds more than one block
    above its limit; its index lists a block under a previous hash exactly when the block
    is in the pool, without duplicates and empty lists; after a call that accepts a block
    no orphan waits for that block, and a block that the call reports as an orphan is in
    the pool.  The blocks have hashes that determine the previous hash. *)
Theorem orphan_pool (prev_of : bytes -> bytes) (calls : list call) (c : call) (b : BlockChain)
    (Hempty : pool_of b = (∅, ∅, None)) (Hcalls : Forall (call_ok prev_of) calls) (Hc : call_ok prev_of c) :
  let '(r, b') := run_call c (run_calls calls b) in
  Z.of_nat (size (bc_orphans b')) <= maxOrphanBlocks + 1 /\
  (forall h o, bc_orphans b' !! h = Some o <-> ob_hash o = h /\ exists l, bc_prevOrphans b' !! ob_prev o = Some l /\ o ∈ l) /\
  (forall h l, bc_prevOrphans b' !! h = Some l -> l <> [] /\ NoDup (map ob_hash l)) /\
  (forall main, r = Ret (main, false, None) -> forall h o, bc_orphans b' !! h = Some o -> ob_prev o <> b_Hash (c_block c)) /\
  (r = Ret (false, true, None) -> is_Some (bc_orphans b' !! b_Hash (c_block c))).
Proof.
  pose proof (run_calls_good prev_of calls b (empty_pool_good prev_of b Hempty) Hcalls) as Hb. destruct Hc as [Hp Hv].
  pose proof (ProcessBlock_processed chainParams checkpoints range (c_time c) prev_of (c_ticks c) (c_visit c) ValidatePcBlock Hv (c_block c) (c_flags c) _ Hb Hp) as Hr.
  unfold run_call, processed in *. destruct (ProcessBlock _ _ _ _ _ _ _ _ _ _) as [r b']. destruct Hr as ([Hk Hi Hcov _] & Hbound & Hmain & Horphan).
  split; [destruct Hbound as [Hs|[Hs _]]; lia|]. split; [|split; [|split; [|exact Horphan]]].
  - intros h o. split.
    + intros Ho. split; [by apply (Hk h)|by apply Hcov in Ho].
    + intros [<- (l & El & Hin)]. by apply (Hi _ _ El).
  - intros h l El. destruct (Hi _ _ El) as (? & ? & _). done.
  - intros main Er h o Ho Eprev. destruct (Hcov _ _ Ho) as (l & El & _). rewrite Eprev, (Hmain main Er) in El. done.
Qed.
End calls.

#[local] Existing Instances pkt sample_crypto map_to_list_order.

Definition a_call (nonce : Z) : call := mkCall (sane_sample nonce) BFNoPoWCheck 1000 (fun i => Z.of_nat i) (fun m => (map_to_list m).*2).

Lemma orphan_pool_witness :
  fst (run_call PktMainNetParams [] any_order (fun _ _ _ => true) (a_call 2) (run_calls PktMainNetParams [] any_order (fun _ _ _ => true) [a_call 1] (no_chain ∅ []))) = Ret (false, true, None) /\
  is_Some (bc_orphans (snd (run_call PktMainNetParams [] any_order (fun _ _ _ => true) (a_call 2) (run_calls PktMainNetParams [] any_order (fun _ _ _ => true) [a_call 1] (no_chain ∅ [])))) !! b_Hash (sane_sample 2)).
Proof.
  assert (forall n, call_ok (fun _ => zeroHash) (a_call n)) as Hok by (intros n; split; [reflexivity|intros m; reflexivity]).
  pose proof (orphan_pool PktMainNetParams [] any_order (fun _ _ _ => true) (fun _ => zeroHash) [a_call 1] (a_call 2) (no_chain ∅ []) eq_refl
    ltac:(apply List.Forall_cons; [apply Hok|apply List.Forall_nil]) (Hok 2)) as Ht.
  assert (fst (run_call PktMainNetParams [] any_order (fun _ _ _ => true) (a_call 2) (run_calls PktMainNetParams [] any_order (fun _ _ _ => true) [a_call 1] (no_chain ∅ []))) = Ret (false, true, None)) as Hr
    by (vm_compute; reflexivity).
  split; [exact Hr|]. destruct (run_call _ _ _ _ _ _) as [r b']. apply Ht, Hr.
Defined.
