(* ===== verification/NoRule.v ===== *)
(** Which operations never report the violation of a rule: those that change the chain.
    Their errors are those of the database and of assertions. *)

From stdpp Require Import gmap.
From S2P Require Import Prelude TxScriptErr Params Opcode Sha Wire MsgTx SigHash ScriptUtil Btcec SigCache Engine Execute ChainParams Block MoneySupply Compress RuleErr TxRules Merkle Difficulty BlockIndex ChainView ThresholdState ChainIO UtxoView Election Validate ChainState Connect Orphans ChainOps.

Definition quiet_error {A} (m : outcome ruleerr A) : Prop := forall e, m = Throw e -> IsRuleError e = false.
Definition no_rule {S A} (m : St ruleerr S A) : Prop := forall s, quiet_error (fst (m s)).

Lemma quiet_bind {A B} (m : outcome ruleerr A) (k : A -> outcome ruleerr B) : quiet_error m -> (forall a, quiet_error (k a)) -> quiet_error (a ← m; k a).
Proof. intros Hm Hk e. destruct m as [a|e'|]; cbn; [apply Hk|intros [= <-]; by apply Hm|done]. Qed.

Lemma quiet_ret {A} (a : A) : quiet_error (mret a).
Proof. done. Qed.

Lemma quiet_throw {A} e : IsRuleError e = false -> quiet_error (mthrow e : outcome ruleerr A).
Proof. by intros He e' [= <-]. Qed.

Lemma quiet_panic {A} : quiet_error (Panic : outcome ruleerr A).
Proof. done. Qed.

Lemma quiet_or_panic {A} (x : option A) : quiet_error (or_panic x).
Proof. by destruct x. Qed.

Lemma quiet_db_err {A} (m : outcome chainioerr A) : quiet_error (db_err m).
Proof. destruct m as [a|[]|]; intros e; cbn; intros [=]; by subst. Qed.

Lemma quiet_raw_err {A} (m : outcome chainioerr A) : quiet_error (raw_err m).
Proof. destruct m as [a|[]|]; intros e; cbn; intros [=]; by subst. Qed.

Lemma quiet_no_error {A} (m : outcome Empty_set A) : quiet_error (no_error m).
Proof. by destruct m as [a|[]|]. Qed.

Lemma quiet_wire_err {A} (m : outcome wireerr A) : quiet_error (wire_err m).
Proof. destruct m as [a|x|]; intros e; cbn; intros [=]; by subst. Qed.

Section st.
Context {S : Type}.

Lemma no_rule_bind {A B} (m : St ruleerr S A) (k : A -> St ruleerr S B) : no_rule m -> (forall a, no_rule (k a)) -> no_rule (a ← m; k a).
Proof. intros Hm Hk s. specialize (Hm s). unfold mbind, St_bind. destruct (m s) as [[a|e|] s']; cbn in *; [apply Hk| |done]. intros e' [= <-]. by apply Hm. Qed.

Lemma no_rule_ret {A} (a : A) : no_rule (mret a : St ruleerr S A).
Proof. done. Qed.

Lemma no_rule_throw {A} e : IsRuleError e = false -> no_rule (mthrow e : St ruleerr S A).
Proof. by intros He s e' [= <-]. Qed.

Lemma no_rule_lift {A} (m : outcome ruleerr A) : quiet_error m -> no_rule (lift m : St ruleerr S A).
Proof. intros Hm s. exact Hm. Qed.

Lemma no_rule_gets {A} (g : S -> A) : no_rule (gets g : St ruleerr S A).
Proof. done. Qed.

Lemma no_rule_modify (g : S -> S) : no_rule (modify g : St ruleerr S ()).
Proof. done. Qed.

Lemma no_rule_on_field {T A} (get : S -> T) (set : T -> S -> S) (m : St ruleerr T A) : no_rule m -> no_rule (on_field get set m).
Proof. intros Hm s. specialize (Hm (get s)). unfold on_field. by destruct (m (get s)). Qed.
End st.

Lemma no_rule_on_view {A} (m : View A) view : no_rule m -> no_rule (on_view m view).
Proof. intros Hm b. specialize (Hm view). unfold on_view. destruct (m view) as [[a|e|] v]; [done|intros e' [= <-]; by apply Hm|done]. Qed.

Create HintDb norule.
#[export] Hint Resolve quiet_ret quiet_panic quiet_or_panic quiet_db_err quiet_raw_err quiet_no_error quiet_wire_err
  no_rule_ret no_rule_gets no_rule_modify : norule.

(** Follows the structure of an operation. *)
Ltac norule :=
  repeat first
    [ progress intros
    | assumption
    | solve [auto with norule]
    | simple apply quiet_bind
    | simple apply quiet_throw; reflexivity
    | simple apply no_rule_bind
    | simple apply no_rule_throw; reflexivity
    | simple apply no_rule_lift
    | simple apply no_rule_on_view
    | simple apply no_rule_on_field
    | case_match ].

Section ops.
Context `{GlobalConf} `{Crypto} `{MapOrder}.
Context (chainParams : Params) (checkpoints : list Checkpoint) (range : election -> list electionCandidate) (adjustedTime : Z).

(** * The view *)

Lemma dbFetchUtxoEntry_quiet db o : quiet_error (dbFetchUtxoEntry db o).
Proof. unfold dbFetchUtxoEntry. norule. Qed.

Lemma dbFetchUtxoEntryByHash_quiet db h : quiet_error (dbFetchUtxoEntryByHash db h).
Proof. unfold dbFetchUtxoEntryByHash. norule. Qed.
#[local] Hint Resolve dbFetchUtxoEntry_quiet dbFetchUtxoEntryByHash_quiet : norule.

Lemma fetchUtxosMain_no_rule db order : no_rule (fetchUtxosMain db order).
Proof. induction order as [|o order IH]; cbn [fetchUtxosMain]; norule. Qed.

Lemma input_loop_no_rule inFlight txs h i ins : forall needed, no_rule (input_loop inFlight txs h i ins needed).
Proof. induction ins as [|x ins IH]; intros needed; cbn [input_loop]; norule; apply IH. Qed.

Lemma collect_loop_no_rule inFlight txs h l : forall i needed, no_rule (collect_loop inFlight txs h i l needed).
Proof. pose proof input_loop_no_rule. induction l as [|x l IH]; intros i needed; cbn [collect_loop]; norule; auto. Qed.
#[local] Hint Resolve fetchUtxosMain_no_rule collect_loop_no_rule : norule.

Lemma fetchInputUtxos_no_rule db block : no_rule (fetchInputUtxos db block).
Proof. unfold fetchInputUtxos. norule. Qed.

Lemma spend_loop_no_rule ins : forall stxos, no_rule (spend_loop ins stxos).
Proof. induction ins as [|x ins IH]; intros stxos; cbn [spend_loop]; norule; apply IH. Qed.
#[local] Hint Resolve spend_loop_no_rule : norule.

Lemma connectTransaction_no_rule tx h stxos : no_rule (connectTransaction tx h stxos).
Proof. unfold connectTransaction. norule. Qed.
#[local] Hint Resolve connectTransaction_no_rule : norule.

Lemma connect_loop_no_rule h txs : forall stxos, no_rule (connect_loop txs h stxos).
Proof. induction txs as [|x txs IH]; intros stxos; cbn [connect_loop]; norule; apply IH. Qed.
#[local] Hint Resolve connect_loop_no_rule : norule.

Lemma connectTransactions_no_rule block stxos : no_rule (connectTransactions block stxos).
Proof. unfold connectTransactions. norule. Qed.

Lemma restore_no_rule db hash o stxo : no_rule (restore db hash o stxo).
Proof. unfold restore, fetchEntryByHash. norule. Qed.
#[local] Hint Resolve restore_no_rule : norule.

Lemma unspend_loop_no_rule db hash ins : forall stxos i, no_rule (unspend_loop db hash ins stxos i).
Proof. induction ins as [|x ins IH]; intros stxos i; cbn [unspend_loop]; norule; apply IH. Qed.
#[local] Hint Resolve unspend_loop_no_rule : norule.

Lemma disconnect_loop_no_rule db h txs : forall stxos i, no_rule (disconnect_loop db txs h stxos i).
Proof. induction txs as [|x txs IH]; intros stxos i; cbn [disconnect_loop]; norule; apply IH. Qed.

Lemma countSpentOutputs_quiet block : quiet_error (countSpentOutputs block).
Proof. unfold countSpentOutputs. norule. Qed.
#[local] Hint Resolve disconnect_loop_no_rule countSpentOutputs_quiet : norule.

Lemma disconnectTransactions_no_rule db block stxos : no_rule (disconnectTransactions db block stxos).
Proof. unfold disconnectTransactions. norule. Qed.

Lemma put_view_quiet order : forall db, quiet_error (put_view order db).
Proof. induction order as [|[o x] order IH]; intros db; cbn [put_view]; norule; apply IH. Qed.

Lemma dbFetchSpendJournalEntry_quiet db block : quiet_error (dbFetchSpendJournalEntry db block).
Proof. unfold dbFetchSpendJournalEntry. norule. Qed.

(** * The election *)

Lemma votes_quiet s : quiet_error (votes s).
Proof. unfold votes. destruct (ElectionGetVotesForAgainst s); intros ? [=]. by subst. Qed.
#[local] Hint Resolve votes_quiet : norule.

Lemma castBallot_quiet s v elect : quiet_error (castBallot s v elect).
Proof. unfold castBallot. norule. Qed.
#[local] Hint Resolve castBallot_quiet : norule.

Lemma disapproval_loop_quiet l steward : forall d, quiet_error (disapproval_loop l steward d).
Proof. induction l as [|[e|] l IH]; intros d; cbn [disapproval_loop]; unfold electionIsVoteAgainst; norule; apply IH. Qed.

Lemma db_ballots_quiet l : forall elect, quiet_error (db_ballots l elect).
Proof. induction l as [|x l IH]; intros elect; cbn [db_ballots]; norule; apply IH. Qed.

Lemma view_ballots_quiet l : forall elect, quiet_error (view_ballots l elect).
Proof. induction l as [|[x|] l IH]; intros elect; cbn [view_ballots]; norule; apply IH. Qed.
#[local] Hint Resolve disapproval_loop_quiet db_ballots_quiet view_ballots_quiet : norule.

Lemma electionProcessBlock_quiet es db view h : quiet_error (electionProcessBlock range es db view h).
Proof. unfold electionProcessBlock. norule. Qed.

(** * The thresholds *)

Lemma CalcPastMedianTime_quiet node : quiet_error (CalcPastMedianTime node).
Proof. unfold CalcPastMedianTime. norule. Qed.
#[local] Hint Resolve CalcPastMedianTime_quiet : norule.

(** A checker that reports no violation of a rule. *)
Definition quiet_checker (checker : thresholdConditionChecker) : Prop := forall node, no_rule (Condition checker node).

Section checker.
Context (checker : thresholdConditionChecker) (cache : cacheRef) (Hc : quiet_checker checker).

Lemma gather_no_rule fuel : forall node nodes, no_rule (gather chainParams fuel checker cache node nodes).
Proof. induction fuel as [|fuel IH]; intros node nodes; cbn [gather]; unfold cache_Lookup, cache_Update, median_time; norule; apply IH. Qed.

Lemma count_loop_no_rule n : forall node count, no_rule (count_loop n checker node count).
Proof. pose proof Hc. induction n as [|n IH]; intros node count; cbn [count_loop]; norule; auto. Qed.
#[local] Hint Resolve gather_no_rule count_loop_no_rule : norule.

Lemma transition_no_rule node state : no_rule (transition chainParams checker node state).
Proof. unfold transition, median_time. norule. Qed.
#[local] Hint Resolve transition_no_rule : norule.

Lemma advance_no_rule nodes : forall state, no_rule (advance chainParams nodes checker cache state).
Proof. induction nodes as [|n nodes IH]; intros state; cbn [advance]; unfold cache_Update; norule; apply IH. Qed.
#[local] Hint Resolve advance_no_rule : norule.

Lemma thresholdState_no_rule prevNode : no_rule (thresholdState chainParams prevNode checker cache).
Proof. unfold thresholdState. unfold cache_Lookup. norule. Qed.
End checker.

Lemma deploymentChecker_quiet d : quiet_checker (deploymentChecker d).
Proof. intros node. cbn. norule. Qed.
#[local] Hint Resolve thresholdState_no_rule deploymentChecker_quiet : norule.

Lemma version_loop_no_rule ds : forall id prevNode v, no_rule (version_loop chainParams ds id prevNode v).
Proof. induction ds as [|d ds IH]; intros id prevNode v; cbn [version_loop]; norule; apply IH. Qed.
#[local] Hint Resolve version_loop_no_rule : norule.

Lemma calcNextBlockVersion_no_rule prevNode : no_rule (calcNextBlockVersion chainParams prevNode).
Proof. unfold calcNextBlockVersion. norule. Qed.
#[local] Hint Resolve calcNextBlockVersion_no_rule : norule.

Lemma bitConditionChecker_quiet bit : quiet_checker (bitConditionChecker chainParams bit).
Proof. intros node. cbn. norule. Qed.
#[local] Hint Resolve bitConditionChecker_quiet : norule.

Lemma rule_loop_no_rule fuel : forall bit node, no_rule (rule_loop chainParams fuel bit node).
Proof. induction fuel as [|fuel IH]; intros bit node; cbn [rule_loop]; norule; apply IH. Qed.

Lemma upgraded_loop_no_rule n : forall node k, no_rule (upgraded_loop chainParams n node k).
Proof. induction n as [|n IH]; intros node k; cbn [upgraded_loop]; norule; apply IH. Qed.
#[local] Hint Resolve rule_loop_no_rule upgraded_loop_no_rule : norule.

Lemma warnUnknownRuleActivations_no_rule node : no_rule (warnUnknownRuleActivations chainParams node).
Proof. unfold warnUnknownRuleActivations. norule. Qed.

Lemma warnUnknownVersions_no_rule node : no_rule (warnUnknownVersions chainParams node).
Proof. unfold warnUnknownVersions. norule. Qed.

(** * The chain *)

Lemma set_nodes_quiet node : forall c, quiet_error (set_nodes node c).
Proof.
  induction node as [node IH] using node_ind. intros c.
  replace (set_nodes node c) with (old ← or_panic (index c (height node)); if decide (old = Some node) then mret c else
    match parent node with None => mret (<[Z.to_nat (height node) := Some node]> c) | Some p => set_nodes p (<[Z.to_nat (height node) := Some node]> c) end) by (by destruct node).
  destruct (parent node) as [p|]; norule.
Qed.

Lemma setTip_quiet node c : quiet_error (setTip node c).
Proof. pose proof set_nodes_quiet. unfold setTip. norule. Qed.

Lemma dbFetchBlockByNode_quiet node db : quiet_error (dbFetchBlockByNode node db).
Proof. unfold dbFetchBlockByNode. norule. Qed.

Lemma deserializeElectionState_quiet s : quiet_error (deserializeElectionState s).
Proof. unfold deserializeElectionState. norule. Qed.

Lemma LatestCheckpoint_quiet : quiet_error (LatestCheckpoint checkpoints).
Proof. unfold LatestCheckpoint. norule. Qed.
#[local] Hint Resolve setTip_quiet dbFetchBlockByNode_quiet deserializeElectionState_quiet LatestCheckpoint_quiet put_view_quiet
  dbFetchSpendJournalEntry_quiet electionProcessBlock_quiet fetchInputUtxos_no_rule connectTransactions_no_rule disconnectTransactions_no_rule
  warnUnknownRuleActivations_no_rule warnUnknownVersions_no_rule : norule.

Lemma put_connected_quiet node block view stxos es state db : quiet_error (put_connected node block view stxos es state db).
Proof. unfold put_connected, dbPutUtxoView, dbPutSpendJournalEntry. norule. Qed.

Lemma put_disconnected_quiet node block view state db : quiet_error (put_disconnected node block view state db).
Proof. unfold put_disconnected, dbPutUtxoView. norule. Qed.
#[local] Hint Resolve put_connected_quiet put_disconnected_quiet : norule.

Lemma flushToDB_no_rule : no_rule flushToDB.
Proof. unfold flushToDB, Update. norule. Qed.
#[local] Hint Resolve flushToDB_no_rule : norule.

Lemma connectBlock_no_rule node block view stxos es : no_rule (connectBlock chainParams checkpoints adjustedTime node block view stxos es).
Proof. unfold connectBlock, isCurrent, on_caches, Update, set_tip. norule. Qed.

Lemma disconnectBlock_no_rule node block view : no_rule (disconnectBlock node block view).
Proof. unfold disconnectBlock, dbFetchElectionStateByNode, Update, set_tip. norule. Qed.
#[local] Hint Resolve connectBlock_no_rule disconnectBlock_no_rule : norule.

Lemma apply_detach_no_rule nodes : forall blocks view, no_rule (apply_detach nodes blocks view).
Proof. induction nodes as [|n nodes IH]; intros blocks view; cbn [apply_detach]; norule; apply IH. Qed.

Lemma apply_attach_no_rule nodes : forall blocks view, no_rule (apply_attach chainParams checkpoints range adjustedTime nodes blocks view).
Proof. induction nodes as [|n nodes IH]; intros blocks view; cbn [apply_attach]; norule; apply IH. Qed.
End ops.
