(* ===== verification/Violations.v ===== *)
(** A block that violates a rule does not change the chain: the checks come before the
    changes, and the changes report no violation of a rule. *)

From stdpp Require Import gmap.
From S2P Require Import Prelude TxScriptErr Params Opcode Sha Wire MsgTx SigHash ScriptUtil Btcec SigCache Engine Execute EngineProps ChainParams Block MoneySupply Compress RuleErr TxRules Merkle Difficulty BlockIndex ThresholdState ChainIO UtxoView Election Validate ChainState Sane Connect Supply Orphans OrphanProps ChainOps Frame Process NoRule.

#[local] Opaque b_Hash.

(** The chain: the view, the snapshot and the database without the block index and the
    stored blocks, which also keep the blocks of side chains. *)
Definition chain_of (b : BlockChain) : chainView * BestState * ChainDb :=
  (bc_bestChain b, bc_snapshot b, put_blocks ∅ (put_blockIndex ∅ (bc_db b))).

#[export] Instance chain_quiet : Quiet chain_of.
Proof. by split. Qed.
#[export] Hint Resolve chain_quiet : keeps.

(** The flush changes the rows of the block index and clears the set of dirty nodes. *)
Lemma flush_rows bi hashes : forall db, exists rows, foldl (fun db hash => match LookupNode bi hash with
                                                | Some node => dbStoreBlockNode node (NodeStatus bi node) db
                                                | None => db
                                                end) db hashes = put_blockIndex rows db.
Proof.
  induction hashes as [|h hashes IH]; intros db; [exists (db_blockIndex db); by destruct db|]. cbn [foldl].
  destruct (LookupNode bi h) as [node|]; [|apply IH]. destruct (IH (dbStoreBlockNode node (NodeStatus bi node) db)) as [rows ->]. by exists rows.
Qed.

Lemma flushToDB_spec b : exists rows dirty,
  flushToDB b = (Ret (), set_index (mkIndex (bi_index (bc_index b)) (bi_status (bc_index b)) dirty) (set_db (put_blockIndex rows (bc_db b)) b)).
Proof.
  unfold flushToDB. rewrite bind_gets. destruct (_ =? 0).
  - exists (db_blockIndex (bc_db b)), (bi_dirty (bc_index b)). destruct b as [[] ? ? ? ? ? [] ? ? ? ? ?]. done.
  - destruct (flush_rows (bc_index b) (elements (bi_dirty (bc_index b))) (bc_db b)) as [rows Er]. exists rows, ∅.
    unfold Update. rewrite (bind_Ret _ _ b () (set_db (put_blockIndex rows (bc_db b)) b)); [done|]. rewrite bind_gets. by rewrite Er.
Qed.

Lemma flushToDB_keeps {X} (f : BlockChain -> X) `{!Quiet f} : (forall rows b, f (set_db (put_blockIndex rows (bc_db b)) b) = f b) -> keeps f flushToDB.
Proof. intros Hf b. destruct (flushToDB_spec b) as (rows & dirty & ->). cbn [snd]. rewrite quiet_index; [apply Hf|done]. Qed.

Lemma flushToDB_chain : keeps chain_of flushToDB.
Proof. by apply flushToDB_keeps; [apply _|]. Qed.

(** * Violations *)

(** A violation of a rule is reported before [f] of the state changes. *)
Definition checked_first {X A} (f : BlockChain -> X) (m : BC A) : Prop := forall b e b', m b = (Throw e, b') -> IsRuleError e = true -> f b' = f b.

Section checked.
Context {X : Type} (f : BlockChain -> X).

Lemma checked_keeps {A} (m : BC A) : keeps f m -> checked_first f m.
Proof. intros Hm b e b' E _. specialize (Hm b). by rewrite E in Hm. Qed.

Lemma checked_no_rule {A} (m : BC A) : no_rule m -> checked_first f m.
Proof. intros Hm b e b' E He. specialize (Hm b e). rewrite E in Hm. rewrite Hm in He by done. done. Qed.

Lemma checked_bind {A B} (m : BC A) (k : A -> BC B) : keeps f m -> (forall a, checked_first f (k a)) -> checked_first f (a ← m; k a).
Proof.
  intros Hm Hk b e b' E He. specialize (Hm b). unfold mbind, St_bind in E. destruct (m b) as [[a|e'|] b1]; cbn [snd] in Hm.
  - rewrite (Hk a _ _ _ E He). done.
  - by injection E as <- <-.
  - done.
Qed.

Lemma checked_bind_end {A B} (m : BC A) (k : A -> BC B) : checked_first f m -> (forall a, no_rule (k a)) -> checked_first f (a ← m; k a).
Proof.
  intros Hm Hk b e b' E He. specialize (Hm b). unfold mbind, St_bind in E. destruct (m b) as [[a|e'|] b1] eqn:Em.
  - specialize (Hk a b1 e). rewrite E in Hk. rewrite Hk in He by done. done.
  - injection E as <- <-. by apply (Hm e').
  - done.
Qed.

(** An error that is caught, followed by cleaning up, and passed on. *)
Lemma checked_rethrow {A B} (m : BC A) (k : A -> BC B) (h : ruleerr -> BC B) :
  (forall b, match m b with (Throw e, b') => (IsRuleError e = true -> f b' = f b) /\ (forall e', fst (h e b') = Throw e' -> e' = e) | _ => True end) ->
  (forall e, keeps f (h e)) -> (forall a, no_rule (k a)) ->
  checked_first f (r ← attempt m; match r with inl a => k a | inr e => h e end).
Proof.
  intros Hm Hh Hk b e b' E He. specialize (Hm b). unfold mbind, St_bind, attempt in E. destruct (m b) as [[a|e'|] b1] eqn:Em.
  - specialize (Hk a b1 e). rewrite E in Hk. rewrite Hk in He by done. done.
  - destruct Hm as [Hm Hsame]. rewrite <- (Hm ltac:(rewrite <- (Hsame e ltac:(by rewrite E)); done)).
    specialize (Hh e' b1). by rewrite E in Hh.
  - done.
Qed.
End checked.

Section violations.
Context `{GlobalConf} `{Crypto} `{MapOrder}.
Context (chainParams : Params) (checkpoints : list Checkpoint) (range : election -> list electionCandidate) (adjustedTime : Z).

Section best_chain.
Context {X : Type} (f : BlockChain -> X) `{!Quiet f} (Hflush : keeps f flushToDB).

Lemma flushIndexState_ret b : exists b', flushIndexState b = (Ret (), b').
Proof. destruct (flushToDB_spec b) as (rows & dirty & E). eexists. unfold flushIndexState, mbind, St_bind, attempt. rewrite E. reflexivity. Qed.

Lemma flushIndexState_keeps : keeps f flushIndexState.
Proof. unfold flushIndexState. keep. Qed.

Lemma flushIndexState_no_rule : no_rule flushIndexState.
Proof. intros b e. destruct (flushIndexState_ret b) as (b' & ->). done. Qed.
#[local] Hint Resolve flushIndexState_keeps : keeps.
#[local] Hint Resolve flushIndexState_no_rule flushToDB_no_rule countSpentOutputs_quiet electionProcessBlock_quiet fetchInputUtxos_no_rule connectTransactions_no_rule
  apply_detach_no_rule apply_attach_no_rule : norule.

(** Cleaning up passes the error on. *)
Lemma clean_up {A} (m : BC ()) e e' b : (forall b, exists b', m b = (Ret (), b')) ->
  fst ((m;; flushIndexState;; mthrow e : BC A) b) = Throw e' -> e' = e.
Proof.
  intros Hm. destruct (Hm b) as [b1 E1]. rewrite (bind_Ret _ _ _ _ _ E1). destruct (flushIndexState_ret b1) as (b2 & E2).
  rewrite (bind_Ret _ _ _ _ _ E2). by intros [=].
Qed.

Lemma extension_view_keeps node block fastAdd : keeps f (extension_view chainParams checkpoints range node block fastAdd).
Proof. unfold extension_view. keep. Qed.
#[local] Hint Resolve extension_view_keeps : keeps.

Lemma extend_chain_checked node block fastAdd : checked_first f (extend_chain chainParams checkpoints range adjustedTime node block fastAdd).
Proof.
  unfold extend_chain. apply checked_bind; [keep|]. intros bi. apply checked_bind; [keep|]. intros n. apply checked_bind; [keep|]. intros [[view stxos] es].
  apply (checked_rethrow f (connectBlock chainParams checkpoints adjustedTime node block view stxos es)).
  - intros b. destruct (connectBlock _ _ _ _ _ _ _ _ b) as [[v|e|] b'] eqn:E; [done| |done].
    assert (IsRuleError e = false) as He by (apply (connectBlock_no_rule chainParams checkpoints adjustedTime node block view stxos es b); by rewrite E).
    split; [congruence|]. intros e'. apply clean_up. intros b1. rewrite He. by eexists.
  - intros e. keep.
  - intros v. unfold set_flags_of. norule.
Qed.

Lemma reorganizeChain_checked detachNodes attachNodes : checked_first f (reorganizeChain chainParams checkpoints range adjustedTime detachNodes attachNodes).
Proof.
  unfold reorganizeChain. case_match; [apply checked_keeps; keep|]. apply checked_bind; [keep|]. intros [dets atts]. apply checked_no_rule. norule.
Qed.

Lemma connectBestChain_checked node block flags : checked_first f (connectBestChain chainParams checkpoints range adjustedTime node block flags).
Proof.
  unfold connectBestChain. apply checked_bind; [keep|]. intros b0. apply checked_bind; [keep|]. intros t.
  destruct (bytes_eqb _ _); [apply extend_chain_checked|]. destruct (_ <=? _); [apply checked_keeps; keep|].
  apply checked_bind; [keep|]. intros [dets atts]. set (m := reorganizeChain _ _ _ _ _ _).
  assert (checked_first f (r ← attempt m; match r with inl _ => flushIndexState;; mret true | inr e => mret ();; flushIndexState;; mthrow e end)) as Hm.
  { apply (checked_rethrow f m).
    - intros b. destruct (m b) as [[v|e|] b'] eqn:E; [done| |done]. split; [by apply (reorganizeChain_checked dets atts b e)|].
      intros e'. apply clean_up. by eexists.
    - intros e. keep.
    - intros v. norule. }
  intros b e b' E. apply (Hm b e b'). rewrite <- E. unfold mbind, St_bind, attempt. destruct (m b) as [[v|e'|] b1]; [|done|done].
  by destruct (flushIndexState b1).
Qed.
End best_chain.
#[local] Hint Resolve flushToDB_chain : keeps.

Lemma store_block_chain block : keeps chain_of (Update (dbStoreBlock block)).
Proof.
  intros b. unfold Update. rewrite bind_gets. unfold mbind, St_bind, lift. destruct (dbStoreBlock block (bc_db b)) as [db|e|] eqn:E; [|done|done]. cbn [snd modify].
  unfold dbStoreBlock in E. destruct (db_blocks (bc_db b) !! _); [injection E as <-; by destruct b|].
  destruct (MsgBlock_Serialize _ _) as [[[]|e|] w]; [injection E as <-; done|done|done].
Qed.

Lemma maybeAcceptBlock_checked block flags : checked_first chain_of (maybeAcceptBlock chainParams checkpoints range adjustedTime block flags).
Proof.
  unfold maybeAcceptBlock. apply checked_bind; [keep|]. intros bi. destruct (LookupNode bi _) as [prev|]; [|apply checked_keeps; keep].
  case_match; [apply checked_keeps; keep|]. case_match; [apply checked_keeps; keep|]. apply checked_bind; [keep|]. intros _.
  apply checked_bind; [apply store_block_chain|]. intros _. apply checked_bind; [by apply keeps_modify|]. intros _. apply checked_bind; [keep|]. intros _.
  apply connectBestChain_checked; [apply _|apply flushToDB_chain].
Qed.

(** Processing orphans reports no violation of a rule: a bad orphan is not the fault of
    the block that it waited for. *)
Lemma process_loop_no_rule flags fuel : forall hashes, no_rule (process_loop chainParams checkpoints range adjustedTime fuel hashes flags).
Proof.
  induction fuel as [|fuel IH]; intros [|h hashes]; cbn [process_loop]; [done|done|done|].
  apply no_rule_bind; [norule|]. intros [|o l]; [apply IH|]. apply no_rule_bind; [apply no_rule_modify|]. intros _.
  apply no_rule_bind; [intros b e; unfold attempt; by destruct (maybeAcceptBlock _ _ _ _ _ _ b) as [[]]|].
  intros [x|e]; [apply IH|]. destruct (IsRuleError e) eqn:He; [apply IH|by apply no_rule_throw].
Qed.

Context (ticks : nat -> Z) (visit : gmap bytes orphanBlock -> list orphanBlock) (ValidatePcBlock : MsgBlock -> Z -> list bytes -> bool).

Lemma expire_loop_chain order : forall i, keeps chain_of (expire_loop ticks i order).
Proof. induction order as [|o order IH]; intros i; cbn [expire_loop]; unfold removeOrphanBlock; keep; first [by apply keeps_modify|apply IH]. Qed.

Lemma addOrphanBlock_chain block : keeps chain_of (addOrphanBlock ticks visit block).
Proof. pose proof expire_loop_chain. unfold addOrphanBlock, insert_orphan, removeOrphanBlock. keep; by apply keeps_modify. Qed.

(** What a call of [ProcessBlock] may do to the chain. *)
Definition guarded (b : BlockChain) (res : outcome ruleerr (bool * bool * option ruleerr) * BlockChain) : Prop :=
  (forall main orphan e, fst res = Ret (main, orphan, Some e) -> IsRuleError e = true -> chain_of (snd res) = chain_of b) /\
  (forall main, fst res = Ret (main, true, None) -> chain_of (snd res) = chain_of b).

Lemma guarded_same b main orphan e b' : chain_of b' = chain_of b -> guarded b (Ret (main, orphan, e), b').
Proof. by split. Qed.

Lemma guarded_or_return {A} b (m : BC A) k b0 : chain_of b0 = chain_of b -> checked_first chain_of m ->
  (forall a b', m b0 = (Ret a, b') -> guarded b (k a b')) -> guarded b (or_return m k b0).
Proof.
  intros E0 Hm Hk. specialize (Hm b0). unfold or_return, mbind, St_bind, attempt. destruct (m b0) as [[a|e|] b'] eqn:E.
  - by apply Hk.
  - split; cbn [fst snd]; [|intros main [=]]. intros main orphan e' [= <- <- <-] He. rewrite <- E0. by apply (Hm e).
  - split; cbn [fst snd]; intros; done.
Qed.

Lemma ProcessBlock_guarded block flags b :
  guarded b (ProcessBlock chainParams checkpoints range adjustedTime ticks visit ValidatePcBlock block flags b).
Proof.
  assert (forall hash, keeps chain_of (blockExists hash)) as Hex by (intros hash; unfold blockExists; keep).
  assert (forall {A} (m : BC A) b0 a b', keeps chain_of m -> chain_of b0 = chain_of b -> m b0 = (Ret a, b') -> chain_of b' = chain_of b) as Hstep.
  { intros A m b0 a b' Hk E0 E. specialize (Hk b0). rewrite E in Hk. cbn in Hk. congruence. }
  unfold ProcessBlock. apply guarded_or_return; [done|by apply checked_keeps|]. intros e1 b1 E1. apply Hstep in E1; [|done|done].
  destruct e1; [by apply guarded_same|]. rewrite bind_gets. unfold id. destruct (IsKnownOrphan _ _); [by apply guarded_same|].
  apply guarded_or_return; [done|apply checked_keeps, keeps_lift|]. intros u2 b2 E2. apply Hstep in E2; [|apply keeps_lift|done].
  unfold mbind at 1, St_bind at 1, attempt at 1, lift at 1. destruct (check_pow _ _ _ _) as [x|e|].
  - apply guarded_or_return; [done|apply checked_keeps; unfold check_checkpoint; keep|]. intros u3 b3 E3. apply Hstep in E3; [|unfold check_checkpoint; keep|done].
    apply guarded_or_return; [done|by apply checked_keeps|]. intros found b4 E4. apply Hstep in E4; [|done|done]. destruct found; cbn [negb].
    + apply guarded_or_return; [done|apply maybeAcceptBlock_checked|]. intros main b5 _.
      unfold or_return, mbind, St_bind, attempt. pose proof (process_loop_no_rule flags (2 * size (bc_orphans b5) + 1) [b_Hash x] b5) as Hn.
      unfold processOrphans. rewrite bind_gets. unfold id. destruct (process_loop _ _ _ _ _ _ _ b5) as [[[]|e|] b6]; split; cbn [fst snd] in *; try (intros; done).
      intros m o e' [= <- <- <-] He. rewrite (Hn e eq_refl) in He. done.
    + pose proof (addOrphanBlock_chain x b4) as Ha. unfold mbind, St_bind. destruct (addOrphanBlock _ _ _ b4) as [[[]|e|] b5]; cbn [snd] in Ha;
        [apply guarded_same; congruence|split; intros; done|split; intros; done].
  - specialize (Hex (prev_hash block) b2). unfold mbind, St_bind. destruct (blockExists _ b2) as [[y|e'|] b3]; cbn [snd] in Hex;
      [apply guarded_same; congruence|split; intros; done|split; intros; done].
  - split; intros; done.
Qed.
End violations.

(** C4: a block that violates a rule does not change the chain.  When [ProcessBlock]
    reports the violation of a rule, or that the block is an orphan, the best chain, its
    snapshot and the database with the unspent outputs, the spend journal, the indexes
    of the main chain, the election states and the chain state are what they were before
    the call, also when a reorganization was attempted. *)
Theorem violation_changes_nothing `{GlobalConf} `{Crypto} `{MapOrder} (chainParams : Params) (checkpoints : list Checkpoint)
    (range : election -> list electionCandidate) (ValidatePcBlock : MsgBlock -> Z -> list bytes -> bool) (c : call) (b b' : BlockChain)
    (main orphan : bool) (err : option ruleerr)
    (Hcall : run_call chainParams checkpoints range ValidatePcBlock c b = (Ret (main, orphan, err), b'))
    (Herr : match err with Some e => IsRuleError e = true | None => orphan = true end) :
  bc_bestChain b' = bc_bestChain b /\ bc_snapshot b' = bc_snapshot b /\
  db_utxoSet (bc_db b') = db_utxoSet (bc_db b) /\ db_spendJournal (bc_db b') = db_spendJournal (bc_db b) /\
  db_hashIndex (bc_db b') = db_hashIndex (bc_db b) /\ db_heightIndex (bc_db b') = db_heightIndex (bc_db b) /\
  db_election (bc_db b') = db_election (bc_db b) /\ db_chainState (bc_db b') = db_chainState (bc_db b).
Proof.
  assert (chain_of b' = chain_of b) as E.
  { destruct (ProcessBlock_guarded chainParams checkpoints range (c_time c) (c_ticks c) (c_visit c) ValidatePcBlock (c_block c) (c_flags c) b) as [H2 H3].
    unfold run_call in Hcall. rewrite Hcall in H2, H3. destruct err as [e|]; [by apply (H2 main orphan e)|]. subst orphan. by apply (H3 main). }
  unfold chain_of, put_blocks, put_blockIndex in E. injection E as E1 E2 E3 E4 E5 E6 E7 E8. done.
Qed.

(** * A rejected block *)

#[local] Existing Instances pkt sample_crypto map_to_list_order.

Definition a_tip : blockNode := mkNode None zeroHash 0 0 1 0x1f00ffff 0 900 zeroHash.
Definition small_chain : BlockChain := set_bestChain [Some a_tip] (set_index (addNode a_tip newBlockIndex) (no_chain ∅ a_steward)).

Definition call_with (txs : list MsgTx) : call :=
  mkCall (mkBtcBlock (mkBlock (mkHeader 4 zeroHash (root_of txs) 1000 0x1f00ffff 0) (Some empty_pcp) txs) 1) BFNoPoWCheck 1000 (fun i => Z.of_nat i)
    (fun m => (map_to_list m).*2).

(** The coinbase does not pay the steward. *)
Definition greedy_coinbase : MsgTx := mkMsgTx 1 [mkTxIn (mkOutPoint zeroHash MaxUint32) [Byte.x51; Byte.x00] None 0] [mkTxOut 50 [Byte.x51]] 0 [].

Lemma violation_changes_nothing_witness :
  let res := run_call PktMainNetParams [] any_order (fun _ _ _ => true) (call_with [greedy_coinbase]) small_chain in
  fst res = Ret (false, false, Some ErrBadCoinbaseNetworkSteward) /\ db_utxoSet (bc_db (snd res)) = db_utxoSet (bc_db small_chain).
Proof.
  cbv zeta.
  assert (fst (run_call PktMainNetParams [] any_order (fun _ _ _ => true) (call_with [greedy_coinbase]) small_chain) = Ret (false, false, Some ErrBadCoinbaseNetworkSteward)) as Hr
    by (vm_compute; reflexivity).
  destruct (run_call PktMainNetParams [] any_order (fun _ _ _ => true) (call_with [greedy_coinbase]) small_chain) as [r b'] eqn:E. cbn [fst snd] in *. subst r.
  split; [reflexivity|].
  apply (violation_changes_nothing PktMainNetParams [] any_order (fun _ _ _ => true) (call_with [greedy_coinbase]) small_chain b' false false (Some ErrBadCoinbaseNetworkSteward) E eq_refl).
Defined.
