(* ===== verification/BestChain.v ===== *)
(** The chain that the node follows: the view, the snapshot and the database agree on the
    tip of the best chain, and the database holds the unspent outputs and the spend
    journal of exactly that branch.  Extending the chain and reorganizing it take this
    state to the one of the new tip. *)

From stdpp Require Import gmap.
From S2P Require Import Prelude TxScriptErr Params Opcode Sha Wire MsgTx SigHash ScriptUtil Btcec SigCache Engine Execute EngineProps ChainParams Block MoneySupply Compress CompressProps RuleErr TxRules Merkle Difficulty BlockIndex ChainView ThresholdState ChainIO ChainIOProps UtxoView UtxoProps UtxoSet Election Validate ChainState Connect Orphans ChainOps Frame NoRule Violations.

#[local] Opaque b_Hash TxHash.

(** * What the chain is *)

(** The state that an operation of the chain is about. *)
Definition core (b : BlockChain) : chainView * BestState * gmap bytes blockNode * ChainDb :=
  (bc_bestChain b, bc_snapshot b, bi_index (bc_index b), put_blockIndex ∅ (bc_db b)).

#[export] Instance core_quiet : Quiet core.
Proof. split; intros; try done. unfold core. cbn [bc_bestChain bc_snapshot bc_index bc_db set_index]. congruence. Qed.
#[export] Hint Resolve core_quiet : keeps.

Lemma flushToDB_core : keeps core flushToDB.
Proof. by apply flushToDB_keeps; [apply _|]. Qed.

Section branch.
Context `{GlobalConf}.

(** The block of a node among the stored blocks. *)
Definition fetch (blocks : Bucket) (n : blockNode) : outcome ruleerr BtcBlock := dbFetchBlockByNode n (mkDb ∅ ∅ ∅ ∅ ∅ ∅ None blocks).

Lemma fetch_height blocks n block : fetch blocks n = Ret block -> b_Height block = height n.
Proof. unfold fetch, dbFetchBlockByNode. cbn [db_blocks]. destruct (blocks !! _); [|done]. destruct (wire_err _); intros [= <-]. done. Qed.

(** The coins after a branch whose blocks the rules allow; the first block has none. *)
Inductive branch (blocks : Bucket) : blockNode -> coins -> Prop :=
| branch_root n : parent n = None -> branch blocks n ∅
| branch_block n p C block : parent n = Some p -> branch blocks p C -> fetch blocks n = Ret block ->
    b_Hash block = n_hash n -> prev_hash block = n_hash p -> applies C block ->
    branch blocks n (apply_txs (height n) (b_Transactions block) C).

Lemma branch_fun blocks n C : branch blocks n C -> forall D, branch blocks n D -> C = D.
Proof.
  induction 1 as [n Hp|n p C block Hp _ IH Hf _ _ _]; inversion 1; subst; [done|congruence|congruence|].
  assert (p0 = p) as -> by congruence. rewrite Hf in *. simplify_eq. by rewrite (IH _ ltac:(done)).
Qed.

(** What the journal holds for a block on top of the coins. *)
Definition journal_of (C : coins) (block : BtcBlock) : list SpentTxOut := txs_journal (b_Height block) (b_Transactions block) C.

(** The state agrees with the branch of [t], whose coins are [C]. *)
Record synced (t : blockNode) (C : coins) (b : BlockChain) : Prop := {
  sy_wf : node_wf t;
  sy_branch : branch (db_blocks (bc_db b)) t C;
  sy_known : forall n, n ∈ chain t -> bi_index (bc_index b) !! n_hash n = Some n;
  sy_view : bc_bestChain b = view_of t;
  sy_snapshot : bs_Hash (bc_snapshot b) = n_hash t /\ bs_Height (bc_snapshot b) = height t;
  sy_state : exists w, db_chainState (bc_db b) =
    Some (serializeBestChainState (mkBest (n_hash t) (uint32 (height t)) (bs_TotalTxns (bc_snapshot b)) w));
  sy_coins : db_rep (db_utxoSet (bc_db b)) C;
  sy_journal : forall n p D block, n ∈ chain t -> parent n = Some p -> branch (db_blocks (bc_db b)) p D -> fetch (db_blocks (bc_db b)) n = Ret block ->
    db_spendJournal (bc_db b) !! n_hash n = Some (journal_code (rev (journal_of D block)));
  sy_hashes : forall n, n ∈ chain t -> db_hashIndex (bc_db b) !! n_hash n = Some (serialized_height (height n));
  sy_only : forall h, is_Some (db_hashIndex (bc_db b) !! h) -> exists n, n ∈ chain t /\ n_hash n = h;
  sy_heights : forall i, 0 <= i < 2 ^ 31 -> db_heightIndex (bc_db b) !! serialized_height i = n_hash <$> (chain t !! Z.to_nat i)
}.

Lemma synced_core t C b b' : core b' = core b -> synced t C b -> synced t C b'.
Proof.
  unfold core, put_blockIndex. intros [= E1 E2 E3 E4 E5 E6 E7 E8 E9 E10] [].
  split; rewrite ?E1, ?E2, ?E3, ?E4, ?E5, ?E6, ?E7, ?E8, ?E9, ?E10; done.
Qed.

Lemma serialized_height_inj i j : 0 <= i < 2 ^ 31 -> 0 <= j < 2 ^ 31 -> serialized_height i = serialized_height j -> i = j.
Proof.
  intros Hi Hj E. apply (f_equal le_combine) in E. unfold serialized_height in E. rewrite !le_combine_split in E.
  unfold uint32, uwrap in E. change (2 ^ (Z.of_nat 4 * 8)) with (2 ^ 32) in E. rewrite !Z.mod_small in E; rewrite ?Z.mod_small; lia.
Qed.
End branch.

(** * One block *)

Section step.
Context `{GlobalConf} `{Crypto} `{MapOrder}.
Context (chainParams : Params) (checkpoints : list Checkpoint) (range : election -> list electionCandidate) (adjustedTime : Z).

Lemma isCurrent_core : keeps core (isCurrent checkpoints adjustedTime).
Proof. unfold isCurrent. keep. Qed.

Lemma Update_inv f b b' : Update f b = (Ret (), b') -> exists db, f (bc_db b) = Ret db /\ b' = set_db db b.
Proof. unfold Update. rewrite bind_gets. unfold mbind, St_bind, lift, modify. destruct (f (bc_db b)) as [db|e|]; intros [=]. by exists db. Qed.

Lemma set_tip_inv node b b' : set_tip node b = (Ret (), b') -> exists c, setTip node (bc_bestChain b) = Ret c /\ b' = set_bestChain c b.
Proof. unfold set_tip. rewrite bind_gets. unfold mbind, St_bind, lift, modify. destruct (setTip node (bc_bestChain b)) as [c|e|]; intros [=]. by exists c. Qed.

Lemma core_ret {A} (m : BC A) b a b' : keeps core m -> m b = (Ret a, b') -> core b' = core b.
Proof. intros Hk E. specialize (Hk b). by rewrite E in Hk. Qed.

(** The chain after a block was connected. *)
Lemma connectBlock_inv node block view stxos es b v' b' : connectBlock chainParams checkpoints adjustedTime node block view stxos es b = (Ret v', b') ->
  v' = commit view /\ exists state utxoSet journal c,
    bs_Hash state = n_hash node /\ bs_Height state = height node /\
    dbPutUtxoView view (db_utxoSet (bc_db b)) = Ret utxoSet /\
    dbPutSpendJournalEntry (b_Hash block) stxos (db_spendJournal (bc_db b)) = Ret journal /\
    setTip (Some node) (bc_bestChain b) = Ret c /\
    core b' = (c, state, bi_index (bc_index b), put_blockIndex ∅ (put_spendJournal journal (put_utxoSet utxoSet
                (dbPutBlockIndex (b_Hash block) (height node) (dbPutElectionState node es (dbPutBestState state (workSum node) (bc_db b))))))).
Proof.
  intros Hr. unfold connectBlock in Hr. apply bind_Ret_inv in Hr as (t & b1 & E1 & Hr). injection E1 as _ <-.
  apply bind_Ret_inv in Hr as (t' & b2 & E2 & Hr). apply (core_ret _ _ _ _ (keeps_lift _ _)) in E2 as C2.
  destruct (negb _); [done|]. apply bind_Ret_inv in Hr as (n & b3 & E3 & Hr). apply (core_ret _ _ _ _ (keeps_lift _ _)) in E3 as C3.
  destruct (negb _); [done|]. apply bind_Ret_inv in Hr as (cur & b4 & E4 & Hr). apply (core_ret _ _ _ _ isCurrent_core) in E4 as C4.
  apply bind_Ret_inv in Hr as (u5 & b5 & E5 & Hr). apply core_ret in E5 as C5; [|keep].
  apply bind_Ret_inv in Hr as (u6 & b6 & E6 & Hr). apply (core_ret _ _ _ _ flushToDB_core) in E6 as C6.
  apply bind_Ret_inv in Hr as (tot & b7 & E7 & Hr). injection E7 as _ <-.
  apply bind_Ret_inv in Hr as (med & b8 & E8 & Hr). apply (core_ret _ _ _ _ (keeps_lift _ _)) in E8 as C8. cbv zeta in Hr. set (state := newBestState _ _ _ _ _ _ _) in Hr.
  assert (core b8 = core b) as C by congruence. clear -Hr C.
  apply bind_Ret_inv in Hr as ([] & b9 & E9 & Hr). apply Update_inv in E9 as (db & E9 & ->).
  apply bind_Ret_inv in Hr as ([] & b10 & E10 & Hr). apply set_tip_inv in E10 as (c & E10 & ->). injection Hr as <- <-.
  assert (bc_bestChain b8 = bc_bestChain b /\ bi_index (bc_index b8) = bi_index (bc_index b) /\ put_blockIndex ∅ (bc_db b8) = put_blockIndex ∅ (bc_db b)) as (Cv & Ci & Cd)
    by exact (conj (f_equal (fun x => x.1.1.1) C) (conj (f_equal (fun x => x.1.2) C) (f_equal snd C))).
  split; [done|]. unfold put_connected in E9. unfold put_blockIndex in Cd. injection Cd as D1 D2 D3 D4 D5 D6 D7. cbn [db_utxoSet dbPutBlockIndex dbPutElectionState dbPutBestState] in E9. rewrite D1 in E9.
  destruct (dbPutUtxoView view _) as [utxoSet|e|] eqn:Eu; [|done|done]. cbn [mbind outcome_bind] in E9. cbn [db_spendJournal put_utxoSet dbPutBlockIndex dbPutElectionState dbPutBestState] in E9. rewrite D2 in E9.
  destruct (dbPutSpendJournalEntry _ _ _) as [journal|e|] eqn:Ej; [|done|done]. injection E9 as <-.
  cbn [bc_bestChain set_db] in E10. rewrite Cv in E10. exists state, utxoSet, journal, c. do 5 (split; [done|]).
  unfold core, put_spendJournal, put_utxoSet, dbPutBlockIndex, dbPutElectionState, dbPutBestState, put_blockIndex. cbn. rewrite D3, D4, D5, D7, Ci. done.
Qed.

(** The index of nodes and the stored blocks, which no operation on the chain changes. *)
Definition base_of (b : BlockChain) : gmap bytes blockNode * Bucket := (bi_index (bc_index b), db_blocks (bc_db b)).

(** The node on top of a branch is not on the branch. *)
Lemma above_chain (p n : blockNode) m : node_wf n -> parent n = Some p -> m ∈ chain p -> height m < height n /\ m <> n.
Proof.
  intros Hwf Hp Hm. apply node_wf_step in Hwf as [_ Hh]. rewrite Hp in Hh. destruct Hh as [Hh Hwp].
  pose proof (elem_of_chain_height p m Hwp Hm). split; [lia|]. intros ->. lia.
Qed.

Lemma elem_of_chain_step n p m : parent n = Some p -> m ∈ chain n <-> m ∈ chain p \/ m = n.
Proof. intros Hp. rewrite (parent_chain n p Hp), elem_of_app, list_elem_of_singleton. done. Qed.

Lemma applies_coins_ok C block : coins_ok C -> applies C block -> coins_ok (apply_txs (b_Height block) (b_Transactions block) C).
Proof. intros HC Hap. apply apply_txs_ok; [done|apply Hap]. Qed.

Lemma connect_synced p C b n block view es b' v' :
  synced p C b -> node_wf n -> parent n = Some p -> bi_index (bc_index b) !! n_hash n = Some n -> fetch (db_blocks (bc_db b)) n = Ret block ->
  b_Hash block = n_hash n -> prev_hash block = n_hash p -> applies C block ->
  rep C (fun _ => False) view (apply_txs (height n) (b_Transactions block) C) ->
  connectBlock chainParams checkpoints adjustedTime n block view (journal_of C block) es b = (Ret v', b') ->
  let C' := apply_txs (height n) (b_Transactions block) C in
  synced n C' b' /\ rep C' (fun _ => False) v' C' /\ base_of b' = base_of b.
Proof.
  intros Hs Hwf Hp Hknown Hf Hh Hprev Hap Hrep Hr. cbv zeta. pose proof (fetch_height _ _ _ Hf) as Ehb.
  apply connectBlock_inv in Hr as (-> & state & utxoSet & journal & c & Es1 & Es2 & Eu & Ej & Ec & Ecore).
  destruct (dbPutUtxoView_rep _ C view _ (sy_coins _ _ _ Hs) Hrep) as (u & Eu' & Hu).
  { rewrite <- Ehb. apply applies_coins_ok; [exact (proj2 (sy_coins _ _ _ Hs))|done]. }
  rewrite Eu in Eu'. injection Eu' as <-.
  unfold dbPutSpendJournalEntry in Ej. rewrite serialize_journal_ok in Ej by (apply txs_journal_ok; [exact (proj2 (sy_coins _ _ _ Hs))|apply Hap]).
  cbn [no_error mbind outcome_bind] in Ej. injection Ej as <-. rewrite Hh in *.
  rewrite (sy_view _ _ _ Hs), (setTip_ok n _ (chain p)) in Ec; [|constructor; apply (sy_wf _ _ _ Hs)|done]. injection Ec as <-.
  unfold core, put_blockIndex in Ecore. injection Ecore as F1 F2 F3 F4 F5 F6 F7 F8 F9 F10.
  split; [|split; [eapply commit_rep; done|unfold base_of; by rewrite F3, F10]].
  assert (forall m, m ∈ chain p -> n_hash m <> n_hash n) as Hne.
  { intros m Hm E. pose proof (sy_known _ _ _ Hs m Hm) as Hk. rewrite E, Hknown in Hk. injection Hk as <-. by apply (above_chain p n n) in Hm as [_ ?]. }
  pose proof (height_nonneg n Hwf) as Hhn.
  split; rewrite ?F1, ?F2, ?F3, ?F4, ?F5, ?F6, ?F7, ?F9, ?F10.
  - done.
  - apply (branch_block _ n p C block); try done. apply (sy_branch _ _ _ Hs).
  - intros m [Hm| ->]%(elem_of_chain_step n p m Hp); [by apply (sy_known _ _ _ Hs)|done].
  - done.
  - done.
  - exists (workSum n). cbn. by rewrite Es1, Es2.
  - done.
  - intros m q D blk Hm Hq HD Hblk. apply (elem_of_chain_step n p m Hp) in Hm as [Hm| ->].
    + rewrite lookup_insert_ne by (by apply not_eq_sym, Hne). by apply (sy_journal _ _ _ Hs m q).
    + rewrite lookup_insert_eq. assert (q = p) as -> by congruence. rewrite Hf in Hblk. injection Hblk as <-.
      by rewrite (branch_fun _ _ _ HD _ (sy_branch _ _ _ Hs)).
  - cbn. intros m [Hm| ->]%(elem_of_chain_step n p m Hp); [|by rewrite lookup_insert_eq].
    rewrite lookup_insert_ne by (by apply not_eq_sym, Hne). by apply (sy_hashes _ _ _ Hs).
  - cbn. intros h Hin. destruct (decide (h = n_hash n)) as [->|Hd].
    + exists n. split; [apply (elem_of_chain_step n p n Hp); by right|done].
    + rewrite lookup_insert_ne in Hin by done. destruct (sy_only _ _ _ Hs h Hin) as (m & Hm & <-). exists m. split; [apply (elem_of_chain_step n p m Hp); by left|done].
  - cbn. intros i Hi. rewrite (parent_chain n p Hp). pose proof (chain_length p (sy_wf _ _ _ Hs)) as Hl.
    apply node_wf_step in Hwf as [_ Hht]. rewrite Hp in Hht. destruct Hht as [Hht Hwp]. pose proof (height_nonneg p Hwp).
    destruct (decide (i = height n)) as [->|Hd].
    + rewrite lookup_insert_eq, lookup_app_r by lia. replace (Z.to_nat (height n) - length (chain p))%nat with 0%nat by lia. done.
    + rewrite lookup_insert_ne; [|intros E; apply serialized_height_inj in E; lia]. rewrite (sy_heights _ _ _ Hs i Hi).
      destruct (decide (i < height n)); [by rewrite lookup_app_l by lia|]. rewrite !(proj2 (lookup_ge_None _ _)); [done|rewrite length_app; cbn; lia|lia].
Qed.

(** The chain after a block was disconnected; the stored work is the one of the block
    that was disconnected. *)
Lemma disconnectBlock_inv node block view b v' b' : disconnectBlock node block view b = (Ret v', b') ->
  v' = commit view /\ exists p state utxoSet c,
    parent node = Some p /\ bs_Hash state = n_hash p /\ bs_Height state = height p /\
    dbPutUtxoView view (db_utxoSet (bc_db b)) = Ret utxoSet /\ setTip (Some p) (bc_bestChain b) = Ret c /\
    core b' = (c, state, bi_index (bc_index b), put_blockIndex ∅ (put_spendJournal (delete (b_Hash block) (db_spendJournal (bc_db b))) (put_utxoSet utxoSet
                (dbRemoveBlockIndex (b_Hash block) (height node) (dbPutBestState state (workSum node) (bc_db b)))))).
Proof.
  intros Hr. unfold disconnectBlock in Hr. apply bind_Ret_inv in Hr as (t & b1 & E1 & Hr). injection E1 as _ <-.
  apply bind_Ret_inv in Hr as (t' & b2 & E2 & Hr). apply (core_ret _ _ _ _ (keeps_lift _ _)) in E2 as C2. destruct (negb _); [done|].
  apply bind_Ret_inv in Hr as (p & b3 & E3 & Hr). apply (core_ret _ _ _ _ (keeps_lift _ _)) in E3 as C3.
  assert (parent node = Some p) as Ep by (unfold lift, or_panic in E3; by destruct (parent node); simplify_eq). rewrite Ep in Hr.
  apply bind_Ret_inv in Hr as (db & b4 & E4 & Hr). injection E4 as _ <-.
  apply bind_Ret_inv in Hr as (pb & b5 & E5 & Hr). apply (core_ret _ _ _ _ (keeps_lift _ _)) in E5 as C5.
  apply bind_Ret_inv in Hr as (pe & b6 & E6 & Hr). apply (core_ret _ _ _ _ (keeps_lift _ _)) in E6 as C6.
  apply bind_Ret_inv in Hr as (u7 & b7 & E7 & Hr). apply (core_ret _ _ _ _ flushToDB_core) in E7 as C7.
  apply bind_Ret_inv in Hr as (tot & b8 & E8 & Hr). injection E8 as _ <-.
  apply bind_Ret_inv in Hr as (med & b8 & E8 & Hr). apply (core_ret _ _ _ _ (keeps_lift _ _)) in E8 as C8. cbv zeta in Hr. set (state := newBestState _ _ _ _ _ _ _) in Hr.
  assert (core b8 = core b) as C by congruence. clear -Hr C Ep.
  apply bind_Ret_inv in Hr as ([] & b9 & E9 & Hr). apply Update_inv in E9 as (db & E9 & ->).
  apply bind_Ret_inv in Hr as ([] & b10 & E10 & Hr). apply set_tip_inv in E10 as (c & E10 & ->). injection Hr as <- <-.
  assert (bc_bestChain b8 = bc_bestChain b /\ bi_index (bc_index b8) = bi_index (bc_index b) /\ put_blockIndex ∅ (bc_db b8) = put_blockIndex ∅ (bc_db b)) as (Cv & Ci & Cd)
    by exact (conj (f_equal (fun x => x.1.1.1) C) (conj (f_equal (fun x => x.1.2) C) (f_equal snd C))).
  split; [done|]. unfold put_disconnected in E9. unfold put_blockIndex in Cd. injection Cd as D1 D2 D3 D4 D5 D6 D7. cbn [db_utxoSet dbRemoveBlockIndex dbPutBestState] in E9. rewrite D1 in E9.
  destruct (dbPutUtxoView view _) as [utxoSet|e|] eqn:Eu; [|done|done]. cbn [mbind outcome_bind] in E9.
  destruct (dbFetchSpendJournalEntry _ _) as [js|e|]; [|done|done]. injection E9 as <-.
  cbn [bc_bestChain set_db] in E10. rewrite Cv in E10. exists p, state, utxoSet, c. do 5 (split; [done|]).
  unfold core, put_spendJournal, put_utxoSet, dbRemoveBlockIndex, dbRemoveSpendJournalEntry, dbPutBestState, put_blockIndex. cbn. rewrite D2, D3, D4, D5, D7, Ci. done.
Qed.

Lemma branch_coins_ok blocks n C : branch blocks n C -> coins_ok C.
Proof.
  induction 1 as [n Hp|n p C block Hp Hb IH Hf _ _ Hap]; [intros o c Ho; by rewrite lookup_empty in Ho|].
  rewrite <- (fetch_height _ _ _ Hf). by apply applies_coins_ok.
Qed.

Lemma disconnect_synced p C C' b n block view b' v' :
  synced n C' b -> parent n = Some p -> branch (db_blocks (bc_db b)) p C -> b_Hash block = n_hash n ->
  rep C' (fun _ => False) view C -> disconnectBlock n block view b = (Ret v', b') ->
  synced p C b' /\ rep C (fun _ => False) v' C /\ base_of b' = base_of b.
Proof.
  intros Hs Hp Hb Hh Hrep Hr. pose proof (sy_wf _ _ _ Hs) as Hwf.
  apply disconnectBlock_inv in Hr as (-> & p' & state & utxoSet & c & Ep & Es1 & Es2 & Eu & Ec & Ecore). assert (p' = p) as -> by congruence. clear Ep.
  destruct (dbPutUtxoView_rep _ C' view C (sy_coins _ _ _ Hs) Hrep) as (u & Eu' & Hu); [exact (branch_coins_ok _ _ _ Hb)|].
  rewrite Eu in Eu'. injection Eu' as <-. rewrite Hh in *.
  apply node_wf_step in Hwf as Hwf'. destruct Hwf' as [_ Hht]. rewrite Hp in Hht. destruct Hht as [Hht Hwp].
  rewrite (sy_view _ _ _ Hs), (setTip_ok p _ (chain n)) in Ec; [|by constructor|done]. injection Ec as <-.
  unfold core, put_blockIndex in Ecore. injection Ecore as F1 F2 F3 F4 F5 F6 F7 F8 F9 F10.
  split; [|split; [eapply commit_rep; done|unfold base_of; by rewrite F3, F10]].
  assert (forall m, m ∈ chain p -> m ∈ chain n) as Hsub by (intros m Hm; apply (elem_of_chain_step n p m Hp); by left).
  assert (n ∈ chain n) as Hself by (apply (elem_of_chain_step n p n Hp); by right).
  assert (forall m, m ∈ chain p -> n_hash m <> n_hash n) as Hne.
  { intros m Hm E. pose proof (sy_known _ _ _ Hs m (Hsub m Hm)) as Hk. rewrite E, (sy_known _ _ _ Hs n Hself) in Hk. injection Hk as <-.
    by apply (above_chain p n n Hwf Hp) in Hm as [_ ?]. }
  pose proof (height_nonneg n Hwf) as Hhn. pose proof (height_nonneg p Hwp) as Hhp.
  split; rewrite ?F1, ?F2, ?F3, ?F4, ?F5, ?F6, ?F7, ?F9, ?F10.
  - done.
  - done.
  - intros m Hm. by apply (sy_known _ _ _ Hs), Hsub.
  - done.
  - done.
  - exists (workSum n). cbn. by rewrite Es1, Es2.
  - done.
  - intros m q D blk Hm Hq HD Hblk. rewrite lookup_delete_ne by (by apply not_eq_sym, Hne). by apply (sy_journal _ _ _ Hs m q); [apply Hsub| | |].
  - cbn. intros m Hm. rewrite lookup_delete_ne by (by apply not_eq_sym, Hne). by apply (sy_hashes _ _ _ Hs), Hsub.
  - cbn. intros h [s Hin]. apply lookup_delete_Some in Hin as [Hd Hin]. destruct (sy_only _ _ _ Hs h ltac:(by exists s)) as (m & Hm & <-).
    apply (elem_of_chain_step n p m Hp) in Hm as [Hm| ->]; [by exists m|done].
  - cbn. intros i Hi. pose proof (chain_length p Hwp) as Hl. pose proof (sy_heights _ _ _ Hs i Hi) as Hold. rewrite (parent_chain n p Hp) in Hold.
    destruct (decide (i = height n)) as [->|Hd].
    + rewrite lookup_delete_eq. symmetry. rewrite (proj2 (lookup_ge_None _ _)); [done|lia].
    + rewrite lookup_delete_ne; [|intros E; apply serialized_height_inj in E; lia]. rewrite Hold.
      destruct (decide (i < height n)); [by rewrite lookup_app_l by lia|]. rewrite !(proj2 (lookup_ge_None _ _)); [done|lia|rewrite length_app; cbn; lia].
Qed.
End step.

(** * Many blocks *)

Section walks.
Context `{GlobalConf}.

(** The nodes of a branch above [p] up to [n]. *)
Fixpoint path (p : blockNode) (nodes : list blockNode) (n : blockNode) : Prop :=
  match nodes with
  | [] => n = p
  | m :: nodes' => parent m = Some p /\ path m nodes' n
  end.

Lemma path_snoc p l m n : path p l m -> parent n = Some m -> path p (l ++ [n]) n.
Proof. revert p. induction l as [|x l IH]; intros p; cbn [path app]; [intros -> Hp; done|]. intros [Hx Hl] Hn. split; [done|]. by apply IH. Qed.

Lemma path_in p l n : path p l n -> p ∈ chain n.
Proof.
  revert p. induction l as [|x l IH]; intros p; cbn [path].
  - intros ->. rewrite chain_step, elem_of_app, list_elem_of_singleton. by right.
  - intros [Hx Hl]. specialize (IH x Hl). clear Hl. revert IH. induction n as [n IHn] using node_ind. intros Hin. rewrite chain_step, elem_of_app, list_elem_of_singleton in Hin |- *.
    destruct Hin as [Hin| ->].
    + destruct (parent n) as [q|]; [|by apply elem_of_nil in Hin]. left. by apply IHn.
    + rewrite Hx. left. rewrite chain_step, elem_of_app, list_elem_of_singleton. by right.
Qed.

Lemma in_chain_wf n m : node_wf n -> m ∈ chain n -> node_wf m.
Proof. intros Hn Hm. apply elem_of_chain in Hm as [_ Hm]; [|done]. by apply (chain_lookup n _ m Hn) in Hm as (_ & ? & _). Qed.

Lemma fork_below n p f : parent n = Some p -> f ∈ chain n -> f <> n -> f ∈ chain p.
Proof. intros Hp Hf Hne. rewrite (parent_chain n p Hp), elem_of_app, list_elem_of_singleton in Hf. by destruct Hf. Qed.

Lemma fork_parent n f : f ∈ chain n -> f <> n -> exists p, parent n = Some p.
Proof. intros Hf Hne. rewrite chain_step, elem_of_app, list_elem_of_singleton in Hf. destruct (parent n) as [p|]; [by exists p|]. destruct Hf as [Hf|]; [by apply elem_of_nil in Hf|done]. Qed.

Lemma attach_walk_spec bi f n : f ∈ chain n -> forall acc,
  match attach_walk bi (Some f) n acc with
  | (l, false) => exists l0, l = l0 ++ acc /\ path f l0 n
  | (_, true) => exists m, m ∈ chain n /\ KnownInvalid (NodeStatus bi m) = true
  end.
Proof.
  induction n as [n IH] using node_ind. intros Hf acc.
  assert (attach_walk bi (Some f) n acc = if decide (Some f = Some n) then (acc, false) else if KnownInvalid (NodeStatus bi n) then (acc, true) else
    match parent n with None => (n :: acc, false) | Some p => attach_walk bi (Some f) p (n :: acc) end) as -> by (by destruct n).
  destruct (decide (Some f = Some n)) as [E|E]; [injection E as ->; by exists []|]. assert (f <> n) as Hne by congruence.
  destruct (KnownInvalid _) eqn:Ek; [exists n; split; [rewrite chain_step, elem_of_app, list_elem_of_singleton; by right|done]|].
  destruct (fork_parent n f Hf Hne) as [p Hp]. rewrite Hp in *. specialize (IH (fork_below n p f Hp Hf Hne) (n :: acc)).
  destruct (attach_walk bi (Some f) p (n :: acc)) as [l [|]].
  - destruct IH as (m & Hm & Hi). exists m. split; [rewrite (parent_chain n p Hp), elem_of_app; by left|done].
  - destruct IH as (l0 & -> & Hl). exists (l0 ++ [n]). split; [by rewrite <- app_assoc|by eapply path_snoc].
Qed.

Lemma detach_walk_step f n : detach_walk (Some f) n = if decide (f = n) then [] else n :: match parent n with None => [] | Some p => detach_walk (Some f) p end.
Proof.
  assert (detach_walk (Some f) n = if decide (Some f = Some n) then [] else n :: match parent n with None => [] | Some p => detach_walk (Some f) p end) as -> by (by destruct n).
  destruct (decide (Some f = Some n)), (decide (f = n)); congruence.
Qed.

Lemma branch_path blocks p l n C : path p l n -> branch blocks n C -> exists D, branch blocks p D.
Proof.
  revert p. induction l as [|m l IH]; intros p; cbn [path]; [intros ->; by exists C|]. intros [Hm Hl] Hb. destruct (IH m Hl Hb) as [D HD].
  inversion HD as [? Hr|? q D' blk Hq Hb' _ _ _ _]; subst; [congruence|]. assert (q = p) as -> by congruence. by exists D'.
Qed.

(** * The view for a block *)

Lemma attach_view db D C block v : db_rep db D -> applies C block -> rep D (fun _ => False) v C ->
  exists v1 v2, fetchInputUtxos db block v = (Ret (), v1) /\ connectTransactions block (Some []) v1 = (Ret (Some (journal_of C block)), v2) /\
    rep D (fun _ => False) v2 (apply_txs (b_Height block) (b_Transactions block) C).
Proof.
  intros Hdb Hap Hrep. destruct (ap_coinbase _ _ Hap) as (tx & txs & Etxs & Htx & Htxs). pose proof (ap_valid _ _ Hap) as Hval. rewrite Etxs in Hval.
  pose proof (txs_valid_inputs _ _ _ (proj2 Hval) Htxs) as Hok.
  destruct (fetchInputUtxos_rep db D Hdb block tx txs v C Etxs Hok Hrep) as (v1 & E1 & Hr1 & Hg & Hcov1).
  rewrite <- Etxs in Hr1. destruct (connectTransactions_run D block v1 C Hap Hr1) as (v2 & E2 & Hr2 & _).
  - intros t o Ht Ho [c Hc]. rewrite Etxs in Ht. unfold spends in Ho. destruct (IsCoinBase t) eqn:Ecb; [by apply elem_of_nil in Ho|].
    apply elem_of_cons in Ht as [-> |Ht]; [congruence|]. apply list_elem_of_fmap in Ho as (txIn & -> & Hi). destruct (Hcov1 t txIn Ht Hi) as [|Hh]; [done|].
    apply Hg. rewrite <- Etxs in Hh. pose proof (rep_at _ _ _ _ Hrep _ (Hok t txIn Ht Hi)) as Hat.
    destruct (entries v !! ti_PreviousOutPoint txIn); [done|]. cbn [at_ok] in Hat. rewrite (ap_fresh _ _ Hap _ Hh) in Hat. rewrite <- Hat in Hc; [done|tauto].
  - exists v1, v2. done.
Qed.

Lemma detach_view db D C block v : db_rep db D -> applies C block -> rep D (fun _ => False) v (apply_txs (b_Height block) (b_Transactions block) C) ->
  exists v1 v2, fetchInputUtxos db block v = (Ret (), v1) /\ disconnectTransactions db block (journal_of C block) v1 = (Ret (journal_of C block), v2) /\
    rep D (fun _ => False) v2 C.
Proof.
  intros Hdb Hap Hrep. destruct (ap_coinbase _ _ Hap) as (tx & txs & Etxs & Htx & Htxs). pose proof (ap_valid _ _ Hap) as Hval. rewrite Etxs in Hval.
  destruct (fetchInputUtxos_rep db D Hdb block tx txs v _ Etxs (txs_valid_inputs _ _ _ (proj2 Hval) Htxs) Hrep) as (v1 & E1 & Hr1 & _ & _).
  rewrite <- Etxs in Hr1. destruct (disconnectTransactions_run db D block v1 C Hap Hr1) as (v2 & E2 & Hr2 & _). by exists v1, v2.
Qed.

Lemma journal_fetch j C block : applies C block -> coins_ok C -> j !! b_Hash block = Some (journal_code (rev (journal_of C block))) ->
  dbFetchSpendJournalEntry j block = Ret (journal_of C block).
Proof.
  intros Hap HC Hj. destruct (ap_coinbase _ _ Hap) as (tx & txs & Etxs & Htx & Htxs). pose proof (ap_valid _ _ Hap) as Hval.
  unfold dbFetchSpendJournalEntry. rewrite Hj. simpl default.
  replace (slice_from (b_Transactions block) 1) with (Some txs) by (rewrite Etxs; symmetry; exact (slice_from_app [tx] txs 1 eq_refl)).
  cbn [or_panic mbind outcome_bind]. cbv zeta. rewrite deserialize_journal_ok; [done|apply txs_journal_ok; [done|apply Hap]|].
  symmetry. unfold journal_of. rewrite Etxs in *. cbn [txs_journal]. unfold spends at 1. rewrite Htx. cbn [omap list_omap app]. apply txs_journal_len; [apply Hval|exact Htxs].
Qed.
End walks.
