(* ===== verification/Attach.v ===== *)
(** The checks that decide whether a branch may become the best chain: a block that extends
    the chain, or the blocks that a reorganization attaches, apply one after the other when
    the checks of [connectBestChain] let them through. *)

From stdpp Require Import gmap.
From S2P Require Import Prelude TxScriptErr Params Opcode Sha Wire MsgTx SigHash ScriptUtil Btcec SigCache Engine Execute EngineProps ChainParams Block MoneySupply Compress CompressProps RuleErr TxRules Merkle Difficulty BlockIndex ChainView ThresholdState ChainIO ChainIOProps UtxoView UtxoProps UtxoSet Election Validate Sane ChainState Connect Supply Orphans ChainOps Frame NoRule Violations BestChain.

#[local] Opaque b_Hash TxHash.

(** * Connecting without a journal *)

Section journal.
Context `{GlobalConf}.

(** The journal that is asked for changes nothing else. *)
Lemma spend_loop_journal ins : forall v r v' j, spend_loop ins None v = (Ret r, v') -> r = None /\ exists j', spend_loop ins (Some j) v = (Ret (Some j'), v').
Proof.
  induction ins as [|i ins IH]; intros v r v' j Hr; cbn [spend_loop] in *; [injection Hr as <- <-; split; [done|by exists j]|].
  rewrite bind_gets in Hr |- *. destruct (LookupEntry v (ti_PreviousOutPoint i)) as [e|]; [|done].
  apply bind_Ret_inv in Hr as ([] & v1 & Hm & Hr). rewrite (bind_Ret _ _ _ _ _ Hm). cbn [fmap option_fmap option_map] in *. by apply IH.
Qed.

Lemma connectTransaction_journal tx h v r v' j : connectTransaction tx h None v = (Ret r, v') ->
  r = None /\ exists j', connectTransaction tx h (Some j) v = (Ret (Some j'), v').
Proof.
  unfold connectTransaction. intros Hr. destruct (IsCoinBase tx).
  - apply bind_Ret_inv in Hr as ([] & v1 & Hm & Hr). injection Hr as <- <-. split; [done|]. exists j. by rewrite (bind_Ret _ _ _ _ _ Hm).
  - apply bind_Ret_inv in Hr as (o & v1 & Hm & Hr). apply (spend_loop_journal _ _ _ _ j) in Hm as [-> [j' E]]. rewrite (bind_Ret _ _ _ _ _ E).
    apply bind_Ret_inv in Hr as ([] & v2 & Hm & Hr). injection Hr as <- <-. rewrite (bind_Ret _ _ _ _ _ Hm). split; [done|]. by exists j'.
Qed.

Lemma spend_loop_without ins : forall v j r v', spend_loop ins (Some j) v = (Ret r, v') -> spend_loop ins None v = (Ret None, v').
Proof.
  induction ins as [|i ins IH]; intros v j r v' Hr; cbn [spend_loop] in *; [by injection Hr as _ <-|].
  rewrite bind_gets in Hr |- *. destruct (LookupEntry v (ti_PreviousOutPoint i)) as [e|]; [|done].
  apply bind_Ret_inv in Hr as ([] & v1 & Hm & Hr). rewrite (bind_Ret _ _ _ _ _ Hm). cbn [fmap option_fmap option_map] in *. by eapply IH.
Qed.

Lemma connect_loop_without txs h : forall v j r v', connect_loop txs h (Some j) v = (Ret (Some r), v') -> connect_loop txs h None v = (Ret None, v').
Proof.
  induction txs as [|tx txs IH]; intros v j r v' Hr; cbn [connect_loop] in *; [by injection Hr as _ <-|].
  apply bind_Ret_inv in Hr as (o & v1 & Hm & Hr). assert (exists j', o = Some j') as [j' ->].
  { destruct o as [j'|]; [by exists j'|]. exfalso. clear -Hr. revert v1 Hr. induction txs as [|t txs IH]; intros v1 Hr; cbn [connect_loop] in Hr; [done|].
    apply bind_Ret_inv in Hr as (o & v2 & Hm & Hr). apply (connectTransaction_journal _ _ _ _ _ []) in Hm as [-> _]. by eapply IH. }
  assert (connectTransaction tx h None v = (Ret None, v1)) as E.
  { unfold connectTransaction in *. destruct (IsCoinBase tx).
    - apply bind_Ret_inv in Hm as ([] & v2 & Hm & Hx). rewrite (bind_Ret _ _ _ _ _ Hm). by injection Hx as _ <-.
    - apply bind_Ret_inv in Hm as (o & v2 & Hm & Hx). rewrite (bind_Ret _ _ _ _ _ (spend_loop_without _ _ _ _ _ Hm)).
      apply bind_Ret_inv in Hx as ([] & v3 & Hm2 & Hx). rewrite (bind_Ret _ _ _ _ _ Hm2). by injection Hx as _ <-. }
  rewrite (bind_Ret _ _ _ _ _ E). by eapply IH.
Qed.

Lemma connectTransactions_without block v j v' : connectTransactions block (Some []) v = (Ret (Some j), v') -> exists o, connectTransactions block None v = (Ret o, v').
Proof.
  unfold connectTransactions. intros Hr. apply bind_Ret_inv in Hr as (o & v1 & Hm & Hr). apply bind_Ret_inv in Hr as ([] & v2 & Hm2 & Hr). injection Hr as -> <-.
  rewrite (bind_Ret _ _ _ _ _ (connect_loop_without _ _ _ _ _ _ Hm)), (bind_Ret _ _ _ _ _ Hm2). by exists None.
Qed.

Lemma connect_txs_journal chainParams txs h : forall fees v r v' j, connect_txs chainParams txs h fees None v = (Ret r, v') ->
  exists j', connect_txs chainParams txs h fees (Some j) v = (Ret (r.1, Some j'), v').
Proof.
  induction txs as [|tx txs IH]; intros fees v r v' j Hr; cbn [connect_txs] in *; [injection Hr as <- <-; by exists j|].
  rewrite bind_gets in Hr |- *. apply bind_Ret_inv in Hr as (fee & v1 & Hm & Hr). rewrite (bind_Ret _ _ _ _ _ Hm). cbv zeta in *.
  destruct (_ <? _); [done|]. apply bind_Ret_inv in Hr as (o & v2 & Hc & Hr). apply (connectTransaction_journal _ _ _ _ _ j) in Hc as [-> [j' E]].
  rewrite (bind_Ret _ _ _ _ _ E). by apply IH.
Qed.

End journal.

(** * Blocks and branches *)

Section validity.
Context `{GlobalConf} `{Crypto} `{MapOrder} (Hmax : MaxUnitsI64 < 2 ^ 63) (Hpos : 0 <= MaxUnitsI64).
Context (chainParams : Params) (checkpoints : list Checkpoint) (range : election -> list electionCandidate).

(** What is known of a stored block by itself: it passed the checks that need no context
    before it was stored, and outpoints and outputs are in range ([stxo_ok]: the amounts
    are storable). *)
Record plain_block (block : BtcBlock) : Prop := {
  pb_sane : exists powLimit time flags, checkBlockSanity block powLimit time flags = Ret ();
  pb_inputs : inputs_ok (b_Transactions block);
  pb_outputs : Forall (fun tx => Forall (fun p => stxo_ok p.2) (created tx (b_Height block))) (b_Transactions block)
}.

Lemma plain_sane block : plain_block block ->
  (exists tx txs, b_Transactions block = tx :: txs /\ IsCoinBase tx = true /\ Forall (fun tx => IsCoinBase tx = false) txs) /\
  NoDup (map TxHash (b_Transactions block)) /\ Forall sane_tx (b_Transactions block).
Proof. intros [(pl & time & flags & Hs) _ _]. by apply checkBlockSanity_spec in Hs as [_ _ Hc Ht Hd _ _]. Qed.

Lemma apply_txs_sane h txs C : h <> 0 -> Forall sane_tx txs -> coins_sane C -> coins_sane (apply_txs h txs C).
Proof.
  intros Hh Hs. revert C. induction Hs as [|tx txs Ht _ IH]; intros C HC; [done|]. cbn [apply_txs foldl]. apply IH.
  apply apply_tx_sane; try done. unfold spends. destruct (IsCoinBase tx); [constructor|apply Ht].
Qed.

(** The blocks of the branch of a node are stored, each by itself allowed, and none
    repeats the hash of a transaction with unspent outputs. *)
Definition stored_branch (blocks : Bucket) (node : blockNode) : Prop :=
  forall m p, m ∈ chain node -> parent m = Some p -> exists block, fetch blocks m = Ret block /\ b_Hash block = n_hash m /\ prev_hash block = n_hash p /\
    plain_block block /\ forall D, branch blocks p D -> forall o, op_Hash o ∈ map TxHash (b_Transactions block) -> D !! o = None.

Lemma stored_branch_below blocks n m : node_wf n -> m ∈ chain n -> stored_branch blocks n -> stored_branch blocks m.
Proof. intros Hwf Hm Hs k p Hk. apply Hs. by eapply elem_of_chain_trans. Qed.

Lemma self_in n : n ∈ chain n.
Proof. rewrite chain_step, elem_of_app, list_elem_of_singleton. by right. Qed.

Lemma parent_in n p : parent n = Some p -> p ∈ chain n.
Proof. intros Hp. rewrite (parent_chain n p Hp), elem_of_app. left. apply self_in. Qed.

Lemma child_height n p : node_wf n -> parent n = Some p -> 0 < height n.
Proof. intros Hwf Hp. apply node_wf_step in Hwf as [_ Hn]. rewrite Hp in Hn. destruct Hn as [-> Hwf]. pose proof (height_nonneg p Hwf). lia. Qed.

Lemma branch_sane blocks n C : branch blocks n C -> node_wf n -> stored_branch blocks n -> coins_sane C.
Proof.
  induction 1 as [n Hr|n p C block Hp Hb IH Hf _ _ Hap]; intros Hwf Hst; [split; intros o c Ho; by rewrite lookup_empty in Ho|].
  destruct (Hst n p (self_in n) Hp) as (blk & Hf' & _ & _ & Hpl & _). rewrite Hf in Hf'. injection Hf' as <-.
  pose proof (child_height n p Hwf Hp). apply apply_txs_sane; [lia|apply (plain_sane _ Hpl)|].
  apply IH; [by apply (in_chain_wf n); [|apply parent_in]|by apply (stored_branch_below _ n); [| apply parent_in|]].
Qed.

(** * One block of a reorganization *)

(** A transaction that spends an output of its own block comes after the one that creates
    it. *)
Definition ordered (block : BtcBlock) : Prop := forall o, o ∉ forward_refs (b_Transactions block).

Lemma checked_applies D C b b' node block v es view stxos :
  db_rep (db_utxoSet (bc_db b)) D -> rep D (fun _ => False) v C -> coins_sane C -> plain_block block -> ordered block ->
  (forall o, op_Hash o ∈ map TxHash (b_Transactions block) -> C !! o = None) ->
  height node = b_Height block -> 0 < height node -> BIP0034Height chainParams <= height node ->
  checkConnectBlock chainParams checkpoints range node block v None b = (Ret (es, view, stxos), b') ->
  applies C block /\ rep D (fun _ => False) view (apply_txs (b_Height block) (b_Transactions block) C).
Proof.
  intros Hdb Hrep HC Hpl Hord Hfresh Hh Hh0 H34 Hr. destruct (plain_sane _ Hpl) as ((cb & rest & Et & Hcb & Hrest) & Hnd & Hs).
  apply checkConnectBlock_inv in Hr as (v1 & v2 & fees & cb' & rest' & oldEs & Hfetch & Hcon & _ & _ & -> & _); [|done].
  assert (inputs_ok rest) as Hin by (intros t x Ht; apply (pb_inputs _ Hpl); rewrite Et; apply elem_of_cons; by right).
  destruct (fetchInputUtxos_rep (db_utxoSet (bc_db b)) D Hdb block cb rest v C Et Hin Hrep) as (v1' & E1 & Hr1 & _ & _).
  rewrite E1 in Hfetch. injection Hfetch as <-. rewrite Hh in *. rewrite <- Et in Hr1.
  apply (connect_txs_journal _ _ _ _ _ _ _ []) in Hcon as [j Hcon].
  destruct (connect_txs_run Hmax Hpos chainParams D (b_Height block) (b_Transactions block) ltac:(lia) Hnd Hs 0 [] v1' C _ v2 Hr1 Hfresh ltac:(intros o Ho; by destruct (Hord o)) HC ltac:(lia) Hcon)
    as (Hval & _ & Hrep2 & _).
  split; [|destruct Hrep2 as [Hk Ha]; by split]. split; [rewrite Et; eauto|done|done|done|apply Hpl].
Qed.

(** * The checks leave the index of blocks alone *)

Lemma search_checkpoint_index n : keeps bc_index (search_checkpoint checkpoints n).
Proof. induction n as [|n IH]; cbn [search_checkpoint]; keep. Qed.

Lemma findPreviousCheckpoint_index : keeps bc_index (findPreviousCheckpoint checkpoints).
Proof. pose proof search_checkpoint_index. unfold findPreviousCheckpoint. keep. all: auto. Qed.

Lemma on_caches_index {A} (m : Chain A) : keeps bc_index (on_caches m).
Proof. unfold on_caches. keep. Qed.
#[local] Hint Resolve findPreviousCheckpoint_index on_caches_index : keeps.

Lemma calcSequenceLock_index node tx view mempool : keeps bc_index (calcSequenceLock chainParams node tx view mempool).
Proof. unfold calcSequenceLock. keep. Qed.
#[local] Hint Resolve calcSequenceLock_index : keeps.

Lemma check_locks_index node txs view medianTime : keeps bc_index (check_locks chainParams node txs view medianTime).
Proof. induction txs as [|tx txs IH]; cbn [check_locks]; keep. Qed.

Lemma checkBlockScripts_index block view flags : keeps bc_index (checkBlockScripts block view flags).
Proof. unfold checkBlockScripts. keep. Qed.
#[local] Hint Resolve check_locks_index checkBlockScripts_index : keeps.

Lemma checkConnectBlock_index node block view stxos : keeps bc_index (checkConnectBlock chainParams checkpoints range node block view stxos).
Proof. unfold checkConnectBlock. keep. Qed.

Lemma checkConnectBlock_db node block view stxos : keeps bc_db (checkConnectBlock chainParams checkpoints range node block view stxos).
Proof. apply checkConnectBlock_keeps. by split. Qed.

Lemma db_ret {A} (m : BC A) b a b' : keeps bc_db m -> m b = (Ret a, b') -> bc_db b' = bc_db b.
Proof. intros Hk E. specialize (Hk b). by rewrite E in Hk. Qed.

Lemma NodeStatus_set m n flags i : NodeStatus (SetStatusFlags n flags i) m = if decide (n_hash n = n_hash m) then NodeStatus i n ||| flags else NodeStatus i m.
Proof.
  unfold SetStatusFlags, mark_dirty, NodeStatus. cbn [bi_status]. destruct (decide (n_hash n = n_hash m)) as [<-|Hne]; [by rewrite lookup_insert_eq|by rewrite lookup_insert_ne].
Qed.

(** * Marks of valid blocks *)

(** What the marks are about. *)
Definition marked (b : BlockChain) : gmap bytes blockNode * gmap bytes Z * Bucket := (bi_index (bc_index b), bi_status (bc_index b), db_blocks (bc_db b)).

(** Every known block that is marked valid has a branch whose blocks apply. *)
Definition marks_true (b : BlockChain) : Prop := forall n, bi_index (bc_index b) !! n_hash n = Some n -> KnownValid (NodeStatus (bc_index b) n) = true ->
  exists C, branch (db_blocks (bc_db b)) n C.

Lemma marks_same b b' : marked b' = marked b -> marks_true b -> marks_true b'.
Proof. intros [= E1 E2 E3] Hm n. unfold NodeStatus. rewrite E1, E2, E3. apply Hm. Qed.

Lemma marks_kept {A} (m : BC A) b : keeps marked m -> marks_true b -> marks_true (snd (m b)).
Proof. intros Hk. apply marks_same, Hk. Qed.

Lemma KnownValid_lor s flags : KnownValid (s ||| flags) = KnownValid s || KnownValid flags.
Proof.
  unfold KnownValid, statusValid. assert (forall x, (x &&& 2 =? 0) = negb (Z.testbit x 1)) as Hb.
  { intros x. change 2 with (2 ^ 1). rewrite <- (Z.shiftl_1_l 1). destruct (Z.testbit x 1) eqn:E.
    - apply Z.eqb_neq. intros E0. apply (f_equal (fun z => Z.testbit z 1)) in E0. rewrite Z.land_spec, E in E0. done.
    - apply Z.eqb_eq, Z.bits_inj'. intros i Hi. rewrite Z.land_spec, Z.bits_0. change (Z.shiftl 1 1) with (2 ^ 1). rewrite Z.pow2_bits_eqb by lia.
      destruct (Z.eqb_spec 1 i) as [<-|]; [by rewrite E|by rewrite andb_false_r]. }
  rewrite !Hb, Z.lor_spec, !negb_involutive. done.
Qed.

(** A mark for a block whose branch applies. *)
Lemma marks_valid n b C : bi_index (bc_index b) !! n_hash n = Some n -> branch (db_blocks (bc_db b)) n C -> marks_true b ->
  marks_true (set_index (SetStatusFlags n statusValid (bc_index b)) b).
Proof.
  intros Hn Hb Hm m Hk. cbn [bc_index set_index bc_db] in *. rewrite NodeStatus_set. destruct (decide (n_hash n = n_hash m)) as [E|_]; [|by apply Hm].
  change (bi_index (bc_index b) !! n_hash m = Some m) in Hk. rewrite <- E, Hn in Hk. injection Hk as <-. intros _. by exists C.
Qed.

(** Other marks. *)
Lemma marks_flags flags nodes b : KnownValid flags = false -> marks_true b -> marks_true (snd (set_flags_of flags nodes b)).
Proof.
  intros Hf. unfold set_flags_of, modify. cbn [snd]. revert b. induction nodes as [|n nodes IH]; intros b Hm; [by destruct b|]. cbn [foldl].
  assert (marks_true (set_index (SetStatusFlags n flags (bc_index b)) b)) as H'.
  { intros m Hk. cbn [bc_index set_index bc_db] in *. rewrite NodeStatus_set. destruct (decide (n_hash n = n_hash m)) as [E|_]; [|by apply Hm].
    rewrite KnownValid_lor, Hf, orb_false_r. intros Hv. apply Hm; [done|]. unfold NodeStatus in *. by rewrite <- E. }
  apply IH in H'. cbn [bc_index set_index] in H'. exact H'.
Qed.

Lemma flushToDB_marked : keeps marked flushToDB.
Proof.
  unfold flushToDB. intros b. rewrite bind_gets. destruct (_ =? 0); [done|]. unfold Update, mbind, St_bind, gets, lift, modify. cbn. unfold marked. cbn. f_equal.
  generalize (elements (bi_dirty (bc_index b))). intros l. generalize (bc_db b). induction l as [|h l IH]; intros db; [done|]. cbn [foldl]. rewrite IH. by destruct (LookupNode _ h).
Qed.

Lemma checkConnectBlock_marked node block view stxos : keeps marked (checkConnectBlock chainParams checkpoints range node block view stxos).
Proof. intros b. unfold marked. by rewrite (checkConnectBlock_index node block view stxos b), (checkConnectBlock_db node block view stxos b). Qed.

(** * All blocks of a reorganization *)

(** The node [node] may become the tip instead of [t]: its branch is known and stored, the
    marks of valid blocks are true, and for what is not yet marked valid the height is in
    the coinbase, and unless it extends [t] the transactions are ordered. *)
Record attachable (t node : blockNode) (b : BlockChain) : Prop := {
  cd_wf : node_wf node;
  cd_known : forall m, m ∈ chain node -> bi_index (bc_index b) !! n_hash m = Some m;
  cd_stored : stored_branch (db_blocks (bc_db b)) node;
  cd_marks : marks_true b;
  cd_unmarked : forall m block, m ∈ chain node -> is_Some (parent m) -> KnownValid (NodeStatus (bc_index b) m) = false -> fetch (db_blocks (bc_db b)) m = Ret block ->
    BIP0034Height chainParams <= height m /\ (parent node = Some t \/ ordered block)
}.

Lemma attachable_mark t node n b C : attachable t node b -> n ∈ chain node -> branch (db_blocks (bc_db b)) n C ->
  attachable t node (set_index (SetStatusFlags n statusValid (bc_index b)) b).
Proof.
  intros [Hwf Hkn Hst Hm Hu] Hn Hb. split; [done|done|done|by apply (marks_valid n b C); [apply Hkn| |]|].
  intros m block Hin Hp. cbn [bc_index set_index]. rewrite NodeStatus_set. destruct (decide (n_hash n = n_hash m)) as [E|_]; [|by apply Hu]. by rewrite KnownValid_lor, orb_true_r.
Qed.

Lemma attachable_same t node b b' : marked b' = marked b -> attachable t node b -> attachable t node b'.
Proof. intros E [Hwf Hkn Hst Hm Hu]. pose proof (marks_same _ _ E Hm) as Hm'. injection E as E1 E2 E3. split; unfold NodeStatus in *; rewrite ?E1, ?E2, ?E3; done. Qed.

(** A block marked valid is attached without its checks. *)
Lemma attach_valid D C block view b : db_rep (db_utxoSet (bc_db b)) D -> applies C block -> rep D (fun _ => False) view C -> exists view',
  ('(_, view) ← on_view (fetchInputUtxos (db_utxoSet (bc_db b)) block) view; '(_, view) ← on_view (connectTransactions block None) view; mret view) b = (Ret view', b) /\
  rep D (fun _ => False) view' (apply_txs (b_Height block) (b_Transactions block) C).
Proof.
  intros Hdb Hap Hrep. destruct (attach_view _ _ _ _ _ Hdb Hap Hrep) as (v1 & v2 & E1 & E2 & Hr2). apply connectTransactions_without in E2 as [o E2]. exists v2. split; [|done].
  unfold on_view, mbind, St_bind. by rewrite E1, E2.
Qed.

(** One run of the checks: whatever the outcome the marks are true, and if they succeed the
    branch applies. *)
Lemma check_attach_branch t node Ct nodes : parent node <> Some t -> forall p C view b r b',
  attachable t node b -> db_rep (db_utxoSet (bc_db b)) Ct -> branch (db_blocks (bc_db b)) p C -> rep Ct (fun _ => False) view C -> path p nodes node ->
  check_attach chainParams checkpoints range nodes view b = (r, b') ->
  marks_true b' /\ forall blocks, r = Ret blocks -> exists Cn, branch (db_blocks (bc_db b)) node Cn.
Proof.
  intros Hnt. induction nodes as [|m nodes IH]; intros p C view b r b' Hc Hdb Hb Hrep Hpath Hr.
  { injection Hr as <- <-. cbn [path] in Hpath. subst. split; [apply Hc|]. intros _ _. by exists C. }
  cbn [path] in Hpath. destruct Hpath as [Hp Hpath]. pose proof (path_in _ _ _ Hpath) as Hin.
  destruct (cd_stored _ _ _ Hc m p Hin Hp) as (block & Hf & Hh & Hpr & Hpl & Hfresh). specialize (Hfresh C Hb).
  pose proof (in_chain_wf node m (cd_wf _ _ _ Hc) Hin) as Hwf. pose proof (fetch_height _ _ _ Hf) as Ehb. pose proof (child_height m p Hwf Hp) as Hh0.
  assert (coins_sane C) as HC.
  { eapply branch_sane; [exact Hb|by apply (in_chain_wf m); [|apply parent_in]|]. apply (stored_branch_below _ node); [apply Hc| |apply Hc].
    eapply elem_of_chain_trans; [apply Hc|exact Hin|by apply parent_in]. }
  cbn [check_attach] in Hr. rewrite bind_gets in Hr. change (dbFetchBlockByNode m (bc_db b)) with (fetch (db_blocks (bc_db b)) m) in Hr. rewrite Hf, bind_lift_Ret, bind_gets in Hr.
  assert (applies C block -> branch (db_blocks (bc_db b)) m (apply_txs (b_Height block) (b_Transactions block) C)) as Hstep
    by (intros Hap; rewrite Ehb; by eapply branch_block).
  assert (forall v b1, attachable t node b1 -> bc_db b1 = bc_db b -> applies C block -> rep Ct (fun _ => False) v (apply_txs (b_Height block) (b_Transactions block) C) ->
    (blocks ← check_attach chainParams checkpoints range nodes v; mret (block :: blocks)) b1 = (r, b') ->
    marks_true b' /\ forall blocks, r = Ret blocks -> exists Cn, branch (db_blocks (bc_db b)) node Cn) as Hrest.
  { intros v b1 Hc1 Ed Hap Hrv Hk. unfold mbind, St_bind in Hk. destruct (check_attach _ _ _ nodes v b1) as [rr b2] eqn:Ek.
    destruct (IH m (apply_txs (b_Height block) (b_Transactions block) C) v b1 rr b2 Hc1) as [Hm2 Hbr]; rewrite ?Ed; [done|by apply Hstep|done|done|done|].
    rewrite Ed in Hbr. destruct rr; injection Hk as <- <-; (split; [done|]); intros bl Ebl; [by eapply Hbr|done|done]. }
  clear IH. destruct (KnownValid (NodeStatus (bc_index b) m)) eqn:Ek.
  - destruct (cd_marks _ _ _ Hc m (cd_known _ _ _ Hc m Hin) Ek) as [D HD]. inversion HD as [? Hn|? q C' blk Hq HbC Hfe _ _ Hap]; subst; [congruence|].
    assert (q = p) as -> by congruence. rewrite Hf in Hfe. injection Hfe as <-. rewrite <- (branch_fun _ _ _ Hb _ HbC) in *.
    destruct (attach_valid _ _ _ _ b Hdb Hap Hrep) as (v2 & E2 & Hr2). rewrite (bind_Ret _ _ _ _ _ E2) in Hr. by eapply (Hrest v2 b).
  - destruct (cd_unmarked _ _ _ Hc m block Hin ltac:(by eexists) Ek Hf) as [H34 [?|Hord]]; [done|].
    pose proof (checkConnectBlock_marked m block view None b) as Hkm. pose proof (checkConnectBlock_db m block view None b) as Hkd.
    unfold attempt, mbind, St_bind in Hr. cbv beta in Hr.
    destruct (checkConnectBlock chainParams checkpoints range m block view None b) as [[[[es w] st]|e|] b3] eqn:Ec; cbn [snd] in Hkm, Hkd.
    + destruct (checked_applies Ct C b b3 m block view es w st Hdb Hrep HC Hpl Hord Hfresh (eq_sym Ehb) Hh0 H34 Ec) as [Hap Hrep2].
      eapply (Hrest w (set_index (SetStatusFlags m statusValid (bc_index b3)) b3)); [|exact Hkd|exact Hap|exact Hrep2|exact Hr].
      eapply attachable_mark; [by eapply attachable_same|exact Hin|rewrite Hkd; exact (Hstep Hap)].
    + pose proof (marks_same _ _ Hkm (cd_marks _ _ _ Hc)) as Hm3. split; [|by destruct (IsRuleError e); injection Hr as <- _].
      destruct (IsRuleError e); injection Hr as _ <-; [|done].
      apply (marks_flags statusInvalidAncestor nodes (snd (set_flags_of statusValidateFailed [m] b3))); [done|]. by apply marks_flags.
    + injection Hr as <- <-. split; [by eapply marks_same; [|apply Hc]|done].
Qed.
End validity.
