(* ===== verification/Marks.v ===== *)
(** The marks of valid blocks through the operations of the chain: the operations that
    connect and disconnect blocks keep what the marks are about, and an operation that
    only marks blocks whose branch applies keeps the marks true. *)

From stdpp Require Import gmap.
From S2P Require Import Prelude TxScriptErr Params Opcode Sha Wire MsgTx SigHash ScriptUtil Btcec SigCache Engine Execute ChainParams Block MoneySupply Compress RuleErr TxRules Merkle Difficulty BlockIndex ThresholdState ChainIO UtxoView Election Validate ChainState Connect Orphans ChainOps Frame UtxoProps BestChain Attach.

(** * Operations that keep an invariant *)

(** [I] holds after the operation when it holds before, whatever the outcome. *)
Definition maintains {A} (I : BlockChain -> Prop) (m : BC A) : Prop := forall b, I b -> I (snd (m b)).

Section maintains.
Context (I : BlockChain -> Prop).

Lemma maintains_bind {A B} (m : BC A) (k : A -> BC B) : maintains I m -> (forall a, maintains I (k a)) -> maintains I (a ← m; k a).
Proof. intros Hm Hk b Hb. apply Hm in Hb. unfold mbind, St_bind. destruct (m b) as [[a|e|] b']; cbn in *; [by apply Hk|done|done]. Qed.

Lemma maintains_gets {A B} (g : BlockChain -> A) (k : A -> BC B) : (forall a, maintains I (k a)) -> maintains I (a ← gets g; k a).
Proof. intros Hk b. rewrite bind_gets. apply Hk. Qed.

Lemma maintains_lift {A B} (o : outcome ruleerr A) (k : A -> BC B) : (forall a, maintains I (k a)) -> maintains I (a ← lift o; k a).
Proof. intros Hk b Hb. destruct o; [rewrite bind_lift_Ret; by apply Hk|done|done]. Qed.

Lemma maintains_ret {A} (a : A) : maintains I (mret a).
Proof. by intros b. Qed.

Lemma maintains_throw {A} (e : ruleerr) : maintains I (mthrow e : BC A).
Proof. by intros b. Qed.

Lemma maintains_attempt {A} (m : BC A) : maintains I m -> maintains I (attempt m).
Proof. intros Hm b Hb. apply Hm in Hb. unfold attempt. by destruct (m b) as [[a|e|] b']. Qed.
End maintains.

Create HintDb maintains.

(** Follows the structure of an operation. *)
Ltac hold :=
  repeat first
    [ progress intros
    | assumption
    | solve [auto with maintains]
    | simple apply maintains_ret
    | simple apply maintains_throw
    | simple apply maintains_lift
    | simple apply maintains_gets
    | simple apply maintains_bind
    | simple apply maintains_attempt
    | case_match ].

(** * The operations *)

Section marks.
Context `{GlobalConf} `{Crypto} `{MapOrder}.
Context (chainParams : Params) (checkpoints : list Checkpoint) (range : election -> list electionCandidate) (adjustedTime : Z).

Lemma marked_on_caches {A} (m : Chain A) : keeps marked (on_caches m).
Proof. unfold on_caches. apply keeps_on_field. done. Qed.

Lemma marked_set_tip n : keeps marked (set_tip n).
Proof. unfold set_tip. keep. Qed.

Lemma marked_snapshot s : keeps marked (modify (set_snapshot s)).
Proof. by intros b. Qed.

Lemma marked_isCurrent : keeps marked (isCurrent checkpoints adjustedTime).
Proof. unfold isCurrent. keep. Qed.

Lemma marked_Update g : (forall db db', g db = Ret db' -> db_blocks db' = db_blocks db) -> keeps marked (Update g).
Proof. intros Hg b. unfold Update. rewrite bind_gets. destruct (g (bc_db b)) as [db'|e|] eqn:E; [|done|done]. rewrite bind_lift_Ret. unfold marked. cbn. by rewrite (Hg _ _ E). Qed.

Lemma put_connected_blocks node block view stxos es s db db' : put_connected node block view stxos es s db = Ret db' -> db_blocks db' = db_blocks db.
Proof.
  unfold put_connected. cbv zeta. destruct (dbPutUtxoView _ _) as [u|e|]; [|done|done]. cbn [mbind outcome_bind].
  destruct (dbPutSpendJournalEntry _ _ _) as [j|e|]; [|done|done]. by intros [= <-].
Qed.

Lemma put_disconnected_blocks node block view s db db' : put_disconnected node block view s db = Ret db' -> db_blocks db' = db_blocks db.
Proof.
  unfold put_disconnected. cbv zeta. destruct (dbPutUtxoView _ _) as [u|e|]; [|done|done]. cbn [mbind outcome_bind].
  destruct (dbFetchSpendJournalEntry _ _) as [j|e|]; [|done|done]. by intros [= <-].
Qed.

Lemma marked_put_connected node block view stxos es s : keeps marked (Update (put_connected node block view stxos es s)).
Proof. apply marked_Update. intros db db'. apply put_connected_blocks. Qed.

Lemma marked_put_disconnected node block view s : keeps marked (Update (put_disconnected node block view s)).
Proof. apply marked_Update. intros db db'. apply put_disconnected_blocks. Qed.
#[local] Hint Resolve marked_on_caches marked_set_tip marked_snapshot marked_isCurrent marked_put_connected marked_put_disconnected flushToDB_marked : keeps.

Lemma marked_flushIndexState : keeps marked flushIndexState.
Proof. unfold flushIndexState. keep. Qed.

Lemma marked_connectBlock node block view stxos es : keeps marked (connectBlock chainParams checkpoints adjustedTime node block view stxos es).
Proof. unfold connectBlock. keep. Qed.

Lemma marked_disconnectBlock node block view : keeps marked (disconnectBlock node block view).
Proof. unfold disconnectBlock. keep. Qed.
#[local] Hint Resolve marked_connectBlock marked_disconnectBlock : keeps.

Lemma marked_apply_detach nodes : forall blocks view, keeps marked (apply_detach nodes blocks view).
Proof. induction nodes as [|n nodes IH]; cbn [apply_detach]; keep. all: apply IH. Qed.

Lemma marked_apply_attach nodes : forall blocks view, keeps marked (apply_attach chainParams checkpoints range adjustedTime nodes blocks view).
Proof. induction nodes as [|n nodes IH]; cbn [apply_attach]; keep. all: apply IH. Qed.

Lemma getReorganizeNodes_marks node : maintains marks_true (getReorganizeNodes node).
Proof.
  assert (forall nodes, maintains marks_true (set_flags_of statusInvalidAncestor nodes)) by (intros nodes b; by apply marks_flags).
  unfold getReorganizeNodes. hold. all: auto with maintains.
Qed.

(** * A block that extends the chain *)

(** The marks are true and the branch of [node] applies. *)
Definition marks_and_branch (node : blockNode) (b : BlockChain) : Prop :=
  marks_true b /\ bi_index (bc_index b) !! n_hash node = Some node /\ exists C, branch (db_blocks (bc_db b)) node C.

Lemma with_branch_kept {A} node (m : BC A) : keeps marked m -> maintains (marks_and_branch node) m.
Proof. intros Hk b (Hm & Hn & C & HC). specialize (Hk b). split; [by eapply marks_same|]. injection Hk as -> _ ->. split; [done|by exists C]. Qed.

Lemma with_branch_valid node : maintains (marks_and_branch node) (set_flags_of statusValid [node]).
Proof. intros b (Hm & Hn & C & HC). split; [by apply (marks_valid node b C)|]. split; [done|by exists C]. Qed.

Lemma with_branch_failed node : maintains (marks_and_branch node) (set_flags_of statusValidateFailed [node]).
Proof. intros b (Hm & Hn & C & HC). split; [by apply marks_flags|]. split; [done|by exists C]. Qed.

(** What follows the checks. *)
Lemma extend_marks node block view stxos es fastAdd :
  maintains (marks_and_branch node) (r ← attempt (connectBlock chainParams checkpoints adjustedTime node block view stxos es);
    match r with
    | inr e => (if IsRuleError e then set_flags_of statusValidateFailed [node] else mret ());; flushIndexState;; mthrow e
    | inl _ => bi ← gets bc_index; (if fastAdd || negb (KnownValid (NodeStatus bi node)) then set_flags_of statusValid [node];; flushIndexState else mret ());; mret true
    end).
Proof.
  pose proof (with_branch_kept node _ (marked_connectBlock node block view stxos es)). pose proof (with_branch_kept node _ marked_flushIndexState).
  pose proof (with_branch_valid node). pose proof (with_branch_failed node). hold.
Qed.
End marks.
