(* ===== verification/Reorganize.v ===== *)
(** Reorganizations: the checks, the blocks that are disconnected and the blocks that are
    connected, and the selection of the best chain. *)

From stdpp Require Import gmap.
From S2P Require Import Prelude TxScriptErr Params Opcode Sha Wire MsgTx SigHash ScriptUtil Btcec SigCache Engine Execute EngineProps ChainParams Block MoneySupply Compress CompressProps RuleErr TxRules Merkle Difficulty BlockIndex ChainView ThresholdState ChainIO ChainIOProps UtxoView UtxoProps UtxoSet Election Validate ChainState Connect Supply Orphans ChainOps Frame NoRule Violations BestChain Attach Marks.

#[local] Opaque b_Hash TxHash.

#[local] Abbreviation exact_rep D v C := (rep D (fun _ => False) v C).

Lemma on_view_run {A} (m : View A) view a view' b : m view = (Ret a, view') -> on_view m view b = (Ret (a, view'), b).
Proof. unfold on_view. by intros ->. Qed.

Section runs.
Context `{GlobalConf} `{Crypto} `{MapOrder} (Hmax : MaxUnitsI64 < 2 ^ 63) (Hpos : 0 <= MaxUnitsI64).
Context (chainParams : Params) (checkpoints : list Checkpoint) (range : election -> list electionCandidate) (adjustedTime : Z).

(** The blocks to detach as the check loads them. *)
Definition loaded (blocks : Bucket) (n : blockNode) (x : BtcBlock * list SpentTxOut) : Prop :=
  exists p D, parent n = Some p /\ branch blocks p D /\ fetch blocks n = Ret x.1 /\ b_Hash x.1 = n_hash n /\ applies D x.1 /\ x.2 = journal_of D x.1.

Lemma branch_inv blocks n p C : parent n = Some p -> branch blocks n C -> exists D block,
  branch blocks p D /\ fetch blocks n = Ret block /\ b_Hash block = n_hash n /\ prev_hash block = n_hash p /\ applies D block /\
  b_Height block = height n /\ C = apply_txs (height n) (b_Transactions block) D.
Proof.
  intros Hp Hb. inversion Hb as [? Hr|? q D blk Hq Hb' Hf Hh Hpr Hap]; subst; [congruence|]. assert (q = p) as -> by congruence.
  exists D, blk. do 5 (split; [done|]). split; [by eapply fetch_height|done].
Qed.

Lemma check_detach_run f t Ct b : synced t Ct b -> forall n Cn v, n ∈ chain t -> f ∈ chain n -> branch (db_blocks (bc_db b)) n Cn -> exact_rep Ct v Cn ->
  exists blocks v', check_detach (detach_walk (Some f) n) v b = (Ret (blocks, v'), b) /\ Forall2 (loaded (db_blocks (bc_db b))) (detach_walk (Some f) n) blocks /\
    exists Cf, branch (db_blocks (bc_db b)) f Cf /\ exact_rep Ct v' Cf.
Proof.
  intros Hs. induction n as [n IH] using node_ind. intros Cn v Hn Hf Hb Hrep. rewrite detach_walk_step.
  destruct (decide (f = n)) as [->|Hne]; [exists [], v; split; [done|]; split; [constructor|by exists Cn]|]. destruct (fork_parent n f Hf Hne) as [p Hp]. rewrite Hp in *.
  destruct (branch_inv _ _ _ _ Hp Hb) as (D & block & HbD & Hfe & Hh & Hpr & Hap & Ehb & ->).
  rewrite <- Ehb in Hrep. destruct (detach_view _ _ _ _ _ (sy_coins _ _ _ Hs) Hap Hrep) as (v1 & v2 & E1 & E2 & Hr2).
  destruct (IH D v2) as (blocks & v' & E & Hl & Hcf); [|by apply (fork_below n p f)|done|done|].
  { eapply elem_of_chain_trans; [apply (sy_wf _ _ _ Hs)|exact Hn|]. rewrite (parent_chain n p Hp), elem_of_app. left. rewrite chain_step, elem_of_app, list_elem_of_singleton. by right. }
  exists ((block, journal_of D block) :: blocks), v'. cbn [check_detach]. rewrite bind_gets.
  change (dbFetchBlockByNode n (bc_db b)) with (fetch (db_blocks (bc_db b)) n). rewrite Hfe, bind_lift_Ret, Hh, bytes_eqb_refl. cbn [negb].
  rewrite (bind_Ret _ _ _ _ _ (on_view_run _ _ _ _ b E1)). cbv beta iota.
  rewrite (journal_fetch _ D block Hap (branch_coins_ok _ _ _ HbD)) by (rewrite Hh; by apply (sy_journal _ _ _ Hs n p)).
  rewrite bind_lift_Ret. rewrite (bind_Ret _ _ _ _ _ (on_view_run _ _ _ _ b E2)). cbv beta iota. rewrite (bind_Ret _ _ _ _ _ E). cbv beta iota.
  split; [done|]. split; [|done]. constructor; [|done]. by exists p, D.
Qed.

Lemma apply_detach_run f Cf n : forall Cn b v blocks v' b', synced n Cn b -> f ∈ chain n -> exact_rep Cn v Cn -> branch (db_blocks (bc_db b)) f Cf ->
  Forall2 (loaded (db_blocks (bc_db b))) (detach_walk (Some f) n) blocks ->
  apply_detach (detach_walk (Some f) n) blocks v b = (Ret v', b') ->
  synced f Cf b' /\ exact_rep Cf v' Cf /\ base_of b' = base_of b.
Proof.
  induction n as [n IH] using node_ind. intros Cn b v blocks v' b' Hs Hf Hrep Hbf Hl Hr. rewrite detach_walk_step in Hl, Hr.
  destruct (decide (f = n)) as [->|Hne].
  { inversion Hl; subst. injection Hr as -> ->. by rewrite (branch_fun _ _ _ Hbf _ (sy_branch _ _ _ Hs)). }
  destruct (fork_parent n f Hf Hne) as [p Hp]. rewrite Hp in *. inversion Hl as [|? [block stxos] ? blocks' Hx Hl' E1 E2]; subst. clear Hl.
  destruct Hx as (p' & D & Hp' & HbD & Hfe & Hh & Hap & Ej). assert (p' = p) as -> by congruence. cbn [fst snd] in *. subst stxos.
  destruct (branch_inv _ _ _ _ Hp (sy_branch _ _ _ Hs)) as (D' & blk & HbD' & Hfe' & _ & _ & _ & Ehb & ECn).
  rewrite Hfe in Hfe'. injection Hfe' as <-. rewrite <- (branch_fun _ _ _ HbD _ HbD') in ECn. rewrite ECn, <- Ehb in *.
  destruct (detach_view _ _ _ _ _ (sy_coins _ _ _ Hs) Hap Hrep) as (v1 & v2 & E1 & E2 & Hr2).
  cbn [apply_detach] in Hr. rewrite bind_gets, (bind_Ret _ _ _ _ _ (on_view_run _ _ _ _ b E1)) in Hr. cbv beta iota in Hr.
  rewrite (bind_Ret _ _ _ _ _ (on_view_run _ _ _ _ b E2)) in Hr. cbv beta iota in Hr. apply bind_Ret_inv in Hr as (v3 & b3 & Ed & Hr).
  destruct (disconnect_synced p D _ b n block v2 b3 v3 Hs Hp HbD Hh Hr2 Ed) as (Hs3 & Hr3 & Hb3).
  assert (db_blocks (bc_db b3) = db_blocks (bc_db b)) as Edb by exact (f_equal snd Hb3).
  destruct (IH D b3 v3 blocks' v' b' Hs3 (fork_below n p f Hp Hf Hne) Hr3) as (Hs4 & Hr4 & Hb4); [by rewrite Edb|by rewrite Edb|done|].
  split; [done|]. split; [done|congruence].
Qed.

Lemma apply_attach_run n Cn nodes : node_wf n -> forall p C b v blocks v' b', synced p C b -> exact_rep C v C -> path p nodes n ->
  branch (db_blocks (bc_db b)) n Cn -> (forall m, m ∈ chain n -> bi_index (bc_index b) !! n_hash m = Some m) ->
  Forall2 (fun m block => fetch (db_blocks (bc_db b)) m = Ret block) nodes blocks ->
  apply_attach chainParams checkpoints range adjustedTime nodes blocks v b = (Ret v', b') -> synced n Cn b'.
Proof.
  intros Hwf. induction nodes as [|m nodes IH]; intros p C b v blocks v' b' Hs Hrep Hpath Hb Hknown Hl Hr.
  { cbn [path] in Hpath. subst p. injection Hr as _ <-. by rewrite (branch_fun _ _ _ Hb _ (sy_branch _ _ _ Hs)). }
  cbn [path] in Hpath. destruct Hpath as [Hp Hpath]. inversion Hl as [|? block ? blocks' Hfe Hl' E1 E2]; subst. clear Hl.
  destruct (branch_path _ _ _ _ _ Hpath Hb) as [Cm Hbm]. destruct (branch_inv _ _ _ _ Hp Hbm) as (D & blk & HbD & Hfe' & Hh & Hpr & Hap & Ehb & ECm).
  rewrite Hfe in Hfe'. injection Hfe' as <-. rewrite (branch_fun _ _ _ HbD _ (sy_branch _ _ _ Hs)) in *.
  destruct (attach_view _ _ _ _ _ (sy_coins _ _ _ Hs) Hap Hrep) as (v1 & v2 & E1 & E2 & Hr2).
  cbn [apply_attach] in Hr. rewrite bind_gets, (bind_Ret _ _ _ _ _ (on_view_run _ _ _ _ b E1)) in Hr. cbv beta iota in Hr.
  rewrite (bind_Ret _ _ _ _ _ (on_view_run _ _ _ _ b E2)) in Hr. cbv beta iota in Hr. rewrite bind_gets in Hr.
  apply bind_Ret_inv in Hr as (es & b2 & Ee & Hr). assert (b2 = b) as -> by (unfold lift in Ee; congruence).
  apply bind_Ret_inv in Hr as (v3 & b3 & Ec & Hr). cbn [default from_option id] in Ec. rewrite Ehb in Hr2.
  pose proof (path_in _ _ _ Hpath) as Hin.
  destruct (connect_synced chainParams checkpoints adjustedTime p C b m block v2 es b3 v3 Hs (in_chain_wf n m Hwf Hin) Hp (Hknown m Hin) Hfe Hh Hpr Hap Hr2 Ec) as (Hs3 & Hr3 & Hb3).
  assert (db_blocks (bc_db b3) = db_blocks (bc_db b)) as Edb by exact (f_equal snd Hb3).
  assert (bi_index (bc_index b3) = bi_index (bc_index b)) as Ebi by exact (f_equal fst Hb3).
  eapply (IH m _ b3 v3 blocks' v' b' Hs3 Hr3 Hpath); [by rewrite Edb|by rewrite Ebi|by rewrite Edb|exact Hr].
Qed.

(** The check of the blocks to attach loads them. *)
Lemma check_attach_loads nodes : forall view b blocks b', check_attach chainParams checkpoints range nodes view b = (Ret blocks, b') ->
  Forall2 (fun m block => fetch (db_blocks (bc_db b)) m = Ret block) nodes blocks.
Proof.
  induction nodes as [|n nodes IH]; intros view b blocks b' Hr; [injection Hr as <- _; constructor|]. cbn [check_attach] in Hr. rewrite bind_gets in Hr.
  change (dbFetchBlockByNode n (bc_db b)) with (fetch (db_blocks (bc_db b)) n) in Hr.
  apply bind_Ret_inv in Hr as (block & b1 & E1 & Hr). assert (fetch (db_blocks (bc_db b)) n = Ret block /\ b1 = b) as [Ef ->] by (unfold lift in E1; by injection E1 as -> ->).
  rewrite bind_gets in Hr. apply bind_Ret_inv in Hr as (view2 & b2 & E2 & Hr). apply core_ret in E2 as C2.
  2:{ destruct (KnownValid _); [keep|]. apply keeps_bind; [keep|]. intros [[[? ?] ?]|]; keep. }
  apply bind_Ret_inv in Hr as (blocks' & b3 & E3 & Hr). injection Hr as <- <-. constructor; [done|].
  assert (db_blocks (bc_db b2) = db_blocks (bc_db b)) as Edb by exact (f_equal (fun x => db_blocks x.2) C2).
  rewrite <- Edb. by eapply IH.
Qed.

Lemma tip_synced t C b : synced t C b -> tip (bc_bestChain b) = Some t.
Proof. intros Hs. rewrite (sy_view _ _ _ Hs). apply ChainView.tip_view, (sy_wf _ _ _ Hs). Qed.

Lemma reorganize_synced t C b node Cn f attach b' : synced t C b -> node_wf node -> branch (db_blocks (bc_db b)) node Cn ->
  (forall m, m ∈ chain node -> bi_index (bc_index b) !! n_hash m = Some m) -> f ∈ chain t -> path f attach node ->
  reorganizeChain chainParams checkpoints range adjustedTime (detach_walk (Some f) t) attach b = (Ret (), b') -> synced node Cn b'.
Proof.
  intros Hs Hwf Hb Hknown Hf Hpath Hr. unfold reorganizeChain in Hr. destruct (branch_path _ _ _ _ _ Hpath Hb) as [Cf Hbf].
  destruct ((len (detach_walk (Some f) t) =? 0) && (len attach =? 0)) eqn:El.
  { apply andb_true_iff in El as [E1%Z.eqb_eq E2%Z.eqb_eq]. injection Hr as <-. destruct attach; [|len_lia]. cbn [path] in Hpath. subst f.
    rewrite detach_walk_step in E1. destruct (decide (node = t)) as [->|]; [|len_lia]. by rewrite (branch_fun _ _ _ Hb _ (sy_branch _ _ _ Hs)). }
  apply bind_Ret_inv in Hr as ([dets atts] & b1 & Ec & Hr). apply core_ret in Ec as C1; [|keep].
  unfold check_reorganization in Ec. rewrite bind_gets, (tip_synced _ _ _ Hs) in Ec. cbn [or_panic] in Ec. rewrite bind_lift_Ret in Ec.
  destruct (match detach_walk (Some f) t with [] => _ | _ => _ end); [done|]. apply bind_Ret_inv in Ec as (same & b2 & E2 & Ec). injection E2 as _ <-.
  destruct (negb same); [done|].
  destruct (check_detach_run f t C b Hs t C (SetBestHash (n_hash t) NewUtxoViewpoint)) as (blocks & v1 & E3 & Hl & _).
  { rewrite chain_step, elem_of_app, list_elem_of_singleton. by right. }
  { done. } { apply (sy_branch _ _ _ Hs). } { destruct (rep_new C) as [Hk Ha]. by split. }
  rewrite (bind_Ret _ _ _ _ _ E3) in Ec. cbv beta iota in Ec. apply bind_Ret_inv in Ec as (abs & b4 & E4 & Ec). injection Ec as -> -> ->.
  apply check_attach_loads in E4 as Ha. pose proof (synced_core _ _ _ _ C1 Hs) as Hs1.
  assert (db_blocks (bc_db b1) = db_blocks (bc_db b)) as Edb by exact (f_equal (fun x => db_blocks x.2) C1).
  assert (bi_index (bc_index b1) = bi_index (bc_index b)) as Ebi by exact (f_equal (fun x => x.1.2) C1).
  rewrite bind_gets, (tip_synced _ _ _ Hs1) in Hr. cbn [or_panic] in Hr. rewrite bind_lift_Ret in Hr. apply bind_Ret_inv in Hr as (v2 & b5 & E5 & Hr).
  destruct (apply_detach_run f Cf t C b1 (SetBestHash (n_hash t) NewUtxoViewpoint) dets v2 b5 Hs1 Hf) as (Hs5 & Hr5 & Hb5);
    [destruct (rep_new C) as [Hk Ha']; by split|by rewrite Edb|by rewrite Edb|done|].
  assert (db_blocks (bc_db b5) = db_blocks (bc_db b)) as Edb5 by (rewrite <- Edb; exact (f_equal snd Hb5)).
  assert (bi_index (bc_index b5) = bi_index (bc_index b)) as Ebi5 by (rewrite <- Ebi; exact (f_equal fst Hb5)).
  apply bind_Ret_inv in Hr as (v6 & b6 & E6 & Hr). injection Hr as <-.
  eapply (apply_attach_run node Cn attach Hwf f Cf b5 v2 atts v6 b6 Hs5 Hr5 Hpath); [by rewrite Edb5|by rewrite Ebi5|by rewrite Edb5|done].
Qed.

(** * Extending the chain *)

Lemma connect_txs_loop h txs : forall fees stxos v fees' stxos' v',
  connect_txs chainParams txs h fees stxos v = (Ret (fees', stxos'), v') -> connect_loop txs h stxos v = (Ret stxos', v').
Proof.
  induction txs as [|tx txs IH]; intros fees stxos v fees' stxos' v' Hr; cbn [connect_txs connect_loop] in *; [by injection Hr as _ <- <-|].
  rewrite bind_gets in Hr. apply bind_Ret_inv in Hr as (fee & w & E1 & Hr). assert (w = v) as -> by (unfold lift in E1; congruence).
  cbv zeta in Hr. destruct (_ <? _); [done|]. apply bind_Ret_inv in Hr as (st & w & E2 & Hr). rewrite (bind_Ret _ _ _ _ _ E2). by eapply IH.
Qed.

Lemma extension_view_run t C b node block fastAdd view stxos es b1 : synced t C b -> applies C block -> b_Height block = height node ->
  (fastAdd = false -> BIP0034Height chainParams <= height node) ->
  extension_view chainParams checkpoints range node block fastAdd b = (Ret (view, stxos, es), b1) ->
  exact_rep C view (apply_txs (height node) (b_Transactions block) C) /\ stxos = journal_of C block /\ core b1 = core b.
Proof.
  intros Hs Hap Hh H34 Hr. assert (core b1 = core b) as Hcore by (eapply core_ret; [apply extension_view_keeps; [apply _|apply flushToDB_core]|exact Hr]).
  assert (exact_rep C (SetBestHash (prev_hash block) NewUtxoViewpoint) C) as Hnew by (destruct (rep_new C) as [Hk Ha]; by split).
  destruct (attach_view _ _ _ _ _ (sy_coins _ _ _ Hs) Hap Hnew) as (v1 & v2 & E1 & E2 & Hr2). rewrite Hh in Hr2.
  unfold extension_view in Hr. destruct fastAdd.
  - rewrite bind_gets, (bind_Ret _ _ _ _ _ (on_view_run _ _ _ _ b E1)) in Hr. cbv beta iota in Hr.
    rewrite (bind_Ret _ _ _ _ _ (on_view_run _ _ _ _ b E2)) in Hr. cbv beta iota in Hr. rewrite bind_gets in Hr.
    apply bind_Ret_inv in Hr as (es' & b2 & _ & Hr). injection Hr as <- <- _ _. done.
  - apply bind_Ret_inv in Hr as ([[[es' w] st]|e] & b2 & Ea & Hr).
    2:{ apply bind_Ret_inv in Hr as (? & ? & _ & [=]). }
    unfold attempt in Ea. destruct (checkConnectBlock _ _ _ _ _ _ _ _) as [[[[es2 w2] st2]|e|] b3] eqn:Ec; [|done|done]. injection Ea as -> -> -> ->.
    apply checkConnectBlock_inv in Ec as (u1 & u2 & fees & cb & txs & oldEs & F1 & F2 & _ & _ & -> & _); [|by apply H34].
    rewrite E1 in F1. injection F1 as <-. apply connect_txs_loop in F2. unfold connectTransactions in E2. rewrite Hh in E2.
    rewrite (bind_Ret _ _ _ _ _ F2) in E2. injection E2 as -> <-.
    apply bind_Ret_inv in Hr as (? & ? & _ & Hr). apply bind_Ret_inv in Hr as (? & ? & _ & Hr). injection Hr as <- <- _ _.
    split; [|done]. destruct Hr2 as [Hk Ha]. by split.
Qed.

Lemma extend_chain_synced t C b node Cn block fastAdd r b' : synced t C b -> node_wf node -> parent node = Some t -> branch (db_blocks (bc_db b)) node Cn ->
  bi_index (bc_index b) !! n_hash node = Some node -> fetch (db_blocks (bc_db b)) node = Ret block ->
  (KnownValid (NodeStatus (bc_index b) node) = false -> BIP0034Height chainParams <= height node) ->
  extend_chain chainParams checkpoints range adjustedTime node block fastAdd b = (Ret r, b') -> r = true /\ synced node Cn b'.
Proof.
  intros Hs Hwf Hp Hb Hknown Hfe H34 Hr. destruct (branch_inv _ _ _ _ Hp Hb) as (D & blk & HbD & Hfe' & Hh & Hpr & Hap & Ehb & ->).
  rewrite Hfe in Hfe'. injection Hfe' as <-. rewrite (branch_fun _ _ _ HbD _ (sy_branch _ _ _ Hs)) in *.
  unfold extend_chain in Hr. rewrite bind_gets in Hr. apply bind_Ret_inv in Hr as (num & b1 & E1 & Hr). assert (b1 = b) as -> by (unfold lift in E1; congruence).
  cbv zeta in Hr. apply bind_Ret_inv in Hr as ([[view stxos] es] & b2 & E2 & Hr).
  destruct (extension_view_run t C b node block _ view stxos es b2 Hs Hap Ehb ltac:(intros [_ ?]%orb_false_iff; by apply H34) E2) as (Hrep & -> & C2). pose proof (synced_core _ _ _ _ C2 Hs) as Hs2.
  assert (db_blocks (bc_db b2) = db_blocks (bc_db b)) as Edb by exact (f_equal (fun x => db_blocks x.2) C2).
  assert (bi_index (bc_index b2) = bi_index (bc_index b)) as Ebi by exact (f_equal (fun x => x.1.2) C2).
  apply bind_Ret_inv in Hr as (res & b3 & E3 & Hr). unfold attempt in E3. destruct (connectBlock _ _ _ _ _ _ _ _ b2) as [[v3|e|] b4] eqn:Ec; [| |done].
  - injection E3 as <- <-. rewrite <- Edb in Hfe. rewrite <- Ebi in Hknown.
    destruct (connect_synced chainParams checkpoints adjustedTime t C b2 node block view es b4 v3 Hs2 Hwf Hp Hknown Hfe Hh Hpr Hap Hrep Ec) as (Hs4 & _ & _).
    rewrite bind_gets in Hr. apply bind_Ret_inv in Hr as ([] & b5 & E5 & Hr). injection Hr as <- <-. split; [done|]. eapply synced_core; [|exact Hs4].
    eapply core_ret; [|exact E5]. pose proof (flushIndexState_keeps core flushToDB_core). keep.
  - injection E3 as <- <-. apply bind_Ret_inv in Hr as (? & ? & _ & Hr). apply bind_Ret_inv in Hr as (? & ? & _ & [=]).
Qed.

(** * The best chain *)

(** The nodes for a reorganization. *)
Lemma getReorganizeNodes_run t C b node dets atts b1 : synced t C b -> node_wf node -> (exists f, f ∈ chain t /\ f ∈ chain node) ->
  getReorganizeNodes node b = (Ret (dets, atts), b1) ->
  core b1 = core b /\
  ((exists f, f ∈ chain t /\ path f atts node /\ dets = detach_walk (Some f) t /\ b1 = b) \/
   (dets = [] /\ atts = [] /\ exists m, m ∈ chain node /\ KnownInvalid (NodeStatus (bc_index b) m) = true)).
Proof.
  intros Hs Hwf (f0 & Hf0 & Hf0') Hr. apply core_ret in Hr as Hcore; [|keep]. split; [done|].
  unfold getReorganizeNodes in Hr. apply bind_Ret_inv in Hr as (p & b2 & E1 & Hr). 
  assert (parent node = Some p /\ b2 = b) as [Hp ->] by (unfold lift, or_panic in E1; by destruct (parent node); simplify_eq).
  rewrite bind_gets in Hr. unfold id in Hr. destruct (KnownInvalid (NodeStatus (bc_index b) p)) eqn:Ek.
  { apply bind_Ret_inv in Hr as (? & ? & _ & [= <- <- _]). right. do 2 (split; [done|]). exists p. split; [|done].
    rewrite (parent_chain node p Hp), elem_of_app, (chain_step p), elem_of_app, list_elem_of_singleton. left. by right. }
  rewrite (sy_view _ _ _ Hs) in Hr. pose proof (findFork_view _ _ node (view_tip t (sy_wf _ _ _ Hs)) Hwf) as Hfork.
  destruct (findFork (view_of t) (Some node)) as [f|]; [|by destruct (Hfork f0 Hf0' Hf0)]. destruct Hfork as (Hfn & Hft & _).
  pose proof (attach_walk_spec (bc_index b) f node Hfn []) as Hw. destruct (attach_walk (bc_index b) (Some f) node []) as [l [|]].
  - apply bind_Ret_inv in Hr as (? & ? & _ & [= <- <- _]). right. done.
  - rewrite ChainView.tip_view in Hr by apply (sy_wf _ _ _ Hs). injection Hr as <- <- <-. destruct Hw as (l0 & -> & Hpath). rewrite app_nil_r. left. by exists f.
Qed.

(** ** The checks show that the branch applies *)

(** The checks of a block that extends the chain: when they succeed its branch applies. *)
Lemma checked_extension t C b node block es w st b1 : synced t C b -> attachable chainParams t node b -> parent node = Some t ->
  fetch (db_blocks (bc_db b)) node = Ret block -> KnownValid (NodeStatus (bc_index b) node) = false ->
  checkConnectBlock chainParams checkpoints range node block (SetBestHash (prev_hash block) NewUtxoViewpoint) (Some []) b = (Ret (es, w, st), b1) ->
  exists Cn, branch (db_blocks (bc_db b)) node Cn.
Proof.
  intros Hs Hc Hp Hf Ek Ec. destruct (cd_stored _ _ _ _ Hc node t (self_in node) Hp) as (blk & Hf' & Hh & Hpr & Hpl & Hfresh). rewrite Hf in Hf'. injection Hf' as <-.
  destruct (pb_sane _ Hpl) as (pl & time & flags & Hsane). pose proof (fetch_height _ _ _ Hf) as Ehb. pose proof (child_height node t (cd_wf _ _ _ _ Hc) Hp).
  destruct (cd_unmarked _ _ _ _ Hc node block (self_in node) ltac:(by eexists) Ek Hf) as [H34 _].
  assert (coins_sane C) as HC.
  { eapply branch_sane; [exact Hmax|exact Hpos|exact (sy_branch _ _ _ Hs)|apply Hs|]. by apply (stored_branch_below _ node); [apply Hc|apply parent_in|apply Hc]. }
  assert (fits chainParams C node block) as Hfit by (split; [lia|apply Hpl|apply Hpl|apply Hfresh, Hs]).
  destruct (accepted_run Hmax Hpos chainParams checkpoints range C b b1 node block es w st pl time flags (sy_coins _ _ _ Hs) HC Hfit Hsane Ec) as (Hap & _).
  exists (apply_txs (height node) (b_Transactions block) C). eapply branch_block; [exact Hp|apply Hs|exact Hf|exact Hh|exact Hpr|exact Hap].
Qed.

Lemma extension_branch t C b node block fastAdd r b' : synced t C b -> attachable chainParams t node b -> parent node = Some t ->
  fetch (db_blocks (bc_db b)) node = Ret block -> (fastAdd = true -> exists D, branch (db_blocks (bc_db b)) node D) ->
  (fastAdd = false -> KnownValid (NodeStatus (bc_index b) node) = false) ->
  extension_view chainParams checkpoints range node block fastAdd b = (r, b') ->
  marks_true b' /\ forall x, r = Ret x -> marks_and_branch node b' /\ exists Cn, branch (db_blocks (bc_db b)) node Cn.
Proof.
  intros Hs Hc Hp Hf Hfast Hk Hr. pose proof (cd_marks _ _ _ _ Hc) as Hm. pose proof (cd_known _ _ _ _ Hc node (self_in node)) as Hkn.
  assert (forall D, branch (db_blocks (bc_db b)) node D -> marks_and_branch node b) as Hinv by (intros D HD; split; [done|split; [done|by exists D]]).
  unfold extension_view in Hr. destruct fastAdd.
  - destruct (Hfast eq_refl) as [D HD]. match type of Hr with ?m b = _ => assert (keeps marked m) as Hkeep by keep end.
    pose proof (with_branch_kept node _ Hkeep b (Hinv D HD)) as Hb'. rewrite Hr in Hb'. split; [apply Hb'|]. intros _ _. split; [done|by exists D].
  - pose proof (checkConnectBlock_marked chainParams checkpoints range node block (SetBestHash (prev_hash block) NewUtxoViewpoint) (Some []) b) as Hkm.
    unfold attempt, mbind at 1, St_bind at 1 in Hr.
    destruct (checkConnectBlock _ _ _ node block _ _ b) as [[[[es w] st]|e|] b3] eqn:Ec; cbn [snd] in Hkm.
    + destruct (checked_extension t C b node block es w st b3 Hs Hc Hp Hf (Hk eq_refl) Ec) as [Cn HCn].
      assert (marks_and_branch node b3) as H3 by (split; [by eapply marks_same|]; injection Hkm as -> _ ->; split; [done|by exists Cn]).
      pose proof (with_branch_valid node). pose proof (with_branch_kept node _ marked_flushIndexState).
      match type of Hr with ?m b3 = _ => assert (maintains (marks_and_branch node) m) as Hh by hold end. apply Hh in H3. rewrite Hr in H3. split; [apply H3|]. intros x _. split; [done|by exists Cn].
    + pose proof (marks_same _ _ Hkm Hm) as H3. assert (forall x, r <> Ret x) as Hne.
      { intros x ->. apply bind_Ret_inv in Hr as (? & ? & _ & Hr). done. }
      split; [|intros x Hx; by destruct (Hne x)].
      assert (maintains marks_true (set_flags_of statusValidateFailed [node])) by (intros ?; by apply marks_flags).
      assert (maintains marks_true flushIndexState) by (intros ?; apply marks_kept, marked_flushIndexState).
      match type of Hr with ?m b3 = _ => assert (maintains marks_true m) as Hh by hold end. apply Hh in H3. by rewrite Hr in H3.
    + injection Hr as <- <-. split; [by eapply marks_same|done].
Qed.

Lemma extend_branch t C b node block fastAdd r b' : synced t C b -> attachable chainParams t node b -> parent node = Some t ->
  fetch (db_blocks (bc_db b)) node = Ret block -> (fastAdd = true -> exists D, branch (db_blocks (bc_db b)) node D) ->
  extend_chain chainParams checkpoints range adjustedTime node block fastAdd b = (r, b') ->
  marks_true b' /\ forall x, r = Ret x -> exists Cn, branch (db_blocks (bc_db b)) node Cn.
Proof.
  intros Hs Hc Hp Hf Hfast Hr. unfold extend_chain in Hr. rewrite bind_gets in Hr. destruct (countSpentOutputs block) as [num|e|];
    [rewrite bind_lift_Ret in Hr|injection Hr as <- <-; split; [apply Hc|done]..]. cbv zeta in Hr.
  unfold mbind at 1, St_bind at 1 in Hr. destruct (extension_view _ _ _ _ _ _ b) as [o b1] eqn:Ev.
  destruct (extension_branch t C b node block (fastAdd || KnownValid (NodeStatus (bc_index b) node)) o b1 Hs Hc Hp Hf) as [Hm1 Hb1].
  { intros [E|E]%orb_true_iff; [by apply Hfast|]. by apply (cd_marks _ _ _ _ Hc), E; apply (cd_known _ _ _ _ Hc), self_in. }
  { by intros [_ E]%orb_false_iff. }
  { exact Ev. }
  destruct o as [[[view stxos] es]|e|]; [|injection Hr as <- <-; by split..]. destruct (Hb1 _ eq_refl) as [Hinv [Cn HCn]]. split; [|intros _ _; by exists Cn].
  pose proof (extend_marks chainParams checkpoints adjustedTime node block view stxos es (fastAdd || KnownValid (NodeStatus (bc_index b) node)) b1 Hinv) as He. rewrite Hr in He. apply He.
Qed.

Lemma reorganize_branch t C b node f attach r b' : synced t C b -> attachable chainParams t node b -> parent node <> Some t -> f ∈ chain t -> path f attach node ->
  reorganizeChain chainParams checkpoints range adjustedTime (detach_walk (Some f) t) attach b = (r, b') ->
  marks_true b' /\ (r = Ret () -> exists Cn, branch (db_blocks (bc_db b)) node Cn).
Proof.
  intros Hs Hc Hnt Hf Hpath Hr. unfold reorganizeChain in Hr.
  destruct ((len (detach_walk (Some f) t) =? 0) && (len attach =? 0)) eqn:El.
  { apply andb_true_iff in El as [E1%Z.eqb_eq E2%Z.eqb_eq]. destruct attach; [|len_lia]. cbn [path] in Hpath. subst f.
    rewrite detach_walk_step in E1. injection Hr as <- <-. split; [apply Hc|]. destruct (decide (node = t)) as [->|]; [|len_lia]. exists C. apply Hs. }
  unfold mbind at 1, St_bind at 1 in Hr. destruct (check_reorganization _ _ _ _ _ b) as [o b1] eqn:Ec.
  assert (marks_true b1 /\ forall x, o = Ret x -> exists Cn, branch (db_blocks (bc_db b)) node Cn) as [Hm1 Hb1].
  { unfold check_reorganization in Ec. rewrite bind_gets, (tip_synced _ _ _ Hs) in Ec. cbn [or_panic] in Ec. rewrite bind_lift_Ret in Ec.
    destruct (match detach_walk (Some f) t with [] => _ | _ => _ end); [injection Ec as <- <-; split; [apply Hc|done]|].
    destruct (same_fork _ _) as [same|e|]; [rewrite bind_lift_Ret in Ec|injection Ec as <- <-; split; [apply Hc|done]..].
    destruct (negb same); [injection Ec as <- <-; split; [apply Hc|done]|].
    destruct (check_detach_run f t C b Hs t C (SetBestHash (n_hash t) NewUtxoViewpoint)) as (blocks & v1 & E3 & _ & Cf & HCf & Hrep).
    { apply self_in. } { done. } { apply (sy_branch _ _ _ Hs). } { destruct (rep_new C) as [Hk Ha]. by split. }
    rewrite (bind_Ret _ _ _ _ _ E3) in Ec. cbv beta iota in Ec. unfold mbind, St_bind in Ec. destruct (check_attach _ _ _ attach v1 b) as [oa b4] eqn:E4.
    destruct (check_attach_branch Hmax Hpos chainParams checkpoints range t node C attach Hnt f Cf v1 b oa b4 Hc (sy_coins _ _ _ Hs) HCf Hrep Hpath E4) as [Hm4 Hb4].
    destruct oa as [abs|e|]; injection Ec as <- <-; (split; [done|]); [|done|done]. intros x _. by eapply Hb4. }
  destruct o as [[dets atts]|e|]; [|injection Hr as <- <-; by split..]. split; [|intros _; by eapply Hb1].
  match type of Hr with ?m b1 = _ => assert (keeps marked m) as Hk end.
  { pose proof marked_apply_detach. pose proof (marked_apply_attach chainParams checkpoints range adjustedTime). keep. all: auto. }
  apply (marks_kept _ _ Hk) in Hm1. by rewrite Hr in Hm1.
Qed.

Lemma extends_iff t C b node p block : synced t C b -> attachable chainParams t node b -> parent node = Some p -> dbFetchBlockByNode node (bc_db b) = Ret block ->
  prev_hash block = n_hash t <-> p = t.
Proof.
  intros Hs Hc Hp Hblock. destruct (cd_stored _ _ _ _ Hc node p (self_in node) Hp) as (blk & Hfe & Hh & Hpr & _ & _).
  change (dbFetchBlockByNode node (bc_db b)) with (fetch (db_blocks (bc_db b)) node) in Hblock. rewrite Hblock in Hfe. injection Hfe as <-.
  rewrite Hpr. split; [|by intros ->]. intros E. pose proof (cd_known _ _ _ _ Hc p (parent_in _ _ Hp)) as Hk. rewrite E, (sy_known _ _ _ Hs t (self_in t)) in Hk. congruence.
Qed.

(** The marks after the selection. *)
Lemma best_chain_marks t node C block flags b p r b' : synced t C b -> attachable chainParams t node b -> (exists f, f ∈ chain t /\ f ∈ chain node) ->
  parent node = Some p -> dbFetchBlockByNode node (bc_db b) = Ret block -> (flags &&& BFFastAdd = BFFastAdd -> exists D, branch (db_blocks (bc_db b)) node D) ->
  connectBestChain chainParams checkpoints range adjustedTime node block flags b = (r, b') -> marks_true b'.
Proof.
  intros Hs Hc Hroot Hp Hblock Hfast Hr. pose proof (extends_iff _ _ _ _ _ _ Hs Hc Hp Hblock) as Hext. pose proof (cd_marks _ _ _ _ Hc) as Hm.
  unfold connectBestChain in Hr. rewrite bind_gets in Hr. unfold id in Hr. rewrite (tip_synced _ _ _ Hs) in Hr. cbn [or_panic] in Hr. rewrite bind_lift_Ret in Hr.
  destruct (bytes_eqb (prev_hash block) (n_hash t)) eqn:Ext.
  { apply bytes_eqb_eq, Hext in Ext as ->.
    by apply (extend_branch t C b node block (flags &&& BFFastAdd =? BFFastAdd) r b' Hs Hc Hp Hblock ltac:(by intros ?%Z.eqb_eq; apply Hfast) Hr). }
  destruct (workSum node <=? workSum t).
  { destruct (or_panic _) as [f|e|]; injection Hr as <- <-; done. }
  assert (parent node <> Some t) as Hnt by (rewrite Hp; intros [= E]; apply Hext in E; by rewrite E, bytes_eqb_refl in Ext).
  unfold mbind at 1, St_bind at 1 in Hr. destruct (getReorganizeNodes node b) as [o b1] eqn:E1.
  pose proof (getReorganizeNodes_marks node b Hm) as Hm1. rewrite E1 in Hm1. cbn [snd] in Hm1. destruct o as [[dets atts]|e|]; [|by injection Hr as <- <-..].
  assert (marks_true (snd (reorganizeChain chainParams checkpoints range adjustedTime dets atts b1))) as Hm2.
  { destruct (getReorganizeNodes_run t C b node dets atts b1 Hs (cd_wf _ _ _ _ Hc) Hroot E1) as [_ [(f & Hft & Hpath & -> & ->)|(-> & -> & _)]]; [|done].
    destruct (reorganizeChain _ _ _ _ _ _ b) as [r2 b2] eqn:E2. by apply (reorganize_branch t C b node f atts r2 b2 Hs Hc Hnt Hft Hpath E2). }
  assert (maintains marks_true flushIndexState) as Hfl by (intros ?; apply marks_kept, marked_flushIndexState).
  unfold attempt, mbind at 1, St_bind at 1 in Hr. destruct (reorganizeChain _ _ _ _ _ _ b1) as [[[]|e|] b2] eqn:E2; [..|by injection Hr as <- <-];
    match type of Hr with ?m b2 = _ => assert (maintains marks_true m) as Hh by hold end; specialize (Hh b2 Hm2); by rewrite Hr in Hh.
Qed.

(** C2: the selection of the best chain.  Let the state agree with the branch of its tip
    [t] (the view, the snapshot and the stored chain state name [t], the database holds
    the unspent outputs, the spend journal and the indexes of exactly that branch), and
    let [node] be attachable: its blocks are stored and passed the checks that need no
    context, their amounts are storable, no transaction repeats the hash of one with
    unspent outputs, every known block that is marked valid has a branch whose blocks
    apply one after the other, the blocks of the branch of [node] that are not marked
    contain their height, and unless [node] extends [t] their transactions come after
    those of the block that they spend.  Only a block added with the fast-add flag, whose
    checks are skipped, is assumed to apply.

    Whatever the outcome of [connectBestChain], every known block that is then marked
    valid has a branch whose blocks apply.  When it succeeds and reports the main chain,
    the blocks of the branch of [node] apply one after the other and the state agrees
    with that branch, be it by extending the chain or by a reorganization of any length;
    the exception is a branch with a block that is known to be invalid, for which the
    state is the old one although the main chain is reported.  When it reports a side
    chain, the state is the old one and [node] does not have more work; and when it
    reports the violation of a rule, the state agrees with the old branch.  After other
    errors and panics only the marks are described. *)
Theorem best_chain (t node : blockNode) (C : coins) (block : BtcBlock) (flags : Z) (b : BlockChain)
    (Hs : synced t C b) (Hc : attachable chainParams t node b) (Hroot : exists f, f ∈ chain t /\ f ∈ chain node)
    (Hp : is_Some (parent node)) (Hblock : dbFetchBlockByNode node (bc_db b) = Ret block)
    (Hfast : flags &&& BFFastAdd = BFFastAdd -> exists D, branch (db_blocks (bc_db b)) node D) :
  let '(r, b') := connectBestChain chainParams checkpoints range adjustedTime node block flags b in
  marks_true b' /\
  match r with
  | Ret true => (exists Cn, synced node Cn b') \/
      (synced t C b' /\ exists m, m ∈ chain node /\ KnownInvalid (NodeStatus (bc_index b) m) = true)
  | Ret false => synced t C b' /\ workSum node <= workSum t
  | Throw e => IsRuleError e = true -> synced t C b'
  | Panic => True
  end.
Proof.
  destruct (connectBestChain _ _ _ _ _ _ _ b) as [r b'] eqn:Hr. destruct Hp as [p Hp]. pose proof (tip_synced _ _ _ Hs) as Ht.
  assert (prev_hash block = n_hash t <-> p = t) as Hext by by eapply extends_iff.
  split; [by eapply best_chain_marks|]. destruct r as [r|e|]; [| |done].
  2:{ intros He. eapply synced_core; [|exact Hs]. by eapply (connectBestChain_checked chainParams checkpoints range adjustedTime core flushToDB_core). }
  unfold connectBestChain in Hr. rewrite bind_gets in Hr. unfold id in Hr. rewrite Ht in Hr. cbn [or_panic] in Hr. rewrite bind_lift_Ret in Hr.
  pose proof (cd_wf _ _ _ _ Hc) as Hwf. pose proof (cd_known _ _ _ _ Hc) as Hknown. destruct (bytes_eqb (prev_hash block) (n_hash t)) eqn:Ext.
  - apply bytes_eqb_eq, Hext in Ext as ->.
    destruct (extend_branch t C b node block (flags &&& BFFastAdd =? BFFastAdd) _ b' Hs Hc Hp Hblock ltac:(by intros ?%Z.eqb_eq; apply Hfast) Hr) as [_ HCn].
    destruct (HCn _ eq_refl) as [Cn HCn'].
    assert (KnownValid (NodeStatus (bc_index b) node) = false -> BIP0034Height chainParams <= height node) as H34
      by (intros Ek; by apply (cd_unmarked _ _ _ _ Hc node block (self_in node) ltac:(by eexists) Ek Hblock)).
    destruct (extend_chain_synced t C b node Cn block _ r b' Hs Hwf Hp HCn' (Hknown node (self_in node)) Hblock H34 Hr) as [-> Hs']. left. by exists Cn.
  - destruct (Z.leb_spec (workSum node) (workSum t)) as [Hle|Hgt].
    + apply bind_Ret_inv in Hr as (f & b1 & E1 & Hr). injection Hr as <- <-. split; [|done]. by assert (b1 = b) as -> by (unfold lift in E1; congruence).
    + assert (parent node <> Some t) as Hnt by (rewrite Hp; intros [= E]; apply Hext in E; by rewrite E, bytes_eqb_refl in Ext).
      apply bind_Ret_inv in Hr as ([dets atts] & b1 & E1 & Hr). destruct (getReorganizeNodes_run t C b node dets atts b1 Hs Hwf Hroot E1) as [C1 Hcases].
      apply bind_Ret_inv in Hr as (res & b2 & E2 & Hr). apply bind_Ret_inv in Hr as ([] & b3 & E3 & Hr). destruct res as [[]|e]; [|done]. injection Hr as <- <-.
      assert (core b3 = core b2) as C3 by (eapply core_ret; [apply (flushIndexState_keeps core flushToDB_core)|exact E3]).
      unfold attempt in E2. destruct (reorganizeChain _ _ _ _ _ _ b1) as [[[]|e|] b4] eqn:Ere; [injection E2 as <-|done|done].
      destruct Hcases as [(f & Hft & Hpath & -> & ->)|(-> & -> & Hinv)].
      * left. destruct (reorganize_branch t C b node f atts _ b4 Hs Hc Hnt Hft Hpath Ere) as [_ HCn]. destruct (HCn eq_refl) as [Cn HCn']. exists Cn.
        eapply synced_core; [exact C3|]. by apply (reorganize_synced t C b node Cn f atts b4 Hs Hwf).
      * right. split; [|done]. injection Ere as <-. eapply synced_core; [exact C3|by eapply synced_core].
Qed.
End runs.

(** * A reorganization *)

#[local] Transparent b_Hash TxHash.

(** The blocks of this network have no PacketCrypt proof. *)
#[local] Instance sha_conf : GlobalConf :=
  mkConfig PowSha256 true (MaxUnits PktDefaults) (UnitsPerCoin PktDefaults) (MaxTimeOffset PktDefaults) (MedianTimeBlocks PktDefaults).
#[local] Existing Instances sample_crypto map_to_list_order.

(** A coinbase for the height that pays the steward; [tag] makes it different. *)
Definition fair_coinbase (h : Z) (tag : byte) : MsgTx :=
  mkMsgTx 1 [mkTxIn (mkOutPoint zeroHash MaxUint32) [to_byte (0x50 + h); tag] None 0]
    [mkTxOut (PktCalcNetworkStewardPayout (CalcBlockSubsidy h PktMainNetParams)) a_steward; mkTxOut 50 [Byte.x51]] 0 [].

Definition demo_msg (prev : bytes) (h : Z) (tag : byte) : MsgBlock :=
  mkBlock (mkHeader 4 prev (root_of [fair_coinbase h tag]) (1000 + h) 0x1f00ffff 0) None [fair_coinbase h tag].

Definition msg_a : MsgBlock := Eval vm_compute in demo_msg zeroHash 1 Byte.x01.
Definition msg_b : MsgBlock := Eval vm_compute in demo_msg zeroHash 1 Byte.x02.
Definition node_a : blockNode := Eval vm_compute in newBlockNode (mb_Header msg_a) (Some a_tip).
Definition node_b : blockNode := Eval vm_compute in newBlockNode (mb_Header msg_b) (Some a_tip).
Definition msg_c : MsgBlock := Eval vm_compute in demo_msg (n_hash node_b) 2 Byte.x03.
Definition node_c : blockNode := Eval vm_compute in newBlockNode (mb_Header msg_c) (Some node_b).

Definition bytes_of (msg : MsgBlock) : bytes := snd (MsgBlock_Serialize msg []).

(** The chain with the first block; the two branches are stored. *)
Definition fork_chain : BlockChain :=
  mkChain (addNode node_c (addNode node_b (addNode node_a (addNode a_tip newBlockIndex)))) [Some a_tip]
    (mkCaches (newThresholdCaches 3) (newThresholdCaches 29) false false)
    (mkBestState zeroHash 0 0 0 0 0 1 0 (mkElection a_steward 0)) None None
    (mkDb ∅ ∅ {[zeroHash := serialized_height 0]} {[serialized_height 0 := zeroHash]} ∅ {[zeroHash := serializeElectionState (mkElection a_steward 0)]}
       (Some (serializeBestChainState (mkBest zeroHash 0 1 0)))
       (<[n_hash node_c := bytes_of msg_c]> (<[n_hash node_b := bytes_of msg_b]> (<[n_hash node_a := bytes_of msg_a]> {[zeroHash := bytes_of msg_a]}))))
    None None ∅ ∅ None.

Definition connect (node : blockNode) (msg : MsgBlock) (b : BlockChain) : outcome ruleerr bool * BlockChain :=
  connectBestChain PktMainNetParams [] any_order 1000000 node (mkBtcBlock msg (height node)) BFNone b.

Lemma fair_outputs h tag : h = 1 \/ h = 2 -> Forall (fun tx => Forall (fun p => stxo_ok p.2) (created tx h)) [fair_coinbase h tag].
Proof.
  intros Hh. apply List.Forall_cons; [|apply List.Forall_nil]. apply created_stxo_ok; [lia|].
  apply List.Forall_cons; [|apply List.Forall_cons; [|apply List.Forall_nil]]; destruct Hh as [-> | ->]; (split; [split; [split|]; vm_compute; congruence|vm_compute; congruence]).
Qed.

(** A block with such a coinbase applies when its hash is new. *)
Lemma fair_applies C h tag block : h = 1 \/ h = 2 -> b_Transactions block = [fair_coinbase h tag] -> b_Height block = h ->
  (forall o, op_Hash o = TxHash (fair_coinbase h tag) -> C !! o = None) -> applies C block.
Proof.
  intros Hh Et Eh Hfresh. split; rewrite Et.
  - by exists (fair_coinbase h tag), [].
  - apply NoDup_singleton.
  - cbn [map]. intros o Ho. apply Hfresh. by apply list_elem_of_singleton in Ho.
  - split; [|done]. split; [constructor|]. intros o Ho. by apply elem_of_nil in Ho.
  - rewrite Eh. by apply fair_outputs.
Qed.

Lemma fair_plain h tag block : h = 1 \/ h = 2 -> b_Transactions block = [fair_coinbase h tag] -> b_Height block = h ->
  checkBlockSanity block (PowLimit PktMainNetParams) 1000000 BFNoPoWCheck = Ret () -> plain_block block.
Proof.
  intros Hh Et Eh Hs. split; [by eauto|rewrite Et; apply inputs_check; by destruct Hh as [-> | ->]|rewrite Et, Eh; by apply fair_outputs].
Qed.

Definition block_a : BtcBlock := mkBtcBlock msg_a 1.
Definition block_b : BtcBlock := mkBtcBlock msg_b 1.
Definition block_c : BtcBlock := mkBtcBlock msg_c 2.
Definition coins_b : coins := apply_txs 1 [fair_coinbase 1 Byte.x02] ∅.

Definition stored_blocks : Bucket := db_blocks (bc_db fork_chain).

Lemma fetch_demo : fetch stored_blocks node_a = Ret block_a /\ fetch stored_blocks node_b = Ret block_b /\ fetch stored_blocks node_c = Ret block_c.
Proof. split; [vm_compute; reflexivity|]. split; vm_compute; reflexivity. Qed.

Lemma branch_b : branch stored_blocks node_b coins_b.
Proof.
  apply (branch_block _ node_b a_tip ∅ block_b); [done|by constructor|apply fetch_demo|vm_compute; reflexivity|vm_compute; reflexivity|].
  apply (fair_applies _ 1 Byte.x02); [by left|done|done|]. intros o _. apply lookup_empty.
Qed.

Lemma coins_b_fresh o : op_Hash o = TxHash (fair_coinbase 2 Byte.x03) -> coins_b !! o = None.
Proof.
  intros Ho. apply eq_None_not_Some. intros [c E]. unfold coins_b, apply_txs, apply_tx in E. cbn [foldl] in E. apply lookup_put_coins_Some in E as [E|E].
  - assert (o ∈ (created (fair_coinbase 1 Byte.x02) 1).*1) as Hin by (apply list_elem_of_fmap; by exists (o, c)). apply created_ok in Hin as [Hin _].
    assert (bool_decide (TxHash (fair_coinbase 1 Byte.x02) = TxHash (fair_coinbase 2 Byte.x03)) = false) as Hn by (vm_compute; reflexivity).
    apply bool_decide_eq_false in Hn. congruence.
  - rewrite lookup_take_coins in E. by destruct (decide _).
Qed.

Lemma known_demo bi : bi = bi_index (bc_index fork_chain) -> forall m, m ∈ [a_tip; node_a; node_b; node_c] -> bi !! n_hash m = Some m.
Proof.
  intros -> m Hm. assert (Forall (fun m => bi_index (bc_index fork_chain) !! n_hash m = Some m) [a_tip; node_a; node_b; node_c]) as Hall
    by (repeat apply List.Forall_cons; [vm_compute; reflexivity..|apply List.Forall_nil]).
  rewrite Forall_forall in Hall. by apply Hall, list_elem_of_In.
Qed.

Lemma synced_demo : synced a_tip ∅ fork_chain.
Proof.
  assert (forall n, n ∈ chain a_tip -> n = a_tip) as Hc by (intros n Hn; by apply list_elem_of_singleton in Hn).
  split.
  - by vm_compute.
  - by constructor.
  - intros n Hn. apply (known_demo _ eq_refl). rewrite (Hc n Hn). apply list_elem_of_here.
  - done.
  - done.
  - by exists 0.
  - apply (empty_db_rep sha_conf).
  - intros n p D block Hn Hp. exfalso. rewrite (Hc n Hn) in Hp. discriminate Hp.
  - intros n Hn. rewrite (Hc n Hn). apply lookup_singleton_eq.
  - intros h [s Hs]. exists a_tip. change (({[zeroHash := serialized_height 0]} : Bucket) !! h = Some s) in Hs. apply lookup_singleton_Some in Hs as [<- _]. split; [apply list_elem_of_here|done].
  - intros i Hi. cbn [bc_db db_heightIndex fork_chain]. destruct (decide (i = 0)) as [->|Hne]; [apply lookup_singleton_eq|].
    rewrite lookup_singleton_ne by (intros E; apply serialized_height_inj in E; lia). symmetry. rewrite (proj2 (lookup_ge_None _ _)); [done|]. cbn. lia.
Qed.

Lemma demo_chain node m p : node = node_a \/ node = node_c -> m ∈ chain node -> parent m = Some p ->
  m = node_a /\ p = a_tip \/ m = node_b /\ p = a_tip \/ m = node_c /\ p = node_b.
Proof.
  intros Hn Hm Hp. destruct Hn as [-> | ->]; [change (chain node_a) with [a_tip; node_a] in Hm|change (chain node_c) with [a_tip; node_b; node_c] in Hm];
    apply list_elem_of_In in Hm; [destruct Hm as [<-|[<-|[]]]|destruct Hm as [<-|[<-|[<-|[]]]]]; try discriminate Hp; injection Hp as <-; tauto.
Qed.

Lemma stored_demo node : node = node_a \/ node = node_c -> stored_branch stored_blocks node.
Proof.
  intros Hn m p Hm Hp. pose proof (demo_chain node m p Hn Hm Hp) as Hcases.
  assert (forall D, branch stored_blocks a_tip D -> forall o, D !! o = None) as H0.
  { intros D HD o. inversion HD as [|? q C blk Hq]; [apply lookup_empty|discriminate Hq]. }
  destruct Hcases as [[-> ->]|[[-> ->]|[-> ->]]]; eexists; (split; [apply fetch_demo|]); (split; [vm_compute; reflexivity|]); (split; [vm_compute; reflexivity|]); split.
  - apply (fair_plain 1 Byte.x01); [by left|reflexivity|reflexivity|vm_compute; reflexivity].
  - intros D HD o _. by apply H0.
  - apply (fair_plain 1 Byte.x02); [by left|reflexivity|reflexivity|vm_compute; reflexivity].
  - intros D HD o _. by apply H0.
  - apply (fair_plain 2 Byte.x03); [by right|reflexivity|reflexivity|vm_compute; reflexivity].
  - intros D HD o Ho. rewrite (branch_fun _ _ _ HD _ branch_b). apply coins_b_fresh. by apply list_elem_of_singleton in Ho.
Qed.

Lemma attachable_demo t node b : node = node_a \/ node = node_c -> db_blocks (bc_db b) = stored_blocks -> bi_index (bc_index b) = bi_index (bc_index fork_chain) ->
  marks_true b -> attachable PktMainNetParams t node b.
Proof.
  intros Hn Edb Ebi Hmk. split; rewrite ?Edb, ?Ebi.
  - by destruct Hn as [-> | ->]; vm_compute.
  - intros m Hm. apply (known_demo _ eq_refl). apply list_elem_of_In in Hm. apply list_elem_of_In.
    destruct Hn as [-> | ->]; [destruct Hm as [<-|[<-|[]]]|destruct Hm as [<-|[<-|[<-|[]]]]]; cbn; tauto.
  - by apply stored_demo.
  - done.
  - intros m block Hm [p Hp] _ Hf. split.
    + apply (in_chain_wf node) in Hm as Hwf; [|by destruct Hn as [-> | ->]; vm_compute]. apply (height_nonneg m Hwf).
    + right. intros o Ho. assert (exists h tag, b_Transactions block = [fair_coinbase h tag]) as (h & tag & Et).
      { destruct fetch_demo as (Fa & Fb & Fc). destruct (demo_chain node m p Hn Hm Hp) as [[-> _]|[[-> _]|[-> _]]];
          [rewrite Fa in Hf; exists 1, Byte.x01|rewrite Fb in Hf; exists 1, Byte.x02|rewrite Fc in Hf; exists 2, Byte.x03]; injection Hf as <-; reflexivity. }
      rewrite Et in Ho. by apply elem_of_nil in Ho.
Qed.

(** No block of the stored chain is marked valid. *)
Lemma marks_demo : marks_true fork_chain.
Proof. intros n _. unfold NodeStatus. change (bi_status (bc_index fork_chain)) with (∅ : gmap bytes Z). by rewrite lookup_empty. Qed.

Lemma best_chain_witness : exists b1 b2,
  connect node_a msg_a fork_chain = (Ret true, b1) /\ connect node_c msg_c b1 = (Ret true, b2) /\
  tip (bc_bestChain b1) = Some node_a /\ tip (bc_bestChain b2) = Some node_c /\ exists C, db_rep (db_utxoSet (bc_db b2)) C.
Proof.
  assert (fst (connect node_a msg_a fork_chain) = Ret true) as R1 by (vm_compute; reflexivity).
  assert (fst (connect node_c msg_c (snd (connect node_a msg_a fork_chain))) = Ret true) as R2 by (vm_compute; reflexivity).
  assert (bool_decide (db_blocks (bc_db (snd (connect node_a msg_a fork_chain))) = stored_blocks) = true) as Edb by (vm_compute; reflexivity).
  assert (bool_decide (bi_index (bc_index (snd (connect node_a msg_a fork_chain))) = bi_index (bc_index fork_chain)) = true) as Ebi by (vm_compute; reflexivity).
  apply bool_decide_eq_true in Edb, Ebi.
  assert (forallb (fun m => negb (KnownInvalid (NodeStatus (bc_index (snd (connect node_a msg_a fork_chain))) m))) (chain node_c) = true) as Hst
    by (vm_compute; reflexivity).
  assert (MaxUnitsI64 < 2 ^ 63 /\ 0 <= MaxUnitsI64) as [Hmax Hpos] by (vm_compute; split; congruence).
  assert (attachable PktMainNetParams a_tip node_a fork_chain) as K1 by (apply attachable_demo; [by left|reflexivity|reflexivity|exact marks_demo]).
  assert (exists f, f ∈ chain a_tip /\ f ∈ chain node_a) as R1' by (exists a_tip; split; apply list_elem_of_here).
  pose proof (best_chain Hmax Hpos PktMainNetParams [] any_order 1000000 a_tip node_a ∅ block_a BFNone fork_chain synced_demo
    K1 R1' (ex_intro _ a_tip eq_refl) (proj1 fetch_demo) ltac:(intros Hb; vm_compute in Hb; discriminate Hb)) as T1.
  change (connectBestChain PktMainNetParams [] any_order 1000000 node_a block_a BFNone fork_chain) with (connect node_a msg_a fork_chain) in T1.
  destruct (connect node_a msg_a fork_chain) as [r1 b1]. cbn [fst snd] in *. subst r1.
  destruct T1 as [M1 [[Ca S1]|(_ & m & _ & Hm)]].
  2:{ unfold NodeStatus in Hm. change (bi_status (bc_index fork_chain)) with (∅ : gmap bytes Z) in Hm. rewrite lookup_empty in Hm. discriminate Hm. }
  assert (attachable PktMainNetParams node_a node_c b1) as K2 by (apply attachable_demo; [by right|exact Edb|exact Ebi|exact M1]).
  assert (exists f, f ∈ chain node_a /\ f ∈ chain node_c) as R2' by (exists a_tip; split; apply list_elem_of_here).
  assert (fetch (db_blocks (bc_db b1)) node_c = Ret block_c) as F2 by (rewrite Edb; apply fetch_demo).
  pose proof (best_chain Hmax Hpos PktMainNetParams [] any_order 1000000 node_a node_c Ca block_c BFNone b1 S1
    K2 R2' (ex_intro _ node_b eq_refl) F2 ltac:(intros Hb; vm_compute in Hb; discriminate Hb)) as T2.
  change (connectBestChain PktMainNetParams [] any_order 1000000 node_c block_c BFNone b1) with (connect node_c msg_c b1) in T2.
  destruct (connect node_c msg_c b1) as [r2 b2] eqn:E2. cbn [fst snd] in *. subst r2.
  destruct T2 as [_ [[Cc S2]|(_ & m & Hm & Hi)]].
  2:{ rewrite forallb_forall in Hst. apply list_elem_of_In in Hm. specialize (Hst m Hm). rewrite Hi in Hst. discriminate Hst. }
  exists b1, b2. split; [reflexivity|]. split; [exact E2|]. split; [exact (tip_synced _ _ _ S1)|]. split; [exact (tip_synced _ _ _ S2)|exact (ex_intro _ Cc (sy_coins _ _ _ S2))].
Defined.
