(* ===== verification/Queries.v ===== *)
(** The questions that the rest of the node asks the chain (src/blockchain/chain.go and
    src/blockchain/chainio.go): blocks and headers by hash and by height, ranges of
    hashes, and the inventory after a block locator, which answers the requests of peers.

    An error that carries only a text is [OtherError]; [None] is [errNotInMainChain]. *)

From stdpp Require Import gmap.
From S2P Require Import Prelude Sha SigHash Wire MsgTx ChainParams Block RuleErr Difficulty BlockIndex ChainView ThresholdState ChainIO UtxoView UtxoProps UtxoSet Election ChainState Connect Orphans ChainOps BestChain.

Definition MaxBlockHeadersPerMsg : Z := 2000.

Section queries.
Context (b : BlockChain).

Definition HeaderByHash (hash : bytes) : outcome ruleerr BlockHeader :=
  match LookupNode (bc_index b) hash with
  | None => mthrow OtherError
  | Some node => mret (node_Header node)
  end.

(** A node with the hash on the main chain. *)
Definition main_node (hash : bytes) : option blockNode :=
  match LookupNode (bc_index b) hash with
  | Some node => if contains (bc_bestChain b) node then Some node else None
  | None => None
  end.

Definition MainChainHasBlock (hash : bytes) : bool := match main_node hash with Some _ => true | None => false end.

Definition BlockLocatorFromHash (hash : bytes) : outcome ruleerr (list bytes) := blockLocator (bc_bestChain b) (LookupNode (bc_index b) hash).

Definition LatestBlockLocator : outcome ruleerr (list bytes) := blockLocator (bc_bestChain b) None.

Definition BlockHeightByHash (hash : bytes) : option Z := height <$> main_node hash.

Definition BlockHashByHeight (blockHeight : Z) : option bytes := n_hash <$> nodeByHeight (bc_bestChain b) blockHeight.

Definition BlockHeaderByHeight (blockHeight : Z) : option BlockHeader := node_Header <$> nodeByHeight (bc_bestChain b) blockHeight.

Definition BlockByHeight `{GlobalConf} (blockHeight : Z) : outcome ruleerr (option BtcBlock) :=
  match nodeByHeight (bc_bestChain b) blockHeight with
  | None => mret None
  | Some node => block ← dbFetchBlockByNode node (bc_db b); mret (Some block)
  end.

Definition BlockByHash `{GlobalConf} (hash : bytes) : outcome ruleerr (option BtcBlock) :=
  match main_node hash with
  | None => mret None
  | Some node => block ← dbFetchBlockByNode node (bc_db b); mret (Some block)
  end.

(** * Ranges *)

(** [for i := startHeight; i < endHeight; i++]. *)
Fixpoint range_loop (n : nat) (i : Z) : outcome ruleerr (list bytes) :=
  match n with
  | O => mret []
  | S n' =>
    node ← or_panic (nodeByHeight (bc_bestChain b) i);
    hashes ← range_loop n' (i + 1);
    mret (n_hash node :: hashes)
  end.

Definition HeightRange (startHeight endHeight : Z) : outcome ruleerr (list bytes) :=
  if startHeight <? 0 then mthrow OtherError else
  if endHeight <? startHeight then mthrow OtherError else
  if startHeight =? endHeight then mret [] else
  t ← or_panic (tip (bc_bestChain b));
  let latestHeight := height t in
  if latestHeight <? startHeight then mret [] else
  let endHeight := if int32 (latestHeight + 1) <? endHeight then int32 (latestHeight + 1) else endHeight in
  range_loop (Z.to_nat (endHeight - startHeight)) startHeight.

(** The hashes from the end on, in reverse; [hashes[i] = node.hash; node = node.parent]. *)
Fixpoint walk_back (n : nat) (node : option blockNode) (hashes : list bytes) : outcome ruleerr (list bytes) :=
  match n with
  | O => mret hashes
  | S n' =>
    node ← or_panic node;
    walk_back n' (parent node) (n_hash node :: hashes)
  end.

Definition HeightToHashRange (startHeight : Z) (endHash : bytes) (maxResults : Z) : outcome ruleerr (list bytes) :=
  match LookupNode (bc_index b) endHash with
  | None => mthrow OtherError
  | Some endNode =>
    if negb (KnownValid (NodeStatus (bc_index b) endNode)) then mthrow OtherError else
    let endHeight := height endNode in
    if startHeight <? 0 then mthrow OtherError else
    if endHeight <? startHeight then mthrow OtherError else
    let resultsLength := int32 (endHeight - startHeight + 1) in
    if maxResults <? resultsLength then mthrow OtherError else
    if resultsLength <? 0 then Panic else
    walk_back (Z.to_nat resultsLength) (Some endNode) []
  end.

(** [for index := endHeight / interval; index > 0; index--]. *)
Fixpoint interval_loop (index : nat) (interval : Z) (node : blockNode) (hashes : list bytes) : outcome ruleerr (list bytes) :=
  match index with
  | O => mret hashes
  | S index' =>
    let blockHeight := int32 (Z.of_nat index * interval) in
    node ← or_panic (if contains (bc_bestChain b) node then nodeByHeight (bc_bestChain b) blockHeight else Ancestor node blockHeight);
    interval_loop index' interval node (n_hash node :: hashes)
  end.

(** A negative interval makes the length negative. *)
Definition IntervalBlockHashes (endHash : bytes) (interval : Z) : outcome ruleerr (list bytes) :=
  match LookupNode (bc_index b) endHash with
  | None => mthrow OtherError
  | Some endNode =>
    if negb (KnownValid (NodeStatus (bc_index b) endNode)) then mthrow OtherError else
    if interval =? 0 then Panic else
    let resultsLength := Z.quot (height endNode) interval in
    if resultsLength <? 0 then Panic else
    interval_loop (Z.to_nat resultsLength) interval endNode []
  end.

(** * The inventory after a locator *)

Fixpoint find_located (locator : list bytes) (startNode : option blockNode) : option blockNode :=
  match locator with
  | [] => startNode
  | hash :: locator' => match main_node hash with Some node => Some node | None => find_located locator' startNode end
  end.

(** The first node and the number of nodes. *)
Definition locateInventory (locator : list bytes) (hashStop : bytes) (maxEntries : Z) : outcome ruleerr (option blockNode * Z) :=
  let stopNode := LookupNode (bc_index b) hashStop in
  match locator with
  | [] => mret (match stopNode with None => (None, 0) | Some _ => (stopNode, 1) end)
  | _ =>
    match next (bc_bestChain b) (find_located locator (genesis (bc_bestChain b))) with
    | None => mret (None, 0)
    | Some startNode =>
      t ← or_panic (tip (bc_bestChain b));
      let total := uint32 (int32 (height t - height startNode + 1)) in
      let total := match stopNode with
                   | Some stop => if contains (bc_bestChain b) stop && (height startNode <=? height stop)
                                  then uint32 (int32 (height stop - height startNode + 1)) else total
                   | None => total
                   end in
      mret (Some startNode, if maxEntries <? total then maxEntries else total)
    end
  end.

(** [for i := 0; i < total; i++ { append; node = next(node) }]. *)
Fixpoint follow {A} (f : blockNode -> A) (n : nat) (node : option blockNode) : outcome ruleerr (list A) :=
  match n with
  | O => mret []
  | S n' =>
    node ← or_panic node;
    rest ← follow f n' (next (bc_bestChain b) (Some node));
    mret (f node :: rest)
  end.

Definition locateBlocks (locator : list bytes) (hashStop : bytes) (maxHashes : Z) : outcome ruleerr (list bytes) :=
  '(node, total) ← locateInventory locator hashStop maxHashes;
  follow n_hash (Z.to_nat total) node.

Definition locateHeaders (locator : list bytes) (hashStop : bytes) (maxHeaders : Z) : outcome ruleerr (list BlockHeader) :=
  '(node, total) ← locateInventory locator hashStop maxHeaders;
  follow node_Header (Z.to_nat total) node.

Definition LocateHeaders (locator : list bytes) (hashStop : bytes) : outcome ruleerr (list BlockHeader) := locateHeaders locator hashStop MaxBlockHeadersPerMsg.
End queries.

(** * The chain that the queries show *)

(** The nodes up to the one with hash [stop]; all of them when there is none. *)
Fixpoint upto (stop : bytes) (l : list blockNode) : list blockNode :=
  match l with
  | [] => []
  | n :: l' => n :: if bytes_eqb (n_hash n) stop then [] else upto stop l'
  end.

(** [start] is the first block of the main chain of [t] that [locator] names, the genesis block when it names none. *)
Definition first_known (t : blockNode) (locator : list bytes) (start : blockNode) : Prop :=
  start ∈ chain t /\
  ((exists before after, locator = before ++ n_hash start :: after /\ forall m, m ∈ chain t -> n_hash m ∉ before) \/
   (height start = 0 /\ forall m, m ∈ chain t -> n_hash m ∉ locator)).

(** The view of the best chain is the branch of [t], which is in the index; the index finds a node by its hash. *)
Record shows (t : blockNode) (b : BlockChain) : Prop := {
  sh_wf : node_wf t;
  sh_view : bc_bestChain b = view_of t;
  sh_known : forall n, n ∈ chain t -> bi_index (bc_index b) !! n_hash n = Some n;
  sh_keyed : forall h m, bi_index (bc_index b) !! h = Some m -> n_hash m = h
}.

(** The states that the selection of the best chain keeps are such states. *)
Lemma synced_shows `{GlobalConf} t C b : synced t C b -> (forall h m, bi_index (bc_index b) !! h = Some m -> n_hash m = h) -> shows t b.
Proof. intros [] Hk. by split. Qed.

Section props.
Context (t : blockNode) (b : BlockChain) (Hs : shows t b).

#[local] Abbreviation view := (bc_bestChain b).

Lemma node_at (h : Z) : nodeByHeight view h = if h <? 0 then None else chain t !! Z.to_nat h.
Proof using Hs. rewrite (sh_view _ _ Hs). apply nodeByHeight_view. constructor. apply (sh_wf _ _ Hs). Qed.

Lemma main_node_spec hash n : main_node b hash = Some n <-> n ∈ chain t /\ n_hash n = hash.
Proof using Hs.
  unfold main_node, LookupNode, contains. split.
  - destruct (bi_index _ !! hash) as [m|] eqn:E; [|done]. case_bool_decide as Hc; [|done]. intros [= ->]. split; [|by apply (sh_keyed _ _ Hs)].
    rewrite node_at in Hc. destruct (height n <? 0); [done|]. by eapply list_elem_of_lookup_2.
  - intros [Hn <-]. rewrite (sh_known _ _ Hs n Hn), bool_decide_true; [done|].
    apply (elem_of_chain t n (sh_wf _ _ Hs)) in Hn as [Hh Hl]. rewrite node_at. by destruct (Z.ltb_spec (height n) 0); [lia|].
Qed.

Lemma main_node_None hash m : main_node b hash = None -> m ∈ chain t -> n_hash m <> hash.
Proof using Hs. intros E Hm Hh. assert (main_node b hash = Some m) by (by apply main_node_spec). congruence. Qed.

Lemma find_located_spec locator : exists start, find_located b locator (genesis view) = Some start /\ first_known t locator start.
Proof using Hs.
  induction locator as [|hash l (start & E & Hin & IH)]; cbn [find_located].
  - pose proof (sh_wf _ _ Hs) as Hwf. pose proof (height_nonneg t Hwf). pose proof (chain_length t Hwf).
    destruct (chain t !! 0%nat) as [g|] eqn:Eg; [|apply lookup_ge_None in Eg; lia].
    exists g. rewrite (sh_view _ _ Hs). unfold genesis, Prelude.index. change (0 <=? 0) with true. cbv iota. rewrite view_of_lookup.
    change (Z.to_nat 0) with 0%nat. rewrite Eg. split; [done|]. split; [by eapply list_elem_of_lookup_2|]. right.
    apply (chain_lookup t _ _ Hwf) in Eg as [-> _]. split; [done|]. intros m _. apply not_elem_of_nil.
  - destruct (main_node b hash) as [n|] eqn:En.
    + apply main_node_spec in En as [Hn <-]. exists n. split; [done|]. split; [done|]. left. exists [], l. split; [done|]. intros m _. apply not_elem_of_nil.
    + exists start. split; [done|]. split; [done|]. destruct IH as [(l1 & l2 & -> & Hno)|[Hz Hno]]; [left; exists (hash :: l1), l2; split; [done|]|right; split; [done|]];
        intros m Hm; rewrite not_elem_of_cons; split; [by eapply main_node_None|by apply Hno|by eapply main_node_None|by apply Hno].
Qed.

(** The successor of the node at height [i]. *)
Lemma next_at i n : chain t !! i = Some n -> next view (Some n) = chain t !! S i.
Proof using Hs.
  intros Hl. pose proof (sh_wf _ _ Hs) as Hwf. destruct (chain_lookup t i n Hwf Hl) as [Hh _]. apply list_elem_of_lookup_2 in Hl as Hn.
  pose proof (elem_of_chain_height t n Hwf Hn). pose proof (height_nonneg t Hwf).
  unfold next. assert (contains view n = true) as ->. { rewrite (sh_view _ _ Hs). apply (contains_view _ (chain t)); [by constructor|lia|done]. }
  cbn [negb]. rewrite int32_small, node_at by lia. destruct (Z.ltb_spec (height n + 1) 0); [lia|]. f_equal. lia.
Qed.

Lemma follow_at {A} (f : blockNode -> A) k i : (i + k <= length (chain t))%nat ->
  follow b f k (chain t !! i) = Ret (map f (take k (drop i (chain t)))).
Proof using Hs.
  revert i. induction k as [|k IH]; intros i Hk; cbn [follow]; [done|].
  destruct (chain t !! i) as [n|] eqn:E; [|apply lookup_ge_None in E; lia]. cbn [or_panic mbind outcome_bind].
  rewrite (next_at i n E), IH by lia. cbn [mbind outcome_bind]. by rewrite (drop_S _ _ _ E).
Qed.

Lemma range_loop_at k i : (i + k <= length (chain t))%nat -> range_loop b k (Z.of_nat i) = Ret (map n_hash (take k (drop i (chain t)))).
Proof using Hs.
  revert i. induction k as [|k IH]; intros i Hk; cbn [range_loop]; [done|]. rewrite node_at. destruct (Z.ltb_spec (Z.of_nat i) 0); [lia|]. rewrite Nat2Z.id.
  destruct (chain t !! i) as [n|] eqn:E; [|apply lookup_ge_None in E; lia]. cbn [or_panic mbind outcome_bind].
  replace (Z.of_nat i + 1) with (Z.of_nat (S i)) by lia. rewrite IH by lia. cbn [mbind outcome_bind]. by rewrite (drop_S _ _ _ E).
Qed.
Lemma chain_distinct n m : n ∈ chain t -> m ∈ chain t -> n_hash n = n_hash m -> n = m.
Proof using Hs. intros Hn Hm E. pose proof (sh_known _ _ Hs n Hn) as E1. rewrite E, (sh_known _ _ Hs m Hm) in E1. congruence. Qed.

(** Up to the block at height [j]. *)
Lemma upto_at j s i : chain t !! j = Some s -> (i <= j)%nat -> upto (n_hash s) (drop i (chain t)) = take (S j - i) (drop i (chain t)).
Proof using Hs.
  intros Hj. assert (forall k i, k = (j - i)%nat -> (i <= j)%nat -> upto (n_hash s) (drop i (chain t)) = take (S j - i) (drop i (chain t))) as Hk; [|by apply (Hk (j - i)%nat)].
  intros k. induction k as [|k IH]; clear i; intros i Ek Hi; pose proof (lookup_lt_Some _ _ _ Hj).
  - assert (i = j) as -> by lia. rewrite (drop_S _ _ _ Hj). replace (S j - j)%nat with 1%nat by lia. cbn [upto take]. by rewrite bytes_eqb_refl.
  - destruct (chain t !! i) as [n|] eqn:E; [|apply lookup_ge_None in E; lia]. rewrite (drop_S _ _ _ E). replace (S j - i)%nat with (S (S j - S i)) by lia.
    cbn [upto take]. destruct (bytes_eqb (n_hash n) (n_hash s)) eqn:Eh; [|f_equal; apply IH; lia]. apply bytes_eqb_eq in Eh.
    apply (chain_distinct n s) in Eh as ->; [|by eapply list_elem_of_lookup_2..].
    destruct (chain_lookup t _ _ (sh_wf _ _ Hs) E) as [H1 _]. destruct (chain_lookup t _ _ (sh_wf _ _ Hs) Hj) as [H2 _]. lia.
Qed.

Lemma upto_none stop l : (forall m, m ∈ l -> n_hash m <> stop) -> upto stop l = l.
Proof.
  induction l as [|n l IH]; intros Hno; [done|]. cbn [upto]. destruct (bytes_eqb (n_hash n) stop) eqn:E.
  - apply bytes_eqb_eq in E. by destruct (Hno n ltac:(left)).
  - f_equal. apply IH. intros m Hm. apply Hno. by right.
Qed.

(** The number of entries: the blocks from height [i] up to the stop block. *)
Lemma total_spec i stop : (i < length (chain t))%nat ->
  let total := match LookupNode (bc_index b) stop with
               | Some s => if contains view s && (Z.of_nat i <=? height s) then uint32 (int32 (height s - Z.of_nat i + 1)) else uint32 (int32 (height t - Z.of_nat i + 1))
               | None => uint32 (int32 (height t - Z.of_nat i + 1))
               end in
  exists k, total = Z.of_nat k /\ (i + k <= length (chain t))%nat /\ upto stop (drop i (chain t)) = take k (drop i (chain t)).
Proof using Hs.
  intros Hi. pose proof (sh_wf _ _ Hs) as Hwf. pose proof (height_nonneg t Hwf). pose proof (chain_length t Hwf) as Hlen.
  assert (forall h, Z.of_nat i <= h <= height t -> uint32 (int32 (h - Z.of_nat i + 1)) = Z.of_nat (Z.to_nat h + 1 - i)) as Hu.
  { intros h Hh. rewrite int32_small by lia. unfold uint32, uwrap. rewrite Z.mod_small by lia. lia. }
  assert (forall s, main_node b stop = Some s <-> s ∈ chain t /\ n_hash s = stop) as Hm by (intros; apply main_node_spec).
  unfold main_node in Hm. cbv zeta. revert Hm.
  assert ((forall m, m ∈ drop i (chain t) -> n_hash m <> stop) -> exists k, uint32 (int32 (height t - Z.of_nat i + 1)) = Z.of_nat k /\ (i + k <= length (chain t))%nat /\
     upto stop (drop i (chain t)) = take k (drop i (chain t))) as Hall.
  { intros Hno. exists (length (chain t) - i)%nat. rewrite Hu by lia. split; [lia|]. split; [lia|]. rewrite upto_none, take_ge by (try done; rewrite length_drop; lia). done. }
  assert (forall m, m ∈ drop i (chain t) -> m ∈ chain t /\ Z.of_nat i <= height m) as Hdrop.
  { intros m [j Hj]%list_elem_of_lookup_1. rewrite lookup_drop in Hj. split; [by eapply list_elem_of_lookup_2|]. apply (chain_lookup t _ _ Hwf) in Hj as [-> _]. lia. }
  destruct (LookupNode (bc_index b) stop) as [s|].
  2:{ intros Hm. apply Hall. intros m [Hin _]%Hdrop E. by pose proof (proj2 (Hm m) (conj Hin E)). }
  destruct (contains view s); cbn [andb].
  2:{ intros Hm. apply Hall. intros m [Hin _]%Hdrop E. by pose proof (proj2 (Hm m) (conj Hin E)). }
  intros Hm. destruct (proj1 (Hm s) eq_refl) as [Hin <-]. destruct (Z.leb_spec (Z.of_nat i) (height s)) as [Hle|Hgt].
  - pose proof (elem_of_chain_height t s Hwf Hin). apply (elem_of_chain t s Hwf) in Hin as [_ Hj]. pose proof (lookup_lt_Some _ _ _ Hj).
    exists (Z.to_nat (height s) + 1 - i)%nat. rewrite Hu by lia. split; [done|]. split; [lia|].
    rewrite (upto_at (Z.to_nat (height s)) s i Hj) by lia. f_equal. lia.
  - apply Hall. intros m [Hmin Hmh]%Hdrop E. apply (chain_distinct m s) in E as ->; [lia|done|done].
Qed.

Lemma locateInventory_spec locator start stop max : locator <> [] -> 0 <= max -> find_located b locator (genesis view) = Some start -> start ∈ chain t ->
  exists k, let i := S (Z.to_nat (height start)) in
    locateInventory b locator stop max = Ret (if (length (chain t) <=? i)%nat then (None, 0) else (chain t !! i, Z.of_nat k)) /\ (i + k <= length (chain t))%nat /\
    take k (drop i (chain t)) = take (Z.to_nat max) (upto stop (drop i (chain t))).
Proof using Hs.
  intros Hne Hmax Ef Hin. pose proof (sh_wf _ _ Hs) as Hwf. apply (elem_of_chain t start Hwf) in Hin as [Hh Hl]. set (i := S (Z.to_nat (height start))). unfold locateInventory.
  destruct locator as [|h l]; [done|]. rewrite Ef, (next_at _ _ Hl). fold i. destruct (chain t !! i) as [n|] eqn:En.
  - pose proof (lookup_lt_Some _ _ _ En) as Hlt. destruct (chain_lookup t _ _ Hwf En) as [Hn _]. rewrite (sh_view _ _ Hs), ChainView.tip_view by done.
    cbn [or_panic mbind outcome_bind]. rewrite Hn, <- (sh_view _ _ Hs). destruct (total_spec i stop Hlt) as (k & Etot & Hkl & Hup). cbv zeta in Etot.
    destruct (Nat.leb_spec (length (chain t)) i); [lia|].
    exists (Nat.min (Z.to_nat max) k). cbv zeta. rewrite Etot, Hup, take_take. split; [|split; [lia|done]].
    unfold mret, outcome_ret. do 2 f_equal. destruct (Z.ltb_spec max (Z.of_nat k)); lia.
  - apply lookup_ge_None in En. pose proof (lookup_lt_Some _ _ _ Hl). exists 0%nat. cbv zeta.
    destruct (Nat.leb_spec (length (chain t)) i); [|lia]. split; [done|]. split; [lia|]. rewrite (drop_ge (chain t) i) by lia. by destruct (Z.to_nat max).
Qed.

(** The blocks and the headers are chosen alike. *)
Lemma located_spec locator : locator <> [] -> exists start, first_known t locator start /\
  forall A (f : blockNode -> A) stop max, 0 <= max ->
    ('(node, total) ← locateInventory b locator stop max; follow b f (Z.to_nat total) node) =
    Ret (map f (take (Z.to_nat max) (upto stop (drop (S (Z.to_nat (height start))) (chain t))))).
Proof using Hs.
  intros Hne. destruct (find_located_spec locator) as (start & Ef & Hk). exists start. split; [done|]. intros A f stop max Hmax.
  destruct (locateInventory_spec locator start stop max Hne Hmax Ef (proj1 Hk)) as (k & El & Hkl & Ht). cbv zeta in *. rewrite El. cbn [mbind outcome_bind]. rewrite <- Ht. destruct (Nat.leb_spec (length (chain t)) (S (Z.to_nat (height start)))) as [Hge|Hlt].
  - rewrite drop_ge, take_nil by done. done.
  - rewrite Nat2Z.id. by apply follow_at.
Qed.

(** [HeightRange] gives the hashes from [startHeight] up to, and without, [endHeight]. *)
Lemma HeightRange_spec startHeight endHeight : 0 <= startHeight <= endHeight ->
  HeightRange b startHeight endHeight = Ret (map n_hash (take (Z.to_nat (endHeight - startHeight)) (drop (Z.to_nat startHeight) (chain t)))).
Proof using Hs.
  intros Hr. pose proof (sh_wf _ _ Hs) as Hwf. pose proof (height_nonneg t Hwf). pose proof (chain_length t Hwf) as Hlen.
  unfold HeightRange. destruct (Z.ltb_spec startHeight 0); [lia|]. destruct (Z.ltb_spec endHeight startHeight); [lia|].
  destruct (Z.eqb_spec startHeight endHeight) as [->|]; [by rewrite Z.sub_diag|].
  rewrite (sh_view _ _ Hs), ChainView.tip_view by done. cbn [or_panic mbind outcome_bind]. rewrite int32_small by lia.
  destruct (Z.ltb_spec (height t) startHeight); [by rewrite drop_ge, take_nil by lia|].
  rewrite <- (Z2Nat.id startHeight) at 2 by lia. destruct (Z.ltb_spec (height t + 1) endHeight); rewrite range_loop_at by lia; do 2 f_equal; try done.
  rewrite !take_ge by (rewrite length_drop; lia). done.
Qed.

(** The hash index and the height index are inverse to each other. *)
Lemma height_hash_inverse hash h : 0 <= h -> BlockHeightByHash b hash = Some h <-> BlockHashByHeight b h = Some hash.
Proof using Hs.
  intros Hh. unfold BlockHeightByHash, BlockHashByHeight. rewrite !fmap_Some, node_at. destruct (Z.ltb_spec h 0); [lia|]. pose proof (sh_wf _ _ Hs) as Hwf. split.
  - intros (n & [Hn <-]%main_node_spec & ->). exists n. apply (elem_of_chain t n Hwf) in Hn as [_ Hl]. done.
  - intros (n & Hl & ->). exists n. destruct (chain_lookup t _ _ Hwf Hl) as [Hn _]. split; [|lia]. apply main_node_spec. split; [by eapply list_elem_of_lookup_2|done].
Qed.
End props.

(** C20: the inventory that a peer is offered.  When the view and the index show the
    branch of the tip, the answer to a locator are the blocks (or headers) of the best chain that
    follow the first block of the best chain that the locator names, or the genesis block
    when it names none: in order, without a gap, up to the stop block or the tip, and at
    most as many as asked for. *)
Theorem peer_inventory (t : blockNode) (b : BlockChain) (locator : list bytes) (stop : bytes) (max : Z) (Hs : shows t b) (Hlocator : locator <> []) (Hmax : 0 <= max) :
  exists start, first_known t locator start /\
    let l := upto stop (drop (S (Z.to_nat (height start))) (chain t)) in
    locateBlocks b locator stop max = Ret (map n_hash (take (Z.to_nat max) l)) /\
    LocateHeaders b locator stop = Ret (map node_Header (take 2000 l)).
Proof.
  destruct (located_spec t b Hs locator Hlocator) as (start & Hk & Hf). exists start. split; [done|]. split; by apply Hf.
Qed.

Definition chain_b : BlockChain :=
  mkChain (foldr addNode newBlockIndex (chain demo_b ++ chain demo_a)) (view_of demo_b)
    (mkCaches (newThresholdCaches 3) (newThresholdCaches 29) false false) (mkBestState zeroHash 0 0 0 0 0 1 0 (mkElection [] 0)) None None
    (mkDb ∅ ∅ ∅ ∅ ∅ ∅ None ∅) None None ∅ ∅ None.

Lemma added_keyed l : map_Forall (fun h m => n_hash m = h) (bi_index (foldr addNode newBlockIndex l)).
Proof. induction l as [|n l IH]; [apply map_Forall_empty|]. by apply map_Forall_insert_2. Qed.

Lemma shows_b : shows demo_b chain_b.
Proof.
  split; [vm_compute; tauto|reflexivity| |].
  - intros n Hn. change (chain demo_b) with [demo_genesis; demo_node (Some demo_genesis) Byte.x03 1; demo_b] in Hn.
    apply list_elem_of_In in Hn as [<-|[<-|[<-|[]]]]; vm_compute; reflexivity.
  - apply added_keyed.
Qed.

(** A peer on the other branch is offered the blocks after the common one. *)
Lemma peer_inventory_witness : exists start, first_known demo_b [[Byte.x02]; [Byte.x01]; [Byte.x00]] start /\
  locateBlocks chain_b [[Byte.x02]; [Byte.x01]; [Byte.x00]] zeroHash 500 = Ret [[Byte.x03]; [Byte.x04]].
Proof.
  destruct (peer_inventory demo_b chain_b [[Byte.x02]; [Byte.x01]; [Byte.x00]] zeroHash 500 shows_b ltac:(discriminate) ltac:(lia)) as (start & Hk & _).
  exists start. split; [exact Hk|]. vm_compute. reflexivity.
Defined.
