(* ===== verification/Networks.v ===== *)
(** The other networks (src/chaincfg/params.go): the consensus parameters of the Bitcoin
    networks, the prefixes of addresses and keys of all networks, and the registry of the
    prefixes.  The parameters of the PKT network are in [ChainParams]; the PKT test network
    sets no [PowLimit] and is represented by its prefixes only. *)

From Stdlib Require Import Ascii String.
From stdpp Require Import gmap strings.
From S2P Require Import Prelude SigHash ChainParams Difficulty.

(** * Consensus parameters *)

Definition MainNetParams : Params := {|
  GlobalConfOf := BitcoinDefaults;
  InitialNetworkSteward := [];
  GenesisHash := newHashFromStr 0x000000000019d6689c085ae165831e934ff763ae46a2a6c172b3f1b60a8ce26f;
  PowLimit := (1 <<< 224) - 1;
  PowLimitBits := 0x1d00ffff;
  BIP0034Height := 227931;
  BIP0065Height := 388381;
  BIP0066Height := 363725;
  CoinbaseMaturity := 100;
  SubsidyReductionInterval := 210000;
  TargetTimespan := 60 * Minute * 24 * 14;
  TargetTimePerBlock := Minute * 10;
  RetargetAdjustmentFactor := 4;
  ReduceMinDifficulty := false;
  MinDiffReductionTime := 0;
  Checkpoints := [mkCheckpoint 11111 (newHashFromStr 0x0000000069e244f73d78e8fd29ba2fd2ed618bd6fa2ee92559f542fdb26e7c1d);
    mkCheckpoint 33333 (newHashFromStr 0x000000002dd5588a74784eaa7ab0507a18ad16a236e7b1ce69f00d7ddfb5d0a6);
    mkCheckpoint 74000 (newHashFromStr 0x0000000000573993a3c9e41ce34471c079dcf5f52a0e824a81e7f953b8661a20);
    mkCheckpoint 105000 (newHashFromStr 0x00000000000291ce28027faea320c8d2b054b2e0fe44a773f3eefb151d6bdc97);
    mkCheckpoint 134444 (newHashFromStr 0x00000000000005b12ffd4cd315cd34ffd4a594f430ac814c91184a0d42d2b0fe);
    mkCheckpoint 168000 (newHashFromStr 0x000000000000099e61ea72015e79632f216fe6cb33d7899acb35b75c8303b763);
    mkCheckpoint 193000 (newHashFromStr 0x000000000000059f452a5f7340de6682a977387c17010ff6e6c3bd83ca8b1317);
    mkCheckpoint 210000 (newHashFromStr 0x000000000000048b95347e83192f69cf0366076336c639f9b7228e9ba171342e);
    mkCheckpoint 216116 (newHashFromStr 0x00000000000001b4f4b433e81ee46494af945cf96014816a4e2370f11b23df4e);
    mkCheckpoint 225430 (newHashFromStr 0x00000000000001c108384350f74090433e7fcf79a606b8e797f065b130575932);
    mkCheckpoint 250000 (newHashFromStr 0x000000000000003887df1f29024b06fc2200b55f8af8f35453d7be294df2d214);
    mkCheckpoint 267300 (newHashFromStr 0x000000000000000a83fbd660e918f218bf37edd92b748ad940483c7c116179ac);
    mkCheckpoint 279000 (newHashFromStr 0x0000000000000001ae8c72a0b0c301f67e3afca10e819efa9041e458e9bd7e40);
    mkCheckpoint 300255 (newHashFromStr 0x0000000000000000162804527c6e9b9f0563a280525f9d08c12041def0a0f3b2);
    mkCheckpoint 319400 (newHashFromStr 0x000000000000000021c6052e9becade189495d1c539aa37c58917305fd15f13b);
    mkCheckpoint 343185 (newHashFromStr 0x0000000000000000072b8bf361d01a6ba7d445dd024203fafc78768ed4368554);
    mkCheckpoint 352940 (newHashFromStr 0x000000000000000010755df42dba556bb72be6a32f3ce0b6941ce4430152c9ff);
    mkCheckpoint 382320 (newHashFromStr 0x00000000000000000a8dc6ed5b133d0eb2fd6af56203e4159789b092defd8ab2);
    mkCheckpoint 400000 (newHashFromStr 0x000000000000000004ec466ce4732fe6f1ed1cddc2ed4b328fff5224276e3f6f);
    mkCheckpoint 430000 (newHashFromStr 0x000000000000000001868b2bb3a285f3cc6b33ea234eb70facf4dcdf22186b87);
    mkCheckpoint 460000 (newHashFromStr 0x000000000000000000ef751bbce8e744ad303c47ece06c8d863e4d417efc258c);
    mkCheckpoint 490000 (newHashFromStr 0x000000000000000000de069137b17b8d5a3dfbd5b145b2dcfb203f15d0c4de90);
    mkCheckpoint 520000 (newHashFromStr 0x0000000000000000000d26984c0229c9f6962dc74db0a6d525f2f1640396f69c);
    mkCheckpoint 550000 (newHashFromStr 0x000000000000000000223b7a2298fb1c6c75fb0efc28a4c56853ff4112ec6bc9);
    mkCheckpoint 560000 (newHashFromStr 0x0000000000000000002c7b276daf6efb2b6aa68e2ce3be67ef925b3264ae7122)];
  RuleChangeActivationThreshold := 1916;
  MinerConfirmationWindow := 2016;
  Deployments := [mkDeployment 28 1199145601 1230767999; mkDeployment 0 1462060800 1493596800; mkDeployment 1 1479168000 1510704000];
  HDCoinType := 0
|}.

Definition RegressionNetParams : Params := {|
  GlobalConfOf := BitcoinDefaults;
  InitialNetworkSteward := [];
  GenesisHash := newHashFromStr 0x0f9188f13cb7b2c71f2a335e3a4fc328bf5beb436012afca590b1a11466e2206;
  PowLimit := (1 <<< 255) - 1;
  PowLimitBits := 0x207fffff;
  BIP0034Height := 100000000;
  BIP0065Height := 1351;
  BIP0066Height := 1251;
  CoinbaseMaturity := 100;
  SubsidyReductionInterval := 150;
  TargetTimespan := 60 * Minute * 24 * 14;
  TargetTimePerBlock := Minute * 10;
  RetargetAdjustmentFactor := 4;
  ReduceMinDifficulty := true;
  MinDiffReductionTime := Minute * 20;
  Checkpoints := [];
  RuleChangeActivationThreshold := 108;
  MinerConfirmationWindow := 144;
  Deployments := [mkDeployment 28 0 MaxInt64; mkDeployment 0 0 MaxInt64; mkDeployment 1 0 MaxInt64];
  HDCoinType := 1
|}.

Definition TestNet3Params : Params := {|
  GlobalConfOf := BitcoinDefaults;
  InitialNetworkSteward := [];
  GenesisHash := newHashFromStr 0x000000000933ea01ad0ee984209779baaec3ced90fa3f408719526f8d77f4943;
  PowLimit := (1 <<< 224) - 1;
  PowLimitBits := 0x1d00ffff;
  BIP0034Height := 21111;
  BIP0065Height := 581885;
  BIP0066Height := 330776;
  CoinbaseMaturity := 100;
  SubsidyReductionInterval := 210000;
  TargetTimespan := 60 * Minute * 24 * 14;
  TargetTimePerBlock := Minute * 10;
  RetargetAdjustmentFactor := 4;
  ReduceMinDifficulty := true;
  MinDiffReductionTime := Minute * 20;
  Checkpoints := [mkCheckpoint 546 (newHashFromStr 0x000000002a936ca763904c3c35fce2f3556c559c0214345d31b1bcebf76acb70);
    mkCheckpoint 100000 (newHashFromStr 0x00000000009e2958c15ff9290d571bf9459e93b19765c6801ddeccadbb160a1e);
    mkCheckpoint 200000 (newHashFromStr 0x0000000000287bffd321963ef05feab753ebe274e1d78b2fd4e2bfe9ad3aa6f2);
    mkCheckpoint 300001 (newHashFromStr 0x0000000000004829474748f3d1bc8fcf893c88be255e6d7f571c548aff57abf4);
    mkCheckpoint 400002 (newHashFromStr 0x0000000005e2c73b8ecb82ae2dbc2e8274614ebad7172b53528aba7501f5a089);
    mkCheckpoint 500011 (newHashFromStr 0x00000000000929f63977fbac92ff570a9bd9e7715401ee96f2848f7b07750b02);
    mkCheckpoint 600002 (newHashFromStr 0x000000000001f471389afd6ee94dcace5ccc44adc18e8bff402443f034b07240);
    mkCheckpoint 700000 (newHashFromStr 0x000000000000406178b12a4dea3b27e13b3c4fe4510994fd667d7c1e6a3f4dc1);
    mkCheckpoint 800010 (newHashFromStr 0x000000000017ed35296433190b6829db01e657d80631d43f5983fa403bfdb4c1);
    mkCheckpoint 900000 (newHashFromStr 0x0000000000356f8d8924556e765b7a94aaebc6b5c8685dcfa2b1ee8b41acd89b);
    mkCheckpoint 1000007 (newHashFromStr 0x00000000001ccb893d8a1f25b70ad173ce955e5f50124261bbbc50379a612ddf);
    mkCheckpoint 1100007 (newHashFromStr 0x00000000000abc7b2cd18768ab3dee20857326a818d1946ed6796f42d66dd1e8);
    mkCheckpoint 1200007 (newHashFromStr 0x00000000000004f2dc41845771909db57e04191714ed8c963f7e56713a7b6cea);
    mkCheckpoint 1300007 (newHashFromStr 0x0000000072eab69d54df75107c052b26b0395b44f77578184293bf1bb1dbd9fa)];
  RuleChangeActivationThreshold := 1512;
  MinerConfirmationWindow := 2016;
  Deployments := [mkDeployment 28 1199145601 1230767999; mkDeployment 0 1456790400 1493596800; mkDeployment 1 1462060800 1493596800];
  HDCoinType := 1
|}.

Definition SimNetParams : Params := {|
  GlobalConfOf := BitcoinDefaults;
  InitialNetworkSteward := [];
  GenesisHash := newHashFromStr 0x683e86bd5c6d110d91b94b97137ba6bfe02dbbdb8e3dff722a669b5d69d77af6;
  PowLimit := (1 <<< 255) - 1;
  PowLimitBits := 0x207fffff;
  BIP0034Height := 0;
  BIP0065Height := 0;
  BIP0066Height := 0;
  CoinbaseMaturity := 100;
  SubsidyReductionInterval := 210000;
  TargetTimespan := 60 * Minute * 24 * 14;
  TargetTimePerBlock := Minute * 10;
  RetargetAdjustmentFactor := 4;
  ReduceMinDifficulty := true;
  MinDiffReductionTime := Minute * 20;
  Checkpoints := [];
  RuleChangeActivationThreshold := 75;
  MinerConfirmationWindow := 100;
  Deployments := [mkDeployment 28 0 MaxInt64; mkDeployment 0 0 MaxInt64; mkDeployment 1 0 MaxInt64];
  HDCoinType := 115
|}.

(** * Prefixes *)

Record NetIds : Type := mkIds {
  Net : Z;
  Bech32HRPSegwit : string;
  PubKeyHashAddrID : Z;
  ScriptHashAddrID : Z;
  PrivateKeyID : Z;
  WitnessPubKeyHashAddrID : Z;
  WitnessScriptHashAddrID : Z;
  HDPrivateKeyID : bytes;
  HDPublicKeyID : bytes
}.

Definition MainNetIds : NetIds := {|
  Net := 0xd9b4bef9;
  Bech32HRPSegwit := "bc";
  PubKeyHashAddrID := 0x00;
  ScriptHashAddrID := 0x05;
  PrivateKeyID := 0x80;
  WitnessPubKeyHashAddrID := 0x06;
  WitnessScriptHashAddrID := 0x0A;
  HDPrivateKeyID := map to_byte [0x04; 0x88; 0xad; 0xe4];
  HDPublicKeyID := map to_byte [0x04; 0x88; 0xb2; 0x1e]
|}.

Definition TestNet3Ids : NetIds := {|
  Net := 0x0709110b;
  Bech32HRPSegwit := "tb";
  PubKeyHashAddrID := 0x6f;
  ScriptHashAddrID := 0xc4;
  PrivateKeyID := 0xef;
  WitnessPubKeyHashAddrID := 0x03;
  WitnessScriptHashAddrID := 0x28;
  HDPrivateKeyID := map to_byte [0x04; 0x35; 0x83; 0x94];
  HDPublicKeyID := map to_byte [0x04; 0x35; 0x87; 0xcf]
|}.

Definition PktTestNetIds : NetIds := {|
  Net := 0x070911fc;
  Bech32HRPSegwit := "tpk";
  PubKeyHashAddrID := 0x6f;
  ScriptHashAddrID := 0xc4;
  PrivateKeyID := 0xef;
  WitnessPubKeyHashAddrID := 0x03;
  WitnessScriptHashAddrID := 0x28;
  HDPrivateKeyID := map to_byte [0x04; 0x35; 0x83; 0x94];
  HDPublicKeyID := map to_byte [0x04; 0x35; 0x87; 0xcf]
|}.

Definition PktMainNetIds : NetIds := {|
  Net := 0x082f00fc;
  Bech32HRPSegwit := "pkt";
  PubKeyHashAddrID := 0x75;
  ScriptHashAddrID := 0x38;
  PrivateKeyID := 0xe0;
  WitnessPubKeyHashAddrID := 0xa3;
  WitnessScriptHashAddrID := 0x22;
  HDPrivateKeyID := map to_byte [0x6b; 0x86; 0x3b; 0xed];
  HDPublicKeyID := map to_byte [0x6b; 0x85; 0xc5; 0x3f]
|}.

Definition RegressionNetIds : NetIds := {|
  Net := 0xdab5bffa;
  Bech32HRPSegwit := "bcrt";
  PubKeyHashAddrID := 0x6f;
  ScriptHashAddrID := 0xc4;
  PrivateKeyID := 0xef;
  WitnessPubKeyHashAddrID := 0;
  WitnessScriptHashAddrID := 0;
  HDPrivateKeyID := map to_byte [0x04; 0x35; 0x83; 0x94];
  HDPublicKeyID := map to_byte [0x04; 0x35; 0x87; 0xcf]
|}.

Definition SimNetIds : NetIds := {|
  Net := 0x12141c16;
  Bech32HRPSegwit := "sb";
  PubKeyHashAddrID := 0x3f;
  ScriptHashAddrID := 0x7b;
  PrivateKeyID := 0x64;
  WitnessPubKeyHashAddrID := 0x19;
  WitnessScriptHashAddrID := 0x28;
  HDPrivateKeyID := map to_byte [0x04; 0x20; 0xb9; 0x00];
  HDPublicKeyID := map to_byte [0x04; 0x20; 0xbd; 0x3a]
|}.

(** * The registry *)

Record Registry : Type := mkRegistry {
  registeredNets : gset Z;
  pubKeyHashAddrIDs : gset Z;
  scriptHashAddrIDs : gset Z;
  bech32SegwitPrefixes : gset string;
  hdPrivToPubKeyIDs : gmap bytes bytes
}.

Definition empty_registry : Registry := mkRegistry ∅ ∅ ∅ ∅ ∅.

Inductive neterr : Type := ErrDuplicateNet | ErrUnknownHDKeyID.

Definition Register (params : NetIds) : St neterr Registry () :=
  r ← gets id;
  if bool_decide (Net params ∈ registeredNets r) then mthrow ErrDuplicateNet else
  modify (fun _ => mkRegistry ({[Net params]} ∪ registeredNets r) ({[PubKeyHashAddrID params]} ∪ pubKeyHashAddrIDs r)
    ({[ScriptHashAddrID params]} ∪ scriptHashAddrIDs r) ({[(Bech32HRPSegwit params +:+ "1")%string]} ∪ bech32SegwitPrefixes r)
    (<[HDPrivateKeyID params := HDPublicKeyID params]> (hdPrivToPubKeyIDs r))).

(** An error ends the program. *)
Definition mustRegister (params : NetIds) : St neterr Registry () := fun r =>
  match Register params r with
  | (Throw _, r) => (Panic, r)
  | res => res
  end.

Definition IsPubKeyHashAddrID (id : Z) (r : Registry) : bool := bool_decide (id ∈ pubKeyHashAddrIDs r).
Definition IsScriptHashAddrID (id : Z) (r : Registry) : bool := bool_decide (id ∈ scriptHashAddrIDs r).

(** [strings.ToLower] on ASCII text. *)
Definition lower (c : ascii) : ascii :=
  let n := Ascii.nat_of_ascii c in if (65 <=? n)%nat && (n <=? 90)%nat then Ascii.ascii_of_nat (n + 32) else c.

Definition ToLower (s : string) : string := String.string_of_list_ascii (map lower (String.list_ascii_of_string s)).

Definition IsBech32SegwitPrefix (prefix : string) (r : Registry) : bool := bool_decide (ToLower prefix ∈ bech32SegwitPrefixes r).

Definition HDPrivateKeyToPublicKeyID (id : bytes) (r : Registry) : outcome neterr bytes :=
  if negb (len id =? 4) then mthrow ErrUnknownHDKeyID else
  match hdPrivToPubKeyIDs r !! id with
  | None => mthrow ErrUnknownHDKeyID
  | Some pubBytes => mret pubBytes
  end.

Definition default_networks : list NetIds := [MainNetIds; TestNet3Ids; PktTestNetIds; PktMainNetIds; RegressionNetIds; SimNetIds].

Definition init_networks : St neterr Registry () :=
  mustRegister MainNetIds;;
  mustRegister TestNet3Ids;;
  mustRegister PktTestNetIds;;
  mustRegister PktMainNetIds;;
  mustRegister RegressionNetIds;;
  mustRegister SimNetIds.

(** * Properties *)

(** Registering one network after the other. *)
Fixpoint register_all (nets : list NetIds) : St neterr Registry () :=
  match nets with
  | [] => mret ()
  | params :: nets' => mustRegister params;; register_all nets'
  end.

Lemma union_swap `{Countable A} (X Y Z : gset A) : X ∪ (Y ∪ Z) = Y ∪ X ∪ Z.
Proof. by rewrite (assoc_L (∪)), (comm_L (∪) X). Qed.

Lemma mustRegister_new params r : Net params ∉ registeredNets r -> exists r', mustRegister params r = (Ret (), r') /\
  registeredNets r' = {[Net params]} ∪ registeredNets r /\ pubKeyHashAddrIDs r' = {[PubKeyHashAddrID params]} ∪ pubKeyHashAddrIDs r /\
  scriptHashAddrIDs r' = {[ScriptHashAddrID params]} ∪ scriptHashAddrIDs r /\
  bech32SegwitPrefixes r' = {[(Bech32HRPSegwit params +:+ "1")%string]} ∪ bech32SegwitPrefixes r /\
  hdPrivToPubKeyIDs r' = <[HDPrivateKeyID params := HDPublicKeyID params]> (hdPrivToPubKeyIDs r).
Proof. intros Hn. unfold mustRegister, Register. rewrite bind_gets. unfold id. rewrite bool_decide_false by done. eexists. split; [done|]. repeat split. Qed.

Lemma register_all_spec nets r : NoDup (map Net nets) -> (forall p, p ∈ nets -> Net p ∉ registeredNets r) ->
  exists r', register_all nets r = (Ret (), r') /\ registeredNets r' = list_to_set (map Net nets) ∪ registeredNets r /\
    pubKeyHashAddrIDs r' = list_to_set (map PubKeyHashAddrID nets) ∪ pubKeyHashAddrIDs r /\
    scriptHashAddrIDs r' = list_to_set (map ScriptHashAddrID nets) ∪ scriptHashAddrIDs r /\
    bech32SegwitPrefixes r' = list_to_set (map (fun p => Bech32HRPSegwit p +:+ "1")%string nets) ∪ bech32SegwitPrefixes r /\
    hdPrivToPubKeyIDs r' = foldl (fun m p => <[HDPrivateKeyID p := HDPublicKeyID p]> m) (hdPrivToPubKeyIDs r) nets.
Proof.
  revert r. induction nets as [|p nets IH]; intros r Hnd Hnew; cbn [register_all map foldl].
  - exists r. split; [done|]. cbn. by rewrite !(left_id_L ∅ (∪)).
  - inversion Hnd as [|? ? Hp Hnd']; subst. destruct (mustRegister_new p r (Hnew p ltac:(left))) as (r1 & E1 & R1 & R2 & R3 & R4 & R5).
    rewrite (bind_Ret _ _ _ _ _ E1). destruct (IH r1 Hnd') as (r' & E & Q1 & Q2 & Q3 & Q4 & Q5).
    { intros q Hq. rewrite R1, not_elem_of_union, not_elem_of_singleton. split; [|apply Hnew; by right].
      intros Eq. apply Hp. rewrite <- Eq. apply list_elem_of_fmap. by exists q. }
    exists r'. split; [done|]. rewrite Q1, Q2, Q3, Q4, Q5, R1, R2, R3, R4, R5. cbn [list_to_set foldr]. by rewrite !union_swap.
Qed.

(** Networks with the same key prefix agree on the public one. *)
Definition hd_agree (nets : list NetIds) : Prop :=
  forall p q, p ∈ nets -> q ∈ nets -> HDPrivateKeyID p = HDPrivateKeyID q -> HDPublicKeyID p = HDPublicKeyID q.

Lemma hd_lookup (nets : list NetIds) (m : gmap bytes bytes) (p : NetIds) : hd_agree nets -> p ∈ nets ->
  foldl (fun m p => <[HDPrivateKeyID p := HDPublicKeyID p]> m) m nets !! HDPrivateKeyID p = Some (HDPublicKeyID p).
Proof.
  intros Ha Hp. revert m. assert (forall (l : list NetIds) (m : gmap bytes bytes), (forall q, q ∈ l -> q ∈ nets) -> m !! HDPrivateKeyID p = Some (HDPublicKeyID p) \/ p ∈ l ->
    foldl (fun m p => <[HDPrivateKeyID p := HDPublicKeyID p]> m) m l !! HDPrivateKeyID p = Some (HDPublicKeyID p)) as H by (induction l as [|q l IH]; intros m Hl Hm;
      cbn [foldl]; [destruct Hm as [Hm|Hm%elem_of_nil]; done|]; apply IH; [intros; apply Hl; by right|];
      destruct (decide (HDPrivateKeyID q = HDPrivateKeyID p)) as [E|E];
      [left; rewrite E, lookup_insert_eq; f_equal; apply Ha; [apply Hl; left|done|done]
      |destruct Hm as [Hm|[->|Hm]%elem_of_cons]; [left; by rewrite lookup_insert_ne|done|by right]]).
  intros m. apply H; [done|by right].
Qed.

(** The registry of networks.  Networks with different magic numbers register without
    an error; afterwards the prefixes of pay-to-pubkey-hash and pay-to-script-hash
    addresses and of segwit addresses that are known are those of the registered networks,
    and the prefix of an extended private key gives the prefix of the public key of its
    network, when networks that share the one share the other. *)
Theorem registry (nets : list NetIds) (Hnd : NoDup (map Net nets)) (Hhd : hd_agree nets) (Hlen : forall p, p ∈ nets -> len (HDPrivateKeyID p) = 4) :
  exists r, register_all nets empty_registry = (Ret (), r) /\
    (forall id, IsPubKeyHashAddrID id r = true <-> exists p, p ∈ nets /\ PubKeyHashAddrID p = id) /\
    (forall id, IsScriptHashAddrID id r = true <-> exists p, p ∈ nets /\ ScriptHashAddrID p = id) /\
    (forall s, IsBech32SegwitPrefix s r = true <-> exists p, p ∈ nets /\ (Bech32HRPSegwit p +:+ "1")%string = ToLower s) /\
    (forall p, p ∈ nets -> HDPrivateKeyToPublicKeyID (HDPrivateKeyID p) r = Ret (HDPublicKeyID p)) /\
    (forall p, p ∈ nets -> fst (Register p r) = Throw ErrDuplicateNet).
Proof.
  destruct (register_all_spec nets empty_registry Hnd) as (r & E & R1 & R2 & R3 & R4 & R5); [cbn; set_solver|].
  exists r. split; [done|]. unfold IsPubKeyHashAddrID, IsScriptHashAddrID, IsBech32SegwitPrefix. rewrite R2, R3, R4. cbn.
  split; [|split; [|split; [|split]]].
  1-3: intros x; rewrite bool_decide_eq_true, (right_id_L ∅ (∪)), elem_of_list_to_set, list_elem_of_fmap; split; intros (p & H1 & H2); exists p; by split.
  - intros p Hp. unfold HDPrivateKeyToPublicKeyID. rewrite Hlen by done. cbn [negb Z.eqb Pos.eqb]. by rewrite R5, hd_lookup.
  - intros p Hp. unfold Register. rewrite bind_gets. unfold id. rewrite bool_decide_true; [done|]. rewrite R1. apply elem_of_union_l, elem_of_list_to_set, list_elem_of_fmap. by exists p.
Qed.

(** The default networks. *)
Lemma registry_witness : exists r, init_networks empty_registry = (Ret (), r) /\ IsPubKeyHashAddrID 0x75 r = true /\
  (forall p, p ∈ default_networks -> HDPrivateKeyToPublicKeyID (HDPrivateKeyID p) r = Ret (HDPublicKeyID p)).
Proof.
  destruct (registry default_networks) as (r & E & H1 & _ & _ & H4 & _).
  - apply (bool_decide_unpack _). vm_compute. exact I.
  - intros p q Hp Hq. apply list_elem_of_In in Hp, Hq. cbn [In default_networks] in Hp, Hq.
    destruct Hp as [<-|[<-|[<-|[<-|[<-|[<-|[]]]]]]], Hq as [<-|[<-|[<-|[<-|[<-|[<-|[]]]]]]]; vm_compute; congruence.
  - intros p Hp. apply list_elem_of_In in Hp. cbn [In default_networks] in Hp. destruct Hp as [<-|[<-|[<-|[<-|[<-|[<-|[]]]]]]]; vm_compute; reflexivity.
  - exists r. split; [exact E|]. split; [|exact H4]. apply H1. exists PktMainNetIds. split; [apply list_elem_of_In; cbn; tauto|reflexivity].
Defined.

Fixpoint ascending (l : list Checkpoint) : bool :=
  match l with
  | c :: (c' :: _) as l' => (cp_Height c <? cp_Height c') && ascending l'
  | _ => true
  end.

(** What the rules rely on: the limit has its compact form, a window has 2016 blocks, the checkpoints ascend and the deployments have a bit. *)
Definition consistent (p : Params) : bool :=
  (BigToCompact (PowLimit p) =? PowLimitBits p) && (TargetTimespan p / TargetTimePerBlock p =? 2016) && ascending (Checkpoints p) &&
  (RuleChangeActivationThreshold p <=? MinerConfirmationWindow p) && forallb (fun d => BitNumber d <? 29) (Deployments p).

Lemma networks_consistent : forallb consistent [MainNetParams; RegressionNetParams; TestNet3Params; SimNetParams; PktMainNetParams] = true.
Proof. vm_compute. reflexivity. Qed.
