(* ===== verification/InitChain.v ===== *)
(** Starting the chain (src/blockchain/chainio.go): [createChainState] sets up a new
    database with the genesis block, and [initChainState] rebuilds the block index, the
    view of the best chain and the snapshot from the database.

    [ChainDb] has the buckets of a database that is set up: the creation of the buckets
    and the version numbers are not represented, and neither is the migration of a
    database of an old version (src/blockchain/upgrade.go), which has no block index. *)

From stdpp Require Import gmap sorting.
From S2P Require Import Prelude Sha Wire MsgTx SigHash ChainParams Block MoneySupply Compress RuleErr TxRules Merkle Difficulty BlockIndex ThresholdState ChainIO UtxoView Election Validate ChainState Connect Orphans ChainOps Genesis.

(** * The order of a cursor *)

(** Keys are compared byte by byte. *)
Fixpoint key_leb (a b : bytes) : bool :=
  match a, b with
  | [], _ => true
  | _ :: _, [] => false
  | x :: a', y :: b' => if u8 x =? u8 y then key_leb a' b' else u8 x <? u8 y
  end.

Definition row_le (r s : bytes * bytes) : Prop := key_leb r.1 s.1 = true.

#[global] Instance row_le_dec : RelDecision row_le.
Proof. intros r s. unfold row_le. apply _. Defined.

Definition cursor_rows (bucket : Bucket) : list (bytes * bytes) := merge_sort row_le (map_to_list bucket).

(** * The start *)

Definition io_err {A} (m : outcome chainioerr A) : outcome ruleerr A :=
  match m with Ret a => Ret a | Throw _ => Throw OtherError | Panic => Panic end.

(** [node.status = status] and [addNode], which does not make the node dirty. *)
Definition load_node (node : blockNode) (status : Z) (bi : blockIndex) : blockIndex :=
  addNode node (mkIndex (bi_index bi) (<[n_hash node := status]> (bi_status bi)) (bi_dirty bi)).

Section start.
Context `{GlobalConf} (chainParams : Params) (reg : blockReg).

Definition createChainState : BC () :=
  mBlock ← lift (or_panic (genesis_Block (GenesisHash chainParams) reg));
  let genesisBlock := mkBtcBlock mBlock 0 in
  let node := newBlockNode (mb_Header mBlock) None in
  let status := statusDataStored ||| statusValid in
  set_tip (Some node);;
  modify (fun b => set_index (load_node node status (bc_index b)) b);;
  let esState := mkElection (InitialNetworkSteward chainParams) 0 in
  let numTxns := len (mb_Transactions mBlock) in
  let snapshot := newBestState node (uint64 (MsgBlock_SerializeSize mBlock)) (uint64 (GetBlockWeight mBlock)) numTxns numTxns (n_timestamp node) esState in
  modify (set_snapshot snapshot);;
  Update (fun db =>
    let db := dbStoreBlockNode node status db in
    let db := dbPutBlockIndex (n_hash node) (height node) db in
    let db := dbPutBestState snapshot (workSum node) db in
    let db := dbPutElectionState node esState db in
    dbStoreBlock genesisBlock db).

(** The parent of the block of a row: none for the first row, which is the genesis block. *)
Definition row_parent (header : BlockHeader) (lastNode : option blockNode) (bi : blockIndex) : outcome ruleerr (option blockNode) :=
  match lastNode with
  | None => if negb (bytes_eqb (BlockHash header) (GenesisHash chainParams)) then mthrow OtherError else mret None
  | Some last =>
    if bytes_eqb (bh_PrevBlock header) (n_hash last) then mret (Some last) else
    match LookupNode bi (bh_PrevBlock header) with
    | None => mthrow OtherError
    | Some parent => mret (Some parent)
    end
  end.

Fixpoint load_rows (rows : list bytes) (lastNode : option blockNode) : BC () :=
  match rows with
  | [] => mret ()
  | value :: rows' =>
    '(header, status) ← lift (deserializeBlockRow value);
    bi ← gets bc_index;
    parent ← lift (row_parent header lastNode bi);
    let node := newBlockNode header parent in
    modify (fun b => set_index (load_node node status (bc_index b)) b);;
    load_rows rows' (Some node)
  end.

(** [for iterNode := tip; iterNode != nil; iterNode = iterNode.parent]. *)
Fixpoint mark_valid (iterNode : blockNode) (bi : blockIndex) : blockIndex :=
  let bi := if KnownValid (NodeStatus bi iterNode) then bi else SetStatusFlags iterNode statusValid bi in
  match parent iterNode with
  | None => bi
  | Some p => mark_valid p bi
  end.

Definition load_chain (serializedData : bytes) : BC () :=
  state ← lift (io_err (deserializeBestChainState serializedData));
  db ← gets bc_db;
  load_rows (cursor_rows (db_blockIndex db)).*2 None;;
  bi ← gets bc_index;
  match LookupNode bi (bc_hash state) with
  | None => mthrow OtherError
  | Some tip =>
    set_tip (Some tip);;
    match db_blocks db !! bc_hash state with
    | None => mthrow OtherError
    | Some blockBytes =>
      block ← lift (wire_err (fst (MsgBlock_Deserialize (mkBlock (mkHeader 0 zeroHash zeroHash 0 0 0) None []) blockBytes)));
      modify (fun b => set_index (mark_valid tip (bc_index b)) b);;
      esState ← lift (dbFetchElectionStateByNode tip db);
      medianTime ← lift (CalcPastMedianTime tip);
      modify (set_snapshot (newBestState tip (len blockBytes) (uint64 (GetBlockWeight block)) (len (mb_Transactions block)) (bc_totalTxns state) medianTime esState))
    end
  end.

Definition initChainState : BC () :=
  db ← gets bc_db;
  match db_chainState db with
  | None => createChainState
  | Some serializedData => load_chain serializedData;; flushToDB
  end.
End start.
