(* ===== verification/Restart.v ===== *)
(** Correctness of the start: the rows of the block index are read back in an order in
    which a block comes after its parent, so that the index that is rebuilt is the one
    that was stored, and a restarted chain is the chain that was stopped. *)

From stdpp Require Import gmap sorting.
From S2P Require Import Prelude TxScriptErr Params Opcode Sha Wire MsgTx SigHash Btcec BtcecProps SigCache Engine Execute EngineProps ChainParams Block BlockProps MoneySupply Compress RuleErr TxRules Merkle Difficulty BlockIndex ChainView ThresholdState ChainIO ChainIOProps UtxoView UtxoProps UtxoSet Election ElectionProps Validate ChainState Connect Supply Orphans ChainOps Frame Violations BestChain Reorganize Networks Genesis InitChain.

Lemma len_BlockHash h : len (BlockHash h) = 32.
Proof. apply len_DoubleHashB. Qed.

#[local] Opaque b_Hash TxHash BlockHash.

(** * Keys *)

Lemma key_leb_refl a : key_leb a a = true.
Proof. induction a as [|x a IH]; [done|]. cbn. by rewrite Z.eqb_refl. Qed.

Lemma key_leb_total a b : key_leb a b = true \/ key_leb b a = true.
Proof.
  revert b. induction a as [|x a IH]; intros [|y b]; cbn; [by left|by left|by right|].
  destruct (Z.eqb_spec (u8 x) (u8 y)), (Z.eqb_spec (u8 y) (u8 x)); [apply IH|lia|lia|]. destruct (Z.ltb_spec (u8 x) (u8 y)), (Z.ltb_spec (u8 y) (u8 x)); by (lia || (by left) || (by right)).
Qed.

Lemma key_leb_trans a b c : key_leb a b = true -> key_leb b c = true -> key_leb a c = true.
Proof.
  revert b c. induction a as [|x a IH]; intros [|y b] [|z c]; cbn; try done.
  destruct (Z.eqb_spec (u8 x) (u8 y)) as [E1|E1], (Z.eqb_spec (u8 y) (u8 z)) as [E2|E2], (Z.eqb_spec (u8 x) (u8 z)) as [E3|E3]; try lia; [apply IH|..]; rewrite ?Z.ltb_lt; lia.
Qed.

#[global] Instance row_le_total : Total row_le.
Proof. intros r s. apply key_leb_total. Qed.
#[global] Instance row_le_trans : Transitive row_le.
Proof. intros r s q. apply key_leb_trans. Qed.

(** The order of keys is first the order of the numbers that their beginnings spell. *)
Lemma key_leb_prefix a b c d : length a = length b -> key_leb (a ++ c) (b ++ d) = true -> be_combine a <= be_combine b.
Proof.
  revert b. induction a as [|x a IH]; intros [|y b]; cbn [length app key_leb]; intros Hl Hk; [done|done|done|]. injection Hl as Hl. rewrite !be_combine_cons.
  assert (len a = len b) as El by (unfold len; lia). pose proof (be_combine_range a) as Ra. pose proof (be_combine_range b) as Rb. rewrite El in *.
  destruct (Z.eqb_spec (u8 x) (u8 y)) as [E|E]; [specialize (IH b Hl Hk); rewrite E; lia|]. apply Z.ltb_lt in Hk. nia.
Qed.

Definition row_key (n : blockNode) : bytes := blockIndexKey (n_hash n) (uint32 (height n)).

Lemma row_key_height n m : node_wf n -> node_wf m -> key_leb (row_key n) (row_key m) = true -> height n <= height m.
Proof.
  intros Hn%height_nonneg Hm%height_nonneg. unfold row_key, blockIndexKey, uint32, uwrap. rewrite !Z.mod_small by lia. intros Hk.
  apply key_leb_prefix in Hk; [|pose proof (len_be_split 4 (height n)); pose proof (len_be_split 4 (height m)); unfold len in *; lia].
  by rewrite !be_combine_split in Hk by (change (256 ^ Z.of_nat 4) with (2 ^ 32); lia).
Qed.

Lemma row_key_inj n m : len (n_hash n) = 32 -> len (n_hash m) = 32 -> row_key n = row_key m -> n_hash n = n_hash m.
Proof.
  intros Hn Hm E. unfold row_key, blockIndexKey in E. apply app_inj_1 in E as [_ E];
    [|pose proof (len_be_split 4 (uint32 (height n))); pose proof (len_be_split 4 (uint32 (height m))); unfold len in *; lia].
  unfold len in *. by rewrite !take_app_length' in E by lia.
Qed.

(** * The tree of blocks *)

(** The nodes are made from headers on top of a node of the tree; the genesis block is the only root. *)
Record tree (genesisHash : bytes) (I : gmap bytes blockNode) : Prop := {
  tr_keyed : forall h n, I !! h = Some n -> n_hash n = h;
  tr_made : forall h n, I !! h = Some n -> newBlockNode (node_Header n) (parent n) = n /\ header_wf (node_Header n) /\ node_wf n;
  tr_parent : forall h n p, I !! h = Some n -> parent n = Some p -> I !! n_hash p = Some p;
  tr_root : forall h n, I !! h = Some n -> parent n = None -> n_hash n = genesisHash
}.

Definition status_ok (I : gmap bytes blockNode) (st : blockNode -> Z) : Prop := forall n, I !! n_hash n = Some n -> 0 <= st n < 256.

(** The rows of the nodes that are not dirty are those of the nodes with their status; every row is the row of a node. *)
Record stored (I : gmap bytes blockNode) (st : blockNode -> Z) (dirty : gset bytes) (rows : Bucket) : Prop := {
  so_row : forall h n, I !! h = Some n -> h ∉ dirty -> rows !! row_key n = Some (row_of n (st n));
  so_only : forall k v, rows !! k = Some v -> exists h n, I !! h = Some n /\ k = row_key n;
  so_dirty : forall h, h ∈ dirty -> is_Some (I !! h)
}.

Lemma row_roundtrip n s : header_wf (node_Header n) -> 0 <= s < 256 -> deserializeBlockRow (row_of n s) = Ret (node_Header n, s).
Proof.
  intros Hh Hs. unfold deserializeBlockRow, row_of, buffer_of. rewrite (writes_header (node_Header n)). cbn [snd app].
  rewrite (reads_header _ Hh). by rewrite u8_to_byte.
Qed.

Section load.
Context (chainParams : Params) (I : gmap bytes blockNode) (st : blockNode -> Z).
Context (Htree : tree (GenesisHash chainParams) I) (Hst : status_ok I st).

Definition node_in (n : blockNode) : Prop := I !! n_hash n = Some n.

Lemma hash_inj n m : node_in n -> node_in m -> n_hash n = n_hash m -> n = m.
Proof using. unfold node_in. intros Hn Hm E. rewrite E, Hm in Hn. congruence. Qed.

Definition row (n : blockNode) : bytes * bytes := (row_key n, row_of n (st n)).

(** The rows in the order of the cursor. *)
Lemma rows_nodes rows : stored I st ∅ rows -> exists N, cursor_rows rows = map row N /\ (forall n, n ∈ N <-> node_in n) /\ StronglySorted row_le (map row N) /\ NoDup N.
Proof using Htree.
  intros [Hrow Honly _]. assert (forall l, (forall r, r ∈ l -> r ∈ map_to_list rows) -> exists N, l = map row N /\ forall n, n ∈ N -> node_in n) as Hl.
  { induction l as [|[k v] l IH]; intros Hin; [exists []; split; [done|intros n Hn; by apply elem_of_nil in Hn]|].
    destruct IH as (N & -> & HN); [intros r Hr; apply Hin; by right|]. specialize (Hin (k, v) ltac:(left)). apply elem_of_map_to_list in Hin.
    destruct (Honly k v Hin) as (h & n & Hn & ->). rewrite (Hrow h n Hn (not_elem_of_empty h)) in Hin. injection Hin as <-.
    exists (n :: N). split; [done|]. intros m [->|Hm]%elem_of_cons; [|by apply HN]. unfold node_in. by rewrite (tr_keyed _ _ Htree h n Hn). }
  unfold cursor_rows. pose proof (merge_sort_Permutation row_le (map_to_list rows)) as Hp.
  destruct (Hl (merge_sort row_le (map_to_list rows))) as (N & E & HN); [intros r; by rewrite Hp|]. exists N. split; [done|].
  split; [|split; [rewrite <- E; apply StronglySorted_merge_sort; apply _|]].
  2:{ apply (NoDup_fmap_1 row). change (row <$> N) with (map row N). rewrite <- E, Hp. apply NoDup_map_to_list. }
  intros n. split; [apply HN|]. intros Hn.
  assert (row n ∈ map row N) as Hr by (rewrite <- E, Hp; apply elem_of_map_to_list, (Hrow _ _ Hn), not_elem_of_empty).
  apply list_elem_of_fmap in Hr as (m & Em & Hm). pose proof (f_equal fst Em) as Ek. cbn [fst row] in Ek.
  assert (forall x, node_in x -> len (n_hash x) = 32) as H32.
  { intros x Hx. destruct (tr_made _ _ Htree _ _ Hx) as (Ex & _). rewrite <- Ex. apply len_BlockHash. }
  apply row_key_inj in Ek; [|by apply H32|by apply H32, HN]. by rewrite (hash_inj n m Hn (HN m Hm) Ek).
Qed.
(** The index holds the nodes of [P] with their status. *)
Record loaded (P : list blockNode) (bi : blockIndex) : Prop := {
  lo_index : forall h m, bi_index bi !! h = Some m <-> m ∈ P /\ n_hash m = h;
  lo_status : forall m, m ∈ P -> NodeStatus bi m = st m;
  lo_dirty : bi_dirty bi = ∅
}.

Lemma load_node_loaded P bi n : (forall m, m ∈ P ++ [n] -> node_in m) -> loaded P bi -> loaded (P ++ [n]) (load_node n (st n) bi).
Proof using.
  intros HP [Hi Hs Hd]. assert (forall m, m ∈ P ++ [n] -> n_hash m = n_hash n -> m = n) as Hinj.
  { intros m Hm. apply hash_inj; apply HP; [done|]. apply elem_of_app. right. apply list_elem_of_here. }
  split; [| |done].
  - intros h m. cbn. destruct (decide (n_hash n = h)) as [<-|Hne].
    + rewrite lookup_insert_eq. split; [intros [= <-]; split; [apply elem_of_app; right; apply list_elem_of_here|done]|]. intros [Hm E]. by rewrite (Hinj m Hm E).
    + rewrite lookup_insert_ne, Hi, elem_of_app, list_elem_of_singleton by done. split; [intros []; by split; [left|]|]. intros [[Hm| ->] E]; [done|congruence].
  - intros m Hm. unfold NodeStatus. cbn. destruct (decide (n_hash n = n_hash m)) as [E|Hne].
    + rewrite E, lookup_insert_eq. by rewrite (Hinj m Hm).
    + rewrite lookup_insert_ne by done. apply elem_of_app in Hm as [Hm|Hm%list_elem_of_singleton]; [by apply Hs|congruence].
Qed.

(** A parent comes before its block. *)
Lemma parent_before P n R p : StronglySorted row_le (map row (P ++ n :: R)) -> (forall m, m ∈ P ++ n :: R <-> node_in m) -> parent n = Some p -> p ∈ P.
Proof using Htree.
  intros Hso Hin Hp. assert (node_in n) as Hn by (apply Hin, elem_of_app; right; left). pose proof (tr_parent _ _ Htree _ _ _ Hn Hp) as Hpi.
  destruct (tr_made _ _ Htree _ _ Hn) as (_ & _ & Hwf). apply node_wf_step in Hwf as Hwf'. rewrite Hp in Hwf'. destruct Hwf' as (_ & Hh & Hwp).
  apply Hin in Hpi. apply elem_of_app in Hpi as [?|Hpi]; [done|]. exfalso. rewrite map_app in Hso. apply StronglySorted_app_1_r in Hso. cbn [map] in Hso.
  apply StronglySorted_inv in Hso as [_ Hall]. apply elem_of_cons in Hpi as [->|Hpi]; [lia|]. rewrite List.Forall_forall in Hall.
  specialize (Hall (row p)). unfold row_le in Hall. cbn [fst row] in Hall. apply row_key_height in Hall; [lia|done|done|]. apply in_map, list_elem_of_In, Hpi.
Qed.

Lemma row_parent_spec P n R bi : NoDup (P ++ n :: R) -> StronglySorted row_le (map row (P ++ n :: R)) -> (forall m, m ∈ P ++ n :: R <-> node_in m) -> loaded P bi ->
  row_parent chainParams (node_Header n) (list.last P) bi = Ret (parent n).
Proof using Htree.
  intros Hnd Hso Hin Hl. assert (node_in n) as Hn by (apply Hin, elem_of_app; right; left). destruct (tr_made _ _ Htree _ _ Hn) as (Emade & _ & Hwf). unfold row_parent.
  destruct (parent n) as [p|] eqn:Hp.
  - pose proof (parent_before P n R p Hso Hin Hp) as HpP. destruct (list.last P) as [l|] eqn:El; [|by apply list.last_None in El as ->; apply elem_of_nil in HpP].
    assert (l ∈ P) as HlP by (by eapply list.last_Some_elem_of). unfold node_Header. rewrite Hp. cbn [bh_PrevBlock]. destruct (bytes_eqb (n_hash p) (n_hash l)) eqn:E.
    + apply bytes_eqb_eq in E. rewrite (hash_inj p l); [done| | |done]; apply Hin, elem_of_app; by left.
    + unfold LookupNode. by rewrite (proj2 (lo_index _ _ Hl (n_hash p) p) (conj HpP eq_refl)).
  - destruct (list.last P) as [l|] eqn:El.
    + exfalso. assert (l ∈ P) as HlP by (by eapply list.last_Some_elem_of). assert (node_in l) as Hnl by (apply Hin, elem_of_app; by left).
      destruct (tr_made _ _ Htree _ _ Hnl) as (_ & _ & Hwl). apply node_wf_step in Hwf as Hwf'. rewrite Hp in Hwf'. destruct Hwf' as [_ Hh0].
      assert (height l <= height n) as Hle.
      { apply row_key_height; [done..|]. apply (StronglySorted_app_1_elem_of row_le (map row P) (map row (n :: R)) (row l) (row n)).
        - by rewrite <- map_app.
        - by apply list_elem_of_fmap_2.
        - left. }
      apply node_wf_step in Hwl as Hwl'. pose proof (height_nonneg l Hwl). destruct (parent l) as [q|] eqn:Hq; [destruct Hwl' as (_ & Hh & Hwq); pose proof (height_nonneg q Hwq); lia|].
      assert (l = n) as -> by (apply hash_inj; [done..|]; by rewrite (tr_root _ _ Htree _ _ Hnl Hq), (tr_root _ _ Htree _ _ Hn Hp)).
      apply list.NoDup_app in Hnd as (_ & Hnd & _). by apply (Hnd n HlP); left.
    + rewrite <- (tr_root _ _ Htree _ _ Hn Hp). rewrite <- Emade at 2. cbn [n_hash newBlockNode]. by rewrite bytes_eqb_refl.
Qed.
Lemma load_rows_spec P R b : NoDup (P ++ R) -> StronglySorted row_le (map row (P ++ R)) -> (forall m, m ∈ P ++ R <-> node_in m) -> loaded P (bc_index b) ->
  exists bi, load_rows chainParams (map row R).*2 (list.last P) b = (Ret (), set_index bi b) /\ loaded (P ++ R) bi.
Proof using Htree Hst.
  revert P b. induction R as [|n R IH]; intros P b Hnd Hso Hin Hl.
  - exists (bc_index b). rewrite app_nil_r. split; [|done]. by destruct b.
  - cbn [map fmap list_fmap load_rows]. assert (node_in n) as Hn by (apply Hin, elem_of_app; right; left).
    destruct (tr_made _ _ Htree _ _ Hn) as (Emade & Hh & _). change ((row n).2) with (row_of n (st n)). rewrite row_roundtrip by (try done; by apply Hst). rewrite bind_lift_Ret. cbv beta iota.
    rewrite bind_gets, (row_parent_spec P n R) by done. rewrite bind_lift_Ret, Emade.
    rewrite (bind_Ret _ _ _ () (set_index (load_node n (st n) (bc_index b)) b)) by done.
    assert (P ++ n :: R = (P ++ [n]) ++ R) as Eapp by (by rewrite <- app_assoc). rewrite Eapp in *.
    destruct (IH (P ++ [n]) (set_index (load_node n (st n) (bc_index b)) b)) as (bi & E & Hbi); [done..| |].
    + apply load_node_loaded; [|done]. intros m Hm. apply Hin, elem_of_app. by left.
    + exists bi. rewrite list.last_snoc in E. split; [by rewrite E|done].
Qed.

Lemma load_all rows b : stored I st ∅ rows -> bc_index b = newBlockIndex ->
  exists bi, load_rows chainParams (cursor_rows rows).*2 None b = (Ret (), set_index bi b) /\
    bi_index bi = I /\ bi_dirty bi = ∅ /\ forall n, node_in n -> NodeStatus bi n = st n.
Proof using Htree Hst.
  intros Hs Hb. destruct (rows_nodes rows Hs) as (N & -> & Hin & Hso & Hnd). destruct (load_rows_spec [] N b) as (bi & E & [Hi Hstatus Hd]); [done..| |].
  - rewrite Hb. split; [|intros m Hm; by apply elem_of_nil in Hm|done]. intros h m. cbn. rewrite lookup_empty. split; [done|]. intros [Hm _]. by apply elem_of_nil in Hm.
  - exists bi. split; [done|]. split; [|split; [done|intros n Hn; by apply Hstatus, Hin]]. apply map_eq. intros h. apply option_eq. intros m.
    rewrite Hi. cbn [app]. rewrite Hin. unfold node_in. split; [by intros [Hm <-]|]. intros Hm. by rewrite (tr_keyed _ _ Htree h m Hm).
Qed.

End load.

(** * Rows and the index *)

(** The index is a tree, and the database has the rows of the nodes that are not dirty. *)
Record durable (genesisHash : bytes) (bi : blockIndex) (rows : Bucket) : Prop := {
  du_tree : tree genesisHash (bi_index bi);
  du_status : status_ok (bi_index bi) (NodeStatus bi);
  du_rows : stored (bi_index bi) (NodeStatus bi) (bi_dirty bi) rows
}.

Lemma lor_byte x y : 0 <= x < 256 -> 0 <= y < 256 -> 0 <= x ||| y < 256.
Proof.
  intros Hx Hy. assert (0 <= x ||| y) by (apply Z.lor_nonneg; lia). split; [done|]. destruct (Z.eq_dec (x ||| y) 0) as [E|E]; [lia|].
  apply (Z.log2_lt_pow2 _ 8); [lia|]. rewrite Z.log2_lor by lia. apply Z.max_lub_lt; [destruct (Z.eq_dec x 0) as [->|]|destruct (Z.eq_dec y 0) as [->|]];
    (done || (apply (Z.log2_lt_pow2 _ 8); lia)).
Qed.

Lemma SetStatusFlags_status n flags bi m :
  NodeStatus (SetStatusFlags n flags bi) m = if decide (n_hash m = n_hash n) then NodeStatus bi n ||| flags else NodeStatus bi m.
Proof. unfold NodeStatus. cbn. destruct (decide (n_hash m = n_hash n)) as [->|]; [by rewrite lookup_insert_eq|by rewrite lookup_insert_ne by congruence]. Qed.

Section durable.
Context (genesisHash : bytes).

(** A status that changes makes the node dirty. *)
Lemma durable_flags n flags bi rows : durable genesisHash bi rows -> bi_index bi !! n_hash n = Some n -> 0 <= flags < 256 ->
  durable genesisHash (SetStatusFlags n flags bi) rows.
Proof.
  intros [Ht Hs [H1 H2 H3]] Hn Hf. split; [done| |split].
  - intros m Hm. rewrite SetStatusFlags_status. destruct (decide _); [apply lor_byte; [by apply Hs|done]|by apply Hs].
  - intros h m Hm Hd. cbn in Hm, Hd. rewrite SetStatusFlags_status. rewrite not_elem_of_union, not_elem_of_singleton in Hd. destruct Hd as [Hne Hd].
    destruct (decide _) as [E|_]; [|by apply (H1 h)]. by rewrite (tr_keyed _ _ Ht h m Hm) in E.
  - done.
  - cbn. intros h [->%elem_of_singleton|Hd]%elem_of_union; [by exists n|by apply H3].
Qed.

(** A new node is dirty. *)
Lemma durable_add n status bi rows : durable genesisHash bi rows -> bi_index bi !! n_hash n = None -> 0 <= status < 256 ->
  newBlockNode (node_Header n) (parent n) = n -> header_wf (node_Header n) -> node_wf n ->
  (forall p, parent n = Some p -> bi_index bi !! n_hash p = Some p) -> (parent n = None -> n_hash n = genesisHash) ->
  durable genesisHash (store_node n status bi) rows.
Proof.
  intros [Ht Hs [H1 H2 H3]] Hn Hst Em Hh Hwf Hp Hr. split; [|intros m Hm|].
  - change (bi_index (store_node n status bi)) with (<[n_hash n := n]> (bi_index bi)). split; intros h m; [| |intros p|]; rewrite lookup_insert_Some.
    + intros [[<- <-]|[_ Hm]]; [done|by apply (tr_keyed _ _ Ht)].
    + intros [[<- <-]|[_ Hm]]; [done|by apply (tr_made _ _ Ht h)].
    + intros Hm Hpm. assert (bi_index bi !! n_hash p = Some p) as Hpi by (destruct Hm as [[<- <-]|[_ Hm]]; [by apply Hp|by apply (tr_parent _ _ Ht h m)]).
      rewrite lookup_insert_ne; [done|]. intros E. by rewrite E, Hpi in Hn.
    + intros [[<- <-]|[_ Hm]]; [done|by apply (tr_root _ _ Ht h)].
  - cbn in Hm. unfold NodeStatus. cbn. destruct (decide (n_hash n = n_hash m)) as [->|]; [by rewrite lookup_insert_eq|].
    rewrite lookup_insert_ne in Hm by done. rewrite lookup_insert_ne by done. by apply Hs.
  - split.
    + intros h m. cbn. rewrite lookup_insert_Some, not_elem_of_union, not_elem_of_singleton. intros [[<- <-]|[Hne Hm]] [Hd1 Hd]; [done|].
      unfold NodeStatus. cbn. rewrite (tr_keyed _ _ Ht h m Hm), lookup_insert_ne by done. rewrite (H1 h m Hm Hd). unfold NodeStatus. by rewrite (tr_keyed _ _ Ht h m Hm).
    + intros k v Hk. destruct (H2 k v Hk) as (h & m & Hm & ->). exists h, m. split; [|done]. cbn. rewrite lookup_insert_ne; [done|]. intros <-. congruence.
    + cbn. intros h [->%elem_of_singleton|Hd]%elem_of_union; [rewrite lookup_insert_eq; by eexists|]. destruct (H3 h Hd) as [m Hm]. destruct (decide (n_hash n = h)) as [<-|]; [congruence|].
      rewrite lookup_insert_ne by done. by exists m.
Qed.

Lemma tree_hash_len I n h : tree genesisHash I -> I !! h = Some n -> len (n_hash n) = 32.
Proof. intros Ht Hn. destruct (tr_made _ _ Ht _ _ Hn) as (<- & _). apply len_BlockHash. Qed.

(** Storing the row of a node makes it clean. *)
Lemma stored_row I st dirty rows h n : tree genesisHash I -> stored I st dirty rows -> I !! h = Some n ->
  stored I st (dirty ∖ {[h]}) (<[row_key n := row_of n (st n)]> rows).
Proof.
  intros Ht [H1 H2 H3] Hn. split.
  - intros h' m Hm Hd. destruct (decide (row_key n = row_key m)) as [E|Hne].
    + apply row_key_inj in E as E'; [|by eapply tree_hash_len..]. rewrite (tr_keyed _ _ Ht h n Hn), (tr_keyed _ _ Ht h' m Hm) in E'. subst h'.
      rewrite Hn in Hm. injection Hm as <-. apply lookup_insert_eq.
    + rewrite lookup_insert_ne by done. apply (H1 h'); [done|]. intros Hin. apply Hd. apply elem_of_difference. split; [done|].
      rewrite elem_of_singleton. intros ->. rewrite Hn in Hm. injection Hm as <-. done.
  - intros k v [[<- _]|[_ Hk]]%lookup_insert_Some; [by exists h, n|by apply (H2 k v)].
  - intros h' [Hd _]%elem_of_difference. by apply H3.
Qed.

Lemma flush_fold bi l db dirty : tree genesisHash (bi_index bi) -> stored (bi_index bi) (NodeStatus bi) dirty (db_blockIndex db) -> (forall h, h ∈ l -> is_Some (bi_index bi !! h)) ->
  stored (bi_index bi) (NodeStatus bi) (dirty ∖ list_to_set l)
    (db_blockIndex (foldl (fun db hash => match LookupNode bi hash with Some node => dbStoreBlockNode node (NodeStatus bi node) db | None => db end) db l)).
Proof.
  intros Ht. revert db dirty. induction l as [|h l IH]; intros db dirty Hs Hl; cbn [foldl list_to_set foldr].
  - by rewrite difference_empty_L.
  - destruct (Hl h ltac:(left)) as [n Hn]. unfold LookupNode at 2. rewrite Hn. rewrite <- difference_difference_l_L. apply IH; [|intros x Hx; apply Hl; by right].
    by apply (stored_row _ _ _ _ h n).
Qed.

(** A flush makes every node clean. *)
Lemma flushToDB_durable b : durable genesisHash (bc_index b) (db_blockIndex (bc_db b)) -> exists b', flushToDB b = (Ret (), b') /\
  durable genesisHash (bc_index b') (db_blockIndex (bc_db b')) /\ bi_dirty (bc_index b') = ∅ /\ bi_index (bc_index b') = bi_index (bc_index b) /\
  bi_status (bc_index b') = bi_status (bc_index b) /\ core b' = core b.
Proof.
  intros Hd. unfold flushToDB. rewrite bind_gets. destruct (len (elements (bi_dirty (bc_index b))) =? 0) eqn:E0.
  - exists b. apply Z.eqb_eq in E0. unfold len in E0. assert (bi_dirty (bc_index b) = ∅) as E by (apply leibniz_equiv, elements_empty_inv, nil_length_inv; lia). done.
  - set (db' := foldl (fun db hash => match LookupNode (bc_index b) hash with Some node => dbStoreBlockNode node (NodeStatus (bc_index b) node) db | None => db end)
      (bc_db b) (elements (bi_dirty (bc_index b)))). exists (set_index (mkIndex (bi_index (bc_index b)) (bi_status (bc_index b)) ∅) (set_db db' b)).
    destruct Hd as [Ht Hs Hr]. split; [done|]. pose proof (flush_fold (bc_index b) (elements (bi_dirty (bc_index b))) (bc_db b) _ Ht Hr) as Hf.
    split; [|split; [done|split; [done|split; [done|]]]].
    + split; [done|done|]. cbn [bc_index bc_db set_index set_db bi_index bi_dirty]. rewrite list_to_set_elements_L, difference_diag_L in Hf. apply Hf.
      intros h Hh%elem_of_elements. by apply (so_dirty _ _ _ _ Hr).
    + destruct (flush_rows (bc_index b) (elements (bi_dirty (bc_index b))) (bc_db b)) as [rows Er]. unfold db'. rewrite Er. done.
Qed.
End durable.

(** * Valid ancestors *)

Definition upgrade (s : Z) : Z := if KnownValid s then s else s ||| statusValid.

Lemma upgrade_idem s : upgrade (upgrade s) = upgrade s.
Proof.
  unfold upgrade. destruct (KnownValid s) eqn:E; [by rewrite E|]. assert (KnownValid (s ||| statusValid) = true) as ->; [|done].
  unfold KnownValid. rewrite Z.land_lor_distr_l, Z.land_diag. apply negb_true_iff, Z.eqb_neq. intros [_ H]%Z.lor_eq_0_iff. done.
Qed.

(** The status of the nodes from [n] down to the genesis block. *)
Definition upgraded (n : blockNode) (st : blockNode -> Z) (m : blockNode) : Z := if bool_decide (m ∈ chain n) then upgrade (st m) else st m.

Lemma mark_valid_spec genesisHash rows n bi : durable genesisHash bi rows -> (forall m, m ∈ chain n -> bi_index bi !! n_hash m = Some m) ->
  durable genesisHash (mark_valid n bi) rows /\ bi_index (mark_valid n bi) = bi_index bi /\
  forall m, bi_index bi !! n_hash m = Some m -> NodeStatus (mark_valid n bi) m = upgraded n (NodeStatus bi) m.
Proof.
  revert bi. induction n as [n IH] using node_ind. intros bi Hd Hin.
  assert (n ∈ chain n) as Hself by (rewrite chain_step, elem_of_app, list_elem_of_singleton; by right).
  set (bi1 := if KnownValid (NodeStatus bi n) then bi else SetStatusFlags n statusValid bi).
  assert (durable genesisHash bi1 rows /\ bi_index bi1 = bi_index bi /\
    forall m, bi_index bi !! n_hash m = Some m -> NodeStatus bi1 m = if decide (m = n) then upgrade (NodeStatus bi m) else NodeStatus bi m) as (Hd1 & Hi1 & Hs1).
  { unfold bi1, upgrade. destruct (KnownValid (NodeStatus bi n)) eqn:Ek.
    - split; [done|]. split; [done|]. intros m _. destruct (decide (m = n)) as [->|]; [by rewrite Ek|done].
    - split; [apply durable_flags; [done|by apply Hin|by vm_compute]|]. split; [done|]. intros m Hm. rewrite SetStatusFlags_status.
      destruct (decide (n_hash m = n_hash n)) as [E|E], (decide (m = n)) as [Em|Em]; [by rewrite Em, Ek| |by rewrite Em in E|done].
      destruct Em. rewrite E, (Hin n Hself) in Hm. congruence. }
  assert (mark_valid n bi = match parent n with None => bi1 | Some p => mark_valid p bi1 end) as -> by (by destruct n).
  assert (forall p, parent n = Some p -> forall m, m ∈ chain n <-> m = n \/ m ∈ chain p) as Hch
    by (intros p Hp m; rewrite (parent_chain n p Hp), elem_of_app, list_elem_of_singleton; tauto).
  destruct (parent n) as [p|] eqn:Hp.
  - destruct (IH bi1 Hd1) as (Hd2 & Hi2 & Hs2); [intros m Hm; rewrite Hi1; apply Hin, (Hch p ltac:(done)); by right|].
    split; [done|]. split; [by rewrite Hi2|]. intros m Hm. rewrite Hs2 by (by rewrite Hi1). unfold upgraded. rewrite Hs1 by done.
    destruct (decide (m = n)) as [->|Hne].
    + rewrite (bool_decide_true (n ∈ chain n)) by done. case_bool_decide; [apply upgrade_idem|done].
    + rewrite (bool_decide_ext (m ∈ chain n) (m ∈ chain p)); [done|]. rewrite (Hch p ltac:(done)). tauto.
  - split; [done|]. split; [done|]. intros m Hm. rewrite Hs1 by done. unfold upgraded. rewrite chain_step, Hp. cbn [app].
    destruct (decide (m = n)) as [->|Hne]; [by rewrite bool_decide_true by apply list_elem_of_here|]. rewrite bool_decide_false; [done|]. by rewrite list_elem_of_singleton.
Qed.

(** * Restart *)

Section restart.
Context `{GlobalConf} (chainParams : Params) (reg : blockReg).

(** A chain that can be stopped: the state agrees with the branch of its tip, the index is
    flushed, and what the snapshot has of the tip is what the database has. *)
Record at_rest (t : blockNode) (C : coins) (b : BlockChain) : Prop := {
  ar_synced : synced t C b;
  ar_durable : durable (GenesisHash chainParams) (bc_index b) (db_blockIndex (bc_db b));
  ar_clean : bi_dirty (bc_index b) = ∅;
  ar_state : exists w, 0 <= w < 2 ^ 256 /\
    db_chainState (bc_db b) = Some (serializeBestChainState (mkBest (n_hash t) (uint32 (height t)) (bs_TotalTxns (bc_snapshot b)) w));
  ar_total : 0 <= bs_TotalTxns (bc_snapshot b) < 2 ^ 64;
  ar_block : exists block, fetch (db_blocks (bc_db b)) t = Ret block;
  ar_elect : db_election (bc_db b) !! n_hash t = Some (serializeElectionState (bs_Elect (bc_snapshot b)));
  ar_votes : -2 ^ 63 <= es_Disapproval (bs_Elect (bc_snapshot b)) < 2 ^ 63;
  ar_median : CalcPastMedianTime t = Ret (bs_MedianTime (bc_snapshot b))
}.

Lemma fetch_inv blocks n block : fetch blocks n = Ret block -> exists bytes msg, blocks !! n_hash n = Some bytes /\
  wire_err (fst (MsgBlock_Deserialize (mkBlock (mkHeader 0 zeroHash zeroHash 0 0 0) None []) bytes)) = Ret msg.
Proof.
  unfold fetch, dbFetchBlockByNode. cbn [db_blocks]. destruct (blocks !! n_hash n) as [bytes|]; [|done]. intros E. exists bytes.
  destruct (wire_err _) as [msg| |]; [|done..]. by exists msg.
Qed.

(** What is loaded from the database of a chain at rest. *)
Lemma load_chain_spec t C b b0 s : at_rest t C b -> bc_index b0 = newBlockIndex -> bc_bestChain b0 = [] -> bc_db b0 = bc_db b ->
  db_chainState (bc_db b) = Some s -> exists bi state,
    load_chain chainParams s b0 = (Ret (), set_snapshot state (set_index bi (set_bestChain (view_of t) b0))) /\
    durable (GenesisHash chainParams) bi (db_blockIndex (bc_db b)) /\ bi_index bi = bi_index (bc_index b) /\
    (forall n, bi_index bi !! n_hash n = Some n -> NodeStatus bi n = upgraded t (NodeStatus (bc_index b)) n) /\
    bs_Hash state = n_hash t /\ bs_Height state = height t /\ bs_TotalTxns state = bs_TotalTxns (bc_snapshot b) /\
    bs_MedianTime state = bs_MedianTime (bc_snapshot b) /\ bs_Elect state = bs_Elect (bc_snapshot b).
Proof.
  intros [Hs [Htr Hst Hr] Hc (w & Hw & Es) Htot (block & Hblk) Hel Hv Hmed] E0 Ev Edb Es'. rewrite Es' in Es. injection Es as ->.
  pose proof (sy_wf _ _ _ Hs) as Hwf. pose proof (height_nonneg t Hwf) as Hht. assert (t ∈ chain t) as Hself by (rewrite chain_step, elem_of_app, list_elem_of_singleton; by right).
  pose proof (sy_known _ _ _ Hs t Hself) as Hkn. unfold load_chain. rewrite best_state_roundtrip; cbn [bc_hash bc_height bc_totalTxns bc_workSum]; [|by eapply tree_hash_len|apply Z.mod_pos_bound; lia|done|done].
  cbn [io_err]. rewrite bind_lift_Ret, bind_gets. rewrite Hc in Hr. rewrite Edb.
  destruct (load_all chainParams (bi_index (bc_index b)) (NodeStatus (bc_index b)) Htr Hst (db_blockIndex (bc_db b)) b0 Hr E0) as (bi & El & Hi & Hdir & Hsta).
  rewrite (bind_Ret _ _ _ _ _ El), bind_gets. cbn [bc_hash bc_totalTxns bc_index set_index]. unfold LookupNode. rewrite Hi, Hkn.
  assert (setTip (Some t) [] = Ret (view_of t)) as Etip by (by apply (setTip_ok t [] []); [constructor|]).
  rewrite (bind_Ret _ _ _ () (set_bestChain (view_of t) (set_index bi b0))) by (unfold set_tip; rewrite bind_gets; cbn [bc_bestChain set_index]; rewrite Ev, Etip; done).
  destruct (fetch_inv _ _ _ Hblk) as (bytes & msg & -> & Ed). rewrite Ed, bind_lift_Ret.
  assert (durable (GenesisHash chainParams) bi (db_blockIndex (bc_db b))) as Hdu.
  { split; [by rewrite Hi| |rewrite Hi, Hdir]; [|destruct Hr as [R1 R2 R3]; split; [|done|done]; intros h n Hn _; rewrite Hsta; [apply (R1 h n Hn), not_elem_of_empty|unfold node_in; by rewrite (tr_keyed _ _ Htr h n Hn)]].
    intros n Hn. rewrite Hi in Hn. rewrite Hsta by done. by apply Hst. }
  destruct (mark_valid_spec _ _ t bi Hdu) as (Hd2 & Hi2 & Hs2); [intros m Hm; rewrite Hi; by apply (sy_known _ _ _ Hs)|].
  rewrite (bind_Ret _ _ _ () (set_index (mark_valid t bi) (set_bestChain (view_of t) b0))) by done.
  unfold dbFetchElectionStateByNode. rewrite Hel. cbn [from_option]. unfold id. rewrite election_state_roundtrip, bind_lift_Ret, Hmed, bind_lift_Ret by done.
  eexists (mark_valid t bi), _. split; [done|]. split; [done|]. split; [by rewrite Hi2|]. split; [|done].
  intros n Hn. rewrite Hi2 in Hn. rewrite Hs2 by done. unfold upgraded. rewrite Hsta by (unfold node_in; by rewrite Hi in Hn). done.
Qed.

Lemma core_inv b b' : core b' = core b -> bc_snapshot b' = bc_snapshot b /\ db_chainState (bc_db b') = db_chainState (bc_db b) /\
  db_blocks (bc_db b') = db_blocks (bc_db b) /\ db_election (bc_db b') = db_election (bc_db b) /\ bc_bestChain b' = bc_bestChain b.
Proof. unfold core, put_blockIndex. by intros [= E1 E2 E3 E4 E5 E6 E7 E8 E9 E10]. Qed.

(** C5: stopping and starting.  From the database of a chain at rest [initChainState]
    rebuilds the chain: the same block index, the same best chain, the same totals, median
    time and election state, and the blocks of the best chain are known to be valid (no
    other status changes).  The chain is at rest again. *)
Theorem restart (t : blockNode) (C : coins) (b b0 : BlockChain) (Hrest : at_rest t C b)
    (Hindex : bc_index b0 = newBlockIndex) (Hview : bc_bestChain b0 = []) (Hdb : bc_db b0 = bc_db b) :
  exists b', initChainState chainParams reg b0 = (Ret (), b') /\ at_rest t C b' /\
    bi_index (bc_index b') = bi_index (bc_index b) /\ bc_bestChain b' = bc_bestChain b /\
    bs_TotalTxns (bc_snapshot b') = bs_TotalTxns (bc_snapshot b) /\ bs_MedianTime (bc_snapshot b') = bs_MedianTime (bc_snapshot b) /\
    bs_Elect (bc_snapshot b') = bs_Elect (bc_snapshot b) /\
    forall n, bi_index (bc_index b) !! n_hash n = Some n -> NodeStatus (bc_index b') n = upgraded t (NodeStatus (bc_index b)) n.
Proof.
  destruct (ar_state _ _ _ Hrest) as (w & Hw & Es).
  destruct (load_chain_spec t C b b0 _ Hrest Hindex Hview Hdb Es) as (bi & state & El & Hd & Hi & Hst & S1 & S2 & S3 & S4 & S5).
  set (b1 := set_snapshot state (set_index bi (set_bestChain (view_of t) b0))) in *.
  destruct (flushToDB_durable (GenesisHash chainParams) b1) as (b2 & Ef & Hd2 & Hc2 & Hi2 & Hs2 & Ecore); [unfold b1; cbn; by rewrite Hdb|].
  exists b2. unfold initChainState. rewrite bind_gets, Hdb, Es, (bind_Ret _ _ _ _ _ El). split; [done|].
  destruct (core_inv _ _ Ecore) as (C1 & C2 & C3 & C4 & C5). destruct Hrest as [Hs _ _ _ Htot Hblk Hel Hv Hmed].
  assert (synced t C b2) as Hs'.
  { apply (synced_core _ _ _ _ Ecore). destruct Hs as [Y1 Y2 Y3 Y4 Y5 Y6 Y7 Y8 Y9 Y10 Y11]. split; unfold b1; cbn; rewrite ?Hdb, ?Hi, ?S1, ?S2, ?S3; try done. }
  rewrite C1, C5, Hi2. unfold b1. cbn. split; [|split; [done|split; [by rewrite (sy_view _ _ _ Hs)|split; [done|split; [done|split; [done|]]]]]].
  - split; rewrite ?C1, ?C2, ?C3, ?C4; unfold b1; cbn; rewrite ?Hdb, ?S3, ?S4, ?S5; try done. by exists w.
  - intros n Hn. assert (NodeStatus (bc_index b2) n = NodeStatus bi n) as -> by (unfold NodeStatus; by rewrite Hs2). apply Hst. by rewrite Hi.
Qed.

(** * The first start *)

Lemma CalcWork_range bits : 0 <= CalcWork bits < 2 ^ 256.
Proof.
  split; [apply CalcWork_nonneg|]. unfold CalcWork. destruct (Z.leb_spec (Z.sgn (CompactToBig bits)) 0) as [Hle|Hgt]; [lia|]. apply Z.div_lt; [done|lia].
Qed.

Definition empty_db : ChainDb := mkDb ∅ ∅ ∅ ∅ ∅ ∅ None ∅.

Lemma loaded_status (g n : blockNode) status : n_hash g = n_hash n -> NodeStatus (load_node g status newBlockIndex) n = status.
Proof. intros E. unfold NodeStatus. change (bi_status (load_node g status newBlockIndex)) with ({[n_hash g := status]} : gmap bytes Z). by rewrite E, lookup_singleton_eq. Qed.

Section genesis.
Context (msg : MsgBlock) (Hwf : block_wf msg) (Hprev : bh_PrevBlock (mb_Header msg) = zeroHash).

#[local] Abbreviation g := (newBlockNode (mb_Header msg) None).

Lemma genesis_wf : node_wf g /\ chain g = [g] /\ node_Header g = mb_Header msg.
Proof using Hprev.
  split; [split; [cbn; lia|done]|]. split; [done|].
  change (node_Header g) with (let h := mb_Header msg in mkHeader (bh_Version h) zeroHash (bh_MerkleRoot h) (bh_Timestamp h) (bh_Bits h) (bh_Nonce h)).
  cbv zeta. rewrite <- Hprev. by destruct (mb_Header msg).
Qed.

Lemma genesis_stored : (forall db, db_blocks db = ∅ -> dbStoreBlock (mkBtcBlock msg 0) db = Ret (put_blocks {[n_hash g := block_bytes msg]} db)) /\
  exists block, fetch {[n_hash g := block_bytes msg]} g = Ret block.
Proof using Hwf.
  split.
  - intros db Edb. unfold dbStoreBlock. rewrite Edb, lookup_empty. cbn [b_MsgBlock]. rewrite (writes_block msg Hwf). done.
  - unfold fetch, dbFetchBlockByNode. cbn [db_blocks]. rewrite lookup_singleton_eq.
    pose proof (reads_block msg (mkHeader 0 zeroHash zeroHash 0 0 0) [] Hwf []) as Hr. rewrite app_nil_r in Hr. rewrite Hr. cbn [fst wire_err mbind outcome_bind]. by eexists.
Qed.

Lemma genesis_tree : n_hash g = GenesisHash chainParams -> tree (GenesisHash chainParams) {[n_hash g := g]}.
Proof using Hwf Hprev.
  intros Hg. destruct genesis_wf as (W1 & _ & W3). split; intros h n.
  - by intros [<- <-]%lookup_singleton_Some.
  - intros [<- <-]%lookup_singleton_Some. rewrite W3. split; [done|]. split; [apply Hwf|done].
  - by intros p [<- <-]%lookup_singleton_Some.
  - by intros [<- <-]%lookup_singleton_Some.
Qed.

Lemma genesis_median : 1 <= MedianTimeBlocks gConf -> CalcPastMedianTime g = Ret (n_timestamp g).
Proof using.
  intros Hm. unfold CalcPastMedianTime. destruct (Z.to_nat (MedianTimeBlocks gConf)) as [|k] eqn:E; [lia|]. done.
Qed.

(** The state and the database of the genesis block. *)
Lemma genesis_synced b : bi_index (bc_index b) = {[n_hash g := g]} -> bc_bestChain b = view_of g -> bs_Hash (bc_snapshot b) = n_hash g -> bs_Height (bc_snapshot b) = 0 ->
  db_chainState (bc_db b) = Some (serializeBestChainState (mkBest (n_hash g) 0 (bs_TotalTxns (bc_snapshot b)) (workSum g))) ->
  db_utxoSet (bc_db b) = ∅ -> db_hashIndex (bc_db b) = {[n_hash g := serialized_height 0]} -> db_heightIndex (bc_db b) = {[serialized_height 0 := n_hash g]} ->
  synced g ∅ b.
Proof using Hprev.
  intros Ei Ev Es1 Es2 Ec Eu Eh Et. destruct (genesis_wf) as (W1 & W2 & _). assert (forall n, n ∈ chain g -> n = g) as Hc by (intros n Hn; rewrite W2 in Hn; by apply list_elem_of_singleton in Hn).
  split; rewrite ?Ei, ?Ev, ?Es1, ?Es2, ?Ec, ?Eu, ?Eh, ?Et.
  - done.
  - by constructor.
  - intros n Hn. rewrite (Hc n Hn). apply lookup_singleton_eq.
  - reflexivity.
  - split; reflexivity.
  - exists (workSum g). reflexivity.
  - apply (empty_db_rep H).
  - intros n p D block Hn Hp. rewrite (Hc n Hn) in Hp. discriminate Hp.
  - intros n Hn. rewrite (Hc n Hn). apply lookup_singleton_eq.
  - intros h [s Hs]. exists g. apply lookup_singleton_Some in Hs as [<- _]. split; [rewrite W2; apply list_elem_of_here|done].
  - intros i Hi. rewrite W2. destruct (decide (i = 0)) as [->|Hne]; [apply lookup_singleton_eq|].
    rewrite lookup_singleton_ne by (intros E; apply serialized_height_inj in E; lia). symmetry. rewrite (proj2 (lookup_ge_None _ _)); [done|]. cbn. lia.
Qed.

End genesis.

(** The chain of the genesis block is at rest. *)
Lemma created_at_rest (msg : MsgBlock) (b0 : BlockChain) (Hreg : genesis_Block (GenesisHash chainParams) reg = Some msg)
    (Hhash : MsgBlock_BlockHash msg = GenesisHash chainParams) (Hprev : bh_PrevBlock (mb_Header msg) = zeroHash) (Hwf : block_wf msg)
    (Hindex : bc_index b0 = newBlockIndex) (Hview : bc_bestChain b0 = []) (Hdb : bc_db b0 = empty_db) (Hmedian : 1 <= MedianTimeBlocks gConf) :
  exists b', initChainState chainParams reg b0 = (Ret (), b') /\ at_rest (newBlockNode (mb_Header msg) None) ∅ b' /\
    bs_Elect (bc_snapshot b') = mkElection (InitialNetworkSteward chainParams) 0.
Proof.
  set (g := newBlockNode (mb_Header msg) None). set (status := statusDataStored ||| statusValid).
  destruct (genesis_wf msg Hprev) as (W1 & W2 & W3). destruct (genesis_stored msg Hwf) as (St & Fe). fold g in W1, W2, W3, St, Fe.
  assert (setTip (Some g) [] = Ret (view_of g)) as Etip by (by apply (setTip_ok g [] []); [constructor|]).
  unfold initChainState. rewrite bind_gets, Hdb. cbn [db_chainState empty_db]. unfold createChainState. rewrite Hreg. cbn [or_panic]. rewrite bind_lift_Ret. cbv zeta. fold g status.
  rewrite (bind_Ret _ _ _ () (set_bestChain (view_of g) b0)) by (unfold set_tip; rewrite bind_gets, Hview, Etip; done).
  rewrite (bind_Ret _ _ _ () (set_index (load_node g status newBlockIndex) (set_bestChain (view_of g) b0))) by (unfold modify; cbn; by rewrite Hindex).
  set (state := newBestState _ _ _ _ _ _ _). set (es := mkElection _ _) in *.
  set (b1 := set_snapshot state (set_index (load_node g status newBlockIndex) (set_bestChain (view_of g) b0))).
  rewrite (bind_Ret _ _ _ () b1) by done. unfold Update. rewrite bind_gets. change (bc_db b1) with (bc_db b0). rewrite Hdb, St by done. rewrite bind_lift_Ret.
  eexists. split; [done|]. split; [|done]. pose proof (bwf_count msg Hwf) as Hcount. pose proof (len_nonneg (mb_Transactions msg)). assert (maxTxPerBlock = 400001) as Emax by done.
  assert (n_hash g = GenesisHash chainParams) as Hg by done. unfold b1. split; cbn [bc_index bc_db bc_snapshot set_db set_snapshot set_index set_bestChain].
  - by apply genesis_synced.
  - split; [exact (genesis_tree msg Hwf Hprev Hg)| |].
    + intros n Hn. change (bi_index (load_node g status newBlockIndex)) with ({[n_hash g := g]} : gmap bytes blockNode) in Hn. apply lookup_singleton_Some in Hn as [E _].
      rewrite (loaded_status g n status E). split; [discriminate|reflexivity].
    + change (bi_index (load_node g status newBlockIndex)) with ({[n_hash g := g]} : gmap bytes blockNode).
      change (db_blockIndex ?d) with ({[row_key g := row_of g status]} : Bucket). split.
      * intros h n [<- <-]%lookup_singleton_Some _. rewrite (loaded_status g g status eq_refl). apply lookup_singleton_eq.
      * intros k v [<- _]%lookup_singleton_Some. exists (n_hash g), g. split; [apply lookup_singleton_eq|reflexivity].
      * intros h Hh. destruct (not_elem_of_empty h Hh).
  - reflexivity.
  - exists (workSum g). split; [apply CalcWork_range|reflexivity].
  - change (0 <= len (mb_Transactions msg) < 2 ^ 64). lia.
  - exact Fe.
  - apply lookup_singleton_eq.
  - change (-2 ^ 63 <= 0 < 2 ^ 63). lia.
  - exact (genesis_median msg Hmedian).
Qed.

(** C6: the first start.  On an empty database [initChainState] sets up the chain of the
    genesis block, and that chain is at rest: no coins, since the genesis block's cannot
    be spent, and the initial network steward. *)
Theorem first_start (msg : MsgBlock) (b0 : BlockChain) (Hreg : genesis_Block (GenesisHash chainParams) reg = Some msg)
    (Hhash : MsgBlock_BlockHash msg = GenesisHash chainParams) (Hprev : bh_PrevBlock (mb_Header msg) = zeroHash) (Hwf : block_wf msg)
    (Hindex : bc_index b0 = newBlockIndex) (Hview : bc_bestChain b0 = []) (Hdb : bc_db b0 = empty_db) (Hmedian : 1 <= MedianTimeBlocks gConf) :
  exists b', initChainState chainParams reg b0 = (Ret (), b') /\ at_rest (newBlockNode (mb_Header msg) None) ∅ b' /\
    bs_Elect (bc_snapshot b') = mkElection (InitialNetworkSteward chainParams) 0.
Proof. by eapply created_at_rest. Qed.
End restart.

(** * The Bitcoin network *)

#[local] Transparent b_Hash TxHash BlockHash.
#[local] Instance bitcoin : GlobalConf := BitcoinDefaults.

Definition bitcoin_genesis : MsgBlock :=
  mkBlock (mkHeader 1 zeroHash (newHashFromStr 0x4a5e1e4baab89f3a32518a88c31bc87f618f76673e2cc77ab2127b7afdeda33b) 0x495fab29 0x1d00ffff 0x7c2bac1d) None [genesisCoinbaseTx].

Definition bitcoin_reg : blockReg := {[GenesisHash MainNetParams := bitcoin_genesis]}.

(** Before the start. *)
Definition new_chain (db : ChainDb) : BlockChain :=
  mkChain newBlockIndex [] (mkCaches (newThresholdCaches 3) (newThresholdCaches 29) false false)
    (mkBestState zeroHash 0 0 0 0 0 0 0 (mkElection [] 0)) None None db None None ∅ ∅ None.

Lemma bitcoin_hash : MsgBlock_BlockHash bitcoin_genesis = GenesisHash MainNetParams.
Proof. vm_compute. reflexivity. Qed.

Lemma bitcoin_wf : block_wf bitcoin_genesis.
Proof.
  constructor; [constructor; vm_compute; repeat split; congruence|reflexivity|vm_compute; congruence|].
  constructor; [|done]. split; [|split; [done|vm_compute; congruence]]. constructor.
  - vm_compute. split; congruence.
  - constructor; [|done]. constructor; try done; vm_compute; repeat split; congruence.
  - vm_compute. congruence.
  - constructor; [|done]. constructor; try done; vm_compute; repeat split; congruence.
  - vm_compute. congruence.
  - vm_compute. split; congruence.
Qed.

Lemma bitcoin_registered : genesis_Block (GenesisHash MainNetParams) bitcoin_reg = Some bitcoin_genesis.
Proof. apply lookup_singleton_eq. Qed.

Lemma first_start_witness : exists b', initChainState MainNetParams bitcoin_reg (new_chain empty_db) = (Ret (), b') /\
  tip (bc_bestChain b') = Some (newBlockNode (mb_Header bitcoin_genesis) None).
Proof.
  destruct (first_start MainNetParams bitcoin_reg bitcoin_genesis (new_chain empty_db) bitcoin_registered bitcoin_hash eq_refl bitcoin_wf eq_refl eq_refl eq_refl
    ltac:(vm_compute; congruence)) as (b' & E & Hr & _).
  exists b'. split; [exact E|]. exact (tip_synced _ _ _ (ar_synced _ _ _ _ Hr)).
Defined.

(** A chain is set up, stopped and started again. *)
Lemma restart_witness : exists b b', initChainState MainNetParams bitcoin_reg (new_chain empty_db) = (Ret (), b) /\
  initChainState MainNetParams bitcoin_reg (new_chain (bc_db b)) = (Ret (), b') /\ bi_index (bc_index b') = bi_index (bc_index b) /\ bc_bestChain b' = bc_bestChain b.
Proof.
  destruct (created_at_rest MainNetParams bitcoin_reg bitcoin_genesis (new_chain empty_db) bitcoin_registered bitcoin_hash eq_refl bitcoin_wf eq_refl eq_refl eq_refl
    ltac:(vm_compute; congruence)) as (b & E & Hr & _).
  destruct (restart MainNetParams bitcoin_reg _ ∅ b (new_chain (bc_db b)) Hr eq_refl eq_refl eq_refl) as (b' & E' & _ & Hi & Hv & _).
  exists b, b'. split; [exact E|]. split; [exact E'|]. split; [exact Hi|exact Hv].
Defined.
